(* ===== verification/_CoqProject ===== *)
-Q . S2P
Prelude.v
Errno.v
Vnode.v
Time.v
Mem.v
RingBuffer.v
Auth.v
FdTable.v
CString.v
DList.v
HashTable.v
Semaphore.v
Timer.v
Iovec.v
Pmm.v
Slab.v
Alloc.v
Poll.v
Pipe.v
Net.v
Arp.v
Udp.v
Signal.v
Jobctl.v
Proc.v
Vfs.v
Tmpfs.v
Mmu.v
Vmm.v
Ranges.v
Fault.v
Map.v
Machine.v
VmmRuns.v
