(* ===== verification/Prelude.v ===== *)
(** * A verification of the Astral kernel

    Astral is a monolithic kernel for x86-64 in C ([src/kernel-src]).  This
    library has executable definitions for the parts of it that keep state (about
    eight thousand lines of C) and the theorems that say what they do.

    ** Conventions

    A C function is a Rocq function of the same name.  It takes the state it works
    on and returns [option]: [None] is a panic, a failed assertion, an access
    outside an object or through a null pointer; a theorem that a call is
    [Some] says that none of these happens.  Errors are the numbers of [Errno].
    Integers are [Z] with the conversions of this file ([u64], [s64], [s32], ...)
    where the C code stores them in a type of that width.  Memory that is linked
    by pointers is a [gmap] from addresses to records and the links are fields
    of the records, so a chain can be ill formed and the invariants say when it is
    not.  A section under a lock is one step; a thread that has to wait ends its
    step asleep, and what it does after the wakeup is another step.  Runs are
    sequences of such steps in any order.

    What is outside the sources, or behind an interface of the kernel, is a type
    class with its laws: the intrusive links of a structure ([Linked], [DList]),
    the contents of slab objects ([Objects], [Slab], whose instance is the kernel
    heap), drivers of network devices ([Driver], [Net], with the loopback device as
    instance), page allocation as page tables see it ([Frames] and [FramesLaws],
    [Mmu], with the allocator of [Pmm] as instance), vnodes and page cache as
    virtual memory sees them ([Files], [Vmm]; [FilesLaws], [Ranges]), file system
    operations as path lookup sees them ([Vops] and [LookupLaws], [Vfs], with the
    memory file system of [Tmpfs] as instance).

    ** The files

    Foundations:
    - [Prelude]: integers, slices, the option monad's assertions, tactics;
      [Errno]: [errno.h] and [strerror]; [Vnode]: types, flags and attributes of
      vnodes;
    - [Mem]: user memory and the guarded copies of [mm/usercopy.c]; [CString]:
      [lib/string.c]; [DList]: doubly linked lists at pointer level;
    - [HashTable]: [lib/hashtable.c]; [RingBuffer]: [lib/ringbuffer.c]; [Iovec]:
      [io/iovec.c].

    Threads, time and waiting:
    - [Semaphore]: [lib/semaphore.c] and [mutex.h] with the sleep and wakeup calls
      of the scheduler; [Timer]: [sys/timer.c]; [Time]: [time.h] and
      [sys/timekeeper.c]; [Poll]: [io/poll.c].

    Memory:
    - [Pmm]: [mm/pmm.c]; [Slab]: [mm/slab.c]; [Alloc]: [mm/alloc.c];
    - [Mmu]: page tables and traps of [arch/x86-64/mmu.c];
    - [Vmm]: all of [mm/vmm.c]; [Ranges]: what chains of ranges mean; [Map]:
      mappings, and the ranges of a fork; [Fault]: page faults, copy on write and
      the pages of a fork; [Machine]: initialisation, and a small machine on which
      everything runs; [VmmRuns]: runs of it that show defects.

    Files:
    - [FdTable]: [fs/file.c] and the descriptor system calls; [Pipe]:
      [fs/pipefs.c]; [Vfs]: paths and mounts of [fs/vfs.c]; [Tmpfs]: [fs/tmpfs.c].

    Network:
    - [Net]: Ethernet, IPv4 and the loopback device; [Arp]: [io/net/arp.c];
      [Udp]: [io/net/udp.c].

    Processes:
    - [Auth]: [sys/auth.c], [sys/defaultauth.c] and [sys/cred.c]; [Signal]:
      [sys/signal.c] and its system calls; [Jobctl]: [sys/jobctl.c]; [Proc]:
      families of processes in [sys/proc.c], [fork.c] and [waitpid.c].

    ** The theorems

    - Refinement: sequences of operations do what a simple abstract object does,
      without a fault: page tables and translations ([mmu_run_refines]), spaces
      and maps of addresses ([map_run_refines]), tables and finite maps
      ([hashtable_refines_map]), page lists and reference counts
      ([pmm_run_refines]), slabs and sets of objects ([slab_run_refines]), the heap
      and disjoint blocks ([heap_run_refines]), pipes and byte streams
      ([pipe_stream_fifo]), sockets and queues of datagrams ([udp_simulation]),
      directories and names ([tmpfs_refines_names]).
    - Invariants under every interleaving: semaphores and mutexes
      ([semaphore_run_safe], [mutex_exclusion], [semaphore_no_lost_wakeup]),
      waiting ([poll_run_safe], [poll_event_wakes]), descriptors ([fd_run_safe]),
      nodes of the memory file system ([tmpfs_run_safe]), the cache of addresses
      ([arp_cache_told]).
    - Functional behaviour on every branch: page faults ([pagefault_anonymous]) and
      forked pages ([fork_pages_share]), ring buffers ([ringbuffer_write_fifo],
      [ringbuffer_read_fifo]), the timer interrupt ([timer_isr_fires]), writes to
      pipes ([pipe_write_atomic]), signals ([signal_kill_outcome],
      [signal_check_acts], [signal_blocked_outcome], [sigreturn_restores]), groups
      ([jobctl_signal_group]), waiting for children ([waitpid_outcome]), lookup
      and creation by path ([vfs_lookup_resolves], [vfs_lookup_terminates],
      [vfs_create_makes]), fragments and framing ([ipv4_fragmentation],
      [udp_loopback]), the clock ([timekeeper_monotone]).
    - Security: access is the POSIX rule ([access_is_posix]) and credentials cannot
      be widened without privilege ([cred_confinement]).
    - Where the code does something it cannot mean to do the theorems say what:
      [fork_range_unshared], [unreadable_spins], [jobctl_newgroup_orphans], and the
      exceptional cases of [map_run_refines], [pipe_write_atomic],
      [udp_simulation], [timer_isr_fires], [signal_kill_outcome] and
      [waitpid_outcome].  Other defects are lemmas of their files.

    ** Fuel

    Loops over a chain take the size of the heap the chain is in plus one, which no
    chain without a cycle exceeds; loops over a table or a vector its length plus
    one.  The theorems prove that the result is there, so the fuel is enough.
    Path lookup recurses through at most 64 links before the code itself gives up
    ([vfs_lookup_terminates]).  Sending a signal recurses at most once, to tell a
    parent with [SIGCHLD], which is neither a stop nor a continue signal, and has
    fuel 2.  String loops take the length of the string plus one.

    ** What is not modelled

    Hardware and drivers (start of the processors, interrupt controllers, PCI,
    virtio, NVMe, ACPI, input, display, audio), the on-disk file system [ext2], the
    device file system, TCP and local sockets, terminals, program loading, and
    the system calls that only decode arguments for operations that are modelled.
    Of the page cache ([mm/vmmcache.c]) there is only what the page allocator and
    virtual memory call; of the scheduler only sleeping and waking.  Weak memory
    and races between unlocked accesses are not modelled: what a lock protects is
    atomic.  Translation caches are not modelled; an access sees the tables. *)

From stdpp Require Export base option list numbers gmap.
From Stdlib Require Export ZArith Lia.

#[global] Open Scope Z_scope.

(** ** Machine integers

    Every C integer is a [Z]; the functions below are the conversions the
    source performs when it stores a value in a type of that width. *)

Definition u64 (x : Z) : Z := x mod 2 ^ 64.
Definition u32 (x : Z) : Z := x mod 2 ^ 32.
Definition u8 (x : Z) : Z := x mod 2 ^ 8.

Definition s64 (x : Z) : Z :=
  if u64 x <? 2 ^ 63 then u64 x else u64 x - 2 ^ 64.

Definition s32 (x : Z) : Z :=
  if u32 x <? 2 ^ 31 then u32 x else u32 x - 2 ^ 32.

(** The values of a 64 bit unsigned object. *)
Definition is_u64 (x : Z) : Prop := 0 <= x < 2 ^ 64.

(** [include/util.h]: [static inline long min(long, long)].  Both arguments
    are converted to a signed 64 bit [long] before they are compared, and the
    callers below store the result in a [size_t]. *)
Definition cmin (x y : Z) : Z :=
  u64 (if s64 x >? s64 y then s64 y else s64 x).

(** [include/util.h]: [ROUND_DOWN] and [ROUND_UP] on 64 bit operands. *)
Definition ROUND_DOWN (v n : Z) : Z := u64 (v - v mod n).
Definition ROUND_UP (v n : Z) : Z := ROUND_DOWN (u64 (v + n - 1)) n.

Definition PAGE_SIZE : Z := 4096.

(** ** Failure

    [None] in the [option] monad stands for the kernel stopping: a failed
    [__assert], a page fault in kernel mode with no recovery context, or an
    access outside an object. *)
Definition passert (b : bool) : option unit := if b then Some tt else None.

(** ** Bit flags *)
Definition has (flags mask : Z) : bool := negb (Z.land flags mask =? 0).

(** ** List slices *)
Section slices.
Context {A : Type}.

Definition slice (l : list A) (off n : nat) : list A := take n (drop off l).

Definition splice (l : list A) (off : nat) (bs : list A) : list A :=
  take off l ++ bs ++ drop (off + length bs) l.

Lemma length_splice (l bs : list A) off :
  (off + length bs <= length l)%nat -> length (splice l off bs) = length l.
Proof.
  intros H. unfold splice. rewrite !length_app, length_take, length_drop. lia.
Qed.

Lemma lookup_splice (l bs : list A) off i :
  (off + length bs <= length l)%nat ->
  splice l off bs !! i =
    if decide (off <= i < off + length bs)%nat then bs !! (i - off)%nat else l !! i.
Proof.
  intros H. unfold splice. destruct (decide _) as [Hi|Hi].
  - rewrite lookup_app_r by (rewrite length_take; lia).
    rewrite length_take, Nat.min_l by lia. rewrite lookup_app_l by lia. done.
  - destruct (decide (i < off)%nat).
    + rewrite lookup_app_l by (rewrite length_take; lia). by apply lookup_take_lt.
    + rewrite lookup_app_r by (rewrite length_take; lia).
      rewrite length_take, Nat.min_l by lia.
      rewrite lookup_app_r by lia. rewrite lookup_drop. f_equal. lia.
Qed.

Lemma lookup_slice (l : list A) off n i :
  slice l off n !! i = if decide (i < n)%nat then l !! (off + i)%nat else None.
Proof.
  unfold slice. destruct (decide _).
  - rewrite lookup_take_lt by done. apply lookup_drop.
  - apply lookup_take_ge. lia.
Qed.

Lemma length_slice (l : list A) off n :
  (off + n <= length l)%nat -> length (slice l off n) = n.
Proof. intros H. unfold slice. rewrite length_take, length_drop. lia. Qed.
End slices.

(** ** Arithmetic lemmas *)

Lemma u64_range x : is_u64 (u64 x).
Proof. unfold is_u64, u64. apply Z.mod_pos_bound. lia. Qed.

Lemma u64_id x : is_u64 x -> u64 x = x.
Proof. unfold is_u64, u64. intros. apply Z.mod_small. lia. Qed.

Lemma u64_u64 x : u64 (u64 x) = u64 x.
Proof. apply u64_id, u64_range. Qed.

Lemma u64_sub_r a b : u64 (a - u64 b) = u64 (a - b).
Proof. unfold u64. apply Zminus_mod_idemp_r. Qed.

Lemma u64_sub_l a b : u64 (u64 a - b) = u64 (a - b).
Proof. unfold u64. apply Zminus_mod_idemp_l. Qed.

Lemma u64_add_l a b : u64 (u64 a + b) = u64 (a + b).
Proof. unfold u64. apply Zplus_mod_idemp_l. Qed.

Lemma s32_small z : - 2 ^ 31 <= z < 2 ^ 31 -> s32 z = z.
Proof.
  intros H. unfold s32, u32. destruct (decide (0 <= z)).
  - rewrite Z.mod_small by lia. case_match; lia.
  - rewrite <- (Z.mod_unique z (2 ^ 32) (-1) (z + 2 ^ 32)) by lia. case_match; lia.
Qed.

Lemma s64_id x : 0 <= x < 2 ^ 63 -> s64 x = x.
Proof.
  intros H. unfold s64. rewrite u64_id by (unfold is_u64; lia).
  destruct (Z.ltb_spec x (2 ^ 63)); lia.
Qed.

Lemma s64_small z : - 2 ^ 63 <= z < 2 ^ 63 -> s64 z = z.
Proof.
  intros H. unfold s64, u64. destruct (decide (0 <= z)).
  - rewrite Z.mod_small by lia. case_match; lia.
  - rewrite <- (Z.mod_unique z (2 ^ 64) (-1) (z + 2 ^ 64)) by lia. case_match; lia.
Qed.

Lemma cmin_small x y :
  0 <= x < 2 ^ 63 -> 0 <= y < 2 ^ 63 -> cmin x y = Z.min x y.
Proof.
  intros Hx Hy. unfold cmin. rewrite !s64_id by done.
  destruct (Z.gtb_spec x y); rewrite u64_id by (unfold is_u64; lia); lia.
Qed.

(** Wrapping a counter at 64 bits does not move the slot it selects when the
    modulus divides [2 ^ 64]. *)
Lemma u64_mod_divide x i n :
  0 < n -> (n | 2 ^ 64) -> (u64 x + i) mod n = (x + i) mod n.
Proof.
  intros Hn [q Hq]. unfold u64.
  rewrite (Z.div_mod x (2 ^ 64)) at 2 by lia.
  replace (2 ^ 64 * (x / 2 ^ 64) + x mod 2 ^ 64 + i)
    with (x mod 2 ^ 64 + i + (q * (x / 2 ^ 64)) * n) by (rewrite Hq; ring).
  by rewrite Z.mod_add by lia.
Qed.

Lemma ROUND_DOWN_spec v n :
  0 < n -> is_u64 v ->
  ROUND_DOWN v n <= v < ROUND_DOWN v n + n /\ ROUND_DOWN v n mod n = 0.
Proof.
  intros Hn Hv. unfold ROUND_DOWN. pose proof (Z.mod_pos_bound v n Hn).
  assert (v mod n <= v) by (apply Z.mod_le; unfold is_u64 in Hv; lia).
  rewrite u64_id by (unfold is_u64 in *; lia). split; [lia|].
  rewrite Zminus_mod_idemp_r, Z.sub_diag. apply Z.mod_0_l. lia.
Qed.

Lemma ROUND_UP_spec v n :
  0 < n -> 0 <= v -> v + n - 1 < 2 ^ 64 ->
  v <= ROUND_UP v n < v + n /\ ROUND_UP v n mod n = 0.
Proof.
  intros Hn Hv Hb. unfold ROUND_UP. rewrite u64_id by (unfold is_u64; lia).
  destruct (ROUND_DOWN_spec (v + n - 1) n Hn) as [H1 H2]; [unfold is_u64; lia|].
  split; [lia|done].
Qed.

(** ** Automation *)

Create HintDb astral.
Create Rewrite HintDb astral.
#[export] Hint Resolve u64_range : astral.
#[export] Hint Rewrite u64_u64 : astral.

(** Case analysis on the boolean comparisons of the source. *)
Ltac cases_bool :=
  repeat match goal with
  | |- context [?x <? ?y] => destruct (Z.ltb_spec x y)
  | |- context [?x <=? ?y] => destruct (Z.leb_spec x y)
  | |- context [?x >? ?y] => destruct (Z.gtb_spec x y)
  | |- context [?x >=? ?y] => rewrite (Z.geb_leb x y)
  | |- context [?x =? ?y] => destruct (Z.eqb_spec x y)
  end.

(** Invert every bind of an [option] computation known to succeed. *)
Ltac inv_opt :=
  repeat match goal with
  | H : Some _ = Some _ |- _ => injection H as H; try subst
  | H : None = Some _ |- _ => discriminate H
  | H : mbind _ _ = Some _ |- _ =>
      let x := fresh "r" in let E := fresh "E" in
      apply bind_Some in H as (x & E & H)
  | H : passert ?b = Some _ |- _ =>
      unfold passert in H; destruct b eqn:?; [|discriminate H]
  end.

(** Slot arithmetic for rings: offsets within one lap of each other select
    distinct slots. *)
Lemma ring_slot s off i :
  0 <= off < s -> 0 <= i < s ->
  (off + i) mod s = if off + i <? s then off + i else off + i - s.
Proof.
  intros Ho Hi. destruct (Z.ltb_spec (off + i) s).
  - apply Z.mod_small. lia.
  - symmetry. apply (Z.mod_unique_pos _ _ 1); lia.
Qed.

Lemma ring_slot_inj s x i j :
  0 < s -> (x + i) mod s = (x + j) mod s -> - s < i - j < s -> i = j.
Proof.
  intros Hs He Hd.
  assert (H : (i - j) mod s = 0).
  { replace (i - j) with (x + i - (x + j)) by lia.
    rewrite Zminus_mod, He, Z.sub_diag. apply Z.mod_0_l. lia. }
  apply Z.mod_divide in H as [q Hq]; [|lia].
  assert (q = 0) as -> by nia. lia.
Qed.

Lemma lookup_map_seq {A} (f : nat -> A) n i :
  map f (seq 0 n) !! i = if decide (i < n)%nat then Some (f i) else None.
Proof.
  rewrite list_lookup_fmap. destruct (decide _).
  - rewrite lookup_seq_lt by done. done.
  - rewrite lookup_seq_ge by lia. done.
Qed.

Lemma lookup_total_Some {A} `{Inhabited A} (l : list A) i :
  (i < length l)%nat -> l !! i = Some (l !!! i).
Proof. apply list_lookup_lookup_total_lt. Qed.

(** A single bit mask tests that bit. *)
Lemma has_pow2 x k : 0 <= k -> has x (2 ^ k) = Z.testbit x k.
Proof.
  intros Hk. unfold has. destruct (Z.testbit x k) eqn:E.
  - destruct (Z.eqb_spec (Z.land x (2 ^ k)) 0) as [H|]; [|done].
    apply (f_equal (fun z => Z.testbit z k)) in H.
    by rewrite Z.land_spec, E, Z.pow2_bits_true, Z.bits_0 in H.
  - destruct (Z.eqb_spec (Z.land x (2 ^ k)) 0) as [|H]; [done|]. destruct H.
    apply Z.bits_inj'. intros n Hn. rewrite Z.land_spec, Z.bits_0.
    destruct (decide (n = k)) as [->|]; [by rewrite E|].
    rewrite Z.pow2_bits_false by lia. apply andb_false_r.
Qed.

Lemma has_lor x a b : has x (Z.lor a b) = has x a || has x b.
Proof.
  unfold has. rewrite Z.land_lor_distr_r.
  destruct (Z.eqb_spec (Z.land x a) 0) as [->|Ha], (Z.eqb_spec (Z.land x b) 0) as [->|Hb];
    simpl; rewrite ?Z.lor_0_l, ?Z.lor_0_r; try done;
    destruct (Z.eqb_spec (Z.lor (Z.land x a) (Z.land x b)) 0) as [H|];
    cases_bool; try done; try (apply Z.lor_eq_0_iff in H; tauto).
Qed.

(** ** State passing with failure *)

Definition stM (S A : Type) : Type := S -> option (A * S).

#[global] Instance stM_ret S : MRet (stM S) := fun A a s => Some (a, s).
#[global] Instance stM_bind S : MBind (stM S) := fun A B f m s =>
  match m s with
  | None => None
  | Some (a, s') => f a s'
  end.

Definition getS {S} : stM S S := fun s => Some (s, s).
Definition getsS {S A} (f : S -> A) : stM S A := fun s => Some (f s, s).
Definition modifyS {S} (f : S -> S) : stM S unit := fun s => Some (tt, f s).
Definition failS {S A} : stM S A := fun _ => None.
Definition liftS {S A} (o : option A) : stM S A := fun s => a ← o; Some (a, s).
Definition assertS {S} (b : bool) : stM S unit := liftS (passert b).

Lemma bindS_run {S A B} (m : stM S A) (f : A -> stM S B) s a s' :
  m s = Some (a, s') -> (m ≫= f) s = f a s'.
Proof. intros H. unfold mbind, stM_bind. by rewrite H. Qed.

Lemma bindS_get {S A} (k : S -> stM S A) s : (getS ≫= k) s = k s s.
Proof. done. Qed.
