(* ===== verification/Errno.v ===== *)
(** * Error numbers ([include/errno.h]) and their names ([strerror] of
      [lib/string.c]) *)

From stdpp Require Import strings.
From S2P Require Import Prelude.

Definition EPERM : Z := 1.
Definition ENOENT : Z := 2.
Definition ESRCH : Z := 3.
Definition EINTR : Z := 4.
Definition EIO : Z := 5.
Definition ENXIO : Z := 6.
Definition E2BIG : Z := 7.
Definition ENOEXEC : Z := 8.
Definition EBADF : Z := 9.
Definition ECHILD : Z := 10.
Definition EAGAIN : Z := 11.
Definition ENOMEM : Z := 12.
Definition EACCES : Z := 13.
Definition EFAULT : Z := 14.
Definition ENOTBLK : Z := 15.
Definition EBUSY : Z := 16.
Definition EEXIST : Z := 17.
Definition EXDEV : Z := 18.
Definition ENODEV : Z := 19.
Definition ENOTDIR : Z := 20.
Definition EISDIR : Z := 21.
Definition EINVAL : Z := 22.
Definition ENFILE : Z := 23.
Definition EMFILE : Z := 24.
Definition ENOTTY : Z := 25.
Definition ETXTBSY : Z := 26.
Definition EFBIG : Z := 27.
Definition ENOSPC : Z := 28.
Definition ESPIPE : Z := 29.
Definition EROFS : Z := 30.
Definition EMLINK : Z := 31.
Definition EPIPE : Z := 32.
Definition EDOM : Z := 33.
Definition ERANGE : Z := 34.
Definition EDEADLK : Z := 35.
Definition ENAMETOOLONG : Z := 36.
Definition ENOLCK : Z := 37.
Definition ENOSYS : Z := 38.
Definition ENOTEMPTY : Z := 39.
Definition ELOOP : Z := 40.
Definition EWOULDBLOCK : Z := EAGAIN.
Definition ENOMSG : Z := 42.
Definition EIDRM : Z := 43.
Definition ECHRNG : Z := 44.
Definition EL2NSYNC : Z := 45.
Definition EL3HLT : Z := 46.
Definition EL3RST : Z := 47.
Definition ELNRNG : Z := 48.
Definition EUNATCH : Z := 49.
Definition ENOCSI : Z := 50.
Definition EL2HLT : Z := 51.
Definition EBADE : Z := 52.
Definition EBADR : Z := 53.
Definition EXFULL : Z := 54.
Definition ENOANO : Z := 55.
Definition EBADRQC : Z := 56.
Definition EBADSLT : Z := 57.
Definition EDEADLOCK : Z := EDEADLK.
Definition EBFONT : Z := 59.
Definition ENOSTR : Z := 60.
Definition ENODATA : Z := 61.
Definition ETIME : Z := 62.
Definition ENOSR : Z := 63.
Definition ENONET : Z := 64.
Definition ENOPKG : Z := 65.
Definition EREMOTE : Z := 66.
Definition ENOLINK : Z := 67.
Definition EADV : Z := 68.
Definition ESRMNT : Z := 69.
Definition ECOMM : Z := 70.
Definition EPROTO : Z := 71.
Definition EMULTIHOP : Z := 72.
Definition EDOTDOT : Z := 73.
Definition EBADMSG : Z := 74.
Definition EOVERFLOW : Z := 75.
Definition ENOTUNIQ : Z := 76.
Definition EBADFD : Z := 77.
Definition EREMCHG : Z := 78.
Definition ELIBACC : Z := 79.
Definition ELIBBAD : Z := 80.
Definition ELIBSCN : Z := 81.
Definition ELIBMAX : Z := 82.
Definition ELIBEXEC : Z := 83.
Definition EILSEQ : Z := 84.
Definition ERESTART : Z := 85.
Definition ESTRPIPE : Z := 86.
Definition EUSERS : Z := 87.
Definition ENOTSOCK : Z := 88.
Definition EDESTADDRREQ : Z := 89.
Definition EMSGSIZE : Z := 90.
Definition EPROTOTYPE : Z := 91.
Definition ENOPROTOOPT : Z := 92.
Definition EPROTONOSUPPORT : Z := 93.
Definition ESOCKTNOSUPPORT : Z := 94.
Definition EOPNOTSUPP : Z := 95.
Definition ENOTSUP : Z := EOPNOTSUPP.
Definition EPFNOSUPPORT : Z := 96.
Definition EAFNOSUPPORT : Z := 97.
Definition EADDRINUSE : Z := 98.
Definition EADDRNOTAVAIL : Z := 99.
Definition ENETDOWN : Z := 100.
Definition ENETUNREACH : Z := 101.
Definition ENETRESET : Z := 102.
Definition ECONNABORTED : Z := 103.
Definition ECONNRESET : Z := 104.
Definition ENOBUFS : Z := 105.
Definition EISCONN : Z := 106.
Definition ENOTCONN : Z := 107.
Definition ESHUTDOWN : Z := 108.
Definition ETOOMANYREFS : Z := 109.
Definition ETIMEDOUT : Z := 110.
Definition ECONNREFUSED : Z := 111.
Definition EHOSTDOWN : Z := 112.
Definition EHOSTUNREACH : Z := 113.
Definition EALREADY : Z := 114.
Definition EINPROGRESS : Z := 115.
Definition ESTALE : Z := 116.
Definition EUCLEAN : Z := 117.
Definition ENOTNAM : Z := 118.
Definition ENAVAIL : Z := 119.
Definition EISNAM : Z := 120.
Definition EREMOTEIO : Z := 121.
Definition EDQUOT : Z := 122.
Definition ENOMEDIUM : Z := 123.
Definition EMEDIUMTYPE : Z := 124.
Definition ECANCELED : Z := 125.
Definition ENOKEY : Z := 126.
Definition EKEYEXPIRED : Z := 127.
Definition EKEYREVOKED : Z := 128.
Definition EKEYREJECTED : Z := 129.
Definition EOWNERDEAD : Z := 130.
Definition ENOTRECOVERABLE : Z := 131.
Definition ERFKILL : Z := 132.
Definition EHWPOISON : Z := 133.

(** The cases of the [switch], in its order; [DO_NAME] returns the macro's own
    name. *)
Definition strerror_cases : list (Z * string) :=
  [ (0, "OK"%string);
    (EPERM, "EPERM"%string);
    (ENOENT, "ENOENT"%string);
    (ESRCH, "ESRCH"%string);
    (EINTR, "EINTR"%string);
    (EIO, "EIO"%string);
    (ENXIO, "ENXIO"%string);
    (E2BIG, "E2BIG"%string);
    (ENOEXEC, "ENOEXEC"%string);
    (EBADF, "EBADF"%string);
    (ECHILD, "ECHILD"%string);
    (EAGAIN, "EAGAIN"%string);
    (ENOMEM, "ENOMEM"%string);
    (EACCES, "EACCES"%string);
    (EFAULT, "EFAULT"%string);
    (ENOTBLK, "ENOTBLK"%string);
    (EBUSY, "EBUSY"%string);
    (EEXIST, "EEXIST"%string);
    (EXDEV, "EXDEV"%string);
    (ENODEV, "ENODEV"%string);
    (ENOTDIR, "ENOTDIR"%string);
    (EISDIR, "EISDIR"%string);
    (EINVAL, "EINVAL"%string);
    (ENFILE, "ENFILE"%string);
    (EMFILE, "EMFILE"%string);
    (ENOTTY, "ENOTTY"%string);
    (ETXTBSY, "ETXTBSY"%string);
    (EFBIG, "EFBIG"%string);
    (ENOSPC, "ENOSPC"%string);
    (ESPIPE, "ESPIPE"%string);
    (EROFS, "EROFS"%string);
    (EMLINK, "EMLINK"%string);
    (EPIPE, "EPIPE"%string);
    (EDOM, "EDOM"%string);
    (ERANGE, "ERANGE"%string);
    (EDEADLK, "EDEADLK"%string);
    (ENAMETOOLONG, "ENAMETOOLONG"%string);
    (ENOLCK, "ENOLCK"%string);
    (ENOSYS, "ENOSYS"%string);
    (ENOTEMPTY, "ENOTEMPTY"%string);
    (ELOOP, "ELOOP"%string);
    (ENOMSG, "ENOMSG"%string);
    (EIDRM, "EIDRM"%string);
    (ECHRNG, "ECHRNG"%string);
    (EL2NSYNC, "EL2NSYNC"%string);
    (EL3HLT, "EL3HLT"%string);
    (EL3RST, "EL3RST"%string);
    (ELNRNG, "ELNRNG"%string);
    (EUNATCH, "EUNATCH"%string);
    (ENOCSI, "ENOCSI"%string);
    (EL2HLT, "EL2HLT"%string);
    (EBADE, "EBADE"%string);
    (EBADR, "EBADR"%string);
    (EXFULL, "EXFULL"%string);
    (ENOANO, "ENOANO"%string);
    (EBADRQC, "EBADRQC"%string);
    (EBADSLT, "EBADSLT"%string);
    (EBFONT, "EBFONT"%string);
    (ENOSTR, "ENOSTR"%string);
    (ENODATA, "ENODATA"%string);
    (ETIME, "ETIME"%string);
    (ENOSR, "ENOSR"%string);
    (ENONET, "ENONET"%string);
    (ENOPKG, "ENOPKG"%string);
    (EREMOTE, "EREMOTE"%string);
    (ENOLINK, "ENOLINK"%string);
    (EADV, "EADV"%string);
    (ESRMNT, "ESRMNT"%string);
    (ECOMM, "ECOMM"%string);
    (EPROTO, "EPROTO"%string);
    (EMULTIHOP, "EMULTIHOP"%string);
    (EDOTDOT, "EDOTDOT"%string);
    (EBADMSG, "EBADMSG"%string);
    (EOVERFLOW, "EOVERFLOW"%string);
    (ENOTUNIQ, "ENOTUNIQ"%string);
    (EBADFD, "EBADFD"%string);
    (EREMCHG, "EREMCHG"%string);
    (ELIBACC, "ELIBACC"%string);
    (ELIBBAD, "ELIBBAD"%string);
    (ELIBSCN, "ELIBSCN"%string);
    (ELIBMAX, "ELIBMAX"%string);
    (ELIBEXEC, "ELIBEXEC"%string);
    (EILSEQ, "EILSEQ"%string);
    (ERESTART, "ERESTART"%string);
    (ESTRPIPE, "ESTRPIPE"%string);
    (EUSERS, "EUSERS"%string);
    (ENOTSOCK, "ENOTSOCK"%string);
    (EDESTADDRREQ, "EDESTADDRREQ"%string);
    (EMSGSIZE, "EMSGSIZE"%string);
    (EPROTOTYPE, "EPROTOTYPE"%string);
    (ENOPROTOOPT, "ENOPROTOOPT"%string);
    (EPROTONOSUPPORT, "EPROTONOSUPPORT"%string);
    (ESOCKTNOSUPPORT, "ESOCKTNOSUPPORT"%string);
    (EOPNOTSUPP, "EOPNOTSUPP"%string);
    (EPFNOSUPPORT, "EPFNOSUPPORT"%string);
    (EAFNOSUPPORT, "EAFNOSUPPORT"%string);
    (EADDRINUSE, "EADDRINUSE"%string);
    (EADDRNOTAVAIL, "EADDRNOTAVAIL"%string);
    (ENETDOWN, "ENETDOWN"%string);
    (ENETUNREACH, "ENETUNREACH"%string);
    (ENETRESET, "ENETRESET"%string);
    (ECONNABORTED, "ECONNABORTED"%string);
    (ECONNRESET, "ECONNRESET"%string);
    (ENOBUFS, "ENOBUFS"%string);
    (EISCONN, "EISCONN"%string);
    (ENOTCONN, "ENOTCONN"%string);
    (ESHUTDOWN, "ESHUTDOWN"%string);
    (ETOOMANYREFS, "ETOOMANYREFS"%string);
    (ETIMEDOUT, "ETIMEDOUT"%string);
    (ECONNREFUSED, "ECONNREFUSED"%string);
    (EHOSTDOWN, "EHOSTDOWN"%string);
    (EHOSTUNREACH, "EHOSTUNREACH"%string);
    (EALREADY, "EALREADY"%string);
    (EINPROGRESS, "EINPROGRESS"%string);
    (ESTALE, "ESTALE"%string);
    (EUCLEAN, "EUCLEAN"%string);
    (ENOTNAM, "ENOTNAM"%string);
    (ENAVAIL, "ENAVAIL"%string);
    (EISNAM, "EISNAM"%string);
    (EREMOTEIO, "EREMOTEIO"%string);
    (EDQUOT, "EDQUOT"%string);
    (ENOMEDIUM, "ENOMEDIUM"%string);
    (EMEDIUMTYPE, "EMEDIUMTYPE"%string);
    (ECANCELED, "ECANCELED"%string);
    (ENOKEY, "ENOKEY"%string);
    (EKEYEXPIRED, "EKEYEXPIRED"%string);
    (EKEYREVOKED, "EKEYREVOKED"%string);
    (EKEYREJECTED, "EKEYREJECTED"%string);
    (EOWNERDEAD, "EOWNERDEAD"%string);
    (ENOTRECOVERABLE, "ENOTRECOVERABLE"%string);
    (ERFKILL, "ERFKILL"%string);
    (EHWPOISON, "EHWPOISON"%string) ].

Definition strerror (errno : Z) : string :=
  match list_find (fun c => c.1 = errno) strerror_cases with
  | Some (_, (_, name)) => name
  | None => "?"%string
  end.

(** No two cases carry the same number or the same name, so the name printed
    for a known error identifies it. *)
Lemma strerror_inj (a b : Z) :
  In a (map fst strerror_cases) -> strerror a = strerror b -> a = b.
Proof.
  intros Ha E.
  assert (Q : forallb (fun c => forallb (fun d => implb (bool_decide (strerror c.1 = strerror d.1)) (c.1 =? d.1))
            strerror_cases && negb (bool_decide (strerror c.1 = "?"%string))) strerror_cases = true)
    by (vm_compute; reflexivity).
  rewrite forallb_forall in Q. apply in_map_iff in Ha as (c & <- & Hc).
  specialize (Q c Hc). apply andb_prop in Q as [Q N]. rewrite forallb_forall in Q.
  destruct (decide (In b (map fst strerror_cases))) as [Hb|Hb].
  - apply in_map_iff in Hb as (d & <- & Hd). specialize (Q d Hd).
    rewrite bool_decide_true in Q by done. simpl in Q. lia.
  - assert (strerror b = "?"%string) as Eb.
    { unfold strerror. rewrite (proj2 (list_find_None _ _)); [done|].
      apply Forall_forall. intros d Hd Q'. apply Hb. apply in_map_iff. exists d.
      split; [done|]. by apply list_elem_of_In. }
    rewrite E, Eb in N. by rewrite bool_decide_true in N.
Qed.
