(* ===== verification/Vnode.v ===== *)
(** * What the file systems share ([include/kernel/vfs.h], [include/time.h])

    The types and flags of vnodes, their attributes, and times. *)

From S2P Require Import Prelude.

Definition V_TYPE_REGULAR : Z := 0.
Definition V_TYPE_DIR : Z := 1.
Definition V_TYPE_CHDEV : Z := 2.
Definition V_TYPE_BLKDEV : Z := 3.
Definition V_TYPE_FIFO : Z := 4.
Definition V_TYPE_LINK : Z := 5.
Definition V_TYPE_SOCKET : Z := 6.

Definition V_FFLAGS_READ : Z := 1.
Definition V_FFLAGS_WRITE : Z := 2.
Definition V_FFLAGS_NONBLOCKING : Z := 4.
Definition V_FFLAGS_SHARED : Z := 8.
Definition V_FFLAGS_EXEC : Z := 16.
Definition V_FFLAGS_NOCTTY : Z := 32.
Definition V_FFLAGS_NOCACHE : Z := 64.

Definition V_ATTR_MODE : Z := 1.
Definition V_ATTR_UID : Z := 2.
Definition V_ATTR_GID : Z := 4.
Definition V_ATTR_ATIME : Z := 8.
Definition V_ATTR_MTIME : Z := 16.
Definition V_ATTR_CTIME : Z := 32.

Definition V_ATTR_MODE_OTHERS_EXECUTE : Z := 0x1.
Definition V_ATTR_MODE_OTHERS_WRITE : Z := 0x2.
Definition V_ATTR_MODE_OTHERS_READ : Z := 0x4.
Definition V_ATTR_MODE_GROUP_EXECUTE : Z := 0x8.
Definition V_ATTR_MODE_GROUP_WRITE : Z := 0x10.
Definition V_ATTR_MODE_GROUP_READ : Z := 0x20.
Definition V_ATTR_MODE_USER_EXECUTE : Z := 0x40.
Definition V_ATTR_MODE_USER_WRITE : Z := 0x80.
Definition V_ATTR_MODE_USER_READ : Z := 0x100.
Definition V_ATTR_MODE_STICKY : Z := 0x200.

Record timespec_t := mk_timespec { ts_s : Z; ts_ns : Z }.

Record vattr_t := mk_vattr {
  a_type : Z;
  a_mode : Z;
  a_uid : Z;
  a_gid : Z;
  a_fsid : Z;
  a_inode : Z;
  a_nlinks : Z;
  a_size : Z;
  a_fsblocksize : Z;
  a_atime : timespec_t;
  a_mtime : timespec_t;
  a_ctime : timespec_t;
  a_rdevmajor : Z;
  a_rdevminor : Z;
  a_devmajor : Z;
  a_devminor : Z;
  a_blocksused : Z
}.

Definition zero_attr : vattr_t :=
  mk_vattr 0 0 0 0 0 0 0 0 0 (mk_timespec 0 0) (mk_timespec 0 0) (mk_timespec 0 0) 0 0 0 0 0.

Definition with_type (v : Z) (a : vattr_t) : vattr_t :=
  mk_vattr v (a_mode a) (a_uid a) (a_gid a) (a_fsid a) (a_inode a) (a_nlinks a) (a_size a) (a_fsblocksize a)
    (a_atime a) (a_mtime a) (a_ctime a) (a_rdevmajor a) (a_rdevminor a) (a_devmajor a) (a_devminor a) (a_blocksused a).

(** The assignments of a [setattr]: the attributes named by [which]. *)
Definition assign_attr (which : Z) (new a : vattr_t) : vattr_t :=
  mk_vattr (a_type a)
    (if has which V_ATTR_MODE then a_mode new else a_mode a)
    (if has which V_ATTR_UID then a_uid new else a_uid a)
    (if has which V_ATTR_GID then a_gid new else a_gid a)
    (a_fsid a) (a_inode a) (a_nlinks a) (a_size a) (a_fsblocksize a)
    (if has which V_ATTR_ATIME then a_atime new else a_atime a)
    (if has which V_ATTR_MTIME then a_mtime new else a_mtime a)
    (if has which V_ATTR_CTIME then a_ctime new else a_ctime a)
    (a_rdevmajor a) (a_rdevminor a) (a_devmajor a) (a_devminor a) (a_blocksused a).
