(* ===== verification/Time.v ===== *)
(** * Time ([include/time.h], [sys/timekeeper.c])

    Time spans as seconds and nanoseconds, and the per CPU clock that turns the
    ticks of a source into them.  The reading of a source is an argument of the
    operations that take one. *)

From S2P Require Import Prelude Vnode.

(** ** Time spans ([time.h]) *)

Definition BILLION : Z := 1000000000.
Definition MILLION : Z := 1000000.

Definition timespec_add (a b : timespec_t) : timespec_t :=
  mk_timespec (s64 (s64 (ts_s a + ts_s b) + Z.quot (s64 (ts_ns a + ts_ns b)) BILLION)) (Z.rem (s64 (ts_ns a + ts_ns b)) BILLION).

Definition timespec_diffms (a b : timespec_t) : Z :=
  let nsecdiff := s64 (Z.abs (s64 (ts_ns a - ts_ns b))) in
  let secdiff := s64 (Z.abs (s64 (ts_s a - ts_s b))) in
  s64 (Z.quot nsecdiff 1000000 + s64 (secdiff * 1000)).

Definition timespec_diffus (a b : timespec_t) : Z :=
  let nsecdiff := s64 (Z.abs (s64 (ts_ns a - ts_ns b))) in
  let secdiff := s64 (Z.abs (s64 (ts_s a - ts_s b))) in
  s64 (Z.quot nsecdiff 1000 + s64 (secdiff * 1000000)).

Definition timespec_ns (a : timespec_t) : Z := s64 (ts_ns a + s64 (ts_s a * 1000000000)).
Definition timespec_us (a : timespec_t) : Z := s64 (Z.quot (ts_ns a) 1000 + s64 (ts_s a * 1000000)).

Definition timespec_from_us (us : Z) : timespec_t :=
  mk_timespec (Z.quot us 1000000) (Z.rem (s64 (us * 1000)) 1000000000).

Definition timespec_bigger (t1 t2 : timespec_t) : bool :=
  (ts_s t1 >? ts_s t2) || (ts_s t1 =? ts_s t2) && (ts_ns t1 >? ts_ns t2).

(** ** The clock of a CPU ([timekeeper.c], [cpu_t]) *)

Record timekeeper_source_t := mk_source { priority : Z; early_source : bool; probe : bool; source_hz : Z }.

Record clock_t := mk_clock {
  timekeeper_source : timekeeper_source_t;
  hz : Z;
  base_ticks : Z;
  tick_offset : Z
}.

(** A division by zero when the source is slower than a megahertz. *)
Definition cdiv (a b : Z) : option Z := if b =? 0 then None else Some (Z.quot a b).

Definition timekeeper_timefromboot (c : clock_t) (ticks : Z) : option timespec_t :=
  let ticks := s64 (s64 (ticks - base_ticks c) + tick_offset c) in
  s ← cdiv ticks (hz c);
  us ← cdiv (Z.rem ticks (hz c)) (Z.quot (hz c) 1000000);
  Some (mk_timespec s (s64 (us * 1000))).

Definition timekeeper_time (boot_unix : Z) (c : clock_t) (ticks : Z) : option timespec_t :=
  fromboot ← timekeeper_timefromboot c ticks;
  Some (timespec_add (mk_timespec boot_unix 0) fromboot).

(** The best source that can be used, of a priority above the one given. *)
Fixpoint get_source_loop (sources : list timekeeper_source_t) (prio : Z) (early : bool) (to_use : option timekeeper_source_t)
    : option timekeeper_source_t :=
  match sources with
  | [] => to_use
  | source :: rest =>
      if (priority source <=? prio) || (early && negb (early_source source)) || negb (probe source)
      then get_source_loop rest prio early to_use
      else get_source_loop rest (priority source) early (Some source)
  end.

Definition get_source (sources : list timekeeper_source_t) (prio : Z) (early : bool) : option timekeeper_source_t :=
  get_source_loop sources prio early None.

Definition timekeeper_early_init (sources : list timekeeper_source_t) (us_offset ticks : Z) : option clock_t :=
  source ← get_source sources (-1) true;
  Some (mk_clock source (source_hz source) ticks (Z.quot (s64 (us_offset * source_hz source)) 1000000)).

(** [ticks] are those of the new source, [old_ticks] those of the old one, read
    one after the other. *)
Definition timekeeper_init (sources : list timekeeper_source_t) (ticks old_ticks : Z) (c : clock_t) : option clock_t :=
  match get_source sources (priority (timekeeper_source c)) false with
  | None => Some c
  | Some new_source =>
      old_us ← cdiv (s64 (s64 (old_ticks - base_ticks c) + tick_offset c)) (Z.quot (hz c) 1000000);
      Some (mk_clock new_source (source_hz new_source) ticks (s64 (old_us * Z.quot (source_hz new_source) 1000000)))
  end.

(** What the calling CPU publishes, and what the others do with it. *)
Definition sync_values (c : clock_t) (ticks : Z) : option (Z * Z) :=
  let ticks := s64 (ticks - base_ticks c) in
  sync_sec ← cdiv ticks (hz c);
  sync_usec ← cdiv (Z.rem ticks (hz c)) (Z.quot (hz c) 1000000);
  Some (sync_sec, sync_usec).

Definition timekeeper_sync_isr (sync_sec sync_usec ticks : Z) (c : clock_t) : clock_t :=
  let mhz := Z.quot (hz c) 1000000 in
  mk_clock (timekeeper_source c) (hz c) ticks (s64 (s64 (sync_sec * hz c) + s64 (sync_usec * mhz))).

(** Every other CPU runs the interrupt once the values are published;
    [ticks i] is the reading on CPU [i]. *)
Definition timekeeper_sync (self : nat) (ticks : nat -> Z) (cpus : list clock_t) : option (list clock_t) :=
  c ← cpus !! self;
  '(sync_sec, sync_usec) ← sync_values c (ticks self);
  Some (imap (fun i c => if decide (i = self) then c else timekeeper_sync_isr sync_sec sync_usec (ticks i) c) cpus).

(** The busy wait: [ticks k] is the [k]th reading of the source. *)
Fixpoint wait_loop (fuel : nat) (c : clock_t) (ticks : nat -> Z) (target : timespec_t) (k : nat) : option nat :=
  match fuel with
  | O => None
  | S fuel' =>
      now ← timekeeper_timefromboot c (ticks k);
      if timespec_bigger target now then wait_loop fuel' c ticks target (S k) else Some k
  end.

Definition timekeeper_wait_us (fuel : nat) (c : clock_t) (ticks : nat -> Z) (us : Z) : option nat :=
  now ← timekeeper_timefromboot c (ticks O);
  wait_loop fuel c ticks (timespec_add (timespec_from_us us) now) 1%nat.

(** ** Lemmas *)

Definition ts_of_us (u : Z) : timespec_t := mk_timespec (u / MILLION) (u mod MILLION * 1000).

Lemma from_us_ok u : 0 <= u < 2 ^ 53 -> timespec_from_us u = ts_of_us u.
Proof.
  intros H. unfold timespec_from_us, ts_of_us, MILLION. rewrite s64_small by lia. rewrite Z.quot_div_nonneg, Z.rem_mod_nonneg by lia.
  f_equal. Z.div_mod_to_equations. lia.
Qed.

Lemma timespec_add_us a b : 0 <= a < 2 ^ 53 -> 0 <= b < 2 ^ 53 -> timespec_add (ts_of_us a) (ts_of_us b) = ts_of_us (a + b).
Proof.
  intros Ha Hb. unfold timespec_add, ts_of_us, MILLION, BILLION. cbn [ts_s ts_ns].
  rewrite !(s64_small (_ * 1000 + _)) by (Z.div_mod_to_equations; lia). rewrite Z.quot_div_nonneg, Z.rem_mod_nonneg by (Z.div_mod_to_equations; lia).
  rewrite (s64_small (a / 1000000 + _)) by (Z.div_mod_to_equations; lia). rewrite s64_small by (Z.div_mod_to_equations; lia).
  f_equal; Z.div_mod_to_equations; lia.
Qed.

Lemma timespec_bigger_us a b : timespec_bigger (ts_of_us a) (ts_of_us b) = (a >? b).
Proof. unfold timespec_bigger, ts_of_us, MILLION. cbn [ts_s ts_ns]. Z.div_mod_to_equations. lia. Qed.

(** A clock of a whole number of megahertz. *)
Record clock_ok (c : clock_t) (mhz : Z) : Prop := {
  ck_mhz : 0 < mhz;
  ck_hz : hz c = mhz * MILLION;
  ck_fits : hz c < 2 ^ 63
}.

(** The reading [ticks] stands for [d] ticks since boot. *)
Record reading_ok (c : clock_t) (ticks d : Z) : Prop := {
  rd_ticks : 0 <= ticks < 2 ^ 63;
  rd_base : 0 <= base_ticks c < 2 ^ 63;
  rd_eq : d = ticks - base_ticks c + tick_offset c;
  rd_range : 0 <= d < 2 ^ 63
}.

(** Seconds and microseconds of a number of ticks. *)
Lemma split_ticks d mhz : 0 < mhz -> mhz * MILLION < 2 ^ 63 -> 0 <= d ->
  cdiv d (mhz * MILLION) = Some (d / mhz / MILLION) /\
  cdiv (Z.rem d (mhz * MILLION)) (Z.quot (mhz * MILLION) 1000000) = Some (d / mhz mod MILLION).
Proof.
  intros Hm Hf Hd. unfold cdiv, MILLION in *. rewrite (Z.quot_div_nonneg (mhz * 1000000)), Z.div_mul by lia.
  rewrite !(proj2 (Z.eqb_neq _ _)) by lia. rewrite Z.rem_mod_nonneg, !Z.quot_div_nonneg by (try apply Z.mod_pos_bound; lia).
  rewrite Z.div_div, Z.rem_mul_r by lia. split; [done|]. f_equal. rewrite (Z.mul_comm mhz), Z.div_add by lia.
  rewrite Z.div_small by (apply Z.mod_pos_bound; lia). done.
Qed.

Lemma timefromboot_us c mhz ticks d :
  clock_ok c mhz -> reading_ok c ticks d -> timekeeper_timefromboot c ticks = Some (ts_of_us (d / mhz)).
Proof.
  intros [Hm Hh Hf] [Ht Hb -> Hr]. unfold timekeeper_timefromboot. rewrite Hh in *.
  rewrite (s64_small (ticks - base_ticks c)), s64_small by lia. set (d := ticks - base_ticks c + tick_offset c) in *.
  destruct (split_ticks d mhz Hm Hf ltac:(lia)) as [-> ->]. cbn [mbind option_bind]. unfold ts_of_us, MILLION in *.
  pose proof (Z.mod_pos_bound (d / mhz) 1000000). rewrite s64_small by lia. done.
Qed.

Lemma wait_loop_ok c mhz ticks goal n k :
  clock_ok c mhz -> (forall i, exists d, reading_ok c (ticks i) d) -> (k <= n)%nat ->
  goal <= (ticks n - base_ticks c + tick_offset c) / mhz ->
  exists m, wait_loop (S (n - k)) c ticks (ts_of_us goal) k = Some m /\ (k <= m <= n)%nat /\
    goal <= (ticks m - base_ticks c + tick_offset c) / mhz.
Proof.
  intros C R Hk Hn. remember (n - k)%nat as j eqn:Hj. revert k Hk Hj. induction j as [|j IH]; intros k Hk Hj; cbn [wait_loop].
  - assert (k = n) as -> by lia. destruct (R n) as [d Rd]. rewrite (timefromboot_us c mhz _ d C Rd). cbn [mbind option_bind].
    rewrite timespec_bigger_us. rewrite (rd_eq _ _ _ Rd), Z.gtb_ltb, (proj2 (Z.ltb_ge _ _)) by lia. exists n. split; [done|]. split; [lia|done].
  - destruct (R k) as [d Rd]. rewrite (timefromboot_us c mhz _ d C Rd). cbn [mbind option_bind]. rewrite timespec_bigger_us.
    destruct (goal >? d / mhz) eqn:G.
    + destruct (IH (S k)) as (m & E & Hm & Hg); [lia|lia|]. exists m. split; [exact E|]. split; [lia|done].
    + exists k. split; [done|]. split; [lia|]. rewrite <- (rd_eq _ _ _ Rd). lia.
Qed.

(** ** Claims *)

(** C26. A clock of a whole number of megahertz is monotonic and keeps its times
    normalised: a later reading gives a time that is not earlier, and the
    nanoseconds stay below a second. *)
Theorem timekeeper_monotone c mhz ticks1 ticks2 d1 d2 :
  clock_ok c mhz -> reading_ok c ticks1 d1 -> reading_ok c ticks2 d2 -> ticks1 <= ticks2 ->
  exists ts1 ts2, timekeeper_timefromboot c ticks1 = Some ts1 /\ timekeeper_timefromboot c ticks2 = Some ts2 /\
    timespec_bigger ts1 ts2 = false /\ 0 <= ts_ns ts1 < BILLION /\ 0 <= ts_ns ts2 < BILLION.
Proof.
  intros C R1 R2 Le. eexists _, _. split; [exact (timefromboot_us c mhz _ _ C R1)|]. split; [exact (timefromboot_us c mhz _ _ C R2)|].
  rewrite timespec_bigger_us. rewrite (rd_eq _ _ _ R1), (rd_eq _ _ _ R2). pose proof (ck_mhz _ _ C).
  assert ((ticks1 - base_ticks c + tick_offset c) / mhz <= (ticks2 - base_ticks c + tick_offset c) / mhz) by (apply Z.div_le_mono; lia).
  split; [lia|]. unfold ts_of_us, BILLION, MILLION. cbn [ts_ns].
  pose proof (Z.mod_pos_bound ((ticks1 - base_ticks c + tick_offset c) / mhz) 1000000).
  pose proof (Z.mod_pos_bound ((ticks2 - base_ticks c + tick_offset c) / mhz) 1000000). lia.
Qed.

(** Changing to a better source loses no time: read at the instant of the
    change, the new clock shows the time the old one showed. *)
Theorem timekeeper_init_continuous sources c mhz ticks old_ticks d s mhz' :
  clock_ok c mhz -> reading_ok c old_ticks d -> get_source sources (priority (timekeeper_source c)) false = Some s ->
  0 < mhz' -> source_hz s = mhz' * MILLION -> source_hz s < 2 ^ 63 -> 0 <= ticks < 2 ^ 63 -> d / mhz * mhz' < 2 ^ 63 ->
  exists c', timekeeper_init sources ticks old_ticks c = Some c' /\ timekeeper_source c' = s /\
    timekeeper_timefromboot c' ticks = timekeeper_timefromboot c old_ticks.
Proof.
  intros C R G Hm Hh Hf Ht Hd. rewrite (timefromboot_us c mhz _ d C R). unfold timekeeper_init. rewrite G.
  destruct C as [Cm Ch Cf]. destruct R as [Rt Rb -> Rr]. rewrite (s64_small (old_ticks - base_ticks c)), s64_small by lia. unfold cdiv, MILLION in *. rewrite Ch, Hh in *.
  rewrite !(Z.quot_div_nonneg (_ * 1000000)), !Z.div_mul by lia. rewrite (proj2 (Z.eqb_neq _ _)) by lia. cbn [mbind option_bind].
  set (d := old_ticks - base_ticks c + tick_offset c) in *. rewrite Z.quot_div_nonneg by lia.
  assert (0 <= d / mhz) by (apply Z.div_pos; lia). rewrite s64_small by nia.
  eexists. split; [done|]. split; [done|]. rewrite (timefromboot_us _ mhz' ticks (d / mhz * mhz')).
  - by rewrite Z.div_mul by lia.
  - split; cbn [hz]; unfold MILLION; lia.
  - split; cbn [base_ticks tick_offset]; nia.
Qed.

(** The busy wait ends, and not too early: as soon as some reading is [us]
    microseconds past the first one the loop returns, and at the reading it
    returns at less than one microsecond of the wait can be missing. *)
Theorem timekeeper_wait_terminates c mhz ticks us n :
  clock_ok c mhz -> (forall i, exists d, reading_ok c (ticks i) d) -> 0 <= us < 2 ^ 52 ->
  (ticks O - base_ticks c + tick_offset c) / mhz < 2 ^ 52 -> (0 < n)%nat -> ticks O + us * mhz <= ticks n ->
  exists m, timekeeper_wait_us n c ticks us = Some m /\ (0 < m <= n)%nat /\ (us - 1) * mhz < ticks m - ticks O.
Proof.
  intros C R Hu H0 Hn Hd. destruct (R O) as [d0 R0]. unfold timekeeper_wait_us. rewrite (timefromboot_us c mhz _ d0 C R0). cbn [mbind option_bind].
  pose proof (ck_mhz _ _ C) as Hm. rewrite (rd_eq _ _ _ R0). pose proof (rd_range _ _ _ R0) as Rr. rewrite (rd_eq _ _ _ R0) in Rr.
  set (z := ticks O - base_ticks c + tick_offset c) in *. assert (0 <= z / mhz) by (apply Z.div_pos; lia).
  rewrite from_us_ok, timespec_add_us by lia. set (goal := us + z / mhz).
  destruct (wait_loop_ok c mhz ticks goal n 1 C R ltac:(lia)) as (m & E & Mn & Mg).
  { unfold goal. replace (us + z / mhz) with ((us * mhz + z) / mhz) by (rewrite Z.div_add_l by lia; done). apply Z.div_le_mono; unfold z; lia. }
  replace (S (n - 1)) with n in E by lia. rewrite E. exists m. split; [done|]. split; [lia|].
  pose proof (Z.mul_div_le (ticks m - base_ticks c + tick_offset c) mhz Hm). pose proof (Z.mul_succ_div_gt z mhz Hm).
  unfold goal, z in *. nia.
Qed.

(** After a synchronisation every other CPU shows the time of the calling
    CPU without the calling CPU's tick offset: they agree when it is zero and
    otherwise they fall behind by it. *)
Theorem timekeeper_sync_drops_offset cpus self ticks c mhz i ci mhzi :
  cpus !! self = Some c -> clock_ok c mhz -> 0 <= base_ticks c <= ticks self -> ticks self < 2 ^ 63 ->
  cpus !! i = Some ci -> i <> self -> clock_ok ci mhzi -> 0 <= ticks i < 2 ^ 63 ->
  (ticks self - base_ticks c) / mhz * mhzi < 2 ^ 63 ->
  exists cpus' ci', timekeeper_sync self ticks cpus = Some cpus' /\ cpus' !! i = Some ci' /\ cpus' !! self = Some c /\
    timekeeper_timefromboot ci' (ticks i) = Some (ts_of_us ((ticks self - base_ticks c) / mhz)).
Proof.
  intros Es [Cm Ch Cf] Hb Ht Ei Ne [Cmi Chi Cfi] Hti Hf. unfold timekeeper_sync. rewrite Es. cbn [mbind option_bind].
  unfold sync_values. rewrite s64_small by lia. set (d := ticks self - base_ticks c) in *. rewrite Ch in *.
  destruct (split_ticks d mhz Cm Cf ltac:(unfold d; lia)) as [-> ->]. cbn [mbind option_bind].
  eexists _, _. split; [done|]. rewrite !list_lookup_imap, Ei, Es. cbn [fmap option_fmap option_map].
  rewrite decide_False, decide_True by done. split; [done|]. split; [done|].
  assert (0 <= d / mhz) by (apply Z.div_pos; unfold d; lia). set (u := d / mhz) in *. unfold timekeeper_sync_isr. rewrite Chi. unfold MILLION in *.
  rewrite Z.quot_div_nonneg, Z.div_mul by lia.
  assert (Eu : u / 1000000 * (mhzi * 1000000) + u mod 1000000 * mhzi = u * mhzi) by (rewrite (Z.div_mod u 1000000) at 3 by lia; ring).
  assert (0 <= u / 1000000 * (mhzi * 1000000)) by (apply Z.mul_nonneg_nonneg; [apply Z.div_pos; lia|lia]).
  assert (0 <= u mod 1000000 * mhzi) by (apply Z.mul_nonneg_nonneg; [apply Z.mod_pos_bound; lia|lia]).
  rewrite !(s64_small (_ * _)), Eu, s64_small by lia.
  rewrite (timefromboot_us _ mhzi (ticks i) (u * mhzi)).
  - by rewrite Z.div_mul by lia.
  - split; cbn [hz]; unfold MILLION; lia.
  - split; cbn [base_ticks tick_offset]; lia.
Qed.

(** A source that is not a whole number of megahertz breaks the clock: the
    nanoseconds since boot reach a whole second before the seconds go up, and
    the wall clock then goes back, here by almost a second. *)
Theorem timekeeper_goes_back :
  exists c t1 t2 ts1 ts2, 0 < hz c < 2 ^ 63 /\ 0 <= t1 < t2 /\ timekeeper_time 0 c t1 = Some ts1 /\
    timekeeper_time 0 c t2 = Some ts2 /\ timespec_bigger ts1 (timespec_add ts2 (mk_timespec 0 900000000)) = true.
Proof.
  exists (mk_clock (mk_source 1 true true 1999999) 1999999 0 0), 1999998, 1999999. eexists _, _.
  split; [done|]. split; [done|]. split; [reflexivity|]. split; reflexivity.
Qed.

Definition tsc_source : timekeeper_source_t := mk_source 100 false true 3000000000.
Definition hpet_clock : clock_t := mk_clock (mk_source 1 true true 10000000) 10000000 500 20.

Lemma hpet_clock_ok : clock_ok hpet_clock 10.
Proof. split; done. Qed.

Lemma timekeeper_monotone_witness :
  exists ts1 ts2, timekeeper_timefromboot hpet_clock 1000 = Some ts1 /\ timekeeper_timefromboot hpet_clock 90000000 = Some ts2 /\
    timespec_bigger ts1 ts2 = false /\ 0 <= ts_ns ts1 < BILLION /\ 0 <= ts_ns ts2 < BILLION.
Proof.
  apply (timekeeper_monotone hpet_clock 10 1000 90000000 520 89999520); [exact hpet_clock_ok|split; cbn; lia|split; cbn; lia|lia].
Defined.

Lemma timekeeper_init_continuous_witness :
  exists c', timekeeper_init [tsc_source] 7 12345678 hpet_clock = Some c' /\ timekeeper_source c' = tsc_source /\
    timekeeper_timefromboot c' 7 = timekeeper_timefromboot hpet_clock 12345678.
Proof.
  apply (timekeeper_init_continuous [tsc_source] hpet_clock 10 7 12345678 12345198 tsc_source 3000);
    [exact hpet_clock_ok|split; cbn; lia|reflexivity|lia|reflexivity|cbn; lia|lia|reflexivity].
Defined.

Lemma timekeeper_wait_terminates_witness :
  exists m, timekeeper_wait_us 40 hpet_clock (fun k => Z.min (500 + 7 * Z.of_nat k) 100000) 20 = Some m /\ (0 < m <= 40)%nat /\
    (20 - 1) * 10 < Z.min (500 + 7 * Z.of_nat m) 100000 - 500.
Proof.
  apply (timekeeper_wait_terminates hpet_clock 10 (fun k => Z.min (500 + 7 * Z.of_nat k) 100000) 20 40); [exact hpet_clock_ok| |lia|reflexivity|lia|cbn; lia].
  intros i. exists (Z.min (500 + 7 * Z.of_nat i) 100000 - 500 + 20). split; cbn; lia.
Defined.

Lemma timekeeper_sync_drops_offset_witness :
  exists cpus' ci', timekeeper_sync 0 (fun _ => 1500) [hpet_clock; hpet_clock] = Some cpus' /\ cpus' !! 1%nat = Some ci' /\ cpus' !! 0%nat = Some hpet_clock /\
    timekeeper_timefromboot ci' 1500 = Some (ts_of_us 100).
Proof.
  apply (timekeeper_sync_drops_offset [hpet_clock; hpet_clock] 0 (fun _ => 1500) hpet_clock 10 1 hpet_clock 10);
    [reflexivity|exact hpet_clock_ok|cbn; lia|lia|reflexivity|lia|exact hpet_clock_ok|lia|reflexivity].
Defined.
