(* ===== verification/Mem.v ===== *)
(** * Byte memory and the user copy primitives

    The memory a system call hands to the kernel, as a finite map from
    addresses to bytes: an address in the domain is one the page fault handler
    can make accessible, an address outside it is one it cannot.  The kernel
    side of a copy (ring buffer storage, a local object) is a list of bytes.
    Models [mm/usercopy.c], [include/kernel/usercopy.h], the copying loops of
    [lib/string.c] ([rep movsb] copies upwards and stops where it faults) and
    the outcome of a fault in [arch/x86-64/mmu.c] ([pfisr]). *)

From S2P Require Import Prelude Errno.


(** [include/x86-64/arch/mmu.h] *)
Definition USERSPACE_END : Z := 0x800000000000.
Definition IS_USER_ADDRESS (a : Z) : bool := a <? USERSPACE_END.

Abbreviation mem := (gmap Z Z).

(** [memcpy] from memory: the bytes read before the first fault, and whether
    the copy finished. *)
Fixpoint memcpy_load (m : mem) (a : Z) (n : nat) : list Z * bool :=
  match n with
  | O => ([], true)
  | S n' =>
      match m !! a with
      | None => ([], false)
      | Some b => let '(bs, ok) := memcpy_load m (a + 1) n' in (b :: bs, ok)
      end
  end.

(** [memcpy] to memory: the memory after the bytes stored before the first
    fault, and whether the copy finished. *)
Fixpoint memcpy_store (m : mem) (a : Z) (bs : list Z) : mem * bool :=
  match bs with
  | [] => (m, true)
  | b :: bs' =>
      match m !! a with
      | None => (m, false)
      | Some _ => memcpy_store (<[a := b]> m) (a + 1) bs'
      end
  end.

(** What a copy returns.  With a recovery context installed
    ([usercopy_touser], [usercopy_fromuser]) a fault comes back as [EFAULT];
    without one ([_usercopy_memcpy_wrapper]) [pfisr] panics. *)
Definition copy_status (guarded ok : bool) : option Z :=
  if ok then Some 0 else if guarded then Some EFAULT else None.

(** The [USERCOPY_POSSIBLY_*] macros: [tested] is the address whose side of
    the user/kernel split selects the guarded routine. *)
Definition copy_from_mem (tested : Z) (m : mem) (src : Z) (n : Z) : option (list Z * Z) :=
  let '(bs, ok) := memcpy_load m src (Z.to_nat n) in
  e ← copy_status (IS_USER_ADDRESS tested) ok; Some (bs, e).

Definition copy_to_mem (tested : Z) (m : mem) (dst : Z) (bs : list Z) : option (mem * Z) :=
  let '(m', ok) := memcpy_store m dst bs in
  e ← copy_status (IS_USER_ADDRESS tested) ok; Some (m', e).

(** Kernel side storage: an access outside the object stops the model. *)
Definition kload (data : list Z) (off n : Z) : option (list Z) :=
  if (0 <=? off) && (0 <=? n) && (off + n <=? Z.of_nat (length data))
  then Some (slice data (Z.to_nat off) (Z.to_nat n)) else None.

Definition kstore (data : list Z) (off : Z) (bs : list Z) : option (list Z) :=
  if (0 <=? off) && (off + Z.of_nat (length bs) <=? Z.of_nat (length data))
  then Some (splice data (Z.to_nat off) bs) else None.

(** ** Facts about copies *)

(** Memory holds [bs] from address [a]. *)
Definition holds (m : mem) (a : Z) (bs : list Z) : Prop :=
  forall i b, bs !! i = Some b -> m !! (a + Z.of_nat i) = Some b.

(** The [n] bytes from [a] are accessible. *)
Definition mapped (m : mem) (a : Z) (n : nat) : Prop :=
  forall i, (i < n)%nat -> is_Some (m !! (a + Z.of_nat i)).

Lemma holds_cons m a b bs :
  holds m a (b :: bs) <-> m !! a = Some b /\ holds m (a + 1) bs.
Proof.
  unfold holds. split.
  - intros H. split.
    + specialize (H 0%nat b eq_refl). by rewrite Z.add_0_r in H.
    + intros i c Hi. specialize (H (S i) c Hi).
      by replace (a + 1 + Z.of_nat i) with (a + Z.of_nat (S i)) by lia.
  - intros [H0 H] [|i] c Hi; simpl in Hi.
    + injection Hi as <-. by rewrite Z.add_0_r.
    + replace (a + Z.of_nat (S i)) with (a + 1 + Z.of_nat i) by lia. by apply H.
Qed.

Lemma holds_mapped m a bs : holds m a bs -> mapped m a (length bs).
Proof.
  intros H i Hi. destruct (lookup_lt_is_Some_2 bs i Hi) as [b Hb].
  exists b. by apply H.
Qed.

Lemma holds_take m a bs n : holds m a bs -> holds m a (take n bs).
Proof.
  intros H i b Hi. apply H. apply lookup_take_Some in Hi. tauto.
Qed.

Lemma holds_drop m a bs n :
  holds m a bs -> holds m (a + Z.of_nat n) (drop n bs).
Proof.
  intros H i b Hi. rewrite lookup_drop in Hi. apply H in Hi.
  by replace (a + Z.of_nat n + Z.of_nat i) with (a + Z.of_nat (n + i)) by lia.
Qed.

Lemma mapped_S m a n :
  mapped m a (S n) <-> is_Some (m !! a) /\ mapped m (a + 1) n.
Proof.
  unfold mapped. split.
  - intros H. split.
    + specialize (H 0%nat ltac:(lia)). by rewrite Z.add_0_r in H.
    + intros i Hi. specialize (H (S i) ltac:(lia)).
      by replace (a + 1 + Z.of_nat i) with (a + Z.of_nat (S i)) by lia.
  - intros [H0 H] [|i] Hi; [by rewrite Z.add_0_r|].
    replace (a + Z.of_nat (S i)) with (a + 1 + Z.of_nat i) by lia. apply H. lia.
Qed.

Lemma memcpy_load_ok m a bs n :
  holds m a bs -> (n <= length bs)%nat -> memcpy_load m a n = (take n bs, true).
Proof.
  revert a n. induction bs as [|b bs IH]; intros a [|n] Hh Hn; simpl in *; try done; try lia.
  apply holds_cons in Hh as [-> Hh]. by rewrite (IH (a + 1) n Hh) by lia.
Qed.

Lemma memcpy_load_length m a n bs ok :
  memcpy_load m a n = (bs, ok) ->
  (length bs <= n)%nat /\ (ok = true <-> length bs = n) /\ holds m a bs.
Proof.
  revert a bs ok. induction n as [|n IH]; intros a bs ok H; simpl in H.
  - injection H as <- <-. split; [done|]. split; [done|]. intros i b Hb. by rewrite lookup_nil in Hb.
  - destruct (m !! a) eqn:Ea.
    + destruct (memcpy_load m (a + 1) n) as [bs' ok'] eqn:E. injection H as <- <-.
      destruct (IH _ _ _ E) as (H1 & H2 & H3). simpl. split; [lia|]. split.
      * rewrite H2. lia.
      * by apply holds_cons.
    + injection H as <- <-. simpl. split; [lia|]. split; [by split; intros; try lia|].
      intros i b Hb. by rewrite lookup_nil in Hb.
Qed.

Lemma memcpy_load_fault m a n :
  ~ mapped m a n -> (memcpy_load m a n).2 = false.
Proof.
  revert a. induction n as [|n IH]; intros a H; simpl.
  - destruct H. intros i Hi. lia.
  - destruct (m !! a) eqn:Ea; [|done].
    specialize (IH (a + 1)). destruct (memcpy_load m (a + 1) n) as [bs ok] eqn:E.
    simpl in *. apply IH. intros Hm. apply H. apply mapped_S. by rewrite Ea.
Qed.

(** A store over accessible memory writes exactly the bytes given. *)
Lemma memcpy_store_ok m a bs :
  mapped m a (length bs) ->
  exists m', memcpy_store m a bs = (m', true) /\ holds m' a bs /\
    (forall x, ~ (a <= x < a + Z.of_nat (length bs)) -> m' !! x = m !! x) /\
    (forall x, is_Some (m' !! x) <-> is_Some (m !! x)).
Proof.
  revert m a. induction bs as [|b bs IH]; intros m a Hm; simpl.
  - exists m. split; [done|]. split; [|done]. intros i c Hc. by rewrite lookup_nil in Hc.
  - simpl in Hm. apply mapped_S in Hm as [[c Hc] Hm]. rewrite Hc.
    destruct (IH (<[a := b]> m) (a + 1)) as (m' & E & Hh & Hf & Hd).
    { intros i Hi. destruct (Hm i Hi) as [d Hd]. rewrite lookup_insert_ne by lia. eauto. }
    exists m'. split; [done|]. split; [|split].
    + apply holds_cons. split; [|done]. rewrite Hf by lia. apply lookup_insert_eq.
    + intros x Hx. rewrite Hf by lia. apply lookup_insert_ne. lia.
    + intros x. rewrite Hd. destruct (decide (a = x)) as [->|Hne].
      * rewrite lookup_insert_eq, Hc. split; eauto.
      * by rewrite lookup_insert_ne.
Qed.

Lemma memcpy_store_fault m a bs :
  ~ mapped m a (length bs) -> (memcpy_store m a bs).2 = false.
Proof.
  revert m a. induction bs as [|b bs IH]; intros m a H; simpl.
  - destruct H. intros i Hi. simpl in Hi. lia.
  - destruct (m !! a) eqn:Ea; [|done]. apply IH. intros Hm. apply H. simpl.
    apply mapped_S. rewrite Ea. split; [done|].
    intros i Hi. specialize (Hm i Hi). by rewrite lookup_insert_ne in Hm by lia.
Qed.

Lemma kload_ok data off n :
  0 <= off -> 0 <= n -> off + n <= Z.of_nat (length data) ->
  kload data off n = Some (slice data (Z.to_nat off) (Z.to_nat n)).
Proof.
  intros. unfold kload. cases_bool; try lia. done.
Qed.

Lemma kstore_ok data off bs :
  0 <= off -> off + Z.of_nat (length bs) <= Z.of_nat (length data) ->
  kstore data off bs = Some (splice data (Z.to_nat off) bs).
Proof.
  intros. unfold kstore. cases_bool; try lia. done.
Qed.

Lemma memcpy_store_mapped m a bs m' :
  memcpy_store m a bs = (m', true) -> mapped m a (length bs).
Proof.
  revert m a. induction bs as [|b bs IH]; intros m a H; simpl in *.
  - intros i Hi. lia.
  - destruct (m !! a) eqn:Ea; [|done]. apply mapped_S. rewrite Ea. split; [done|].
    apply IH in H. intros i Hi. specialize (H i Hi).
    by rewrite lookup_insert_ne in H by lia.
Qed.

Lemma mapped_app m a n1 n2 :
  mapped m a (n1 + n2) <-> mapped m a n1 /\ mapped m (a + Z.of_nat n1) n2.
Proof.
  unfold mapped. split.
  - intros H. split; intros i Hi.
    + apply H. lia.
    + replace (a + Z.of_nat n1 + Z.of_nat i) with (a + Z.of_nat (n1 + i)) by lia.
      apply H. lia.
  - intros [H1 H2] i Hi. destruct (decide (i < n1)%nat); [by apply H1|].
    replace (a + Z.of_nat i) with (a + Z.of_nat n1 + Z.of_nat (i - n1)) by lia.
    apply H2. lia.
Qed.

(** Copies that finish, and copies that fault. *)
Lemma copy_to_mem_ok t m a bs :
  mapped m a (length bs) ->
  exists m', copy_to_mem t m a bs = Some (m', 0) /\ holds m' a bs /\
    (forall x, ~ (a <= x < a + Z.of_nat (length bs)) -> m' !! x = m !! x) /\
    (forall x, is_Some (m' !! x) <-> is_Some (m !! x)).
Proof.
  intros H. destruct (memcpy_store_ok m a bs H) as (m' & E & Hr).
  exists m'. unfold copy_to_mem. rewrite E. simpl. done.
Qed.

Lemma copy_to_mem_fault t m a bs :
  ~ mapped m a (length bs) ->
  exists m', copy_to_mem t m a bs =
    if IS_USER_ADDRESS t then Some (m', EFAULT) else None.
Proof.
  intros H. apply memcpy_store_fault in H. unfold copy_to_mem.
  destruct (memcpy_store m a bs) as [m' ok]. simpl in H. subst ok.
  exists m'. unfold copy_status. by destruct (IS_USER_ADDRESS t).
Qed.

Lemma copy_from_mem_ok t m a bs n :
  holds m a bs -> 0 <= n <= Z.of_nat (length bs) ->
  copy_from_mem t m a n = Some (take (Z.to_nat n) bs, 0).
Proof.
  intros H Hn. unfold copy_from_mem. rewrite (memcpy_load_ok _ _ bs) by (done || lia). done.
Qed.

Lemma copy_from_mem_fault t m a n :
  ~ mapped m a (Z.to_nat n) -> IS_USER_ADDRESS t = true ->
  exists bs, copy_from_mem t m a n = Some (bs, EFAULT) /\ (length bs <= Z.to_nat n)%nat.
Proof.
  intros H Ht. apply memcpy_load_fault in H. unfold copy_from_mem.
  destruct (memcpy_load m a (Z.to_nat n)) as [bs ok] eqn:E. simpl in H. subst ok.
  exists bs. rewrite Ht. split; [done|]. apply memcpy_load_length in E. tauto.
Qed.

Lemma holds_app m a bs1 bs2 :
  holds m a (bs1 ++ bs2) <-> holds m a bs1 /\ holds m (a + Z.of_nat (length bs1)) bs2.
Proof.
  unfold holds. split.
  - intros H. split; intros i b Hi.
    + apply H. by apply lookup_app_l_Some.
    + replace (a + Z.of_nat (length bs1) + Z.of_nat i)
        with (a + Z.of_nat (length bs1 + i)) by lia.
      apply H. rewrite lookup_app_r by lia. by replace (_ + i - _)%nat with i by lia.
  - intros [H1 H2] i b Hi. apply lookup_app_Some in Hi as [Hi|[Hl Hi]]; [by apply H1|].
    apply H2 in Hi.
    by replace (a + Z.of_nat i)
      with (a + Z.of_nat (length bs1) + Z.of_nat (i - length bs1)) by lia.
Qed.

Lemma memcpy_load_app m a n1 n2 :
  memcpy_load m a (n1 + n2) =
    let '(bs1, ok1) := memcpy_load m a n1 in
    if ok1 then
      let '(bs2, ok2) := memcpy_load m (a + Z.of_nat n1) n2 in (bs1 ++ bs2, ok2)
    else (bs1, false).
Proof.
  revert a. induction n1 as [|n1 IH]; intros a; simpl.
  - rewrite Z.add_0_r. by destruct (memcpy_load m a n2).
  - destruct (m !! a); [|done]. rewrite IH.
    replace (a + Z.of_nat (S n1)) with (a + 1 + Z.of_nat n1) by lia.
    destruct (memcpy_load m (a + 1) n1) as [bs1 [|]]; [|done].
    by destruct (memcpy_load m (a + 1 + Z.of_nat n1) n2).
Qed.

Lemma user_address a : a < USERSPACE_END -> IS_USER_ADDRESS a = true.
Proof. intros. unfold IS_USER_ADDRESS. by apply Z.ltb_lt. Qed.

Lemma kernel_address a : USERSPACE_END <= a -> IS_USER_ADDRESS a = false.
Proof. intros. unfold IS_USER_ADDRESS. by apply Z.ltb_ge. Qed.

(** Decision procedures, for concrete memories. *)
Fixpoint holdsb (m : mem) (a : Z) (bs : list Z) : bool :=
  match bs with
  | [] => true
  | b :: bs' => bool_decide (m !! a = Some b) && holdsb m (a + 1) bs'
  end.

Lemma holdsb_holds m a bs : holdsb m a bs = true -> holds m a bs.
Proof.
  revert a. induction bs as [|b bs IH]; intros a H; simpl in H.
  - intros i b Hb. by rewrite lookup_nil in Hb.
  - apply andb_true_iff in H as [H1 H2]. apply bool_decide_eq_true in H1.
    apply holds_cons. auto.
Qed.

Definition mappedb (m : mem) (a : Z) (n : nat) : bool :=
  forallb (fun i => bool_decide (is_Some (m !! (a + Z.of_nat i)))) (seq 0 n).

Lemma mappedb_spec m a n : mappedb m a n = true <-> mapped m a n.
Proof.
  unfold mappedb, mapped. rewrite forallb_forall. split.
  - intros H i Hi. specialize (H i). rewrite in_seq in H.
    apply bool_decide_eq_true in H; [done|lia].
  - intros H i Hi. apply in_seq in Hi. apply bool_decide_eq_true. apply H. lia.
Qed.

#[global] Instance mapped_dec m a n : Decision (mapped m a n).
Proof.
  refine (cast_if (decide (mappedb m a n = true))); by rewrite <- mappedb_spec.
Defined.

Lemma mappedb_mapped m a n : mappedb m a n = true -> mapped m a n.
Proof. apply mappedb_spec. Qed.

Lemma not_mappedb m a n : mappedb m a n = false -> ~ mapped m a n.
Proof. rewrite <- mappedb_spec. congruence. Qed.
