(* ===== verification/RingBuffer.v ===== *)
(** * Ring buffers ([lib/ringbuffer.c], [include/ringbuffer.h])

    A ring buffer is a byte array with two free running 64 bit counters.  The
    abstract view is the FIFO queue [contents]; the theorems show that every
    operation acts on the queue as its documentation says, that no access
    leaves the array, and that a fault in a guarded user copy leaves the queue
    unchanged. *)

From S2P Require Import Prelude Errno Mem.


(** [ringbuffer_t]; [base] is the address of [data], a kernel mapping. *)
Record ringbuffer_t := mk_ringbuffer {
  size : Z;
  write : Z;
  read : Z;
  base : Z;
  data : list Z
}.

Definition RINGBUFFER_DATACOUNT (rb : ringbuffer_t) : Z := u64 (write rb - read rb).
Definition RINGBUFFER_SIZE (rb : ringbuffer_t) : Z := size rb.
Definition RINGBUFFER_FREESPACE (rb : ringbuffer_t) : Z :=
  u64 (RINGBUFFER_SIZE rb - RINGBUFFER_DATACOUNT rb).
Definition RINGBUFFER_USER_COPY_FAILED : Z := 2 ^ 64 - 1.

Definition set_data (rb : ringbuffer_t) (d : list Z) : ringbuffer_t :=
  mk_ringbuffer (size rb) (write rb) (read rb) (base rb) d.
Definition set_write (rb : ringbuffer_t) (w : Z) : ringbuffer_t :=
  mk_ringbuffer (size rb) w (read rb) (base rb) (data rb).
Definition set_read (rb : ringbuffer_t) (r : Z) : ringbuffer_t :=
  mk_ringbuffer (size rb) (write rb) r (base rb) (data rb).

(** [vmm_map] either fails or gives the address and the (zeroed) bytes of a
    fresh kernel mapping of the requested length. *)
Definition ringbuffer_init (vmm_map : Z -> option (Z * list Z)) (sz : Z) : Z + ringbuffer_t :=
  match vmm_map (ROUND_UP sz PAGE_SIZE) with
  | None => inl ENOMEM
  | Some (addr, d) => inr (mk_ringbuffer sz 0 0 addr d)
  end.

(** The mapping handed back to [vmm_unmap]. *)
Definition ringbuffer_destroy (rb : ringbuffer_t) : Z * Z :=
  (base rb, ROUND_UP (size rb) PAGE_SIZE).

Definition ringbuffer_truncate (rb : ringbuffer_t) (count : Z) : ringbuffer_t * Z :=
  let truecount := cmin (RINGBUFFER_DATACOUNT rb) count in
  (set_read rb (u64 (read rb + truecount)), truecount).

Definition ringbuffer_remove (rb : ringbuffer_t) (count : Z) : ringbuffer_t * Z :=
  let true_count := cmin (RINGBUFFER_DATACOUNT rb) count in
  (set_write rb (u64 (write rb - true_count)), true_count).

(** The two passes shared by the reading operations: copy [count] bytes that
    start at array offset [off] to [buffer].  [tested1] and [tested2] are the
    addresses the copy macros test in the first and in the second pass. *)
Definition read_passes (tested1 tested2 : Z) (m : mem) (rb : ringbuffer_t)
    (buffer firstpassoffset count : Z) : option (mem * Z) :=
  let firstpassremaining := u64 (size rb - firstpassoffset) in
  let firstpasscount := cmin count firstpassremaining in
  bs1 ← kload (data rb) firstpassoffset firstpasscount;
  '(m1, e1) ← copy_to_mem tested1 m buffer bs1;
  if negb (e1 =? 0) then Some (m1, RINGBUFFER_USER_COPY_FAILED)
  else if firstpasscount =? count then Some (m1, count)
  else
    bs2 ← kload (data rb) 0 (u64 (count - firstpasscount));
    '(m2, e2) ← copy_to_mem tested2 m1 (u64 (buffer + firstpasscount)) bs2;
    if negb (e2 =? 0) then Some (m2, RINGBUFFER_USER_COPY_FAILED)
    else Some (m2, count).

(** [ringbuffer_read] uses [USERCOPY_POSSIBLY_FROM_USER] with the ring storage
    as the "user" operand, so the address that selects the guarded copy is the
    ring's own. *)
Definition ringbuffer_read (m : mem) (rb : ringbuffer_t) (buffer count : Z)
    : option (mem * ringbuffer_t * Z) :=
  let datacount := RINGBUFFER_DATACOUNT rb in
  let count := cmin count datacount in
  let firstpassoffset := read rb mod size rb in
  '(m', r) ← read_passes (u64 (base rb + firstpassoffset)) (base rb) m rb buffer
               firstpassoffset count;
  if r =? RINGBUFFER_USER_COPY_FAILED then Some (m', rb, r)
  else Some (m', set_read rb (u64 (read rb + count)), r).

Definition ringbuffer_peek (m : mem) (rb : ringbuffer_t) (buffer offset count : Z)
    : option (mem * Z) :=
  let datacount := RINGBUFFER_DATACOUNT rb in
  let freespace := u64 (RINGBUFFER_SIZE rb - datacount) in
  if offset >=? datacount then Some (m, 0)
  else
    let rd := u64 (read rb + cmin offset freespace) in
    let offsetdatacount := u64 (datacount - offset) in
    let count := cmin count offsetdatacount in
    let firstpassoffset := rd mod size rb in
    let firstpassremaining := u64 (size rb - firstpassoffset) in
    let firstpasscount := cmin count firstpassremaining in
    read_passes buffer (u64 (buffer + firstpasscount)) m rb buffer firstpassoffset count.

Definition ringbuffer_write (m : mem) (rb : ringbuffer_t) (buffer count : Z)
    : option (ringbuffer_t * Z) :=
  let freespace := u64 (RINGBUFFER_SIZE rb - RINGBUFFER_DATACOUNT rb) in
  let count := cmin count freespace in
  let firstpassoffset := write rb mod size rb in
  let firstpassremaining := u64 (size rb - firstpassoffset) in
  let firstpasscount := cmin count firstpassremaining in
  '(bs1, e1) ← copy_from_mem buffer m buffer firstpasscount;
  d1 ← kstore (data rb) firstpassoffset bs1;
  if negb (e1 =? 0) then Some (set_data rb d1, RINGBUFFER_USER_COPY_FAILED)
  else if firstpasscount =? count
  then Some (set_write (set_data rb d1) (u64 (write rb + count)), count)
  else
    let buffer2 := u64 (buffer + firstpasscount) in
    '(bs2, e2) ← copy_from_mem buffer2 m buffer2 (u64 (count - firstpasscount));
    d2 ← kstore d1 0 bs2;
    if negb (e2 =? 0) then Some (set_data rb d2, RINGBUFFER_USER_COPY_FAILED)
    else Some (set_write (set_data rb d2) (u64 (write rb + count)), count).

(** ** Abstract view *)

(** The bytes queued, oldest first. *)
Definition contents (rb : ringbuffer_t) : list Z :=
  map (fun i => data rb !!! Z.to_nat ((read rb + Z.of_nat i) mod size rb))
      (seq 0 (Z.to_nat (RINGBUFFER_DATACOUNT rb))).

(** The counters may wrap at 64 bits only when the size divides [2 ^ 64]. *)
Record rb_wf (rb : ringbuffer_t) : Prop := mk_rb_wf {
  wf_size : 0 < size rb < 2 ^ 62;
  wf_write : is_u64 (write rb);
  wf_read : is_u64 (read rb);
  wf_count : RINGBUFFER_DATACOUNT rb <= size rb;
  wf_lap : (size rb | 2 ^ 64) \/ read rb <= write rb;
  wf_data : size rb <= Z.of_nat (length (data rb));
  wf_base : USERSPACE_END <= base rb;
  wf_top : base rb + size rb < 2 ^ 64
}.

(** ** Lemmas *)

(** [count] consecutive slots of an array of [s] slots, from slot [off]. *)
Definition ring_bytes (d : list Z) (s off count : Z) : list Z :=
  map (fun i => d !!! Z.to_nat ((off + Z.of_nat i) mod s)) (seq 0 (Z.to_nat count)).

Lemma length_ring_bytes d s off count :
  length (ring_bytes d s off count) = Z.to_nat count.
Proof. unfold ring_bytes. by rewrite length_map, length_seq. Qed.

Lemma lookup_ring_bytes d s off count i :
  0 < s <= Z.of_nat (length d) -> (i < Z.to_nat count)%nat ->
  ring_bytes d s off count !! i = d !! Z.to_nat ((off + Z.of_nat i) mod s).
Proof.
  intros Hs Hi. unfold ring_bytes. rewrite lookup_map_seq, decide_True by done.
  symmetry. apply lookup_total_Some.
  pose proof (Z.mod_pos_bound (off + Z.of_nat i) s). lia.
Qed.

Lemma contents_ring_bytes rb :
  contents rb = ring_bytes (data rb) (size rb) (read rb) (RINGBUFFER_DATACOUNT rb).
Proof. done. Qed.

Lemma datacount_nonneg rb : 0 <= RINGBUFFER_DATACOUNT rb.
Proof. unfold RINGBUFFER_DATACOUNT. apply u64_range. Qed.

Lemma length_contents rb :
  Z.of_nat (length (contents rb)) = RINGBUFFER_DATACOUNT rb.
Proof.
  rewrite contents_ring_bytes, length_ring_bytes. pose proof (datacount_nonneg rb). lia.
Qed.

(** The slots before the end of the array, then the slots from its start. *)
Lemma ring_bytes_split d s off count :
  0 < s <= Z.of_nat (length d) -> 0 <= off < s -> 0 <= count <= s ->
  let c1 := Z.min count (s - off) in
  ring_bytes d s off count =
    slice d (Z.to_nat off) (Z.to_nat c1) ++ slice d 0 (Z.to_nat (count - c1)).
Proof.
  intros Hs Ho Hc c1. subst c1. apply list_eq. intros i.
  assert (Hl : length (slice d (Z.to_nat off) (Z.to_nat (Z.min count (s - off)))) =
               Z.to_nat (Z.min count (s - off))) by (apply length_slice; lia).
  destruct (decide (i < Z.to_nat count)%nat) as [Hi|Hi].
  - rewrite lookup_ring_bytes, ring_slot by lia.
    destruct (Z.ltb_spec (off + Z.of_nat i) s).
    + rewrite lookup_app_l by lia. rewrite lookup_slice, decide_True by lia. f_equal. lia.
    + rewrite lookup_app_r, Hl by lia. rewrite lookup_slice, decide_True by lia. f_equal. lia.
  - rewrite lookup_ge_None_2 by (rewrite length_ring_bytes; lia).
    symmetry. apply lookup_ge_None_2. rewrite length_app, Hl, length_slice; lia.
Qed.

(** A lap shifted by the length of the array reads the same slots. *)
Lemma ring_bytes_mod d s off count :
  0 < s -> ring_bytes d s (off mod s) count = ring_bytes d s off count.
Proof.
  intros Hs. unfold ring_bytes. apply map_ext. intros i. by rewrite Zplus_mod_idemp_l.
Qed.

Lemma ring_bytes_take d s off count n :
  0 <= n <= count -> take (Z.to_nat n) (ring_bytes d s off count) = ring_bytes d s off n.
Proof.
  intros Hn. apply list_eq. intros i. unfold ring_bytes.
  rewrite lookup_take, !lookup_map_seq. by repeat destruct (decide _); try lia.
Qed.

Lemma ring_bytes_drop d s off count n :
  0 <= n <= count ->
  drop (Z.to_nat n) (ring_bytes d s off count) = ring_bytes d s (off + n) (count - n).
Proof.
  intros Hn. apply list_eq. intros i. rewrite lookup_drop. unfold ring_bytes.
  rewrite !lookup_map_seq. do 2 destruct (decide _); try lia; [|done].
  do 2 f_equal. f_equal. f_equal. lia.
Qed.

(** ** The passes *)

Section passes.
Context (rb : ringbuffer_t) (Hwf : rb_wf rb).

Lemma wf_sizes : 0 < size rb <= Z.of_nat (length (data rb)).
Proof using Hwf. destruct Hwf. lia. Qed.

Lemma first_pass_count off count :
  0 <= off < size rb -> 0 <= count <= size rb ->
  cmin count (u64 (size rb - off)) = Z.min count (size rb - off).
Proof using Hwf.
  intros. destruct Hwf. rewrite u64_id by (unfold is_u64; lia).
  apply cmin_small; lia.
Qed.

Lemma read_passes_ok t1 t2 m buffer off count :
  0 <= off < size rb -> 0 <= count <= size rb ->
  0 <= buffer -> buffer + count < 2 ^ 64 ->
  mapped m buffer (Z.to_nat count) ->
  exists m', read_passes t1 t2 m rb buffer off count = Some (m', count) /\
    holds m' buffer (ring_bytes (data rb) (size rb) off count) /\
    (forall x, ~ (buffer <= x < buffer + count) -> m' !! x = m !! x).
Proof using Hwf.
  intros Ho Hc Hb Hb' Hm. pose proof wf_sizes as Hs. unfold read_passes.
  rewrite first_pass_count by done.
  rewrite (ring_bytes_split _ _ off count) by done.
  set (c1 := Z.min count (size rb - off)) in *.
  assert (Hc1 : 0 <= c1 <= count) by lia.
  assert (Hl1 : length (slice (data rb) (Z.to_nat off) (Z.to_nat c1)) = Z.to_nat c1)
    by (apply length_slice; lia).
  assert (Hl2 : length (slice (data rb) 0 (Z.to_nat (count - c1))) = Z.to_nat (count - c1))
    by (apply length_slice; lia).
  replace (Z.to_nat count) with (Z.to_nat c1 + Z.to_nat (count - c1))%nat in Hm by lia.
  apply mapped_app in Hm as [Hm1 Hm2].
  rewrite (kload_ok _ off c1) by lia. cbn [mbind option_bind].
  destruct (copy_to_mem_ok t1 m buffer (slice (data rb) (Z.to_nat off) (Z.to_nat c1)))
    as (m1 & -> & Hh1 & Hf1 & Hd1); [by rewrite Hl1|].
  rewrite Hl1 in Hf1. simpl. destruct (Z.eqb_spec c1 count) as [He|He].
  - exists m1. split; [done|]. split.
    + replace (count - c1) with 0 by lia. by rewrite app_nil_r.
    + intros x Hx. apply Hf1. lia.
  - rewrite !u64_id by (unfold is_u64; lia).
    rewrite kload_ok by lia. cbn [mbind option_bind].
    replace (Z.to_nat 0) with 0%nat by lia.
    destruct (copy_to_mem_ok t2 m1 (buffer + c1) (slice (data rb) 0 (Z.to_nat (count - c1))))
      as (m2 & -> & Hh2 & Hf2 & _).
    { rewrite Hl2. intros i Hi. apply Hd1.
      replace (buffer + c1) with (buffer + Z.of_nat (Z.to_nat c1)) by lia. by apply Hm2. }
    rewrite Hl2 in Hf2. simpl. exists m2. split; [done|]. split.
    + apply holds_app. split.
      * intros i b Hi. rewrite Hf2; [by apply Hh1|].
        apply lookup_lt_Some in Hi. lia.
      * rewrite Hl1. by replace (Z.of_nat (Z.to_nat c1)) with c1 by lia.
    + intros x Hx. rewrite Hf2 by lia. apply Hf1. lia.
Qed.

Lemma read_passes_fault t1 t2 m buffer off count :
  0 <= off < size rb -> 0 <= count <= size rb ->
  0 <= buffer -> buffer + count < 2 ^ 64 ->
  IS_USER_ADDRESS t1 = IS_USER_ADDRESS t2 ->
  ~ mapped m buffer (Z.to_nat count) ->
  exists m', read_passes t1 t2 m rb buffer off count =
    if IS_USER_ADDRESS t1 then Some (m', RINGBUFFER_USER_COPY_FAILED) else None.
Proof using Hwf.
  intros Ho Hc Hb Hb' Ht Hm. pose proof wf_sizes as Hs. unfold read_passes.
  rewrite first_pass_count by done.
  set (c1 := Z.min count (size rb - off)) in *.
  rewrite (kload_ok _ off c1) by lia. cbn [mbind option_bind].
  assert (Hl1 : length (slice (data rb) (Z.to_nat off) (Z.to_nat c1)) = Z.to_nat c1)
    by (apply length_slice; lia).
  destruct (memcpy_store m buffer (slice (data rb) (Z.to_nat off) (Z.to_nat c1)))
    as [m1 [|]] eqn:E1.
  - pose proof (memcpy_store_mapped _ _ _ _ E1) as Hm1. rewrite Hl1 in Hm1.
    destruct (copy_to_mem_ok t1 m buffer (slice (data rb) (Z.to_nat off) (Z.to_nat c1)))
      as (m1' & E & Hh1 & Hf1 & Hd1); [by rewrite Hl1|].
    rewrite E. simpl. destruct (Z.eqb_spec c1 count) as [He|He].
    { destruct Hm. by rewrite <- He. }
    rewrite !u64_id by (unfold is_u64; lia).
    rewrite kload_ok by lia. cbn [mbind option_bind].
    assert (Hl2 : length (slice (data rb) (Z.to_nat 0) (Z.to_nat (count - c1))) =
                  Z.to_nat (count - c1)) by (apply length_slice; lia).
    destruct (copy_to_mem_fault t2 m1' (buffer + c1)
                (slice (data rb) (Z.to_nat 0) (Z.to_nat (count - c1)))) as [m2 ->].
    { rewrite Hl2. intros Hm2. apply Hm.
      replace (Z.to_nat count) with (Z.to_nat c1 + Z.to_nat (count - c1))%nat by lia.
      apply mapped_app. split; [done|]. intros i Hi.
      replace (Z.of_nat (Z.to_nat c1)) with c1 by lia. apply Hd1. by apply Hm2. }
    exists m2. rewrite Ht. by destruct (IS_USER_ADDRESS t2).
  - destruct (copy_to_mem_fault t1 m buffer
                (slice (data rb) (Z.to_nat off) (Z.to_nat c1))) as [m' ->].
    { intros H. destruct (memcpy_store_ok _ _ _ H) as (? & E & _). congruence. }
    exists m'. by destruct (IS_USER_ADDRESS t1).
Qed.
End passes.

(** ** Moving the counters *)

Lemma datacount_eq rb :
  rb_wf rb -> read rb <= write rb -> RINGBUFFER_DATACOUNT rb = write rb - read rb.
Proof.
  intros [] H. unfold RINGBUFFER_DATACOUNT. apply u64_id. unfold is_u64 in *. lia.
Qed.

(** Taking [n] bytes from the front of the queue. *)
Lemma advance_read rb n :
  rb_wf rb -> 0 <= n <= RINGBUFFER_DATACOUNT rb ->
  let rb' := set_read rb (u64 (read rb + n)) in
  rb_wf rb' /\ contents rb' = drop (Z.to_nat n) (contents rb).
Proof.
  intros Hwf Hn rb'. pose proof Hwf as [].
  assert (Hdc : RINGBUFFER_DATACOUNT rb' = RINGBUFFER_DATACOUNT rb - n).
  { unfold RINGBUFFER_DATACOUNT, rb' in *. simpl. rewrite u64_sub_r.
    replace (write rb - (read rb + n)) with (write rb - read rb - n) by lia.
    rewrite <- u64_sub_l. apply u64_id. pose proof (u64_range (write rb - read rb)).
    unfold is_u64 in *. lia. }
  split.
  - split; simpl; try done; auto with astral; [lia|].
    destruct wf_lap0 as [|Hle]; [by left|right].
    pose proof (datacount_eq rb Hwf Hle). rewrite u64_id; unfold is_u64 in *; lia.
  - rewrite !contents_ring_bytes, ring_bytes_drop, Hdc by done. simpl.
    unfold ring_bytes. apply map_ext. intros i. do 2 f_equal.
    destruct wf_lap0 as [Hdiv|Hle].
    + apply u64_mod_divide; [lia|done].
    + pose proof (datacount_eq rb Hwf Hle). rewrite u64_id; unfold is_u64 in *; [done|lia].
Qed.

(** Taking [n] bytes back from the end of the queue. *)
Lemma retreat_write rb n :
  rb_wf rb -> 0 <= n <= RINGBUFFER_DATACOUNT rb ->
  let rb' := set_write rb (u64 (write rb - n)) in
  rb_wf rb' /\
  contents rb' = take (Z.to_nat (RINGBUFFER_DATACOUNT rb - n)) (contents rb).
Proof.
  intros Hwf Hn rb'. pose proof Hwf as [].
  assert (Hdc : RINGBUFFER_DATACOUNT rb' = RINGBUFFER_DATACOUNT rb - n).
  { unfold RINGBUFFER_DATACOUNT, rb' in *. simpl. rewrite u64_sub_l.
    replace (write rb - n - read rb) with (write rb - read rb - n) by lia.
    rewrite <- u64_sub_l. apply u64_id. pose proof (u64_range (write rb - read rb)).
    unfold is_u64 in *. lia. }
  split.
  - split; simpl; try done; auto with astral; [lia|].
    destruct wf_lap0 as [|Hle]; [by left|right].
    pose proof (datacount_eq rb Hwf Hle). rewrite u64_id; unfold is_u64 in *; lia.
  - rewrite !contents_ring_bytes, ring_bytes_take, Hdc by lia. done.
Qed.

(** The slot the next byte is written to follows the queue. *)
Lemma write_slot rb :
  rb_wf rb -> write rb mod size rb = (read rb + RINGBUFFER_DATACOUNT rb) mod size rb.
Proof.
  intros Hwf. pose proof Hwf as []. destruct wf_lap0 as [Hdiv|Hle].
  - rewrite <- (u64_id (write rb)) at 1 by done.
    replace (write rb) with (write rb - read rb + read rb) at 1 by lia.
    rewrite <- u64_add_l. fold (RINGBUFFER_DATACOUNT rb).
    rewrite <- (Z.add_0_r (u64 _)), u64_mod_divide by (done || lia). f_equal. lia.
  - rewrite datacount_eq by done. f_equal. lia.
Qed.

(** ** Writing *)

(** [d'] is [d] with [bs] stored in the slots from [off]. *)
Definition slots_written (d d' : list Z) (s off : Z) (bs : list Z) : Prop :=
  length d' = length d /\
  (forall i b, bs !! i = Some b -> d' !! Z.to_nat ((off + Z.of_nat i) mod s) = Some b) /\
  (forall j, (forall i, (i < length bs)%nat -> j <> Z.to_nat ((off + Z.of_nat i) mod s)) ->
     d' !! j = d !! j).

Lemma slots_written_mod d d' s off bs :
  0 < s -> slots_written d d' s (off mod s) bs <-> slots_written d d' s off bs.
Proof.
  intros Hs. unfold slots_written.
  by setoid_rewrite Zplus_mod_idemp_l.
Qed.

Lemma splice_slots d s off bs :
  0 <= off -> off + Z.of_nat (length bs) <= s -> s <= Z.of_nat (length d) ->
  slots_written d (splice d (Z.to_nat off) bs) s off bs.
Proof.
  intros Ho Hb Hs. split; [|split].
  - apply length_splice. lia.
  - intros i b Hi. pose proof (lookup_lt_Some _ _ _ Hi).
    rewrite Z.mod_small, lookup_splice, decide_True by lia.
    rewrite <- Hi. f_equal. lia.
  - intros j Hj. rewrite lookup_splice by lia. destruct (decide _) as [Hin|]; [|done].
    destruct (Hj (j - Z.to_nat off)%nat); [lia|]. rewrite Z.mod_small by lia. lia.
Qed.

Lemma slots_written_app d d1 d2 s off bs1 bs2 :
  0 < s -> Z.of_nat (length bs1 + length bs2) <= s ->
  slots_written d d1 s off bs1 ->
  slots_written d1 d2 s (off + Z.of_nat (length bs1)) bs2 ->
  slots_written d d2 s off (bs1 ++ bs2).
Proof.
  intros Hs Hl (L1 & W1 & F1) (L2 & W2 & F2). split; [congruence|]. split.
  - intros i b Hi. apply lookup_app_Some in Hi as [Hi|[Hge Hi]].
    + rewrite F2; [by apply W1|]. intros k Hk He. apply lookup_lt_Some in Hi.
      apply Z2Nat.inj in He; try (apply Z.mod_pos_bound; lia).
      rewrite <- Z.add_assoc in He. apply ring_slot_inj in He; lia.
    + apply W2 in Hi. rewrite <- Hi. do 3 f_equal. lia.
  - intros j Hj. rewrite F2, F1; [done| |].
    + intros i Hi. apply Hj. rewrite length_app. lia.
    + intros i Hi. replace (off + Z.of_nat (length bs1) + Z.of_nat i)
        with (off + Z.of_nat (length bs1 + i)) by lia.
      apply Hj. rewrite length_app. lia.
Qed.

(** Stores to free slots leave the queue alone. *)
Lemma contents_free_slots rb d' bs :
  rb_wf rb -> slots_written (data rb) d' (size rb) (write rb) bs ->
  Z.of_nat (length bs) <= size rb - RINGBUFFER_DATACOUNT rb ->
  ring_bytes d' (size rb) (read rb) (RINGBUFFER_DATACOUNT rb) = contents rb.
Proof.
  intros Hwf (L & _ & F) Hl. pose proof (wf_sizes rb Hwf) as Hs.
  rewrite contents_ring_bytes. apply list_eq. intros i.
  destruct (decide (i < Z.to_nat (RINGBUFFER_DATACOUNT rb))%nat).
  - rewrite !lookup_ring_bytes by lia. apply F. intros k Hk He.
    apply Z2Nat.inj in He; try (apply Z.mod_pos_bound; lia).
    rewrite <- (Zplus_mod_idemp_l (write rb)), (write_slot rb Hwf) in He.
    rewrite Zplus_mod_idemp_l, <- Z.add_assoc in He.
    apply ring_slot_inj in He; lia.
  - rewrite !lookup_ge_None_2; try done; rewrite length_ring_bytes; lia.
Qed.

(** Appending [bs] to the queue. *)
Lemma advance_write rb d' bs :
  let n := Z.of_nat (length bs) in
  let rb' := set_write (set_data rb d') (u64 (write rb + n)) in
  rb_wf rb -> slots_written (data rb) d' (size rb) (write rb) bs ->
  n <= size rb - RINGBUFFER_DATACOUNT rb ->
  (size rb | 2 ^ 64) \/ write rb + n < 2 ^ 64 ->
  rb_wf rb' /\ contents rb' = contents rb ++ bs.
Proof.
  intros n rb' Hwf Hs Hn Hlap. pose proof Hwf as []. pose proof (wf_sizes rb Hwf) as Hsz.
  pose proof (datacount_nonneg rb) as Hdn.
  assert (Hdc : RINGBUFFER_DATACOUNT rb' = RINGBUFFER_DATACOUNT rb + n).
  { unfold RINGBUFFER_DATACOUNT, rb' in *. simpl. rewrite u64_sub_l.
    replace (write rb + n - read rb) with (write rb - read rb + n) by lia.
    rewrite <- u64_add_l. apply u64_id. unfold is_u64. lia. }
  pose proof Hs as (L & W & F). split.
  - split; simpl; try done; auto with astral; [lia| |lia].
    destruct wf_lap0 as [|Hle]; [by left|]. destruct Hlap as [|Hlap]; [by left|right].
    rewrite u64_id; unfold is_u64 in *; lia.
  - rewrite (contents_ring_bytes rb'), Hdc. simpl.
    rewrite <- (contents_free_slots rb d' bs) by done.
    apply list_eq. intros i. subst n.
    destruct (decide (i < Z.to_nat (RINGBUFFER_DATACOUNT rb))%nat).
    + rewrite lookup_app_l by (rewrite length_ring_bytes; lia).
      rewrite !lookup_ring_bytes; (done || lia).
    + rewrite lookup_app_r by (rewrite length_ring_bytes; lia). rewrite length_ring_bytes.
      destruct (bs !! (i - Z.to_nat (RINGBUFFER_DATACOUNT rb))%nat) as [b|] eqn:Hb.
      * pose proof (lookup_lt_Some _ _ _ Hb). rewrite lookup_ring_bytes by lia.
        rewrite <- (W _ _ Hb). f_equal. f_equal.
        rewrite <- (Zplus_mod_idemp_l (write rb)), (write_slot rb Hwf), Zplus_mod_idemp_l.
        f_equal. lia.
      * apply lookup_ge_None in Hb.
        apply lookup_ge_None_2. rewrite length_ring_bytes. lia.
Qed.

Lemma freespace_eq rb :
  rb_wf rb -> RINGBUFFER_FREESPACE rb = size rb - RINGBUFFER_DATACOUNT rb.
Proof.
  intros []. unfold RINGBUFFER_FREESPACE, RINGBUFFER_SIZE. apply u64_id.
  pose proof (datacount_nonneg rb). unfold is_u64. lia.
Qed.

(** The store of the first pass, and the store of the second pass, which
    happens when the first one reached the end of the array. *)
Lemma first_store rb bs :
  let off := write rb mod size rb in
  rb_wf rb -> off + Z.of_nat (length bs) <= size rb ->
  exists d1, kstore (data rb) off bs = Some d1 /\
    slots_written (data rb) d1 (size rb) (write rb) bs.
Proof.
  intros off Hwf Hl. pose proof (wf_sizes rb Hwf) as Hs.
  pose proof (Z.mod_pos_bound (write rb) (size rb) ltac:(lia)) as Hb. fold off in Hb.
  eexists. split; [apply kstore_ok; lia|].
  apply slots_written_mod; [lia|]. apply splice_slots; lia.
Qed.

Lemma second_store rb d1 bs1 bs2 :
  rb_wf rb -> slots_written (data rb) d1 (size rb) (write rb) bs1 ->
  write rb mod size rb + Z.of_nat (length bs1) = size rb ->
  Z.of_nat (length bs1 + length bs2) <= size rb ->
  exists d2, kstore d1 0 bs2 = Some d2 /\
    slots_written (data rb) d2 (size rb) (write rb) (bs1 ++ bs2).
Proof.
  intros Hwf H1 Hend Hl. pose proof (wf_sizes rb Hwf) as Hs. pose proof H1 as (L1 & _).
  eexists. split; [apply kstore_ok; lia|].
  eapply slots_written_app; [lia|lia|exact H1|].
  apply slots_written_mod; [lia|].
  replace ((write rb + Z.of_nat (length bs1)) mod size rb) with 0.
  - apply (splice_slots _ _ 0); lia.
  - rewrite <- Zplus_mod_idemp_l, Hend. by rewrite Z_mod_same_full.
Qed.

(** ** Behaviour of the operations *)

Lemma write_count rb len :
  rb_wf rb -> 0 <= len < 2 ^ 63 ->
  cmin len (u64 (RINGBUFFER_SIZE rb - RINGBUFFER_DATACOUNT rb)) =
    Z.min len (size rb - RINGBUFFER_DATACOUNT rb).
Proof.
  intros Hwf Hl. fold (RINGBUFFER_FREESPACE rb). rewrite freespace_eq by done.
  pose proof (datacount_nonneg rb). destruct Hwf. apply cmin_small; lia.
Qed.

(** What a write does, in terms of one copy of the bytes that fit. *)
Lemma write_outcome m rb buffer count bs ok :
  let n := Z.min count (size rb - RINGBUFFER_DATACOUNT rb) in
  rb_wf rb -> 0 <= buffer -> 0 <= count < 2 ^ 63 -> buffer + count < 2 ^ 64 ->
  memcpy_load m buffer (Z.to_nat n) = (bs, ok) ->
  ok = true \/ buffer + count <= USERSPACE_END ->
  exists d, slots_written (data rb) d (size rb) (write rb) bs /\
    ringbuffer_write m rb buffer count =
      Some (if ok then (set_write (set_data rb d) (u64 (write rb + n)), n)
            else (set_data rb d, RINGBUFFER_USER_COPY_FAILED)).
Proof.
  intros n Hwf Hb Hc Hb' HL Hu. pose proof (wf_sizes rb Hwf) as Hs.
  pose proof (datacount_nonneg rb) as Hdn. unfold ringbuffer_write.
  rewrite write_count by (done || lia). fold n.
  assert (Hn : 0 <= n <= count) by (destruct Hwf; lia).
  set (off := write rb mod size rb).
  assert (Hoff : 0 <= off < size rb) by (apply Z.mod_pos_bound; lia).
  rewrite first_pass_count by (done || lia). set (c1 := Z.min n (size rb - off)).
  replace (Z.to_nat n) with (Z.to_nat c1 + Z.to_nat (n - c1))%nat in HL by lia.
  rewrite memcpy_load_app in HL. unfold copy_from_mem.
  destruct (memcpy_load m buffer (Z.to_nat c1)) as [bs1 ok1] eqn:E1.
  destruct (memcpy_load_length _ _ _ _ _ E1) as (Hl1 & Hok & Hh1).
  destruct (first_store rb bs1) as (d1 & Hk1 & Hs1); [done|lia|]. fold off in Hk1.
  destruct ok1.
  2: { injection HL as <- <-. destruct Hu as [|Hu]; [done|].
       rewrite (user_address buffer) by lia. exists d1. split; [done|].
       cbn. by rewrite Hk1. }
  assert (Hlen1 : length bs1 = Z.to_nat c1) by tauto. cbn. rewrite Hk1. cbn.
  destruct (Z.eqb_spec c1 n) as [He|He].
  { rewrite He, Z.sub_diag in HL. simpl in HL. injection HL as <- <-.
    rewrite app_nil_r. eauto. }
  rewrite (u64_id (buffer + c1)), (u64_id (n - c1)) by (unfold is_u64; lia).
  replace (Z.of_nat (Z.to_nat c1)) with c1 in HL by lia.
  destruct (memcpy_load m (buffer + c1) (Z.to_nat (n - c1))) as [bs2 ok2] eqn:E2.
  destruct (memcpy_load_length _ _ _ _ _ E2) as (Hl2 & _). injection HL as <- <-.
  destruct (second_store rb d1 bs1 bs2) as (d2 & Hk2 & Hs2); try (done || lia).
  exists d2. split; [done|]. destruct ok2; cbn.
  - by rewrite Hk2.
  - destruct Hu as [|Hu]; [done|]. rewrite (user_address (buffer + c1)) by lia.
    cbn. by rewrite Hk2.
Qed.

(** A write from a readable source. *)
Lemma write_ok (m : mem) (rb : ringbuffer_t) (buffer : Z) (bs : list Z) :
  let len := Z.of_nat (length bs) in
  let n := Z.min len (size rb - Z.of_nat (length (contents rb))) in
  rb_wf rb -> 0 <= buffer -> len < 2 ^ 63 -> buffer + len < 2 ^ 64 -> holds m buffer bs ->
  (size rb | 2 ^ 64) \/ write rb + len < 2 ^ 64 ->
  exists rb', ringbuffer_write m rb buffer len = Some (rb', n) /\
    rb_wf rb' /\ contents rb' = contents rb ++ take (Z.to_nat n) bs.
Proof.
  intros len n Hwf Hb Hlen Hb' Hh Hlap. subst n. rewrite length_contents.
  set (n := Z.min len (size rb - RINGBUFFER_DATACOUNT rb)).
  assert (Hn : 0 <= n <= len) by (destruct Hwf; lia).
  destruct (write_outcome m rb buffer len (take (Z.to_nat n) bs) true) as (d & Hd & ->);
    try (done || lia || by left).
  { apply memcpy_load_ok; [done|lia]. }
  assert (Hlt : Z.of_nat (length (take (Z.to_nat n) bs)) = n) by (rewrite length_take; lia).
  destruct (advance_write rb d (take (Z.to_nat n) bs)) as [W C]; try (done || lia).
  - rewrite Hlt. destruct Hlap; [by left|right; lia].
  - rewrite Hlt in W, C. fold n. eauto.
Qed.

(** C5. Writing appends to the queue: from a readable source of [length bs]
    bytes exactly the bytes that fit are queued, in order, behind what was
    there, and their number is returned.  This holds across the wrap of the
    array and, when the size divides [2 ^ 64], across the wrap of the 64 bit
    counters. *)
Theorem ringbuffer_write_fifo (m : mem) (rb : ringbuffer_t) (buffer : Z) (bs : list Z) :
  let len := Z.of_nat (length bs) in
  let n := Z.min len (size rb - Z.of_nat (length (contents rb))) in
  rb_wf rb -> 0 <= buffer -> len < 2 ^ 63 -> buffer + len < 2 ^ 64 -> holds m buffer bs ->
  (size rb | 2 ^ 64) \/ write rb + len < 2 ^ 64 ->
  exists rb', ringbuffer_write m rb buffer len = Some (rb', n) /\
    rb_wf rb' /\ contents rb' = contents rb ++ take (Z.to_nat n) bs.
Proof. exact (write_ok m rb buffer bs). Qed.

(** A write from a source that faults. *)
Lemma write_fault_ok (m : mem) (rb : ringbuffer_t) (buffer count : Z) :
  let n := Z.min count (size rb - Z.of_nat (length (contents rb))) in
  rb_wf rb -> 0 <= buffer -> 0 <= count -> buffer + count <= USERSPACE_END ->
  ~ mapped m buffer (Z.to_nat n) ->
  exists rb', ringbuffer_write m rb buffer count = Some (rb', RINGBUFFER_USER_COPY_FAILED) /\
    rb_wf rb' /\ contents rb' = contents rb.
Proof.
  intros n Hwf Hb Hc Hu Hm. subst n. rewrite length_contents in Hm.
  set (n := Z.min count (size rb - RINGBUFFER_DATACOUNT rb)) in *.
  assert (Hn : 0 <= n) by (destruct Hwf; lia).
  destruct (memcpy_load m buffer (Z.to_nat n)) as [bs ok] eqn:E.
  assert (ok = false) as -> by (pose proof (memcpy_load_fault _ _ _ Hm) as F; by rewrite E in F).
  destruct (write_outcome m rb buffer count bs false) as (d & Hd & ->);
    try (done || (unfold USERSPACE_END in *; lia) || by right).
  destruct (memcpy_load_length _ _ _ _ _ E) as (Hl & _). pose proof Hd as (L & _).
  eexists. split; [done|]. split.
  - destruct Hwf. split; simpl; try done; lia.
  - rewrite <- (contents_free_slots rb d bs Hwf Hd) by lia. done.
Qed.

(** A write from a kernel source that runs out panics. *)
Lemma write_fault_kernel (m : mem) (rb : ringbuffer_t) (buffer count : Z) :
  rb_wf rb -> USERSPACE_END <= buffer -> 0 <= count <= size rb - Z.of_nat (length (contents rb)) ->
  buffer + count < 2 ^ 64 -> ~ mapped m buffer (Z.to_nat count) ->
  ringbuffer_write m rb buffer count = None.
Proof.
  intros Hwf Hb Hc Hu Hm. rewrite length_contents in Hc. pose proof (datacount_nonneg rb).
  assert (Hs : 0 < size rb < 2 ^ 62) by (by destruct Hwf). unfold ringbuffer_write. fold (RINGBUFFER_FREESPACE rb).
  rewrite freespace_eq by done. rewrite (cmin_small count) by lia. rewrite Z.min_l by lia.
  pose proof (Z.mod_pos_bound (write rb) (size rb) ltac:(lia)) as Ho. set (off := write rb mod size rb) in *.
  rewrite (u64_id (size rb - off)) by (unfold is_u64; lia). rewrite (cmin_small count) by lia.
  set (f := Z.min count (size rb - off)). unfold USERSPACE_END in *.
  rewrite (u64_id (buffer + f)), (u64_id (count - f)) by (unfold is_u64; lia).
  replace (Z.to_nat count) with (Z.to_nat f + Z.to_nat (count - f))%nat in Hm by lia.
  apply memcpy_load_fault in Hm. rewrite memcpy_load_app in Hm. rewrite Z2Nat.id in Hm by lia.
  unfold copy_from_mem. rewrite !kernel_address by (unfold USERSPACE_END; lia).
  destruct (memcpy_load m buffer (Z.to_nat f)) as [bs1 [|]] eqn:E1; [|done]. cbn [copy_status mbind option_bind].
  destruct (kstore (data rb) off bs1) as [d1|]; [|done]. cbn [mbind option_bind negb Z.eqb].
  destruct (Z.eqb_spec f count) as [Ef|Nf].
  - rewrite Ef, Z.sub_diag in Hm. done.
  - by destruct (memcpy_load m (buffer + f) (Z.to_nat (count - f))) as [bs2 [|]].
Qed.

(** A fault in the user source of a write comes back as
    [RINGBUFFER_USER_COPY_FAILED] and queues nothing, whichever pass faults. *)
Theorem ringbuffer_write_efault (m : mem) (rb : ringbuffer_t) (buffer count : Z) :
  let n := Z.min count (size rb - Z.of_nat (length (contents rb))) in
  rb_wf rb -> 0 <= buffer -> 0 <= count -> buffer + count <= USERSPACE_END ->
  ~ mapped m buffer (Z.to_nat n) ->
  exists rb', ringbuffer_write m rb buffer count = Some (rb', RINGBUFFER_USER_COPY_FAILED) /\
    rb_wf rb' /\ contents rb' = contents rb.
Proof. exact (write_fault_ok m rb buffer count). Qed.

(** The bytes [ringbuffer_read] and [ringbuffer_truncate] take. *)
Lemma read_count rb count :
  rb_wf rb -> 0 <= count < 2 ^ 63 ->
  cmin count (RINGBUFFER_DATACOUNT rb) = Z.min count (RINGBUFFER_DATACOUNT rb) /\
  cmin (RINGBUFFER_DATACOUNT rb) count = Z.min count (RINGBUFFER_DATACOUNT rb).
Proof.
  intros [] Hc. pose proof (datacount_nonneg rb). rewrite !cmin_small by lia. lia.
Qed.

Lemma ring_address_kernel rb off :
  rb_wf rb -> 0 <= off < size rb ->
  IS_USER_ADDRESS (u64 (base rb + off)) = false /\ IS_USER_ADDRESS (base rb) = false.
Proof.
  intros [] Ho. unfold USERSPACE_END in *.
  rewrite u64_id by (unfold is_u64; lia).
  split; apply kernel_address; unfold USERSPACE_END; lia.
Qed.

Lemma read_result_not_failed n :
  0 <= n < 2 ^ 62 -> (n =? RINGBUFFER_USER_COPY_FAILED) = false.
Proof. intros. unfold RINGBUFFER_USER_COPY_FAILED. cases_bool; lia. Qed.

(** C7. Reading takes from the front of the queue: the oldest
    [min count (length contents)] bytes arrive in order at [buffer], no other
    byte of memory changes, and exactly those bytes leave the queue. *)
Theorem ringbuffer_read_fifo (m : mem) (rb : ringbuffer_t) (buffer count : Z) :
  let n := Z.min count (Z.of_nat (length (contents rb))) in
  rb_wf rb -> 0 <= buffer -> 0 <= count < 2 ^ 63 -> buffer + count < 2 ^ 64 ->
  mapped m buffer (Z.to_nat n) ->
  exists m' rb', ringbuffer_read m rb buffer count = Some (m', rb', n) /\
    rb_wf rb' /\ contents rb' = drop (Z.to_nat n) (contents rb) /\
    holds m' buffer (take (Z.to_nat n) (contents rb)) /\
    (forall x, ~ (buffer <= x < buffer + n) -> m' !! x = m !! x).
Proof.
  intros n Hwf Hb Hc Hb' Hm. subst n. rewrite length_contents in *.
  pose proof (wf_sizes rb Hwf) as Hs. pose proof (datacount_nonneg rb) as Hdn.
  unfold ringbuffer_read. destruct (read_count rb count Hwf Hc) as [-> _].
  set (n := Z.min count (RINGBUFFER_DATACOUNT rb)) in *.
  assert (Hn : 0 <= n <= RINGBUFFER_DATACOUNT rb /\ n <= size rb /\ n < 2 ^ 62)
    by (destruct Hwf; lia).
  destruct (read_passes_ok rb Hwf (u64 (base rb + read rb mod size rb)) (base rb) m buffer
              (read rb mod size rb) n) as (m' & -> & Hh & Hf); try (done || lia).
  { apply Z.mod_pos_bound. lia. }
  cbn [mbind option_bind]. rewrite read_result_not_failed by lia.
  destruct (advance_read rb n Hwf ltac:(lia)) as [W C].
  exists m'. eexists. split; [done|]. split; [done|]. split; [done|]. split; [|done].
  rewrite contents_ring_bytes, ring_bytes_take by lia.
  by rewrite ring_bytes_mod in Hh by lia.
Qed.

(** A peek: the offset it skips is cut to the free space of the ring, the
    bytes it returns are counted from the offset it was given. *)
Lemma peek_at (m : mem) (rb : ringbuffer_t) (buffer offset count : Z) :
  let len := Z.of_nat (length (contents rb)) in
  let n := Z.max 0 (Z.min count (len - offset)) in
  rb_wf rb -> 0 <= buffer -> 0 <= count < 2 ^ 63 -> buffer + count < 2 ^ 64 ->
  0 <= offset < 2 ^ 63 ->
  mapped m buffer (Z.to_nat n) ->
  exists m', ringbuffer_peek m rb buffer offset count = Some (m', n) /\
    holds m' buffer (slice (contents rb) (Z.to_nat (Z.min offset (RINGBUFFER_FREESPACE rb))) (Z.to_nat n)) /\
    (forall x, ~ (buffer <= x < buffer + n) -> m' !! x = m !! x).
Proof.
  intros len n Hwf Hb Hc Hb' Hoff Hm. subst n len. rewrite length_contents in *.
  pose proof (wf_sizes rb Hwf) as Hs. pose proof (datacount_nonneg rb) as Hdn.
  unfold ringbuffer_peek. rewrite Z.geb_leb.
  destruct (Z.leb_spec (RINGBUFFER_DATACOUNT rb) offset) as [Hge|Hlt].
  { exists m. rewrite Z.max_l in * by lia. split; [done|]. split; [|done].
    intros i b Hi. by rewrite lookup_slice, decide_False in Hi by lia. }
  fold (RINGBUFFER_FREESPACE rb). rewrite freespace_eq by done.
  assert (Hsz : size rb < 2 ^ 62 /\ RINGBUFFER_DATACOUNT rb <= size rb) by (destruct Hwf; lia).
  rewrite (cmin_small offset) by lia.
  rewrite (u64_id (RINGBUFFER_DATACOUNT rb - offset)) by (unfold is_u64; lia).
  rewrite (cmin_small count) by lia. rewrite Z.max_r in * by lia.
  set (o := Z.min offset (size rb - RINGBUFFER_DATACOUNT rb)) in *.
  set (n := Z.min count (RINGBUFFER_DATACOUNT rb - offset)) in *.
  destruct (read_passes_ok rb Hwf buffer
              (u64 (buffer + cmin n (u64 (size rb - u64 (read rb + o) mod size rb))))
              m buffer (u64 (read rb + o) mod size rb) n) as (m' & -> & Hh & Hf);
    try (done || lia).
  { apply Z.mod_pos_bound. lia. }
  exists m'. split; [done|]. split; [|done].
  destruct (advance_read rb o Hwf ltac:(lia)) as [_ C].
  unfold slice. rewrite <- C, contents_ring_bytes, ring_bytes_take; simpl.
  - by rewrite ring_bytes_mod in Hh by lia.
  - destruct (advance_read rb o Hwf ltac:(lia)) as [_ C2].
    apply (f_equal (fun l => Z.of_nat (length l))) in C2.
    rewrite length_contents, length_drop in C2. rewrite C2.
    pose proof (length_contents rb). lia.
Qed.

(** A peek at an offset no larger than the free space. *)
Lemma peek_ok (m : mem) (rb : ringbuffer_t) (buffer offset count : Z) :
  let len := Z.of_nat (length (contents rb)) in
  let n := Z.max 0 (Z.min count (len - offset)) in
  rb_wf rb -> 0 <= buffer -> 0 <= count < 2 ^ 63 -> buffer + count < 2 ^ 64 ->
  0 <= offset <= RINGBUFFER_FREESPACE rb ->
  mapped m buffer (Z.to_nat n) ->
  exists m', ringbuffer_peek m rb buffer offset count = Some (m', n) /\
    holds m' buffer (slice (contents rb) (Z.to_nat offset) (Z.to_nat n)) /\
    (forall x, ~ (buffer <= x < buffer + n) -> m' !! x = m !! x).
Proof.
  intros len n Hwf Hb Hc Hb' Hoff Hm.
  pose proof (peek_at m rb buffer offset count) as P. rewrite (Z.min_l offset) in P by lia. apply P; try done.
  rewrite freespace_eq in Hoff by done. pose proof (datacount_nonneg rb). destruct Hwf. lia.
Qed.

(** Both ways of dropping bytes. *)
Lemma trim_ok (rb : ringbuffer_t) (count : Z) :
  let len := Z.of_nat (length (contents rb)) in
  let n := Z.min count len in
  rb_wf rb -> 0 <= count < 2 ^ 63 ->
  (let '(rb', r) := ringbuffer_truncate rb count in
   rb_wf rb' /\ r = n /\ contents rb' = drop (Z.to_nat n) (contents rb)) /\
  (let '(rb', r) := ringbuffer_remove rb count in
   rb_wf rb' /\ r = n /\ contents rb' = take (Z.to_nat (len - n)) (contents rb)).
Proof.
  intros len n Hwf Hc. subst n len. rewrite length_contents.
  unfold ringbuffer_truncate, ringbuffer_remove.
  destruct (read_count rb count Hwf Hc) as [_ ->]. pose proof (datacount_nonneg rb).
  set (n := Z.min count (RINGBUFFER_DATACOUNT rb)).
  destruct (advance_read rb n Hwf ltac:(lia)). destruct (retreat_write rb n Hwf ltac:(lia)).
  done.
Qed.

(** [ringbuffer_read] never reports a fault in its destination: the macro
    it copies with tests the address of the ring, a kernel address, so a
    destination that is not accessible stops the kernel instead of returning
    [RINGBUFFER_USER_COPY_FAILED]. *)
Theorem ringbuffer_read_fault_panics (m : mem) (rb : ringbuffer_t) (buffer count : Z) :
  let n := Z.min count (Z.of_nat (length (contents rb))) in
  rb_wf rb -> 0 <= buffer -> 0 <= count < 2 ^ 63 -> buffer + count < 2 ^ 64 ->
  ~ mapped m buffer (Z.to_nat n) ->
  ringbuffer_read m rb buffer count = None.
Proof.
  intros n Hwf Hb Hc Hb' Hm. subst n. rewrite length_contents in *.
  pose proof (wf_sizes rb Hwf) as Hs. pose proof (datacount_nonneg rb) as Hdn.
  unfold ringbuffer_read. destruct (read_count rb count Hwf Hc) as [-> _].
  set (n := Z.min count (RINGBUFFER_DATACOUNT rb)) in *.
  pose proof (Z.mod_pos_bound (read rb) (size rb) ltac:(lia)) as Ho.
  destruct (ring_address_kernel rb (read rb mod size rb) Hwf Ho) as [K1 K2].
  destruct (read_passes_fault rb Hwf (u64 (base rb + read rb mod size rb)) (base rb) m buffer
              (read rb mod size rb) n) as (m' & ->); try (done || lia || congruence).
  { destruct Hwf. lia. }
  by rewrite K1.
Qed.

(** ** Concrete rings *)

(** An 8 byte ring at a kernel address holding [10 .. 15], its read counter
    about to wrap. *)
Definition sample_ring : ringbuffer_t :=
  mk_ringbuffer 8 4 (2 ^ 64 - 2) 0xffff900000000000 [12; 13; 14; 15; 0; 0; 10; 11].

Definition sample_mem : mem := list_to_map (zip (seqZ 0x1000 8) [1; 2; 3; 4; 5; 6; 7; 8]).

Lemma sample_ring_wf : rb_wf sample_ring.
Proof.
  split; unfold is_u64, USERSPACE_END; cbn [size write read base data sample_ring]; try lia.
  - vm_compute. discriminate.
  - left. exists (2 ^ 61). vm_compute. done.
  - vm_compute. discriminate.
Qed.

Lemma sample_contents : contents sample_ring = [10; 11; 12; 13; 14; 15].
Proof. vm_compute. done. Qed.

(** Peeking past the free space reads the wrong slots: with two bytes free
    a peek at offset 4 returns the bytes at offset 2. *)
Theorem ringbuffer_peek_clamps_offset :
  contents sample_ring = [10; 11; 12; 13; 14; 15] /\
  exists m', ringbuffer_peek sample_mem sample_ring 0x1000 4 2 = Some (m', 2) /\
    holds m' 0x1000 [12; 13].
Proof.
  split; [vm_compute; done|]. eexists. split; [vm_compute; reflexivity|].
  apply holds_cons. split; [vm_compute; done|]. apply holds_cons. split; [vm_compute; done|].
  intros i b Hi. by rewrite lookup_nil in Hi.
Qed.

(** ** Witnesses *)

Lemma sample_size_divides : (size sample_ring | 2 ^ 64).
Proof. exists (2 ^ 61). vm_compute. done. Qed.

Lemma ringbuffer_write_fifo_witness :
  exists rb', ringbuffer_write sample_mem sample_ring 0x1000 8 = Some (rb', 2) /\
    rb_wf rb' /\ contents rb' = [10; 11; 12; 13; 14; 15; 1; 2].
Proof.
  exact (ringbuffer_write_fifo sample_mem sample_ring 0x1000 [1; 2; 3; 4; 5; 6; 7; 8]
    sample_ring_wf ltac:(lia) ltac:(simpl; lia) ltac:(simpl; lia)
    ltac:(apply holdsb_holds; vm_compute; reflexivity) (or_introl sample_size_divides)).
Defined.

Lemma ringbuffer_write_efault_witness :
  exists rb', ringbuffer_write sample_mem sample_ring 0x2000 8 =
      Some (rb', RINGBUFFER_USER_COPY_FAILED) /\
    rb_wf rb' /\ contents rb' = contents sample_ring.
Proof.
  exact (ringbuffer_write_efault sample_mem sample_ring 0x2000 8
    sample_ring_wf ltac:(lia) ltac:(lia) ltac:(unfold USERSPACE_END; lia)
    ltac:(apply not_mappedb; vm_compute; reflexivity)).
Defined.

Lemma ringbuffer_read_fifo_witness :
  exists m' rb', ringbuffer_read sample_mem sample_ring 0x1000 4 = Some (m', rb', 4) /\
    rb_wf rb' /\ contents rb' = [14; 15] /\ holds m' 0x1000 [10; 11; 12; 13] /\
    (forall x, ~ (0x1000 <= x < 0x1004) -> m' !! x = sample_mem !! x).
Proof.
  exact (ringbuffer_read_fifo sample_mem sample_ring 0x1000 4
    sample_ring_wf ltac:(lia) ltac:(lia) ltac:(lia)
    ltac:(apply mappedb_mapped; vm_compute; reflexivity)).
Defined.

Lemma ringbuffer_read_fault_panics_witness :
  ringbuffer_read sample_mem sample_ring 0x2000 4 = None.
Proof.
  exact (ringbuffer_read_fault_panics sample_mem sample_ring 0x2000 4
    sample_ring_wf ltac:(lia) ltac:(lia) ltac:(lia)
    ltac:(apply not_mappedb; vm_compute; reflexivity)).
Defined.
