(* ===== verification/Auth.v ===== *)
(** * Authorization ([sys/auth.c], [sys/defaultauth.c], [sys/cred.c])

    [auth_check] asks every listener registered for a scope and combines their
    decisions; [defaultauth.c] holds the listeners the kernel registers; the
    credential setters of [cred.c] are guarded by it.  The theorems relate the
    file access check to the POSIX permission rule, show how decisions combine,
    and bound what an unprivileged process can do to its own credentials. *)

From S2P Require Import Prelude Errno Vnode.


(** ** Credentials ([include/kernel/cred.h]) *)

Record cred_t := mk_cred { uid : Z; euid : Z; suid : Z; gid : Z; egid : Z; sgid : Z }.

Definition CRED_SUPERUSER : Z := 0.
Definition CRED_IS_ESU (c : cred_t) : bool := euid c =? CRED_SUPERUSER.

(** ** The authorization core ([include/kernel/auth.h], [sys/auth.c]) *)

Definition AUTH_LISTENER_LIMIT : nat := 8.
Definition AUTH_DECISION_ALLOW : Z := 1.
Definition AUTH_DECISION_DEFER : Z := 0.
Definition AUTH_DECISION_DENY : Z := -1000.

Definition AUTH_ACTIONS_SYSTEM_CHROOT : Z := 1.
Definition AUTH_ACTIONS_SYSTEM_SETHOSTNAME : Z := 2.
Definition AUTH_ACTIONS_FILESYSTEM_EXECUTE : Z := 1.
Definition AUTH_ACTIONS_FILESYSTEM_WRITE : Z := 2.
Definition AUTH_ACTIONS_FILESYSTEM_READ : Z := 4.
Definition AUTH_ACTIONS_FILESYSTEM_SETATTR : Z := 8.
Definition AUTH_ACTIONS_FILESYSTEM_MOUNT : Z := 16.
Definition AUTH_ACTIONS_FILESYSTEM_UNLINK : Z := 32.
Definition AUTH_ACTIONS_FILESYSTEM_RENAME : Z := 64.
Definition AUTH_ACTIONS_CRED_SETRESUID : Z := 1.
Definition AUTH_ACTIONS_CRED_SETRESGID : Z := 2.
Definition AUTH_ACTIONS_CRED_SETUID : Z := 4.
Definition AUTH_ACTIONS_CRED_SETGID : Z := 8.
Definition AUTH_ACTIONS_CRED_SETEUID : Z := 16.
Definition AUTH_ACTIONS_CRED_SETEGID : Z := 32.
Definition AUTH_ACTIONS_PROCESS_SIGNAL : Z := 1.

Section auth.
(** What a scope passes in [arg0], [arg1] and [arg2]. *)
Context {Arg : Type}.

(** A listener; [None] is a failed assertion inside it. *)
Definition authlistener_t : Type := cred_t -> Z -> Arg -> option Z.

(** [authscope_t]: the [AUTH_LISTENER_LIMIT] slots, [None] for [NULL]. *)
Definition authscope_t : Type := list (option authlistener_t).

Definition empty_scope : authscope_t := replicate AUTH_LISTENER_LIMIT None.

Fixpoint auth_registerlistener (scope : authscope_t) (listener : authlistener_t)
    : authscope_t :=
  match scope with
  | [] => []
  | Some l :: rest => Some l :: auth_registerlistener rest listener
  | None :: rest => Some listener :: rest
  end.

(** The loop of [auth_check]: [inl] is the early [return EPERM], [inr] the
    accumulated decision. *)
Fixpoint auth_loop (scope : authscope_t) (c : cred_t) (actions : Z) (arg : Arg) (allow : Z)
    : option (unit + Z) :=
  match scope with
  | [] => Some (inr allow)
  | None :: rest => auth_loop rest c actions arg allow
  | Some listener :: rest =>
      decision ← listener c actions arg;
      if decision =? AUTH_DECISION_DENY then Some (inl tt)
      else auth_loop rest c actions arg (s32 (allow + decision))
  end.

Definition auth_check (scope : authscope_t) (cred : option cred_t) (actions : Z) (arg : Arg)
    : option Z :=
  match cred with
  | None => Some 0
  | Some c =>
      if actions =? 0 then Some 0
      else
        r ← auth_loop scope c actions arg 0;
        match r with
        | inl _ => Some EPERM
        | inr allow => Some (if negb (allow =? 0) then 0 else EPERM)
        end
  end.
End auth.
Arguments authlistener_t : clear implicits.
Arguments authscope_t : clear implicits.

(** ** The default listeners ([sys/defaultauth.c]) *)

(** [done: return weight ? AUTH_DECISION_ALLOW : AUTH_DECISION_DEFER;] *)
Definition done_weight (weight : Z) : option Z :=
  Some (if negb (weight =? 0) then AUTH_DECISION_ALLOW else AUTH_DECISION_DEFER).

(** One block of a listener: [if (actions & mask) { if (ok) weight += 1; else
    return AUTH_DECISION_DENY; DONE_CHECK(actions); }], then the rest [k]. *)
Definition action_block (actions mask : Z) (ok : bool) (weight : Z) (k : Z -> option Z)
    : option Z :=
  if has actions mask then
    if ok then (if actions =? 0 then done_weight (weight + 1) else k (weight + 1))
    else Some AUTH_DECISION_DENY
  else k weight.

Lemma action_block_off actions mask ok weight k :
  has actions mask = false -> action_block actions mask ok weight k = k weight.
Proof. intros H. unfold action_block. by rewrite H. Qed.

Lemma has_nonzero actions mask : has actions mask = true -> (actions =? 0) = false.
Proof. unfold has. intros H. destruct (Z.eqb_spec actions 0) as [-> |]; done. Qed.

Lemma action_block_on actions mask ok weight k :
  has actions mask = true ->
  action_block actions mask ok weight k =
    if ok then k (weight + 1) else Some AUTH_DECISION_DENY.
Proof. intros H. unfold action_block. by rewrite H, (has_nonzero _ _ H). Qed.

(** The owner / group / others cascade of the read, write and execute checks. *)
Definition class_check (c : cred_t) (attr : vattr_t) (user group others : Z) : bool :=
  if (a_uid attr =? euid c) && has (a_mode attr) user then true
  else if negb (a_uid attr =? euid c) && (a_gid attr =? egid c) && has (a_mode attr) group
  then true
  else if negb (a_uid attr =? euid c) && negb (a_gid attr =? egid c) && has (a_mode attr) others
  then true
  else false.

Definition writecheck (c : cred_t) (attr : vattr_t) : bool :=
  if CRED_IS_ESU c then true
  else class_check c attr V_ATTR_MODE_USER_WRITE V_ATTR_MODE_GROUP_WRITE
         V_ATTR_MODE_OTHERS_WRITE.

Definition readcheck (c : cred_t) (attr : vattr_t) : bool :=
  if CRED_IS_ESU c then true
  else class_check c attr V_ATTR_MODE_USER_READ V_ATTR_MODE_GROUP_READ
         V_ATTR_MODE_OTHERS_READ.

Definition execcheck (c : cred_t) (vtype : Z) (attr : vattr_t) : bool :=
  if (vtype =? V_TYPE_DIR) && CRED_IS_ESU c then true
  else if has (a_mode attr) (Z.lor (Z.lor V_ATTR_MODE_USER_EXECUTE V_ATTR_MODE_GROUP_EXECUTE)
                               V_ATTR_MODE_OTHERS_EXECUTE) && CRED_IS_ESU c then true
  else class_check c attr V_ATTR_MODE_USER_EXECUTE V_ATTR_MODE_GROUP_EXECUTE
         V_ATTR_MODE_OTHERS_EXECUTE.

(** What the filesystem scope is asked about: the type and attributes of
    [vnode] and the attributes of [dirvnode] when one is given. *)
Record fs_arg := mk_fs_arg { fa_type : Z; fa_attr : vattr_t; fa_dir : option vattr_t }.

(** The unlink / rename block, up to its [DONE_CHECK]. *)
Definition unlink_allowed (c : cred_t) (actions : Z) (arg : fs_arg) (dirattr : vattr_t) : bool :=
  let dosticky := negb (CRED_IS_ESU c) in
  if negb (CRED_IS_ESU c) && negb (writecheck c dirattr) then false
  else if has actions AUTH_ACTIONS_FILESYSTEM_RENAME && (fa_type arg =? V_TYPE_DIR) &&
          negb (writecheck c (fa_attr arg)) then false
  else if dosticky && has (a_mode dirattr) V_ATTR_MODE_STICKY then
    (a_uid dirattr =? euid c) || (a_uid (fa_attr arg) =? euid c)
  else true.

Definition filesystem : authlistener_t fs_arg := fun c actions arg =>
  let attr := fa_attr arg in
  action_block actions AUTH_ACTIONS_FILESYSTEM_WRITE (writecheck c attr) 0 (fun w =>
  action_block actions AUTH_ACTIONS_FILESYSTEM_READ (readcheck c attr) w (fun w =>
  action_block actions AUTH_ACTIONS_FILESYSTEM_EXECUTE (execcheck c (fa_type arg) attr) w (fun w =>
  action_block actions AUTH_ACTIONS_FILESYSTEM_SETATTR
    (CRED_IS_ESU c || (euid c =? a_uid attr)) w (fun w =>
  action_block actions AUTH_ACTIONS_FILESYSTEM_MOUNT (CRED_IS_ESU c) w (fun w =>
  if has actions (Z.lor AUTH_ACTIONS_FILESYSTEM_UNLINK AUTH_ACTIONS_FILESYSTEM_RENAME) then
    match fa_dir arg with
    | None => None (* __assert(dirvnode) *)
    | Some dirattr =>
        action_block actions
          (Z.lor AUTH_ACTIONS_FILESYSTEM_UNLINK AUTH_ACTIONS_FILESYSTEM_RENAME)
          (unlink_allowed c actions arg dirattr) w done_weight
    end
  else done_weight w))))).

Definition system : authlistener_t unit := fun c actions _ =>
  action_block actions AUTH_ACTIONS_SYSTEM_CHROOT (CRED_IS_ESU c) 0 (fun w =>
  action_block actions AUTH_ACTIONS_SYSTEM_SETHOSTNAME (CRED_IS_ESU c) w done_weight).

(** [arg0], [arg1], [arg2] of the credential scope. *)
Record id_arg := mk_id_arg { i_id : Z; i_eid : Z; i_sid : Z }.

Definition one_of3 (x a b d : Z) : bool :=
  negb (negb (x =? -1) && negb (x =? a) && negb (x =? b) && negb (x =? d)).

(** The blocks of [credlistener] that only change one identity. *)
Definition single_block (c : cred_t) (actions mask x a b weight : Z) (k : Z -> option Z)
    : option Z :=
  if has actions mask then
    if negb (CRED_IS_ESU c) && negb (x =? a) && negb (x =? b) then Some AUTH_DECISION_DENY
    else
      let w := if CRED_IS_ESU c then weight + 1 else weight in
      if actions =? 0 then done_weight (w + 1) else k (w + 1)
  else k weight.

Lemma single_block_off c actions mask x a b weight k :
  has actions mask = false -> single_block c actions mask x a b weight k = k weight.
Proof. intros H. unfold single_block. by rewrite H. Qed.

Lemma single_block_on c actions mask x a b weight k :
  has actions mask = true -> CRED_IS_ESU c = false ->
  single_block c actions mask x a b weight k =
    if (x =? a) || (x =? b) then k (weight + 1) else Some AUTH_DECISION_DENY.
Proof.
  intros H Hc. unfold single_block. rewrite H, (has_nonzero _ _ H), Hc.
  by destruct (x =? a), (x =? b).
Qed.

Definition credlistener : authlistener_t id_arg := fun c actions arg =>
  let res a b d := CRED_IS_ESU c ||
    (one_of3 (i_id arg) a b d && one_of3 (i_eid arg) a b d && one_of3 (i_sid arg) a b d) in
  action_block actions AUTH_ACTIONS_CRED_SETRESUID (res (uid c) (euid c) (suid c)) 0 (fun w =>
  action_block actions AUTH_ACTIONS_CRED_SETRESGID (res (gid c) (egid c) (sgid c)) w (fun w =>
  single_block c actions AUTH_ACTIONS_CRED_SETUID (i_id arg) (uid c) (suid c) w (fun w =>
  single_block c actions AUTH_ACTIONS_CRED_SETGID (i_id arg) (gid c) (sgid c) w (fun w =>
  single_block c actions AUTH_ACTIONS_CRED_SETEUID (i_eid arg) (uid c) (suid c) w (fun w =>
  single_block c actions AUTH_ACTIONS_CRED_SETEGID (i_eid arg) (gid c) (sgid c) w
    done_weight))))).

(** [arg0] is the target process; only its credentials are read. *)
Definition process : authlistener_t cred_t := fun c actions target =>
  if has actions AUTH_ACTIONS_PROCESS_SIGNAL then
    let weight :=
      if CRED_IS_ESU c then 1
      else if (uid c =? uid target) || (uid c =? suid target) ||
              (euid c =? uid target) || (euid c =? suid target) then 1
      else 0 in
    done_weight weight
  else done_weight 0.

Definition network : authlistener_t unit := fun c _ _ =>
  Some (if CRED_IS_ESU c then AUTH_DECISION_ALLOW else AUTH_DECISION_DENY).

(** [defaultauth_init]: the scopes after boot. *)
Record scopes_t := mk_scopes {
  scope_filesystem : authscope_t fs_arg;
  scope_system : authscope_t unit;
  scope_cred : authscope_t id_arg;
  scope_process : authscope_t cred_t;
  scope_network : authscope_t unit
}.

Definition defaultauth_init : scopes_t :=
  mk_scopes (auth_registerlistener empty_scope filesystem)
            (auth_registerlistener empty_scope system)
            (auth_registerlistener empty_scope credlistener)
            (auth_registerlistener empty_scope process)
            (auth_registerlistener empty_scope network).

Definition auth_filesystem_check (s : scopes_t) (cred : option cred_t) (actions : Z)
    (vtype : Z) (attr : vattr_t) (dir : option vattr_t) : option Z :=
  auth_check (scope_filesystem s) cred actions (mk_fs_arg vtype attr dir).

Definition auth_cred_check (s : scopes_t) (c : cred_t) (actions id eid sid : Z) : option Z :=
  auth_check (scope_cred s) (Some c) actions (mk_id_arg id eid sid).

Definition auth_process_check (s : scopes_t) (c : cred_t) (actions : Z) (target : cred_t)
    : option Z :=
  auth_check (scope_process s) (Some c) actions target.

Definition auth_system_check (s : scopes_t) (c : cred_t) (actions : Z) : option Z :=
  auth_check (scope_system s) (Some c) actions tt.

Definition auth_network_check (s : scopes_t) (cred : option cred_t) (actions : Z) : option Z :=
  auth_check (scope_network s) cred actions tt.

Definition V_ACCESS_EXECUTE : Z := 1.
Definition V_ACCESS_WRITE : Z := 2.
Definition V_ACCESS_READ : Z := 4.

Definition auth_filesystem_convertaccess (access : Z) : Z :=
  let r := 0 in
  let r := if has access V_ACCESS_EXECUTE then Z.lor r AUTH_ACTIONS_FILESYSTEM_EXECUTE else r in
  let r := if has access V_ACCESS_WRITE then Z.lor r AUTH_ACTIONS_FILESYSTEM_WRITE else r in
  let r := if has access V_ACCESS_READ then Z.lor r AUTH_ACTIONS_FILESYSTEM_READ else r in
  r.

(** ** Changing credentials ([sys/cred.c]) *)

Section cred_ops.
Context (scopes : scopes_t).

(** Each setter returns the error number and the credentials after it. *)
Definition cred_setuids (c : cred_t) (u e s : Z) : option (Z * cred_t) :=
  error ← auth_cred_check scopes c AUTH_ACTIONS_CRED_SETRESUID u e s;
  if negb (error =? 0) then Some (error, c)
  else Some (0, mk_cred (if u =? -1 then uid c else u) (if e =? -1 then euid c else e)
                  (if s =? -1 then suid c else s) (gid c) (egid c) (sgid c)).

Definition cred_setgids (c : cred_t) (g e s : Z) : option (Z * cred_t) :=
  error ← auth_cred_check scopes c AUTH_ACTIONS_CRED_SETRESGID g e s;
  if negb (error =? 0) then Some (error, c)
  else Some (0, mk_cred (uid c) (euid c) (suid c) (if g =? -1 then gid c else g)
                  (if e =? -1 then egid c else e) (if s =? -1 then sgid c else s)).

Definition cred_setuid (c : cred_t) (u : Z) : option (Z * cred_t) :=
  if u <? 0 then Some (EINVAL, c)
  else
    error ← auth_cred_check scopes c AUTH_ACTIONS_CRED_SETUID u (-1) (-1);
    if negb (error =? 0) then Some (error, c)
    else Some (0, if CRED_IS_ESU c then mk_cred u u u (gid c) (egid c) (sgid c)
                  else mk_cred (uid c) u (suid c) (gid c) (egid c) (sgid c)).

Definition cred_seteuid (c : cred_t) (e : Z) : option (Z * cred_t) :=
  if e <? 0 then Some (EINVAL, c)
  else
    error ← auth_cred_check scopes c AUTH_ACTIONS_CRED_SETEUID (-1) e (-1);
    if negb (error =? 0) then Some (error, c)
    else Some (0, mk_cred (uid c) e (suid c) (gid c) (egid c) (sgid c)).

Definition cred_setgid (c : cred_t) (g : Z) : option (Z * cred_t) :=
  if g <? 0 then Some (EINVAL, c)
  else
    error ← auth_cred_check scopes c AUTH_ACTIONS_CRED_SETGID g (-1) (-1);
    if negb (error =? 0) then Some (error, c)
    else Some (0, if CRED_IS_ESU c then mk_cred (uid c) (euid c) (suid c) g g g
                  else mk_cred (uid c) (euid c) (suid c) (gid c) g (sgid c)).

Definition cred_setegid (c : cred_t) (e : Z) : option (Z * cred_t) :=
  if e <? 0 then Some (EINVAL, c)
  else
    error ← auth_cred_check scopes c AUTH_ACTIONS_CRED_SETEGID (-1) e (-1);
    if negb (error =? 0) then Some (error, c)
    else Some (0, mk_cred (uid c) (euid c) (suid c) (gid c) e (sgid c)).

Definition cred_doexec (c : cred_t) (s g : Z) : cred_t :=
  let e := if s >? -1 then s else euid c in
  let eg := if g >? -1 then g else egid c in
  mk_cred (uid c) e e (gid c) eg eg.

Definition cred_getuids (c : cred_t) : Z * Z * Z := (uid c, euid c, suid c).
Definition cred_getgids (c : cred_t) : Z * Z * Z := (gid c, egid c, sgid c).

(** The system calls a process can change its credentials with. *)
Inductive cred_call :=
| SetResUid (u e s : Z) | SetResGid (g e s : Z)
| SetUid (u : Z) | SetEUid (e : Z) | SetGid (g : Z) | SetEGid (e : Z).

Definition do_call (c : cred_t) (k : cred_call) : option (Z * cred_t) :=
  match k with
  | SetResUid u e s => cred_setuids c u e s
  | SetResGid g e s => cred_setgids c g e s
  | SetUid u => cred_setuid c u
  | SetEUid e => cred_seteuid c e
  | SetGid g => cred_setgid c g
  | SetEGid e => cred_setegid c e
  end.

(** A sequence of calls, whatever they return. *)
Fixpoint do_calls (c : cred_t) (ks : list cred_call) : option cred_t :=
  match ks with
  | [] => Some c
  | k :: ks' => '(_, c') ← do_call c k; do_calls c' ks'
  end.
End cred_ops.

(** ** How decisions combine *)

(** The decisions of the registered listeners, in slot order. *)
Fixpoint decisions {Arg} (scope : authscope_t Arg) (c : cred_t) (actions : Z) (arg : Arg)
    : list (option Z) :=
  match scope with
  | [] => []
  | Some listener :: rest => listener c actions arg :: decisions rest c actions arg
  | None :: rest => decisions rest c actions arg
  end.

Lemma length_decisions {Arg} (scope : authscope_t Arg) c actions arg :
  (length (decisions scope c actions arg) <= length scope)%nat.
Proof. induction scope as [|[l|] scope IH]; simpl in *; [done|lia|lia]. Qed.

Definition is_decision (d : Z) : Prop :=
  d = AUTH_DECISION_ALLOW \/ d = AUTH_DECISION_DEFER \/ d = AUTH_DECISION_DENY.

Definition allows (ds : list Z) : Z :=
  Z.of_nat (length (filter (fun d => d = AUTH_DECISION_ALLOW) ds)).

Lemma auth_loop_spec {Arg} (scope : authscope_t Arg) c actions arg ds allow :
  decisions scope c actions arg = map Some ds -> Forall is_decision ds ->
  0 <= allow -> allow + Z.of_nat (length ds) < 2 ^ 31 ->
  auth_loop scope c actions arg allow =
    Some (if decide (AUTH_DECISION_DENY ∈ ds) then inl tt else inr (allow + allows ds)).
Proof.
  revert ds allow.
  induction scope as [|[l|] scope IH]; intros ds allow Hds Hd Ha Hb; simpl in *.
  - destruct ds; [|done]. simpl. by rewrite Z.add_0_r.
  - destruct ds as [|d ds]; [done|]. simpl in *. injection Hds as Hl Hds. rewrite Hl.
    apply Forall_cons in Hd as [Hd0 Hd]. cbn [mbind option_bind].
    destruct (Z.eqb_spec d AUTH_DECISION_DENY) as [->|Hne].
    { by rewrite decide_True by left. }
    assert (Hs : s32 (allow + d) = allow + d /\ (d = 1 \/ d = 0)).
    { destruct Hd0 as [-> |[-> |]]; [| |done];
        unfold s32, u32, AUTH_DECISION_ALLOW, AUTH_DECISION_DEFER in *;
        rewrite Z.mod_small by lia; cases_bool; lia. }
    destruct Hs as [-> Hd01]. rewrite (IH ds) by (done || lia).
    destruct (decide (AUTH_DECISION_DENY ∈ ds)) as [Hin|Hin].
    + by rewrite decide_True by (by right).
    + rewrite decide_False by (intros [E|E]%elem_of_cons; [congruence|done]).
      unfold allows. rewrite filter_cons. do 2 f_equal.
      destruct Hd01 as [-> | ->].
      * rewrite decide_True by done. rewrite length_cons. lia.
      * rewrite decide_False by done. lia.
  - by apply IH.
Qed.

(** A check succeeds exactly when no registered listener denies and at
    least one allows: a denial cannot be outvoted, and silence is a refusal. *)
Theorem auth_check_deny_overrides {Arg} (scope : authscope_t Arg) (c : cred_t)
    (actions : Z) (arg : Arg) (ds : list Z) :
  length scope = AUTH_LISTENER_LIMIT -> actions <> 0 ->
  decisions scope c actions arg = map Some ds -> Forall is_decision ds ->
  auth_check scope (Some c) actions arg =
    Some (if decide ((AUTH_DECISION_DENY ∉ ds) /\ (AUTH_DECISION_ALLOW ∈ ds)) then 0 else EPERM).
Proof.
  intros Hlen Hact Hds Hd. simpl. destruct (Z.eqb_spec actions 0); [done|].
  assert (Hl : (length ds <= 8)%nat).
  { change 8%nat with AUTH_LISTENER_LIMIT. rewrite <- (length_map Some ds), <- Hds, <- Hlen.
    apply length_decisions. }
  rewrite (auth_loop_spec _ _ _ _ ds) by (done || lia). cbn [mbind option_bind].
  destruct (decide (AUTH_DECISION_DENY ∈ ds)) as [Hin|Hin].
  { by rewrite decide_False by tauto. }
  do 2 f_equal. unfold allows.
  destruct (filter (fun d => d = AUTH_DECISION_ALLOW) ds) as [|x xs] eqn:E.
  - simpl. rewrite decide_False; [done|]. intros [_ Hal].
    assert (AUTH_DECISION_ALLOW ∈ filter (fun d => d = AUTH_DECISION_ALLOW) ds) as Hf
      by (by apply list_elem_of_filter). rewrite E in Hf. by apply elem_of_nil in Hf.
  - assert (x ∈ filter (fun d => d = AUTH_DECISION_ALLOW) ds) as Hf by (rewrite E; left).
    apply list_elem_of_filter in Hf as [-> Hf]. rewrite decide_True by done.
    simpl. by destruct (Z.eqb_spec (Z.of_nat (S (length xs))) 0); try lia.
Qed.

(** A scope with one listener. *)
Lemma auth_check_single {Arg} (l : authlistener_t Arg) c actions arg d :
  actions <> 0 -> l c actions arg = Some d -> is_decision d ->
  auth_check (auth_registerlistener empty_scope l) (Some c) actions arg =
    Some (if d =? AUTH_DECISION_ALLOW then 0 else EPERM).
Proof.
  intros Ha Hl Hd. simpl. destruct (Z.eqb_spec actions 0); [done|]. rewrite Hl. simpl.
  destruct Hd as [-> |[-> | ->]]; done.
Qed.

(** ** File access *)

#[local] Arguments Z.testbit : simpl never.

(** The permission bits of the class the process falls in. *)
Definition class_bits (c : cred_t) (attr : vattr_t) : Z :=
  if a_uid attr =? euid c then Z.shiftr (a_mode attr) 6
  else if a_gid attr =? egid c then Z.shiftr (a_mode attr) 3
  else a_mode attr.

(** The POSIX file access rule; [access] has bits 4, 2, 1 for read, write,
    execute as [V_ACCESS_*] and a permission class do. *)
Definition posix_allows (c : cred_t) (vtype : Z) (attr : vattr_t) (access : Z) : bool :=
  if CRED_IS_ESU c then
    implb (Z.testbit access 0)
      ((vtype =? V_TYPE_DIR) || Z.testbit (a_mode attr) 0 || Z.testbit (a_mode attr) 3
       || Z.testbit (a_mode attr) 6)
  else
    forallb (fun k => implb (Z.testbit access k) (Z.testbit (class_bits c attr) k)) [0; 1; 2].

Lemma class_check_bits c attr k :
  0 <= k ->
  class_check c attr (2 ^ (k + 6)) (2 ^ (k + 3)) (2 ^ k) = Z.testbit (class_bits c attr) k.
Proof.
  intros Hk. unfold class_check, class_bits. rewrite !has_pow2 by lia.
  destruct (a_uid attr =? euid c), (a_gid attr =? egid c); simpl;
    rewrite ?Z.shiftr_spec by lia; by destruct (Z.testbit _ _).
Qed.

Lemma writecheck_bits c attr :
  writecheck c attr = CRED_IS_ESU c || Z.testbit (class_bits c attr) 1.
Proof.
  unfold writecheck. rewrite <- class_check_bits by lia. by destruct (CRED_IS_ESU c).
Qed.

Lemma readcheck_bits c attr :
  readcheck c attr = CRED_IS_ESU c || Z.testbit (class_bits c attr) 2.
Proof.
  unfold readcheck. rewrite <- class_check_bits by lia. by destruct (CRED_IS_ESU c).
Qed.

Lemma class_bits_any c attr :
  Z.testbit (class_bits c attr) 0 = true ->
  Z.testbit (a_mode attr) 0 || Z.testbit (a_mode attr) 3 || Z.testbit (a_mode attr) 6 = true.
Proof.
  unfold class_bits. repeat case_match; rewrite ?Z.shiftr_spec by lia;
    rewrite ?Z.add_0_l; intros ->; by rewrite ?orb_true_r.
Qed.

Lemma execcheck_bits c vtype attr :
  execcheck c vtype attr =
    if CRED_IS_ESU c then
      (vtype =? V_TYPE_DIR) || Z.testbit (a_mode attr) 0 || Z.testbit (a_mode attr) 3
      || Z.testbit (a_mode attr) 6
    else Z.testbit (class_bits c attr) 0.
Proof.
  unfold execcheck. rewrite !has_lor.
  change (class_check c attr _ _ _) with (class_check c attr (2 ^ (0 + 6)) (2 ^ (0 + 3)) (2 ^ 0)).
  rewrite class_check_bits by lia.
  change V_ATTR_MODE_USER_EXECUTE with (2 ^ 6). change V_ATTR_MODE_GROUP_EXECUTE with (2 ^ 3).
  change V_ATTR_MODE_OTHERS_EXECUTE with (2 ^ 0). rewrite !has_pow2 by lia.
  pose proof (class_bits_any c attr) as Hany.
  destruct (CRED_IS_ESU c); rewrite ?andb_true_r, ?andb_false_r; [|done].
  destruct (vtype =? V_TYPE_DIR); [done|]. simpl.
  destruct (Z.testbit (a_mode attr) 6), (Z.testbit (a_mode attr) 3), (Z.testbit (a_mode attr) 0);
    simpl in *; try done.
  destruct (Z.testbit (class_bits c attr) 0); [by discriminate Hany|done].
Qed.

(** C8. The access check of the filesystems ([VOP_ACCESS] with the default
    listeners) is the POSIX rule: the owner, group or others bits of the mode
    decide, by the first class that matches, and the superuser may do
    everything except execute a file nobody can execute. *)
Theorem access_is_posix (c : cred_t) (vtype : Z) (attr : vattr_t) (access : Z) :
  0 < access < 8 ->
  auth_filesystem_check defaultauth_init (Some c) (auth_filesystem_convertaccess access)
    vtype attr None =
  Some (if posix_allows c vtype attr access then 0 else EPERM).
Proof.
  intros Ha.
  assert (Hcases : access = 1 \/ access = 2 \/ access = 3 \/ access = 4 \/ access = 5 \/
                   access = 6 \/ access = 7) by lia.
  unfold auth_filesystem_check, posix_allows, filesystem.
  pose proof (execcheck_bits c vtype attr) as He.
  set (X := (vtype =? V_TYPE_DIR) || _ || _ || _) in *. clearbody X.
  destruct Hcases as [-> |[-> |[-> |[-> |[-> |[-> | ->]]]]]];
    cbn -[execcheck readcheck writecheck filesystem]; unfold filesystem, action_block;
    cbn -[execcheck readcheck writecheck]; rewrite ?He, ?writecheck_bits, ?readcheck_bits;
    destruct (CRED_IS_ESU c), (Z.testbit (class_bits c attr) 0),
      (Z.testbit (class_bits c attr) 1), (Z.testbit (class_bits c attr) 2); simpl; try done;
    by destruct X.
Qed.

(** Removing a directory entry: the superuser may, another process needs
    write access to the directory and, when the directory is sticky, must own
    the directory or the file. *)
Theorem unlink_sticky_rule (c : cred_t) (vtype : Z) (attr dirattr : vattr_t) :
  auth_filesystem_check defaultauth_init (Some c) AUTH_ACTIONS_FILESYSTEM_UNLINK
    vtype attr (Some dirattr) =
  Some (if CRED_IS_ESU c ||
           (Z.testbit (class_bits c dirattr) 1 &&
            (negb (Z.testbit (a_mode dirattr) 9) || (a_uid dirattr =? euid c)
             || (a_uid attr =? euid c)))
        then 0 else EPERM).
Proof.
  unfold auth_filesystem_check. cbn -[filesystem]. unfold filesystem, action_block.
  cbn -[unlink_allowed].
  unfold unlink_allowed. change V_ATTR_MODE_STICKY with (2 ^ 9).
  rewrite !writecheck_bits, has_pow2 by lia. cbn.
  destruct (CRED_IS_ESU c), (Z.testbit (class_bits c dirattr) 1),
    (Z.testbit (a_mode dirattr) 9); simpl; try done.
  by destruct (a_uid dirattr =? euid c), (a_uid attr =? euid c).
Qed.

(** ** What an unprivileged process can do to its credentials *)

Definition among (x a b d : Z) : Prop := x = a \/ x = b \/ x = d.

(** [c'] only uses identities of [c]. *)
Record confined (c c' : cred_t) : Prop := mk_confined {
  conf_uid : among (uid c') (uid c) (euid c) (suid c);
  conf_euid : among (euid c') (uid c) (euid c) (suid c);
  conf_suid : among (suid c') (uid c) (euid c) (suid c);
  conf_gid : among (gid c') (gid c) (egid c) (sgid c);
  conf_egid : among (egid c') (gid c) (egid c) (sgid c);
  conf_sgid : among (sgid c') (gid c) (egid c) (sgid c)
}.

Lemma confined_refl c : confined c c.
Proof. split; unfold among; auto. Qed.

Lemma among_trans x a' b' d' a b d :
  among x a' b' d' -> among a' a b d -> among b' a b d -> among d' a b d -> among x a b d.
Proof. by intros [-> |[-> | ->]]. Qed.

Lemma confined_trans a b c : confined a b -> confined b c -> confined a c.
Proof. intros [] []. split; eapply among_trans; eauto. Qed.

Definition unprivileged (c : cred_t) : Prop := uid c <> 0 /\ euid c <> 0 /\ suid c <> 0.

Lemma confined_unprivileged c c' : unprivileged c -> confined c c' -> unprivileged c'.
Proof.
  intros (Hu & He & Hs) [[H1|[H1|H1]] [H2|[H2|H2]] [H3|[H3|H3]] _ _ _]; unfold unprivileged;
    rewrite H1, H2, H3; auto.
Qed.

Lemma one_of3_spec x a b d : one_of3 x a b d = true <-> x = -1 \/ among x a b d.
Proof. unfold one_of3, among. cases_bool; simpl; intuition (congruence || lia). Qed.

(** The answer of the credential scope for one action of an unprivileged
    process. *)
Lemma cred_check_unprivileged c actions id eid sid :
  euid c <> 0 ->
  actions ∈ [AUTH_ACTIONS_CRED_SETRESUID; AUTH_ACTIONS_CRED_SETRESGID; AUTH_ACTIONS_CRED_SETUID;
             AUTH_ACTIONS_CRED_SETGID; AUTH_ACTIONS_CRED_SETEUID; AUTH_ACTIONS_CRED_SETEGID] ->
  auth_cred_check defaultauth_init c actions id eid sid =
    Some (if (if actions =? AUTH_ACTIONS_CRED_SETRESUID then
                one_of3 id (uid c) (euid c) (suid c) && one_of3 eid (uid c) (euid c) (suid c)
                && one_of3 sid (uid c) (euid c) (suid c)
              else if actions =? AUTH_ACTIONS_CRED_SETRESGID then
                one_of3 id (gid c) (egid c) (sgid c) && one_of3 eid (gid c) (egid c) (sgid c)
                && one_of3 sid (gid c) (egid c) (sgid c)
              else if actions =? AUTH_ACTIONS_CRED_SETUID then (id =? uid c) || (id =? suid c)
              else if actions =? AUTH_ACTIONS_CRED_SETGID then (id =? gid c) || (id =? sgid c)
              else if actions =? AUTH_ACTIONS_CRED_SETEUID then (eid =? uid c) || (eid =? suid c)
              else (eid =? gid c) || (eid =? sgid c))
          then 0 else EPERM).
Proof.
  intros He Ha. unfold auth_cred_check, credlistener.
  assert (Hesu : CRED_IS_ESU c = false) by (unfold CRED_IS_ESU; by apply Z.eqb_neq).
  repeat (apply elem_of_cons in Ha as [-> |Ha]); [..|by apply elem_of_nil in Ha];
    cbn -[credlistener s32]; unfold credlistener; rewrite Hesu; simpl;
    repeat first [rewrite action_block_off by reflexivity | rewrite single_block_off by reflexivity
      | rewrite action_block_on by reflexivity | rewrite single_block_on by done];
    match goal with |- context [if ?b then _ else Some AUTH_DECISION_DENY] => destruct b end;
    reflexivity.
Qed.

Lemma among_l a b d : among a a b d. Proof. by left. Qed.
Lemma among_m a b d : among b a b d. Proof. by right; left. Qed.
Lemma among_r a b d : among d a b d. Proof. by right; right. Qed.

Lemma among_unless x y a b d :
  x = -1 \/ among x a b d -> among y a b d -> among (if x =? -1 then y else x) a b d.
Proof. intros [-> |H] Hy; [done|]. by destruct (x =? -1). Qed.

Lemma among_outer x a b d : x = a \/ x = d -> among x a b d.
Proof. unfold among. tauto. Qed.

#[local] Hint Resolve among_l among_m among_r among_unless among_outer : astral.

Lemma do_call_confined c k :
  euid c <> 0 -> exists e c', do_call defaultauth_init c k = Some (e, c') /\ confined c c'.
Proof.
  intros He. assert (Hesu : CRED_IS_ESU c = false) by (unfold CRED_IS_ESU; by apply Z.eqb_neq).
  pose proof (confined_refl c) as Hr.
  destruct k; simpl; unfold cred_setuids, cred_setgids, cred_setuid, cred_seteuid, cred_setgid,
    cred_setegid; try match goal with |- context [?x <? 0] => destruct (x <? 0); [by eauto|] end;
    rewrite cred_check_unprivileged by (done || set_solver); cbn -[one_of3]; rewrite ?Hesu;
    match goal with |- context [if ?b then 0 else EPERM] => destruct b eqn:Hb end; cbn; eauto.
  all: repeat (apply andb_true_iff in Hb as [Hb ?]);
    rewrite ?one_of3_spec, ?orb_true_iff, ?Z.eqb_eq in *.
  all: eexists _, _; split; [reflexivity|]; split; simpl; auto with astral.
Qed.

Lemma do_calls_confined c ks :
  unprivileged c ->
  exists c', do_calls defaultauth_init c ks = Some c' /\ confined c c' /\ unprivileged c'.
Proof.
  revert c. induction ks as [|k ks IH]; intros c Hc; simpl.
  - exists c. auto using confined_refl.
  - destruct (do_call_confined c k) as (e & c1 & -> & H1); [apply Hc|]. cbn.
    destruct (IH c1) as (c' & -> & H2 & H3); [by eapply confined_unprivileged|].
    exists c'. eauto using confined_trans.
Qed.

(** C6. A process none of whose user ids is the superuser's can reach no
    credentials outside its own by any sequence of credential calls: every
    user id it ends up with is one of the three it started from, and likewise
    for its group ids; no call stops the kernel. *)
Theorem cred_confinement (c : cred_t) (ks : list cred_call) :
  unprivileged c ->
  exists c', do_calls defaultauth_init c ks = Some c' /\ confined c c' /\ unprivileged c'.
Proof. apply do_calls_confined. Qed.

(** [setuid] to an ordinary user drops root for good: it succeeds, sets
    the three user ids, and no later sequence of calls changes any of them. *)
Theorem setuid_drops_root (c : cred_t) (u : Z) (ks : list cred_call) :
  euid c = 0 -> 0 < u ->
  exists c1 c2, cred_setuid defaultauth_init c u = Some (0, c1) /\
    cred_getuids c1 = (u, u, u) /\
    do_calls defaultauth_init c1 ks = Some c2 /\ cred_getuids c2 = (u, u, u).
Proof.
  intros He Hu. unfold cred_setuid. destruct (Z.ltb_spec u 0); [lia|].
  assert (Hesu : CRED_IS_ESU c = true) by (unfold CRED_IS_ESU; by rewrite He).
  unfold auth_cred_check. cbn -[credlistener]. unfold credlistener, action_block, single_block.
  rewrite !Hesu. cbn. set (c1 := mk_cred u u u _ _ _).
  destruct (do_calls_confined c1 ks) as (c2 & E & [C1 C2 C3 _ _ _] & _).
  { unfold unprivileged. simpl. lia. }
  exists c1, c2. unfold among, cred_getuids in *. simpl in *. repeat split; auto.
  f_equal; [f_equal|]; tauto.
Qed.

(** ** Witnesses *)

Definition sample_cred : cred_t := mk_cred 1000 1000 1001 100 100 100.
Definition sample_attr : vattr_t := 
  mk_vattr 0 0x1a4 0 0 0 0 0 0 0 (mk_timespec 0 0) (mk_timespec 0 0) (mk_timespec 0 0) 0 0 0 0 0. (* rw-r--r-- root root *)

Lemma auth_check_deny_overrides_witness :
  auth_check (auth_registerlistener empty_scope network) (Some sample_cred) 1 tt = Some EPERM.
Proof.
  exact (auth_check_deny_overrides (auth_registerlistener empty_scope network) sample_cred 1 tt
    [AUTH_DECISION_DENY] ltac:(reflexivity) ltac:(discriminate) ltac:(reflexivity)
    ltac:(apply Forall_singleton; right; right; reflexivity)).
Defined.

Lemma access_is_posix_witness :
  auth_filesystem_check defaultauth_init (Some sample_cred) (auth_filesystem_convertaccess 6)
    V_TYPE_REGULAR sample_attr None = Some EPERM /\
  auth_filesystem_check defaultauth_init (Some sample_cred) (auth_filesystem_convertaccess 4)
    V_TYPE_REGULAR sample_attr None = Some 0.
Proof.
  exact (conj (access_is_posix sample_cred V_TYPE_REGULAR sample_attr 6 ltac:(lia))
              (access_is_posix sample_cred V_TYPE_REGULAR sample_attr 4 ltac:(lia))).
Defined.

Lemma cred_confinement_witness :
  exists c', do_calls defaultauth_init sample_cred
      [SetUid 0; SetResUid 1001 1000 1000; SetEUid 0; SetGid 0] = Some c' /\
    confined sample_cred c' /\ unprivileged c'.
Proof.
  exact (cred_confinement sample_cred [SetUid 0; SetResUid 1001 1000 1000; SetEUid 0; SetGid 0]
    ltac:(unfold unprivileged; simpl; lia)).
Defined.

Lemma setuid_drops_root_witness :
  exists c1 c2, cred_setuid defaultauth_init (mk_cred 0 0 0 0 0 0) 1000 = Some (0, c1) /\
    cred_getuids c1 = (1000, 1000, 1000) /\
    do_calls defaultauth_init c1 [SetUid 0; SetEUid 0] = Some c2 /\
    cred_getuids c2 = (1000, 1000, 1000).
Proof.
  exact (setuid_drops_root (mk_cred 0 0 0 0 0 0) 1000 [SetUid 0; SetEUid 0]
    ltac:(reflexivity) ltac:(lia)).
Defined.
