(* ===== verification/FdTable.v ===== *)
(** * Open files and descriptor tables ([fs/file.c], [include/kernel/file.h],
      [sys/syscalls/dup.c], [fcntl.c], [close.c])

    A process owns a growable table of descriptors; each used slot points to a
    reference counted open file.  The invariant [fd_wf] ties every reference
    count to the slots that use the file plus the references held outside the
    table, and makes [fdfirst] a lower bound for the free descriptors. *)

From S2P Require Import Prelude Errno Vnode.

Definition FDTABLE_LIMIT : Z := 256.

(** ** Flags *)
Definition FILE_READ : Z := 1.
Definition FILE_WRITE : Z := 2.
Definition O_RDONLY : Z := 0.
Definition O_WRONLY : Z := 1.
Definition O_RDWR : Z := 2.
Definition O_CREAT : Z := 0x40.
Definition O_EXCL : Z := 0x80.
Definition O_NOCTTY : Z := 0x100.
Definition O_TRUNC : Z := 0x200.
Definition O_APPEND : Z := 0x400.
Definition O_NONBLOCK : Z := 0x800.
Definition O_DSYNC : Z := 0x1000.
Definition O_ASYNC : Z := 0x2000.
Definition O_DIRECT : Z := 0x4000.
Definition O_NOATIME : Z := 0x40000.
Definition O_CLOEXEC : Z := 0x80000.
Definition O_SYNC : Z := 0x101000.

Definition fileflagstovnodeflags (flags : Z) : Z :=
  let vnflags := 0 in
  let vnflags := if has flags FILE_READ then Z.lor vnflags V_FFLAGS_READ else vnflags in
  let vnflags := if has flags FILE_WRITE then Z.lor vnflags V_FFLAGS_WRITE else vnflags in
  let vnflags := if has flags O_NONBLOCK then Z.lor vnflags V_FFLAGS_NONBLOCKING else vnflags in
  let vnflags := if has flags O_NOCTTY then Z.lor vnflags V_FFLAGS_NOCTTY else vnflags in
  if has flags (Z.lor (Z.lor O_DIRECT O_SYNC) O_DSYNC)
  then Z.lor vnflags V_FFLAGS_NOCACHE else vnflags.

(** ** State *)

(** [file_t]; vnodes are named by numbers. *)
Record file_t := mk_file { vnode : option Z; refcount : Z; offset : Z; fflags : Z }.

(** [fd_t]; file objects are named by their address. *)
Record fd_t := mk_fd { file : option nat; flags : Z }.

Record proc_t := mk_proc { fdcount : Z; fdfirst : Z; fd : list fd_t }.

(** [files] are the live file objects, [closed] the [vfs_close] calls made so
    far (vnode, flags), latest first. *)
Record state := mk_state {
  files : gmap nat file_t;
  proc : proc_t;
  closed : list (Z * Z)
}.

Definition with_files (f : gmap nat file_t) (s : state) : state := mk_state f (proc s) (closed s).
Definition with_proc (p : proc_t) (s : state) : state := mk_state (files s) p (closed s).

(** The object [ctor] leaves in a fresh or freed slab slot; [flags] and [mode]
    are not initialised by it and keep an arbitrary value. *)
Definition ctor (stale_flags : Z) : file_t := mk_file None 1 0 stale_flags.

(** ** References *)

Definition load_file (f : nat) : stM state file_t :=
  s ← getS; liftS (files s !! f).

Definition store_file (f : nat) (x : file_t) : stM state unit :=
  modifyS (fun s => with_files (<[f := x]> (files s)) s).

Definition with_refcount (x : file_t) (r : Z) : file_t :=
  mk_file (vnode x) r (offset x) (fflags x).

Definition FILE_HOLD (f : nat) : stM state unit :=
  x ← load_file f; store_file f (with_refcount x (s32 (refcount x + 1))).

Definition cleanfile (f : nat) : stM state unit :=
  x ← load_file f;
  modifyS (fun s =>
    mk_state (delete f (files s)) (proc s)
      (match vnode x with
       | Some v => (v, fileflagstovnodeflags (fflags x)) :: closed s
       | None => closed s
       end)).

Definition FILE_RELEASE (f : nat) : stM state unit :=
  x ← load_file f;
  let r := s32 (refcount x - 1) in
  store_file f (with_refcount x r);;
  if r =? 0 then cleanfile f else mret tt.

(** ** Table access *)

(** [proc->fd[fd]]: outside the table the access is not defined. *)
Definition slot_at (p : proc_t) (i : Z) : option fd_t :=
  if 0 <=? i then fd p !! Z.to_nat i else None.

Definition set_slot (i : Z) (x : fd_t) : stM state unit :=
  s ← getS;
  match slot_at (proc s) i with
  | None => failS
  | Some _ =>
      modifyS (with_proc (mk_proc (fdcount (proc s)) (fdfirst (proc s))
                            (<[Z.to_nat i := x]> (fd (proc s)))))
  end.

Definition set_fdfirst (n : Z) : stM state unit :=
  modifyS (fun s => with_proc (mk_proc (fdcount (proc s)) n (fd (proc s))) s).

(** [fd < proc->fdcount ? proc->fd[fd].file : NULL]: the [int] is converted to
    [size_t], so a negative descriptor is never below the count. *)
Definition lookup_fd (i : Z) : stM state (option nat) :=
  s ← getS;
  if u64 i <? fdcount (proc s) then x ← liftS (slot_at (proc s) i); mret (file x)
  else mret None.

(** The loop of [getfree]; at most [fdcount + 1] tests are made. *)
Fixpoint getfree_loop (fuel : nat) (p : proc_t) (sfd : Z) : option Z :=
  match fuel with
  | O => None
  | S fuel' =>
      if u64 sfd <? fdcount p then
        x ← slot_at p sfd;
        match file x with
        | Some _ => getfree_loop fuel' p (sfd + 1)
        | None => Some sfd
        end
      else Some sfd
  end.

Definition getfree (p : proc_t) (start : Z) : option Z :=
  sfd ← getfree_loop (S (Z.to_nat (fdcount p))) p start;
  Some (if negb (u64 sfd =? fdcount p) then sfd else -1).

(** [realloc] either fails ([realloc_ok = false]) or keeps the old slots and
    zeroes the new ones. *)
Definition growtable (realloc_ok : bool) (newcount : Z) : stM state Z :=
  if newcount >? FDTABLE_LIMIT then mret EMFILE
  else
    s ← getS;
    assertS (u64 newcount >? fdcount (proc s));;
    if negb realloc_ok then mret ENOMEM
    else
      modifyS (with_proc
        (mk_proc newcount (fdfirst (proc s))
           (fd (proc s) ++ replicate (Z.to_nat newcount - length (fd (proc s))) (mk_fd None 0))));;
      mret 0.

(** ** Operations *)

Definition fd_get (i : Z) : stM state (option nat) :=
  f ← lookup_fd i;
  match f with
  | Some f => FILE_HOLD f;; mret (Some f)
  | None => mret None
  end.

Definition fd_setflags (i flg : Z) : stM state Z :=
  s ← getS;
  x ← liftS (slot_at (proc s) i);
  match file x with
  | Some f => set_slot i (mk_fd (Some f) flg);; mret 0
  | None => mret EBADF
  end.

Definition fd_getflags (i : Z) : stM state (Z * option Z) :=
  s ← getS;
  x ← liftS (slot_at (proc s) i);
  match file x with
  | Some _ => mret (0, Some (flags x))
  | None => mret (EBADF, None)
  end.

Definition fd_release (f : nat) : stM state unit := FILE_RELEASE f.

(** [newfile] is the result of the slab allocation: [None] for [NULL], or the
    address of a free object with its stale flags.  On success the new
    descriptor and file are returned. *)
Definition fd_new (newfile : option (nat * Z)) (realloc_ok : bool) (flg : Z)
    : stM state (Z * option (nat * Z)) :=
  match newfile with
  | None => mret (ENOMEM, None)
  | Some (f, stale) =>
      store_file f (ctor stale);;
      s ← getS;
      i ← liftS (getfree (proc s) (s32 (fdfirst (proc s))));
      '(i, error) ←
        (if i =? -1 then
           error ← growtable realloc_ok (s32 (fdcount (proc s)) + 1);
           mret (s32 (fdcount (proc s)), error)
         else mret (i, 0));
      if negb (error =? 0) then cleanfile f;; mret (error, None)
      else
        set_fdfirst (i + 1);;
        set_slot i (mk_fd (Some f) flg);;
        mret (0, Some (f, i))
  end.

Definition fd_close (i : Z) : stM state Z :=
  f ← lookup_fd i;
  match f with
  | Some f =>
      s ← getS;
      x ← liftS (slot_at (proc s) i);
      set_slot i (mk_fd None (flags x));;
      (if fdfirst (proc s) >? u64 i then set_fdfirst i else mret tt);;
      FILE_RELEASE f;;
      mret 0
  | None => mret EBADF
  end.

Definition fd_insert (realloc_ok : bool) (f : nat) : stM state (Z * option Z) :=
  s ← getS;
  i ← liftS (getfree (proc s) 0);
  '(i, err) ←
    (if i =? -1 then
       err ← growtable realloc_ok (s32 (fdcount (proc s)));
       mret (s32 (fdcount (proc s)), err)
     else mret (i, 0));
  if negb (err =? 0) then mret (err, None)
  else
    set_slot i (mk_fd (Some f) 0);;
    FILE_HOLD f;;
    mret (0, Some i).

Definition fd_dup (realloc_ok : bool) (oldfd newfd : Z) (exact : bool) (fdflags : Z)
    : stM state (Z * option Z) :=
  if (newfd <? 0) || (newfd >=? FDTABLE_LIMIT) then mret (EBADF, None)
  else
    f ← lookup_fd oldfd;
    match f with
    | None => mret (EBADF, None)
    | Some f =>
        s ← getS;
        if exact then
          err ← (if u64 newfd >=? fdcount (proc s) then growtable realloc_ok (newfd + 1)
                 else mret 0);
          if negb (err =? 0) then mret (err, None)
          else
            s ← getS;
            old ← liftS (slot_at (proc s) newfd);
            match file old with Some g => FILE_RELEASE g | None => mret tt end;;
            set_slot newfd (mk_fd (Some f) fdflags);;
            FILE_HOLD f;;
            mret (0, Some newfd)
        else
          i ← liftS (getfree (proc s) newfd);
          '(i, err) ←
            (if i =? -1 then
               let newsize := if u64 newfd <? fdcount (proc s) then fdcount (proc s) + 1 else newfd in
               err ← growtable realloc_ok (s32 newsize);
               mret (s32 (newsize - 1), err)
             else mret (i, 0));
          if negb (err =? 0) then mret (err, None)
          else
            set_slot i (mk_fd (Some f) fdflags);;
            FILE_HOLD f;;
            mret (0, Some i)
    end.

(** [fd_clone]: the table of a new process, or [ENOMEM]; every file in it
    gains a reference. *)
Fixpoint hold_slots (l : list fd_t) : stM state (list fd_t) :=
  match l with
  | [] => mret []
  | x :: l' =>
      x' ← (match file x with
            | Some f => FILE_HOLD f;; mret x
            | None => mret (mk_fd None 0)
            end);
      l'' ← hold_slots l';
      mret (x' :: l'')
  end.

Definition fd_clone (alloc_ok : bool) : stM state (Z * option proc_t) :=
  s ← getS;
  if negb alloc_ok then mret (ENOMEM, None)
  else
    l ← hold_slots (fd (proc s));
    mret (0, Some (mk_proc (fdcount (proc s)) (fdfirst (proc s)) l)).

(** ** System calls *)

Definition syscall_close (i : Z) : stM state (Z * Z) :=
  errno ← fd_close i; mret (0, errno).

(** [r] keeps its initial [-1] when [fd_dup] fails. *)
Definition dup_result (r : Z * option Z) : Z * Z :=
  (match r.2 with Some n => n | None => -1 end, r.1).

Definition syscall_dup (realloc_ok : bool) (oldfd : Z) : stM state (Z * Z) :=
  r ← fd_dup realloc_ok oldfd 0 false 0; mret (dup_result r).

Definition syscall_dup2 (realloc_ok : bool) (oldfd newfd : Z) : stM state (Z * Z) :=
  if oldfd =? newfd then mret (newfd, 0)
  else r ← fd_dup realloc_ok oldfd newfd true 0; mret (dup_result r).

Definition syscall_dup3 (realloc_ok : bool) (oldfd newfd flg : Z) : stM state (Z * Z) :=
  if oldfd =? newfd then mret (-1, EINVAL)
  else r ← fd_dup realloc_ok oldfd newfd true flg; mret (dup_result r).

Definition F_DUPFD : Z := 0.
Definition F_GETFD : Z := 1.
Definition F_SETFD : Z := 2.
Definition F_GETFL : Z := 3.
Definition F_SETFL : Z := 4.
Definition FD_CLOEXEC : Z := 1.

(** [syscall_fcntl] returns (ret, errno).  [garbage] is the value of the
    locals [f] and [flg] that the call leaves uninitialised on an error. *)
Definition syscall_fcntl (realloc_ok : bool) (garbage i cmd arg : Z) : stM state (Z * Z) :=
  fo ← fd_get i;
  match fo with
  | None => mret (-1, EBADF)
  | Some f =>
      '(ret, errno) ←
        (if cmd =? F_DUPFD then
           r ← fd_dup realloc_ok i (s32 arg) false 0;
           mret (match r.2 with Some n => n | None => garbage end, 0)
         else if cmd =? F_GETFL then
           x ← load_file f; mret (s32 (fflags x - 1), 0)
         else if cmd =? F_SETFL then
           x ← load_file f;
           let drop := Z.lor (Z.lor (Z.lor (Z.lor (Z.lor (Z.lor O_RDONLY O_WRONLY) O_RDWR) O_CREAT)
                         O_EXCL) O_NOCTTY) O_TRUNC in
           let keep := Z.lor (Z.lor (Z.lor O_APPEND O_ASYNC) O_NOATIME) O_NONBLOCK in
           let a := Z.land arg (Z.lnot drop) in
           store_file f (mk_file (vnode x) (refcount x) (offset x)
             (s32 (Z.lor (Z.land (fflags x) (Z.lnot keep)) a)));;
           mret (0, 0)
         else if cmd =? F_SETFD then
           fd_setflags i (if has arg FD_CLOEXEC then O_CLOEXEC else 0);; mret (0, 0)
         else if cmd =? F_GETFD then
           r ← fd_getflags i;
           let flg := match r.2 with Some x => x | None => garbage end in
           mret (if negb (flg =? 0) then FD_CLOEXEC else 0, 0)
         else mret (-1, EINVAL));
      FILE_RELEASE f;;
      mret (if negb (errno =? 0) then -1 else ret, errno)
  end.

(** ** Invariant *)

Definition used (p : proc_t) (i : Z) : Prop :=
  exists x f, slot_at p i = Some x /\ file x = Some f.

(** The table part: the recorded count is the length of the table, which stays
    below the limit, and no descriptor below [fdfirst] is free. *)
Record table_ok (p : proc_t) : Prop := {
  ok_count : fdcount p = Z.of_nat (length (fd p));
  ok_limit : fdcount p <= FDTABLE_LIMIT;
  ok_first : 0 <= fdfirst p <= fdcount p;
  ok_below : forall i, 0 <= i < fdfirst p -> used p i
}.

(** Number of slots that use a file. *)
Definition slots_of (f : nat) (l : list fd_t) : Z :=
  Z.of_nat (length (filter (fun x => file x = Some f) l)).

(** References held outside the table. *)
Definition outside := nat -> Z.
Definition bump (f : nat) (d : Z) (ext : outside) : outside :=
  fun g => if decide (g = f) then ext g + d else ext g.

(** The reference part: a live file counts exactly its references, and an
    unreferenced file is not live. *)
Definition refs_ok (ext : outside) (s : state) : Prop :=
  forall f,
    match files s !! f with
    | Some x => refcount x = slots_of f (fd (proc s)) + ext f /\ 0 < refcount x < 2 ^ 31
    | None => slots_of f (fd (proc s)) + ext f = 0
    end.

Definition fd_wf (ext : outside) (s : state) : Prop :=
  table_ok (proc s) /\ refs_ok ext s /\ forall f, 0 <= ext f <= 2 ^ 30.

(** ** Slots *)

Lemma slot_at_nat p i : 0 <= i -> slot_at p i = fd p !! Z.to_nat i.
Proof. intros H. unfold slot_at. by rewrite (proj2 (Z.leb_le 0 i) H). Qed.

Lemma slot_at_ge p i x : slot_at p i = Some x -> 0 <= i < Z.of_nat (length (fd p)).
Proof.
  unfold slot_at. case_match eqn:E; [|done]. intros H%lookup_lt_Some. lia.
Qed.

Lemma slot_at_lt p i : 0 <= i < Z.of_nat (length (fd p)) -> exists x, slot_at p i = Some x.
Proof.
  intros H. rewrite slot_at_nat by lia. apply lookup_lt_is_Some. lia.
Qed.

Lemma slots_of_bound f l : 0 <= slots_of f l <= Z.of_nat (length l).
Proof. unfold slots_of. pose proof (length_filter (fun x => file x = Some f) l). lia. Qed.

Definition here (f : nat) (o : option nat) : Z := if decide (o = Some f) then 1 else 0.

Lemma slots_of_cons f x l : slots_of f (x :: l) = here f (file x) + slots_of f l.
Proof. unfold slots_of, here. rewrite filter_cons. repeat case_decide; simpl; lia. Qed.

Lemma slots_of_insert f l i x y :
  l !! i = Some x -> slots_of f (<[i:=y]> l) = slots_of f l - here f (file x) + here f (file y).
Proof.
  revert i. induction l as [|z l IH]; intros [|i] H; simpl in *; try done.
  - inversion H; subst. rewrite !slots_of_cons. lia.
  - rewrite !slots_of_cons, (IH i H). lia.
Qed.

Lemma slots_of_app f l n : slots_of f (l ++ replicate n (mk_fd None 0)) = slots_of f l.
Proof.
  induction l as [|x l IH]; simpl; [|by rewrite !slots_of_cons, IH].
  unfold slots_of. induction n; [done|]. simpl. rewrite filter_cons. by case_decide.
Qed.

Lemma slots_of_pos f l i x : l !! i = Some x -> file x = Some f -> 0 < slots_of f l.
Proof.
  intros H E. pose proof (slots_of_insert f l i x (mk_fd None 0) H) as Q.
  pose proof (slots_of_bound f (<[i:=mk_fd None 0]> l)) as B. revert Q.
  unfold here at 1 2. rewrite decide_True by done. rewrite decide_False by done. lia.
Qed.

(** ** The first free descriptor *)

Lemma getfree_loop_spec p : fdcount p = Z.of_nat (length (fd p)) -> fdcount p < 2 ^ 63 ->
  forall fuel i, 0 <= i <= fdcount p -> fdcount p - i < Z.of_nat fuel ->
  exists r, getfree_loop fuel p i = Some r /\ i <= r <= fdcount p /\
    (forall j, i <= j < r -> used p j) /\
    (r < fdcount p -> exists x, slot_at p r = Some x /\ file x = None).
Proof.
  intros C L. induction fuel as [|fuel IH]; intros i Hi Hf; [lia|]. simpl.
  rewrite (u64_id i) by (unfold is_u64; lia).
  destruct (Z.ltb_spec i (fdcount p)) as [H|H].
  - destruct (slot_at_lt p i) as [x E]; [lia|]. rewrite E. simpl.
    destruct (file x) as [f|] eqn:F.
    + destruct (IH (i + 1)) as (r & R & B & U & E'); [lia|lia|].
      exists r. split; [done|]. split; [lia|]. split; [|done].
      intros j Hj. destruct (decide (j = i)) as [->|]; [by exists x, f|]. apply U; lia.
    + exists i. split; [done|]. split; [lia|]. split; [intros; lia|]. intros _. by exists x.
  - exists i. split; [done|]. split; [lia|]. split; intros; lia.
Qed.

(** [getfree] finds the least free descriptor from [start] on, or -1. *)
Lemma getfree_spec p start : table_ok p -> 0 <= start <= fdcount p ->
  (getfree p start = Some (-1) /\ forall j, start <= j < fdcount p -> used p j) \/
  (exists r x, getfree p start = Some r /\ start <= r < fdcount p /\
     slot_at p r = Some x /\ file x = None /\ forall j, start <= j < r -> used p j).
Proof.
  intros [C L F B] Hs. unfold FDTABLE_LIMIT in L. unfold getfree.
  destruct (getfree_loop_spec p C ltac:(lia) (S (Z.to_nat (fdcount p))) start)
    as (r & -> & Hr & U & E); [lia|lia|].
  simpl. rewrite u64_id by (unfold is_u64; lia).
  destruct (Z.eqb_spec r (fdcount p)) as [->|N]; simpl.
  - left. by split.
  - right. destruct E as (x & Ex & Fx); [lia|]. exists r, x. split_and!; try done; lia.
Qed.

(** ** Reference accounting *)

#[export] Instance refs_ok_proper :
  Proper (pointwise_relation nat eq ==> eq ==> iff) refs_ok.
Proof.
  intros e e' He s ? <-. unfold refs_ok.
  split; intros H f; specialize (H f); [rewrite <- (He f)|rewrite (He f)]; done.
Qed.

Lemma refs_live ext s f :
  refs_ok ext s -> 0 < slots_of f (fd (proc s)) + ext f -> exists x, files s !! f = Some x.
Proof. intros H L. specialize (H f). destruct (files s !! f); [eauto|lia]. Qed.

Lemma FILE_HOLD_ok ext s f x :
  refs_ok ext s -> files s !! f = Some x -> slots_of f (fd (proc s)) + ext f < 2 ^ 31 - 1 ->
  exists s', FILE_HOLD f s = Some (tt, s') /\ proc s' = proc s /\ closed s' = closed s /\
    refs_ok (bump f 1 ext) s'.
Proof.
  intros R E B. unfold FILE_HOLD, load_file. rewrite (bindS_run _ _ s x s).
  2: { rewrite bindS_get. unfold liftS. by rewrite E. }
  eexists. split; [reflexivity|]. split; [done|]. split; [done|]. intros g. simpl.
  pose proof (R f) as Rf. rewrite E in Rf. specialize (R g). unfold bump.
  destruct (decide (g = f)) as [->|N].
  - rewrite lookup_insert_eq. simpl. rewrite s32_small; lia.
  - by rewrite lookup_insert_ne.
Qed.

(** Dropping a reference: the file goes, and its vnode is closed, exactly when
    it was the last one. *)
Definition after_release (s : state) (f : nat) (x : file_t) : state :=
  if refcount x =? 1 then
    mk_state (delete f (files s)) (proc s)
      (match vnode x with
       | Some v => (v, fileflagstovnodeflags (fflags x)) :: closed s
       | None => closed s
       end)
  else with_files (<[f := with_refcount x (refcount x - 1)]> (files s)) s.

Lemma FILE_RELEASE_run s f x :
  files s !! f = Some x -> 0 < refcount x < 2 ^ 31 ->
  FILE_RELEASE f s = Some (tt, after_release s f x).
Proof.
  intros E B. unfold FILE_RELEASE, load_file. rewrite (bindS_run _ _ s x s).
  2: { rewrite bindS_get. unfold liftS. by rewrite E. }
  rewrite s32_small by lia. unfold store_file, after_release.
  rewrite (bindS_run _ _ s tt (with_files (<[f:=with_refcount x (refcount x - 1)]> (files s)) s)) by done.
  destruct (Z.eqb_spec (refcount x) 1) as [Q|Q].
  - rewrite Q. simpl. unfold cleanfile, load_file.
    rewrite (bindS_run _ _ _ (with_refcount x 0) (with_files (<[f:=with_refcount x (1 - 1)]> (files s)) s)).
    2: { rewrite bindS_get. unfold liftS. simpl. by rewrite lookup_insert_eq. }
    unfold modifyS. simpl. do 3 f_equal. by rewrite delete_insert_eq.
  - rewrite (proj2 (Z.eqb_neq _ _)) by lia. done.
Qed.

Lemma after_release_refs ext s f x :
  refs_ok ext s -> files s !! f = Some x -> refs_ok (bump f (-1) ext) (after_release s f x).
Proof.
  intros R E g. pose proof (R f) as Rf. rewrite E in Rf. specialize (R g). unfold after_release, bump.
  destruct (Z.eqb_spec (refcount x) 1), (decide (g = f)) as [->|N]; simpl.
  - rewrite lookup_delete_eq. lia.
  - by rewrite lookup_delete_ne.
  - rewrite lookup_insert_eq. simpl. lia.
  - by rewrite lookup_insert_ne.
Qed.

Lemma after_release_proc s f x : proc (after_release s f x) = proc s.
Proof. unfold after_release. by case_match. Qed.

Lemma FILE_RELEASE_ok ext s f x :
  refs_ok ext s -> files s !! f = Some x ->
  exists s', FILE_RELEASE f s = Some (tt, s') /\ proc s' = proc s /\ refs_ok (bump f (-1) ext) s'.
Proof.
  intros R E. exists (after_release s f x).
  split; [|by rewrite after_release_proc; split; [|by apply after_release_refs]].
  apply FILE_RELEASE_run; [done|]. specialize (R f). rewrite E in R. lia.
Qed.

Definition bump_opt (o : option nat) (d : Z) (ext : outside) : outside :=
  match o with Some f => bump f d ext | None => ext end.

Definition put_slot (i : Z) (x : fd_t) (s : state) : state :=
  with_proc (mk_proc (fdcount (proc s)) (fdfirst (proc s)) (<[Z.to_nat i := x]> (fd (proc s)))) s.

Lemma set_slot_run s i x y : slot_at (proc s) i = Some y -> set_slot i x s = Some (tt, put_slot i x s).
Proof. intros E. unfold set_slot. rewrite bindS_get, E. done. Qed.

(** Overwriting a slot hands the old file's reference to the outside and takes
    the new one's from it. *)
Lemma put_slot_refs ext s i x y :
  refs_ok ext s -> slot_at (proc s) i = Some y ->
  refs_ok (bump_opt (file y) 1 (bump_opt (file x) (-1) ext)) (put_slot i x s).
Proof.
  intros R E f. specialize (R f). simpl. pose proof (slot_at_ge _ _ _ E).
  rewrite slot_at_nat in E by lia. rewrite (slots_of_insert f _ _ _ _ E).
  replace (bump_opt (file y) 1 (bump_opt (file x) (-1) ext) f)
    with (ext f + here f (file y) - here f (file x)).
  - destruct (files s !! f); lia.
  - unfold bump_opt, bump, here. destruct (file y), (file x); repeat case_decide; simplify_eq; lia.
Qed.

Lemma put_slot_table s i f flg y :
  table_ok (proc s) -> slot_at (proc s) i = Some y -> table_ok (proc (put_slot i (mk_fd (Some f) flg) s)).
Proof.
  intros [C L F B] E. pose proof (slot_at_ge _ _ _ E). split; simpl; try done.
  - by rewrite length_insert.
  - intros j Hj. destruct (B j Hj) as (x & g & Ex & Fx). unfold used.
    rewrite slot_at_nat in * by lia. simpl. destruct (decide (j = i)) as [->|N].
    + rewrite list_lookup_insert_eq by lia. by eexists _, f.
    + rewrite list_lookup_insert_ne by lia. by exists x, g.
Qed.

(** ** Lookup and growth *)

(** The file behind a descriptor. *)
Definition fd_file (p : proc_t) (i : Z) : option nat := x ← slot_at p i; file x.

Definition is_int (i : Z) : Prop := - 2 ^ 31 <= i < 2 ^ 31.

Lemma u64_int_lt i n : is_int i -> 0 <= n < 2 ^ 63 -> (u64 i <? n) = (0 <=? i) && (i <? n).
Proof.
  intros Hi Hn. unfold is_int in Hi. destruct (decide (0 <= i)).
  - rewrite u64_id by (unfold is_u64; lia). lia.
  - unfold u64. rewrite <- (Z.mod_unique i (2 ^ 64) (-1) (i + 2 ^ 64)) by lia. lia.
Qed.

Lemma lookup_fd_run s i :
  table_ok (proc s) -> is_int i -> lookup_fd i s = Some (fd_file (proc s) i, s).
Proof.
  intros [C L F B] Hi. unfold lookup_fd. rewrite bindS_get. unfold FDTABLE_LIMIT in L.
  rewrite u64_int_lt by (done || lia). unfold fd_file.
  destruct ((0 <=? i) && (i <? fdcount (proc s))) eqn:E.
  - destruct (slot_at_lt (proc s) i) as [x Ex]; [lia|].
    unfold liftS, mbind, stM_bind. by rewrite Ex.
  - destruct (slot_at (proc s) i) eqn:Ex; [|done]. apply slot_at_ge in Ex. lia.
Qed.

Lemma fd_file_used p i f : fd_file p i = Some f -> exists x, slot_at p i = Some x /\ file x = Some f.
Proof. unfold fd_file. destruct (slot_at p i) as [x|]; [|done]. intros H. by exists x. Qed.

Lemma fd_file_count ext s i f : refs_ok ext s -> fd_file (proc s) i = Some f ->
  0 < slots_of f (fd (proc s)).
Proof.
  intros R (x & E & F)%fd_file_used. pose proof (slot_at_ge _ _ _ E).
  rewrite slot_at_nat in E by lia. by eapply slots_of_pos.
Qed.

Definition grown (p : proc_t) (n : Z) : proc_t :=
  mk_proc n (fdfirst p) (fd p ++ replicate (Z.to_nat n - length (fd p)) (mk_fd None 0)).

Lemma growtable_run s n ok :
  table_ok (proc s) -> fdcount (proc s) < n <= FDTABLE_LIMIT ->
  growtable ok n s = if ok then Some (0, with_proc (grown (proc s) n) s) else Some (ENOMEM, s).
Proof.
  intros [C L F B] H. unfold growtable, FDTABLE_LIMIT in *.
  destruct (Z.gtb_spec n 256); [lia|]. rewrite bindS_get.
  rewrite u64_id by (unfold is_u64; lia).
  destruct (Z.gtb_spec n (fdcount (proc s))); [|lia]. by destruct ok.
Qed.

Lemma growtable_limit s n ok : n > FDTABLE_LIMIT -> growtable ok n s = Some (EMFILE, s).
Proof. intros H. unfold growtable. destruct (Z.gtb_spec n FDTABLE_LIMIT); [done|lia]. Qed.

Lemma slot_at_grown p n i :
  table_ok p -> i < fdcount p -> slot_at (grown p n) i = slot_at p i.
Proof.
  intros [C _ _ _] H. unfold slot_at, grown. simpl. case_match; [|done].
  rewrite lookup_app_l; [done|lia].
Qed.

Lemma slot_at_fresh p n i :
  table_ok p -> fdcount p <= i < n -> slot_at (grown p n) i = Some (mk_fd None 0).
Proof.
  intros [C _ _ _] H. rewrite slot_at_nat by lia. unfold grown. simpl.
  rewrite lookup_app_r by lia. apply lookup_replicate_2. lia.
Qed.

Lemma grown_table p n : table_ok p -> fdcount p < n <= FDTABLE_LIMIT -> table_ok (grown p n).
Proof.
  intros T H. destruct (T) as [C L F B]. split; simpl.
  - rewrite length_app, length_replicate. lia.
  - lia.
  - lia.
  - intros i Hi. destruct (B i Hi) as (x & f & E & X). exists x, f. split; [|done].
    rewrite slot_at_grown; [done|done|lia].
Qed.

Lemma grown_refs ext s n : refs_ok ext s -> refs_ok ext (with_proc (grown (proc s) n) s).
Proof. intros R f. specialize (R f). simpl. by rewrite slots_of_app. Qed.

Lemma slot_at_put s i x y j :
  slot_at (proc s) i = Some y ->
  slot_at (proc (put_slot i x s)) j = if decide (j = i) then Some x else slot_at (proc s) j.
Proof.
  intros E. pose proof (slot_at_ge _ _ _ E). unfold slot_at, put_slot. simpl.
  destruct (decide (j = i)) as [->|N].
  - rewrite (proj2 (Z.leb_le 0 i)) by lia. rewrite list_lookup_insert_eq; [done|lia].
  - case_match; [|done]. rewrite list_lookup_insert_ne; [done|lia].
Qed.

(** ** Descriptor operations *)

Lemma fd_get_ok ext s i :
  fd_wf ext s -> is_int i -> (forall f, fd_file (proc s) i = Some f -> ext f < 2 ^ 30) ->
  exists s', fd_get i s = Some (fd_file (proc s) i, s') /\ proc s' = proc s /\
    fd_wf (bump_opt (fd_file (proc s) i) 1 ext) s'.
Proof.
  intros (T & R & B) Hi Lim. unfold fd_get.
  rewrite (bindS_run _ _ s (fd_file (proc s) i) s) by by apply lookup_fd_run.
  destruct (fd_file (proc s) i) as [f|] eqn:F; simpl; [|by exists s].
  pose proof (fd_file_count _ _ _ _ R F) as P.
  pose proof (slots_of_bound f (fd (proc s))). destruct (T) as [C L _ _]. unfold FDTABLE_LIMIT in L.
  destruct (refs_live ext s f R) as [x X]; [specialize (B f); lia|].
  destruct (FILE_HOLD_ok ext s f x R X) as (s' & Hd & Ep & _ & R'); [specialize (B f); lia|].
  exists s'. rewrite (bindS_run _ _ _ _ _ Hd). split; [done|]. split; [done|].
  unfold fd_wf. rewrite Ep. split; [done|]. split; [done|].
  intros g. unfold bump. specialize (B g). specialize (Lim f eq_refl). case_decide; subst; lia.
Qed.

Lemma fd_release_ok ext s f :
  fd_wf ext s -> 0 < ext f ->
  exists s', fd_release f s = Some (tt, s') /\ proc s' = proc s /\ fd_wf (bump f (-1) ext) s'.
Proof.
  intros (T & R & B) P. destruct (refs_live ext s f R) as [x X].
  { pose proof (slots_of_bound f (fd (proc s))). lia. }
  destruct (FILE_RELEASE_ok ext s f x R X) as (s' & H & Ep & R').
  exists s'. split; [done|]. split; [done|]. unfold fd_wf. rewrite Ep. split; [done|]. split; [done|].
  intros g. unfold bump. specialize (B g). case_decide; subst; lia.
Qed.

(** The state after a file is installed in slot [i] (which is free) and held. *)
Lemma install_ok ext s i f flg y :
  table_ok (proc s) -> refs_ok ext s -> (forall f, 0 <= ext f <= 2 ^ 30) ->
  slot_at (proc s) i = Some y -> file y = None -> 0 < slots_of f (fd (proc s)) + ext f ->
  exists s', (set_slot i (mk_fd (Some f) flg);; FILE_HOLD f;; mret (0, Some i)) s
               = Some ((0, Some i), s') /\
    proc s' = proc (put_slot i (mk_fd (Some f) flg) s) /\ closed s' = closed s /\ fd_wf ext s'.
Proof.
  intros T R B E F P. rewrite (bindS_run _ _ _ _ _ (set_slot_run s i (mk_fd (Some f) flg) y E)).
  pose proof (put_slot_table s i f flg y T E) as T'.
  pose proof (put_slot_refs ext s i (mk_fd (Some f) flg) y R E) as R'. rewrite F in R'. simpl in R'.
  destruct (refs_live ext s f R P) as [x X].
  pose proof (slots_of_bound f (fd (proc (put_slot i (mk_fd (Some f) flg) s)))) as SB.
  destruct (T') as [C L _ _]. unfold FDTABLE_LIMIT in L.
  destruct (FILE_HOLD_ok _ _ f x R' X) as (s' & H & Ep & Ec & R'').
  { unfold bump. rewrite decide_True by done. specialize (B f). lia. }
  exists s'. rewrite (bindS_run _ _ _ _ _ H). split; [done|]. split; [done|]. split; [done|].
  unfold fd_wf. rewrite Ep. split; [done|]. split; [|done].
  eapply refs_ok_proper; [|reflexivity|exact R'']. intros g. unfold bump. case_decide; lia.
Qed.

(** Installing a fresh file below which all descriptors are used. *)
Definition first_put (i : Z) (x : fd_t) (s : state) : state :=
  put_slot i x (with_proc (mk_proc (fdcount (proc s)) (i + 1) (fd (proc s))) s).

Lemma fd_file_put s i f flg y j :
  slot_at (proc s) i = Some y ->
  fd_file (proc (put_slot i (mk_fd (Some f) flg) s)) j
  = if decide (j = i) then Some f else fd_file (proc s) j.
Proof. intros E. unfold fd_file. rewrite (slot_at_put _ _ _ _ _ E). by case_decide. Qed.

Lemma first_put_wf ext s i f flg y :
  table_ok (proc s) -> refs_ok (bump f 1 ext) s -> (forall f, 0 <= ext f <= 2 ^ 30) ->
  slot_at (proc s) i = Some y -> file y = None -> (forall j, 0 <= j < i -> used (proc s) j) ->
  fd_wf ext (first_put i (mk_fd (Some f) flg) s).
Proof.
  intros [C L F B] R Be E Fy U. pose proof (slot_at_ge _ _ _ E) as Hi.
  split; [|split; [|done]].
  - split.
    + simpl. by rewrite length_insert.
    + done.
    + simpl. lia.
    + intros j Hj. simpl in Hj. unfold used, first_put.
      rewrite (slot_at_put (with_proc (mk_proc (fdcount (proc s)) (i + 1) (fd (proc s))) s) i _ y j E).
      case_decide; [by eexists _, f|]. apply U. lia.
  - pose proof (put_slot_refs _ (with_proc (mk_proc (fdcount (proc s)) (i + 1) (fd (proc s))) s)
      i (mk_fd (Some f) flg) y R E) as R'. rewrite Fy in R'. simpl in R'.
    eapply refs_ok_proper; [|reflexivity|exact R']. intros g. unfold bump. case_decide; lia.
Qed.

(** A free file object and its first reference. *)
Lemma store_fresh_refs ext s f stale :
  refs_ok ext s -> files s !! f = None ->
  refs_ok (bump f 1 ext) (with_files (<[f := ctor stale]> (files s)) s).
Proof.
  intros R E g. pose proof (R f) as Rf. rewrite E in Rf. specialize (R g). simpl. unfold bump.
  destruct (decide (g = f)) as [->|N].
  - rewrite lookup_insert_eq. simpl. lia.
  - by rewrite lookup_insert_ne.
Qed.

Lemma cleanfile_fresh s f stale :
  files s !! f = None ->
  cleanfile f (with_files (<[f := ctor stale]> (files s)) s) = Some (tt, s).
Proof.
  intros E. unfold cleanfile, load_file, mbind, stM_bind, liftS. simpl.
  rewrite lookup_insert_eq. unfold modifyS. simpl. rewrite delete_insert_id by done. by destruct s.
Qed.

Lemma all_used p : table_ok p -> (forall j, fdfirst p <= j < fdcount p -> used p j) ->
  forall j, 0 <= j < fdcount p -> used p j.
Proof. intros [C L F B] U j Hj. destruct (decide (j < fdfirst p)); [apply B|apply U]; lia. Qed.

Definition fd_new_post (s : state) (f : nat) (ok : bool) (r : Z * option (nat * Z)) (s' : state) : Prop :=
  match r with
  | (e, Some (f', i)) =>
      e = 0 /\ f' = f /\ 0 <= i < FDTABLE_LIMIT /\
      (forall j, 0 <= j < i -> used (proc s) j) /\ fd_file (proc s) i = None /\
      (forall j, fd_file (proc s') j = if decide (j = i) then Some f else fd_file (proc s) j)
  | (e, None) =>
      s' = s /\ (forall j, 0 <= j < fdcount (proc s) -> used (proc s) j) /\
      (e = EMFILE /\ fdcount (proc s) = FDTABLE_LIMIT \/ e = ENOMEM /\ ok = false)
  end.

Lemma fd_new_found ext s1 s f ok i flg y :
  table_ok (proc s) -> proc s1 = proc s -> refs_ok (bump f 1 ext) s1 -> (forall f, 0 <= ext f <= 2 ^ 30) ->
  slot_at (proc s) i = Some y -> file y = None -> (forall j, 0 <= j < i -> used (proc s) j) ->
  exists s', (set_fdfirst (i + 1);; set_slot i (mk_fd (Some f) flg);; mret (0, Some (f, i))) s1
               = Some ((0, Some (f, i)), s') /\
    fd_wf ext s' /\ fd_new_post s f ok (0, Some (f, i)) s'.
Proof.
  intros T Ep R B E F U. exists (first_put i (mk_fd (Some f) flg) s1).
  destruct (T) as [C L _ _]. pose proof (slot_at_ge _ _ _ E).
  split; [|split].
  - rewrite (bindS_run (set_fdfirst (i + 1)) _ s1 tt
      (with_proc (mk_proc (fdcount (proc s1)) (i + 1) (fd (proc s1))) s1)) by done.
    erewrite bindS_run; [|apply set_slot_run with y; simpl; rewrite Ep; exact E]. done.
  - apply first_put_wf with y; rewrite ?Ep; done.
  - split; [done|]. split; [done|]. split; [lia|]. split; [done|].
    split; [unfold fd_file; by rewrite E|].
    intros j. unfold first_put. rewrite fd_file_put with (y := y); simpl; rewrite Ep; done.
Qed.

Lemma fd_file_grown p n i :
  table_ok p -> fdcount p < n -> fd_file (grown p n) i = fd_file p i.
Proof.
  intros T H. destruct (T) as [C _ _ _]. unfold fd_file.
  destruct (decide (i < fdcount p)); [by rewrite slot_at_grown|].
  destruct (slot_at p i) eqn:E; [apply slot_at_ge in E; lia|].
  destruct (slot_at (grown p n) i) as [x|] eqn:G; [|done].
  pose proof (slot_at_ge _ _ _ G) as Hi. unfold grown in Hi. simpl in Hi.
  rewrite length_app, length_replicate in Hi.
  rewrite slot_at_fresh in G by (done || lia). by inversion G.
Qed.

Lemma used_grown p n i : table_ok p -> fdcount p < n -> used p i -> used (grown p n) i.
Proof.
  intros T H (x & f & E & F). exists x, f. split; [|done]. destruct (T) as [C _ _ _].
  rewrite slot_at_grown; [done|done|]. apply slot_at_ge in E. lia.
Qed.

Lemma fd_new_ok ext s f stale ok flg :
  fd_wf ext s -> files s !! f = None ->
  exists r s', fd_new (Some (f, stale)) ok flg s = Some (r, s') /\ fd_wf ext s' /\
    fd_new_post s f ok r s'.
Proof.
  intros (T & R & B) E. unfold fd_new, store_file.
  set (s1 := with_files (<[f := ctor stale]> (files s)) s).
  rewrite (bindS_run _ _ s tt s1) by done. rewrite bindS_get.
  pose proof (store_fresh_refs ext s f stale R E) as R1. fold s1 in R1.
  destruct (T) as [C L F Bl]. change (proc s1) with (proc s).
  pose proof L as L'. unfold FDTABLE_LIMIT in L'.
  rewrite (s32_small (fdfirst (proc s))), (s32_small (fdcount (proc s))) by lia.
  destruct (getfree_spec (proc s) (fdfirst (proc s)) T) as [(G & U)|(i & y & G & Hi & Y & Fy & U)]; [lia|..].
  - rewrite (bindS_run _ _ s1 (-1) s1) by (unfold liftS; by rewrite G).
    rewrite Z.eqb_refl.
    pose proof (all_used _ T U) as U'.
    destruct (decide (fdcount (proc s) + 1 <= FDTABLE_LIMIT)) as [Lim|Lim].
    + pose proof (growtable_run s1 (fdcount (proc s) + 1) ok T ltac:(simpl; lia)) as Gr.
      destruct ok; (erewrite bindS_run; [|erewrite bindS_run; [|exact Gr]; reflexivity]).
      * set (s2 := with_proc (grown (proc s) (fdcount (proc s) + 1)) s1).
        destruct (fd_new_found ext s2 s2 f true (fdcount (proc s)) flg (mk_fd None 0)) as (s' & Q & W & P);
          simpl; try done.
        -- apply grown_table; [done|lia].
        -- by apply (grown_refs _ s1).
        -- apply slot_at_fresh; [done|lia].
        -- intros j Hj. apply used_grown; [done|lia|auto].
        -- eexists _, s'. split; [exact Q|]. split; [done|].
           destruct P as (_ & _ & Hb & _ & N & Sl). split_and!; try done; try lia; simpl in *.
           ++ by rewrite fd_file_grown in N by (done || lia).
           ++ intros j. rewrite Sl, fd_file_grown; [done|done|lia].
      * eexists _, s. split; [cbn [Z.eqb negb ENOMEM EMFILE]; subst s1; by rewrite (bindS_run _ _ _ _ _ (cleanfile_fresh s f stale E))|].
        split; [done|]. split; [done|]. split; [done|]. by right.
    + erewrite bindS_run; [|erewrite bindS_run; [|apply growtable_limit; lia]; reflexivity].
      eexists _, s. split; [cbn [Z.eqb negb ENOMEM EMFILE]; subst s1; by rewrite (bindS_run _ _ _ _ _ (cleanfile_fresh s f stale E))|].
      split; [done|]. split; [done|]. split; [done|]. left. lia.
  - rewrite (bindS_run _ _ s1 i s1) by (unfold liftS; by rewrite G).
    rewrite (proj2 (Z.eqb_neq i (-1))) by lia.
    destruct (fd_new_found ext s1 s f ok i flg y T eq_refl R1 B Y Fy) as (s' & Q & W & P).
    { intros j Hj. destruct (decide (j < fdfirst (proc s))); [apply Bl|apply U]; lia. }
    eexists _, s'. split; [exact Q|]. done.
Qed.

(** The state after slot [i] is cleared by [fd_close]. *)
Definition clear_slot (i : Z) (y : fd_t) (s : state) : state :=
  with_proc (mk_proc (fdcount (proc s)) (if fdfirst (proc s) >? i then i else fdfirst (proc s))
               (<[Z.to_nat i := mk_fd None (flags y)]> (fd (proc s)))) s.

Lemma clear_slot_at s i y j :
  slot_at (proc s) i = Some y ->
  slot_at (proc (clear_slot i y s)) j
  = if decide (j = i) then Some (mk_fd None (flags y)) else slot_at (proc s) j.
Proof. exact (slot_at_put s i (mk_fd None (flags y)) y j). Qed.

Lemma clear_slot_table s i y :
  table_ok (proc s) -> slot_at (proc s) i = Some y -> table_ok (proc (clear_slot i y s)).
Proof.
  intros [C L F B] E. pose proof (slot_at_ge _ _ _ E). split.
  - simpl. by rewrite length_insert.
  - done.
  - simpl. case_match; lia.
  - intros j Hj. unfold used. simpl in Hj. rewrite (clear_slot_at s i y j E).
    destruct (Z.gtb_spec (fdfirst (proc s)) i); rewrite decide_False by lia; apply B; lia.
Qed.

Lemma clear_slot_refs ext s i y f :
  refs_ok ext s -> slot_at (proc s) i = Some y -> file y = Some f ->
  refs_ok (bump f 1 ext) (clear_slot i y s).
Proof.
  intros R E F. pose proof (put_slot_refs ext s i (mk_fd None (flags y)) y R E) as R'.
  by rewrite F in R'.
Qed.

Lemma fd_close_run s i y f x :
  table_ok (proc s) -> is_int i -> slot_at (proc s) i = Some y -> file y = Some f ->
  files s !! f = Some x -> 0 < refcount x < 2 ^ 31 ->
  fd_close i s = Some (0, after_release (clear_slot i y s) f x).
Proof.
  intros T Hi E F X Rx. unfold fd_close. pose proof (slot_at_ge _ _ _ E) as Hb.
  destruct (T) as [C L _ _]. unfold FDTABLE_LIMIT in L.
  rewrite (bindS_run _ _ s (fd_file (proc s) i) s) by by apply lookup_fd_run.
  unfold fd_file at 1. rewrite E. simpl. rewrite F. rewrite bindS_get.
  rewrite (bindS_run _ _ s y s) by (unfold liftS; by rewrite E).
  erewrite bindS_run; [|by apply set_slot_run with y].
  rewrite u64_id by (unfold is_u64; lia).
  rewrite (bindS_run _ _ _ tt (clear_slot i y s)).
  - erewrite bindS_run; [|by apply FILE_RELEASE_run]. done.
  - unfold clear_slot, set_fdfirst. by case_match.
Qed.

Lemma fd_close_bad s i :
  table_ok (proc s) -> is_int i -> fd_file (proc s) i = None -> fd_close i s = Some (EBADF, s).
Proof.
  intros T Hi E. unfold fd_close.
  rewrite (bindS_run _ _ s None s) by (rewrite lookup_fd_run by done; by rewrite E). done.
Qed.

Lemma fd_close_ok ext s i :
  fd_wf ext s -> is_int i -> exists r s', fd_close i s = Some (r, s') /\ fd_wf ext s'.
Proof.
  intros (T & R & B) Hi. destruct (fd_file (proc s) i) as [f|] eqn:F.
  2: { exists EBADF, s. by rewrite fd_close_bad. }
  destruct (fd_file_used _ _ _ F) as (y & E & Fy).
  pose proof (fd_file_count _ _ _ _ R F).
  destruct (refs_live ext s f R) as [x X]; [specialize (B f); lia|].
  pose proof (R f) as Rf. rewrite X in Rf.
  eexists _, _. split; [eapply fd_close_run; eauto; lia|].
  split; [|split; [|done]].
  - rewrite after_release_proc. by apply clear_slot_table.
  - eapply refs_ok_proper; [|reflexivity|eapply after_release_refs; [by eapply clear_slot_refs|done]].
    intros g. unfold bump. case_decide; lia.
Qed.

(** ** Duplication *)

Lemma here_refl f : here f (Some f) = 1.
Proof. unfold here. by rewrite decide_True. Qed.

Lemma here_none f : here f None = 0.
Proof. unfold here. by rewrite decide_False. Qed.

Lemma here_bound f o : 0 <= here f o <= 1.
Proof. unfold here. case_decide; lia. Qed.

Lemma grow_ok ext s n ok :
  fd_wf ext s -> fdcount (proc s) < n ->
  exists e s', growtable ok n s = Some (e, s') /\ fd_wf ext s' /\
    (forall i, fd_file (proc s') i = fd_file (proc s) i) /\
    (e = 0 -> proc s' = grown (proc s) n) /\ (e <> 0 -> s' = s) /\
    (forall f, slots_of f (fd (proc s')) = slots_of f (fd (proc s))).
Proof.
  intros (T & R & B) H. destruct (decide (n <= FDTABLE_LIMIT)).
  - pose proof (growtable_run s n ok T ltac:(lia)) as G.
    destruct ok; eexists _, _; (split; [exact G|]).
    + split; [split; [apply grown_table; [done|lia]|split; [by apply grown_refs|done]]|].
      split; [intros i; by apply fd_file_grown|]. split; [done|]. split; [done|].
      intros f. apply slots_of_app.
    + done.
  - eexists _, _. split; [apply growtable_limit; lia|]. done.
Qed.

(** Replacing slot [i], whose file is another slot's or different, by [f]. *)
Lemma replace_ok ext s i f flg y :
  fd_wf ext s -> slot_at (proc s) i = Some y -> 0 < slots_of f (fd (proc s)) - here f (file y) ->
  exists s',
    (match file y with Some g => FILE_RELEASE g | None => mret tt end;;
     set_slot i (mk_fd (Some f) flg);; FILE_HOLD f;; mret (0, Some i)) s = Some ((0, Some i), s') /\
    proc s' = proc (put_slot i (mk_fd (Some f) flg) s) /\ fd_wf ext s'.
Proof.
  intros (T & R & B) E P.
  assert (exists s1, (match file y with Some g => FILE_RELEASE g | None => mret tt end) s = Some (tt, s1) /\
            proc s1 = proc s /\ refs_ok (bump_opt (file y) (-1) ext) s1) as (s1 & H1 & Ep & R1).
  { destruct (file y) as [g|] eqn:G; [|by exists s].
    destruct (refs_live ext s g R) as [x X]; [|by apply FILE_RELEASE_ok with x].
    pose proof (slot_at_ge _ _ _ E). rewrite slot_at_nat in E by lia.
    pose proof (slots_of_pos g _ _ _ E G). specialize (B g). lia. }
  rewrite (bindS_run _ _ _ _ _ H1).
  pose proof (put_slot_refs _ s1 i (mk_fd (Some f) flg) y R1 ltac:(by rewrite Ep)) as R2.
  erewrite bindS_run; [|apply set_slot_run with y; by rewrite Ep].
  assert (Proc2 : proc (put_slot i (mk_fd (Some f) flg) s1) = proc (put_slot i (mk_fd (Some f) flg) s)).
  { unfold put_slot. simpl. by rewrite Ep. }
  assert (refs_ok (bump f (-1) ext) (put_slot i (mk_fd (Some f) flg) s1)) as R3.
  { eapply refs_ok_proper; [|reflexivity|exact R2]. intros g. unfold bump_opt, bump. simpl.
    destruct (file y); repeat case_decide; lia. }
  pose proof (put_slot_table s i f flg y T E) as T2.
  assert (0 < slots_of f (fd (proc (put_slot i (mk_fd (Some f) flg) s1))) - 1 <= 256) as Cnt.
  { rewrite Proc2. simpl. pose proof (slot_at_ge _ _ _ E) as Hi. rewrite slot_at_nat in E by lia.
    rewrite (slots_of_insert f _ _ _ _ E). simpl. rewrite here_refl.
    destruct (T) as [C L _ _]. unfold FDTABLE_LIMIT in L.
    pose proof (slots_of_bound f (fd (proc s))). pose proof (here_bound f (file y)). lia. }
  destruct (refs_live _ _ f R3) as [x X].
  { unfold bump. rewrite decide_True by done. specialize (B f). lia. }
  destruct (FILE_HOLD_ok _ _ f x R3 X) as (s' & H & Ep' & _ & R4).
  { unfold bump. rewrite decide_True by done. specialize (B f). lia. }
  exists s'. rewrite (bindS_run _ _ _ _ _ H). split; [done|]. rewrite Ep', Proc2. split; [done|].
  split; [by rewrite Ep', Proc2|]. split; [|done].
  eapply refs_ok_proper; [|reflexivity|exact R4]. intros g. unfold bump. case_decide; lia.
Qed.

(** What a duplication leaves: on success descriptor [n] is another name of the
    old one's file and the others keep theirs; on an error nothing changes. *)
Definition dup_post (s : state) (oldfd : Z) (r : Z * option Z) (s' : state) : Prop :=
  match r with
  | (e, Some n) =>
      e = 0 /\ 0 <= n < FDTABLE_LIMIT /\ exists f, fd_file (proc s) oldfd = Some f /\
        forall j, fd_file (proc s') j = if decide (j = n) then Some f else fd_file (proc s) j
  | (e, None) => e <> 0 /\ s' = s
  end.

Lemma slots_of_other f l i y j x :
  l !! i = Some y -> l !! j = Some x -> file x = Some f -> i <> j -> 0 < slots_of f l - here f (file y).
Proof.
  intros Hi Hj F N. pose proof (slots_of_insert f l i y (mk_fd None 0) Hi) as Q.
  assert (0 < slots_of f (<[i:=mk_fd None 0]> l)).
  { eapply slots_of_pos with (i := j); [by rewrite list_lookup_insert_ne|done]. }
  simpl in Q. rewrite here_none in Q. lia.
Qed.

Lemma fd_dup_bad s ok oldfd newfd exact flg :
  table_ok (proc s) -> is_int oldfd ->
  newfd < 0 \/ newfd >= FDTABLE_LIMIT \/ fd_file (proc s) oldfd = None ->
  fd_dup ok oldfd newfd exact flg s = Some ((EBADF, None), s).
Proof.
  intros T Ho H. unfold fd_dup.
  destruct ((newfd <? 0) || (newfd >=? FDTABLE_LIMIT)) eqn:E; [done|].
  destruct H as [?|[?|H]]; [lia|lia|].
  rewrite (bindS_run _ _ s None s) by (rewrite lookup_fd_run by done; by rewrite H). done.
Qed.

Lemma dup_slot_file s s' i f flg y :
  slot_at (proc s) i = Some y -> proc s' = proc (put_slot i (mk_fd (Some f) flg) s) ->
  forall j, fd_file (proc s') j = if decide (j = i) then Some f else fd_file (proc s) j.
Proof. intros E Ep j. rewrite Ep. by apply fd_file_put with y. Qed.

Lemma fd_dup_exact_ok ext s ok oldfd newfd flg :
  fd_wf ext s -> is_int oldfd -> is_int newfd -> oldfd <> newfd ->
  exists r s', fd_dup ok oldfd newfd true flg s = Some (r, s') /\ fd_wf ext s' /\ dup_post s oldfd r s' /\ (forall n, r.2 = Some n -> n = newfd).
Proof.
  intros W Ho Hn Ne. destruct (W) as (T & R & B).
  destruct (decide (newfd < 0 \/ newfd >= FDTABLE_LIMIT \/ fd_file (proc s) oldfd = None)) as [Bad|Good].
  { exists (EBADF, None), s. rewrite fd_dup_bad by done. done. }
  destruct (fd_file (proc s) oldfd) as [f|] eqn:F; [|exfalso; apply Good; auto].
  assert (0 <= newfd < FDTABLE_LIMIT) as Hr by (unfold is_int in Hn; lia). clear Good.
  unfold fd_dup. rewrite (proj2 (orb_false_iff _ _)) by lia.
  rewrite (bindS_run _ _ s (Some f) s) by (rewrite lookup_fd_run by done; by rewrite F).
  rewrite bindS_get. unfold FDTABLE_LIMIT in Hr. rewrite u64_id by (unfold is_u64; lia).
  assert (exists e s1, (if newfd >=? fdcount (proc s) then growtable ok (newfd + 1) else mret 0) s
            = Some (e, s1) /\ fd_wf ext s1 /\ (forall i, fd_file (proc s1) i = fd_file (proc s) i) /\
            (e = 0 -> exists y, slot_at (proc s1) newfd = Some y) /\ (e <> 0 -> s1 = s))
    as (e & s1 & H1 & W1 & F1 & S1 & E1).
  { destruct (T) as [C _ _ _]. destruct (Z.geb_spec newfd (fdcount (proc s))).
    - destruct (grow_ok ext s (newfd + 1) ok W) as (e & s1 & H1 & W1 & F1 & P1 & E1 & _); [lia|].
      exists e, s1. split_and!; try done. intros Z0. rewrite (P1 Z0). eexists. apply slot_at_fresh; [done|lia].
    - exists 0, s. split_and!; try done. intros _. apply slot_at_lt. lia. }
  rewrite (bindS_run _ _ _ _ _ H1). destruct (Z.eqb_spec e 0) as [->|Ee]; cbn [negb].
  2: { exists (e, None), s1. rewrite (E1 Ee). done. }
  destruct (S1 eq_refl) as [y Y]. rewrite bindS_get.
  rewrite (bindS_run _ _ s1 y s1) by (unfold liftS; by rewrite Y).
  rewrite <- (F1 oldfd) in F. destruct (fd_file_used _ _ _ F) as (x & X & Fx).
  destruct (replace_ok ext s1 newfd f flg y W1 Y) as (s' & H & Ep & W').
  { pose proof (slot_at_ge _ _ _ X). pose proof (slot_at_ge _ _ _ Y).
    rewrite slot_at_nat in X, Y by lia. eapply slots_of_other; [exact Y|exact X|done|lia]. }
  exists (0, Some newfd), s'. split; [exact H|]. split; [done|].
  split; [|intros n Q; simpl in Q; congruence]. split; [done|]. split; [unfold FDTABLE_LIMIT; lia|].
  exists f. split; [by rewrite <- F1|]. intros j. rewrite (dup_slot_file _ _ _ _ _ _ Y Ep), F1. done.
Qed.

Lemma fd_dup_any_ok ext s ok oldfd newfd flg :
  fd_wf ext s -> is_int oldfd -> newfd < fdcount (proc s) \/ newfd >= FDTABLE_LIMIT ->
  exists r s', fd_dup ok oldfd newfd false flg s = Some (r, s') /\ fd_wf ext s' /\
    dup_post s oldfd r s' /\
    (forall n, r.2 = Some n ->
       newfd <= n /\ fd_file (proc s) n = None /\ forall j, newfd <= j < n -> used (proc s) j).
Proof.
  intros W Ho Lt. destruct (W) as (T & R & B). destruct (T) as [C L _ _].
  destruct (decide (newfd < 0 \/ newfd >= FDTABLE_LIMIT \/ fd_file (proc s) oldfd = None)) as [Bad|Good].
  { exists (EBADF, None), s. rewrite fd_dup_bad by done. done. }
  destruct (fd_file (proc s) oldfd) as [f|] eqn:F; [|exfalso; apply Good; auto].
  assert (0 <= newfd < FDTABLE_LIMIT) as Hr by lia. clear Good.
  unfold fd_dup. rewrite (proj2 (orb_false_iff _ _)) by lia.
  rewrite (bindS_run _ _ s (Some f) s) by (rewrite lookup_fd_run by done; by rewrite F).
  rewrite bindS_get. pose proof Hr as Hr'. unfold FDTABLE_LIMIT in Hr'.
  rewrite u64_id by (unfold is_u64; lia). rewrite (proj2 (Z.ltb_lt newfd _)) by lia.
  pose proof (fd_file_count _ _ _ _ R F) as P. pose proof (B f) as Bf.
  destruct (getfree_spec (proc s) newfd T) as [(G & U)|(i & y & G & Hi & Y & Fy & U)]; [lia|..].
  - rewrite (bindS_run _ _ s (-1) s) by (unfold liftS; by rewrite G). rewrite Z.eqb_refl.
    cbv zeta. unfold FDTABLE_LIMIT in L. rewrite !s32_small by lia.
    destruct (grow_ok ext s (fdcount (proc s) + 1) ok W)
      as (e & s1 & H1 & W1 & F1 & P1 & E1 & C1); [lia|].
    erewrite bindS_run; [|erewrite bindS_run; [|exact H1]; reflexivity]. cbv beta iota.
    destruct (Z.eqb_spec e 0) as [->|Ee]; cbn [negb].
    2: { exists (e, None), s1. rewrite (E1 Ee). done. }
    replace (fdcount (proc s) + 1 - 1) with (fdcount (proc s)) by lia.
    assert (slot_at (proc s1) (fdcount (proc s)) = Some (mk_fd None 0)) as Y.
    { rewrite (P1 eq_refl). apply slot_at_fresh; [done|lia]. }
    destruct W1 as (T1 & R1 & _).
    destruct (install_ok ext s1 (fdcount (proc s)) f flg _ T1 R1 B Y eq_refl) as (s' & H & Ep & _ & W');
      [rewrite C1; lia|].
    exists (0, Some (fdcount (proc s))), s'. split; [exact H|]. split; [done|]. split.
    + destruct (T1) as [_ L1 _ _]. rewrite (P1 eq_refl) in L1. simpl in L1.
      split; [done|]. split; [lia|]. exists f. split; [done|].
      intros j. rewrite (dup_slot_file _ _ _ _ _ _ Y Ep), F1. done.
    + intros n [= <-]. split; [lia|]. split; [|done]. rewrite <- F1. unfold fd_file. by rewrite Y.
  - rewrite (bindS_run _ _ s i s) by (unfold liftS; by rewrite G).
    rewrite (proj2 (Z.eqb_neq i (-1))) by lia.
    destruct (install_ok ext s i f flg y T R B Y Fy) as (s' & H & Ep & _ & W'); [lia|].
    exists (0, Some i), s'. split; [exact H|]. split; [done|]. split.
    + split; [done|]. split; [lia|]. exists f. split; [done|]. by eapply dup_slot_file.
    + intros n [= <-]. split; [lia|]. split; [unfold fd_file; by rewrite Y|done].
Qed.

(** ** [fcntl] *)

Lemma fd_setflags_ok ext s i f flg :
  fd_wf ext s -> fd_file (proc s) i = Some f ->
  exists s', fd_setflags i flg s = Some (0, s') /\ fd_wf ext s'.
Proof.
  intros (T & R & B) (y & Y & Fy)%fd_file_used. unfold fd_setflags. rewrite bindS_get.
  rewrite (bindS_run _ _ s y s) by (unfold liftS; by rewrite Y). rewrite Fy.
  erewrite bindS_run; [|by apply set_slot_run with y]. eexists. split; [reflexivity|].
  split; [by apply put_slot_table with y|]. split; [|done].
  pose proof (put_slot_refs ext s i (mk_fd (Some f) flg) y R Y) as R'. rewrite Fy in R'. simpl in R'.
  eapply refs_ok_proper; [|reflexivity|exact R']. intros g. unfold bump. case_decide; lia.
Qed.

Lemma store_same_refs ext s f x x' :
  refs_ok ext s -> files s !! f = Some x -> refcount x' = refcount x ->
  refs_ok ext (with_files (<[f := x']> (files s)) s).
Proof.
  intros R X E g. pose proof (R f) as Rf. rewrite X in Rf. specialize (R g). simpl.
  destruct (decide (g = f)) as [->|N]; [|by rewrite lookup_insert_ne].
  rewrite lookup_insert_eq, E. done.
Qed.

Lemma fd_live ext s i f : fd_wf ext s -> fd_file (proc s) i = Some f -> exists x, files s !! f = Some x.
Proof.
  intros (T & R & B) F. apply (refs_live ext s f R).
  pose proof (fd_file_count _ _ _ _ R F). specialize (B f). lia.
Qed.

(** [fcntl] between its [fd_get] and its [fd_release]. *)
Definition fcntl_ready (p : proc_t) (cmd arg : Z) : Prop :=
  cmd = F_DUPFD -> s32 arg < fdcount p \/ s32 arg >= FDTABLE_LIMIT.

Lemma fcntl_finish ext s f (p : Z * Z) :
  (forall g, 0 <= ext g <= 2 ^ 30) -> fd_wf (bump f 1 ext) s ->
  exists r s', (FILE_RELEASE f;; mret (if negb (p.2 =? 0) then -1 else p.1, p.2)) s
    = Some (r, s') /\ fd_wf ext s'.
Proof.
  intros B W. specialize (B f) as Bf.
  destruct (fd_release_ok _ s f W) as (s3 & H & _ & T3 & R3 & B3).
  { unfold bump. rewrite decide_True by done. lia. }
  eexists _, s3. unfold fd_release in H. rewrite (bindS_run _ _ _ _ _ H). split; [reflexivity|].
  split; [done|]. split; [|done].
  eapply refs_ok_proper; [|reflexivity|exact R3]. intros g. unfold bump. case_decide; lia.
Qed.

Lemma fcntl_ok ext s ok garbage i cmd arg :
  fd_wf ext s -> is_int i -> (forall f, fd_file (proc s) i = Some f -> ext f < 2 ^ 30) ->
  fcntl_ready (proc s) cmd arg ->
  exists r s', syscall_fcntl ok garbage i cmd arg s = Some (r, s') /\ fd_wf ext s'.
Proof.
  intros W Hi Lim Rdy. unfold syscall_fcntl.
  destruct (fd_get_ok ext s i W Hi Lim) as (s1 & G & Ep & W1).
  rewrite (bindS_run _ _ _ _ _ G).
  destruct (fd_file (proc s) i) as [f|] eqn:F; [|by eexists _, s1].
  rewrite <- Ep in F, Rdy. simpl in W1. destruct (W) as (_ & _ & B).
  destruct (fd_live _ _ _ _ W1 F) as [x X].
  assert (Ld : load_file f s1 = Some (x, s1)) by (unfold load_file; rewrite bindS_get; unfold liftS; by rewrite X).
  destruct (cmd =? F_DUPFD) eqn:D.
  { destruct (fd_dup_any_ok _ s1 ok i (s32 arg) 0 W1 Hi) as (r & s2 & H2 & W2 & _); [apply Rdy; lia|].
    erewrite bindS_run; [|erewrite bindS_run; [|exact H2]; reflexivity].
    by apply (fcntl_finish ext s2 f (_, 0)). }
  destruct (cmd =? F_GETFL).
  { erewrite bindS_run; [|erewrite bindS_run; [|exact Ld]; reflexivity].
    by apply (fcntl_finish ext s1 f (_, 0)). }
  destruct (cmd =? F_SETFL).
  { erewrite bindS_run; [|erewrite bindS_run; [|exact Ld]; reflexivity].
    apply (fcntl_finish ext _ f (0, 0) B). destruct W1 as (T1 & R1 & B1).
    split; [done|]. split; [by eapply store_same_refs|done]. }
  destruct (cmd =? F_SETFD).
  { destruct (fd_setflags_ok _ s1 i f (if has arg FD_CLOEXEC then O_CLOEXEC else 0) W1 F)
      as (s2 & H2 & W2).
    erewrite bindS_run; [|erewrite bindS_run; [|exact H2]; reflexivity].
    by apply (fcntl_finish ext s2 f (0, 0)). }
  destruct (cmd =? F_GETFD); [|by apply (fcntl_finish ext s1 f (-1, EINVAL))].
  destruct (fd_file_used _ _ _ F) as (y & Y & Fy).
  assert (H2 : fd_getflags i s1 = Some ((0, Some (flags y)), s1)).
  { unfold fd_getflags. rewrite bindS_get. rewrite (bindS_run _ _ s1 y s1) by (unfold liftS; by rewrite Y).
    by rewrite Fy. }
  erewrite bindS_run; [|erewrite bindS_run; [|exact H2]; reflexivity].
  by apply (fcntl_finish ext s1 f (_, 0)).
Qed.

(** ** Forking a table *)

Lemma hold_slots_ok l : forall ext s,
  refs_ok ext s ->
  (forall f, 0 < slots_of f l -> 0 < slots_of f (fd (proc s)) + ext f) ->
  (forall f, slots_of f (fd (proc s)) + ext f + slots_of f l < 2 ^ 31) ->
  exists l' s', hold_slots l s = Some (l', s') /\ map file l' = map file l /\
    proc s' = proc s /\ closed s' = closed s /\ refs_ok (fun f => ext f + slots_of f l) s'.
Proof.
  induction l as [|x l IH]; intros ext s R P B.
  { exists [], s. split_and!; try done. eapply refs_ok_proper; [|reflexivity|exact R].
    intros f. unfold slots_of. simpl. lia. }
  simpl. setoid_rewrite slots_of_cons in P. setoid_rewrite slots_of_cons in B.
  destruct (file x) as [f|] eqn:F.
  - pose proof (slots_of_bound f l). pose proof (P f) as Pf. pose proof (B f) as Bf.
    rewrite here_refl in Pf, Bf.
    destruct (refs_live ext s f R) as [y Y]; [lia|].
    destruct (FILE_HOLD_ok ext s f y R Y) as (s1 & H1 & Ep & Ec & R1); [lia|].
    destruct (IH (bump f 1 ext) s1 R1) as (l' & s' & H' & M & Ep' & Ec' & R').
    + intros g Hg. specialize (P g). pose proof (here_bound g (Some f)). rewrite Ep. unfold bump.
      case_decide; lia.
    + intros g. specialize (B g). rewrite Ep. unfold bump, here in *. repeat case_decide; simplify_eq; lia.
    + exists (x :: l'), s'.
      erewrite bindS_run; [|erewrite bindS_run; [|exact H1]; reflexivity].
      rewrite (bindS_run _ _ _ _ _ H'). split; [done|]. split; [simpl; by rewrite F, M|].
      split; [congruence|]. split; [congruence|].
      eapply refs_ok_proper; [|reflexivity|exact R']. intros g. rewrite slots_of_cons, F.
      unfold bump, here. repeat case_decide; simplify_eq; lia.
  - destruct (IH ext s R) as (l' & s' & H' & M & Ep' & Ec' & R').
    + intros g Hg. apply P. rewrite here_none. lia.
    + intros g. specialize (B g). rewrite here_none in B. lia.
    + exists (mk_fd None 0 :: l'), s'. rewrite (bindS_run _ _ s (mk_fd None 0) s) by done.
      rewrite (bindS_run _ _ _ _ _ H'). split; [done|]. split; [simpl; by rewrite M|].
      split; [done|]. split; [done|].
      eapply refs_ok_proper; [|reflexivity|exact R']. intros g. rewrite slots_of_cons, F, here_none. lia.
Qed.

Lemma slots_of_map f l' l : map file l' = map file l -> slots_of f l' = slots_of f l.
Proof.
  revert l. induction l' as [|x l' IH]; intros [|y l] M; simplify_eq/=; [done|].
  rewrite !slots_of_cons, (IH l) by done. congruence.
Qed.

(** ** Sequences of operations *)

(** One entry per system call of the files above; [op_get] and [op_release] are
    the two halves of every call that works on a descriptor. *)
Inductive fd_op :=
| op_get (i : Z)
| op_release (f : nat)
| op_new (newfile : option (nat * Z)) (realloc_ok : bool) (flg : Z)
| op_close (i : Z)
| op_dup (realloc_ok : bool) (oldfd : Z)
| op_dup2 (realloc_ok : bool) (oldfd newfd : Z)
| op_dup3 (realloc_ok : bool) (oldfd newfd flg : Z)
| op_fcntl (realloc_ok : bool) (garbage i cmd arg : Z).

(** The operation, with the references its caller holds afterwards. *)
Definition exec_op (o : fd_op) (ext : outside) : stM state outside :=
  match o with
  | op_get i => f ← fd_get i; mret (bump_opt f 1 ext)
  | op_release f => fd_release f;; mret (bump f (-1) ext)
  | op_new nf ok flg => fd_new nf ok flg;; mret ext
  | op_close i => syscall_close i;; mret ext
  | op_dup ok i => syscall_dup ok i;; mret ext
  | op_dup2 ok i j => syscall_dup2 ok i j;; mret ext
  | op_dup3 ok i j flg => syscall_dup3 ok i j flg;; mret ext
  | op_fcntl ok g i cmd arg => syscall_fcntl ok g i cmd arg;; mret ext
  end.

Definition is_intb (i : Z) : bool := (- 2 ^ 31 <=? i) && (i <? 2 ^ 31).

Definition few_refs (ext : outside) (o : option nat) : bool :=
  match o with Some f => ext f <? 2 ^ 30 | None => true end.

(** The conditions the callers keep: descriptors are [int]s, only held files
    are released, the slab allocator hands out unused objects, a file has less
    than 2^30 users at once, and a minimal descriptor of [F_DUPFD] inside the
    limit is inside the table. *)
Definition legal (o : fd_op) (ext : outside) (s : state) : bool :=
  match o with
  | op_get i => is_intb i && few_refs ext (fd_file (proc s) i)
  | op_release f => 0 <? ext f
  | op_new (Some (f, _)) _ _ => bool_decide (files s !! f = None)
  | op_new None _ _ => true
  | op_close i => is_intb i
  | op_dup _ i => is_intb i
  | op_dup2 _ i j => is_intb i && is_intb j
  | op_dup3 _ i j _ => is_intb i && is_intb j
  | op_fcntl _ _ i cmd arg =>
      is_intb i && few_refs ext (fd_file (proc s) i) &&
      (negb (cmd =? F_DUPFD) || (s32 arg <? fdcount (proc s)) || (s32 arg >=? FDTABLE_LIMIT))
  end.

Fixpoint fd_run (l : list fd_op) (ext : outside) (s : state) : option (outside * state) :=
  match l with
  | [] => Some (ext, s)
  | o :: l' => '(ext', s') ← exec_op o ext s; fd_run l' ext' s'
  end.

Fixpoint legal_run (l : list fd_op) (ext : outside) (s : state) : bool :=
  match l with
  | [] => true
  | o :: l' =>
      legal o ext s &&
      match exec_op o ext s with Some (ext', s') => legal_run l' ext' s' | None => true end
  end.

Lemma is_intb_spec i : is_intb i = true -> is_int i.
Proof. unfold is_intb, is_int. lia. Qed.

Lemma few_refs_spec ext o f : few_refs ext o = true -> o = Some f -> ext f < 2 ^ 30.
Proof. intros H ->. simpl in H. lia. Qed.

Lemma dup_ok ext s ok i :
  fd_wf ext s -> is_int i ->
  exists r s', syscall_dup ok i s = Some (dup_result r, s') /\ fd_wf ext s' /\ dup_post s i r s' /\
    (forall n, r.2 = Some n -> fd_file (proc s) n = None /\ forall j, 0 <= j < n -> used (proc s) j).
Proof.
  intros W Hi. unfold syscall_dup. destruct (W) as (T & R & B).
  destruct (decide (0 < fdcount (proc s))) as [Pos|Z0].
  - destruct (fd_dup_any_ok ext s ok i 0 0 W Hi) as (r & s' & H & W' & D & M); [lia|].
    exists r, s'. rewrite (bindS_run _ _ _ _ _ H). split_and!; try done. intros n Hn.
    by destruct (M n Hn) as (_ & ? & ?).
  - exists (EBADF, None), s. rewrite (bindS_run _ _ s (EBADF, None) s); [done|].
    apply fd_dup_bad; [done|done|]. right. right. unfold fd_file.
    destruct (slot_at (proc s) i) eqn:E; [|done]. apply slot_at_ge in E. destruct (T) as [C _ _ _]. lia.
Qed.

Lemma exec_op_ok o ext s :
  fd_wf ext s -> legal o ext s = true ->
  exists ext' s', exec_op o ext s = Some (ext', s') /\ fd_wf ext' s'.
Proof.
  intros W L. destruct o as [i|f|[[f st]|] ok flg|i|ok i|ok i j|ok i j flg|ok g i cmd arg]; simpl in L |- *.
  - apply andb_prop in L as [Li Lr].
    destruct (fd_get_ok ext s i W (is_intb_spec _ Li)) as (s' & H & _ & W').
    { intros f. by apply few_refs_spec. }
    rewrite (bindS_run _ _ _ _ _ H). by eexists _, _.
  - destruct (fd_release_ok ext s f W) as (s' & H & _ & W'); [lia|].
    rewrite (bindS_run _ _ _ _ _ H). by eexists _, _.
  - destruct (fd_new_ok ext s f st ok flg W) as (r & s' & H & W' & _); [by apply bool_decide_eq_true in L|].
    rewrite (bindS_run _ _ _ _ _ H). by eexists _, _.
  - rewrite (bindS_run _ _ s (ENOMEM, None) s) by done. by eexists _, _.
  - destruct (fd_close_ok ext s i W (is_intb_spec _ L)) as (r & s' & H & W').
    unfold syscall_close. erewrite bindS_run; [|erewrite bindS_run; [|exact H]; reflexivity]. by eexists _, _.
  - destruct (dup_ok ext s ok i W (is_intb_spec _ L)) as (r & s' & H & W' & _).
    rewrite (bindS_run _ _ _ _ _ H). by eexists _, _.
  - apply andb_prop in L as [Li Lj]. unfold syscall_dup2. destruct (Z.eqb_spec i j).
    { rewrite (bindS_run _ _ s (j, 0) s) by done. by eexists _, _. }
    destruct (fd_dup_exact_ok ext s ok i j 0 W (is_intb_spec _ Li) (is_intb_spec _ Lj)) as (r & s' & H & W' & _); [done|].
    erewrite bindS_run; [|erewrite bindS_run; [|exact H]; reflexivity]. by eexists _, _.
  - apply andb_prop in L as [Li Lj]. unfold syscall_dup3. destruct (Z.eqb_spec i j).
    { rewrite (bindS_run _ _ s (-1, EINVAL) s) by done. by eexists _, _. }
    destruct (fd_dup_exact_ok ext s ok i j flg W (is_intb_spec _ Li) (is_intb_spec _ Lj)) as (r & s' & H & W' & _); [done|].
    erewrite bindS_run; [|erewrite bindS_run; [|exact H]; reflexivity]. by eexists _, _.
  - apply andb_prop in L as [[Li Lr]%andb_prop Lc].
    destruct (fcntl_ok ext s ok g i cmd arg W (is_intb_spec _ Li)) as (r & s' & H & W').
    + intros f. by apply few_refs_spec.
    + intros ->. simpl in Lc. lia.
    + rewrite (bindS_run _ _ _ _ _ H). by eexists _, _.
Qed.

(** ** Properties *)

(** C4. Any sequence of legal descriptor operations runs without touching a
    freed file or a slot outside the table, and keeps every reference count
    equal to the number of references. *)
Theorem fd_run_safe l ext s :
  fd_wf ext s -> legal_run l ext s = true ->
  exists ext' s', fd_run l ext s = Some (ext', s') /\ fd_wf ext' s'.
Proof.
  revert ext s. induction l as [|o l IH]; intros ext s W L; simpl in *; [by eexists _, _|].
  apply andb_prop in L as [Lo Ll]. destruct (exec_op_ok o ext s W Lo) as (ext' & s' & H & W').
  rewrite H in Ll |- *. simpl. by apply IH.
Qed.

(** [fd_new] gives the new file the lowest free descriptor and leaves the
    other descriptors alone; it fails only when all of them are used, at the
    table limit with [EMFILE] or below it when memory runs out, and then
    changes nothing. *)
Theorem fd_new_lowest ext s f stale ok flg :
  fd_wf ext s -> files s !! f = None ->
  exists r s', fd_new (Some (f, stale)) ok flg s = Some (r, s') /\ fd_wf ext s' /\
    match r with
    | (e, Some (f', i)) =>
        e = 0 /\ f' = f /\ 0 <= i < FDTABLE_LIMIT /\
        (forall j, 0 <= j < i -> used (proc s) j) /\ fd_file (proc s) i = None /\
        (forall j, fd_file (proc s') j = if decide (j = i) then Some f else fd_file (proc s) j)
    | (e, None) =>
        s' = s /\ (forall j, 0 <= j < fdcount (proc s) -> used (proc s) j) /\
        (e = EMFILE /\ fdcount (proc s) = FDTABLE_LIMIT \/ e = ENOMEM /\ ok = false)
    end.
Proof. apply fd_new_ok. Qed.

(** Closing a used descriptor frees it and drops one reference of its file;
    the file is freed and its vnode closed, once, exactly when that reference
    was the last one. *)
Theorem fd_close_last ext s i f x :
  fd_wf ext s -> is_int i -> fd_file (proc s) i = Some f -> files s !! f = Some x ->
  exists s', fd_close i s = Some (0, s') /\
    (forall j, fd_file (proc s') j = if decide (j = i) then None else fd_file (proc s) j) /\
    files s' = (if refcount x =? 1 then delete f (files s)
                else <[f := with_refcount x (refcount x - 1)]> (files s)) /\
    closed s' = (match vnode x with
                 | Some v => if refcount x =? 1 then [(v, fileflagstovnodeflags (fflags x))] else []
                 | None => []
                 end) ++ closed s.
Proof.
  intros (T & R & B) Hi (y & Y & Fy)%fd_file_used X. pose proof (R f) as Rf. rewrite X in Rf.
  eexists. split; [eapply fd_close_run; eauto; lia|]. split.
  - intros j. rewrite after_release_proc. unfold fd_file. rewrite (clear_slot_at s i y j Y). by case_decide.
  - unfold after_release. destruct (refcount x =? 1); simpl; by destruct (vnode x).
Qed.

(** [dup2] makes the new descriptor another name of the old one's file, in
    a grown table if need be, and keeps all other descriptors and the
    reference counts right even when both named the same file before. *)
Theorem dup2_aliases ext s ok oldfd newfd f :
  fd_wf ext s -> is_int oldfd -> is_int newfd -> oldfd <> newfd -> fd_file (proc s) oldfd = Some f ->
  exists r s', syscall_dup2 ok oldfd newfd s = Some (r, s') /\ fd_wf ext s' /\
    (r.2 = 0 -> r.1 = newfd /\
       forall j, fd_file (proc s') j = if decide (j = newfd) then Some f else fd_file (proc s) j) /\
    (r.2 <> 0 -> r.1 = -1 /\ s' = s).
Proof.
  intros W Ho Hn Ne F. unfold syscall_dup2. destruct (Z.eqb_spec oldfd newfd) as [Eq|_]; [done|].
  destruct (fd_dup_exact_ok ext s ok oldfd newfd 0 W Ho Hn Ne) as (r & s' & H & W' & D & N).
  exists (dup_result r), s'. rewrite (bindS_run _ _ _ _ _ H). split; [done|]. split; [done|].
  destruct r as [e [n|]]; simpl in *.
  - rewrite (N n eq_refl) in *. destruct D as (-> & _ & g & G & Sl). rewrite F in G. injection G as <-.
    split; [|done]. intros _. split; [done|exact Sl].
  - destruct D as [Ne0 ->]. done.
Qed.

(** [fd_clone] gives the child a table with the same files, and from then
    on every file counts the slots of both tables. *)
Theorem fd_clone_shares ext s :
  fd_wf ext s ->
  exists child s', fd_clone true s = Some ((0, Some child), s') /\
    table_ok child /\ (forall i, fd_file child i = fd_file (proc s) i) /\
    proc s' = proc s /\ refs_ok (fun f => ext f + slots_of f (fd child)) s'.
Proof.
  intros (T & R & B). unfold fd_clone. rewrite bindS_get. simpl.
  destruct (T) as [C L F Bl]. unfold FDTABLE_LIMIT in L.
  destruct (hold_slots_ok (fd (proc s)) ext s R) as (l' & s' & H & M & Ep & _ & R').
  - intros f. specialize (B f). lia.
  - intros f. specialize (B f). pose proof (slots_of_bound f (fd (proc s))). lia.
  - rewrite (bindS_run _ _ _ _ _ H). eexists _, s'. split; [reflexivity|].
    assert (Fi : forall i, fd_file (mk_proc (fdcount (proc s)) (fdfirst (proc s)) l') i = fd_file (proc s) i).
    { intros i. unfold fd_file, slot_at. simpl. case_match; [|done].
      assert (map file l' !! Z.to_nat i = map file (fd (proc s)) !! Z.to_nat i) as Q by by rewrite M.
      rewrite !list_lookup_fmap in Q.
      destruct (l' !! Z.to_nat i), (fd (proc s) !! Z.to_nat i); simpl in *; congruence. }
    assert (length l' = length (fd (proc s))) as Len.
    { rewrite <- (length_map file l'), M. by rewrite length_map. }
    split; [|split; [done|split; [done|]]].
    + split; simpl; [lia|done|done|]. intros i Hi. destruct (Bl i Hi) as (x & f & X & Fx).
      destruct (fd_file_used (mk_proc (fdcount (proc s)) (fdfirst (proc s)) l') i f) as (x' & X').
      { rewrite Fi. unfold fd_file. by rewrite X. }
      by exists x', f.
    + simpl. eapply refs_ok_proper; [|reflexivity|exact R']. intros f. by rewrite (slots_of_map f _ _ M).
Qed.

(** When every slot of the table is used, [fd_insert] does not grow the
    table: it asks [growtable] for the count it already has, which panics. *)
Theorem fd_insert_full_panics s ok f :
  table_ok (proc s) -> (forall j, 0 <= j < fdcount (proc s) -> used (proc s) j) ->
  fd_insert ok f s = None.
Proof.
  intros T U. destruct (T) as [C L F B]. unfold FDTABLE_LIMIT in L. unfold fd_insert. rewrite bindS_get.
  destruct (getfree_spec (proc s) 0 T) as [(G & _)|(i & y & G & Hi & Y & Fy & _)]; [lia|..].
  - rewrite (bindS_run _ _ s (-1) s) by (unfold liftS; by rewrite G). rewrite Z.eqb_refl.
    rewrite !s32_small by lia. unfold mbind, stM_bind, growtable, FDTABLE_LIMIT.
    destruct (Z.gtb_spec (fdcount (proc s)) 256); [lia|].
    unfold mbind, stM_bind, assertS, liftS. simpl. rewrite u64_id by (unfold is_u64; lia).
    by rewrite Z.gtb_ltb, Z.ltb_irrefl.
  - destruct (U i Hi) as (x & g & X & Gx). congruence.
Qed.

(** A minimal descriptor at or beyond the end of the table makes the
    inexact [fd_dup] fail: it grows the table to the size it has and panics,
    or writes the slot at that descriptor, outside the table. *)
Theorem fd_dup_beyond_table s ok oldfd newfd flg f :
  table_ok (proc s) -> is_int oldfd -> fd_file (proc s) oldfd = Some f ->
  fdcount (proc s) <= newfd < FDTABLE_LIMIT ->
  fd_dup ok oldfd newfd false flg s = None.
Proof.
  intros T Ho F Hn. destruct (T) as [C L Fi B]. unfold FDTABLE_LIMIT in *. unfold fd_dup, FDTABLE_LIMIT.
  rewrite (proj2 (orb_false_iff _ _)) by lia.
  rewrite (bindS_run _ _ s (Some f) s) by (rewrite lookup_fd_run by done; by rewrite F).
  rewrite bindS_get. assert (G : getfree (proc s) newfd
    = Some (if newfd =? fdcount (proc s) then -1 else newfd)).
  { unfold getfree. simpl. rewrite (u64_id newfd) by (unfold is_u64; lia).
    destruct (Z.ltb_spec newfd (fdcount (proc s))); [lia|]. simpl.
    rewrite (u64_id newfd) by (unfold is_u64; lia). by destruct (newfd =? _). }
  erewrite (bindS_run (liftS _)) by (unfold liftS; by rewrite G).
  rewrite (u64_id newfd) by (unfold is_u64; lia).
  destruct (Z.eqb_spec newfd (fdcount (proc s))) as [->|Ne].
  - rewrite Z.eqb_refl, Z.ltb_irrefl. cbv zeta. rewrite !s32_small by lia.
    unfold mbind, stM_bind, growtable, FDTABLE_LIMIT.
    destruct (Z.gtb_spec (fdcount (proc s)) 256); [lia|].
    unfold mbind, stM_bind, assertS, liftS. simpl. rewrite u64_id by (unfold is_u64; lia).
    by rewrite Z.gtb_ltb, Z.ltb_irrefl.
  - rewrite (proj2 (Z.eqb_neq newfd (-1))) by lia. unfold mbind, stM_bind. simpl.
    unfold set_slot, mbind, stM_bind. simpl. rewrite slot_at_nat by lia.
    by rewrite lookup_ge_None_2 by lia.
Qed.

(** ** Examples *)

(** A process with descriptors 0 to 2 on one terminal, 0 and 1 sharing a file. *)
Definition sample_fds : state :=
  mk_state (<[1%nat := mk_file (Some 7) 2 0 3]> (<[2%nat := mk_file (Some 7) 1 0 2]> ∅))
    (mk_proc 3 3 [mk_fd (Some 1%nat) 0; mk_fd (Some 1%nat) 0; mk_fd (Some 2%nat) 0]) [].

Definition no_ext : outside := fun _ => 0.

Lemma sample_fds_wf : fd_wf no_ext sample_fds.
Proof.
  split; [|split].
  - split; simpl; [done|unfold FDTABLE_LIMIT; lia|lia|].
    intros i Hi. assert (i = 0 \/ i = 1 \/ i = 2) as [ -> | [ -> | -> ]] by lia; eexists _, _; done.
  - intros f. simpl. destruct (decide (f = 1%nat)) as [->|N1]; [done|].
    destruct (decide (f = 2%nat)) as [->|N2]; [done|].
    rewrite !lookup_insert_ne, lookup_empty by done. rewrite !slots_of_cons. simpl.
    unfold here. by rewrite !decide_False by congruence.
  - intros f. unfold no_ext. lia.
Qed.

Lemma fd_run_safe_witness :
  exists ext' s',
    fd_run [op_close 0; op_new (Some (3%nat, 0)) true 5; op_get 0; op_dup2 true 0 9; op_close 0;
            op_dup true 9; op_fcntl true 0 2 F_DUPFD 1; op_release 3; op_close 9] no_ext sample_fds
      = Some (ext', s') /\ fd_wf ext' s'.
Proof. apply fd_run_safe; [exact sample_fds_wf|vm_compute; reflexivity]. Defined.

Lemma fd_new_lowest_witness :
  exists r s', fd_new (Some (3%nat, 0)) true 5 sample_fds = Some (r, s') /\ fd_wf no_ext s' /\
    fd_new_post sample_fds 3%nat true r s'.
Proof. exact (fd_new_lowest no_ext sample_fds 3%nat 0 true 5 sample_fds_wf eq_refl). Defined.

Lemma fd_close_last_witness :
  exists s', fd_close 2 sample_fds = Some (0, s') /\
    (forall j, fd_file (proc s') j = if decide (j = 2) then None else fd_file (proc sample_fds) j) /\
    files s' = delete 2%nat (files sample_fds) /\ closed s' = [(7, V_FFLAGS_WRITE)].
Proof.
  exact (fd_close_last no_ext sample_fds 2 2%nat (mk_file (Some 7) 1 0 2) sample_fds_wf
           ltac:(unfold is_int; lia) eq_refl eq_refl).
Defined.

Lemma dup2_aliases_witness :
  exists r s', syscall_dup2 true 0 1 sample_fds = Some (r, s') /\ fd_wf no_ext s' /\
    (r.2 = 0 -> r.1 = 1 /\
       forall j, fd_file (proc s') j = if decide (j = 1) then Some 1%nat else fd_file (proc sample_fds) j) /\
    (r.2 <> 0 -> r.1 = -1 /\ s' = sample_fds).
Proof.
  exact (dup2_aliases no_ext sample_fds true 0 1 1%nat sample_fds_wf ltac:(unfold is_int; lia)
           ltac:(unfold is_int; lia) ltac:(lia) eq_refl).
Defined.

Lemma fd_clone_shares_witness :
  exists child s', fd_clone true sample_fds = Some ((0, Some child), s') /\
    table_ok child /\ (forall i, fd_file child i = fd_file (proc sample_fds) i) /\
    proc s' = proc sample_fds /\ refs_ok (fun f => no_ext f + slots_of f (fd child)) s'.
Proof. exact (fd_clone_shares no_ext sample_fds sample_fds_wf). Defined.

Lemma fd_insert_full_panics_witness : fd_insert true 1%nat sample_fds = None.
Proof.
  apply fd_insert_full_panics; [exact (proj1 sample_fds_wf)|].
  intros j Hj. exact (ok_below _ (proj1 sample_fds_wf) j Hj).
Defined.

Lemma fd_dup_beyond_table_witness : fd_dup true 0 10 false 0 sample_fds = None.
Proof.
  apply (fd_dup_beyond_table sample_fds true 0 10 0 1%nat (proj1 sample_fds_wf));
    [unfold is_int; lia|reflexivity|split; vm_compute; congruence].
Defined.
