(* ===== verification/CString.v ===== *)
(** * Strings and byte comparison ([lib/string.c])

    A C string is its characters followed by a zero byte in memory.  The
    comparison functions read bytes one by one; a read outside the mapped
    memory is [None].  Loops that stop at a terminator take the number of
    characters they may look at as fuel; one more than the length of the string
    is enough. *)

From S2P Require Import Prelude Errno Mem.

(** [char] is signed, [uint8_t] is not. *)
Definition s8 (b : Z) : Z := if b <? 128 then b else b - 256.

Definition is_byte (b : Z) : Prop := 0 <= b < 256.

Fixpoint strlen (fuel : nat) (m : mem) (a : Z) : option Z :=
  match fuel with
  | O => None
  | S fuel' =>
      b ← m !! a;
      if b =? 0 then Some 0 else n ← strlen fuel' m (a + 1); Some (n + 1)
  end.

Fixpoint strcmp (fuel : nat) (m : mem) (a b : Z) : option Z :=
  match fuel with
  | O => None
  | S fuel' =>
      x ← m !! a;
      y ← m !! b;
      if negb (x =? 0) && (x =? y) then strcmp fuel' m (a + 1) (b + 1) else Some (x - y)
  end.

(** The bytes are stored while the source is read, so overlapping strings see
    the stores. *)
Fixpoint strcpy (fuel : nat) (m : mem) (p s : Z) : option mem :=
  match fuel with
  | O => None
  | S fuel' =>
      b ← m !! s;
      _ ← m !! p;
      if b =? 0 then Some (<[p := 0]> m) else strcpy fuel' (<[p := b]> m) (p + 1) (s + 1)
  end.

(** The result is the end of the old [dest], not [dest]. *)
Definition strcat (fuel : nat) (m : mem) (dest src : Z) : option (mem * Z) :=
  n ← strlen fuel m dest;
  m' ← strcpy fuel m (dest + n) src;
  Some (m', dest + n).

(** [strncmp] and [memcmp] differ in the signedness of the bytes only; neither
    stops at a zero byte. *)
Fixpoint ncmp (conv : Z -> Z) (m : mem) (a b : Z) (c : nat) (diff : Z) : option Z :=
  match c with
  | O => Some diff
  | S c' =>
      if diff =? 0 then
        x ← m !! a;
        y ← m !! b;
        ncmp conv m (a + 1) (b + 1) c' (diff + (conv x - conv y))
      else Some diff
  end.

Definition strncmp (m : mem) (a b c : Z) : option Z := ncmp s8 m a b (Z.to_nat c) 0.
Definition memcmp (m : mem) (a b s : Z) : option Z := ncmp id m a b (Z.to_nat s) 0.

(** [memcmp] of two objects of their own, given by their bytes. *)
Fixpoint memcmp_bytes (a b : list Z) (s : nat) (diff : Z) {struct s} : option Z :=
  match s with
  | O => Some diff
  | S s' =>
      if diff =? 0 then
        match a, b with
        | x :: a', y :: b' => memcmp_bytes a' b' s' (diff + (x - y))
        | _, _ => None
        end
      else Some diff
  end.

(** ** Strings in memory *)

Definition holds_string (m : mem) (a : Z) (s : list Z) : Prop :=
  holds m a (s ++ [0]) /\ Forall (fun b => b <> 0) s.

Lemma holds_string_cons m a b s : holds_string m a (b :: s) <-> m !! a = Some b /\ b <> 0 /\ holds_string m (a + 1) s.
Proof.
  unfold holds_string. simpl. rewrite holds_cons, Forall_cons. tauto.
Qed.

Lemma holds_string_nil m a : holds_string m a [] <-> m !! a = Some 0.
Proof.
  unfold holds_string. simpl. rewrite holds_cons. split; [tauto|]. intros H. split; [|done].
  split; [done|]. by intros [|i] x Hx.
Qed.

Lemma strlen_spec m s : forall a fuel,
  holds_string m a s -> (length s < fuel)%nat -> strlen fuel m a = Some (Z.of_nat (length s)).
Proof.
  induction s as [|b s IH]; intros a [|fuel] H F; simpl in *; try lia.
  - apply holds_string_nil in H. by rewrite H.
  - apply holds_string_cons in H as (E & Nz & H). rewrite E. simpl.
    rewrite (proj2 (Z.eqb_neq b 0) Nz), (IH (a + 1) fuel H ltac:(lia)). simpl. f_equal. lia.
Qed.

(** Lexicographic order of byte strings, the shorter first. *)
Fixpoint lex (s t : list Z) : comparison :=
  match s, t with
  | [], [] => Eq
  | [], _ :: _ => Lt
  | _ :: _, [] => Gt
  | x :: s', y :: t' => match x ?= y with Eq => lex s' t' | c => c end
  end.

Lemma strcmp_lex m s : forall t a b fuel,
  holds_string m a s -> holds_string m b t -> Forall is_byte s -> Forall is_byte t ->
  (length s < fuel)%nat ->
  exists d, strcmp fuel m a b = Some d /\ (d ?= 0) = lex s t.
Proof.
  unfold is_byte. induction s as [|x s IH]; intros t a b [|fuel] Hs Ht Bs Bt F; simpl in *; try lia.
  - apply holds_string_nil in Hs. rewrite Hs. simpl. destruct t as [|y t].
    + apply holds_string_nil in Ht. rewrite Ht. by exists 0.
    + apply holds_string_cons in Ht as (E & Nz & _). rewrite E. inversion Bt; subst. simpl.
      eexists. split; [done|]. apply Z.compare_lt_iff. lia.
  - apply holds_string_cons in Hs as (Ex & Nx & Hs). rewrite Ex. simpl. inversion Bs; subst.
    rewrite (proj2 (Z.eqb_neq x 0) Nx). destruct t as [|y t].
    + apply holds_string_nil in Ht. rewrite Ht. simpl. rewrite (proj2 (Z.eqb_neq x 0) Nx). simpl.
      eexists. split; [done|]. apply Z.compare_gt_iff. lia.
    + apply holds_string_cons in Ht as (Ey & Ny & Ht). rewrite Ey. simpl. inversion Bt; subst.
      destruct (Z.eqb_spec x y) as [->|Ne]; simpl.
      * rewrite Z.compare_refl. apply IH; auto. lia.
      * eexists. split; [done|].
        destruct (Z.compare_spec x y); [lia|apply Z.compare_lt_iff; lia|apply Z.compare_gt_iff; lia].
Qed.

(** ** Comparison of bytes *)

Lemma memcmp_bytes_diff a b s d : d <> 0 -> memcmp_bytes a b s d = Some d.
Proof. intros H. destruct s; [done|]. simpl. by rewrite (proj2 (Z.eqb_neq d 0) H). Qed.

(** The comparison of two keys of the compared length is zero only for equal
    keys. *)
Lemma memcmp_bytes_eq a : forall b,
  length a = length b ->
  exists d, memcmp_bytes a b (length a) 0 = Some d /\ (d = 0 <-> a = b).
Proof.
  induction a as [|x a IH]; intros [|y b] L; simplify_eq/=; [by exists 0|].
  destruct (decide (x = y)) as [->|Ne].
  - replace (y - y) with 0 by lia. destruct (IH b L) as (d & E & Q). exists d. split; [done|].
    rewrite Q. split; congruence.
  - exists (x - y). rewrite memcmp_bytes_diff by lia. split; [done|]. split; [lia|congruence].
Qed.
