(* ===== verification/DList.v ===== *)
(** * Intrusive doubly linked lists

    Most kernel objects are chained through [next] and [prev] fields of their
    own: hash table entries, sleeping threads, slabs, free pages, pending calls.
    A structure with such fields is an instance of [Linked]; this file has the
    heap of such structures, the segment predicate [dseg] that says which
    addresses a chain runs through, and the lemmas on the pointer updates that
    unlinking and inserting are made of.  An address is a [nat]; an update
    through an address that holds no object is [None]. *)

From S2P Require Import Prelude.

(** A structure with links and the rest of its fields. *)
Class Linked (N P : Type) := {
  lnext : N -> option nat;
  lprev : N -> option nat;
  payload : N -> P;
  with_next : option nat -> N -> N;
  with_prev : option nat -> N -> N;
  next_with_next : forall v n, lnext (with_next v n) = v;
  prev_with_next : forall v n, lprev (with_next v n) = lprev n;
  next_with_prev : forall v n, lnext (with_prev v n) = lnext n;
  prev_with_prev : forall v n, lprev (with_prev v n) = v;
  payload_with_next : forall v n, payload (with_next v n) = payload n;
  payload_with_prev : forall v n, payload (with_prev v n) = payload n
}.

#[export] Hint Rewrite @next_with_next @prev_with_next @next_with_prev @prev_with_prev
  @payload_with_next @payload_with_prev : astral.

(** First and last address of a chain, or what lies beyond it. *)
Definition hdo (l : list nat) (a : option nat) : option nat :=
  match l with [] => a | x :: _ => Some x end.

Fixpoint lasto (b : option nat) (l : list nat) : option nat :=
  match l with [] => b | x :: l' => lasto (Some x) l' end.

Lemma hdo_app l1 l2 a : hdo (l1 ++ l2) a = hdo l1 (hdo l2 a).
Proof. by destruct l1. Qed.

Lemma lasto_app b l1 l2 : lasto b (l1 ++ l2) = lasto (lasto b l1) l2.
Proof. revert b. induction l1 as [|x l1 IH]; intros b; simpl; [done|apply IH]. Qed.

Lemma lasto_snoc b l y : lasto b (l ++ [y]) = Some y.
Proof. by rewrite lasto_app. Qed.

Lemma lasto_cases b l : (l = [] /\ lasto b l = b) \/ exists l' y, l = l' ++ [y] /\ lasto b l = Some y.
Proof.
  destruct l as [|x l] using rev_ind; [by left|right]. exists l, x. by rewrite lasto_snoc.
Qed.

Lemma lasto_elem b l y : lasto b l = Some y -> l <> [] -> y ∈ l.
Proof.
  destruct (lasto_cases b l) as [(-> & _)|(l' & z & -> & E)]; [done|].
  rewrite E. intros [= ->] _. set_solver.
Qed.

Lemma lasto_some x l : exists y, lasto (Some x) l = Some y.
Proof. revert x. induction l as [|y l IH]; intros x; simpl; eauto. Qed.

Lemma lasto_default x l : lasto (Some x) l = match lasto None l with None => Some x | Some y => Some y end.
Proof. destruct l as [|y l]; simpl; [done|]. by destruct (lasto_some y l) as [z ->]. Qed.

Section heap.
Context {N P : Type} `{!Linked N P}.
Implicit Types (h : gmap nat N) (l : list nat) (a b : option nat) (x y : nat).

Lemma nodup_live_size h l :
  NoDup l -> (forall x, x ∈ l -> exists n, h !! x = Some n) -> (length l <= size h)%nat.
Proof.
  intros ND L. rewrite <- (size_list_to_set (C := gset nat)) by done. rewrite <- size_dom.
  apply subseteq_size. intros x Hx. apply elem_of_list_to_set in Hx.
  destruct (L x Hx) as [n E]. by apply elem_of_dom_2 in E.
Qed.

(** Update of one object. *)
Definition upd (x : nat) (g : N -> N) (h : gmap nat N) : option (gmap nat N) :=
  n ← h !! x; Some (<[x := g n]> h).

(** [if (p) p->next = v] and [if (p) p->prev = v]. *)
Definition set_next (p v : option nat) (h : gmap nat N) : option (gmap nat N) :=
  match p with Some y => upd y (with_next v) h | None => Some h end.

Definition set_prev (p v : option nat) (h : gmap nat N) : option (gmap nat N) :=
  match p with Some y => upd y (with_prev v) h | None => Some h end.

(** The chain [l], entered from [b] and left to [a]. *)
Fixpoint dseg (h : gmap nat N) (b : option nat) (l : list nat) (a : option nat) : Prop :=
  match l with
  | [] => True
  | x :: l' =>
      (exists n, h !! x = Some n /\ lprev n = b /\ lnext n = hdo l' a) /\ dseg h (Some x) l' a
  end.

(** The contents other than the links. *)
Definition same_payload (h h' : gmap nat N) : Prop :=
  forall x, payload <$> h !! x = payload <$> h' !! x.

#[global] Instance same_payload_equiv : Equivalence same_payload.
Proof. split; [done|by intros h h' H x|intros h h' h'' H H' x; by rewrite (H x)]. Qed.

Lemma dseg_live h b l a x : dseg h b l a -> x ∈ l -> exists n, h !! x = Some n.
Proof.
  revert b. induction l as [|y l IH]; intros b D Hx; [by apply not_elem_of_nil in Hx|].
  destruct D as ((n & E & _) & D). apply elem_of_cons in Hx as [->|Hx]; eauto.
Qed.

Lemma dseg_app h b l1 l2 a :
  dseg h b (l1 ++ l2) a <-> dseg h b l1 (hdo l2 a) /\ dseg h (lasto b l1) l2 a.
Proof.
  revert b. induction l1 as [|x l1 IH]; intros b; simpl; [tauto|].
  rewrite hdo_app, IH. tauto.
Qed.

Lemma dseg_ext h h' b l a :
  (forall x, x ∈ l -> h' !! x = h !! x) -> dseg h b l a -> dseg h' b l a.
Proof.
  revert b. induction l as [|x l IH]; intros b E D; [done|]. destruct D as [(n & Ex & Pv & Nx) D].
  split; [exists n; rewrite (E x (list_elem_of_here x l)); done|].
  apply IH; [|done]. intros y Hy. apply E. by apply elem_of_cons; right.
Qed.

(** Changing fields other than the links. *)
Lemma dseg_links h h' b l a :
  (forall x n, x ∈ l -> h !! x = Some n ->
     exists n', h' !! x = Some n' /\ lprev n' = lprev n /\ lnext n' = lnext n) ->
  dseg h b l a -> dseg h' b l a.
Proof.
  revert b. induction l as [|x l IH]; intros b E D; [done|]. destruct D as [(n & Ex & Pv & Nx) D].
  destruct (E x n (list_elem_of_here x l) Ex) as (n' & Ex' & Pv' & Nx').
  split; [exists n'; split_and!; congruence|].
  apply IH; [|done]. intros y m Hy. apply E. by apply elem_of_cons; right.
Qed.

Lemma dseg_frame h b l a x n : x ∉ l -> dseg h b l a -> dseg (<[x:=n]> h) b l a.
Proof. intros Hx. apply dseg_ext. intros y Hy. apply lookup_insert_ne. set_solver. Qed.

Lemma dseg_fresh_del h b l a x : x ∉ l -> dseg h b l a -> dseg (delete x h) b l a.
Proof. intros Hx. apply dseg_ext. intros y Hy. apply lookup_delete_ne. set_solver. Qed.

(** Redirecting the way out of a chain. *)
Lemma dseg_set_last h b l y a a' n :
  dseg h b (l ++ [y]) a -> y ∉ l -> h !! y = Some n ->
  dseg (<[y := with_next a' n]> h) b (l ++ [y]) a'.
Proof.
  intros D Hy E. apply dseg_app in D as [D1 ((n' & E' & Pv & _) & _)].
  rewrite E in E'. injection E' as <-.
  apply dseg_app. split; [by apply dseg_frame|]. split; [|done].
  exists (with_next a' n). rewrite lookup_insert_eq. by autorewrite with astral.
Qed.

(** Redirecting the way into a chain. *)
Lemma dseg_set_first h b b' y l a n :
  dseg h b (y :: l) a -> y ∉ l -> h !! y = Some n ->
  dseg (<[y := with_prev b' n]> h) b' (y :: l) a.
Proof.
  intros [(n' & E' & _ & Nx) D] Hy E. rewrite E in E'. injection E' as <-. split; [|by apply dseg_frame].
  exists (with_prev b' n). rewrite lookup_insert_eq. by autorewrite with astral.
Qed.

Lemma upd_payload h x (g : N -> N) h' :
  (forall n, payload (g n) = payload n) -> upd x g h = Some h' -> same_payload h h'.
Proof.
  intros G E. unfold upd in E. destruct (h !! x) as [n|] eqn:X; simplify_eq/=. intros y.
  destruct (decide (y = x)) as [->|Ne]; [|by rewrite lookup_insert_ne].
  rewrite lookup_insert_eq, X. simpl. by rewrite G.
Qed.

Lemma set_next_payload h p v h' : set_next p v h = Some h' -> same_payload h h'.
Proof.
  destruct p; simpl; [|by intros [= ->]]. apply upd_payload. intros. apply payload_with_next.
Qed.

Lemma set_prev_payload h p v h' : set_prev p v h = Some h' -> same_payload h h'.
Proof.
  destruct p; simpl; [|by intros [= ->]]. apply upd_payload. intros. apply payload_with_prev.
Qed.

Lemma set_next_last h l a v :
  dseg h None l a -> NoDup l ->
  exists h', set_next (lasto None l) v h = Some h' /\ dseg h' None l v /\
    same_payload h h' /\ forall x, x ∉ l -> h' !! x = h !! x.
Proof.
  intros D ND. destruct (lasto_cases None l) as [(-> & E)|(l' & y & -> & E)]; rewrite E.
  - by exists h.
  - destruct (dseg_live _ _ _ _ y D) as [n Hn]; [set_solver|]. apply NoDup_app in ND as (_ & Dj & _).
    assert (y ∉ l') as Hy by (intros Q; apply (Dj y Q); set_solver).
    eexists. split; [simpl; unfold upd; by rewrite Hn|]. split; [by eapply dseg_set_last|].
    split; [apply (upd_payload _ y (with_next v)); [intros; apply payload_with_next|unfold upd; by rewrite Hn]|].
    intros x Hx. apply lookup_insert_ne. set_solver.
Qed.

Lemma set_prev_first h b l v :
  dseg h b l None -> NoDup l ->
  exists h', set_prev (hdo l None) v h = Some h' /\ dseg h' v l None /\
    same_payload h h' /\ forall x, x ∉ l -> h' !! x = h !! x.
Proof.
  intros D ND. destruct l as [|y l]; [by exists h|].
  destruct (dseg_live _ _ _ _ y D) as [n Hn]; [apply list_elem_of_here|]. apply NoDup_cons in ND as [Hy _].
  eexists. split; [simpl; unfold upd; by rewrite Hn|]. split; [by eapply dseg_set_first|].
  split; [apply (upd_payload _ y (with_prev v)); [intros; apply payload_with_prev|unfold upd; by rewrite Hn]|].
  intros x Hx. apply lookup_insert_ne. intros ->. apply Hx, list_elem_of_here.
Qed.

(** Taking object [x] out of a chain: the neighbours are joined.  The links of
    [x] itself keep their values. *)
Definition unlink (x : nat) (h : gmap nat N) : option (gmap nat N) :=
  n ← h !! x;
  h1 ← set_next (lprev n) (lnext n) h;
  set_prev (lnext n) (lprev n) h1.

Lemma unlink_ok h l1 x l2 :
  dseg h None (l1 ++ x :: l2) None -> NoDup (l1 ++ x :: l2) ->
  exists n h', h !! x = Some n /\ lprev n = lasto None l1 /\ lnext n = hdo l2 None /\
    unlink x h = Some h' /\ dseg h' None (l1 ++ l2) None /\ same_payload h h' /\
    h' !! x = Some n /\ forall y, y ∉ l1 ++ l2 -> h' !! y = h !! y.
Proof.
  intros D ND. apply dseg_app in D as [D1 [(n & E & Pv & Nx) D2]].
  apply NoDup_app in ND as (ND1 & Dj & ND2). apply NoDup_cons in ND2 as [Hx ND2].
  destruct (set_next_last h l1 (Some x) (lnext n) D1 ND1) as (h1 & H1 & D1' & P1 & F1).
  assert (D2' : dseg h1 (Some x) l2 None).
  { eapply dseg_ext; [|exact D2]. intros y Hy. apply F1. intros Q. apply (Dj y Q). set_solver. }
  destruct (set_prev_first h1 (Some x) l2 (lprev n) D2' ND2) as (h2 & H2 & D2'' & P2 & F2).
  assert (Hx1 : x ∉ l1) by (intros Q; apply (Dj x Q); set_solver).
  exists n, h2. split; [done|]. split; [done|]. split; [done|]. split.
  { unfold unlink. rewrite E. simpl. rewrite Pv. rewrite Pv in H2. rewrite H1. simpl. by rewrite Nx in *. }
  split.
  { apply dseg_app. rewrite Pv, Nx in *. split; [|done].
    eapply dseg_ext; [|exact D1']. intros y Hy. apply F2. intros Q. apply (Dj y Hy). set_solver. }
  split; [by transitivity h1|]. split; [by rewrite F2, F1 by done|].
  intros y Hy. rewrite F2, F1; [done|set_solver|set_solver].
Qed.

(** Putting object [x] in front of the chain that starts at [head]. *)
Definition push_front (x : nat) (head : option nat) (h : gmap nat N) : option (gmap nat N) :=
  h1 ← upd x (fun n => with_next head (with_prev None n)) h;
  set_prev head (Some x) h1.

Lemma push_front_ok h l x n :
  dseg h None l None -> NoDup (x :: l) -> h !! x = Some n ->
  exists h', push_front x (hdo l None) h = Some h' /\ dseg h' None (x :: l) None /\
    same_payload h h' /\ forall y, y ∉ x :: l -> h' !! y = h !! y.
Proof.
  intros D ND E. apply NoDup_cons in ND as [Hx ND].
  set (n' := with_next (hdo l None) (with_prev None n)). set (h1 := <[x := n']> h).
  assert (E1 : upd x (fun n => with_next (hdo l None) (with_prev None n)) h = Some h1)
    by (unfold upd; by rewrite E).
  destruct (set_prev_first h1 None l (Some x)) as (h' & H' & D' & P' & F'); [by apply dseg_frame|done|].
  exists h'. unfold push_front. rewrite E1. simpl. split; [done|]. split; [|split].
  - split; [|done]. exists n'. rewrite (F' x Hx). unfold h1. rewrite lookup_insert_eq.
    split; [done|]. unfold n'. by autorewrite with astral.
  - transitivity h1; [|done]. eapply upd_payload; [|exact E1]. intros m.
    cbv beta. by autorewrite with astral.
  - intros y Hy. rewrite F' by set_solver. unfold h1. apply lookup_insert_ne. set_solver.
Qed.

Lemma dseg_nodup_head h l a : dseg h None l a -> forall x, hdo l None = Some x -> x ∈ l.
Proof. destruct l; simpl; [done|]. intros _ x [= ->]. set_solver. Qed.

End heap.

(** ** Families of chains

    A bucket array, or the lists of an allocator: several disjoint chains with
    an array of heads, and one of tails where they are kept. *)

Lemma chain_nodup (ls : list (list nat)) j l : NoDup (mjoin ls) -> ls !! j = Some l -> NoDup l.
Proof.
  revert j. induction ls as [|l0 ls IH]; intros [|j] ND E; simplify_eq/=;
    apply NoDup_app in ND as (ND1 & _ & ND2); eauto.
Qed.

Lemma chain_elem (ls : list (list nat)) j l x : ls !! j = Some l -> x ∈ l -> x ∈ mjoin ls.
Proof.
  intros E Hx. apply list_elem_of_join. exists l. split; [done|]. by eapply list_elem_of_lookup_2.
Qed.

(** Chains of different buckets have no entry in common. *)
Lemma chain_disjoint (ls : list (list nat)) i j l l' x :
  NoDup (mjoin ls) -> ls !! i = Some l -> ls !! j = Some l' -> x ∈ l -> x ∈ l' -> i = j.
Proof.
  revert i j. induction ls as [|l0 ls IH]; intros [|i] [|j] ND Ei Ej Hx Hx'; simplify_eq/=; try done.
  - apply NoDup_app in ND as (_ & D & _). destruct (D x Hx). by eapply chain_elem.
  - apply NoDup_app in ND as (_ & D & _). destruct (D x Hx'). by eapply chain_elem.
  - apply NoDup_app in ND as (_ & _ & ND). f_equal. eauto.
Qed.

Lemma elem_concat (ls : list (list nat)) x : x ∈ mjoin ls -> exists j l, ls !! j = Some l /\ x ∈ l.
Proof.
  intros (l & Hx & (j & E)%list_elem_of_lookup)%list_elem_of_join. by exists j, l.
Qed.

Lemma join_insert_perm (ls : list (list nat)) j l l' x :
  ls !! j = Some l -> l' ≡ₚ x :: l -> mjoin (<[j := l']> ls) ≡ₚ x :: mjoin ls.
Proof.
  revert j. induction ls as [|l0 ls IH]; intros [|j] E Pm; simplify_eq/=.
  - by rewrite Pm.
  - rewrite (IH j E Pm). by rewrite Permutation_middle.
Qed.

Lemma heads_insert (ls : list (list nat)) j l a :
  a = hdo l None ->
  <[j := a]> ((fun l => hdo l None) <$> ls) = (fun l => hdo l None) <$> <[j := l]> ls.
Proof. intros ->. by rewrite list_fmap_insert. Qed.

Lemma tails_insert (ls : list (list nat)) j l a :
  a = lasto None l ->
  <[j := a]> ((fun l => lasto None l) <$> ls) = (fun l => lasto None l) <$> <[j := l]> ls.
Proof. intros ->. by rewrite list_fmap_insert. Qed.

Section family.
Context {N P : Type} `{!Linked N P}.
Implicit Types (h : gmap nat N) (ls : list (list nat)).

Record dlists (h : gmap nat N) (heads tails : list (option nat)) (ls : list (list nat)) : Prop := {
  dl_heads : heads = (fun l => hdo l None) <$> ls;
  dl_tails : tails = (fun l => lasto None l) <$> ls;
  dl_seg : forall l, l ∈ ls -> dseg h None l None;
  dl_nodup : NoDup (mjoin ls)
}.

Lemma dlists_live h heads tails ls x : dlists h heads tails ls -> x ∈ mjoin ls -> exists n, h !! x = Some n.
Proof.
  intros D (j & l & E & Hx)%elem_concat. eapply dseg_live; [|exact Hx]. eapply (dl_seg _ _ _ _ D).
  by eapply list_elem_of_lookup_2.
Qed.

(** Changing one chain leaves the others' objects alone. *)
Lemma others_seg h h' ls j l l' i k :
  NoDup (mjoin ls) -> (forall l, l ∈ ls -> dseg h None l None) -> ls !! j = Some l ->
  (forall y, y ∈ mjoin ls -> y ∉ l -> h' !! y = h !! y) ->
  i <> j -> <[j := l']> ls !! i = Some k -> dseg h' None k None.
Proof.
  intros ND Seg El F Ne Ei. rewrite list_lookup_insert_ne in Ei by done.
  eapply dseg_ext; [|apply Seg; by eapply list_elem_of_lookup_2]. intros y Hy.
  apply F; [by eapply chain_elem|]. intros Hl. apply Ne. by eapply (chain_disjoint ls i j k l y).
Qed.

Lemma dlists_push h heads tails ls j l x n :
  dlists h heads tails ls -> ls !! j = Some l -> x ∉ mjoin ls -> h !! x = Some n ->
  exists h', push_front x (hdo l None) h = Some h' /\
    dlists h' (<[j := Some x]> heads) (match hdo l None with None => <[j := Some x]> tails | Some _ => tails end)
      (<[j := x :: l]> ls) /\
    same_payload h h' /\ forall y, y ∉ mjoin ls -> y <> x -> h' !! y = h !! y.
Proof.
  intros D El Nx Hn. pose proof (lookup_lt_Some _ _ _ El) as Lj. pose proof (dl_nodup _ _ _ _ D) as ND.
  assert (Nl : x ∉ l) by (intros Q; apply Nx; by eapply chain_elem).
  destruct (push_front_ok h l x n) as (h' & Pf & Ds & S & F); [|apply NoDup_cons; split; [done|by eapply chain_nodup]|done|].
  { apply (dl_seg _ _ _ _ D). by eapply list_elem_of_lookup_2. }
  exists h'. split; [done|]. split; [|split; [done|]].
  - split.
    + rewrite (dl_heads _ _ _ _ D). by apply heads_insert.
    + rewrite (dl_tails _ _ _ _ D), <- (tails_insert ls j (x :: l) (lasto (Some x) l)) by done.
      rewrite lasto_default. destruct l as [|y l]; [done|]. simpl. destruct (lasto_some y l) as [z Z]. rewrite Z.
      symmetry. apply list_insert_id. rewrite list_lookup_fmap, El. simpl. by rewrite Z.
    + intros k (i & Ei)%list_elem_of_lookup. destruct (decide (i = j)) as [->|Ne].
      * rewrite list_lookup_insert_eq in Ei by done. by injection Ei as <-.
      * eapply (others_seg h h' ls j l (x :: l) i k ND (dl_seg _ _ _ _ D) El); try done.
        intros y Hy Hl. apply F. intros [->|?]%elem_of_cons; done.
    + rewrite (join_insert_perm ls j l (x :: l) x El) by done. by apply NoDup_cons.
  - intros y Hy Ne. apply F. intros [->|?]%elem_of_cons; [done|]. apply Hy. by eapply chain_elem.
Qed.

Lemma dlists_unlink h heads tails ls j l1 x l2 :
  dlists h heads tails ls -> ls !! j = Some (l1 ++ x :: l2) ->
  exists n h', h !! x = Some n /\ unlink x h = Some h' /\
    dlists h' (match lprev n with Some _ => heads | None => <[j := lnext n]> heads end)
      (match lnext n with Some _ => tails | None => <[j := lprev n]> tails end) (<[j := l1 ++ l2]> ls) /\
    same_payload h h' /\ h' !! x = Some n /\ mjoin ls ≡ₚ x :: mjoin (<[j := l1 ++ l2]> ls) /\
    forall y, y ∉ mjoin ls -> h' !! y = h !! y.
Proof.
  intros D El. pose proof (lookup_lt_Some _ _ _ El) as Lj. pose proof (dl_nodup _ _ _ _ D) as ND.
  destruct (unlink_ok h l1 x l2) as (n & h' & Hn & Pv & Nx & U & Ds & S & Hx & F); [|by eapply chain_nodup|].
  { apply (dl_seg _ _ _ _ D). by eapply list_elem_of_lookup_2. }
  assert (Perm : mjoin ls ≡ₚ x :: mjoin (<[j := l1 ++ l2]> ls)).
  { rewrite <- (join_insert_perm (<[j := l1 ++ l2]> ls) j (l1 ++ l2) (l1 ++ x :: l2) x).
    - by rewrite list_insert_insert_eq, list_insert_id.
    - by apply list_lookup_insert_eq.
    - by rewrite Permutation_middle. }
  exists n, h'. split; [done|]. split; [done|]. split; [|split; [done|split; [done|split; [done|]]]].
  - split.
    + rewrite (dl_heads _ _ _ _ D), Pv, Nx.
      destruct l1 as [|y l1]; simpl; [by apply heads_insert|]. destruct (lasto_some y l1) as [z ->].
      rewrite <- (heads_insert ls j _ (Some y)) by done. symmetry. apply list_insert_id.
      by rewrite list_lookup_fmap, El.
    + rewrite (dl_tails _ _ _ _ D), Pv, Nx.
      destruct l2 as [|y l2]; simpl; [rewrite app_nil_r; by apply tails_insert|].
      rewrite <- (tails_insert ls j _ (lasto None (l1 ++ x :: y :: l2))) by (by rewrite !lasto_app). symmetry.
      apply list_insert_id. by rewrite list_lookup_fmap, El.
    + intros k (i & Ei)%list_elem_of_lookup. destruct (decide (i = j)) as [->|Ne].
      * rewrite list_lookup_insert_eq in Ei by done. by injection Ei as <-.
      * eapply (others_seg h h' ls j _ (l1 ++ l2) i k ND (dl_seg _ _ _ _ D) El); try done.
        intros y Hy Hl. apply F. set_solver.
    + rewrite Perm in ND. by apply NoDup_cons in ND as [_ ND].
  - intros y Hy. apply F. intros Q. apply Hy. eapply chain_elem; [exact El|]. set_solver.
Qed.

Lemma set_next_prev_comm (h : gmap nat N) a v b w :
  (forall y, a = Some y -> b = Some y -> False) ->
  (x ← set_next a v h; set_prev b w x) = (x ← set_prev b w h; set_next a v x).
Proof.
  intros Ne. destruct a as [y|], b as [z|]; cbn [set_next set_prev mbind option_bind]; try done;
    try (by destruct (upd _ _ h)).
  assert (y <> z) by (intros ->; eauto). unfold upd.
  destruct (h !! y) as [sy|] eqn:Ey, (h !! z) as [sn|] eqn:En; cbn [mbind option_bind];
    rewrite ?lookup_insert_ne by done; rewrite ?Ey, ?En; cbn [mbind option_bind]; try done.
  f_equal. by apply insert_insert_ne.
Qed.

Lemma set_prev_upd_comm (ss : gmap nat N) to v n g :
  to <> Some n -> (x ← set_prev to v ss; upd n g x) = (x ← upd n g ss; set_prev to v x).
Proof.
  intros Ne. destruct to as [y|]; cbn [set_prev mbind option_bind]; [|by destruct (upd n g ss)]. unfold upd.
  assert (y <> n) by congruence.
  destruct (ss !! y) as [sy|] eqn:Ey, (ss !! n) as [sn|] eqn:En; cbn [mbind option_bind];
    rewrite ?lookup_insert_ne by done; rewrite ?Ey, ?En; cbn [mbind option_bind]; try done.
  f_equal. by apply insert_insert_ne.
Qed.

(** Unlinking an object from chain [j] and pushing it on chain [k]. *)
Lemma dlists_move h heads tails ls j k l1 n l2 l' :
  dlists h heads tails ls -> ls !! j = Some (l1 ++ n :: l2) -> ls !! k = Some l' -> j <> k ->
  exists s h1 h2 tails2, h !! n = Some s /\ unlink n h = Some h1 /\ push_front n (hdo l' None) h1 = Some h2 /\
    dlists h2 (<[k := Some n]> (match lprev s with Some _ => heads | None => <[j := lnext s]> heads end)) tails2
      (<[k := n :: l']> (<[j := l1 ++ l2]> ls)) /\ same_payload h h2.
Proof.
  intros D El El' Ne.
  destruct (dlists_unlink _ _ _ _ _ _ _ _ D El) as (s & h1 & Es & U & D1 & S1 & Es1 & Pm & _).
  assert (Np : n ∉ mjoin (<[j := l1 ++ l2]> ls)).
  { pose proof (dl_nodup _ _ _ _ D) as ND. rewrite Pm in ND. by apply NoDup_cons in ND as [? _]. }
  destruct (dlists_push _ _ _ _ k l' n s D1) as (h2 & Pf & D2 & S2 & _); [by rewrite list_lookup_insert_ne|done|done|].
  exists s, h1, h2. eexists. split; [done|]. split; [done|]. split; [done|]. split; [exact D2|by transitivity h1].
Qed.

End family.
