(* ===== verification/HashTable.v ===== *)
(** * Hash tables ([lib/hashtable.c], [include/hashtable.h], [fnv1ahash] of
      [include/util.h])

    The chains are modelled at pointer level: [heap] maps the address of a live
    [hashentry_t] to its fields and [entries] is the bucket array.  [table_rel]
    relates a table to the finite map it stands for, and every operation is
    shown to implement the map's one. *)

From S2P Require Import Prelude Errno Mem CString DList.

(** ** FNV-1a *)

Definition FNV1PRIME : Z := 0x100000001b3.
Definition FNV1OFFSET : Z := 0xcbf29ce484222325.

Definition fnv1ahash (buffer : list Z) : Z :=
  fold_left (fun h b => u64 (Z.lxor h b * FNV1PRIME)) buffer FNV1OFFSET.

(** ** Data *)

(** [key] is the contents of the entry's own copy of the key. *)
Record hashentry_t := mk_entry {
  next : option nat;
  prev : option nat;
  hash : Z;
  keysize : Z;
  key : list Z;
  value : Z
}.

Record hashtable_t := mk_table {
  entrycount : Z;
  capacity : Z;
  entries : list (option nat);
  heap : gmap nat hashentry_t
}.

#[export, refine] Instance entry_linked : Linked hashentry_t (Z * Z * list Z * Z) := {
  lnext := next;
  lprev := prev;
  payload n := (hash n, keysize n, key n, value n);
  with_next v n := mk_entry v (prev n) (hash n) (keysize n) (key n) (value n);
  with_prev v n := mk_entry (next n) v (hash n) (keysize n) (key n) (value n)
}.
Proof. all: done. Defined.

Definition with_heap (h : gmap nat hashentry_t) (t : hashtable_t) : hashtable_t :=
  mk_table (entrycount t) (capacity t) (entries t) h.

Definition with_value (v : Z) (n : hashentry_t) : hashentry_t :=
  mk_entry (next n) (prev n) (hash n) (keysize n) (key n) v.

(** [hash % capacity]: a capacity of zero is a division error. *)
Definition bucket (t : hashtable_t) (h : Z) : option nat :=
  if capacity t =? 0 then None else Some (Z.to_nat (h mod capacity t)).

(** ** Operations *)

(** The loop of [getentry] from entry [e]; a chain is never longer than the
    number of live entries. *)
Fixpoint getentry_loop (fuel : nat) (hp : gmap nat hashentry_t) (e : option nat)
    (k : list Z) (h : Z) : option (option nat) :=
  match fuel with
  | O => None
  | S fuel' =>
      match e with
      | None => Some None
      | Some x =>
          n ← hp !! x;
          if (keysize n =? Z.of_nat (length k)) && (hash n =? h) then
            d ← memcmp_bytes (key n) k (length k) 0;
            if d =? 0 then Some (Some x) else getentry_loop fuel' hp (next n) k h
          else getentry_loop fuel' hp (next n) k h
      end
  end.

Definition getentry (t : hashtable_t) (k : list Z) (h : Z) : option (option nat) :=
  tableoffset ← bucket t h;
  e ← entries t !! tableoffset;
  getentry_loop (S (size (heap t))) (heap t) e k h.

(** [newentry] is the result of [slab_allocate], [key_ok] whether the
    allocation of the key's copy succeeds. *)
Definition hashtable_set (newentry : option nat) (key_ok : bool) (t : hashtable_t)
    (v : Z) (k : list Z) (allocate : bool) : option (Z * hashtable_t) :=
  let h := fnv1ahash k in
  entry ← getentry t k h;
  match entry with
  | Some x => hp ← upd x (with_value v) (heap t); Some (0, with_heap hp t)
  | None =>
      if allocate then
        tableoffset ← bucket t h;
        match newentry with
        | None => Some (ENOMEM, t)
        | Some x =>
            if negb key_ok then Some (ENOMEM, with_heap (delete x (heap t)) t)
            else
              head ← entries t !! tableoffset;
              hp ← push_front x head
                     (<[x := mk_entry None None h (Z.of_nat (length k)) k v]> (heap t));
              Some (0, mk_table (u64 (entrycount t + 1)) (capacity t)
                         (<[tableoffset := Some x]> (entries t)) hp)
        end
      else Some (ENOENT, t)
  end.

(** The value, or the error code. *)
Definition hashtable_get (t : hashtable_t) (k : list Z) : option (Z + Z) :=
  entry ← getentry t k (fnv1ahash k);
  match entry with
  | None => Some (inl ENOENT)
  | Some x => n ← heap t !! x; Some (inr (value n))
  end.

Definition hashtable_remove (t : hashtable_t) (k : list Z) : option (Z * hashtable_t) :=
  let h := fnv1ahash k in
  tableoffset ← bucket t h;
  entry ← getentry t k h;
  match entry with
  | None => Some (ENOENT, t)
  | Some x =>
      n ← heap t !! x;
      let entries' := match prev n with
                      | Some _ => entries t
                      | None => <[tableoffset := next n]> (entries t)
                      end in
      hp ← unlink x (heap t);
      Some (0, mk_table (u64 (entrycount t - 1)) (capacity t) entries' (delete x hp))
  end.

(** The inner loop of [hashtable_destroy]: the entry is copied before it is
    freed, and the copy's [next] is followed. *)
Fixpoint destroy_chain (fuel : nat) (hp : gmap nat hashentry_t) (e : option nat)
    : option (gmap nat hashentry_t) :=
  match fuel with
  | O => None
  | S fuel' =>
      match e with
      | None => Some hp
      | Some x => n ← hp !! x; destroy_chain fuel' (delete x hp) (next n)
      end
  end.

Fixpoint destroy_buckets (es : list (option nat)) (hp : gmap nat hashentry_t)
    : option (gmap nat hashentry_t) :=
  match es with
  | [] => Some hp
  | e :: es' => hp' ← destroy_chain (S (size hp)) hp e; destroy_buckets es' hp'
  end.

(** The live entries left after the table is destroyed. *)
Definition hashtable_destroy (t : hashtable_t) : option (gmap nat hashentry_t) :=
  destroy_buckets (entries t) (heap t).

(** [entries] is fresh zeroed memory; [entrycount] keeps what the caller's
    object held. *)
Definition hashtable_init (cache_ok entries_ok : bool) (old : hashtable_t) (sz : Z)
    : Z * hashtable_t :=
  if negb cache_ok then (ENOMEM, old)
  else if negb entries_ok then (ENOMEM, mk_table (entrycount old) sz [] (heap old))
  else (0, mk_table (entrycount old) sz (replicate (Z.to_nat sz) None) (heap old)).

(** ** The map a table stands for *)

(** [ls] are the chains, bucket by bucket. *)
Record table_rel (t : hashtable_t) (ls : list (list nat)) (m : gmap (list Z) Z) : Prop := {
  tr_capacity : 0 < capacity t /\ capacity t = Z.of_nat (length ls);
  tr_heads : entries t = (fun l => hdo l None) <$> ls;
  tr_seg : forall l, l ∈ ls -> dseg (heap t) None l None;
  tr_nodup : NoDup (mjoin ls);
  tr_entry : forall j l x, ls !! j = Some l -> x ∈ l ->
    exists n, heap t !! x = Some n /\ hash n = fnv1ahash (key n) /\
      keysize n = Z.of_nat (length (key n)) /\ Z.to_nat (hash n mod capacity t) = j /\
      m !! key n = Some (value n);
  tr_mapped : forall k v, m !! k = Some v ->
    exists x n, x ∈ mjoin ls /\ heap t !! x = Some n /\ key n = k;
  tr_inj : forall x y n n', x ∈ mjoin ls -> y ∈ mjoin ls ->
    heap t !! x = Some n -> heap t !! y = Some n' -> key n = key n' -> x = y
}.

Lemma length_chain_size (hp : gmap nat hashentry_t) b l a :
  dseg hp b l a -> NoDup l -> (length l <= size hp)%nat.
Proof. intros D ND. apply nodup_live_size; [done|]. intros x. by eapply dseg_live. Qed.

(** ** Lookup *)

Definition entry_ok (n : hashentry_t) : Prop :=
  hash n = fnv1ahash (key n) /\ keysize n = Z.of_nat (length (key n)).

Lemma getentry_loop_spec hp k l : forall b fuel,
  dseg hp b l None -> (forall x n, x ∈ l -> hp !! x = Some n -> entry_ok n) -> (length l < fuel)%nat ->
  (exists x n, x ∈ l /\ hp !! x = Some n /\ key n = k /\
     getentry_loop fuel hp (hdo l None) k (fnv1ahash k) = Some (Some x)) \/
  (getentry_loop fuel hp (hdo l None) k (fnv1ahash k) = Some None /\
     forall x n, x ∈ l -> hp !! x = Some n -> key n <> k).
Proof.
  induction l as [|x l IH]; intros b [|fuel] D Ok F; simpl in F; try lia.
  { right. split; [done|]. intros x n H. by apply not_elem_of_nil in H. }
  destruct D as [(n & E & _ & Nx) D]. simpl. rewrite E. simpl in Nx |- *.
  destruct (Ok x n (list_elem_of_here x l) E) as [Hh Hk].
  assert (Rec : getentry_loop fuel hp (next n) k (fnv1ahash k) = getentry_loop fuel hp (hdo l None) k (fnv1ahash k))
    by by rewrite Nx.
  assert (Later : key n <> k ->
    (exists y n', y ∈ x :: l /\ hp !! y = Some n' /\ key n' = k /\
      getentry_loop fuel hp (next n) k (fnv1ahash k) = Some (Some y)) \/
    (getentry_loop fuel hp (next n) k (fnv1ahash k) = Some None /\
      forall y n', y ∈ x :: l -> hp !! y = Some n' -> key n' <> k)).
  { intros Ne. rewrite Rec. destruct (IH (Some x) fuel D) as [(y & n' & Hy & Ey & Ky & R)|(R & No)]; [|lia|..].
    - intros y n' Hy. apply Ok. by apply elem_of_cons; right.
    - left. exists y, n'. split; [by apply elem_of_cons; right|]. done.
    - right. split; [done|]. intros y n' [->|Hy]%elem_of_cons Ey; [congruence|eauto]. }
  destruct ((keysize n =? Z.of_nat (length k)) && (hash n =? fnv1ahash k)) eqn:Q.
  - assert (length (key n) = length k) as L by lia. rewrite <- L.
    destruct (memcmp_bytes_eq (key n) k L) as (d & -> & Hd). simpl. destruct (Z.eqb_spec d 0) as [->|Nd].
    + left. exists x, n. split; [apply list_elem_of_here|]. split; [done|]. split; [by apply Hd|done].
    + apply Later. intros K. apply Nd. by apply Hd.
  - apply Later. intros K. rewrite <- K, Hh, Hk, !Z.eqb_refl in Q. done.
Qed.

Section rel.
Context (t : hashtable_t) (ls : list (list nat)) (m : gmap (list Z) Z) (R : table_rel t ls m).

Lemma bucket_chain h :
  exists j l, bucket t h = Some j /\ j = Z.to_nat (h mod capacity t) /\ ls !! j = Some l /\
    entries t !! j = Some (hdo l None).
Proof.
  destruct (tr_capacity _ _ _ R) as [Pos Cap]. unfold bucket.
  rewrite (proj2 (Z.eqb_neq (capacity t) 0)) by lia.
  pose proof (Z.mod_pos_bound h (capacity t) Pos).
  destruct (lookup_lt_is_Some_2 ls (Z.to_nat (h mod capacity t))) as [l E]; [lia|].
  eexists _, l. split; [done|]. split; [done|]. split; [done|].
  rewrite (tr_heads _ _ _ R), list_lookup_fmap, E. done.
Qed.

Lemma chain_seg j l : ls !! j = Some l -> dseg (heap t) None l None.
Proof. intros E. apply (tr_seg _ _ _ R). by eapply list_elem_of_lookup_2. Qed.

Lemma getentry_spec k :
  exists j l, bucket t (fnv1ahash k) = Some j /\ ls !! j = Some l /\ entries t !! j = Some (hdo l None) /\
  ((exists x n, x ∈ l /\ heap t !! x = Some n /\ key n = k /\ m !! k = Some (value n) /\
      getentry t k (fnv1ahash k) = Some (Some x)) \/
   (getentry t k (fnv1ahash k) = Some None /\ m !! k = None)).
Proof.
  destruct (bucket_chain (fnv1ahash k)) as (j & l & B & J & E & He).
  exists j, l. split; [done|]. split; [done|]. split; [done|].
  assert (Ok : forall x n, x ∈ l -> heap t !! x = Some n -> entry_ok n /\ m !! key n = Some (value n)).
  { intros x n Hx Hn. destruct (tr_entry _ _ _ R j l x E Hx) as (n' & E' & ? & ? & _ & ?).
    rewrite Hn in E'. injection E' as <-. done. }
  unfold getentry. rewrite B. simpl. rewrite He. simpl.
  destruct (getentry_loop_spec (heap t) k l None (S (size (heap t))) (chain_seg j l E))
    as [(x & n & Hx & Hn & K & G)|(G & No)].
  - intros x n Hx Hn. by apply (Ok x n).
  - pose proof (length_chain_size _ _ _ _ (chain_seg j l E) (chain_nodup _ _ _ (tr_nodup _ _ _ R) E)). lia.
  - left. exists x, n. rewrite <- K at 2. by destruct (Ok x n Hx Hn).
  - right. split; [done|]. destruct (m !! k) as [v|] eqn:M; [exfalso|done].
    destruct (tr_mapped _ _ _ R k v M) as (x & n & (j' & l' & E' & Hx)%elem_concat & Hn & K).
    destruct (tr_entry _ _ _ R j' l' x E' Hx) as (n' & Hn' & Hh & _ & J' & _).
    rewrite Hn in Hn'. injection Hn' as <-. rewrite Hh, K, <- J in J'. subst j'.
    rewrite E in E'. injection E' as <-. by apply (No x n).
Qed.

(** A key has at most one entry. *)
Lemma entry_unique x n y n' :
  x ∈ mjoin ls -> y ∈ mjoin ls -> heap t !! x = Some n -> heap t !! y = Some n' -> y <> x -> key n' <> key n.
Proof. intros Hx Hy En En' Ne K. apply Ne. by eapply (tr_inj _ _ _ R). Qed.

Lemma set_existing k v x n :
  x ∈ mjoin ls -> heap t !! x = Some n -> key n = k ->
  table_rel (with_heap (<[x := with_value v n]> (heap t)) t) ls (<[k := v]> m).
Proof.
  intros Hx Hn K. set (hp := <[x := with_value v n]> (heap t)).
  assert (Keep : forall y n', hp !! y = Some n' -> exists n0, heap t !! y = Some n0 /\ key n0 = key n').
  { intros y n' Hy. unfold hp in Hy. destruct (decide (y = x)) as [->|Ne].
    - rewrite lookup_insert_eq in Hy. injection Hy as <-. by exists n.
    - rewrite lookup_insert_ne in Hy by done. by exists n'. }
  split; simpl; try apply R.
  - intros l Hl. eapply dseg_links; [|exact (tr_seg _ _ _ R l Hl)]. intros y n' _ Hy. fold hp.
    destruct (decide (y = x)) as [->|Ne].
    + rewrite Hn in Hy. injection Hy as <-. exists (with_value v n). unfold hp. by rewrite lookup_insert_eq.
    + exists n'. unfold hp. by rewrite lookup_insert_ne.
  - intros j l y E Hy. destruct (tr_entry _ _ _ R j l y E Hy) as (n' & Hn' & A & B & C & M). fold hp.
    destruct (decide (y = x)) as [->|Ne].
    + rewrite Hn in Hn'. injection Hn' as <-. exists (with_value v n). unfold hp.
      rewrite lookup_insert_eq. simpl. rewrite K, lookup_insert_eq. rewrite K in *. done.
    + exists n'. unfold hp. rewrite lookup_insert_ne by done.
      rewrite lookup_insert_ne; [done|]. rewrite <- K. apply not_eq_sym.
      eapply (entry_unique x n y n'); eauto using chain_elem.
  - intros k' v' M. fold hp. destruct (decide (k' = k)) as [->|Ne].
    + exists x, (with_value v n). unfold hp. by rewrite lookup_insert_eq.
    + rewrite lookup_insert_ne in M by done. destruct (tr_mapped _ _ _ R k' v' M) as (y & n' & Hy & Hn' & K').
      exists y, n'. split; [done|]. split; [|done]. unfold hp. rewrite lookup_insert_ne; congruence.
  - intros y z n1 n2 Hy Hz E1 E2 K'. destruct (Keep y n1 E1) as (m1 & M1 & K1).
    destruct (Keep z n2 E2) as (m2 & M2 & K2). eapply (tr_inj _ _ _ R); eauto; congruence.
Qed.

Lemma fresh_not_in x : heap t !! x = None -> x ∉ mjoin ls.
Proof.
  intros E (j & l & El & Hx)%elem_concat. destruct (tr_entry _ _ _ R j l x El Hx) as (n & Hn & _). congruence.
Qed.

End rel.

(** ** Changing one chain *)

Lemma pay_inv (h h' : gmap nat hashentry_t) x n :
  same_payload h h' -> h !! x = Some n ->
  exists n', h' !! x = Some n' /\ hash n' = hash n /\ keysize n' = keysize n /\
    key n' = key n /\ value n' = value n.
Proof.
  intros S E. specialize (S x). rewrite E in S. simpl in S.
  destruct (h' !! x) as [n'|]; simpl in S; [|done]. exists n'. simplify_eq. done.
Qed.

Lemma pay_inv' (h h' : gmap nat hashentry_t) x n :
  same_payload h h' -> h' !! x = Some n -> exists n', h !! x = Some n' /\ key n' = key n.
Proof.
  intros S E. destruct (pay_inv h' h x n) as (n' & ? & _ & _ & ? & _); [by symmetry|done|]. by exists n'.
Qed.

Lemma set_new t ls m j l x k v hp count :
  table_rel t ls m -> heap t !! x = None -> m !! k = None ->
  j = Z.to_nat (fnv1ahash k mod capacity t) -> ls !! j = Some l ->
  push_front x (hdo l None)
    (<[x := mk_entry None None (fnv1ahash k) (Z.of_nat (length k)) k v]> (heap t)) = Some hp ->
  table_rel (mk_table count (capacity t) (<[j := Some x]> (entries t)) hp)
    (<[j := x :: l]> ls) (<[k := v]> m).
Proof.
  intros R Fr Mk J El Pf. set (e := mk_entry _ _ _ _ _ _) in *. set (h1 := <[x := e]> (heap t)) in *.
  pose proof (fresh_not_in t ls m R x Fr) as Nx.
  pose proof (tr_nodup _ _ _ R) as ND. pose proof (lookup_lt_Some _ _ _ El) as Lj.
  assert (Nl : x ∉ l) by (intros Q; apply Nx; by eapply chain_elem).
  destruct (push_front_ok h1 l x e) as (hp' & Pf' & D & P & F).
  { apply dseg_frame; [done|]. by eapply chain_seg. }
  { apply NoDup_cons. split; [done|by eapply chain_nodup]. }
  { unfold h1. apply lookup_insert_eq. }
  rewrite Pf in Pf'. injection Pf' as <-.
  assert (Perm : mjoin (<[j := x :: l]> ls) ≡ₚ x :: mjoin ls) by (by eapply join_insert_perm).
  assert (Old : forall y n, heap t !! y = Some n -> h1 !! y = Some n)
    by (intros y n E; unfold h1; rewrite lookup_insert_ne; congruence).
  split; simpl.
  - rewrite length_insert. exact (tr_capacity _ _ _ R).
  - rewrite (tr_heads _ _ _ R). by apply heads_insert.
  - intros l' (i & Ei)%list_elem_of_lookup. destruct (decide (i = j)) as [->|Ne].
    + rewrite list_lookup_insert_eq in Ei by done. injection Ei as <-. done.
    + rewrite list_lookup_insert_ne in Ei by done.
      eapply dseg_ext; [|exact (chain_seg t ls m R i l' Ei)]. intros y Hy. rewrite F.
      * unfold h1. apply lookup_insert_ne. intros ->. apply Nx. by eapply chain_elem.
      * intros [->|Hy']%elem_of_cons; [apply Nx; by eapply chain_elem|].
        apply Ne. by eapply (chain_disjoint ls i j l' l y).
  - rewrite Perm. by apply NoDup_cons.
  - intros i l' y Ei Hy.
    assert (Q : (y = x /\ i = j) \/ exists l0, ls !! i = Some l0 /\ y ∈ l0).
    { destruct (decide (i = j)) as [->|Ne].
      - rewrite list_lookup_insert_eq in Ei by done. injection Ei as <-.
        apply elem_of_cons in Hy as [->|Hy]; [by left|right; by exists l].
      - rewrite list_lookup_insert_ne in Ei by done. right. by exists l'. }
    destruct Q as [[-> ->]|(l0 & E0 & Hy0)].
    + destruct (pay_inv h1 hp x e P) as (n & Hn & A & B & C & V); [apply lookup_insert_eq|].
      exists n. rewrite A, B, C, V. simpl. by rewrite lookup_insert_eq.
    + destruct (tr_entry _ _ _ R i l0 y E0 Hy0) as (n & Hn & A & B & C & M).
      destruct (pay_inv h1 hp y n P (Old y n Hn)) as (n' & Hn' & A' & B' & C' & V').
      exists n'. rewrite A', B', C', V'. split_and!; try done.
      rewrite lookup_insert_ne; [done|]. intros ->. congruence.
  - intros k' v' M. setoid_rewrite Perm. destruct (decide (k' = k)) as [->|Ne].
    + destruct (pay_inv h1 hp x e P) as (n & Hn & _ & _ & C & _); [apply lookup_insert_eq|].
      exists x, n. split; [apply list_elem_of_here|]. done.
    + rewrite lookup_insert_ne in M by done. destruct (tr_mapped _ _ _ R k' v' M) as (y & n & Hy & Hn & K).
      destruct (pay_inv h1 hp y n P (Old y n Hn)) as (n' & Hn' & _ & _ & C' & _).
      exists y, n'. split; [by apply elem_of_cons; right|]. split; [done|congruence].
  - intros y z n1 n2. rewrite Perm. intros Hy Hz E1 E2 K.
    destruct (pay_inv' _ _ _ _ P E1) as (m1 & M1 & K1). destruct (pay_inv' _ _ _ _ P E2) as (m2 & M2 & K2).
    assert (New : forall y0 m0, y0 ∈ mjoin ls -> h1 !! y0 = Some m0 -> heap t !! y0 = Some m0 /\ key m0 <> k).
    { intros y0 m0 Hy0 E0. unfold h1 in E0. rewrite lookup_insert_ne in E0 by (intros ->; done).
      split; [done|]. intros Kk. apply elem_concat in Hy0 as (i & l0 & El0 & Hy0).
      destruct (tr_entry _ _ _ R i l0 y0 El0 Hy0) as (n & Hn & _ & _ & _ & M).
      rewrite E0 in Hn. injection Hn as <-. congruence. }
    assert (Kx : forall m0, h1 !! x = Some m0 -> key m0 = k).
    { intros m0 E0. unfold h1 in E0. rewrite lookup_insert_eq in E0. by injection E0 as <-. }
    apply elem_of_cons in Hy as [->|Hy], Hz as [->|Hz]; [done|..].
    + destruct (New z m2 Hz M2) as [_ Q]. destruct Q. rewrite K2, <- K, <- K1. auto.
    + destruct (New y m1 Hy M1) as [_ Q]. destruct Q. rewrite K1, K, <- K2. auto.
    + destruct (New y m1 Hy M1) as [? _], (New z m2 Hz M2) as [? _].
      eapply (tr_inj _ _ _ R); eauto. congruence.
Qed.

Lemma remove_entry t ls m j l1 x l2 n hp count es :
  table_rel t ls m -> ls !! j = Some (l1 ++ x :: l2) -> heap t !! x = Some n ->
  unlink x (heap t) = Some hp ->
  es = (match prev n with Some _ => entries t | None => <[j := next n]> (entries t) end) ->
  table_rel (mk_table count (capacity t) es (delete x hp)) (<[j := l1 ++ l2]> ls) (delete (key n) m).
Proof.
  intros R El En U Es. pose proof (tr_nodup _ _ _ R) as ND. pose proof (lookup_lt_Some _ _ _ El) as Lj.
  pose proof (chain_nodup _ _ _ ND El) as NDl. pose proof (chain_seg t ls m R _ _ El) as D0.
  destruct (unlink_ok (heap t) l1 x l2 D0 NDl) as (n' & hp' & En' & Pv & Nx & U' & D & P & Ex & F).
  rewrite En in En'. injection En' as <-. rewrite U in U'. injection U' as <-.
  assert (Perm : mjoin ls ≡ₚ x :: mjoin (<[j := l1 ++ l2]> ls)).
  { rewrite <- (join_insert_perm (<[j := l1 ++ l2]> ls) j (l1 ++ l2) (l1 ++ x :: l2) x).
    - by rewrite list_insert_insert_eq, list_insert_id.
    - by apply list_lookup_insert_eq.
    - by rewrite Permutation_middle. }
  pose proof ND as ND'. rewrite Perm in ND'. apply NoDup_cons in ND' as [Hx ND'].
  assert (Xin : x ∈ mjoin ls) by (rewrite Perm; apply list_elem_of_here).
  assert (Keep : forall y m0, y ∈ mjoin (<[j := l1 ++ l2]> ls) -> heap t !! y = Some m0 -> exists n',
     delete x hp !! y = Some n' /\ hash n' = hash m0 /\ keysize n' = keysize m0 /\ key n' = key m0 /\ value n' = value m0).
  { intros y m0 Hy E. rewrite lookup_delete_ne by (intros ->; done). by eapply pay_inv. }
  assert (Back : forall y m0, delete x hp !! y = Some m0 -> exists n', heap t !! y = Some n' /\ key n' = key m0).
  { intros y m0 E. apply lookup_delete_Some in E as [_ E]. by eapply pay_inv'. }
  assert (Sub : forall y, y ∈ mjoin (<[j := l1 ++ l2]> ls) -> y ∈ mjoin ls)
    by (intros y Hy; rewrite Perm; by apply elem_of_cons; right).
  split; simpl.
  - rewrite length_insert. exact (tr_capacity _ _ _ R).
  - rewrite Es, (tr_heads _ _ _ R). simpl in Pv, Nx. rewrite Pv, Nx.
    destruct l1 as [|y l1]; simpl; [by apply heads_insert|].
    destruct (lasto_cases (Some y) l1) as [(-> & ->)|(l' & z & -> & ->)].
    all: rewrite <- (heads_insert ls j _ (Some y)) by done; symmetry; apply list_insert_id;
      by rewrite list_lookup_fmap, El.
  - intros l' (i & Ei)%list_elem_of_lookup. destruct (decide (i = j)) as [->|Ne].
    + rewrite list_lookup_insert_eq in Ei by done. injection Ei as <-. apply dseg_fresh_del; [|done].
      intros Q. apply NoDup_app in NDl as (_ & Dj & NDx). apply NoDup_cons in NDx as [Nx2 _].
      apply elem_of_app in Q as [Q|Q]; [apply (Dj x Q); apply list_elem_of_here|done].
    + rewrite list_lookup_insert_ne in Ei by done.
      assert (Out : forall y, y ∈ l' -> y ∉ l1 ++ x :: l2).
      { intros y Hy Q. apply Ne. by eapply (chain_disjoint ls i j l' _ y). }
      apply dseg_fresh_del; [intros Q; apply (Out x Q); set_solver|].
      eapply dseg_ext; [|exact (chain_seg t ls m R i l' Ei)]. intros y Hy. apply F. specialize (Out y Hy). set_solver.
  - done.
  - intros i l' y Ei Hy. pose proof (chain_elem _ _ _ _ Ei Hy) as Hj.
    assert (exists l0, ls !! i = Some l0 /\ y ∈ l0) as (l0 & E0 & Hy0).
    { destruct (decide (i = j)) as [->|Ne].
      - rewrite list_lookup_insert_eq in Ei by done. injection Ei as <-. exists (l1 ++ x :: l2). set_solver.
      - rewrite list_lookup_insert_ne in Ei by done. by exists l'. }
    destruct (tr_entry _ _ _ R i l0 y E0 Hy0) as (m0 & Hm & A & B & C & M).
    destruct (Keep y m0 Hj Hm) as (n1 & Hn1 & A' & B' & C' & V').
    exists n1. rewrite A', B', C', V'. split_and!; try done.
    rewrite lookup_delete_ne; [done|]. apply not_eq_sym.
    eapply (entry_unique t ls m R x n y m0); eauto. intros ->. done.
  - intros k v M. apply lookup_delete_Some in M as [Ne M].
    destruct (tr_mapped _ _ _ R k v M) as (y & m0 & Hy & Hm & K). rewrite Perm in Hy.
    apply elem_of_cons in Hy as [->|Hy]; [congruence|].
    destruct (Keep y m0 Hy Hm) as (n1 & Hn1 & _ & _ & C & _). exists y, n1. split_and!; congruence.
  - intros y z n1 n2 Hy Hz E1 E2 K. destruct (Back y n1 E1) as (m1 & M1 & K1), (Back z n2 E2) as (m2 & M2 & K2).
    eapply (tr_inj _ _ _ R); eauto. congruence.
Qed.

(** ** Operations as map operations *)

Lemma hashtable_init_empty old sz :
  0 < sz -> table_rel (hashtable_init true true old sz).2 (replicate (Z.to_nat sz) []) ∅.
Proof.
  intros H. assert (J : mjoin (replicate (Z.to_nat sz) ([] : list nat)) = [])
    by (induction (Z.to_nat sz); simpl; auto).
  split; simpl.
  - rewrite length_replicate. lia.
  - by rewrite fmap_replicate.
  - intros l Hl. apply elem_of_replicate in Hl as [-> _]. done.
  - rewrite J. constructor.
  - intros j l x E Hx. apply lookup_replicate in E as [-> _]. by apply not_elem_of_nil in Hx.
  - intros k v M. by rewrite lookup_empty in M.
  - rewrite J. intros x y n n' Hx. by apply not_elem_of_nil in Hx.
Qed.

Inductive ht_op :=
| ht_set (newentry : option nat) (key_ok : bool) (v : Z) (k : list Z) (allocate : bool)
| ht_get (k : list Z)
| ht_remove (k : list Z).

(** A call of the table: its return code or the value it delivers, and the
    table after it. *)
Definition ht_exec (o : ht_op) (t : hashtable_t) : option ((Z + Z) * hashtable_t) :=
  match o with
  | ht_set e ok v k a => '(r, t') ← hashtable_set e ok t v k a; Some (inl r, t')
  | ht_get k => r ← hashtable_get t k; Some (r, t)
  | ht_remove k => '(r, t') ← hashtable_remove t k; Some (inl r, t')
  end.

(** The same call on a finite map. *)
Definition map_exec (o : ht_op) (m : gmap (list Z) Z) : (Z + Z) * gmap (list Z) Z :=
  match o with
  | ht_set e ok v k a =>
      match m !! k with
      | Some _ => (inl 0, <[k := v]> m)
      | None =>
          if a then
            if ok && bool_decide (is_Some e) then (inl 0, <[k := v]> m) else (inl ENOMEM, m)
          else (inl ENOENT, m)
      end
  | ht_get k => (match m !! k with Some v => inr v | None => inl ENOENT end, m)
  | ht_remove k =>
      match m !! k with Some _ => (inl 0, delete k m) | None => (inl ENOENT, m) end
  end.

(** The slab allocator hands out an address that is not in use. *)
Definition ht_legal (o : ht_op) (t : hashtable_t) : bool :=
  match o with ht_set (Some x) _ _ _ _ => bool_decide (heap t !! x = None) | _ => true end.

Lemma ht_set_refines t ls m e ok v k a :
  table_rel t ls m -> ht_legal (ht_set e ok v k a) t = true ->
  exists t' ls', ht_exec (ht_set e ok v k a) t = Some ((map_exec (ht_set e ok v k a) m).1, t') /\
    table_rel t' ls' (map_exec (ht_set e ok v k a) m).2.
Proof.
  intros R L. unfold ht_exec, map_exec, hashtable_set.
  destruct (getentry_spec t ls m R k) as (j & l & B & El & He & [(x & n & Hx & Hn & K & M & G)|[G M]]).
  - rewrite G, M. simpl. unfold upd. rewrite Hn. simpl. eexists _, ls. split; [reflexivity|].
    eapply set_existing; eauto using chain_elem.
  - rewrite G, M. simpl. destruct a; [|by exists t, ls]. rewrite B. simpl.
    destruct e as [x|]; [|rewrite andb_false_r; by exists t, ls].
    apply bool_decide_eq_true in L. destruct ok; simpl.
    2: { rewrite delete_id by done. exists t, ls. by destruct t. }
    rewrite He. simpl.
    destruct (push_front_ok (<[x := mk_entry None None (fnv1ahash k) (Z.of_nat (length k)) k v]> (heap t)) l x
      (mk_entry None None (fnv1ahash k) (Z.of_nat (length k)) k v)) as (hp & Pf & _).
    { apply dseg_frame; [|by eapply chain_seg]. intros Q. eapply fresh_not_in; eauto using chain_elem. }
    { apply NoDup_cons. split; [|eapply chain_nodup; eauto using tr_nodup].
      intros Q. eapply fresh_not_in; eauto using chain_elem. }
    { apply lookup_insert_eq. }
    rewrite Pf. simpl. eexists _, _. split; [reflexivity|]. eapply set_new; eauto.
    destruct (bucket_chain t ls m R (fnv1ahash k)) as (j' & _ & B' & J & _). congruence.
Qed.

Lemma ht_remove_refines t ls m k :
  table_rel t ls m ->
  exists t' ls', ht_exec (ht_remove k) t = Some ((map_exec (ht_remove k) m).1, t') /\
    table_rel t' ls' (map_exec (ht_remove k) m).2.
Proof.
  intros R. unfold ht_exec, map_exec, hashtable_remove.
  destruct (getentry_spec t ls m R k) as (j & l & B & El & He & [(x & n & Hx & Hn & K & M & G)|[G M]]).
  - rewrite B, G, M. simpl. rewrite Hn. simpl. apply list_elem_of_split in Hx as (l1 & l2 & ->).
    pose proof (chain_nodup _ _ _ (tr_nodup _ _ _ R) El) as NDl.
    destruct (unlink_ok (heap t) l1 x l2 (chain_seg t ls m R _ _ El) NDl)
      as (n' & hp & En' & _ & _ & U & _). rewrite U. simpl.
    eexists _, _. split; [reflexivity|]. rewrite <- K. by eapply remove_entry.
  - rewrite B, G, M. simpl. by exists t, ls.
Qed.

Lemma ht_exec_refines t ls m o :
  table_rel t ls m -> ht_legal o t = true ->
  exists t' ls', ht_exec o t = Some ((map_exec o m).1, t') /\ table_rel t' ls' (map_exec o m).2.
Proof.
  intros R L. destruct o as [e ok v k a|k|k]; [by apply ht_set_refines with ls| |by apply ht_remove_refines with ls].
  exists t, ls. split; [|done]. unfold ht_exec, hashtable_get, map_exec.
  destruct (getentry_spec t ls m R k) as (j & l & _ & _ & _ & [(x & n & _ & Hn & _ & M & G)|[G M]]);
    rewrite G, M; simpl; [by rewrite Hn|done].
Qed.

Fixpoint ht_run (l : list ht_op) (t : hashtable_t) : option (list (Z + Z) * hashtable_t) :=
  match l with
  | [] => Some ([], t)
  | o :: l' => '(r, t') ← ht_exec o t; '(rs, t'') ← ht_run l' t'; Some (r :: rs, t'')
  end.

Fixpoint map_run (l : list ht_op) (m : gmap (list Z) Z) : list (Z + Z) * gmap (list Z) Z :=
  match l with
  | [] => ([], m)
  | o :: l' => let '(r, m') := map_exec o m in let '(rs, m'') := map_run l' m' in (r :: rs, m'')
  end.

Fixpoint ht_legal_run (l : list ht_op) (t : hashtable_t) : bool :=
  match l with
  | [] => true
  | o :: l' =>
      ht_legal o t && match ht_exec o t with Some (_, t') => ht_legal_run l' t' | None => true end
  end.

(** ** Properties *)

(** C9. Any sequence of set, get and remove calls on a table gives the results
    the same calls give on the finite map it stands for, without following a
    link to a freed entry, and ends in a table of the resulting map. *)
Theorem hashtable_refines_map l t ls m :
  table_rel t ls m -> ht_legal_run l t = true ->
  exists t' ls', ht_run l t = Some ((map_run l m).1, t') /\ table_rel t' ls' (map_run l m).2.
Proof.
  revert t ls m. induction l as [|o l IH]; intros t ls m R L; simpl in *; [by exists t, ls|].
  apply andb_prop in L as [Lo Ll]. destruct (ht_exec_refines t ls m o R Lo) as (t1 & ls1 & E & R1).
  rewrite E in Ll |- *. simpl. destruct (map_exec o m) as [r m1]. simpl in *.
  destruct (IH t1 ls1 m1 R1 Ll) as (t2 & ls2 & E2 & R2). rewrite E2. simpl.
  destruct (map_run l m1) as [rs m2]. by exists t2, ls2.
Qed.

Lemma destroy_chain_ok l : forall hp b fuel,
  dseg hp b l None -> NoDup l -> (length l < fuel)%nat ->
  exists hp', destroy_chain fuel hp (hdo l None) = Some hp' /\
    forall x, hp' !! x = if decide (x ∈ l) then None else hp !! x.
Proof.
  induction l as [|x l IH]; intros hp b [|fuel] D ND F; simpl in F; try lia.
  { exists hp. split; [done|]. intros x. rewrite decide_False; [done|apply not_elem_of_nil]. }
  destruct D as [(n & E & _ & Nx) D]. apply NoDup_cons in ND as [Hx ND]. simpl in Nx |- *. rewrite E. simpl.
  destruct (IH (delete x hp) (Some x) fuel) as (hp' & H & S); [by apply dseg_fresh_del|done|lia|].
  rewrite Nx. exists hp'. split; [done|]. intros y. rewrite S. destruct (decide (y = x)) as [->|Ne].
  - rewrite lookup_delete_eq. repeat case_decide; try done. exfalso. set_solver.
  - rewrite lookup_delete_ne by done. repeat case_decide; try done; exfalso; set_solver.
Qed.

#[local] Arguments destroy_chain : simpl never.

(** Destroying a table frees each of its entries, no other object, and
    reads no entry after it is freed. *)
Theorem hashtable_destroy_frees t ls m :
  table_rel t ls m ->
  exists hp, hashtable_destroy t = Some hp /\
    forall x, hp !! x = if decide (x ∈ mjoin ls) then None else heap t !! x.
Proof.
  intros R. unfold hashtable_destroy. rewrite (tr_heads _ _ _ R).
  pose proof (tr_seg _ _ _ R) as Seg. pose proof (tr_nodup _ _ _ R) as ND. clear R. revert Seg.
  generalize (heap t) as hp. clear t m. revert ND. induction ls as [|l ls IH]; intros ND hp Seg; simpl.
  { by exists hp. }
  apply NoDup_app in ND as (ND1 & Dj & ND).
  assert (Dl : dseg hp None l None) by (apply Seg, list_elem_of_here).
  destruct (destroy_chain_ok l hp None (S (size hp)) Dl ND1) as (hp1 & E1 & S1).
  { pose proof (length_chain_size _ _ _ _ Dl ND1). lia. }
  rewrite E1. simpl. destruct (IH ND hp1) as (hp2 & E2 & S2).
  { intros l' Hl'. eapply dseg_ext; [|apply Seg; by apply elem_of_cons; right].
    intros x Hx. rewrite S1. rewrite decide_False; [done|]. intros Q. apply (Dj x Q).
    apply list_elem_of_join. by exists l'. }
  exists hp2. split; [done|]. intros x. rewrite S2, S1.
  change (mjoin (l :: ls)) with (l ++ mjoin ls). pose proof (elem_of_app l (mjoin ls) x).
  repeat case_decide; tauto.
Qed.

(** ** Examples *)

(** Two buckets, so that the keys below share chains. *)
Definition sample_table : hashtable_t :=
  (hashtable_init true true (mk_table 0 0 [] ∅) 2).2.

Definition sample_ops : list ht_op :=
  [ht_set (Some 1%nat) true 10 [1] true; ht_set (Some 2%nat) true 20 [2] true;
   ht_set (Some 3%nat) true 30 [3; 4] true; ht_set None true 40 [5] true;
   ht_set (Some 4%nat) true 11 [1] true; ht_get [1]; ht_remove [2]; ht_get [2]; ht_get [3; 4];
   ht_set (Some 2%nat) true 50 [6] false].

Lemma hashtable_refines_map_witness :
  exists t' ls' rs, ht_run sample_ops sample_table = Some (rs, t') /\
    rs = [inl 0; inl 0; inl 0; inl ENOMEM; inl 0; inr 11; inl 0; inl ENOENT; inr 30; inl ENOENT] /\
    table_rel t' ls' (map_run sample_ops ∅).2.
Proof.
  destruct (hashtable_refines_map sample_ops sample_table _ ∅ (hashtable_init_empty _ 2 eq_refl))
    as (t' & ls' & E & R); [vm_compute; reflexivity|].
  exists t', ls', (map_run sample_ops ∅).1. split; [exact E|]. split; [vm_compute; reflexivity|exact R].
Defined.

Lemma hashtable_destroy_frees_witness :
  exists t ls m hp, m !! [1] = Some 10 /\ table_rel t ls m /\ hashtable_destroy t = Some hp /\
    forall x, hp !! x = if decide (x ∈ mjoin ls) then None else heap t !! x.
Proof.
  destruct (ht_exec_refines sample_table _ ∅ (ht_set (Some 1%nat) true 10 [1] true)
    (hashtable_init_empty _ 2 eq_refl) eq_refl) as (t & ls & _ & R).
  destruct (hashtable_destroy_frees t ls _ R) as (hp & E & F).
  exists t, ls, (<[[1] := 10]> ∅), hp. split; [reflexivity|]. split; [exact R|]. split; [exact E|exact F].
Defined.
