(* ===== verification/Semaphore.v ===== *)
(** * Semaphores and mutexes ([lib/semaphore.c], [include/semaphore.h],
      [include/mutex.h], the sleep and wakeup calls of
      [sys/scheduler/scheduler.c])

    The sleep list is modelled at pointer level through the [sleepnext] and
    [sleepprev] fields of the threads.  Each section the semaphore's spinlock
    protects is one atomic event; a run interleaves the events of any number of
    threads, with a waiting thread's [sched_yield] between its two sections. *)

From S2P Require Import Prelude Errno DList.

Definition SCHED_WAKEUP_REASON_NORMAL : Z := 0.
Definition SCHED_WAKEUP_REASON_INTERRUPTED : Z := -1.

(** ** Data *)

Record semaphore_t := mk_sem { i : Z; head : option nat; tail : option nat }.

(** The fields of a thread used here; [sleeping] and [interruptible] are the
    bits [THREAD_FLAGS_SLEEP] and [THREAD_FLAGS_INTERRUPTIBLE] of its flags. *)
Record thread_t := mk_thread {
  sleepnext : option nat;
  sleepprev : option nat;
  sleeping : bool;
  interruptible : bool;
  wakeupreason : Z
}.

#[export, refine] Instance thread_linked : Linked thread_t (bool * bool * Z) := {
  lnext := sleepnext;
  lprev := sleepprev;
  payload n := (sleeping n, interruptible n, wakeupreason n);
  with_next v n := mk_thread v (sleepprev n) (sleeping n) (interruptible n) (wakeupreason n);
  with_prev v n := mk_thread (sleepnext n) v (sleeping n) (interruptible n) (wakeupreason n)
}.
Proof. all: done. Defined.

Abbreviation threads_t := (gmap nat thread_t).

Definition SEMAPHORE_INIT (v : Z) : semaphore_t := mk_sem v None None.
Definition MUTEX_INIT : semaphore_t := SEMAPHORE_INIT 1.

(** ** The scheduler's side *)

Definition sched_prepare_sleep (t : nat) (intr : bool) (th : threads_t) : option threads_t :=
  upd t (fun n => mk_thread (sleepnext n) (sleepprev n) true (interruptible n || intr) (wakeupreason n)) th.

Definition sched_wakeup (t : nat) (reason : Z) (th : threads_t) : option (bool * threads_t) :=
  n ← th !! t;
  if negb (sleeping n) ||
     (reason =? SCHED_WAKEUP_REASON_INTERRUPTED) && negb (interruptible n)
  then Some (false, th)
  else Some (true, <[t := mk_thread (sleepnext n) (sleepprev n) false false reason]> th).

(** ** The sleep list *)

Definition clear_links (n : thread_t) : thread_t := with_next None (with_prev None n).

Definition insert (sem : semaphore_t) (t : nat) (th : threads_t) : option (semaphore_t * threads_t) :=
  th' ← push_front t (head sem) th;
  Some (mk_sem (i sem) (Some t) (match tail sem with None => Some t | Some x => Some x end), th').

Definition get (sem : semaphore_t) (th : threads_t) : option (option nat * semaphore_t * threads_t) :=
  match tail sem with
  | None => Some (None, sem, th)
  | Some t =>
      n ← th !! t;
      let tail' := sleepprev n in
      th1 ← set_next tail' None th;
      th2 ← upd t clear_links th1;
      Some (Some t,
            mk_sem (i sem) (match tail' with None => None | Some _ => head sem end) tail',
            th2)
  end.

(** [current_thread()] takes itself out, if it is still there. *)
Definition removeself (sem : semaphore_t) (t : nat) (th : threads_t)
    : option (bool * semaphore_t * threads_t) :=
  n ← th !! t;
  let empty := bool_decide (head sem = None) && bool_decide (tail sem = None) in
  let linked := bool_decide (is_Some (sleepnext n)) || bool_decide (is_Some (sleepprev n)) in
  let only := bool_decide (head sem = Some t) && bool_decide (tail sem = Some t) in
  if empty || negb (linked || only) then Some (false, sem, th)
  else
    '(head', th1) ←
      (if bool_decide (head sem = Some t) then Some (sleepnext n, th)
       else p ← sleepprev n; th1 ← upd p (with_next (sleepnext n)) th; Some (head sem, th1));
    '(tail', th2) ←
      (if bool_decide (tail sem = Some t) then Some (sleepprev n, th1)
       else x ← sleepnext n; th2 ← upd x (with_prev (sleepprev n)) th1; Some (tail sem, th2));
    th3 ← upd t clear_links th2;
    Some (true, mk_sem (i sem) head' tail', th3).

(** ** Operations *)

(** [semaphore_wait] up to the yield: the thread is asleep when the result is
    [true], otherwise it has a unit. *)
Definition semaphore_wait_enter (sem : semaphore_t) (t : nat) (intr : bool) (th : threads_t)
    : option (bool * semaphore_t * threads_t) :=
  let sem1 := mk_sem (s32 (i sem - 1)) (head sem) (tail sem) in
  if i sem1 <? 0 then
    '(sem2, th1) ← insert sem1 t th;
    th2 ← sched_prepare_sleep t intr th1;
    Some (true, sem2, th2)
  else Some (false, sem1, th).

(** [semaphore_wait] after the yield, which returned the wakeup reason; the
    result is the call's. *)
Definition semaphore_wait_resume (sem : semaphore_t) (t : nat) (th : threads_t)
    : option (Z * semaphore_t * threads_t) :=
  n ← th !! t;
  let ret := wakeupreason n in
  if negb (ret =? 0) then
    '(removed, sem1, th1) ← removeself sem t th;
    if removed : bool then Some (ret, mk_sem (s32 (i sem1 + 1)) (head sem1) (tail sem1), th1)
    else Some (0, sem1, th1)
  else Some (ret, sem, th).

(** The common part of the two signalling calls. *)
Definition signal_one (sem : semaphore_t) (th : threads_t) : option (semaphore_t * threads_t) :=
  let sem1 := mk_sem (s32 (i sem + 1)) (head sem) (tail sem) in
  if i sem1 <=? 0 then
    '(t, sem2, th1) ← get sem1 th;
    t ← t; (* __assert(thread) *)
    '(_, th2) ← sched_wakeup t SCHED_WAKEUP_REASON_NORMAL th1;
    Some (sem2, th2)
  else Some (sem1, th).

Definition semaphore_signal (sem : semaphore_t) (th : threads_t) : option (semaphore_t * threads_t) :=
  signal_one sem th.

Definition semaphore_signal_limit (sem : semaphore_t) (limit : Z) (th : threads_t)
    : option (bool * semaphore_t * threads_t) :=
  if i sem >=? limit then Some (false, sem, th)
  else '(sem', th') ← signal_one sem th; Some (true, sem', th').

Definition semaphore_test (sem : semaphore_t) : bool * semaphore_t :=
  if i sem >? 0 then (true, mk_sem (s32 (i sem - 1)) (head sem) (tail sem)) else (false, sem).

Definition semaphore_haswaiters (sem : semaphore_t) : bool := bool_decide (is_Some (head sem)).

Definition semaphore_reset (sem : semaphore_t) : option semaphore_t :=
  if bool_decide (head sem = None) then Some (mk_sem 0 (head sem) (tail sem)) else None.

(** [semaphore_timedwait]: [test n] is what the [n]th [semaphore_test]
    returns.  The result is the call's and the number of tests made. *)
Fixpoint timedwait_loop (fuel : nat) (test : nat -> bool) (n : nat) (timeoutusec : Z)
    : option (bool * nat) :=
  match fuel with
  | O => None
  | S fuel' =>
      if test n then Some (true, S n)
      else
        let sleepus := Z.min timeoutusec 10 in
        let timeoutusec := timeoutusec - sleepus in
        if timeoutusec =? 0 then Some (false, S n) else timedwait_loop fuel' test (S n) timeoutusec
  end.

(** ** Runs *)

(** [yielding] are the threads between the two sections of [semaphore_wait];
    [holders] has one entry per unit a thread has taken and not given back;
    [posted] counts the initial units and those signalled by threads that held
    none. *)
Record sys := mk_sys {
  sem : semaphore_t;
  threads : threads_t;
  yielding : gset nat;
  holders : list nat;
  posted : Z
}.

Definition sys_init (v : Z) (th : threads_t) : sys := mk_sys (SEMAPHORE_INIT v) th ∅ [] v.

Inductive event :=
| ev_wait (t : nat) (intr : bool)
| ev_resume (t : nat)
| ev_interrupt (t : nat)
| ev_signal (t : nat)
| ev_signal_limit (t : nat) (limit : Z)
| ev_test (t : nat).

Fixpoint remove_one (t : nat) (l : list nat) : list nat :=
  match l with
  | [] => []
  | x :: l' => if decide (x = t) then l' else x :: remove_one t l'
  end.

(** The unit thread [t] gives back, or adds. *)
Definition give (t : nat) (s : sys) (sem' : semaphore_t) (th' : threads_t) : sys :=
  if decide (t ∈ holders s)
  then mk_sys sem' th' (yielding s) (remove_one t (holders s)) (posted s)
  else mk_sys sem' th' (yielding s) (holders s) (posted s + 1).

Definition exec (e : event) (s : sys) : option sys :=
  match e with
  | ev_wait t intr =>
      '(slept, sem', th') ← semaphore_wait_enter (sem s) t intr (threads s);
      Some (if slept : bool then mk_sys sem' th' ({[t]} ∪ yielding s) (holders s) (posted s)
            else mk_sys sem' th' (yielding s) (t :: holders s) (posted s))
  | ev_resume t =>
      '(ret, sem', th') ← semaphore_wait_resume (sem s) t (threads s);
      Some (mk_sys sem' th' (yielding s ∖ {[t]}) (if ret =? 0 then t :: holders s else holders s) (posted s))
  | ev_interrupt t =>
      '(_, th') ← sched_wakeup t SCHED_WAKEUP_REASON_INTERRUPTED (threads s);
      Some (mk_sys (sem s) th' (yielding s) (holders s) (posted s))
  | ev_signal t =>
      '(sem', th') ← semaphore_signal (sem s) (threads s);
      Some (give t s sem' th')
  | ev_signal_limit t limit =>
      '(done, sem', th') ← semaphore_signal_limit (sem s) limit (threads s);
      Some (if done : bool then give t s sem' th' else mk_sys sem' th' (yielding s) (holders s) (posted s))
  | ev_test t =>
      let '(ok, sem') := semaphore_test (sem s) in
      Some (mk_sys sem' (threads s) (yielding s) (if ok then t :: holders s else holders s) (posted s))
  end.

Definition is_sleeping (t : nat) (s : sys) : bool :=
  match threads s !! t with Some n => sleeping n | None => true end.

(** Which thread can do what: a live thread outside [sched_yield] can call,
    one inside it goes on when it was woken, and no counter reaches the end of
    the [int] range. *)
Definition enabled (e : event) (s : sys) : bool :=
  match e with
  | ev_wait t _ => bool_decide (t ∉ yielding s) && bool_decide (is_Some (threads s !! t))
  | ev_resume t => bool_decide (t ∈ yielding s) && negb (is_sleeping t s)
  | ev_interrupt t => bool_decide (is_Some (threads s !! t))
  | ev_signal t | ev_signal_limit t _ => bool_decide (t ∉ yielding s) && (posted s <? 2 ^ 31 - 1)
  | ev_test t => bool_decide (t ∉ yielding s)
  end.

(** States reached from [s0]; the flag says whether only threads that hold a
    unit may signal, the discipline of a mutex. *)
Inductive reach (holders_only : bool) (s0 : sys) : sys -> Prop :=
| reach_refl : reach holders_only s0 s0
| reach_step s e s' :
    reach holders_only s0 s -> enabled e s = true -> exec e s = Some s' ->
    (holders_only = true -> posted s' = posted s) -> reach holders_only s0 s'.

(** ** Invariant *)

(** [q] is the sleep list from its head (latest) to its tail (oldest). *)
Record sem_ok (s : sys) (q : list nat) : Prop := {
  so_seg : dseg (threads s) None q None;
  so_nodup : NoDup q;
  so_head : head (sem s) = hdo q None;
  so_tail : tail (sem s) = lasto None q;
  so_clear : forall t n, threads s !! t = Some n -> t ∉ q -> sleepnext n = None /\ sleepprev n = None;
  so_count : i (sem s) = posted s - Z.of_nat (length (holders s)) - Z.of_nat (size (yielding s));
  so_queue : Z.of_nat (length q) = Z.max 0 (- i (sem s));
  so_sub : forall t, t ∈ q -> t ∈ yielding s;
  so_live : forall t, t ∈ yielding s -> exists n, threads s !! t = Some n;
  so_awake : forall t n, t ∈ yielding s -> t ∉ q -> threads s !! t = Some n -> sleeping n = false;
  so_asleep : forall t n, t ∈ q -> threads s !! t = Some n ->
    sleeping n = true \/ wakeupreason n = SCHED_WAKEUP_REASON_INTERRUPTED;
  so_range : posted s < 2 ^ 31 /\ Z.of_nat (size (threads s)) < 2 ^ 31
}.

(** What an event does to the count and to the sleep list [q], which becomes
    [q'].  A unit that is given goes to the thread that has waited longest. *)
Definition given_unit (s s' : sys) (q q' : list nat) : Prop :=
  i (sem s') = i (sem s) + 1 /\ yielding s' = yielding s /\
  (q = [] /\ q' = [] \/ exists x, q = q' ++ [x] /\ is_sleeping x s' = false).

Definition kept_units (s s' : sys) (q q' : list nat) : Prop :=
  i (sem s') = i (sem s) /\ q' = q /\ yielding s' = yielding s /\ holders s' = holders s.

Definition event_spec (e : event) (s s' : sys) (q q' : list nat) : Prop :=
  match e with
  | ev_wait t _ => i (sem s') = i (sem s) - 1 /\
      if i (sem s) <=? 0
      then q' = t :: q /\ yielding s' = {[t]} ∪ yielding s /\ holders s' = holders s /\ is_sleeping t s' = true
      else q' = q /\ yielding s' = yielding s /\ holders s' = t :: holders s
  | ev_resume t => yielding s' = yielding s ∖ {[t]} /\
      ((t ∉ q) /\ q' = q /\ i (sem s') = i (sem s) /\ holders s' = t :: holders s \/
       exists q1 q2, q = q1 ++ t :: q2 /\ q' = q1 ++ q2 /\ i (sem s') = i (sem s) + 1 /\ holders s' = holders s)
  | ev_interrupt _ => kept_units s s' q q'
  | ev_signal t => given_unit s s' q q' /\ holders s' = (if decide (t ∈ holders s) then remove_one t (holders s) else holders s)
  | ev_signal_limit t limit =>
      if i (sem s) >=? limit then kept_units s s' q q'
      else given_unit s s' q q' /\ holders s' = (if decide (t ∈ holders s) then remove_one t (holders s) else holders s)
  | ev_test t =>
      if i (sem s) >? 0
      then i (sem s') = i (sem s) - 1 /\ q' = q /\ yielding s' = yielding s /\ holders s' = t :: holders s
      else kept_units s s' q q'
  end.

(** ** The sleep list is a queue *)

Lemma insert_ok sem th q t n :
  dseg th None q None -> NoDup (t :: q) -> th !! t = Some n ->
  head sem = hdo q None -> tail sem = lasto None q ->
  exists th', insert sem t th = Some (mk_sem (i sem) (Some t) (lasto None (t :: q)), th') /\
    dseg th' None (t :: q) None /\ same_payload th th' /\ forall x, x ∉ t :: q -> th' !! x = th !! x.
Proof.
  intros D ND E H T. destruct (push_front_ok th q t n D ND E) as (th' & P & D' & S & F).
  exists th'. unfold insert. rewrite H, P. simpl. rewrite T, lasto_default. done.
Qed.

(** Taking a thread out of the list and clearing its links. *)
Lemma take_out th q1 t q2 :
  dseg th None (q1 ++ t :: q2) None -> NoDup (q1 ++ t :: q2) ->
  exists n th1 th', th !! t = Some n /\ sleepprev n = lasto None q1 /\ sleepnext n = hdo q2 None /\
    unlink t th = Some th1 /\ upd t clear_links th1 = Some th' /\
    dseg th' None (q1 ++ q2) None /\ same_payload th th' /\ th' !! t = Some (clear_links n) /\
    forall x, x ∉ q1 ++ t :: q2 -> th' !! x = th !! x.
Proof.
  intros D ND. destruct (unlink_ok th q1 t q2 D ND) as (n & th1 & E & Pv & Nx & U & D' & S & E1 & F).
  exists n, th1, (<[t := clear_links n]> th1). split; [done|]. split; [done|]. split; [done|].
  split; [done|]. assert (Up : upd t clear_links th1 = Some (<[t := clear_links n]> th1))
    by (unfold upd; by rewrite E1). split; [done|].
  rewrite <- Permutation_middle in ND. apply NoDup_cons in ND as [Hx _].
  split; [by apply dseg_frame|]. split.
  - transitivity th1; [done|]. by eapply upd_payload; [|exact Up].
  - split; [apply lookup_insert_eq|]. intros x Hx'. rewrite lookup_insert_ne by set_solver. apply F. set_solver.
Qed.

Lemma get_ok sem th q t :
  dseg th None (q ++ [t]) None -> NoDup (q ++ [t]) ->
  head sem = hdo (q ++ [t]) None -> tail sem = Some t ->
  exists n th', th !! t = Some n /\
    get sem th = Some (Some t, mk_sem (i sem) (hdo q None) (lasto None q), th') /\
    dseg th' None q None /\ same_payload th th' /\ th' !! t = Some (clear_links n) /\
    forall x, x ∉ q ++ [t] -> th' !! x = th !! x.
Proof.
  intros D ND H T.
  destruct (take_out th q t [] D ND) as (n & th1 & th' & E & Pv & Nx & U & Up & D' & S & C & F).
  exists n, th'. split; [done|]. rewrite app_nil_r in D'. split; [|done].
  unfold get. rewrite T, E. simpl. unfold unlink in U. rewrite E in U. simpl in U. rewrite Nx in U.
  rewrite Pv in *. simpl in U. destruct (set_next (lasto None q) None th) as [h1|]; simplify_eq/=.
  rewrite Up. simpl. do 3 f_equal. f_equal.
  destruct (lasto_cases None q) as [(-> & ->)|(l' & y & -> & ->)]; [done|]. rewrite H, !hdo_app. by destruct l'.
Qed.

Lemma removeself_in sem th q1 t q2 :
  dseg th None (q1 ++ t :: q2) None -> NoDup (q1 ++ t :: q2) ->
  head sem = hdo (q1 ++ t :: q2) None -> tail sem = lasto None (q1 ++ t :: q2) ->
  exists n th', th !! t = Some n /\
    removeself sem t th
      = Some (true, mk_sem (i sem) (hdo (q1 ++ q2) None) (lasto None (q1 ++ q2)), th') /\
    dseg th' None (q1 ++ q2) None /\ same_payload th th' /\ th' !! t = Some (clear_links n) /\
    forall x, x ∉ q1 ++ t :: q2 -> th' !! x = th !! x.
Proof.
  intros D ND H T.
  destruct (take_out th q1 t q2 D ND) as (n & th1 & th' & E & Pv & Nx & U & Up & D' & S & C & F).
  exists n, th'. split; [done|]. split; [|done]. unfold removeself. rewrite E. cbn [mbind option_bind].
  unfold unlink in U. rewrite E in U. cbn [mbind option_bind] in U.
  assert (Hh : bool_decide (head sem = Some t) = bool_decide (q1 = [])).
  { apply bool_decide_ext. rewrite H. destruct q1 as [|y q1]; simpl; [done|].
    split; [|done]. intros [= ->]. apply NoDup_cons in ND as [Q _]. destruct Q. set_solver. }
  assert (Ht : bool_decide (tail sem = Some t) = bool_decide (q2 = [])).
  { apply bool_decide_ext. rewrite T, lasto_app. simpl.
    destruct (lasto_cases (Some t) q2) as [(-> & ->)|(l' & y & -> & ->)]; [done|].
    split; [|intros Q; by destruct l']. intros [= ->]. apply NoDup_app in ND as (_ & _ & ND).
    apply NoDup_cons in ND as [Q _]. destruct Q. set_solver. }
  assert (Q1 : (if bool_decide (q1 = []) then Some (sleepnext n, th)
      else p ← sleepprev n; th1 ← upd p (with_next (sleepnext n)) th; Some (head sem, th1))
    = (th1 ← set_next (sleepprev n) (sleepnext n) th; Some (hdo (q1 ++ q2) None, th1))).
  { rewrite H, Pv. destruct (lasto_cases None q1) as [(-> & ->)|(l1 & y & -> & ->)]; simpl.
    - by rewrite Nx.
    - rewrite bool_decide_false by (by destruct l1). rewrite !hdo_app. by destruct l1. }
  assert (Q2 : forall th1, (if bool_decide (q2 = []) then Some (sleepprev n, th1)
      else x ← sleepnext n; th2 ← upd x (with_prev (sleepprev n)) th1; Some (tail sem, th2))
    = (th2 ← set_prev (sleepnext n) (sleepprev n) th1; Some (lasto None (q1 ++ q2), th2))).
  { intros th0. rewrite T, Nx, Pv, !lasto_app. by destruct q2. }
  assert (Cond : bool_decide (head sem = None) && bool_decide (tail sem = None)
    || negb (bool_decide (is_Some (sleepnext n)) || bool_decide (is_Some (sleepprev n))
        || bool_decide (q1 = []) && bool_decide (q2 = [])) = false).
  { rewrite (bool_decide_false (head sem = None)) by (rewrite H, hdo_app; by destruct q1). simpl.
    rewrite Pv, Nx. destruct q2; [|rewrite bool_decide_true by eauto; done].
    destruct (lasto_cases None q1) as [(-> & ->)|(l1 & y & -> & ->)]; [done|].
    rewrite (bool_decide_true (is_Some (Some y))) by eauto. by rewrite orb_true_r. }
  rewrite Hh, Ht, Cond, Q1. change (lprev n) with (sleepprev n) in U. change (lnext n) with (sleepnext n) in U.
  destruct (set_next (sleepprev n) (sleepnext n) th) as [h1|]; cbn [mbind option_bind] in *; [|done].
  rewrite Q2, U. cbn [mbind option_bind]. by rewrite Up.
Qed.

Lemma removeself_out sem th q t n :
  head sem = hdo q None -> tail sem = lasto None q -> t ∉ q -> th !! t = Some n ->
  sleepnext n = None -> sleepprev n = None -> removeself sem t th = Some (false, sem, th).
Proof.
  intros H T Nq E Nx Pv. unfold removeself. rewrite E. simpl. rewrite Nx, Pv.
  rewrite (bool_decide_false (is_Some None)) by (intros [? ?]; done). simpl.
  rewrite (bool_decide_false (head sem = Some t)); [by rewrite orb_true_r|].
  rewrite H. destruct q; simpl; [done|]. intros [= ->]. set_solver.
Qed.

(** ** Every event keeps the invariant *)

Lemma upd_links (th : threads_t) b q a t n n' :
  dseg th b q a -> th !! t = Some n -> sleepnext n' = sleepnext n -> sleepprev n' = sleepprev n ->
  dseg (<[t := n']> th) b q a.
Proof.
  intros D E Nx Pv. eapply dseg_links; [|exact D]. intros x m _ Hm. destruct (decide (x = t)) as [->|Ne].
  - exists n'. rewrite lookup_insert_eq. by simplify_eq.
  - exists m. by rewrite lookup_insert_ne.
Qed.

Lemma pay_thread (th th' : threads_t) x n :
  same_payload th th' -> th' !! x = Some n ->
  exists m, th !! x = Some m /\ sleeping n = sleeping m /\ wakeupreason n = wakeupreason m.
Proof.
  intros S E. specialize (S x). rewrite E in S. destruct (th !! x) as [m|]; simpl in S; [|done].
  exists m. by simplify_eq.
Qed.

Lemma pay_live (th th' : threads_t) x n :
  same_payload th th' -> th !! x = Some n -> exists m, th' !! x = Some m.
Proof. intros S E. specialize (S x). rewrite E in S. destruct (th' !! x); [eauto|done]. Qed.

Lemma pay_size (th th' : threads_t) : same_payload th th' -> size th' = size th.
Proof.
  intros S. rewrite <- !size_dom. f_equal. apply set_eq. intros x. rewrite !elem_of_dom. specialize (S x).
  destruct (th !! x), (th' !! x); simpl in S; split; intros [? ?]; eauto; done.
Qed.

Lemma upd_size (th : threads_t) t n n' : th !! t = Some n -> size (<[t := n']> th) = size th.
Proof.
  intros E. rewrite <- !size_dom. f_equal. rewrite dom_insert_lookup_L; eauto.
Qed.

Lemma remove_one_length t l : t ∈ l -> S (length (remove_one t l)) = length l.
Proof.
  induction l as [|x l IH]; [intros H; by apply not_elem_of_nil in H|]. simpl. intros H.
  case_decide; [done|]. simpl. rewrite IH; [done|]. apply elem_of_cons in H as [->|H]; done.
Qed.

Section step.
Context (s : sys) (q : list nat) (Ok : sem_ok s q).

Lemma queue_size : Z.of_nat (length q) < 2 ^ 31.
Proof.
  pose proof (nodup_live_size (threads s) q (so_nodup _ _ Ok)) as H. destruct (so_range _ _ Ok) as [_ B].
  assert (length q <= size (threads s))%nat; [|lia]. apply H. intros x Hx.
  by apply (so_live _ _ Ok), (so_sub _ _ Ok).
Qed.

Lemma i_range : - 2 ^ 31 < i (sem s) < 2 ^ 31.
Proof.
  pose proof queue_size. pose proof (so_queue _ _ Ok). destruct (so_range _ _ Ok). pose proof (so_count _ _ Ok). lia.
Qed.

Lemma wait_ok t intr :
  enabled (ev_wait t intr) s = true ->
  exists s' q', exec (ev_wait t intr) s = Some s' /\ sem_ok s' q' /\ event_spec (ev_wait t intr) s s' q q'.
Proof.
  intros En. simpl in En. apply andb_prop in En as [Ny Lv]. apply bool_decide_eq_true in Ny, Lv.
  destruct Lv as [n Hn]. assert (Nq : t ∉ q) by (intros Q; by apply Ny, (so_sub _ _ Ok)).
  assert (NDt : NoDup (t :: q)) by (apply NoDup_cons; split; [done|apply Ok]).
  pose proof i_range as Ri. pose proof (so_queue _ _ Ok) as Lq. destruct (so_range _ _ Ok) as [_ Sz].
  assert (Z.of_nat (S (length q)) <= Z.of_nat (size (threads s))) as Lq'.
  { apply inj_le. apply (nodup_live_size (threads s) (t :: q) NDt). intros x [->|Hx]%elem_of_cons; [eauto|].
    by apply (so_live _ _ Ok), (so_sub _ _ Ok). }
  unfold exec, semaphore_wait_enter. cbn [i]. rewrite s32_small by lia.
  destruct (Z.ltb_spec (i (sem s) - 1) 0) as [Neg|Pos].
  - destruct (insert_ok (mk_sem (i (sem s) - 1) (head (sem s)) (tail (sem s))) (threads s) q t n) as
      (th1 & I & D & S & F); [apply Ok|done|done|apply Ok|apply Ok|].
    rewrite I. simpl. destruct (pay_live _ _ _ _ S Hn) as [n1 Hn1]. unfold sched_prepare_sleep, upd.
    rewrite Hn1. simpl. set (n2 := mk_thread _ _ _ _ _).
    eexists _, (t :: q). split; [reflexivity|]. split.
    2:{ cbn [event_spec sem i]. split; [done|]. rewrite (proj2 (Z.leb_le _ _)) by lia. split_and!; try done.
        unfold is_sleeping. simpl. by rewrite lookup_insert_eq. }
    split; simpl.
    + exact (upd_links th1 None (t :: q) None t n1 n2 D Hn1 eq_refl eq_refl).
    + done.
    + done.
    + done.
    + intros x m Hm Hx. rewrite lookup_insert_ne in Hm by set_solver. rewrite F in Hm by done.
      apply (so_clear _ _ Ok x m Hm). set_solver.
    + rewrite (so_count _ _ Ok), size_union, size_singleton by set_solver. lia.
    + lia.
    + intros x [->|Hx]%elem_of_cons; [set_solver|]. apply elem_of_union_r. by apply (so_sub _ _ Ok).
    + intros x Hx. destruct (decide (x = t)) as [->|Ne]; [exists n2; apply lookup_insert_eq|].
      rewrite lookup_insert_ne by done. destruct (so_live _ _ Ok x) as [m Hm]; [set_solver|]. by eapply pay_live.
    + intros x m Hx Hq Hm. assert (x <> t) by set_solver. rewrite lookup_insert_ne in Hm by done.
      destruct (pay_thread _ _ _ _ S Hm) as (m' & Hm' & -> & _). eapply (so_awake _ _ Ok x); eauto; set_solver.
    + intros x m Hx Hm. destruct (decide (x = t)) as [->|Ne].
      * rewrite lookup_insert_eq in Hm. simplify_eq. by left.
      * rewrite lookup_insert_ne in Hm by done. destruct (pay_thread _ _ _ _ S Hm) as (m' & Hm' & -> & ->).
        apply (so_asleep _ _ Ok x); [set_solver|done].
    + rewrite (upd_size th1 t n1), (pay_size _ _ S) by done. apply Ok.
  - eexists _, q. split; [reflexivity|]. split.
    2:{ cbn [event_spec sem i]. split; [done|]. by rewrite (proj2 (Z.leb_gt _ _)) by lia. }
    split; simpl; try apply Ok.
    + rewrite (so_count _ _ Ok). lia.
    + lia.
Qed.

Lemma awake_ok t reason : 
  reason = SCHED_WAKEUP_REASON_INTERRUPTED \/ reason = SCHED_WAKEUP_REASON_NORMAL /\ t ∉ q ->
  (exists n, threads s !! t = Some n) ->
  exists b th', sched_wakeup t reason (threads s) = Some (b, th') /\
    sem_ok (mk_sys (sem s) th' (yielding s) (holders s) (posted s)) q /\
    (reason = SCHED_WAKEUP_REASON_NORMAL -> forall n, th' !! t = Some n -> sleeping n = false).
Proof.
  intros Rs [n Hn]. unfold sched_wakeup. rewrite Hn. simpl. case_match eqn:C.
  - eexists _, _. split; [reflexivity|]. split; [by destruct Ok; split|]. intros -> m Hm. simplify_eq.
    simpl in C. rewrite orb_false_r in C. by apply negb_true_iff in C.
  - set (n' := mk_thread _ _ _ _ _). eexists _, _. split; [reflexivity|]. split.
    2: { intros _ m Hm. rewrite lookup_insert_eq in Hm. by simplify_eq. }
    split; simpl; try apply Ok.
    + eapply upd_links; [apply Ok|done|done|done].
    + intros x m Hm Hx. destruct (decide (x = t)) as [->|Ne].
      * rewrite lookup_insert_eq in Hm. simplify_eq. by apply (so_clear _ _ Ok t n).
      * rewrite lookup_insert_ne in Hm by done. by apply (so_clear _ _ Ok x m).
    + intros x Hx. destruct (decide (x = t)) as [->|Ne]; [exists n'; apply lookup_insert_eq|].
      rewrite lookup_insert_ne by done. by apply (so_live _ _ Ok).
    + intros x m Hx Hq Hm. destruct (decide (x = t)) as [->|Ne].
      * rewrite lookup_insert_eq in Hm. by simplify_eq.
      * rewrite lookup_insert_ne in Hm by done. by apply (so_awake _ _ Ok x m).
    + intros x m Hx Hm. destruct (decide (x = t)) as [->|Ne].
      * rewrite lookup_insert_eq in Hm. simplify_eq. right. simpl. destruct Rs as [->|[_ Q]]; done.
      * rewrite lookup_insert_ne in Hm by done. by apply (so_asleep _ _ Ok x m).
    + rewrite (upd_size _ _ _ _ Hn). apply Ok.
Qed.

(** A unit is added: the oldest waiter leaves the list and is awake, or the
    count goes up. *)
Lemma signal_ok holders' posted' :
  posted' - Z.of_nat (length holders') = posted s - Z.of_nat (length (holders s)) + 1 ->
  posted' < 2 ^ 31 ->
  exists sem' th' q', signal_one (sem s) (threads s) = Some (sem', th') /\
    sem_ok (mk_sys sem' th' (yielding s) holders' posted') q' /\
    given_unit s (mk_sys sem' th' (yielding s) holders' posted') q q'.
Proof.
  intros Tk Rg. pose proof (i_range) as Ri. pose proof (so_queue _ _ Ok) as Lq.
  pose proof (so_count _ _ Ok) as Ct. unfold signal_one. cbn [i].
  rewrite s32_small by lia. destruct (Z.leb_spec (i (sem s) + 1) 0) as [Neg|Pos].
  - destruct (lasto_cases None q) as [(-> & _)|(q' & t & Eq & La)]; [simpl in Lq; lia|].
    pose proof (so_nodup _ _ Ok) as ND. rewrite Eq in ND.
    destruct (get_ok (mk_sem (i (sem s) + 1) (head (sem s)) (tail (sem s))) (threads s) q' t)
      as (n & th1 & Hn & G & D & S & Ht & F).
    { rewrite <- Eq. apply Ok. } { done. } { rewrite <- Eq. apply Ok. } { simpl. rewrite (so_tail _ _ Ok). done. }
    rewrite G. simpl. unfold sched_wakeup. rewrite Ht. cbn [mbind option_bind].
    apply NoDup_app in ND as (ND & Dj & _). assert (Ntq : t ∉ q') by (intros Q; apply (Dj t Q); set_solver).
    assert (Res : exists b th2, (if negb (sleeping (clear_links n)) ||
        (SCHED_WAKEUP_REASON_NORMAL =? SCHED_WAKEUP_REASON_INTERRUPTED) && negb (interruptible (clear_links n))
      then Some (false, th1)
      else Some (true, <[t := mk_thread (sleepnext (clear_links n)) (sleepprev (clear_links n)) false false
                    SCHED_WAKEUP_REASON_NORMAL]> th1)) = Some (b, th2) /\
      (exists m, th2 !! t = Some m /\ sleepnext m = None /\ sleepprev m = None /\ sleeping m = false) /\
      (forall x, x <> t -> th2 !! x = th1 !! x) /\ size th2 = size th1 /\ dseg th2 None q' None).
    { simpl. rewrite orb_false_r. destruct (sleeping n) eqn:Sl; simpl.
      - eexists _, _. split; [reflexivity|]. split; [eexists; rewrite lookup_insert_eq; done|].
        split; [intros x Hx; by apply lookup_insert_ne|]. split; [by eapply upd_size|by apply dseg_frame].
      - eexists _, th1. split; [reflexivity|]. split; [by eexists|]. done. }
    destruct Res as (b & th2 & E2 & (m & Hm & Nx & Pv & Sl) & F2 & Sz & D2). rewrite E2. simpl.
    assert (Elem : forall x, x ∈ q <-> x ∈ q' \/ x = t) by (intros x; rewrite Eq; set_solver).
    eexists _, _, q'. split; [reflexivity|]. split.
    2:{ split; [done|]. split; [done|]. right. exists t. split; [done|]. unfold is_sleeping. simpl. by rewrite Hm. }
    split; simpl; try done.
    + intros x k Hk Hx. destruct (decide (x = t)) as [->|Ne]; [by simplify_eq|].
      rewrite F2, F in Hk; [|rewrite <- Eq, Elem; tauto|done]. apply (so_clear _ _ Ok x k Hk). rewrite Elem. tauto.
    + lia.
    + assert (length q = Datatypes.S (length q')) by (rewrite Eq, length_app; simpl; lia). lia.
    + intros x Hx. apply (so_sub _ _ Ok). rewrite Elem. by left.
    + intros x Hx. destruct (decide (x = t)) as [->|Ne]; [eauto|]. rewrite F2 by done.
      destruct (so_live _ _ Ok x Hx) as [k Hk]. by eapply pay_live.
    + intros x k Hx Hq Hk. destruct (decide (x = t)) as [->|Ne]; [by simplify_eq|].
      rewrite F2 in Hk by done. destruct (pay_thread _ _ _ _ S Hk) as (k' & Hk' & -> & _).
      apply (so_awake _ _ Ok x k' Hx); [rewrite Elem; tauto|done].
    + intros x k Hx Hk. rewrite F2 in Hk by (intros ->; done).
      destruct (pay_thread _ _ _ _ S Hk) as (k' & Hk' & -> & ->). apply (so_asleep _ _ Ok x k'); [|done].
      rewrite Elem. by left.
    + rewrite Sz, (pay_size _ _ S). split; [done|]. apply Ok.
  - assert (q = []) as -> by (apply length_zero_iff_nil; lia).
    eexists _, _, []. split; [reflexivity|]. split; [|split; [done|]; split; [done|by left]]. split; simpl; try apply Ok; try lia.
    split; [done|]. apply Ok.
Qed.

Lemma give_ok t :
  posted s < 2 ^ 31 - 1 ->
  exists sem' th' q', signal_one (sem s) (threads s) = Some (sem', th') /\ sem_ok (give t s sem' th') q' /\
    event_spec (ev_signal t) s (give t s sem' th') q q'.
Proof.
  intros Rg. cbn [event_spec]. unfold give. destruct (decide (t ∈ holders s)) as [H|H].
  - destruct (signal_ok (remove_one t (holders s)) (posted s)) as (sem' & th' & q' & E & O & C); [|lia|by exists sem', th', q'].
    pose proof (remove_one_length t (holders s) H). lia.
  - destruct (signal_ok (holders s) (posted s + 1)) as (sem' & th' & q' & E & O & C); [lia|lia|by exists sem', th', q'].
Qed.

(** A woken thread leaves [semaphore_wait] with a unit, or interrupted and out
    of the list. *)
Lemma resume_ok t :
  enabled (ev_resume t) s = true ->
  exists s' q', exec (ev_resume t) s = Some s' /\ sem_ok s' q' /\ event_spec (ev_resume t) s s' q q'.
Proof.
  intros En. simpl in En. apply andb_prop in En as [Ty Sl]. apply bool_decide_eq_true in Ty.
  destruct (so_live _ _ Ok t Ty) as [n Hn]. unfold is_sleeping in Sl. rewrite Hn in Sl. apply negb_true_iff in Sl.
  pose proof (i_range) as Ri. pose proof (so_count _ _ Ok) as Ct. pose proof (so_queue _ _ Ok) as Lq.
  assert (Sz : Z.of_nat (size (yielding s ∖ {[t]})) = Z.of_nat (size (yielding s)) - 1).
  { rewrite size_difference, size_singleton by set_solver.
    assert (size (yielding s) <> 0%nat) by (apply size_non_empty_iff; set_solver). lia. }
  assert (Got : t ∉ q -> sem_ok (mk_sys (sem s) (threads s) (yielding s ∖ {[t]}) (t :: holders s) (posted s)) q).
  { intros Nq. split; simpl; try apply Ok; try lia.
    - intros x Hx. apply elem_of_difference. split; [by apply (so_sub _ _ Ok)|]. intros ->%elem_of_singleton. done.
    - intros x Hx. apply (so_live _ _ Ok). set_solver.
    - intros x k Hx. apply (so_awake _ _ Ok). set_solver. }
  unfold exec, semaphore_wait_resume. rewrite Hn. cbn [mbind option_bind].
  destruct (Z.eqb_spec (wakeupreason n) 0) as [R0|R0]; simpl.
  { rewrite R0. simpl. assert (Nq : t ∉ q).
    { intros Q. destruct (so_asleep _ _ Ok t n Q Hn) as [A|A]; [congruence|]. rewrite A in R0. done. }
    eexists _, q. split; [reflexivity|]. split; [by apply Got|]. split; [done|by left]. }
  destruct (decide (t ∈ q)) as [Q|Q].
  2: { destruct (so_clear _ _ Ok t n Hn Q) as [Nx Pv].
    rewrite (removeself_out _ _ q t n (so_head _ _ Ok) (so_tail _ _ Ok) Q Hn Nx Pv). simpl.
    eexists _, q. split; [reflexivity|]. split; [by apply Got|]. split; [done|by left]. }
  apply list_elem_of_split in Q as (q1 & q2 & Eq). pose proof Ok as Ok'. rewrite Eq in Ok'.
  destruct (removeself_in (sem s) (threads s) q1 t q2) as (n' & th' & Hn' & Rm & D & S & Ht & F); try apply Ok'.
  assert (length q = Datatypes.S (length (q1 ++ q2))) as Lq1 by (rewrite Eq, !length_app; simpl; lia).
  rewrite Rm. simpl. rewrite s32_small by lia. rewrite (proj2 (Z.eqb_neq _ _) R0).
  pose proof (so_nodup _ _ Ok') as ND. rewrite <- Permutation_middle in ND. apply NoDup_cons in ND as [Nt ND].
  assert (Elem : forall x, x ∈ q <-> x ∈ q1 ++ q2 \/ x = t) by (intros x; rewrite Eq; set_solver).
  eexists _, (q1 ++ q2). split; [reflexivity|]. split; [|split; [done|]; right; by exists q1, q2]. split; simpl; try done.
  - intros x k Hk Hx. destruct (decide (x = t)) as [->|Ne]; [by simplify_eq|].
    rewrite F in Hk; [apply (so_clear _ _ Ok x k Hk); rewrite Elem; tauto|].
    rewrite <- Eq, Elem. tauto.
  - lia.
  - lia.
  - intros x Hx. apply elem_of_difference. split; [apply (so_sub _ _ Ok); rewrite Elem; by left|].
    intros ->%elem_of_singleton. done.
  - intros x Hx. destruct (so_live _ _ Ok x) as [k Hk]; [set_solver|]. by eapply pay_live.
  - intros x k Hx Hq Hk. apply elem_of_difference in Hx as [Hx Hxt]. rewrite not_elem_of_singleton in Hxt.
    destruct (pay_thread _ _ _ _ S Hk) as (k' & Hk' & -> & _).
    apply (so_awake _ _ Ok x k' Hx); [rewrite Elem; tauto|done].
  - intros x k Hx Hk. destruct (pay_thread _ _ _ _ S Hk) as (k' & Hk' & -> & ->).
    apply (so_asleep _ _ Ok x k'); [rewrite Elem; by left|done].
  - rewrite (pay_size _ _ S). apply Ok.
Qed.

Lemma test_ok t :
  exists s', exec (ev_test t) s = Some s' /\ sem_ok s' q /\ event_spec (ev_test t) s s' q q.
Proof.
  pose proof (i_range) as Ri. unfold exec, event_spec, semaphore_test. pose proof (so_count _ _ Ok). pose proof (so_queue _ _ Ok).
  destruct (Z.gtb_spec (i (sem s)) 0).
  - eexists. split; [reflexivity|]. split; [|simpl; rewrite s32_small by lia; done].
    split; simpl; try apply Ok; rewrite s32_small by lia; lia.
  - eexists. split; [reflexivity|]. split; [|done]. by destruct Ok; split.
Qed.

Lemma exec_ok e : enabled e s = true -> exists s' q', exec e s = Some s' /\ sem_ok s' q' /\ event_spec e s s' q q'.
Proof.
  intros En. destruct e as [t intr|t|t|t|t limit|t].
  - by apply wait_ok.
  - by apply resume_ok.
  - simpl in En. apply bool_decide_eq_true in En.
    destruct (awake_ok t SCHED_WAKEUP_REASON_INTERRUPTED) as (b & th' & E & O & _); [by left|done|].
    simpl. rewrite E. simpl. by eexists _, q.
  - simpl in En. apply andb_prop in En as [_ Rg].
    destruct (give_ok t) as (sem' & th' & q' & E & O & C); [lia|]. simpl exec. unfold semaphore_signal. rewrite E. simpl. by eexists _, q'.
  - simpl in En. apply andb_prop in En as [_ Rg]. cbn [exec event_spec]. unfold semaphore_signal_limit.
    destruct (i (sem s) >=? limit).
    + simpl. eexists _, q. split; [reflexivity|]. split; [by destruct Ok; split|done].
    + destruct (give_ok t) as (sem' & th' & q' & E & O & C); [lia|]. rewrite E. simpl. by eexists _, q'.
  - destruct (test_ok t) as (s' & E & O & C). by exists s', q.
Qed.
End step.

(** ** Properties *)

Definition threads_idle (th : threads_t) : Prop :=
  Z.of_nat (size th) < 2 ^ 31 /\ forall t n, th !! t = Some n -> sleepnext n = None /\ sleepprev n = None.

Lemma sys_init_ok v th : 0 <= v < 2 ^ 31 -> threads_idle th -> sem_ok (sys_init v th) [].
Proof.
  intros V [Sz Cl]. split; simpl; try done; try lia.
  - constructor.
  - intros t n Hn _. by apply (Cl t n).
  - change (v = v - 0 - Z.of_nat (size (∅ : gset nat))). rewrite size_empty. lia.
  - intros t H. by apply not_elem_of_nil in H.
  - intros t n H. by apply not_elem_of_nil in H.
Qed.

Lemma reach_ok ho v th s : 0 <= v < 2 ^ 31 -> threads_idle th -> reach ho (sys_init v th) s -> exists q, sem_ok s q.
Proof.
  intros V Id R. induction R as [|s e s' R [q Ok] En E _]; [exists []; by apply sys_init_ok|].
  destruct (exec_ok s q Ok e En) as (s1 & q' & E1 & O & _). rewrite E in E1. injection E1 as <-. by exists q'.
Qed.

(** C10. In every state that waits, wakeups, interruptions, tests and signals of
    any threads can reach, each event that a thread can do has a result, so that
    no assertion fails and no bad link is followed.  The sleep list is then a
    well formed list of waiting threads whose length is what the count is below
    zero, and the event changes count, list and holders as the abstract
    semaphore does: a wait takes a unit or joins the list at its head, a signal
    gives the unit to the thread at its tail, an interrupted thread leaves the
    list and gives its unit back. *)
Theorem semaphore_run_safe ho v th s e :
  0 <= v < 2 ^ 31 -> threads_idle th -> reach ho (sys_init v th) s -> enabled e s = true ->
  exists q s' q', exec e s = Some s' /\ sem_ok s q /\ sem_ok s' q' /\ event_spec e s s' q q'.
Proof.
  intros V Id R En. destruct (reach_ok ho v th s V Id R) as [q Ok].
  destruct (exec_ok s q Ok e En) as (s' & q' & E & O & C). by exists q, s', q'.
Qed.

(** C11. A mutex excludes: when only its holder releases it, no two threads hold
    it, and no thread holds it while another was woken to take it. *)
Theorem mutex_exclusion th s :
  threads_idle th -> reach true (sys_init 1 th) s ->
  exists q, dseg (threads s) None q None /\ head (sem s) = hdo q None /\
    (forall t, t ∈ q -> t ∈ yielding s) /\
    Z.of_nat (length (holders s)) + (Z.of_nat (size (yielding s)) - Z.of_nat (length q)) <= 1.
Proof.
  intros Id R. assert (P : posted s = 1).
  { remember true as b. induction R as [|s e s' R IH En E Keep]; [done|]. rewrite Keep by done. auto. }
  destruct (reach_ok true 1 th s ltac:(lia) Id R) as [q Ok]. exists q.
  split; [apply Ok|]. split; [apply Ok|]. split; [apply Ok|].
  pose proof (so_count _ _ Ok). pose proof (so_queue _ _ Ok). lia.
Qed.

(** C12. No wakeup is lost: while a thread is on the sleep list every posted unit
    is held or on its way to a woken thread, and every waiting thread that is
    not on the list is awake. *)
Theorem semaphore_no_lost_wakeup ho v th s :
  0 <= v < 2 ^ 31 -> threads_idle th -> reach ho (sys_init v th) s ->
  exists q, dseg (threads s) None q None /\ head (sem s) = hdo q None /\
    (q <> [] ->
       Z.of_nat (length (holders s)) + (Z.of_nat (size (yielding s)) - Z.of_nat (length q)) = posted s) /\
    (forall t, t ∈ yielding s -> t ∉ q -> is_sleeping t s = false).
Proof.
  intros V Id R. destruct (reach_ok ho v th s V Id R) as [q Ok]. exists q.
  split; [apply Ok|]. split; [apply Ok|]. split.
  - intros Ne. pose proof (so_count _ _ Ok). pose proof (so_queue _ _ Ok).
    destruct q; [done|]. simpl length in *. lia.
  - intros t Ty Nq. unfold is_sleeping. destruct (so_live _ _ Ok t Ty) as [n Hn]. rewrite Hn.
    by apply (so_awake _ _ Ok t).
Qed.

(** ** Examples *)

Definition idle_thread : thread_t := mk_thread None None false false 0.

Definition three_threads : threads_t :=
  <[1%nat := idle_thread]> (<[2%nat := idle_thread]> (<[3%nat := idle_thread]> ∅)).

Lemma three_idle : threads_idle three_threads.
Proof.
  split; [vm_compute; reflexivity|]. intros t n E. unfold three_threads in E.
  apply lookup_insert_Some in E as [[_ <-]|[_ E]]; [done|].
  apply lookup_insert_Some in E as [[_ <-]|[_ E]]; [done|].
  apply lookup_insert_Some in E as [[_ <-]|[_ E]]; [done|]. by rewrite lookup_empty in E.
Qed.

(** Thread 1 takes the mutex, 2 and 3 queue up, 2 is interrupted, 1 releases. *)
Definition contended : list event :=
  [ev_wait 1 false; ev_wait 2 true; ev_wait 3 false; ev_interrupt 2; ev_resume 2; ev_signal 1].

Fixpoint run (ho : bool) (l : list event) (s : sys) : option sys :=
  match l with
  | [] => Some s
  | e :: l' =>
      if enabled e s then
        s' ← exec e s;
        if negb ho || (posted s' =? posted s) then run ho l' s' else None
      else None
  end.

Lemma run_reach ho l : forall s0 s s',
  reach ho s0 s -> run ho l s = Some s' -> reach ho s0 s'.
Proof.
  induction l as [|e l IH]; intros s0 s s' R E; simpl in E; [by injection E as <-|].
  destruct (enabled e s) eqn:En; [|done]. destruct (exec e s) as [s1|] eqn:X; [|done]. simpl in E.
  case_match eqn:P; [|done]. eapply IH; [|exact E]. eapply reach_step; eauto. intros ->. simpl in P. lia.
Qed.

Definition contended_state : sys :=
  default (sys_init 1 three_threads) (run true contended (sys_init 1 three_threads)).

Lemma contended_reach : reach true (sys_init 1 three_threads) contended_state.
Proof. eapply (run_reach true contended); [constructor|]. vm_compute. reflexivity. Qed.

Lemma semaphore_run_safe_witness : exists q s' q', exec (ev_resume 3) contended_state = Some s' /\
  sem_ok contended_state q /\ sem_ok s' q' /\ event_spec (ev_resume 3) contended_state s' q q'.
Proof.
  apply (semaphore_run_safe true 1 three_threads contended_state (ev_resume 3) ltac:(lia) three_idle contended_reach).
  vm_compute. reflexivity.
Defined.

Lemma mutex_exclusion_witness :
  exists q, dseg (threads contended_state) None q None /\ head (sem contended_state) = hdo q None /\
    (forall t, t ∈ q -> t ∈ yielding contended_state) /\
    Z.of_nat (length (holders contended_state)) +
      (Z.of_nat (size (yielding contended_state)) - Z.of_nat (length q)) <= 1.
Proof. exact (mutex_exclusion three_threads contended_state three_idle contended_reach). Defined.

Lemma semaphore_no_lost_wakeup_witness :
  exists q, dseg (threads contended_state) None q None /\ head (sem contended_state) = hdo q None /\
    (q <> [] -> Z.of_nat (length (holders contended_state)) +
       (Z.of_nat (size (yielding contended_state)) - Z.of_nat (length q)) = posted contended_state) /\
    (forall t, t ∈ yielding contended_state -> t ∉ q -> is_sleeping t contended_state = false).
Proof.
  exact (semaphore_no_lost_wakeup true 1 three_threads contended_state ltac:(lia) three_idle contended_reach).
Defined.
