(* ===== verification/Timer.v ===== *)
(** * Timers ([sys/timer.c], [include/kernel/timer.h])

    A timer keeps its pending entries in a singly linked queue ordered by the
    tick they are due at, and has the hardware armed for the first of them.
    [queue] lists the addresses on the chain in order; [armed] is what the
    hardware was last told, [None] while it is stopped; [fires] collects the
    [dpc_enqueue] calls, latest first.  The driver's [stop] and [time_passed]
    functions are arguments: the number of ticks they return. *)

From Stdlib Require Import Sorted.
From S2P Require Import Prelude.

Record timerentry_t := mk_entry { absolutetick : Z; repeatus : Z; fired : bool }.

Record timer_t := mk_timer {
  tick_limit : Z;
  ticksperus : Z;
  tickcurrent : Z;
  current_target : Z;
  running : bool;
  queue : list nat;
  entries : gmap nat timerentry_t;
  armed : option Z;
  fires : list nat
}.

Definition set_queue (q : list nat) (t : timer_t) : timer_t :=
  mk_timer (tick_limit t) (ticksperus t) (tickcurrent t) (current_target t) (running t) q
    (entries t) (armed t) (fires t).
Definition set_entry (x : nat) (e : timerentry_t) (t : timer_t) : timer_t :=
  mk_timer (tick_limit t) (ticksperus t) (tickcurrent t) (current_target t) (running t) (queue t)
    (<[x := e]> (entries t)) (armed t) (fires t).
Definition set_now (now : Z) (t : timer_t) : timer_t :=
  mk_timer (tick_limit t) (ticksperus t) now (current_target t) (running t) (queue t)
    (entries t) (armed t) (fires t).
Definition set_armed (target : Z) (a : option Z) (t : timer_t) : timer_t :=
  mk_timer (tick_limit t) (ticksperus t) (tickcurrent t) target (running t) (queue t)
    (entries t) a (fires t).
Definition set_running (b : bool) (t : timer_t) : timer_t :=
  mk_timer (tick_limit t) (ticksperus t) (tickcurrent t) (current_target t) b (queue t)
    (entries t) (armed t) (fires t).
Definition dpc_enqueue (x : nat) (t : timer_t) : timer_t :=
  mk_timer (tick_limit t) (ticksperus t) (tickcurrent t) (current_target t) (running t) (queue t)
    (entries t) (armed t) (x :: fires t).

Definition tick_of (es : gmap nat timerentry_t) (x : nat) : option Z := absolutetick <$> es !! x.

(** The tick an entry inserted now is due at; the arithmetic is that of a
    64 bit [long]. *)
Definition due_tick (t : timer_t) (us : Z) : Z :=
  let a := s64 (tickcurrent t + us * ticksperus t) in
  if a <? tickcurrent t
  then s64 (ticksperus t * 1000 * 1000 * 60 * 60 * 24 * 30 * 12 * 1000)
  else a.

(** The walk of [insert] from [search], which is on the queue before [rest];
    the result is the chain from [search] on.  Reaching the entry itself is the
    failed assertion. *)
Fixpoint insert_walk (es : gmap nat timerentry_t) (x : nat) (tick : Z) (search : nat) (rest : list nat)
    : option (list nat) :=
  if decide (search = x) then None
  else
    match rest with
    | [] => Some [search; x]
    | nx :: rest' =>
        ts ← tick_of es search;
        tn ← tick_of es nx;
        if (tick >=? ts) && (tn >? tick) then Some (search :: x :: nx :: rest')
        else l ← insert_walk es x tick nx rest'; Some (search :: l)
    end.

Definition insert (t : timer_t) (x : nat) (us : Z) : option timer_t :=
  e ← entries t !! x;
  let tick := due_tick t us in
  let t := set_entry x (mk_entry tick (repeatus e) (fired e)) t in
  match queue t with
  | [] => Some (set_queue [x] t)
  | hd :: rest =>
      th ← tick_of (entries t) hd;
      if th >? tick then Some (set_queue (x :: hd :: rest) t)
      else q ← insert_walk (entries t) x tick hd rest; Some (set_queue q t)
  end.

Definition arm_for_next_target (t : timer_t) : option timer_t :=
  target ←
    (match queue t with
     | hd :: _ => th ← tick_of (entries t) hd; Some (Z.min (s64 (th - tickcurrent t)) (tick_limit t))
     | [] => Some (tick_limit t)
     end);
  Some (set_armed (s64 (tickcurrent t + target)) (Some target) t).

(** Taking the first entry off the queue and firing it. *)
Definition fire_head (t : timer_t) : option timer_t :=
  match queue t with
  | [] => None
  | x :: rest =>
      let t := set_queue rest t in
      e ← entries t !! x;
      t' ← (if negb (repeatus e =? 0) then insert t x (repeatus e)
            else Some (set_entry x (mk_entry (absolutetick e) (repeatus e) true) t));
      Some (dpc_enqueue x t')
  end.

Fixpoint timercheck_loop (fuel : nat) (t : timer_t) : option timer_t :=
  match fuel with
  | O => None
  | S fuel' =>
      match queue t with
      | [] => Some t
      | x :: _ =>
          tx ← tick_of (entries t) x;
          if tx =? tickcurrent t then t' ← fire_head t; timercheck_loop fuel' t' else Some t
      end
  end.

(** Each entry of the queue is due at most once in a pass. *)
Definition timercheck (t : timer_t) : option timer_t :=
  timercheck_loop (S (length (queue t))) t.

(** The driver's [stop] disarms the hardware. *)
Definition hw_stop (t : timer_t) : timer_t := set_armed (current_target t) None t.

Definition timer_isr (time_passed : Z) (t : timer_t) : option timer_t :=
  match queue t with
  | [] => None
  | _ =>
      let t := hw_stop t in
      t ← (if time_passed <? s64 (current_target t - tickcurrent t)
           then Some (set_now (s64 (tickcurrent t + time_passed)) t)
           else fire_head (set_now (current_target t) t));
      t ← timercheck t;
      arm_for_next_target t
  end.

Definition timer_get_ticks (time_passed : Z) (t : timer_t) : Z := s64 (tickcurrent t + time_passed).

Definition timer_resume (t : timer_t) : option timer_t :=
  let t := set_running true t in
  match queue t with
  | [] => Some t
  | _ => t ← timercheck t; arm_for_next_target t
  end.

(** [if (timer->running) timer->tickcurrent += timer->stop(timer)] *)
Definition stop_if_running (stopped : Z) (t : timer_t) : timer_t :=
  if running t then set_now (s64 (tickcurrent t + stopped)) (hw_stop t) else t.

Definition timer_stop (stopped : Z) (t : timer_t) : timer_t :=
  set_running false (set_now (s64 (tickcurrent t + stopped)) (hw_stop t)).

Definition timer_insert (stopped : Z) (t : timer_t) (x : nat) (us : Z) (repeating : bool) : option timer_t :=
  let t := stop_if_running stopped t in
  let t := set_entry x (mk_entry 0 (if repeating then us else 0) false) t in
  t ← insert t x us;
  if running t then t ← timercheck t; arm_for_next_target t else Some t.

(** The entry is unlinked; not finding it is the failed assertion. *)
Fixpoint unlink_walk (x : nat) (q : list nat) : option (list nat) :=
  match q with
  | [] => None
  | y :: q' => if decide (y = x) then Some q' else l ← unlink_walk x q'; Some (y :: l)
  end.

Definition timer_remove (stopped : Z) (t : timer_t) (x : nat) : option (Z * timer_t) :=
  let t := stop_if_running stopped t in
  e ← entries t !! x;
  if fired e then Some (0, t)
  else
    q ← unlink_walk x (queue t);
    let t := set_queue q t in
    let timeremaining :=
      ROUND_UP (u64 (absolutetick e - tickcurrent t)) (ticksperus t) / ticksperus t in
    match queue t with
    | [] => Some (timeremaining, t)
    | _ => t ← timercheck t; t ← arm_for_next_target t; Some (timeremaining, t)
    end.

Definition timer_new (alloc_ok : bool) (ticks limit : Z) : option timer_t :=
  if alloc_ok then Some (mk_timer limit ticks 0 0 false [] ∅ None []) else None.

(** ** Invariant *)

Definition tick (t : timer_t) (x : nat) : Z := default 0 (tick_of (entries t) x).

Record timer_ok (t : timer_t) : Prop := {
  tk_sorted : StronglySorted (fun x y => tick t x <= tick t y) (queue t);
  tk_nodup : NoDup (queue t);
  tk_live : forall x, x ∈ queue t -> exists e, entries t !! x = Some e /\ fired e = false;
  tk_future : forall x, x ∈ queue t -> tickcurrent t <= tick t x < 2 ^ 63;
  tk_now : 0 <= tickcurrent t;
  tk_rate : 0 < ticksperus t;
  tk_repeat : forall x e, entries t !! x = Some e -> 0 <= repeatus e
}.

(** No deadline computed from now overflows. *)
Definition fits (t : timer_t) (us : Z) : Prop :=
  0 <= us /\ tickcurrent t + us * ticksperus t < 2 ^ 63.

Lemma due_tick_fits t us :
  0 <= tickcurrent t -> 0 < ticksperus t -> fits t us ->
  due_tick t us = tickcurrent t + us * ticksperus t.
Proof.
  intros Hn Hr [Hu Hb]. unfold due_tick. rewrite s64_id by nia.
  destruct (Z.ltb_spec (tickcurrent t + us * ticksperus t) (tickcurrent t)); [nia|done].
Qed.

(** ** Insertion *)

Lemma tick_of_live es x e : es !! x = Some e -> tick_of es x = Some (absolutetick e).
Proof. intros H. unfold tick_of. by rewrite H. Qed.

Section walk.
Context (es : gmap nat timerentry_t) (x : nat) (T : Z).
Abbreviation tk y := (default 0 (tick_of es y)).

Lemma insert_walk_ok rest : forall search,
  x ∉ search :: rest -> (forall y, y ∈ search :: rest -> exists e, es !! y = Some e) ->
  StronglySorted (fun y z => tk y <= tk z) (search :: rest) -> tk search <= T ->
  exists q1 q2, search :: rest = q1 ++ q2 /\ insert_walk es x T search rest = Some (q1 ++ x :: q2) /\
    (forall y, y ∈ q1 -> tk y <= T) /\ (forall y, y ∈ q2 -> T < tk y).
Proof.
  induction rest as [|nx rest IH]; intros search Nx Lv So Le; simpl; rewrite decide_False by set_solver.
  - exists [search], []. split; [done|]. split; [done|]. split; [|intros y H; by apply not_elem_of_nil in H].
    intros y ->%list_elem_of_singleton. done.
  - destruct (Lv search) as [es1 E1]; [set_solver|]. destruct (Lv nx) as [es2 E2]; [set_solver|].
    pose proof (tick_of_live es nx es2 E2) as T2.
    rewrite (tick_of_live es search es1 E1), T2. simpl.
    apply StronglySorted_inv in So as [So All].
    rewrite (tick_of_live es search es1 E1) in Le. simpl in Le.
    destruct ((T >=? absolutetick es1) && (absolutetick es2 >? T)) eqn:C.
    + exists [search], (nx :: rest). split; [done|]. split; [done|]. split.
      * intros y ->%list_elem_of_singleton. rewrite (tick_of_live es search es1 E1). simpl. lia.
      * intros y Hy. apply StronglySorted_inv in So as [_ All2]. rewrite Forall_forall in All2.
        apply elem_of_cons in Hy as [->|Hy]; [rewrite T2; simpl; lia|].
        specialize (All2 y Hy). rewrite T2 in All2. simpl in All2. lia.
    + destruct (IH nx) as (q1 & q2 & Eq & W & L1 & L2); [set_solver|set_solver|done|rewrite T2; simpl; lia|].
      rewrite W. simpl. exists (search :: q1), q2. simpl. split; [by rewrite Eq|]. split; [done|]. split; [|done].
      intros y [->|Hy]%elem_of_cons; [rewrite (tick_of_live es search es1 E1); simpl; lia|auto].
Qed.
End walk.

Lemma sorted_insert {A} (R : A -> A -> Prop) q1 x q2 :
  StronglySorted R (q1 ++ q2) -> Forall (fun y => R y x) q1 -> Forall (R x) q2 ->
  StronglySorted R (q1 ++ x :: q2).
Proof.
  induction q1 as [|y q1 IH]; simpl; intros S F1 F2; [by constructor|].
  apply StronglySorted_inv in S as [S All]. inversion F1; subst. constructor; [by apply IH|].
  rewrite Forall_app in *. destruct All. split; [done|]. by constructor.
Qed.

Lemma sorted_weaken {A} (R R' : A -> A -> Prop) l :
  StronglySorted R l -> (forall x y, x ∈ l -> y ∈ l -> R x y -> R' x y) -> StronglySorted R' l.
Proof.
  induction l as [|x l IH]; intros S W; constructor; apply StronglySorted_inv in S as [S All].
  - apply IH; [done|]. intros y z Hy Hz. apply W; by apply elem_of_cons; right.
  - rewrite Forall_forall in *. intros y Hy. apply W; [apply list_elem_of_here| |auto].
    by apply elem_of_cons; right.
Qed.

(** Where a new entry goes: behind everything due no later than it. *)
Lemma queue_insert_ok t x e us :
  timer_ok t -> x ∉ queue t -> entries t !! x = Some e ->
  exists q1 q2, queue t = q1 ++ q2 /\
    insert t x us = Some (set_queue (q1 ++ x :: q2)
      (set_entry x (mk_entry (due_tick t us) (repeatus e) (fired e)) t)) /\
    (forall y, y ∈ q1 -> tick t y <= due_tick t us) /\ (forall y, y ∈ q2 -> due_tick t us < tick t y).
Proof.
  intros Ok Nx Ex. unfold insert. rewrite Ex. cbn [mbind option_bind].
  set (e' := mk_entry (due_tick t us) (repeatus e) (fired e)).
  assert (Keep : forall y, y ∈ queue t -> tick_of (<[x := e']> (entries t)) y = tick_of (entries t) y).
  { intros y Hy. unfold tick_of. rewrite lookup_insert_ne; [done|]. intros ->. done. }
  change (queue (set_entry x e' t)) with (queue t).
  pose proof (tk_sorted _ Ok) as So. pose proof (tk_live _ Ok) as Lv.
  destruct (queue t) as [|hd rest] eqn:Q.
  { exists [], []. split; [done|]. split; [done|]. split; intros y H; by apply not_elem_of_nil in H. }
  destruct (Lv hd) as (eh & Eh & _); [apply list_elem_of_here|].
  change (entries (set_entry x e' t)) with (<[x := e']> (entries t)).
  rewrite Keep by apply list_elem_of_here. pose proof (tick_of_live _ _ _ Eh) as Th. rewrite Th. simpl.
  destruct (Z.gtb_spec (absolutetick eh) (due_tick t us)) as [Gt|Le].
  - exists [], (hd :: rest). split; [done|]. split; [done|]. split; [intros y H; by apply not_elem_of_nil in H|].
    apply StronglySorted_inv in So as [_ All]. rewrite Forall_forall in All.
    intros y [->|Hy]%elem_of_cons; unfold tick at 1; [by rewrite Th|].
    specialize (All y Hy). unfold tick in All. rewrite Th in All. simpl in All. lia.
  - destruct (insert_walk_ok (<[x := e']> (entries t)) x (due_tick t us) rest hd) as (q1 & q2 & Eq & W & L1 & L2).
    + done.
    + intros y Hy. destruct (decide (y = x)) as [->|Ne]; [done|]. rewrite lookup_insert_ne by done.
      destruct (Lv y Hy) as (ey & Ey & _). eauto.
    + eapply sorted_weaken; [exact So|]. intros y z Hy Hz. by rewrite !Keep.
    + rewrite Keep by apply list_elem_of_here. rewrite Th. simpl. lia.
    + rewrite W. simpl. exists q1, q2. rewrite <- Eq. split; [done|]. split; [done|].
      split; intros y Hy; unfold tick; rewrite <- Keep by (rewrite Eq; set_solver); auto.
Qed.

Lemma insert_keeps t x e us :
  timer_ok t -> x ∉ queue t -> entries t !! x = Some e -> fired e = false -> fits t us ->
  exists q1 q2, queue t = q1 ++ q2 /\
    insert t x us = Some (set_queue (q1 ++ x :: q2)
      (set_entry x (mk_entry (tickcurrent t + us * ticksperus t) (repeatus e) (fired e)) t)) /\
    timer_ok (set_queue (q1 ++ x :: q2)
      (set_entry x (mk_entry (tickcurrent t + us * ticksperus t) (repeatus e) (fired e)) t)) /\
    (forall y, y ∈ q1 -> tick t y <= tickcurrent t + us * ticksperus t) /\
    (forall y, y ∈ q2 -> tickcurrent t + us * ticksperus t < tick t y).
Proof.
  intros Ok Nx Ex Fx Fit. destruct (queue_insert_ok t x e us Ok Nx Ex) as (q1 & q2 & Q & I & L1 & L2).
  rewrite (due_tick_fits t us (tk_now _ Ok) (tk_rate _ Ok) Fit) in *.
  set (T := tickcurrent t + us * ticksperus t) in *. exists q1, q2.
  split; [done|]. split; [done|]. split; [|done].
  set (e' := mk_entry T (repeatus e) (fired e)). set (t' := set_queue (q1 ++ x :: q2) (set_entry x e' t)).
  assert (Tx : tick t' x = T) by (unfold tick, tick_of; simpl; by rewrite lookup_insert_eq).
  assert (Ty : forall y, y <> x -> tick t' y = tick t y)
    by (intros y Hy; unfold tick, tick_of; simpl; by rewrite lookup_insert_ne).
  assert (Elem : forall y, y ∈ queue t' <-> y = x \/ y ∈ queue t) by (intros y; rewrite Q; simpl; set_solver).
  assert (Nq : forall y, y ∈ q1 ++ q2 -> y <> x) by (intros y Hy ->; by rewrite Q in Nx).
  split.
  - simpl. apply sorted_insert.
    + rewrite <- Q. eapply sorted_weaken; [apply Ok|]. intros y z Hy Hz.
      by rewrite !Ty by (intros ->; done).
    + apply Forall_forall. intros y Hy. rewrite Tx, Ty; [auto|]. apply Nq. set_solver.
    + apply Forall_forall. intros y Hy. rewrite Tx, Ty; [|apply Nq; set_solver].
      specialize (L2 y Hy). lia.
  - simpl. rewrite <- Permutation_middle. apply NoDup_cons. rewrite <- Q. split; [done|apply Ok].
  - intros y [->|Hy]%Elem; simpl; [exists e'; rewrite lookup_insert_eq; done|].
    rewrite lookup_insert_ne by (intros ->; done). by apply (tk_live _ Ok).
  - intros y [->|Hy]%Elem; [rewrite Tx; unfold fits in Fit; pose proof (tk_rate _ Ok); simpl; unfold T; nia|].
    rewrite Ty by (intros ->; done). by apply (tk_future _ Ok).
  - apply Ok.
  - apply Ok.
  - intros y ey. simpl. destruct (decide (y = x)) as [->|Ne].
    + rewrite lookup_insert_eq. intros [= <-]. simpl. by apply (tk_repeat _ Ok x).
    + rewrite lookup_insert_ne by done. apply Ok.
Qed.

(** ** Firing *)

(** No repeating entry overflows when it is inserted again. *)
Definition repeats_fit (t : timer_t) : Prop :=
  forall x e, entries t !! x = Some e -> fits t (repeatus e).

(** What stays the same while entries fire. *)
Definition same_clock (t t' : timer_t) : Prop :=
  tickcurrent t' = tickcurrent t /\ ticksperus t' = ticksperus t /\ tick_limit t' = tick_limit t /\
  running t' = running t /\ current_target t' = current_target t /\ armed t' = armed t /\
  forall x e, entries t' !! x = Some e -> exists e0, entries t !! x = Some e0 /\ repeatus e = repeatus e0.

Lemma same_clock_fit t t' : same_clock t t' -> repeats_fit t -> repeats_fit t'.
Proof.
  intros (N & R & _ & _ & _ & _ & K) F x e E. destruct (K x e E) as (e0 & E0 & ->).
  unfold fits. rewrite N, R. by apply (F x).
Qed.

Lemma same_clock_trans t1 t2 t3 : same_clock t1 t2 -> same_clock t2 t3 -> same_clock t1 t3.
Proof.
  intros (A1 & A2 & A3 & A4 & A5 & A6 & A7) (B1 & B2 & B3 & B4 & B5 & B6 & B7).
  unfold same_clock. split_and!; try congruence. intros x e E.
  destruct (B7 x e E) as (e1 & E1 & ->). destruct (A7 x e1 E1) as (e0 & E0 & ->). eauto.
Qed.

Lemma timer_ok_tail t x rest :
  timer_ok t -> queue t = x :: rest -> timer_ok (set_queue rest t) /\ (x ∉ rest) /\
    forall y, y ∈ rest -> tick t x <= tick t y.
Proof.
  intros [S N L F Nw Rt Rp] Q. rewrite Q in *. apply StronglySorted_inv in S as [S All].
  apply NoDup_cons in N as [Nx N]. rewrite Forall_forall in All. split; [|done].
  split; simpl; try done; intros y Hy; [apply L|apply F]; by apply elem_of_cons; right.
Qed.

(** The first entry leaves the queue and its call is queued; a repeating one
    goes back in behind what is due no later. *)
Lemma fire_head_ok t x rest :
  timer_ok t -> repeats_fit t -> queue t = x :: rest ->
  exists e t', entries t !! x = Some e /\ fire_head t = Some t' /\ timer_ok t' /\ same_clock t t' /\
    fires t' = x :: fires t /\ (forall y, y <> x -> entries t' !! y = entries t !! y) /\
    (if decide (repeatus e = 0) then queue t' = rest /\ (fired <$> entries t' !! x) = Some true
     else exists q1 q2, rest = q1 ++ q2 /\ queue t' = q1 ++ x :: q2 /\
       tick t' x = tickcurrent t + repeatus e * ticksperus t /\
       (fired <$> entries t' !! x) = Some false /\
       (forall y, y ∈ q1 -> tick t y <= tick t' x) /\ (forall y, y ∈ q2 -> tick t' x < tick t y)).
Proof.
  intros Ok Fit Q. destruct (timer_ok_tail t x rest Ok Q) as (Ok1 & Nx & _).
  destruct (tk_live _ Ok x) as (e & Ex & Fx); [rewrite Q; apply list_elem_of_here|].
  exists e. unfold fire_head. rewrite Q. simpl. rewrite Ex. simpl.
  pose proof (tk_repeat _ Ok x e Ex) as Rp. destruct (decide (repeatus e = 0)) as [R0|R0].
  - rewrite R0. simpl. eexists. split; [done|]. split; [reflexivity|].
    set (e' := mk_entry _ _ _). split; [|split; [|split; [done|split]]].
    + destruct Ok1 as [S N L F Nw Rt Rp']. simpl in *.
      assert (Tk : forall y, y <> x -> tick (dpc_enqueue x (set_entry x e' (set_queue rest t))) y = tick t y)
        by (intros y Hy; unfold tick, tick_of; simpl; by rewrite lookup_insert_ne).
      split; simpl; try done.
      * eapply sorted_weaken; [exact S|]. intros y z Hy Hz. by rewrite !Tk by (intros ->; done).
      * intros y Hy. rewrite lookup_insert_ne by (intros ->; done). auto.
      * intros y Hy. rewrite Tk by (intros ->; done). exact (F y Hy).
      * intros y ey. destruct (decide (y = x)) as [->|Ne]; [rewrite lookup_insert_eq; intros [= <-]; simpl; lia|].
        rewrite lookup_insert_ne by done. apply Rp'.
    + unfold same_clock. simpl. split_and!; try done. intros y ey. destruct (decide (y = x)) as [->|Ne].
      * rewrite lookup_insert_eq. intros [= <-]. exists e. split; [done|]. simpl. lia.
      * rewrite lookup_insert_ne by done. eauto.
    + intros y Hy. simpl. by rewrite lookup_insert_ne.
    + split; [done|]. simpl. by rewrite lookup_insert_eq.
  - rewrite (proj2 (Z.eqb_neq _ _) R0). simpl.
    destruct (insert_keeps (set_queue rest t) x e (repeatus e) Ok1 Nx Ex Fx) as (q1 & q2 & Eq & I & Ok2 & L1 & L2).
    { exact (Fit x e Ex). }
    rewrite I. simpl. eexists. split; [done|]. split; [reflexivity|].
    split; [by destruct Ok2; split|]. split; [|split; [done|split]].
    + unfold same_clock. simpl. split_and!; try done. intros y ey. destruct (decide (y = x)) as [->|Ne].
      * rewrite lookup_insert_eq. intros [= <-]. eauto.
      * rewrite lookup_insert_ne by done. eauto.
    + intros y Hy. simpl. by rewrite lookup_insert_ne.
    + simpl in *. assert (Tx : tick (dpc_enqueue x (set_queue (q1 ++ x :: q2) (set_entry x
        (mk_entry (tickcurrent t + repeatus e * ticksperus t) (repeatus e) (fired e)) (set_queue rest t)))) x
        = tickcurrent t + repeatus e * ticksperus t) by (unfold tick, tick_of; simpl; by rewrite lookup_insert_eq).
      exists q1, q2. split; [done|]. split; [done|]. rewrite Tx. split; [done|].
      split; [rewrite lookup_insert_eq; simpl; by rewrite Fx|]. done.
Qed.

Lemma app_split_disjoint {A} (l1 l2 q1 q2 : list A) :
  l1 ++ l2 = q1 ++ q2 -> (forall y, y ∈ l1 -> y ∉ q2) -> exists r, q1 = l1 ++ r /\ l2 = r ++ q2.
Proof.
  intros E D. apply app_eq_inv in E as [(k & -> & ->)|(k & -> & ->)]; [|by exists k].
  destruct k as [|y k]; [exists []; by rewrite !app_nil_r|]. exfalso. apply (D y); set_solver.
Qed.

(** What firing [out] does to the entries, [rest] being the others of the
    queue. *)
Definition fired_out (t t' : timer_t) (out rest : list nat) : Prop :=
  fires t' = rev out ++ fires t /\
  (forall y e, entries t !! y = Some e -> y ∈ out ->
     (y ∈ queue t' <-> repeatus e <> 0) /\ (fired <$> entries t' !! y) = Some (bool_decide (repeatus e = 0))) /\
  (forall y, y ∉ out -> entries t' !! y = entries t !! y /\ (y ∈ queue t' <-> y ∈ rest)).

(** Firing the first entry leaves the entries that are due now in front. *)
Lemma fire_step t x due rest :
  timer_ok t -> repeats_fit t -> queue t = x :: due ++ rest ->
  (forall y, y ∈ due -> tick t y = tickcurrent t) -> (forall y, y ∈ rest -> tickcurrent t < tick t y) ->
  exists e t1 rest1, entries t !! x = Some e /\ fire_head t = Some t1 /\ timer_ok t1 /\ same_clock t t1 /\
    fires t1 = x :: fires t /\ (forall y, y <> x -> entries t1 !! y = entries t !! y /\ tick t1 y = tick t y) /\
    queue t1 = due ++ rest1 /\ (forall y, y ∈ rest1 -> tickcurrent t1 < tick t1 y) /\
    (forall y, y <> x -> y ∈ rest1 <-> y ∈ rest) /\ (x ∈ rest1 <-> repeatus e <> 0) /\
    (fired <$> entries t1 !! x) = Some (bool_decide (repeatus e = 0)).
Proof.
  intros Ok Fit Q Now Later. destruct (timer_ok_tail t x (due ++ rest) Ok Q) as (_ & Nx & _).
  destruct (fire_head_ok t x (due ++ rest) Ok Fit Q) as (e & t1 & Ex & H1 & Ok1 & Sc & Fi & Oth & Qs).
  pose proof Sc as (Nw & Rt & _).
  assert (Tk : forall y, y <> x -> tick t1 y = tick t y) by (intros y Hy; unfold tick, tick_of; by rewrite Oth).
  assert (Dx : forall y, y ∈ due ++ rest -> y <> x) by (intros y Hy ->; done).
  exists e, t1. rewrite Nw. destruct (decide (repeatus e = 0)) as [R0|R0].
  - destruct Qs as [Q1 F1]. exists rest. split_and!; try done; [by auto| | |by rewrite bool_decide_true].
    + intros y Hy. rewrite Tk by (apply Dx; set_solver). auto.
    + split; [set_solver|done].
  - destruct Qs as (q1 & q2 & Eq & Q1 & Tx & F1 & L1 & L2).
    pose proof (tk_repeat _ Ok x e Ex). pose proof (tk_rate _ Ok).
    destruct (app_split_disjoint due rest q1 q2 Eq) as (r & -> & ->).
    { intros y Hy Hq. specialize (L2 y Hq). rewrite (Now y) in L2 by done. nia. }
    exists (r ++ x :: q2). split_and!; try done; [by auto|by rewrite <- app_assoc in Q1| |set_solver| |by rewrite bool_decide_false].
    + intros y Hy. destruct (decide (y = x)) as [->|Ne]; [nia|]. rewrite Tk by done. apply Later. set_solver.
    + split; [done|set_solver].
Qed.

(** Firing the first entry and then the rest of [out]. *)
Lemma fired_out_cons t t1 t' x e due rest rest1 :
  (x ∉ due ++ rest) -> entries t !! x = Some e -> fires t1 = x :: fires t ->
  (forall y, y <> x -> entries t1 !! y = entries t !! y /\ tick t1 y = tick t y) ->
  (forall y, y <> x -> y ∈ rest1 <-> y ∈ rest) -> (x ∈ rest1 <-> repeatus e <> 0) ->
  (fired <$> entries t1 !! x) = Some (bool_decide (repeatus e = 0)) ->
  fired_out t1 t' due rest1 -> fired_out t t' (x :: due) rest.
Proof.
  intros Nx Ex Fi Oth M1 X1 F1 (Fi' & D' & O'). assert (Nd : x ∉ due) by (intros Hx; apply Nx; set_solver). split_and!.
  - rewrite Fi', Fi. simpl. by rewrite <- app_assoc.
  - intros y ey Ey [->|Hy]%elem_of_cons.
    + destruct (O' x Nd) as [E' M']. rewrite Ey in Ex. injection Ex as ->. rewrite E'. split; [|done]. by rewrite M'.
    + apply D'; [|done]. rewrite (proj1 (Oth y ltac:(intros ->; done))). done.
  - intros y Hy. destruct (O' y) as [E' M']; [set_solver|]. assert (y <> x) by set_solver.
    rewrite E', M', M1 by done. split; [by apply Oth|done].
Qed.

(** A pass of [timercheck] fires what is due now, in queue order, and nothing
    else. *)
Lemma timercheck_ok due : forall t rest fuel,
  timer_ok t -> repeats_fit t -> queue t = due ++ rest -> (length due < fuel)%nat ->
  (forall y, y ∈ due -> tick t y = tickcurrent t) -> (forall y, y ∈ rest -> tickcurrent t < tick t y) ->
  exists t', timercheck_loop fuel t = Some t' /\ timer_ok t' /\ same_clock t t' /\ fired_out t t' due rest.
Proof.
  induction due as [|x due IH]; intros t rest [|fuel] Ok Fit Q Fl Now Later; simpl in Fl; try lia.
  - exists t. split.
    { simpl. simpl in Q. destruct (queue t) as [|y q] eqn:Eq; [done|].
      destruct (tk_live _ Ok y) as (e & Ey & _); [rewrite Eq; apply list_elem_of_here|].
      assert (tickcurrent t < tick t y) as Lt by (apply Later; rewrite <- Q; apply list_elem_of_here).
      unfold tick in Lt. rewrite (tick_of_live _ _ _ Ey) in Lt |- *. simpl in *.
      by rewrite (proj2 (Z.eqb_neq _ _)) by lia. }
    split; [done|]. split; [by unfold same_clock; split_and!; eauto|]. split; [done|].
    simpl in Q. rewrite Q. split; [intros y e _ H; by apply not_elem_of_nil in H|done].
  - destruct (timer_ok_tail t x (due ++ rest) Ok Q) as (_ & Nx & _).
    destruct (fire_step t x due rest Ok Fit Q) as (e & t1 & rest1 & Ex & H1 & Ok1 & Sc & Fi & Oth & Q1 & L1 & M1 & X1 & F1); [|done|].
    { intros y Hy. apply Now. by apply elem_of_cons; right. }
    destruct (IH t1 rest1 fuel Ok1 (same_clock_fit _ _ Sc Fit) Q1) as (t' & H & Ok' & Sc' & Fo); [lia| |done|].
    { intros y Hy. destruct Sc as (-> & _). rewrite (proj2 (Oth y ltac:(intros ->; set_solver))). apply Now. by apply elem_of_cons; right. }
    exists t'. split.
    { simpl. rewrite Q. simpl. rewrite (tick_of_live _ _ _ Ex). simpl.
      assert (tick t x = tickcurrent t) as Tx by (apply Now, list_elem_of_here).
      unfold tick in Tx. rewrite (tick_of_live _ _ _ Ex) in Tx. simpl in Tx. rewrite Tx, Z.eqb_refl, H1. done. }
    split; [done|]. split; [by eapply same_clock_trans|]. by eapply fired_out_cons.
Qed.

Lemma split_due t :
  timer_ok t -> exists due rest, queue t = due ++ rest /\
    (forall y, y ∈ due -> tick t y = tickcurrent t) /\ (forall y, y ∈ rest -> tickcurrent t < tick t y).
Proof.
  intros [S _ _ F _ _ _]. revert S F. generalize (queue t) as q. induction q as [|x q IH]; intros S F.
  { exists [], []. split; [done|]. split; intros y H; by apply not_elem_of_nil in H. }
  apply StronglySorted_inv in S as [S All]. rewrite Forall_forall in All.
  destruct (F x) as [Lx _]; [apply list_elem_of_here|].
  destruct (decide (tick t x = tickcurrent t)) as [Eq|Ne].
  - destruct IH as (due & rest & -> & D & R); [done|intros y Hy; apply F; by apply elem_of_cons; right|].
    exists (x :: due), rest. split; [done|]. split; [|done]. intros y [->|Hy]%elem_of_cons; auto.
  - exists [], (x :: q). split; [done|]. split; [intros y H; by apply not_elem_of_nil in H|].
    intros y [->|Hy]%elem_of_cons; [lia|]. specialize (All y Hy). lia.
Qed.

Lemma timer_ok_now t now :
  timer_ok t -> 0 <= now -> (forall y, y ∈ queue t -> now <= tick t y) -> timer_ok (set_now now t).
Proof.
  intros [S N L F Nw Rt Rp] Hn Le. split; try done. intros y Hy. simpl. split; [by apply Le|]. by apply F.
Qed.

Lemma timer_ok_armed t target a : timer_ok t -> timer_ok (set_armed target a t).
Proof. intros Ok. by destruct Ok; split. Qed.

(** The state armed for the first entry, or for the limit. *)
Definition armed_for (t : timer_t) (a : Z) : Prop :=
  match queue t with
  | [] => a = tick_limit t
  | x :: _ => a = Z.min (tick t x - tickcurrent t) (tick_limit t)
  end.

Lemma arm_ok t :
  timer_ok t -> exists a target, arm_for_next_target t = Some (set_armed target (Some a) t) /\ armed_for t a /\
    (forall x rest, queue t = x :: rest -> tick t x - tickcurrent t <= tick_limit t -> target = tick t x).
Proof.
  intros Ok. unfold arm_for_next_target, armed_for. pose proof (tk_now _ Ok) as Nw. destruct (queue t) as [|x q] eqn:Q.
  { simpl. eexists _, _. split; [reflexivity|]. done. }
  assert (Hx : x ∈ queue t) by (rewrite Q; apply list_elem_of_here).
  destruct (tk_live _ Ok x Hx) as (e & Ex & _). pose proof (tk_future _ Ok x Hx) as Fx.
  assert (Tx : tick_of (entries t) x = Some (tick t x))
    by (unfold tick; by rewrite (tick_of_live _ _ _ Ex)).
  rewrite Tx. simpl. rewrite (s64_small (tick t x - tickcurrent t)) by lia. eexists _, _. split; [reflexivity|]. split; [done|].
  intros y rest [= <- _] Le. rewrite Z.min_l by done. rewrite s64_small; lia.
Qed.

(** ** Properties *)

(** The tick the hardware was told to interrupt at, as [arm_for_next_target]
    leaves it for the first entry [hd]. *)
Definition target_ok (t : timer_t) (hd : nat) : Prop :=
  current_target t = tickcurrent t + Z.min (tick t hd - tickcurrent t) (tick_limit t).

(** The interrupt came at its target: the first entry fires, then what is due. *)
Lemma isr_at_target t hd q :
  timer_ok t -> repeats_fit t -> queue t = hd :: q ->
  exists due rest t', q = due ++ rest /\ (t1 ← fire_head t; timercheck t1) = Some t' /\ timer_ok t' /\ same_clock t t' /\
    fired_out t t' (hd :: due) rest /\
    (forall y, y ∈ due -> tick t y = tickcurrent t) /\ (forall y, y ∈ rest -> tickcurrent t < tick t y).
Proof.
  intros Ok Fit Q. destruct (timer_ok_tail t hd q Ok Q) as (Okq & Nh & _).
  destruct (split_due (set_queue q t) Okq) as (due & rest & Qd & D & R). simpl in Qd. subst q.
  destruct (fire_step t hd due rest Ok Fit Q D R) as (e & t1 & rest1 & Ex & H1 & Ok1 & Sc & Fi & Oth & Q1 & L1 & M1 & X1 & F1).
  destruct (timercheck_ok due t1 rest1 (S (length (queue t1))) Ok1 (same_clock_fit _ _ Sc Fit) Q1)
    as (t' & H & Ok' & Sc' & Fo); [rewrite Q1, length_app; lia| |done|].
  { intros y Hy. destruct Sc as (-> & _). rewrite (proj2 (Oth y ltac:(intros ->; set_solver))). by apply D. }
  exists due, rest, t'. split; [done|]. split; [rewrite H1; exact H|]. split; [done|].
  split; [by eapply same_clock_trans|]. split; [by eapply fired_out_cons|done].
Qed.

(** C14. What the timer interrupt fires, for a timer armed for its first entry.
    Before the target tick it fires nothing and the clock advances by what the
    hardware counted.  At the target the first entry fires, and with it, in queue
    order, every other entry due at that tick, no others.  So an entry within the
    range of the hardware counter fires when it is due; one beyond that range
    fires alone and early, at the end of the range.  The repeating ones of what
    fired are pending again and the others marked fired; everything else is as it
    was, and the hardware is armed for the next entry. *)
Theorem timer_isr_fires t passed hd q :
  timer_ok t -> queue t = hd :: q -> target_ok t hd -> 0 < tick_limit t -> 0 <= passed ->
  let now := Z.min (tickcurrent t + passed) (current_target t) in
  repeats_fit (set_now now t) ->
  exists out rest t', queue t = out ++ rest /\ timer_isr passed t = Some t' /\ timer_ok t' /\ tickcurrent t' = now /\
    fired_out t t' out rest /\ (exists a, armed t' = Some a /\ armed_for t' a) /\
    (forall y, y ∈ rest -> now < tick t y) /\
    if passed <? current_target t - tickcurrent t then out = []
    else if tick t hd - tickcurrent t <=? tick_limit t then hd ∈ out /\ forall y, y ∈ out -> tick t y = now
    else out = [hd] /\ now < tick t hd.
Proof.
  intros Ok Q Tg Lim Ps now Fit. assert (Hh : hd ∈ queue t) by (rewrite Q; apply list_elem_of_here).
  pose proof (tk_future _ Ok hd Hh) as Fh. pose proof (tk_now _ Ok) as Nw. unfold target_ok in Tg.
  assert (First : forall y, y ∈ queue t -> tick t hd <= tick t y).
  { intros y Hy. rewrite Q in Hy. apply elem_of_cons in Hy as [->|Hy]; [done|]. by apply (timer_ok_tail t hd q Ok Q). }
  set (t0 := set_now now (hw_stop t)).
  assert (Ok0 : timer_ok t0).
  { apply (timer_ok_now (hw_stop t)); [by apply timer_ok_armed|lia|]. intros y Hy. change (tick (hw_stop t) y) with (tick t y).
    specialize (First y Hy). lia. }
  assert (Run : forall out rest t2, (if passed <? current_target t - tickcurrent t then timercheck t0 else t1 ← fire_head t0; timercheck t1) = Some t2 ->
    timer_ok t2 -> same_clock t0 t2 -> fired_out t0 t2 out rest ->
    exists t', timer_isr passed t = Some t' /\ timer_ok t' /\ tickcurrent t' = now /\ fired_out t t' out rest /\
      exists a, armed t' = Some a /\ armed_for t' a).
  { intros out rest t2 E Ok2 (N2 & _) Fo. destruct (arm_ok t2 Ok2) as (a & target & Ar & Af & _).
    exists (set_armed target (Some a) t2). split_and!; [|by apply timer_ok_armed|done|done|by exists a].
    unfold timer_isr. rewrite Q. cbv zeta. change (current_target (hw_stop t)) with (current_target t).
    change (tickcurrent (hw_stop t)) with (tickcurrent t). rewrite (s64_small (current_target t - tickcurrent t)) by lia.
    destruct (Z.ltb_spec passed (current_target t - tickcurrent t)); cbn [mbind option_bind].
    - rewrite s64_small by lia. replace (tickcurrent t + passed) with now by lia. fold t0. rewrite E. exact Ar.
    - replace (current_target t) with now by lia. fold t0. destruct (fire_head t0) as [t1|]; [|done].
      cbn [mbind option_bind] in *. rewrite E. exact Ar. }
  destruct (Z.ltb_spec passed (current_target t - tickcurrent t)) as [Early|Late].
  - assert (R : forall y, y ∈ queue t -> now < tick t y) by (intros y Hy; specialize (First y Hy); lia).
    destruct (timercheck_ok [] t0 (queue t) (S (length (queue t))) Ok0 Fit eq_refl) as (t2 & E & Ok2 & Sc & Fo);
      [simpl; lia|intros y Hy; by apply not_elem_of_nil in Hy|done|].
    destruct (Run [] (queue t) t2 E Ok2 Sc Fo) as (t' & H1 & H2 & H3 & H4 & H5). by exists [], (queue t), t'.
  - destruct (isr_at_target t0 hd q Ok0 Fit Q) as (due & rest & t2 & -> & E & Ok2 & Sc & Fo & D & R).
    destruct (Run (hd :: due) rest t2 E Ok2 Sc Fo) as (t' & H1 & H2 & H3 & H4 & H5).
    exists (hd :: due), rest, t'. split_and!; try done. destruct (Z.leb_spec (tick t hd - tickcurrent t) (tick_limit t)).
    + split; [apply list_elem_of_here|]. intros y [->|Hy]%elem_of_cons; [lia|by apply D].
    + split; [|lia]. destruct due as [|y due]; [done|exfalso]. pose proof (D y (list_elem_of_here _ _)) as Dy.
      change (tick t0 y) with (tick t y) in Dy. simpl in Dy. assert (y ∈ queue t) as Hy by (rewrite Q; set_solver).
      specialize (First y Hy). lia.
Qed.

(** Checking and arming, the tail of the calls below: what is later than now
    stays pending. *)
Lemma check_and_arm t :
  timer_ok t -> repeats_fit t ->
  exists t', (t1 ← timercheck t; arm_for_next_target t1) = Some t' /\ timer_ok t' /\
    tickcurrent t' = tickcurrent t /\ (exists a, armed t' = Some a /\ armed_for t' a) /\
    (forall y, tickcurrent t < tick t y -> (y ∈ queue t' <-> y ∈ queue t) /\ entries t' !! y = entries t !! y) /\
    (forall y, y ∈ fires t' <-> y ∈ fires t \/ y ∈ queue t /\ tick t y = tickcurrent t) /\
    (forall y, y ∈ queue t' -> y ∈ queue t).
Proof.
  intros Ok Fit. destruct (split_due t Ok) as (due & rest & Q & D & R).
  destruct (timercheck_ok due t rest (S (length (queue t))) Ok Fit Q) as (t1 & H1 & Ok1 & (Nw & _) & Fi & _ & Oth);
    [rewrite Q, length_app; lia|done|done|].
  destruct (arm_ok t1 Ok1) as (a & target & Ar & Af & _).
  exists (set_armed target (Some a) t1). unfold timercheck. rewrite H1. cbn [mbind option_bind].
  split; [done|]. split; [by apply timer_ok_armed|]. split; [done|]. split; [by exists a|]. split.
  - intros y Hy. assert (Nd : y ∉ due) by (intros Hd; rewrite (D y Hd) in Hy; lia).
    destruct (Oth y Nd) as [E M]. split; [|done]. simpl. rewrite M, Q. set_solver.
  - split; [|intros y Hy; destruct (decide (y ∈ due)) as [Hd|Hd]; [rewrite Q; set_solver|]; simpl in Hy;
      apply Oth in Hy; [rewrite Q; set_solver|done]].
    intros y. simpl. rewrite Fi, Q, elem_of_app, list_elem_of_In, <- in_rev, <- list_elem_of_In, elem_of_app.
    split.
    + intros [Hd|Hf]; [right|by left]. split; [by left|by apply D].
    + intros [Hf|[[Hd|Hr] Ty]]; [by right|by left|]. specialize (R y Hr). lia.
Qed.

(** The present, when the hardware counter reads [stopped]. *)
Definition now_at (stopped : Z) (t : timer_t) : Z :=
  if running t then tickcurrent t + stopped else tickcurrent t.

(** The reading is not behind, and no pending entry is overdue. *)
Definition on_time (stopped : Z) (t : timer_t) : Prop :=
  0 <= stopped /\ now_at stopped t < 2 ^ 63 /\ forall y, y ∈ queue t -> now_at stopped t <= tick t y.

Lemma stop_ok stopped t :
  timer_ok t -> on_time stopped t ->
  timer_ok (stop_if_running stopped t) /\ tickcurrent (stop_if_running stopped t) = now_at stopped t /\
  entries (stop_if_running stopped t) = entries t /\ queue (stop_if_running stopped t) = queue t /\
  ticksperus (stop_if_running stopped t) = ticksperus t /\ running (stop_if_running stopped t) = running t /\
  fires (stop_if_running stopped t) = fires t.
Proof.
  intros Ok (S0 & B & L). unfold stop_if_running, now_at in *. destruct (running t) eqn:Rn; [|done].
  pose proof (tk_now _ Ok). rewrite s64_small by lia. split; [|done].
  apply timer_ok_now; [by apply timer_ok_armed|lia|done].
Qed.

(** A new entry is pending from then on, due its number of microseconds
    from now; what was pending for later keeps its time, and a running timer is
    armed for the earliest. *)
Theorem timer_insert_pending stopped t x us (repeating : bool) :
  timer_ok t -> on_time stopped t -> x ∉ queue t -> 0 < us ->
  now_at stopped t + us * ticksperus t < 2 ^ 63 ->
  repeats_fit (set_now (now_at stopped t) t) ->
  exists t', timer_insert stopped t x us repeating = Some t' /\ timer_ok t' /\
    tickcurrent t' = now_at stopped t /\ x ∈ queue t' /\
    tick t' x = now_at stopped t + us * ticksperus t /\
    (forall y, y ∈ queue t -> now_at stopped t < tick t y -> y ∈ queue t' /\ tick t' y = tick t y) /\
    (running t = true -> exists a, armed t' = Some a /\ armed_for t' a).
Proof.
  intros Ok OnT Nx Us Bd Fit. destruct (stop_ok stopped t Ok OnT) as (Ok0 & N0 & E0 & Q0 & R0 & Rn0 & F0).
  unfold timer_insert. set (t0 := stop_if_running stopped t) in *. set (e := mk_entry 0 _ false).
  set (t1 := set_entry x e t0).
  assert (Tk : forall y, y <> x -> tick t1 y = tick t y).
  { intros y Hy. unfold tick, tick_of. simpl. rewrite lookup_insert_ne by done. by rewrite E0. }
  assert (Ok1 : timer_ok t1).
  { destruct Ok0 as [S N L F Nw Rt Rp]. rewrite Q0, N0 in *. split; simpl; rewrite ?Q0, ?N0; try done.
    - eapply sorted_weaken; [exact (tk_sorted _ Ok)|]. intros y z Hy Hz. by rewrite !Tk by (intros ->; done).
    - intros y Hy. rewrite lookup_insert_ne by (intros ->; done). auto.
    - intros y Hy. rewrite Tk by (intros ->; done). split; [by apply OnT|]. by apply (tk_future _ Ok).
    - intros y ey. destruct (decide (y = x)) as [->|Ne].
      + rewrite lookup_insert_eq. intros [= <-]. simpl. destruct repeating; lia.
      + rewrite lookup_insert_ne by done. apply Rp. }
  destruct (insert_keeps t1 x e us Ok1) as (q1 & q2 & Q1 & I & Ok2 & _).
  { simpl. by rewrite Q0. } { simpl. apply lookup_insert_eq. } { done. }
  { split; [lia|]. simpl. by rewrite N0, R0. }
  rewrite I. cbn [mbind option_bind]. set (t2 := set_queue _ _) in *.
  assert (Elem : forall y, y ∈ queue t2 <-> y = x \/ y ∈ queue t).
  { intros y. simpl. rewrite <- Q0. change (queue t0) with (queue t1). rewrite Q1. set_solver. }
  assert (N2 : tickcurrent t2 = now_at stopped t) by exact N0.
  assert (T2x : tick t2 x = now_at stopped t + us * ticksperus t).
  { unfold tick, tick_of. simpl. rewrite lookup_insert_eq. simpl. by rewrite N0, R0. }
  assert (T2 : forall y, y <> x -> tick t2 y = tick t y).
  { intros y Hy. unfold tick, tick_of. simpl. rewrite !lookup_insert_ne by done. by rewrite E0. }
  pose proof (tk_rate _ Ok) as Rt. change (running t2) with (running t0). rewrite Rn0. destruct (running t) eqn:Rn.
  - assert (Fit2 : repeats_fit t2).
    { intros y ey. simpl. unfold fits. simpl. rewrite N0, R0. destruct (decide (y = x)) as [->|Ne].
      - rewrite lookup_insert_eq. intros [= <-]. simpl. destruct repeating; [split; [lia|done]|].
        destruct OnT as (_ & ? & _). split; lia.
      - rewrite !lookup_insert_ne, E0 by done. apply Fit. }
    destruct (check_and_arm t2 Ok2 Fit2) as (t' & H & Ok' & N' & A' & K' & _).
    assert (Kt : forall y, tickcurrent t2 < tick t2 y -> y ∈ queue t2 -> y ∈ queue t' /\ tick t' y = tick t2 y).
    { intros y Hy Hq. destruct (K' y Hy) as [M E]. split; [by apply M|]. unfold tick, tick_of. by rewrite E. }
    exists t'. split; [exact H|]. split; [done|]. split; [by rewrite N'|].
    assert (tickcurrent t2 < tick t2 x) as Lx by (rewrite N2, T2x; nia).
    destruct (Kt x Lx) as [Mx Ex]; [rewrite Elem; by left|]. split; [done|]. split; [by rewrite Ex|].
    split; [|done]. intros y Hy Ly. assert (y <> x) by (intros ->; done).
    destruct (Kt y) as [My Ey]; [by rewrite N2, T2|rewrite Elem; by right|]. split; [done|]. by rewrite Ey, T2.
  - exists t2. split; [done|]. split; [done|]. split; [done|]. split; [rewrite Elem; by left|].
    split; [done|]. split; [|done]. intros y Hy _. split; [rewrite Elem; by right|]. apply T2. intros ->. done.
Qed.

Lemma unlink_walk_ok x q : x ∈ q -> NoDup q ->
  exists q1 q2, q = q1 ++ x :: q2 /\ unlink_walk x q = Some (q1 ++ q2).
Proof.
  induction q as [|y q IH]; intros Hx ND; [by apply not_elem_of_nil in Hx|]. apply NoDup_cons in ND as [Ny ND]. simpl.
  destruct (decide (y = x)) as [->|Ne]; [by exists [], q|].
  destruct IH as (q1 & q2 & -> & E); [set_solver|done|]. rewrite E. by exists (y :: q1), q2.
Qed.

Lemma timer_ok_drop t q1 x q2 :
  timer_ok t -> queue t = q1 ++ x :: q2 -> timer_ok (set_queue (q1 ++ q2) t).
Proof.
  intros [S N L F Nw Rt Rp] Q. rewrite Q in *.
  assert (Sub : forall y, y ∈ q1 ++ q2 -> y ∈ q1 ++ x :: q2) by set_solver.
  split; simpl; try done; try (intros y Hy; solve [auto]).
  - clear -S. induction q1 as [|y q1 IH]; simpl in *; [by apply StronglySorted_inv in S as [S _]|].
    apply StronglySorted_inv in S as [S All]. constructor; [by apply IH|]. rewrite Forall_app in *.
    destruct All as [? All]. inversion All; subst. done.
  - rewrite <- Permutation_middle in N. by apply NoDup_cons in N as [_ N].
  - intros y Hy. apply (F y), Sub, Hy.
Qed.

(** Removing a pending entry takes it alone off the queue and returns the
    time it had left in whole microseconds, rounded up. *)
Theorem timer_remove_remaining stopped t x :
  timer_ok t -> on_time stopped t -> x ∈ queue t ->
  repeats_fit (set_now (now_at stopped t) t) -> tick t x - now_at stopped t + ticksperus t < 2 ^ 63 ->
  exists r t', timer_remove stopped t x = Some (r, t') /\ timer_ok t' /\ (x ∉ queue t') /\
    (r - 1) * ticksperus t < tick t x - now_at stopped t <= r * ticksperus t /\
    (forall y, y ∈ queue t -> y <> x -> now_at stopped t < tick t y -> y ∈ queue t' /\ tick t' y = tick t y).
Proof.
  intros Ok OnT Hx Fit Bd. destruct (stop_ok stopped t Ok OnT) as (Ok0 & N0 & E0 & Q0 & R0 & Rn0 & F0).
  unfold timer_remove. set (t0 := stop_if_running stopped t) in *. rewrite E0.
  destruct (tk_live _ Ok x Hx) as (e & Ex & Fx). rewrite Ex. cbn [mbind option_bind]. rewrite Fx, Q0.
  destruct (unlink_walk_ok x (queue t) Hx (tk_nodup _ Ok)) as (q1 & q2 & Q & U). rewrite U. cbn [mbind option_bind].
  pose proof (timer_ok_drop t0 q1 x q2 Ok0 ltac:(by rewrite Q0)) as Ok1. set (t1 := set_queue (q1 ++ q2) t0) in *.
  pose proof (tk_rate _ Ok) as Rt. pose proof (tk_future _ Ok x Hx) as Fu. destruct OnT as (_ & _ & Le).
  assert (Tx : absolutetick e = tick t x) by (unfold tick; by rewrite (tick_of_live _ _ _ Ex)).
  set (r := ROUND_UP _ _ / _).
  assert (Rr : (r - 1) * ticksperus t < tick t x - now_at stopped t <= r * ticksperus t).
  { unfold r. change (tickcurrent t1) with (tickcurrent t0). change (ticksperus t1) with (ticksperus t0).
    rewrite N0, R0, Tx. specialize (Le x Hx). rewrite (u64_id (tick t x - now_at stopped t)) by (unfold is_u64; pose proof (tk_now _ Ok0); lia).
    set (d := tick t x - now_at stopped t) in *. unfold ROUND_UP, ROUND_DOWN.
    rewrite (u64_id (d + ticksperus t - 1)) by (unfold is_u64; lia).
    set (n := ticksperus t) in *. set (v := d + n - 1).
    assert (V : v - v mod n = n * (v / n)) by (pose proof (Z.div_mod v n); lia).
    assert (0 <= v / n) by (apply Z.div_pos; lia).
    pose proof (Z.mod_pos_bound v n Rt). rewrite V, u64_id by (unfold is_u64; lia).
    rewrite (Z.mul_comm n), Z.div_mul by lia. nia. }
  assert (Nx : x ∉ q1 ++ q2).
  { pose proof (tk_nodup _ Ok) as ND. rewrite Q, <- Permutation_middle in ND. by apply NoDup_cons in ND as [ND _]. }
  assert (T1 : forall y, tick t1 y = tick t y) by (intros y; unfold tick; simpl; by rewrite E0).
  assert (Elem : forall y, y <> x -> y ∈ queue t1 <-> y ∈ queue t) by (intros y Hy; rewrite Q; simpl; set_solver).
  assert (Nx1 : x ∉ queue t1) by exact Nx. destruct (queue t1) as [|z q] eqn:Eq.
  - exists r, t1. split; [done|]. split; [done|]. split; [by rewrite Eq|]. split; [done|].
    intros y Hy Ne _. apply (Elem y Ne) in Hy. by apply not_elem_of_nil in Hy.
  - assert (Fit1 : repeats_fit t1) by (intros y ey; unfold fits; simpl; rewrite E0, N0, R0; apply Fit).
    destruct (check_and_arm t1 Ok1 Fit1) as (t' & H & Ok' & N' & A' & K' & _ & Sub).
    exists r, t'. split.
    { destruct (timercheck t1) as [t2|]; [|done]. cbn [mbind option_bind] in H |- *. by rewrite H. }
    split; [done|]. split; [|split; [done|]].
    + intros Q'. apply Nx1. rewrite <- Eq. by apply Sub.
    + intros y Hy Ne Ly. destruct (K' y) as [M E]; [rewrite T1; simpl; by rewrite N0|].
      split; [apply M; rewrite Eq; by apply Elem|]. unfold tick, tick_of. rewrite E. simpl. by rewrite E0.
Qed.

(** Removing an entry that already fired stops a running timer and leaves it
    unarmed, whatever else is pending. *)
Theorem timer_remove_fired_disarms stopped t x e :
  running t = true -> entries t !! x = Some e -> fired e = true ->
  exists t', timer_remove stopped t x = Some (0, t') /\ armed t' = None /\ running t' = true /\ queue t' = queue t.
Proof.
  intros Rn Ex Fx. unfold timer_remove, stop_if_running. rewrite Rn. simpl. rewrite Ex. simpl. rewrite Fx.
  by eexists.
Qed.

(** ** Examples *)

(** Ten ticks a microsecond, at tick 100: entries 1 (repeating every 3 us) and
    2 are due at 150, entry 3 at 900; entry 4 has fired. *)
Definition sample_timer : timer_t :=
  mk_timer 500 10 100 150 true [1; 2; 3]%nat
    (<[1%nat := mk_entry 150 3 false]> (<[2%nat := mk_entry 150 0 false]>
      (<[3%nat := mk_entry 900 0 false]> (<[4%nat := mk_entry 90 0 true]> ∅)))) (Some 50) [].

Lemma sample_entries (P : nat -> timerentry_t -> Prop) :
  P 1%nat (mk_entry 150 3 false) -> P 2%nat (mk_entry 150 0 false) ->
  P 3%nat (mk_entry 900 0 false) -> P 4%nat (mk_entry 90 0 true) ->
  forall x e, entries sample_timer !! x = Some e -> P x e.
Proof.
  intros P1 P2 P3 P4 x e E. simpl in E.
  repeat (apply lookup_insert_Some in E as [[<- <-]|[_ E]]; [done|]). by rewrite lookup_empty in E.
Qed.

Lemma sample_queue (P : nat -> Prop) :
  P 1%nat -> P 2%nat -> P 3%nat -> forall y, y ∈ queue sample_timer -> P y.
Proof. intros P1 P2 P3 y Hy. simpl in Hy. repeat (apply elem_of_cons in Hy as [->|Hy]; [done|]). by apply not_elem_of_nil in Hy. Qed.

Lemma sample_timer_ok : timer_ok sample_timer.
Proof.
  split; simpl.
  - repeat constructor; vm_compute; discriminate.
  - repeat (apply NoDup_cons; split; [set_solver|]). constructor.
  - apply (sample_queue (fun y => exists e, entries sample_timer !! y = Some e /\ fired e = false)); by eexists.
  - apply (sample_queue (fun y => 100 <= tick sample_timer y < 2 ^ 63)); split; vm_compute; congruence.
  - lia.
  - lia.
  - apply sample_entries; simpl; lia.
Qed.

Lemma sample_fit now : 0 <= now < 2 ^ 62 -> repeats_fit (set_now now sample_timer).
Proof.
  intros H x e E. apply (sample_entries (fun x e => fits (set_now now sample_timer) (repeatus e)) ) with x;
    [..|exact E]; unfold fits; simpl; lia.
Qed.

Lemma sample_on_time : on_time 20 sample_timer.
Proof.
  split; [lia|]. split; [vm_compute; reflexivity|].
  apply (sample_queue (fun y => now_at 20 sample_timer <= tick sample_timer y)); vm_compute; discriminate.
Qed.

Lemma timer_isr_fires_witness :
  exists out rest t', queue sample_timer = out ++ rest /\ timer_isr 60 sample_timer = Some t' /\ timer_ok t' /\
    tickcurrent t' = 150 /\ fired_out sample_timer t' out rest /\ (exists a, armed t' = Some a /\ armed_for t' a) /\
    (forall y, y ∈ rest -> 150 < tick sample_timer y) /\
    1%nat ∈ out /\ forall y, y ∈ out -> tick sample_timer y = 150.
Proof.
  apply (timer_isr_fires sample_timer 60 1%nat [2; 3]%nat sample_timer_ok eq_refl eq_refl);
    [simpl; lia|lia|apply sample_fit; simpl; lia].
Defined.

Lemma timer_insert_pending_witness :
  exists t', timer_insert 20 sample_timer 7%nat 4 true = Some t' /\ timer_ok t' /\
    tickcurrent t' = 120 /\ 7%nat ∈ queue t' /\ tick t' 7%nat = 160 /\
    (forall y, y ∈ queue sample_timer -> 120 < tick sample_timer y ->
       y ∈ queue t' /\ tick t' y = tick sample_timer y) /\
    (true = true -> exists a, armed t' = Some a /\ armed_for t' a).
Proof.
  apply (timer_insert_pending 20 sample_timer 7%nat 4 true sample_timer_ok sample_on_time);
    [simpl; set_solver|lia|vm_compute; reflexivity|apply sample_fit; vm_compute; split; congruence].
Defined.

Lemma timer_remove_remaining_witness :
  exists r t', timer_remove 20 sample_timer 3%nat = Some (r, t') /\ timer_ok t' /\ (3%nat ∉ queue t') /\
    (r - 1) * 10 < 780 <= r * 10 /\
    (forall y, y ∈ queue sample_timer -> y <> 3%nat -> 120 < tick sample_timer y ->
       y ∈ queue t' /\ tick t' y = tick sample_timer y).
Proof.
  apply (timer_remove_remaining 20 sample_timer 3%nat sample_timer_ok sample_on_time);
    [simpl; set_solver|apply sample_fit; vm_compute; split; congruence|vm_compute; reflexivity].
Defined.

Lemma timer_remove_fired_disarms_witness :
  exists t', timer_remove 20 sample_timer 4%nat = Some (0, t') /\ armed t' = None /\ running t' = true /\
    queue t' = [1; 2; 3]%nat.
Proof. exact (timer_remove_fired_disarms 20 sample_timer 4%nat _ eq_refl eq_refl eq_refl). Defined.
