(* ===== verification/Iovec.v ===== *)
(** * Scatter/gather vectors ([io/iovec.c], [include/kernel/iovec.h])

    An iterator walks the buffers of a vector; it is [current] (an index into
    the vector), the offset in that buffer and the offset in the whole.  [rest]
    is the list of addresses the iterator still has to visit, and each
    operation is related to it.  Loops go through the vector once, so its
    length (plus one) is enough fuel. *)

From S2P Require Import Prelude Errno Mem RingBuffer.

Record iovec_t := mk_iovec { addr : Z; len : Z }.

Record iovec_iterator_t := mk_iter {
  iovec : list iovec_t;
  current : nat;
  current_offset : Z;
  total_offset : Z;
  total_size : Z
}.

Definition iovec_iterator_finished (it : iovec_iterator_t) : bool := total_size it =? total_offset it.

Fixpoint iovec_user_check (v : list iovec_t) : bool :=
  match v with
  | [] => true
  | x :: v' => if Bool.eqb (IS_USER_ADDRESS (addr x)) false then false else iovec_user_check v'
  end.

Definition iovec_size (v : list iovec_t) : Z := fold_left (fun s x => u64 (s + len x)) v 0.

Definition iovec_iterator_init (v : list iovec_t) : iovec_iterator_t := mk_iter v 0 0 0 (iovec_size v).

(** [iovec_iterator->current->...]: the vector has no element past its end. *)
Definition cur (it : iovec_iterator_t) : option iovec_t := iovec it !! current it.

Fixpoint skip_loop (fuel : nat) (it : iovec_iterator_t) (skip_count : Z) : option iovec_iterator_t :=
  match fuel with
  | O => None
  | S fuel' =>
      c ← cur it;
      let remaining_current := u64 (len c - current_offset it) in
      let skip_current := cmin remaining_current skip_count in
      let skip_count := u64 (skip_count - skip_current) in
      let it := mk_iter (iovec it) (current it) (u64 (current_offset it + skip_current))
                  (u64 (total_offset it + skip_current)) (total_size it) in
      let it := if (current_offset it =? len c) && negb (iovec_iterator_finished it)
                then mk_iter (iovec it) (S (current it)) 0 (total_offset it) (total_size it) else it in
      if (skip_count =? 0) || iovec_iterator_finished it then Some it
      else skip_loop fuel' it skip_count
  end.

Definition iovec_iterator_skip (it : iovec_iterator_t) (skip_count : Z) : option (iovec_iterator_t * Z) :=
  it' ← skip_loop (S (length (iovec it))) it skip_count;
  Some (it', u64 (total_size it' - total_offset it')).

(** [current] is assigned to itself. *)
Definition iovec_iterator_set (it : iovec_iterator_t) (offset : Z) : option (iovec_iterator_t * Z) :=
  iovec_iterator_skip (mk_iter (iovec it) (current it) 0 0 (total_size it)) offset.

Definition iovec_iterator_total_offset (it : iovec_iterator_t) : Z := total_offset it.

(** The address and the length of the next piece of [n] bytes. *)
Definition piece (it : iovec_iterator_t) (remaining_total : Z) : option (Z * Z) :=
  c ← cur it;
  let remaining_current := u64 (len c - current_offset it) in
  Some (u64 (addr c + current_offset it), cmin remaining_current remaining_total).

(** The loop of [iovec_iterator_copy_to_buffer]; [acc] is what the buffer has
    got so far. *)
Fixpoint copy_to_loop (fuel : nat) (m : mem) (it : iovec_iterator_t) (remaining_total : Z) (acc : list Z)
    : option (iovec_iterator_t * list Z * Z) :=
  match fuel with
  | O => None
  | S fuel' =>
      '(a, copy_current) ← piece it remaining_total;
      '(bs, error) ← copy_from_mem a m a copy_current;
      if negb (error =? 0) then Some (it, acc ++ bs, error)
      else
        '(it, _) ← iovec_iterator_skip it copy_current;
        let remaining_total := u64 (remaining_total - copy_current) in
        if iovec_iterator_finished it || (remaining_total =? 0) then Some (it, acc ++ bs, 0)
        else copy_to_loop fuel' m it remaining_total (acc ++ bs)
  end.

Definition remaining_total (it : iovec_iterator_t) (byte_count : Z) : Z :=
  cmin byte_count (u64 (total_size it - total_offset it)).

(** The iterator, the bytes stored in the buffer and the error. *)
Definition iovec_iterator_copy_to_buffer (m : mem) (it : iovec_iterator_t) (byte_count : Z)
    : option (iovec_iterator_t * list Z * Z) :=
  let iterator_offset_save := total_offset it in
  '(it', bs, error) ←
    copy_to_loop (S (length (iovec it))) m it (remaining_total it byte_count) [];
  if negb (error =? 0)
  then '(it'', _) ← iovec_iterator_set it' iterator_offset_save; Some (it'', bs, error)
  else Some (it', bs, error).

(** The loops that store: [store] gives the result of writing the next [n]
    bytes at an address, from the buffer offset reached. *)
Fixpoint store_loop (fuel : nat) (store : mem -> Z -> Z -> Z -> option (mem * Z)) (m : mem)
    (it : iovec_iterator_t) (total_done remaining_total : Z) : option (mem * iovec_iterator_t * Z) :=
  match fuel with
  | O => None
  | S fuel' =>
      '(a, copy_current) ← piece it remaining_total;
      '(m', error) ← store m a total_done copy_current;
      if negb (error =? 0) then Some (m', it, error)
      else
        '(it, _) ← iovec_iterator_skip it copy_current;
        let total_done := u64 (total_done + copy_current) in
        let remaining_total := u64 (remaining_total - copy_current) in
        if iovec_iterator_finished it || (remaining_total =? 0) then Some (m', it, 0)
        else store_loop fuel' store m' it total_done remaining_total
  end.

Definition store_call (store : mem -> Z -> Z -> Z -> option (mem * Z)) (m : mem) (it : iovec_iterator_t)
    (byte_count : Z) : option (mem * iovec_iterator_t * Z) :=
  '(m', it', error) ←
    store_loop (S (length (iovec it))) store m it 0 (remaining_total it byte_count);
  if negb (error =? 0)
  then '(it'', _) ← iovec_iterator_set it' (total_offset it); Some (m', it'', error)
  else Some (m', it', error).

(** The macro is [USERCOPY_POSSIBLY_FROM_USER], so the address tested is the
    kernel buffer's. *)
Definition iovec_iterator_copy_from_buffer (m : mem) (it : iovec_iterator_t) (buffer : Z) (data : list Z)
    (byte_count : Z) : option (mem * iovec_iterator_t * Z) :=
  store_call (fun m a off n =>
    bs ← kload data off n; copy_to_mem (u64 (buffer + off)) m a bs) m it byte_count.

Definition iovec_iterator_memset (m : mem) (it : iovec_iterator_t) (byte byte_count : Z)
    : option (mem * iovec_iterator_t * Z) :=
  store_call (fun m a _ n => copy_to_mem a m a (replicate (Z.to_nat n) byte)) m it byte_count.

Fixpoint write_ring_loop (fuel : nat) (m : mem) (it : iovec_iterator_t) (rb : ringbuffer_t)
    (byte_count total_done remaining_total : Z) : option (iovec_iterator_t * ringbuffer_t * Z * Z) :=
  match fuel with
  | O => None
  | S fuel' =>
      '(a, copy_current) ← piece it remaining_total;
      '(rb, current_done) ← ringbuffer_write m rb a copy_current;
      if current_done =? RINGBUFFER_USER_COPY_FAILED
      then Some (it, (ringbuffer_remove rb total_done).1, total_done, current_done)
      else if current_done =? 0 then Some (it, rb, total_done, current_done)
      else
        '(it, _) ← iovec_iterator_skip it copy_current;
        let remaining_total := u64 (remaining_total - current_done) in
        let total_done := u64 (total_done + current_done) in
        if (total_done =? byte_count) || iovec_iterator_finished it
        then Some (it, rb, total_done, current_done)
        else write_ring_loop fuel' m it rb byte_count total_done remaining_total
  end.

(** Each round that goes on moves a byte or ends a buffer. *)
Definition iovec_iterator_write_to_ringbuffer (m : mem) (it : iovec_iterator_t) (rb : ringbuffer_t)
    (byte_count : Z) : option (iovec_iterator_t * ringbuffer_t * Z) :=
  '(it', rb', total_done, current_done) ←
    write_ring_loop (S (length (iovec it))) m it rb byte_count 0 (remaining_total it byte_count);
  if current_done =? RINGBUFFER_USER_COPY_FAILED
  then '(it'', _) ← iovec_iterator_set it' (total_offset it);
       Some (it'', rb', RINGBUFFER_USER_COPY_FAILED)
  else Some (it', rb', total_done).

Fixpoint peek_ring_loop (fuel : nat) (m : mem) (it : iovec_iterator_t) (rb : ringbuffer_t)
    (offset byte_count total_done remaining_total : Z) : option (mem * iovec_iterator_t * Z * Z) :=
  match fuel with
  | O => None
  | S fuel' =>
      '(a, copy_current) ← piece it remaining_total;
      '(m, current_done) ← ringbuffer_peek m rb a (u64 (offset + total_done)) copy_current;
      if (current_done =? 0) || (current_done =? RINGBUFFER_USER_COPY_FAILED)
      then Some (m, it, total_done, current_done)
      else
        '(it, _) ← iovec_iterator_skip it copy_current;
        let total_done := u64 (total_done + current_done) in
        let remaining_total := u64 (remaining_total - current_done) in
        if (total_done =? byte_count) || iovec_iterator_finished it
        then Some (m, it, total_done, current_done)
        else peek_ring_loop fuel' m it rb offset byte_count total_done remaining_total
  end.

Definition iovec_iterator_peek_from_ringbuffer (m : mem) (it : iovec_iterator_t) (rb : ringbuffer_t)
    (offset byte_count : Z) : option (mem * iovec_iterator_t * Z) :=
  '(m', it', total_done, current_done) ←
    peek_ring_loop (S (length (iovec it))) m it rb offset byte_count 0 (remaining_total it byte_count);
  if current_done =? RINGBUFFER_USER_COPY_FAILED
  then '(it'', _) ← iovec_iterator_set it' (total_offset it);
       Some (m', it'', RINGBUFFER_USER_COPY_FAILED)
  else Some (m', it', total_done).

Definition iovec_iterator_read_from_ringbuffer (m : mem) (it : iovec_iterator_t) (rb : ringbuffer_t)
    (byte_count : Z) : option (mem * iovec_iterator_t * ringbuffer_t * Z) :=
  '(m', it', done) ← iovec_iterator_peek_from_ringbuffer m it rb 0 byte_count;
  if done =? RINGBUFFER_USER_COPY_FAILED then Some (m', it', rb, done)
  else Some (m', it', (ringbuffer_truncate rb done).1, done).

(** [vmm_getphysical] is an argument: the physical page of a mapped page
    address.  The result is the error, or the page (with its offset and number
    of bytes), or no page. *)
Definition iovec_iterator_next_page (getphysical : Z -> option Z) (it : iovec_iterator_t)
    : option (Z * option (Z * Z * Z) * iovec_iterator_t) :=
  c ← cur it;
  let a := u64 (addr c + current_offset it) in
  let offset_in_page := a mod PAGE_SIZE in
  let remaining := u64 (len c - current_offset it) in
  if remaining =? 0 then Some (0, None, it)
  else
    match getphysical (u64 (a - offset_in_page)) with
    | None => Some (EFAULT, None, it)
    | Some phys =>
        let page_remaining := cmin PAGE_SIZE remaining in
        '(it', _) ← iovec_iterator_skip it page_remaining;
        Some (0, Some (phys, offset_in_page, page_remaining), it')
    end.

(** ** What an iterator has left *)

Definition iovec_addrs (x : iovec_t) : list Z := seqZ (addr x) (len x).
Definition flat (v : list iovec_t) : list Z := v ≫= iovec_addrs.

(** The addresses still to visit, in order. *)
Definition rest (it : iovec_iterator_t) : list Z :=
  match cur it with
  | None => []
  | Some c => drop (Z.to_nat (current_offset it)) (iovec_addrs c) ++ flat (drop (S (current it)) (iovec it))
  end.

Record iter_wf (it : iovec_iterator_t) : Prop := {
  it_cur : (current it < length (iovec it))%nat;
  it_vec : forall x, x ∈ iovec it -> 0 <= addr x /\ 0 <= len x /\ addr x + len x < 2 ^ 64;
  it_off : forall c, cur it = Some c -> 0 <= current_offset it <= len c;
  it_pos : 0 <= total_offset it <= total_size it;
  it_before : current_offset it <= total_offset it;
  it_size : total_size it < 2 ^ 63;
  it_rest : Z.of_nat (length (rest it)) = total_size it - total_offset it
}.

Lemma length_iovec_addrs x : 0 <= len x -> length (iovec_addrs x) = Z.to_nat (len x).
Proof. intros H. unfold iovec_addrs. by rewrite length_seqZ. Qed.

Lemma cmin_z x y : 0 <= x < 2 ^ 63 -> 0 <= y < 2 ^ 63 -> cmin x y = Z.min x y.
Proof. intros Hx Hy. rewrite cmin_small by done. done. Qed.

Lemma u64_z x : 0 <= x < 2 ^ 64 -> u64 x = x.
Proof. intros H. by apply u64_id. Qed.

(** What is left splits into this buffer's part and the others'. *)
Lemma rest_cur it c :
  iter_wf it -> cur it = Some c ->
  rest it = drop (Z.to_nat (current_offset it)) (iovec_addrs c) ++ flat (drop (S (current it)) (iovec it)) /\
  length (drop (Z.to_nat (current_offset it)) (iovec_addrs c)) = Z.to_nat (len c - current_offset it) /\
  0 <= len c - current_offset it <= total_size it - total_offset it /\
  0 <= addr c /\ addr c + len c < 2 ^ 64.
Proof.
  intros W C. destruct (W) as [_ V O P Bf S R]. specialize (O c C).
  destruct (V c) as (A & L & B); [by eapply list_elem_of_lookup_2|].
  assert (E : rest it = drop (Z.to_nat (current_offset it)) (iovec_addrs c) ++ flat (drop (Datatypes.S (current it)) (iovec it)))
    by (unfold rest; by rewrite C).
  assert (Ln : length (drop (Z.to_nat (current_offset it)) (iovec_addrs c)) = Z.to_nat (len c - current_offset it))
    by (rewrite length_drop, length_iovec_addrs by done; lia).
  split; [done|]. split; [done|]. split; [|lia]. rewrite E, length_app, Ln in R. lia.
Qed.

Definition advance (it : iovec_iterator_t) (n : Z) : iovec_iterator_t :=
  mk_iter (iovec it) (current it) (current_offset it + n) (total_offset it + n) (total_size it).

Lemma advance_wf it c n :
  iter_wf it -> cur it = Some c -> 0 <= n <= len c - current_offset it ->
  iter_wf (advance it n) /\ rest (advance it n) = drop (Z.to_nat n) (rest it).
Proof.
  intros W C H. destruct (rest_cur it c W C) as (E & Ln & Bd & _). destruct (W) as [Cu V O P Bf S R].
  specialize (O c C).
  assert (Er : rest (advance it n) = drop (Z.to_nat n) (rest it)).
  { unfold rest at 1. change (cur (advance it n)) with (cur it). rewrite C. simpl. rewrite E.
    rewrite drop_app_le by lia. rewrite drop_drop. do 2 f_equal. lia. }
  split; [|done]. split; simpl; try done; try lia.
  - change (cur (advance it n)) with (cur it). intros c' C'. rewrite C in C'. injection C' as <-. lia.
  - rewrite Er, length_drop. lia.
Qed.

Definition next_buffer (it : iovec_iterator_t) : iovec_iterator_t :=
  mk_iter (iovec it) (S (current it)) 0 (total_offset it) (total_size it).

(** At the end of a buffer that is not the end of the vector there is another
    buffer, and moving to it changes nothing of what is left. *)
Lemma next_buffer_wf it c :
  iter_wf it -> cur it = Some c -> current_offset it = len c -> total_offset it <> total_size it ->
  iter_wf (next_buffer it) /\ rest (next_buffer it) = rest it.
Proof.
  intros W C E Nf. destruct (rest_cur it c W C) as (Er & Ln & Bd & _). destruct (W) as [Cu V O P Bf S R].
  rewrite E, Z.sub_diag in Ln. apply length_zero_iff_nil in Ln. rewrite E, Ln in Er. simpl in Er.
  assert (Lt : (Datatypes.S (current it) < length (iovec it))%nat).
  { destruct (decide (Datatypes.S (current it) < length (iovec it))%nat); [done|].
    rewrite Er, drop_ge in R by lia. simpl in R. lia. }
  destruct (lookup_lt_is_Some_2 _ _ Lt) as [c' C'].
  assert (En : rest (next_buffer it) = rest it).
  { unfold rest at 1, cur. simpl. rewrite C'. rewrite Er, (drop_S _ c' _ C'). done. }
  split; [|done]. split; simpl; try done; try lia.
  - intros c2. unfold cur. simpl. rewrite C'. intros [= <-]. destruct (V c') as (_ & ? & _); [|lia].
    by eapply list_elem_of_lookup_2.
  - rewrite En. lia.
Qed.

Lemma cur_exists it : iter_wf it -> exists c, cur it = Some c.
Proof. intros W. apply lookup_lt_is_Some_2, W. Qed.

(** One round of the skip loop, in unbounded arithmetic. *)
Definition skip_round (it : iovec_iterator_t) (c : iovec_t) (sc : Z) : iovec_iterator_t :=
  if (current_offset (advance it sc) =? len c) && negb (iovec_iterator_finished (advance it sc))
  then next_buffer (advance it sc) else advance it sc.

Lemma skip_loop_S fuel it n c sc :
  iter_wf it -> cur it = Some c -> 0 <= n < 2 ^ 63 -> sc = Z.min (len c - current_offset it) n ->
  skip_loop (S fuel) it n
  = if (n - sc =? 0) || iovec_iterator_finished (skip_round it c sc) then Some (skip_round it c sc)
    else skip_loop fuel (skip_round it c sc) (n - sc).
Proof.
  intros W C Hn ->. destruct (rest_cur it c W C) as (_ & _ & Bd & A & B).
  pose proof (it_pos _ W) as P. pose proof (it_size _ W) as Sz. pose proof (it_off _ W c C) as O.
  cbn [skip_loop]. rewrite C. cbn [mbind option_bind]. rewrite (u64_z (len c - current_offset it)) by lia.
  rewrite cmin_z by lia. set (sc := Z.min (len c - current_offset it) n).
  rewrite (u64_z (n - sc)), (u64_z (current_offset it + sc)), (u64_z (total_offset it + sc)) by lia.
  reflexivity.
Qed.

Lemma skip_round_ok it c sc :
  iter_wf it -> cur it = Some c -> 0 <= sc <= len c - current_offset it ->
  iter_wf (skip_round it c sc) /\ rest (skip_round it c sc) = drop (Z.to_nat sc) (rest it) /\
  iovec (skip_round it c sc) = iovec it /\ total_size (skip_round it c sc) = total_size it /\
  total_offset (skip_round it c sc) = total_offset it + sc /\ (current it <= current (skip_round it c sc))%nat /\
  (current_offset it + sc = len c -> total_offset it + sc <> total_size it ->
     current (skip_round it c sc) = S (current it)).
Proof.
  intros W C Hs. destruct (advance_wf it c sc W C Hs) as [W1 R1]. unfold skip_round, iovec_iterator_finished.
  destruct ((current_offset (advance it sc) =? len c) && negb _) eqn:Cd; simpl in Cd.
  - destruct (next_buffer_wf (advance it sc) c W1 C) as [W2 R2]; [simpl; lia|simpl; lia|].
    split; [exact W2|]. split; [exact (eq_trans R2 R1)|]. split_and!; try done. simpl. lia.
  - split; [exact W1|]. split; [exact R1|]. split_and!; try done. intros. lia.
Qed.

(** Skipping drops that many addresses from what is left. *)
Lemma skip_loop_ok fuel : forall it n,
  iter_wf it -> 0 <= n < 2 ^ 63 -> (length (iovec it) - current it < fuel)%nat ->
  exists it', skip_loop fuel it n = Some it' /\ iter_wf it' /\ rest it' = drop (Z.to_nat n) (rest it) /\
    iovec it' = iovec it /\ total_size it' = total_size it /\ (current it <= current it')%nat /\
    (forall c, cur it = Some c -> n = len c - current_offset it -> total_offset it' <> total_size it' ->
       (current it < current it')%nat).
Proof.
  induction fuel as [|fuel IH]; intros it n W Hn Hf; [lia|].
  destruct (cur_exists it W) as [c C]. destruct (rest_cur it c W C) as (Er & Ln & Bd & _).
  pose proof (it_off _ W c C) as O. pose proof (it_rest _ W) as Lr.
  set (sc := Z.min (len c - current_offset it) n). rewrite (skip_loop_S fuel it n c sc W C Hn eq_refl).
  destruct (skip_round_ok it c sc W C ltac:(lia)) as (W2 & R2 & V2 & S2 & T2 & Cu2 & Nx2).
  set (it2 := skip_round it c sc) in *. unfold iovec_iterator_finished.
  rewrite S2, T2. destruct ((n - sc =? 0) || (total_size it =? total_offset it + sc)) eqn:Stop.
  - exists it2. split; [done|]. split; [done|]. split.
    { rewrite R2. destruct (decide (sc = n)) as [->|]; [done|]. rewrite !drop_ge; [done| |].
      all: lia. }
    split; [done|]. split; [done|]. split; [done|]. intros c' C' En Nf. rewrite C in C'. injection C' as <-.
    rewrite Nx2; lia.
  - assert (sc = len c - current_offset it) by lia.
    destruct (IH it2 (n - sc) W2) as (it' & H' & W' & R' & V' & S' & Cu' & _); [lia| |].
    { rewrite V2, Nx2 by lia. pose proof (it_cur _ W). lia. }
    exists it'. split; [done|]. split; [done|]. split; [rewrite R', R2, drop_drop; f_equal; lia|].
    split; [congruence|]. split; [congruence|]. split; [lia|]. intros c' C' En. rewrite C in C'. injection C' as <-. lia.
Qed.

Lemma skip_ok it n :
  iter_wf it -> 0 <= n < 2 ^ 63 ->
  exists it', iovec_iterator_skip it n = Some (it', Z.of_nat (length (rest it'))) /\ iter_wf it' /\
    rest it' = drop (Z.to_nat n) (rest it) /\
    iovec it' = iovec it /\ total_size it' = total_size it /\ (current it <= current it')%nat /\
    (forall c, cur it = Some c -> n = len c - current_offset it -> total_offset it' <> total_size it' ->
       (current it < current it')%nat).
Proof.
  intros W Hn. destruct (skip_loop_ok (S (length (iovec it))) it n W Hn ltac:(lia)) as (it' & H & W' & R).
  exists it'. unfold iovec_iterator_skip. rewrite H. cbn [mbind option_bind]. split; [|done].
  pose proof (it_rest _ W'). pose proof (it_pos _ W'). pose proof (it_size _ W'). rewrite u64_z; [|lia].
  do 2 f_equal. lia.
Qed.

(** ** Gathering *)

Lemma piece_ok it r :
  iter_wf it -> 0 <= r < 2 ^ 63 ->
  exists c a n, cur it = Some c /\ piece it r = Some (a, n) /\ n = Z.min (len c - current_offset it) r /\
    0 <= n /\ seqZ a n = take (Z.to_nat n) (rest it).
Proof.
  intros W Hr. destruct (cur_exists it W) as [c C]. destruct (rest_cur it c W C) as (Er & Ln & Bd & A & B).
  pose proof (it_off _ W c C) as O. pose proof (it_pos _ W). pose proof (it_size _ W).
  exists c, (addr c + current_offset it), (Z.min (len c - current_offset it) r). split; [done|]. split.
  - unfold piece. rewrite C. cbn [mbind option_bind]. rewrite (u64_z (len c - current_offset it)) by lia.
    rewrite cmin_z by lia. by rewrite u64_z by lia.
  - split; [done|]. split; [lia|]. rewrite Er, take_app_le by lia. unfold iovec_addrs.
    apply list_eq. intros i. set (n := Z.min _ r).
    destruct (decide (Z.of_nat i < n)) as [Lt|Ge].
    + rewrite lookup_take_lt, lookup_drop by lia. rewrite !lookup_seqZ_lt by lia. f_equal. lia.
    + rewrite lookup_take_ge by lia. by rewrite lookup_seqZ_ge by lia.
Qed.

(** The bytes at a list of addresses. *)
Definition bytes_at (m : mem) (l : list Z) : option (list Z) := mapM (fun a => m !! a) l.

Lemma seqZ_S a n : seqZ a (Z.of_nat (S n)) = a :: seqZ (a + 1) (Z.of_nat n).
Proof. rewrite seqZ_cons by lia. f_equal. f_equal; lia. Qed.

Lemma memcpy_load_bytes m n : forall a bs,
  bytes_at m (seqZ a (Z.of_nat n)) = Some bs -> memcpy_load m a n = (bs, true).
Proof.
  unfold bytes_at. induction n as [|n IH]; intros a bs H; [by injection H as <-|].
  rewrite seqZ_S in H. simpl in H. destruct (m !! a) as [b|] eqn:E; [|done]. simpl in H.
  destruct (mapM _ (seqZ (a + 1) (Z.of_nat n))) as [bs'|] eqn:E'; [|done]. simpl in H. injection H as <-.
  simpl. by rewrite E, (IH _ _ E').
Qed.

Lemma bytes_at_app m l1 l2 bs :
  bytes_at m (l1 ++ l2) = Some bs ->
  exists bs1 bs2, bytes_at m l1 = Some bs1 /\ bytes_at m l2 = Some bs2 /\ bs = bs1 ++ bs2.
Proof.
  unfold bytes_at. revert bs. induction l1 as [|a l1 IH]; intros bs H; simpl in *; [by exists [], bs|].
  destruct (m !! a) as [b|]; [|done]. simpl in *. destruct (mapM _ (l1 ++ l2)) as [bs'|]; [|done].
  simpl in H. injection H as <-. destruct (IH bs' eq_refl) as (bs1 & bs2 & -> & E2 & ->).
  by exists (b :: bs1), bs2.
Qed.

Lemma take_split {A} (l : list A) n r :
  (n <= r)%nat -> take r l = take n l ++ take (r - n) (drop n l).
Proof. intros H. rewrite take_take_drop. f_equal. lia. Qed.

(** A round either finishes or moves to a later buffer. *)
Lemma round_progress it it' c n r :
  iter_wf it -> cur it = Some c -> n = Z.min (len c - current_offset it) r ->
  iter_wf it' -> (total_offset it' <> total_size it' -> n = len c - current_offset it -> (current it < current it')%nat) ->
  iovec_iterator_finished it' || (r - n =? 0) = false -> (current it < current it')%nat.
Proof.
  intros W C En W' Pg Stop. unfold iovec_iterator_finished in Stop. apply Pg; lia.
Qed.

Lemma copy_to_loop_ok m fuel : forall it r acc bs,
  iter_wf it -> 0 <= r <= Z.of_nat (length (rest it)) -> (length (iovec it) - current it < fuel)%nat ->
  bytes_at m (take (Z.to_nat r) (rest it)) = Some bs ->
  exists it', copy_to_loop fuel m it r acc = Some (it', acc ++ bs, 0) /\ iter_wf it' /\
    rest it' = drop (Z.to_nat r) (rest it).
Proof.
  induction fuel as [|fuel IH]; intros it r acc bs W Hr Hf Hb; [lia|].
  pose proof (it_rest _ W) as Lr. pose proof (it_pos _ W). pose proof (it_size _ W). pose proof (it_cur _ W).
  destruct (piece_ok it r W ltac:(lia)) as (c & a & n & C & Pc & En & Hn & Sq). pose proof (it_off _ W c C) as O.
  cbn [copy_to_loop]. rewrite Pc. cbn [mbind option_bind].
  rewrite (take_split _ (Z.to_nat n) (Z.to_nat r)) in Hb by lia.
  apply bytes_at_app in Hb as (bs1 & bs2 & B1 & B2 & ->). rewrite <- Sq in B1.
  unfold copy_from_mem. rewrite <- (Z2Nat.id n) in B1 by lia. rewrite (memcpy_load_bytes _ _ _ _ B1).
  unfold copy_status. cbn [mbind option_bind]. rewrite Z.eqb_refl. cbn [negb].
  destruct (skip_ok it n W ltac:(lia)) as (it1 & S1 & W1 & R1 & V1 & T1 & Cu1 & Pg1).
  rewrite S1. cbn [mbind option_bind]. rewrite (u64_z (r - n)) by lia.
  destruct (iovec_iterator_finished it1 || (r - n =? 0)) eqn:Stop.
  - exists it1. assert (bs2 = []) as ->.
    { pose proof (it_rest _ W1) as L1. unfold iovec_iterator_finished in Stop.
      assert (take (Z.to_nat r - Z.to_nat n) (drop (Z.to_nat n) (rest it)) = []) as E0.
      { destruct (decide (r - n = 0)); [replace (Z.to_nat r - Z.to_nat n)%nat with 0%nat by lia; done|].
        rewrite <- R1. assert (length (rest it1) = 0%nat) as Z0 by lia. apply length_zero_iff_nil in Z0.
        rewrite Z0. apply take_nil. }
      rewrite E0 in B2. by injection B2 as <-. }
    rewrite app_nil_r. split; [done|]. split; [done|]. rewrite R1.
    destruct (decide (r = n)) as [->|]; [done|].
    pose proof (it_rest _ W1) as L1. unfold iovec_iterator_finished in Stop. rewrite R1, length_drop in L1.
    rewrite !drop_ge; [done|lia|lia].
  - destruct (IH it1 (r - n) (acc ++ bs1) bs2 W1) as (it' & H' & W' & R').
    + rewrite R1, length_drop. lia.
    + assert (current it < current it1)%nat; [|rewrite V1; lia].
      apply (round_progress it it1 c n r W C En W1); [intros Nf Q; by apply (Pg1 c C)|done].
    + rewrite R1. by replace (Z.to_nat (r - n)) with (Z.to_nat r - Z.to_nat n)%nat by lia.
    + exists it'. rewrite H', <- app_assoc. split; [done|]. split; [done|].
      rewrite R', R1, drop_drop. f_equal. lia.
Qed.

Lemma remaining_total_ok it count :
  iter_wf it -> 0 <= count < 2 ^ 63 ->
  remaining_total it count = Z.min count (Z.of_nat (length (rest it))).
Proof.
  intros W Hc. pose proof (it_rest _ W) as Lr. pose proof (it_pos _ W). pose proof (it_size _ W).
  unfold remaining_total. rewrite u64_z by lia. rewrite cmin_z by lia. lia.
Qed.

(** ** Properties *)

(** Copying from a vector gathers the bytes at the addresses it has left, in
    order, up to the count asked for, and leaves the iterator behind them. *)
Lemma iovec_gather m it count bs :
  iter_wf it -> 0 <= count < 2 ^ 63 ->
  bytes_at m (take (Z.to_nat count) (rest it)) = Some bs ->
  exists it', iovec_iterator_copy_to_buffer m it count = Some (it', bs, 0) /\ iter_wf it' /\
    rest it' = drop (Z.to_nat count) (rest it).
Proof.
  intros W Hc Hb. unfold iovec_iterator_copy_to_buffer. rewrite (remaining_total_ok it count W Hc).
  set (r := Z.min count (Z.of_nat (length (rest it)))).
  assert (Et : take (Z.to_nat count) (rest it) = take (Z.to_nat r) (rest it)).
  { destruct (decide (count <= Z.of_nat (length (rest it)))); [f_equal; lia|]. rewrite !take_ge by lia. done. }
  assert (Ed : drop (Z.to_nat count) (rest it) = drop (Z.to_nat r) (rest it)).
  { destruct (decide (count <= Z.of_nat (length (rest it)))); [f_equal; lia|]. rewrite !drop_ge by lia. done. }
  rewrite Et in Hb. destruct (copy_to_loop_ok m (S (length (iovec it))) it r [] bs W) as (it' & H & W' & R');
    [lia|lia|done|]. rewrite H. exists it'. by rewrite Ed.
Qed.

(** ** Scattering *)

Fixpoint store_at (m : mem) (l bs : list Z) : mem :=
  match l, bs with
  | a :: l', b :: bs' => store_at (<[a := b]> m) l' bs'
  | _, _ => m
  end.

Definition mapped_at (m : mem) (l : list Z) : Prop := forall a, a ∈ l -> is_Some (m !! a).

Lemma mapped_at_store m l bs l' : mapped_at m l' -> mapped_at (store_at m l bs) l'.
Proof.
  revert m bs. induction l as [|a l IH]; intros m [|b bs] H; simpl; try done. apply IH.
  intros x Hx. destruct (decide (x = a)) as [->|]; [rewrite lookup_insert_eq; eauto|].
  rewrite lookup_insert_ne by done. auto.
Qed.

Lemma store_at_app m l1 l2 bs1 bs2 :
  length l1 = length bs1 -> store_at m (l1 ++ l2) (bs1 ++ bs2) = store_at (store_at m l1 bs1) l2 bs2.
Proof. revert m bs1. induction l1 as [|a l1 IH]; intros m [|b bs1] H; simplify_eq/=; auto. Qed.

Lemma memcpy_store_at bs : forall m a,
  mapped_at m (seqZ a (Z.of_nat (length bs))) ->
  memcpy_store m a bs = (store_at m (seqZ a (Z.of_nat (length bs))) bs, true).
Proof.
  induction bs as [|b bs IH]; intros m a H; [done|]. cbn [length] in *. rewrite seqZ_S in *. simpl.
  destruct (H a) as [x ->]; [apply list_elem_of_here|]. apply IH.
  intros y Hy. destruct (decide (y = a)) as [->|]; [rewrite lookup_insert_eq; eauto|].
  rewrite lookup_insert_ne by done. apply H. by apply elem_of_cons; right.
Qed.

Lemma slice_app {A} (l : list A) off n k : slice l off (n + k) = slice l off n ++ slice l (off + n) k.
Proof. unfold slice. rewrite <- drop_drop. by rewrite (take_split _ n (n + k)), Nat.add_comm, Nat.add_sub by lia. Qed.

Section store.
Context (store : mem -> Z -> Z -> Z -> option (mem * Z)) (data : list Z).
(** The bytes at an offset of the data, stored at mapped addresses. *)
Hypothesis store_spec : forall m a off n,
  0 <= off -> 0 <= n -> off + n <= Z.of_nat (length data) -> mapped_at m (seqZ a n) ->
  store m a off n = Some (store_at m (seqZ a n) (slice data (Z.to_nat off) (Z.to_nat n)), 0).

Lemma store_loop_ok fuel : forall m it off r,
  iter_wf it -> 0 <= off -> 0 <= r <= Z.of_nat (length (rest it)) -> off + r <= Z.of_nat (length data) ->
  off + r < 2 ^ 63 ->
  (length (iovec it) - current it < fuel)%nat -> mapped_at m (take (Z.to_nat r) (rest it)) ->
  exists it', store_loop fuel store m it off r
      = Some (store_at m (take (Z.to_nat r) (rest it)) (slice data (Z.to_nat off) (Z.to_nat r)), it', 0) /\
    iter_wf it' /\ rest it' = drop (Z.to_nat r) (rest it).
Proof.
  induction fuel as [|fuel IH]; intros m it off r W Ho Hr Hd Hs Hf Hm; [lia|].
  pose proof (it_rest _ W) as Lr. pose proof (it_pos _ W). pose proof (it_size _ W). pose proof (it_cur _ W).
  destruct (piece_ok it r W ltac:(lia)) as (c & a & n & C & Pc & En & Hn & Sq). pose proof (it_off _ W c C) as O.
  cbn [store_loop]. rewrite Pc. cbn [mbind option_bind].
  pose proof (take_split (rest it) (Z.to_nat n) (Z.to_nat r) ltac:(lia)) as Tk. rewrite Tk in Hm |- *.
  assert (Hm1 : mapped_at m (seqZ a n)) by (intros x Hx; apply Hm, elem_of_app; left; by rewrite <- Sq).
  rewrite (store_spec m a off n) by (done || lia). cbn [mbind option_bind]. rewrite Z.eqb_refl. cbn [negb].
  destruct (skip_ok it n W ltac:(lia)) as (it1 & S1 & W1 & R1 & V1 & T1 & Cu1 & Pg1).
  rewrite S1. cbn [mbind option_bind]. rewrite (u64_z (r - n)), (u64_z (off + n)) by lia. rewrite Sq.
  assert (Sl : slice data (Z.to_nat off) (Z.to_nat r)
    = slice data (Z.to_nat off) (Z.to_nat n) ++ slice data (Z.to_nat (off + n)) (Z.to_nat (r - n))).
  { replace (Z.to_nat r) with (Z.to_nat n + Z.to_nat (r - n))%nat by lia. rewrite slice_app. do 3 f_equal. lia. }
  rewrite Sl, store_at_app by (rewrite length_slice by lia; rewrite length_take; lia).
  replace (Z.to_nat r - Z.to_nat n)%nat with (Z.to_nat (r - n)) in Hm |- * by lia.
  destruct (iovec_iterator_finished it1 || (r - n =? 0)) eqn:Stop.
  - exists it1. pose proof (it_rest _ W1) as L1. unfold iovec_iterator_finished in Stop.
    assert (r = n) as -> by (rewrite R1, length_drop in L1; lia). rewrite Z.sub_diag. split; [|by rewrite R1].
    by rewrite take_0.
  - destruct (IH (store_at m (take (Z.to_nat n) (rest it)) (slice data (Z.to_nat off) (Z.to_nat n))) it1
      (off + n) (r - n) W1) as (it' & H' & W' & R'); try lia.
    + rewrite R1, length_drop. lia.
    + assert (current it < current it1)%nat; [|rewrite V1; lia].
      apply (round_progress it it1 c n r W C En W1); [intros Nf Q; by apply (Pg1 c C)|done].
    + apply mapped_at_store. rewrite R1. intros x Hx. apply Hm, elem_of_app. by right.
    + exists it'. rewrite H', R1. split; [done|]. split; [done|]. rewrite R', R1, drop_drop. f_equal. lia.
Qed.

Lemma store_call_ok m it count :
  iter_wf it -> 0 <= count < 2 ^ 63 -> Z.min count (Z.of_nat (length (rest it))) <= Z.of_nat (length data) ->
  mapped_at m (take (Z.to_nat count) (rest it)) ->
  exists it', store_call store m it count
      = Some (store_at m (take (Z.to_nat count) (rest it)) (take (length (take (Z.to_nat count) (rest it))) data), it', 0) /\
    iter_wf it' /\ rest it' = drop (Z.to_nat count) (rest it).
Proof.
  intros W Hc Hd Hm. unfold store_call. rewrite (remaining_total_ok it count W Hc).
  set (r := Z.min count (Z.of_nat (length (rest it)))) in *.
  assert (Et : take (Z.to_nat count) (rest it) = take (Z.to_nat r) (rest it)).
  { destruct (decide (count <= Z.of_nat (length (rest it)))); [f_equal; lia|]. rewrite !take_ge by lia. done. }
  assert (Ed : drop (Z.to_nat count) (rest it) = drop (Z.to_nat r) (rest it)).
  { destruct (decide (count <= Z.of_nat (length (rest it)))); [f_equal; lia|]. rewrite !drop_ge by lia. done. }
  rewrite Et in Hm |- *. rewrite Ed.
  destruct (store_loop_ok (S (length (iovec it))) m it 0 r W) as (it' & H & W' & R'); try lia; [done|].
  rewrite H. exists it'. split; [|done]. cbn [mbind option_bind negb]. rewrite Z.eqb_refl. cbn [negb].
  unfold slice. rewrite drop_0, length_take. do 5 f_equal. lia.
Qed.
End store.

(** Copying into a vector scatters the buffer's bytes over the addresses it
    has left, in order, and changes nothing else. *)
Theorem iovec_scatter m it buffer data count :
  iter_wf it -> 0 <= count < 2 ^ 63 -> count <= Z.of_nat (length data) ->
  mapped_at m (take (Z.to_nat count) (rest it)) ->
  exists it', iovec_iterator_copy_from_buffer m it buffer data count
      = Some (store_at m (take (Z.to_nat count) (rest it)) (take (length (take (Z.to_nat count) (rest it))) data), it', 0) /\
    iter_wf it' /\ rest it' = drop (Z.to_nat count) (rest it).
Proof.
  intros W Hc Hd Hm. apply store_call_ok; [|done|done|lia|done].
  intros m0 a off n Ho Hn Hb Hm0. rewrite kload_ok by done. cbn [mbind option_bind]. unfold copy_to_mem.
  assert (L : Z.of_nat (length (slice data (Z.to_nat off) (Z.to_nat n))) = n) by (rewrite length_slice; lia).
  rewrite <- L in Hm0. rewrite memcpy_store_at by done. simpl. by rewrite L.
Qed.

Lemma memset_ok m it byte count :
  iter_wf it -> 0 <= count < 2 ^ 63 -> mapped_at m (take (Z.to_nat count) (rest it)) ->
  exists it', iovec_iterator_memset m it byte count
      = Some (store_at m (take (Z.to_nat count) (rest it))
                (take (length (take (Z.to_nat count) (rest it))) (replicate (Z.to_nat count) byte)), it', 0) /\
    iter_wf it' /\ rest it' = drop (Z.to_nat count) (rest it).
Proof.
  intros W Hc Hm. apply store_call_ok; [|done|done|rewrite length_replicate; lia|done].
  intros m0 a off n Ho Hn Hb Hm0. rewrite length_replicate in Hb. unfold copy_to_mem.
  assert (L : Z.of_nat (length (replicate (Z.to_nat n) byte)) = n) by (rewrite length_replicate; lia).
  rewrite <- L in Hm0. rewrite memcpy_store_at by done. simpl. rewrite L. do 4 f_equal.
  unfold slice. rewrite drop_replicate, take_replicate. f_equal. lia.
Qed.

(** [iovec_iterator_set] does not go back to the first buffer: it restarts
    at the beginning of the buffer the iterator is in, so the failed copies,
    which use it to restore the iterator, leave it at another address. *)
Theorem iovec_set_keeps_buffer it c offset :
  iter_wf it -> cur it = Some c -> 0 <= offset < len c ->
  exists it', iovec_iterator_set it offset = Some (it', total_size it - offset) /\
    total_offset it' = offset /\ cur it' = Some c /\ current_offset it' = offset.
Proof.
  intros W C Ho. destruct (rest_cur it c W C) as (_ & _ & Bd & A & B). pose proof (it_off _ W c C) as O.
  pose proof (it_pos _ W). pose proof (it_size _ W).
  unfold iovec_iterator_set, iovec_iterator_skip. cbn [skip_loop cur]. unfold cur in *. cbn [iovec current].
  rewrite C. cbn [mbind option_bind current_offset total_offset total_size]. rewrite Z.sub_0_r.
  pose proof (it_before _ W). rewrite (u64_z (len c)) by lia. rewrite cmin_z by lia. rewrite Z.min_r by lia.
  rewrite Z.sub_diag, !(u64_z (0 + offset)) by lia. rewrite Z.add_0_l.
  rewrite (proj2 (Z.eqb_neq offset (len c))) by lia. cbn [andb].
  change (u64 0 =? 0) with true. cbn [orb mbind option_bind total_size total_offset]. rewrite u64_z by lia.
  by eexists.
Qed.

(** ** Examples *)

(** Two buffers of three and four bytes with an empty one between them, after
    the first byte. *)
Definition sample_vec : list iovec_t := [mk_iovec 0x1000 3; mk_iovec 0x2000 0; mk_iovec 0x3000 4].
Definition sample_iter : iovec_iterator_t := mk_iter sample_vec 0 1 1 7.
Definition sample_bytes : mem :=
  list_to_map [(0x1000, 1); (0x1001, 2); (0x1002, 3); (0x3000, 4); (0x3001, 5); (0x3002, 6); (0x3003, 7)].

Lemma sample_vec_ok x : x ∈ sample_vec -> 0 <= addr x /\ 0 <= len x /\ addr x + len x < 2 ^ 64.
Proof.
  intros H. unfold sample_vec in H. repeat (apply elem_of_cons in H as [->|H]; [simpl; lia|]).
  by apply not_elem_of_nil in H.
Qed.

Lemma sample_iter_wf : iter_wf sample_iter.
Proof.
  split; simpl; try lia.
  - apply sample_vec_ok.
  - intros c [= <-]. simpl. lia.
Qed.

Lemma iovec_scatter_witness :
  exists it', iovec_iterator_copy_from_buffer sample_bytes sample_iter (2 ^ 63) [10; 11; 12; 13] 3
      = Some (store_at sample_bytes [0x1001; 0x1002; 0x3000] [10; 11; 12], it', 0) /\
    iter_wf it' /\ rest it' = [0x3001; 0x3002; 0x3003].
Proof.
  apply (iovec_scatter sample_bytes sample_iter (2 ^ 63) [10; 11; 12; 13] 3 sample_iter_wf); [lia|simpl; lia|].
  intros a Ha. vm_compute in Ha. repeat (apply elem_of_cons in Ha as [->|Ha]; [vm_compute; eauto|]).
  by apply not_elem_of_nil in Ha.
Defined.

(** In the third buffer, five bytes from the start. *)
Lemma iovec_set_keeps_buffer_witness :
  exists it', iovec_iterator_set (mk_iter sample_vec 2 2 5 7) 1 = Some (it', 6) /\
    total_offset it' = 1 /\ cur it' = Some (mk_iovec 0x3000 4) /\ current_offset it' = 1.
Proof.
  apply (iovec_set_keeps_buffer (mk_iter sample_vec 2 2 5 7) (mk_iovec 0x3000 4) 1); [|reflexivity|simpl; lia].
  split; simpl; try lia; [apply sample_vec_ok|intros c [= <-]; simpl; lia].
Defined.
