(* ===== verification/Pmm.v ===== *)
(** * Physical pages ([mm/pmm.c], [include/kernel/pmm.h])

    Every page of memory has a [page_t]; the unreferenced ones are chained in a
    free list (anonymous pages) or a standby list (pages that still cache file
    data), one of each per section of memory.  The chains are modelled at
    pointer level over [pages], which maps a page number to its structure. *)

From S2P Require Import Prelude Errno DList.

Definition PMM_SECTION_1MB : nat := 0.
Definition PMM_SECTION_4GB : nat := 1.
Definition PMM_SECTION_DEFAULT : nat := 2.

Definition PAGE_FLAGS_FREE : Z := 1.
Definition PAGE_FLAGS_TRUNCATED : Z := 2.
Definition PAGE_FLAGS_PINNED : Z := 4.
Definition PAGE_FLAGS_DIRTY : Z := 8.

Definition TOP_1MB : Z := 0x100000 / PAGE_SIZE.
Definition TOP_4GB : Z := 0x100000000 / PAGE_SIZE.

(** The fields of [page_t] this file uses; [backing] is the address of the
    vnode. *)
Record page_t := mk_page {
  backing : option Z;
  freenext : option nat;
  freeprev : option nat;
  refcount : Z;
  flags : Z
}.

#[export, refine] Instance page_linked : Linked page_t (option Z * Z * Z) := {
  lnext := freenext;
  lprev := freeprev;
  payload n := (backing n, refcount n, flags n);
  with_next v n := mk_page (backing n) v (freeprev n) (refcount n) (flags n);
  with_prev v n := mk_page (backing n) (freenext n) v (refcount n) (flags n)
}.
Proof. all: done. Defined.

(** [heads] is [freelists] followed by [standbylists], [tails] likewise;
    [array_base] and [array_top] bound the array [pages] itself. *)
Record pmm_t := mk_pmm {
  pages : gmap nat page_t;
  heads : list (option nat);
  tails : list (option nat);
  freepagecount : Z;
  searchstart : list Z;
  pagecount : Z;
  array_base : Z;
  array_top : Z;
  memorysize : Z
}.

Definition baseid (section : nat) : Z :=
  match section with O => 0 | S O => TOP_1MB | _ => TOP_4GB end.

Definition topid (section : nat) : Z :=
  match section with O => TOP_1MB | S O => TOP_4GB | _ => 0xffffffffffffffff end.

Definition with_pages (ps : gmap nat page_t) (s : pmm_t) : pmm_t :=
  mk_pmm ps (heads s) (tails s) (freepagecount s) (searchstart s) (pagecount s) (array_base s) (array_top s) (memorysize s).

Definition section_of (p : nat) : nat :=
  if Z.of_nat p <? TOP_1MB then PMM_SECTION_1MB
  else if Z.of_nat p <? TOP_4GB then PMM_SECTION_4GB
  else PMM_SECTION_DEFAULT.

(** Which of the six lists a page with backing [b] belongs to. *)
Definition list_of (p : nat) (b : option Z) : nat :=
  match b with Some _ => (3 + section_of p)%nat | None => section_of p end.

Definition PAGE_BOUNDARYCHECK (s : pmm_t) (p : nat) : bool :=
  (Z.of_nat p * PAGE_SIZE <? array_base s) || (Z.of_nat p * PAGE_SIZE >=? array_top s).

Definition insertinfreelist (p : nat) (s : pmm_t) : option pmm_t :=
  pg ← pages s !! p;
  _ ← passert (PAGE_BOUNDARYCHECK s p);
  let section := section_of p in
  let j := list_of p (backing pg) in
  head ← heads s !! j;
  st ← searchstart s !! section;
  let ss := if st >? Z.of_nat p then <[section := Z.of_nat p]> (searchstart s) else searchstart s in
  ps ← push_front p head (pages s);
  Some (mk_pmm ps (<[j := Some p]> (heads s))
          (match head with None => <[j := Some p]> (tails s) | Some _ => tails s end)
          (u64 (freepagecount s + 1)) ss (pagecount s) (array_base s) (array_top s) (memorysize s)).

Definition removefromfreelist (p : nat) (s : pmm_t) : option pmm_t :=
  pg ← pages s !! p;
  _ ← passert (PAGE_BOUNDARYCHECK s p);
  let j := list_of p (backing pg) in
  let hs := match freeprev pg with Some _ => heads s | None => <[j := freenext pg]> (heads s) end in
  let ts := match freenext pg with Some _ => tails s | None => <[j := freeprev pg]> (tails s) end in
  ps ← unlink p (pages s);
  Some (mk_pmm ps hs ts (u64 (freepagecount s - 1)) (searchstart s) (pagecount s) (array_base s) (array_top s) (memorysize s)).

Definition with_refcount (r : Z) (pg : page_t) : page_t :=
  mk_page (backing pg) (freenext pg) (freeprev pg) r (flags pg).

Definition with_flags (f : Z) (pg : page_t) : page_t :=
  mk_page (backing pg) (freenext pg) (freeprev pg) (refcount pg) f.

Definition internalhold (p : nat) (s : pmm_t) : option pmm_t :=
  pg ← pages s !! p;
  let r := u64 (refcount pg + 1) in
  let s := with_pages (<[p := with_refcount r pg]> (pages s)) s in
  if r =? 1 then
    _ ← passert (negb (has (flags pg) PAGE_FLAGS_FREE));
    removefromfreelist p s
  else Some s.

Definition page_of (a : Z) : nat := Z.to_nat (a / PAGE_SIZE).

Definition pmm_getpageaddress (p : nat) : Z := Z.of_nat p * PAGE_SIZE.

Definition pmm_hold (a : Z) (s : pmm_t) : option pmm_t := internalhold (page_of a) s.

Definition pmm_release (a : Z) (s : pmm_t) : option pmm_t :=
  let p := page_of a in
  pg ← pages s !! p;
  _ ← passert (negb (refcount pg =? 0));
  let newrefcount := u64 (refcount pg - 1) in
  let s := with_pages (<[p := with_refcount newrefcount pg]> (pages s)) s in
  if newrefcount =? 0 then
    _ ← passert (negb (has (flags pg) PAGE_FLAGS_DIRTY));
    s ← insertinfreelist p s;
    match backing pg with
    | None => ps ← upd p (fun pg => with_flags (Z.lor (flags pg) PAGE_FLAGS_FREE) pg) (pages s); Some (with_pages ps s)
    | Some _ => Some s
    end
  else Some s.

Definition doalloc (p : nat) (s : pmm_t) : option pmm_t :=
  pg ← pages s !! p;
  _ ← passert (refcount pg =? 0);
  Some (with_pages (<[p := mk_page None None None 1 0]> (pages s)) s).

(** The first head of [freelists] (or tail of [standbytails]) from [section]
    downwards. *)
Fixpoint first_page (l : list (option nat)) (base section : nat) : option nat :=
  match l !! (base + section)%nat with
  | Some (Some p) => Some p
  | _ => match section with O => None | S section' => first_page l base section' end
  end.

(** [vmmcache_takepage] as far as it concerns the page: it gives up when
    someone else holds the page too. *)
Definition takepage (p : nat) (s : pmm_t) : option Z :=
  pg ← pages s !! p;
  if refcount pg >? 1 then Some EAGAIN
  else
    _ ← passert (refcount pg =? 1);
    _ ← passert (negb (has (flags pg) PAGE_FLAGS_DIRTY));
    Some 0.

(** Other threads that find the pages [l] in the page cache hold them, unless
    the count would overflow. *)
Fixpoint hold_all (l : list nat) (s : pmm_t) : option pmm_t :=
  match l with
  | [] => Some s
  | p :: l' =>
      pg ← pages s !! p;
      s' ← (if bool_decide (is_Some (backing pg)) && (refcount pg <? 2 ^ 64 - 1) then internalhold p s else Some s);
      hold_all l' s'
  end.

(** [env] lists, attempt by attempt, the pages other threads hold between the
    moment the mutex is released and the call of [vmmcache_takepage]; after the
    list nobody interferes.  The result is the page's address or [NULL]. *)
Fixpoint pmm_allocpage (env : list (list nat)) (section : nat) (s : pmm_t) : option (option Z * pmm_t) :=
  match first_page (heads s) 0 section with
  | Some p =>
      s ← removefromfreelist p s;
      pg ← pages s !! p;
      _ ← passert (refcount pg =? 0);
      s ← doalloc p s;
      Some (Some (pmm_getpageaddress p), s)
  | None =>
      match first_page (tails s) 3 section with
      | None => Some (None, s)
      | Some p =>
          s ← internalhold p s;
          s ← hold_all (match env with [] => [] | e :: _ => e end) s;
          r ← takepage p s;
          if r =? EAGAIN then
            s ← pmm_release (pmm_getpageaddress p) s;
            match env with
            | [] => None
            | _ :: env' => pmm_allocpage env' section s
            end
          else
            ps ← upd p (with_refcount 0) (pages s);
            s ← doalloc p (with_pages ps s);
            Some (Some (pmm_getpageaddress p), s)
      end
  end.

(** Page numbers [i] to [count - 1] of a range. *)
Fixpoint makefree_loop (n : nat) (pageid : nat) (s : pmm_t) : option pmm_t :=
  match n with
  | O => Some s
  | S n' =>
      _ ← passert (PAGE_BOUNDARYCHECK s pageid);
      s' ← insertinfreelist pageid s;
      makefree_loop n' (S pageid) s'
  end.

Definition pmm_makefree (a : Z) (count : nat) (s : pmm_t) : option pmm_t :=
  let s := mk_pmm (pages s) (heads s) (tails s) (freepagecount s) (searchstart s) (pagecount s)
             (array_base s) (array_top s) (u64 (memorysize s + PAGE_SIZE * Z.of_nat count)) in
  _ ← passert (a mod PAGE_SIZE =? 0);
  makefree_loop count (page_of a) s.

(** The inner search of [pmm_alloc]: the page at which [size] free pages in a
    row were found. *)
Fixpoint scan (fuel : nat) (s : pmm_t) (page top found size : Z) : option (option Z) :=
  match fuel with
  | O => None
  | S fuel' =>
      if negb (page <? top) then Some None
      else if page >=? pagecount s then Some None
      else
        pg ← pages s !! Z.to_nat page;
        let found := if has (flags pg) PAGE_FLAGS_FREE then found + 1 else 0 in
        if found =? size then Some (Some page) else scan fuel' s (page + 1) top found size
  end.

Fixpoint scan_sections (section : nat) (s : pmm_t) (size : Z) : option (option Z) :=
  st ← searchstart s !! section;
  r ← scan (S (Z.to_nat (pagecount s - st))) s st (topid section) 0 size;
  match r with
  | Some page => Some (Some page)
  | None => match section with O => Some None | S section' => scan_sections section' s size end
  end.

Fixpoint take_pages (n : nat) (page : nat) (s : pmm_t) : option pmm_t :=
  match n with
  | O => Some s
  | S n' =>
      s ← removefromfreelist page s;
      s ← doalloc page s;
      take_pages n' (S page) s
  end.

Definition pmm_alloc (env : list (list nat)) (size : Z) (section : nat) (s : pmm_t)
    : option (option Z * pmm_t) :=
  _ ← passert (negb (size =? 0));
  if size =? 1 then pmm_allocpage env section s
  else
    r ← scan_sections section s size;
    match r with
    | None => Some (None, s)
    | Some last =>
        let page := last - (size - 1) in
        s ← take_pages (Z.to_nat size) (Z.to_nat page) s;
        Some (Some (page * PAGE_SIZE), s)
    end.

Fixpoint free_loop (n : nat) (a : Z) (s : pmm_t) : option pmm_t :=
  match n with
  | O => Some s
  | S n' => s ← pmm_release a s; free_loop n' (a + PAGE_SIZE) s
  end.

Definition pmm_free (a size : Z) (s : pmm_t) : option pmm_t :=
  _ ← passert (negb (size =? 0));
  _ ← passert (a mod PAGE_SIZE =? 0);
  free_loop (Z.to_nat size) a s.

(** The boot loader's memory map, with the types of entries the memory
    management tells apart. *)
Inductive memmap_type := USABLE | BOOTLOADER_RECLAIMABLE | KERNEL_AND_MODULES | FRAMEBUFFER | OTHER_MEMORY.

Record limine_memmap_entry := mk_memmap_entry { base : Z; length_ : Z; type : memmap_type }.

(** [sizeof(page_t)]: nine words, and a word with the flags. *)
Definition SIZEOF_PAGE : Z := 80.

Definition usable (e : limine_memmap_entry) : bool := match type e with USABLE => true | _ => false end.

Definition counted (e : limine_memmap_entry) : bool := match type e with FRAMEBUFFER | OTHER_MEMORY => false | _ => true end.

(** The first loop of [pmm_init]: top of memory, index and contents of the
    biggest usable entry, size of memory. *)
Fixpoint survey (es : list limine_memmap_entry) (i : nat) (top : Z)
    (biggest : option (nat * limine_memmap_entry)) (size : Z) : Z * option (nat * limine_memmap_entry) * Z :=
  match es with
  | [] => (top, biggest, size)
  | e :: es' =>
      let sectiontop := u64 (base e + length_ e) in
      let top := if counted e && (sectiontop >? top) then sectiontop else top in
      if usable e then
        let biggest :=
          match biggest with
          | None => Some (i, e)
          | Some (_, b) => if length_ e >? length_ b then Some (i, e) else biggest
          end in
        survey es' (S i) top biggest (u64 (size + length_ e))
      else survey es' (S i) top biggest size
  end.

Definition zero_page : page_t := mk_page None None None 0 0.

(** [pages\[i\].flags |= PAGE_FLAGS_FREE; insertinfreelist(&pages\[i\])]. *)
Fixpoint place_loop (n i : nat) (s : pmm_t) : option pmm_t :=
  match n with
  | O => Some s
  | S n' =>
      ps ← upd i (fun pg => with_flags (Z.lor (flags pg) PAGE_FLAGS_FREE) pg) (pages s);
      s ← insertinfreelist i (with_pages ps s);
      place_loop n' (S i) s
  end.

(** The loop variable is an [int] compared as an unsigned 64-bit number: a
    negative one ends the loop, and one that would overflow is [None]. *)
Definition place_entry (count : Z) (isbiggest : bool) (e : limine_memmap_entry) (s : pmm_t) : option pmm_t :=
  let first := s32 (if isbiggest then ROUND_UP (u64 (base e + count * SIZEOF_PAGE)) PAGE_SIZE / PAGE_SIZE
                    else base e / PAGE_SIZE) in
  let limit := u64 (base e + length_ e) / PAGE_SIZE in
  if first <? 0 then Some s
  else
    _ ← passert (limit <? 2 ^ 31);
    place_loop (Z.to_nat (limit - first)) (Z.to_nat first) s.

Fixpoint place_entries (es : list limine_memmap_entry) (i biggest : nat) (count : Z) (s : pmm_t) : option pmm_t :=
  match es with
  | [] => Some s
  | e :: es' =>
      s ← (if usable e then place_entry count (i =? biggest)%nat e s else Some s);
      place_entries es' (S i) biggest count s
  end.

Definition pmm_init (hhdmbase : Z) (es : list limine_memmap_entry) : option pmm_t :=
  let '(top, biggest, size) := survey es 0 0 None 0 in
  b ← biggest;
  let count := ROUND_UP top PAGE_SIZE / PAGE_SIZE in
  let array := u64 (base b.2 + hhdmbase) in
  place_entries es 0 b.1 count
    (mk_pmm (map_seq 0 (replicate (Z.to_nat count) zero_page)) (replicate 6 None) (replicate 6 None) 0
       (baseid <$> [0; 1; 2]%nat) count array (u64 (array + count * SIZEOF_PAGE)) size).

(** ** Invariant

    [info] is what a page is apart from its place in a list: backing, reference
    count and flags.  The lists [ls] that the links spell out are the free and
    the standby lists, and hold the unreferenced pages. *)

Definition info (s : pmm_t) : gmap nat (option Z * Z * Z) := payload <$> pages s.

Record core (s : pmm_t) (ls : list (list nat)) : Prop := {
  co_lists : dlists (pages s) (heads s) (tails s) ls;
  co_len : length ls = 6%nat;
  co_search : searchstart s = baseid <$> [0; 1; 2]%nat;
  co_total : freepagecount s = u64 (Z.of_nat (length (mjoin ls)));
  co_pages : forall p pg, pages s !! p = Some pg -> PAGE_BOUNDARYCHECK s p = true;
  co_dom : forall p, is_Some (pages s !! p) <-> Z.of_nat p < pagecount s
}.

Record info_ok (I : gmap nat (option Z * Z * Z)) (ls : list (list nat)) : Prop := {
  io_listed : forall j l p, ls !! j = Some l -> p ∈ l ->
    exists b f, I !! p = Some (b, 0, f) /\ j = list_of p b /\
      (is_Some b -> has f PAGE_FLAGS_FREE = false /\ has f PAGE_FLAGS_DIRTY = false);
  io_free : forall p b r f, I !! p = Some (b, r, f) -> has f PAGE_FLAGS_FREE = true ->
    p ∈ mjoin ls /\ b = None;
  io_standby : forall p v f, I !! p = Some (Some v, 0, f) -> p ∈ mjoin ls;
  io_refcount : forall p b r f, I !! p = Some (b, r, f) -> 0 <= r < 2 ^ 64
}.

Definition pmm_ok (s : pmm_t) (ls : list (list nat)) : Prop := core s ls /\ info_ok (info s) ls.

Lemma info_lookup s p pg : pages s !! p = Some pg -> info s !! p = Some (backing pg, refcount pg, flags pg).
Proof. intros E. unfold info. by rewrite lookup_fmap, E. Qed.

Lemma info_inv s p b r f : info s !! p = Some (b, r, f) ->
  exists pg, pages s !! p = Some pg /\ backing pg = b /\ refcount pg = r /\ flags pg = f.
Proof. unfold info. rewrite lookup_fmap. intros (pg & ? & [= -> -> ->])%fmap_Some. eauto. Qed.

Lemma info_same h h' : same_payload h h' -> payload (N := page_t) <$> h' = payload <$> h.
Proof. intros S. apply map_eq. intros x. rewrite !lookup_fmap. symmetry. apply S. Qed.

Lemma section_of_lt p : (section_of p < 3)%nat.
Proof. unfold section_of. repeat case_match; unfold PMM_SECTION_1MB, PMM_SECTION_4GB, PMM_SECTION_DEFAULT; lia. Qed.

Lemma search_ge s ls p st :
  core s ls -> searchstart s !! section_of p = Some st -> (st >? Z.of_nat p) = false.
Proof.
  intros C. rewrite (co_search _ _ C). unfold section_of.
  destruct (Z.ltb_spec (Z.of_nat p) TOP_1MB); [intros [= <-]; cbn; lia|].
  destruct (Z.ltb_spec (Z.of_nat p) TOP_4GB); intros [= <-]; cbn [baseid]; lia.
Qed.

Lemma list_of_lt p b : (list_of p b < 6)%nat.
Proof. pose proof (section_of_lt p). unfold list_of. destruct b; lia. Qed.

(** ** The list operations *)

Lemma removefromfreelist_ok s ls j l1 p l2 pg :
  core s ls -> ls !! j = Some (l1 ++ p :: l2) -> pages s !! p = Some pg -> list_of p (backing pg) = j ->
  exists s', removefromfreelist p s = Some s' /\ core s' (<[j := l1 ++ l2]> ls) /\ info s' = info s /\
    mjoin ls ≡ₚ p :: mjoin (<[j := l1 ++ l2]> ls).
Proof.
  intros C El Ep Ej.
  destruct (dlists_unlink _ _ _ _ _ _ _ _ (co_lists _ _ C) El) as (n & h' & En & U & D & S & _ & Pm & _).
  rewrite Ep in En. injection En as <-.
  eexists. split; [unfold removefromfreelist; rewrite Ep; cbn [mbind option_bind];
    rewrite (co_pages _ _ C _ _ Ep); cbn [passert mbind option_bind]; rewrite U, Ej; reflexivity|].
  split; [|split; [by apply info_same|done]].
  split; cbn; try apply C.
  - exact D.
  - rewrite length_insert. apply C.
  - rewrite (co_total _ _ C), u64_sub_l, Pm. f_equal. simpl length. lia.
  - intros q qg Eq. pose proof (S q) as Sq. rewrite Eq in Sq. destruct (pages s !! q) eqn:E; [|done].
    by apply (co_pages _ _ C) in E.
  - intros q. rewrite <- (co_dom _ _ C). pose proof (S q) as Sq.
    destruct (pages s !! q), (h' !! q); simplify_eq/=; split; intros []; eauto; done.
Qed.

Lemma insertinfreelist_ok s ls p pg l :
  core s ls -> p ∉ mjoin ls -> pages s !! p = Some pg -> ls !! list_of p (backing pg) = Some l ->
  exists s', insertinfreelist p s = Some s' /\ core s' (<[list_of p (backing pg) := p :: l]> ls) /\ info s' = info s.
Proof.
  intros C Np Ep El. set (j := list_of p (backing pg)) in *.
  destruct (dlists_push _ _ _ _ _ _ _ _ (co_lists _ _ C) El Np Ep) as (h' & U & D & S & _).
  assert (Hh : heads s !! j = Some (hdo l None))
    by (rewrite (dl_heads _ _ _ _ (co_lists _ _ C)), list_lookup_fmap, El; done).
  destruct (lookup_lt_is_Some_2 (searchstart s) (section_of p)) as [st Est].
  { rewrite (co_search _ _ C). apply section_of_lt. }
  eexists. split.
  { unfold insertinfreelist. rewrite Ep. cbn [mbind option_bind]. rewrite (co_pages _ _ C _ _ Ep).
    cbn [passert mbind option_bind]. fold j. rewrite Hh. cbn [mbind option_bind]. rewrite Est.
    cbn [mbind option_bind]. rewrite (search_ge _ _ _ _ C Est), U. reflexivity. }
  split; [|by apply info_same]. split; cbn; try apply C.
  - exact D.
  - rewrite length_insert. apply C.
  - rewrite (co_total _ _ C), u64_add_l, (join_insert_perm ls j l (p :: l) p El) by done. f_equal. simpl length. lia.
  - intros q qg Eq. pose proof (S q) as Sq. rewrite Eq in Sq. destruct (pages s !! q) eqn:E; [|done].
    by apply (co_pages _ _ C) in E.
  - intros q. rewrite <- (co_dom _ _ C). pose proof (S q) as Sq.
    destruct (pages s !! q), (h' !! q); simplify_eq/=; split; intros []; eauto; done.
Qed.

Lemma core_set s ls p pg pg' :
  core s ls -> pages s !! p = Some pg ->
  (p ∈ mjoin ls -> freenext pg' = freenext pg /\ freeprev pg' = freeprev pg) ->
  core (with_pages (<[p := pg']> (pages s)) s) ls /\
  info (with_pages (<[p := pg']> (pages s)) s) = <[p := (backing pg', refcount pg', flags pg')]> (info s).
Proof.
  intros C Ep L. split; [|unfold info; cbn; by rewrite fmap_insert].
  pose proof (co_lists _ _ C) as D. split; cbn; try apply C.
  - split; try apply D. intros l Hl. apply (dseg_links (pages s)); [|by apply D]. intros x n Hx En.
    destruct (decide (x = p)) as [->|Ne]; [|exists n; by rewrite lookup_insert_ne].
    rewrite lookup_insert_eq. rewrite Ep in En. injection En as <-. eexists. split; [done|].
    apply and_comm, L. apply list_elem_of_join. eauto.
  - intros q qg [[-> _]|[_ Eq]]%lookup_insert_Some; eapply (co_pages _ _ C); eauto.
  - intros q. rewrite <- (co_dom _ _ C), lookup_insert_is_Some. split; [intros [->|[_ ?]]; eauto|].
    intros. destruct (decide (p = q)); eauto.
Qed.
(** ** The invariant across updates of a page *)

Section info.
Context (I : gmap nat (option Z * Z * Z)) (ls : list (list nat)) (p : nat).
Hypotheses (ND : NoDup (mjoin ls)) (Ok : info_ok I ls).

Lemma info_ok_take j l1 l2 b r f :
  ls !! j = Some (l1 ++ p :: l2) -> 0 < r < 2 ^ 64 -> has f PAGE_FLAGS_FREE = false ->
  info_ok (<[p := (b, r, f)]> I) (<[j := l1 ++ l2]> ls).
Proof.
  intros El Hr Hf.
  assert (Pm : mjoin ls ≡ₚ p :: mjoin (<[j := l1 ++ l2]> ls)).
  { rewrite <- (join_insert_perm (<[j := l1 ++ l2]> ls) j (l1 ++ l2) (l1 ++ p :: l2) p).
    - by rewrite list_insert_insert_eq, list_insert_id.
    - apply list_lookup_insert_eq. by eapply lookup_lt_Some.
    - by rewrite Permutation_middle. }
  assert (Np : p ∉ mjoin (<[j := l1 ++ l2]> ls)) by (rewrite Pm in ND; by apply NoDup_cons in ND as [? _]).
  split.
  - intros i l q Ei Hq. assert (q <> p) by (intros ->; apply Np; by eapply chain_elem).
    rewrite lookup_insert_ne by done. destruct (decide (i = j)) as [->|Ne].
    + rewrite list_lookup_insert_eq in Ei by (by eapply lookup_lt_Some). injection Ei as <-.
      eapply (io_listed _ _ Ok); [exact El|set_solver].
    + rewrite list_lookup_insert_ne in Ei by done. by eapply (io_listed _ _ Ok).
  - intros q b' r' f' [[<- [= <- <- <-]]|[Ne Eq]]%lookup_insert_Some Hf'; [congruence|].
    destruct (io_free _ _ Ok _ _ _ _ Eq Hf') as [Hq ->]. rewrite Pm in Hq. set_solver.
  - intros q v f' [[<- [=]]|[Ne Eq]]%lookup_insert_Some; [lia|].
    pose proof (io_standby _ _ Ok _ _ _ Eq) as Hq. rewrite Pm in Hq. set_solver.
  - intros q b' r' f' [[<- [= <- <- <-]]|[Ne Eq]]%lookup_insert_Some; [lia|]. by eapply (io_refcount _ _ Ok).
Qed.

Lemma info_ok_put b f l :
  p ∉ mjoin ls -> ls !! list_of p b = Some l ->
  (is_Some b -> has f PAGE_FLAGS_FREE = false /\ has f PAGE_FLAGS_DIRTY = false) ->
  info_ok (<[p := (b, 0, f)]> I) (<[list_of p b := p :: l]> ls).
Proof.
  intros Np El Hb. pose proof (join_insert_perm ls _ l (p :: l) p El) as Pm. specialize (Pm ltac:(done)).
  split.
  - intros i l' q Ei Hq. destruct (decide (q = p)) as [->|Nq].
    + rewrite lookup_insert_eq. exists b, f. split; [done|]. split; [|done].
      destruct (decide (i = list_of p b)); [done|]. rewrite list_lookup_insert_ne in Ei by done.
      destruct Np. by eapply chain_elem.
    + rewrite lookup_insert_ne by done. destruct (decide (i = list_of p b)) as [->|Ne].
      * rewrite list_lookup_insert_eq in Ei by (by eapply lookup_lt_Some). injection Ei as <-.
        eapply (io_listed _ _ Ok); [exact El|set_solver].
      * rewrite list_lookup_insert_ne in Ei by done. by eapply (io_listed _ _ Ok).
  - intros q b' r' f' [[<- [= <- <- <-]]|[Ne Eq]]%lookup_insert_Some Hf'; rewrite Pm.
    + split; [set_solver|]. destruct b; [|done]. destruct Hb as [? _]; [done|congruence].
    + destruct (io_free _ _ Ok _ _ _ _ Eq Hf') as [Hq ->]. set_solver.
  - intros q v f' [[<- _]|[Ne Eq]]%lookup_insert_Some; rewrite Pm; [set_solver|].
    apply (io_standby _ _ Ok) in Eq. set_solver.
  - intros q b' r' f' [[<- [= <- <- <-]]|[Ne Eq]]%lookup_insert_Some; [lia|]. by eapply (io_refcount _ _ Ok).
Qed.

Lemma info_ok_held b r f :
  p ∉ mjoin ls -> 0 < r < 2 ^ 64 -> has f PAGE_FLAGS_FREE = false -> info_ok (<[p := (b, r, f)]> I) ls.
Proof.
  intros Np Hr Hf. split.
  - intros i l q Ei Hq. rewrite lookup_insert_ne; [by eapply (io_listed _ _ Ok)|].
    intros ->. apply Np. by eapply chain_elem.
  - intros q b' r' f' [[<- [= <- <- <-]]|[Ne Eq]]%lookup_insert_Some Hf'; [congruence|]. by eapply (io_free _ _ Ok).
  - intros q v f' [[<- [=]]|[Ne Eq]]%lookup_insert_Some; [lia|]. by eapply (io_standby _ _ Ok).
  - intros q b' r' f' [[<- [= <- <- <-]]|[Ne Eq]]%lookup_insert_Some; [lia|]. by eapply (io_refcount _ _ Ok).
Qed.
End info.

Section ok.
Context (s : pmm_t) (ls : list (list nat)).
Hypothesis Ok : pmm_ok s ls.

Lemma ok_nodup : NoDup (mjoin ls).
Proof. exact (dl_nodup _ _ _ _ (co_lists _ _ (proj1 Ok))). Qed.

Lemma listed_info p : p ∈ mjoin ls -> exists b f l1 l2,
  info s !! p = Some (b, 0, f) /\ ls !! list_of p b = Some (l1 ++ p :: l2) /\
  (is_Some b -> has f PAGE_FLAGS_FREE = false /\ has f PAGE_FLAGS_DIRTY = false).
Proof.
  intros (j & l & El & Hp)%elem_concat.
  destruct (io_listed _ _ (proj2 Ok) _ _ _ El Hp) as (b & f & E & -> & Hb).
  apply list_elem_of_split in Hp as (l1 & l2 & ->). eauto 8.
Qed.

Lemma held_unlisted p b r f : info s !! p = Some (b, r, f) -> 0 < r -> p ∉ mjoin ls.
Proof. intros E Hr Hp. destruct (listed_info p Hp) as (b' & f' & l1 & l2 & E' & _). simplify_eq. lia. Qed.

Lemma held_unflagged p b r f : info s !! p = Some (b, r, f) -> 0 < r -> has f PAGE_FLAGS_FREE = false.
Proof.
  intros E Hr. destruct (has f PAGE_FLAGS_FREE) eqn:Hf; [|done].
  destruct (held_unlisted _ _ _ _ E Hr). by eapply (io_free _ _ (proj2 Ok)).
Qed.

(** Taking an unreferenced page off its list and making it a fresh one. *)
Lemma take_ok p : p ∈ mjoin ls -> exists s1 s2 ls',
  removefromfreelist p s = Some s1 /\ info s1 = info s /\ doalloc p s1 = Some s2 /\ pmm_ok s2 ls' /\
  info s2 = <[p := (None, 1, 0)]> (info s) /\ mjoin ls ≡ₚ p :: mjoin ls'.
Proof.
  intros Hp. destruct (listed_info p Hp) as (b & f & l1 & l2 & Ei & El & _). destruct Ok as [C Io].
  destruct (info_inv _ _ _ _ _ Ei) as (pg & Ep & <- & Er & <-).
  destruct (removefromfreelist_ok s ls _ _ _ _ _ C El Ep eq_refl) as (s1 & R & C1 & I1 & Pm).
  rewrite <- I1 in Ei. destruct (info_inv _ _ _ _ _ Ei) as (pg1 & Ep1 & B1 & Er1 & F1).
  pose proof ok_nodup as ND.
  destruct (core_set s1 _ p pg1 (mk_page None None None 1 0) C1 Ep1) as [C2 I2].
  { intros Q. rewrite Pm in ND. by apply NoDup_cons in ND as [? _]. }
  eexists s1, _, _. split; [done|]. split; [done|]. split; [unfold doalloc; by rewrite Ep1; cbn; rewrite Er1|].
  split; [split; [exact C2|]|split; [|exact Pm]].
  - rewrite I2, I1. by eapply info_ok_take.
  - by rewrite I2, I1.
Qed.

Lemma internalhold_ok p b r f :
  info s !! p = Some (b, r, f) -> (0 < r \/ is_Some b) -> r < 2 ^ 64 - 1 ->
  exists s' ls', internalhold p s = Some s' /\ pmm_ok s' ls' /\ info s' = <[p := (b, r + 1, f)]> (info s) /\
    mjoin ls' ⊆ mjoin ls.
Proof.
  intros Ei Hb Hr. destruct (info_inv _ _ _ _ _ Ei) as (pg & Ep & <- & <- & <-).
  pose proof (io_refcount _ _ (proj2 Ok) _ _ _ _ Ei) as R0. destruct Ok as [C Io].
  destruct (core_set s ls p pg (with_refcount (refcount pg + 1) pg) C Ep) as [C1 I1]; [done|].
  unfold internalhold. rewrite Ep. cbn [mbind option_bind]. rewrite u64_id by (unfold is_u64; lia).
  destruct (Z.eqb_spec (refcount pg + 1) 1) as [E1|E1].
  - destruct (backing pg) as [v|] eqn:Bk; [|destruct Hb as [|[]]; [lia|done]].
    assert (Rz : refcount pg = 0) by lia. rewrite Rz in *.
    destruct (listed_info p) as (b' & f' & l1 & l2 & Ei' & El & Fl).
    { eapply (io_standby _ _ Io). exact Ei. }
    simplify_eq. destruct Fl as [Fl _]; [done|]. rewrite Fl. cbn [negb passert mbind option_bind].
    destruct (removefromfreelist_ok _ ls _ l1 p l2 (with_refcount 1 pg) C1 El) as (s2 & R & C2 & I2 & Pm).
    { cbn. by rewrite lookup_insert_eq. } { cbn. by rewrite Bk. }
    exists s2, (<[list_of p (Some v) := l1 ++ l2]> ls). split; [done|]. split; [split; [done|]|split].
    + rewrite I2, I1. cbn. rewrite Bk. eapply info_ok_take; try done. apply ok_nodup.
    + rewrite I2, I1. cbn. by rewrite Bk.
    + rewrite Pm. set_solver.
  - eexists _, ls. split; [done|]. split; [split; [exact C1|]|split; [exact I1|done]].
    rewrite I1. cbn. eapply info_ok_held; [done|eapply held_unlisted; [exact Ei|lia]|lia|eapply held_unflagged; [exact Ei|lia]].
Qed.

Lemma pmm_release_ok a b r f :
  info s !! page_of a = Some (b, r, f) -> 0 < r -> (r = 1 -> has f PAGE_FLAGS_DIRTY = false) ->
  exists s' ls', pmm_release a s = Some s' /\ pmm_ok s' ls' /\
    info s' = <[page_of a := (b, r - 1, if (r =? 1) && negb (bool_decide (is_Some b)) then Z.lor f PAGE_FLAGS_FREE else f)]> (info s) /\
    mjoin ls' ≡ₚ (if r =? 1 then [page_of a] else []) ++ mjoin ls.
Proof.
  intros Ei Hr Hd. set (p := page_of a) in *.
  pose proof (held_unlisted _ _ _ _ Ei Hr) as Np. pose proof (held_unflagged _ _ _ _ Ei Hr) as Nf.
  destruct (info_inv _ _ _ _ _ Ei) as (pg & Ep & <- & <- & <-). destruct Ok as [C Io].
  pose proof (io_refcount _ _ Io _ _ _ _ Ei) as R0.
  destruct (core_set s ls p pg (with_refcount (refcount pg - 1) pg) C Ep) as [C1 I1]; [done|].
  unfold pmm_release. fold p. rewrite Ep. cbn [mbind option_bind].
  destruct (Z.eqb_spec (refcount pg) 0) as [|_]; [lia|]. cbn [negb passert mbind option_bind].
  rewrite u64_id by (unfold is_u64; lia).
  destruct (Z.eqb_spec (refcount pg) 1) as [E1|E1]; cycle 1.
  { destruct (Z.eqb_spec (refcount pg - 1) 0) as [|_]; [lia|].
    eexists _, ls. split; [done|]. split; [split; [exact C1|]|split; [exact I1|done]].
    rewrite I1. cbn. apply info_ok_held; [done|done|lia|done]. }
  rewrite E1 in *. specialize (Hd eq_refl). rewrite Hd. cbn [negb passert mbind option_bind Z.sub Z.add Z.opp Z.pos_sub Z.eqb].
  destruct (lookup_lt_is_Some_2 ls (list_of p (backing pg))) as [l El].
  { rewrite (co_len _ _ C). apply list_of_lt. }
  destruct (insertinfreelist_ok _ ls p (with_refcount 0 pg) l C1 Np) as (s2 & R & C2 & I2).
  { cbn. by rewrite lookup_insert_eq. } { done. }
  cbn [with_refcount backing] in C2. change (1 - 1) with 0 in *. rewrite R. cbn [mbind option_bind].
  cbn [with_refcount backing refcount flags] in I1. rewrite I1 in I2.
  pose proof (join_insert_perm ls _ l (p :: l) p El ltac:(done)) as Pm.
  destruct (backing pg) as [v|] eqn:Bk; cbn [andb negb].
  - eexists _, _. split; [done|]. rewrite bool_decide_true by done. split; [split; [exact C2|]|split; [exact I2|by rewrite Pm]].
    rewrite I2. apply (info_ok_put _ _ _ ok_nodup Io (Some v)); [done|done|by intros _].
  - assert (exists pg2, pages s2 !! p = Some pg2 /\ backing pg2 = None /\ refcount pg2 = 0 /\ flags pg2 = flags pg) as
      (pg2 & Ep2 & B2 & R2 & F2) by (eapply info_inv; rewrite I2; by rewrite lookup_insert_eq).
    destruct (core_set s2 _ p pg2 (with_flags (Z.lor (flags pg) PAGE_FLAGS_FREE) pg2) C2 Ep2) as [C3 I3]; [done|].
    unfold upd. rewrite Ep2. cbn [mbind option_bind]. rewrite F2. eexists _, _. split; [done|].
    rewrite bool_decide_false by (by intros []). cbn [with_flags backing refcount flags negb] in I3 |- *.
    rewrite B2, R2, I2, insert_insert_eq in I3. split; [split; [exact C3|]|split; [exact I3|by rewrite Pm]].
    rewrite I3. apply (info_ok_put _ _ _ ok_nodup Io None); try done.
Qed.
End ok.
(** ** Allocation of one page *)

(** Nobody loses a reference, and pages keep their backing and flags. *)
Definition info_le (I I' : gmap nat (option Z * Z * Z)) : Prop :=
  forall q b r f, I !! q = Some (b, r, f) -> exists r', I' !! q = Some (b, r', f) /\ r <= r'.

#[global] Instance info_le_preorder : PreOrder info_le.
Proof.
  split; [intros I q b r f E; exists r; split; [done|lia]|].
  intros I1 I2 I3 H1 H2 q b r f E. destruct (H1 _ _ _ _ E) as (r1 & E1 & L1).
  destruct (H2 _ _ _ _ E1) as (r2 & E2 & L2). exists r2. split; [done|lia].
Qed.

Lemma info_le_insert I p b r r' f : I !! p = Some (b, r, f) -> r <= r' -> info_le I (<[p := (b, r', f)]> I).
Proof.
  intros Ep L q b' x f' Eq. destruct (decide (q = p)) as [->|Ne].
  - rewrite lookup_insert_eq. simplify_eq. eauto.
  - rewrite lookup_insert_ne by done. exists x. split; [done|lia].
Qed.

Lemma info_le_live s s' q : info_le (info s) (info s') -> is_Some (pages s !! q) -> is_Some (pages s' !! q).
Proof.
  intros Le [pg E%info_lookup]. destruct (Le _ _ _ _ E) as (r & (pg' & ? & _)%info_inv & _). eauto.
Qed.

Lemma hold_all_ok l s ls :
  pmm_ok s ls -> Forall (fun p => is_Some (pages s !! p)) l -> exists s' ls',
    hold_all l s = Some s' /\ pmm_ok s' ls' /\ info_le (info s) (info s') /\ mjoin ls' ⊆ mjoin ls.
Proof.
  revert s ls. induction l as [|p l IH]; intros s ls Ok Fa; [by exists s, ls|].
  apply Forall_cons in Fa as [[pg Ep] Fa]. cbn [hold_all]. rewrite Ep. cbn [mbind option_bind].
  pose proof (info_lookup _ _ _ Ep) as Ei. case_match eqn:G.
  - apply andb_true_iff in G as [Bk%bool_decide_eq_true Hr%Z.ltb_lt].
    destruct (internalhold_ok s ls Ok p _ _ _ Ei (or_intror Bk) Hr) as (s1 & ls1 & -> & Ok1 & I1 & Sub).
    assert (Le1 : info_le (info s) (info s1)) by (rewrite I1; eapply info_le_insert; [exact Ei|lia]).
    cbn [mbind option_bind]. destruct (IH s1 ls1 Ok1) as (s' & ls' & H & Ok' & Le & Sub').
    { eapply Forall_impl; [exact Fa|]. intros q. by apply info_le_live. }
    exists s', ls'. split; [done|]. split; [done|]. split; [|set_solver].
    by etransitivity.
  - by apply IH.
Qed.

Lemma first_page_spec (l : list (option nat)) base section :
  match first_page l base section with
  | Some p => exists i, (i <= section)%nat /\ l !! (base + i)%nat = Some (Some p)
  | None => forall i, (i <= section)%nat -> l !! (base + i)%nat <> None -> l !! (base + i)%nat = Some None
  end.
Proof.
  induction section as [|n IH]; cbn [first_page].
  - destruct (l !! (base + 0)%nat) as [[p|]|] eqn:E; [by exists 0%nat| |]; intros i Hi;
      (replace i with 0%nat by lia); by rewrite E.
  - destruct (l !! (base + S n)%nat) as [[p|]|] eqn:E; [by exists (S n)| |];
      (destruct (first_page l base n); [destruct IH as (i & ? & ?); exists i; split; [lia|done]|]);
      intros i Hi; (destruct (decide (i = S n)) as [->|]; [by rewrite E|apply IH; lia]).
Qed.

Section ok2.
Context (s : pmm_t) (ls : list (list nat)).
Hypothesis Ok : pmm_ok s ls.

Lemma head_listed j p : heads s !! j = Some (Some p) -> exists l, ls !! j = Some l /\ p ∈ l.
Proof.
  rewrite (dl_heads _ _ _ _ (co_lists _ _ (proj1 Ok))), list_lookup_fmap.
  intros ([|q l] & E & [=])%fmap_Some. subst. exists (q :: l). split; [done|set_solver].
Qed.

Lemma tail_listed j p : tails s !! j = Some (Some p) -> exists l, ls !! j = Some l /\ p ∈ l.
Proof.
  rewrite (dl_tails _ _ _ _ (co_lists _ _ (proj1 Ok))), list_lookup_fmap.
  intros (l & E & Hl)%fmap_Some. exists l. split; [done|]. symmetry in Hl.
  eapply lasto_elem; [exact Hl|]. by intros ->.
Qed.

Lemma head_empty j : heads s !! j = Some None -> ls !! j = Some [].
Proof.
  rewrite (dl_heads _ _ _ _ (co_lists _ _ (proj1 Ok))), list_lookup_fmap. by intros ([|q l] & E & [=])%fmap_Some.
Qed.

Lemma tail_empty j : tails s !! j = Some None -> ls !! j = Some [].
Proof.
  rewrite (dl_tails _ _ _ _ (co_lists _ _ (proj1 Ok))), list_lookup_fmap. intros ([|q l] & E & Hl)%fmap_Some; [done|].
  simpl in Hl. destruct (lasto_some q l) as [y Y]. congruence.
Qed.

Lemma standby_index j l p : ls !! (3 + j)%nat = Some l -> p ∈ l -> exists v f,
  info s !! p = Some (Some v, 0, f) /\ has f PAGE_FLAGS_DIRTY = false /\ section_of p = j.
Proof.
  intros El Hp. destruct (io_listed _ _ (proj2 Ok) _ _ _ El Hp) as (b & f & E & Ej & Fl).
  pose proof (section_of_lt p). destruct b as [v|]; unfold list_of in Ej; [|lia].
  exists v, f. split; [done|]. split; [by apply Fl|lia].
Qed.

Lemma free_index j l p : (j < 3)%nat -> ls !! j = Some l -> p ∈ l -> exists f,
  info s !! p = Some (None, 0, f) /\ section_of p = j.
Proof.
  intros Hj El Hp. destruct (io_listed _ _ (proj2 Ok) _ _ _ El Hp) as (b & f & E & -> & Fl).
  destruct b as [v|]; unfold list_of in *; [lia|]. eauto.
Qed.

Lemma takepage_ok p b r f :
  info s !! p = Some (b, r, f) -> 1 <= r -> has f PAGE_FLAGS_DIRTY = false ->
  takepage p s = Some (if r >? 1 then EAGAIN else 0).
Proof.
  intros E Hr Hd. destruct (info_inv _ _ _ _ _ E) as (pg & Ep & <- & <- & <-). unfold takepage. rewrite Ep.
  cbn [mbind option_bind]. rewrite Z.gtb_ltb. destruct (Z.ltb_spec 1 (refcount pg)); [done|].
  destruct (Z.eqb_spec (refcount pg) 1); [|lia]. cbn. by rewrite Hd.
Qed.
End ok2.
Lemma page_of_address p : page_of (pmm_getpageaddress p) = p.
Proof. unfold page_of, pmm_getpageaddress. rewrite Z.div_mul by (unfold PAGE_SIZE; lia). lia. Qed.

(** One attempt at the standby list: the page at its tail gets a reference, and
    perhaps others from elsewhere. *)
Lemma standby_attempt s ls section e p :
  pmm_ok s ls -> Forall (fun p => is_Some (pages s !! p)) e -> first_page (tails s) 3 section = Some p ->
  exists s1 s2 ls2 v r f, internalhold p s = Some s1 /\ hold_all e s1 = Some s2 /\ pmm_ok s2 ls2 /\
    info s !! p = Some (Some v, 0, f) /\ info s2 !! p = Some (Some v, r, f) /\ 1 <= r /\ (e = [] -> r = 1) /\
    has f PAGE_FLAGS_DIRTY = false /\ p ∈ mjoin ls /\ (section_of p <= section)%nat /\
    info_le (info s) (info s2) /\ mjoin ls2 ⊆ mjoin ls.
Proof.
  intros Ok Fa Fp. pose proof (first_page_spec (tails s) 3 section) as Sp. rewrite Fp in Sp.
  destruct Sp as (i & Hi & Et). destruct (tail_listed s ls Ok _ _ Et) as (l & El & Hp).
  destruct (standby_index s ls Ok _ _ _ El Hp) as (v & f & Ei & Nd & Es).
  destruct (internalhold_ok s ls Ok p _ _ _ Ei) as (s1 & ls1 & H1 & Ok1 & I1 & Sub1); [by right|lia|].
  assert (Le1 : info_le (info s) (info s1)) by (rewrite I1; eapply info_le_insert; [exact Ei|lia]).
  destruct (hold_all_ok e s1 ls1 Ok1) as (s2 & ls2 & H2 & Ok2 & Le2 & Sub2).
  { eapply Forall_impl; [exact Fa|]. intros q. by apply info_le_live. }
  assert (Ei1 : info s1 !! p = Some (Some v, 1, f)) by (rewrite I1; apply lookup_insert_eq).
  destruct (Le2 _ _ _ _ Ei1) as (r & Ei2 & Lr).
  exists s1, s2, ls2, v, r, f. split_and!; try done.
  - intros ->. injection H2 as <-. congruence.
  - by eapply chain_elem.
  - lia.
  - by etransitivity.
  - set_solver.
Qed.

(** A held page of the cache becomes a fresh page. *)
Lemma claim_ok s ls p v f :
  pmm_ok s ls -> info s !! p = Some (Some v, 1, f) -> exists ps s',
    upd p (with_refcount 0) (pages s) = Some ps /\ doalloc p (with_pages ps s) = Some s' /\ pmm_ok s' ls /\
    info s' = <[p := (None, 1, 0)]> (info s).
Proof.
  intros Ok Ei. pose proof (held_unlisted s ls Ok p _ _ _ Ei ltac:(lia)) as Np.
  destruct (info_inv _ _ _ _ _ Ei) as (pg & Ep & _). pose proof (ok_nodup _ _ Ok) as ND. destruct Ok as [C Io].
  destruct (core_set s ls p pg (with_refcount 0 pg) C Ep) as [C1 I1]; [done|].
  set (s1 := with_pages (<[p := with_refcount 0 pg]> (pages s)) s) in *.
  assert (Ep1 : pages s1 !! p = Some (with_refcount 0 pg)) by apply lookup_insert_eq.
  destruct (core_set s1 ls p _ (mk_page None None None 1 0) C1 Ep1) as [C2 I2]; [done|].
  eexists _, _. split; [unfold upd; by rewrite Ep|]. fold s1. split; [unfold doalloc; by rewrite Ep1|].
  rewrite I1, insert_insert_eq in I2. split; [split; [exact C2|]|exact I2]. rewrite I2.
  by apply info_ok_held.
Qed.

(** What [pmm_allocpage] promises: the page was in none's hands and is now a
    fresh page with one reference; the others keep theirs.  [NULL] only when
    the lists of the sections asked for are empty. *)
Definition allocated (section : nat) (s : pmm_t) (ls : list (list nat)) (r : option Z) (s' : pmm_t) (ls' : list (list nat)) : Prop :=
  match r with
  | Some a => exists p b f, a = pmm_getpageaddress p /\ p ∈ mjoin ls /\ info s !! p = Some (b, 0, f) /\
      (section_of p <= section)%nat /\ info s' !! p = Some (None, 1, 0) /\ info_le (delete p (info s)) (info s')
  | None => info_le (info s) (info s') /\ forall p, p ∈ mjoin ls' -> (section < section_of p)%nat
  end.

Lemma info_le_claim I I' p x : info_le I I' -> info_le (delete p I) (<[p := x]> I').
Proof.
  intros Le q b r f [Ne E]%lookup_delete_Some. rewrite lookup_insert_ne by done. by apply Le.
Qed.

Lemma allocated_le section s ls s1 ls1 r s' ls' :
  pmm_ok s ls -> info_le (info s) (info s1) -> mjoin ls1 ⊆ mjoin ls ->
  allocated section s1 ls1 r s' ls' -> allocated section s ls r s' ls'.
Proof.
  intros Ok Le Sub. destruct r as [a|]; simpl.
  - intros (p & b & f & -> & Hp & Ei & Hs & E' & Le'). assert (Hp' : p ∈ mjoin ls) by set_solver.
    destruct (listed_info s ls Ok p Hp') as (b0 & f0 & _ & _ & E0 & _).
    exists p, b0, f0. split_and!; try done. intros q b' r' f' [Ne E]%lookup_delete_Some.
    destruct (Le _ _ _ _ E) as (r1 & E1 & L1). destruct (Le' q b' r1 f') as (r2 & E2 & L2).
    + by rewrite lookup_delete_ne.
    + exists r2. split; [done|lia].
  - intros [Le' H]. split; [by etransitivity|done].
Qed.

Lemma empty_sections s ls section :
  pmm_ok s ls -> (section < 3)%nat -> first_page (heads s) 0 section = None ->
  first_page (tails s) 3 section = None -> forall p, p ∈ mjoin ls -> (section < section_of p)%nat.
Proof.
  intros Ok Hs Fh Ft p (j & l & El & Hp)%elem_concat.
  pose proof (first_page_spec (heads s) 0 section) as Sh. rewrite Fh in Sh.
  pose proof (first_page_spec (tails s) 3 section) as St. rewrite Ft in St.
  pose proof (lookup_lt_Some _ _ _ El) as Lj. pose proof (co_len _ _ (proj1 Ok)) as Ln. pose proof (co_lists _ _ (proj1 Ok)) as D.
  apply Nat.nle_gt. intros Le. destruct (Nat.lt_ge_cases j 3).
  - destruct (free_index s ls Ok j l p) as (f & _ & Es); [done..|].
    assert (E : heads s !! (0 + j)%nat = Some None).
    { apply Sh; [lia|]. rewrite (dl_heads _ _ _ _ D), list_lookup_fmap. simpl. by rewrite El. }
    apply (head_empty s ls Ok) in E. simpl in E. simplify_eq. by apply not_elem_of_nil in Hp.
  - replace j with (3 + (j - 3))%nat in El by lia. destruct (standby_index s ls Ok _ l p El Hp) as (v & f & _ & _ & Es).
    assert (E : tails s !! (3 + (j - 3))%nat = Some None).
    { apply St; [lia|]. rewrite (dl_tails _ _ _ _ D), list_lookup_fmap. by rewrite El. }
    apply (tail_empty s ls Ok) in E. simplify_eq. by apply not_elem_of_nil in Hp.
Qed.

Lemma free_path s ls section p :
  pmm_ok s ls -> (section < 3)%nat -> first_page (heads s) 0 section = Some p -> exists s' ls',
    (s1 ← removefromfreelist p s; pg ← pages s1 !! p; _ ← passert (refcount pg =? 0); s2 ← doalloc p s1;
     Some (Some (pmm_getpageaddress p), s2)) = Some (Some (pmm_getpageaddress p), s') /\
    pmm_ok s' ls' /\ allocated section s ls (Some (pmm_getpageaddress p)) s' ls'.
Proof.
  intros Ok Hs Fh. pose proof (first_page_spec (heads s) 0 section) as Sp. rewrite Fh in Sp. destruct Sp as (i & Hi & Eh).
  destruct (head_listed s ls Ok _ _ Eh) as (l & El & Hp).
  destruct (free_index s ls Ok (0 + i) l p) as (f & Ei & Es); [simpl; lia|done..|]. simpl in Es.
  destruct (take_ok s ls Ok p ltac:(by eapply chain_elem)) as (s1 & s2 & ls2 & H1 & I1 & H2 & Ok2 & I2 & _).
  rewrite H1. cbn [mbind option_bind]. rewrite <- I1 in Ei. destruct (info_inv _ _ _ _ _ Ei) as (pg & Ep & _ & Er & _).
  rewrite Ep, I1 in *. cbn [mbind option_bind]. rewrite Er. cbn [passert Z.eqb mbind option_bind]. rewrite H2.
  exists s2, ls2. split; [done|]. split; [done|]. exists p, None, f. rewrite I2, lookup_insert_eq.
  split_and!; [done|by eapply chain_elem|done|lia|done|]. by apply info_le_claim.
Qed.

Lemma claim_path s ls section s2 ls2 p v f :
  info s !! p = Some (Some v, 0, f) -> p ∈ mjoin ls -> (section_of p <= section)%nat ->
  info_le (info s) (info s2) -> pmm_ok s2 ls2 -> info s2 !! p = Some (Some v, 1, f) -> exists s' ls',
    (ps ← upd p (with_refcount 0) (pages s2); s3 ← doalloc p (with_pages ps s2);
     Some (Some (pmm_getpageaddress p), s3)) = Some (Some (pmm_getpageaddress p), s') /\
    pmm_ok s' ls' /\ allocated section s ls (Some (pmm_getpageaddress p)) s' ls'.
Proof.
  intros Ei Hp Hs Le Ok2 Ei2.
  destruct (claim_ok s2 ls2 p v f Ok2 Ei2) as (ps & s3 & -> & H3 & Ok3 & I3). cbn [mbind option_bind]. rewrite H3.
  exists s3, ls2. split; [done|]. split; [done|].
  exists p, (Some v), f. rewrite I3, lookup_insert_eq. split_and!; try done. by apply info_le_claim.
Qed.

Lemma retry_ok s s2 ls2 p v r f :
  info s !! p = Some (Some v, 0, f) -> info_le (info s) (info s2) -> pmm_ok s2 ls2 ->
  info s2 !! p = Some (Some v, r, f) -> 1 < r -> exists s3 ls3,
    pmm_release (pmm_getpageaddress p) s2 = Some s3 /\ pmm_ok s3 ls3 /\ info_le (info s) (info s3) /\ mjoin ls3 ⊆ mjoin ls2.
Proof.
  intros Ei Le Ok2 Ei2 Gr.
  destruct (pmm_release_ok s2 ls2 Ok2 (pmm_getpageaddress p) (Some v) r f) as (s3 & ls3 & H3 & Ok3 & I3 & P3);
    [by rewrite page_of_address|lia|lia|].
  rewrite page_of_address in I3. destruct (Z.eqb_spec r 1); [lia|]. cbn [andb] in I3. simpl in P3.
  exists s3, ls3. split; [done|]. split; [done|]. split; [|by rewrite P3].
  intros q b x g E. rewrite I3. destruct (decide (q = p)) as [->|Ne].
  - rewrite lookup_insert_eq. simplify_eq. eexists. split; [done|lia].
  - rewrite lookup_insert_ne by done. by apply Le.
Qed.

Lemma pmm_allocpage_ok env section s ls :
  pmm_ok s ls -> (section < 3)%nat -> Forall (Forall (fun p => is_Some (pages s !! p))) env ->
  exists r s' ls', pmm_allocpage env section s = Some (r, s') /\ pmm_ok s' ls' /\ allocated section s ls r s' ls'.
Proof.
  revert s ls. induction env as [|e env IH]; intros s ls Ok Hs Fa.
  all: cbn [pmm_allocpage]; destruct (first_page (heads s) 0 section) as [p|] eqn:Fh;
    [destruct (free_path s ls section p Ok Hs Fh) as (s' & ls' & H); by exists (Some (pmm_getpageaddress p)), s', ls'|].
  all: destruct (first_page (tails s) 3 section) as [p|] eqn:Ft;
    [|exists None, s, ls; split; [done|]; split; [done|]; split; [done|]; by eapply empty_sections].
  - destruct (standby_attempt s ls section [] p Ok)
      as (s1 & s2 & ls2 & v & r & f & H1 & H2 & Ok2 & Ei & Ei2 & Lr & R1 & Nd & Hp & Es & Le & Sub); [done..|].
    rewrite H1. cbn [mbind option_bind]. rewrite H2. cbn [mbind option_bind].
    rewrite (takepage_ok s2 p _ _ _ Ei2 Lr Nd). rewrite (R1 eq_refl) in *. cbn [mbind option_bind].
    change ((if 1 >? 1 then EAGAIN else 0) =? EAGAIN) with false.
    destruct (claim_path s ls section s2 ls2 p v f) as (s' & ls' & H); [done..|].
    by exists (Some (pmm_getpageaddress p)), s', ls'.
  - apply Forall_cons in Fa as [Fe Fa]. destruct (standby_attempt s ls section e p Ok)
      as (s1 & s2 & ls2 & v & r & f & H1 & H2 & Ok2 & Ei & Ei2 & Lr & R1 & Nd & Hp & Es & Le & Sub); [done..|].
    rewrite H1. cbn [mbind option_bind]. rewrite H2. cbn [mbind option_bind].
    rewrite (takepage_ok s2 p _ _ _ Ei2 Lr Nd), Z.gtb_ltb. cbn [mbind option_bind].
    destruct (Z.ltb_spec 1 r) as [Gr|Gr].
    + change (EAGAIN =? EAGAIN) with true. destruct (retry_ok s s2 ls2 p v r f) as (s3 & ls3 & -> & Ok3 & Le3 & Sub3); [done..|].
      cbn [mbind option_bind]. destruct (IH s3 ls3 Ok3 Hs) as (x & s' & ls' & E & Ok' & Al).
      { eapply Forall_impl; [exact Fa|]. intros l Fl. eapply Forall_impl; [exact Fl|]. intros q. by apply info_le_live. }
      exists x, s', ls'. split; [done|]. split; [done|]. eapply allocated_le; [done|done| |done]. by etransitivity.
    + change (0 =? EAGAIN) with false. assert (r = 1) as -> by lia.
      destruct (claim_path s ls section s2 ls2 p v f) as (s' & ls' & H); [done..|].
      by exists (Some (pmm_getpageaddress p)), s', ls'.
Qed.
(** When nobody interferes, an allocation changes the page it returns and no
    other. *)
Lemma pmm_allocpage_alone section s ls :
  pmm_ok s ls -> (section < 3)%nat -> exists r s' ls',
    pmm_allocpage [] section s = Some (r, s') /\ pmm_ok s' ls' /\ mjoin ls' ⊆ mjoin ls /\
    match r with
    | None => s' = s
    | Some a => exists p b f, a = pmm_getpageaddress p /\ p ∈ mjoin ls /\ info s !! p = Some (b, 0, f) /\
        info s' = <[p := (None, 1, 0)]> (info s)
    end.
Proof.
  intros Ok Hs. cbn [pmm_allocpage]. destruct (first_page (heads s) 0 section) as [p|] eqn:Fh.
  - pose proof (first_page_spec (heads s) 0 section) as Sp. rewrite Fh in Sp. destruct Sp as (i & Hi & Eh).
    destruct (head_listed s ls Ok _ _ Eh) as (l & El & Hp). apply (chain_elem _ _ _ _ El) in Hp.
    destruct (listed_info s ls Ok p Hp) as (b & f & _ & _ & Ei & _).
    destruct (take_ok s ls Ok p Hp) as (s1 & s2 & ls2 & H1 & I1 & H2 & Ok2 & I2 & Pm).
    rewrite H1. cbn [mbind option_bind]. pose proof Ei as Ei'. rewrite <- I1 in Ei'.
    destruct (info_inv _ _ _ _ _ Ei') as (pg & Ep & _ & Er & _). rewrite Ep. cbn [mbind option_bind].
    rewrite Er. cbn [passert Z.eqb mbind option_bind]. rewrite H2.
    exists (Some (pmm_getpageaddress p)), s2, ls2. split_and!; [done|done|rewrite Pm; set_solver|].
    exists p, b, f. by rewrite I2.
  - destruct (first_page (tails s) 3 section) as [p|] eqn:Ft; [|by exists None, s, ls].
    pose proof (first_page_spec (tails s) 3 section) as Sp. rewrite Ft in Sp. destruct Sp as (i & Hi & Et).
    destruct (tail_listed s ls Ok _ _ Et) as (l & El & Hp).
    destruct (standby_index s ls Ok _ _ _ El Hp) as (v & f & Ei & Nd & _).
    destruct (internalhold_ok s ls Ok p _ _ _ Ei) as (s1 & ls1 & H1 & Ok1 & I1 & Sub1); [by right|lia|].
    assert (Ei1 : info s1 !! p = Some (Some v, 1, f)) by (rewrite I1; apply lookup_insert_eq).
    rewrite H1. cbn [mbind option_bind hold_all]. rewrite (takepage_ok s1 p _ _ _ Ei1) by (lia || done).
    cbn [mbind option_bind]. change ((if 1 >? 1 then EAGAIN else 0) =? EAGAIN) with false.
    destruct (claim_ok s1 ls1 p v f Ok1 Ei1) as (ps & s3 & -> & H3 & Ok3 & I3). cbn [mbind option_bind]. rewrite H3.
    exists (Some (pmm_getpageaddress p)), s3, ls1. split_and!; [done|done|done|].
    exists p, (Some v), f. split_and!; [done|by eapply chain_elem|done|]. by rewrite I3, I1, insert_insert_eq.
Qed.

(** ** Allocation of several pages *)

Definition flagged (s : pmm_t) (i : Z) : Prop :=
  0 <= i /\ exists pg, pages s !! Z.to_nat i = Some pg /\ has (flags pg) PAGE_FLAGS_FREE = true.

(** [size] flagged pages in a row, from [a] on, within [lo] and [hi]. *)
Definition run_at (s : pmm_t) (lo hi size a : Z) : Prop :=
  lo <= a /\ a + size <= hi /\ forall i, a <= i < a + size -> flagged s i.

Lemma scan_ok fuel s ls start page top found size :
  core s ls -> 0 <= start -> start <= page - found -> 0 <= found < size ->
  (forall i, page - found <= i < page -> flagged s i) ->
  (forall k, start <= k -> (forall i, k <= i < page -> flagged s i) -> page - k <= found) ->
  (forall a, ~ run_at s start page size a) ->
  (Z.to_nat (pagecount s - page) < fuel)%nat ->
  exists r, scan fuel s page top found size = Some r /\
    match r with
    | Some q => run_at s start (q + 1) size (q - (size - 1)) /\ q < top /\ q < pagecount s
    | None => forall a, ~ run_at s start (Z.min top (pagecount s)) size a
    end.
Proof.
  intros C S0. revert page found. induction fuel as [|fuel IH]; intros page found Sp Hf Fl Mx Nr Fu; [lia|]. cbn [scan].
  assert (Le : forall hi a, hi <= page -> ~ run_at s start hi size a).
  { intros hi a Hh (A1 & A2 & A3). apply (Nr a). split; [done|]. split; [lia|done]. }
  destruct (Z.ltb_spec page top) as [Ht|Ht]; cbn [negb]; [|exists None; split; [done|]; intros a; apply Le; lia].
  rewrite Z.geb_leb. destruct (Z.leb_spec (pagecount s) page) as [Hp|Hp];
    [exists None; split; [done|]; intros a; apply Le; lia|].
  destruct (proj2 (co_dom _ _ C (Z.to_nat page))) as [pg Ep]; [lia|]. rewrite Ep. cbn [mbind option_bind].
  destruct (has (flags pg) PAGE_FLAGS_FREE) eqn:Hpg.
  - assert (Fp : flagged s page) by (split; [lia|eauto]).
    assert (Fl' : forall i, page + 1 - (found + 1) <= i < page + 1 -> flagged s i).
    { intros i Hi. destruct (decide (i = page)) as [->|]; [done|apply Fl; lia]. }
    destruct (Z.eqb_spec (found + 1) size) as [E|E].
    + exists (Some page). split; [done|]. split; [|done]. split; [lia|]. split; [lia|]. intros i Hi. apply Fl'. lia.
    + apply IH; [lia|lia|done| | |lia].
      * intros k Hk Hi. destruct (decide (k <= page)); [|lia]. enough (page - k <= found) by lia.
        apply Mx; [done|]. intros i Hi'. apply Hi. lia.
      * intros a (A1 & A2 & A3). destruct (decide (a + size <= page)); [by apply (Le page a)|].
        enough (page - a <= found) by lia. apply Mx; [done|]. intros i Hi. apply A3. lia.
  - assert (Nf : ~ flagged s page) by (intros (_ & pg' & E' & Q); simplify_eq; congruence).
    destruct (Z.eqb_spec 0 size); [lia|]. apply IH; [lia|lia|lia| | |lia].
    + intros k Hk Hi. destruct (decide (k <= page)); [|lia]. destruct Nf. apply Hi. lia.
    + intros a (A1 & A2 & A3). destruct (decide (a + size <= page)); [by apply (Le page a)|].
      destruct (decide (a <= page)); [|lia]. destruct Nf. apply A3. lia.
Qed.

Lemma scan_sections_ok section s ls size :
  core s ls -> (section < 3)%nat -> 1 <= size -> exists r, scan_sections section s size = Some r /\
    match r with
    | Some q => exists i, (i <= section)%nat /\ run_at s (baseid i) (Z.min (topid i) (pagecount s)) size (q - (size - 1))
    | None => forall i a, (i <= section)%nat -> ~ run_at s (baseid i) (Z.min (topid i) (pagecount s)) size a
    end.
Proof.
  intros C Hs Sz.
  assert (One : forall n, (n < 3)%nat -> searchstart s !! n = Some (baseid n) /\ exists r,
    scan (S (Z.to_nat (pagecount s - baseid n))) s (baseid n) (topid n) 0 size = Some r /\
    match r with
    | Some q => run_at s (baseid n) (Z.min (topid n) (pagecount s)) size (q - (size - 1))
    | None => forall a, ~ run_at s (baseid n) (Z.min (topid n) (pagecount s)) size a
    end).
  { intros n Hn. split; [rewrite (co_search _ _ C); by destruct n as [|[|[|n]]]; [..|lia]|].
    destruct (scan_ok (S (Z.to_nat (pagecount s - baseid n))) s ls (baseid n) (baseid n) (topid n) 0 size) as (r & E & H);
      try done; try lia.
    - by destruct n as [|[|n]].
    - intros a (A1 & A2 & _). lia.
    - exists r. split; [done|]. destruct r as [q|]; [|done]. destruct H as ((A1 & A2 & A3) & ? & ?). split; [done|].
      split; [lia|done]. }
  induction section as [|n IH]; cbn [scan_sections].
  all: destruct (One _ Hs) as (-> & r & E & H); cbn [mbind option_bind]; rewrite E; cbn [mbind option_bind];
    destruct r as [q|]; [eexists; split; [done|]; eexists; split; [|exact H]; lia|].
  - exists None. split; [done|]. intros i a Hi. replace i with 0%nat by lia. apply H.
  - destruct IH as (r & Er & Hr); [lia|]. exists r. split; [done|]. destruct r as [q|].
    + destruct Hr as (i & ? & ?). exists i. split; [lia|done].
    + intros i a Hi. destruct (decide (i = S n)) as [->|]; [apply H|apply Hr; lia].
Qed.

Definition fresh_pages (n page : nat) (I : gmap nat (option Z * Z * Z)) : gmap nat (option Z * Z * Z) :=
  map_seq page (replicate n (None, 1, 0)) ∪ I.

Lemma take_pages_ok n page s ls :
  pmm_ok s ls -> (forall i, (page <= i < page + n)%nat -> flagged s (Z.of_nat i)) -> exists s' ls',
    take_pages n page s = Some s' /\ pmm_ok s' ls' /\ info s' = fresh_pages n page (info s) /\
    mjoin ls ≡ₚ seq page n ++ mjoin ls'.
Proof.
  revert page s ls. induction n as [|n IH]; intros page s ls Ok Fl.
  { exists s, ls. split; [done|]. split; [done|]. split; [|done]. unfold fresh_pages. cbn. by rewrite (left_id_L ∅ (∪)). }
  destruct (Fl page) as (_ & pg & Ep & Hf); [lia|]. rewrite Nat2Z.id in Ep.
  assert (Hp : page ∈ mjoin ls) by (eapply (io_free _ _ (proj2 Ok)); [by apply info_lookup|done]).
  destruct (take_ok s ls Ok page Hp) as (s1 & s2 & ls2 & H1 & I1 & H2 & Ok2 & I2 & Pm).
  cbn [take_pages]. rewrite H1. cbn [mbind option_bind]. rewrite H2. cbn [mbind option_bind].
  destruct (IH (S page) s2 ls2 Ok2) as (s' & ls' & E & Ok' & I' & Pm').
  { intros i Hi. destruct (Fl i) as (? & qg & Eq & Hq); [lia|]. rewrite Nat2Z.id in Eq. split; [done|]. rewrite Nat2Z.id.
    apply info_lookup in Eq. rewrite <- (lookup_insert_ne _ page i (None, 1, 0)) in Eq by lia.
    rewrite <- I2 in Eq. apply info_inv in Eq as (g & ? & _ & _ & Fg). exists g. by rewrite Fg. }
  exists s', ls'. split; [done|]. split; [done|]. split.
  - rewrite I', I2. unfold fresh_pages. simpl. rewrite <- insert_union_r, insert_union_l; [done|].
    apply map_seq_cons_disjoint.
  - rewrite Pm, Pm'. simpl. done.
Qed.
(** ** Sequences of operations *)

Inductive pmm_op :=
  | OpAlloc (env : list (list nat)) (size : Z) (section : nat)
  | OpHold (a : Z)
  | OpRelease (a : Z)
  | OpFree (a size : Z)
  | OpCache (a : Z) (b : option Z) (f : Z). (* the page cache's stores into a page it holds *)

Definition cache_store (a : Z) (b : option Z) (f : Z) (s : pmm_t) : option pmm_t :=
  ps ← upd (page_of a) (fun pg => mk_page b (freenext pg) (freeprev pg) (refcount pg) f) (pages s);
  Some (with_pages ps s).

Definition pmm_exec (o : pmm_op) (s : pmm_t) : option (option Z * pmm_t) :=
  match o with
  | OpAlloc env size section => pmm_alloc env size section s
  | OpHold a => s' ← pmm_hold a s; Some (None, s')
  | OpRelease a => s' ← pmm_release a s; Some (None, s')
  | OpFree a size => s' ← pmm_free a size s; Some (None, s')
  | OpCache a b f => s' ← cache_store a b f s; Some (None, s')
  end.

(** The callers' side of the contract, on what a page is. *)
Definition releasable (I : gmap nat (option Z * Z * Z)) (p : nat) : bool :=
  match I !! p with
  | Some (_, r, f) => (0 <? r) && negb ((r =? 1) && has f PAGE_FLAGS_DIRTY)
  | None => false
  end.

Definition pmm_legal (o : pmm_op) (s : pmm_t) : bool :=
  let I := info s in
  match o with
  | OpAlloc env size section =>
      (1 <=? size) && (section <? 3)%nat && forallb (forallb (fun p => Z.of_nat p <? pagecount s)) env
  | OpHold a =>
      match I !! page_of a with
      | Some (b, r, _) => ((0 <? r) || bool_decide (is_Some b)) && (r <? 2 ^ 64 - 1)
      | None => false
      end
  | OpRelease a => releasable I (page_of a)
  | OpFree a size =>
      (1 <=? size) && (0 <=? a) && (a mod PAGE_SIZE =? 0) &&
      forallb (releasable I) (seq (page_of a) (Z.to_nat size))
  | OpCache a b f =>
      match I !! page_of a with
      | Some (_, r, _) => (0 <? r) && negb (has f PAGE_FLAGS_FREE)
      | None => false
      end
  end.

(** The contract itself: what an operation does to the pages, whatever the
    lists look like. *)
Definition released (x : option Z * Z * Z) : option Z * Z * Z :=
  let '(b, r, f) := x in
  (b, r - 1, if (r =? 1) && negb (bool_decide (is_Some b)) then Z.lor f PAGE_FLAGS_FREE else f).

Definition pmm_spec (o : pmm_op) (I : gmap nat (option Z * Z * Z)) (r : option Z) (I' : gmap nat (option Z * Z * Z)) : Prop :=
  match o with
  | OpAlloc _ size section =>
      match r with
      | Some a => exists p, a = pmm_getpageaddress p /\ (section_of p <= section)%nat /\
          (forall i, (p <= i < p + Z.to_nat size)%nat -> exists b f, I !! i = Some (b, 0, f) /\ I' !! i = Some (None, 1, 0)) /\
          (forall q b x f, I !! q = Some (b, x, f) -> ~ (p <= q < p + Z.to_nat size)%nat ->
             exists x', I' !! q = Some (b, x', f) /\ x <= x' /\ (size <> 1 -> x' = x))
      | None => info_le I I'
      end
  | OpHold a => exists b x f, I !! page_of a = Some (b, x, f) /\ I' = <[page_of a := (b, x + 1, f)]> I
  | OpRelease a => exists x, I !! page_of a = Some x /\ I' = <[page_of a := released x]> I
  | OpFree a size => forall q, I' !! q =
      if decide (page_of a <= q < page_of a + Z.to_nat size)%nat then released <$> I !! q else I !! q
  | OpCache a b f => exists b' x f', I !! page_of a = Some (b', x, f') /\ I' = <[page_of a := (b, x, f)]> I
  end.

Fixpoint pmm_run (os : list pmm_op) (s : pmm_t) : option (list (option Z) * pmm_t) :=
  match os with
  | [] => Some ([], s)
  | o :: os' =>
      '(r, s1) ← pmm_exec o s;
      '(rs, s2) ← pmm_run os' s1;
      Some (r :: rs, s2)
  end.

Fixpoint pmm_legal_run (os : list pmm_op) (s : pmm_t) : bool :=
  match os with
  | [] => true
  | o :: os' => pmm_legal o s && match pmm_exec o s with Some (_, s1) => pmm_legal_run os' s1 | None => true end
  end.

Inductive pmm_spec_run : list pmm_op -> gmap nat (option Z * Z * Z) -> list (option Z) -> gmap nat (option Z * Z * Z) -> Prop :=
  | spec_run_nil I : pmm_spec_run [] I [] I
  | spec_run_cons o os I r I1 rs I2 :
      pmm_spec o I r I1 -> pmm_spec_run os I1 rs I2 -> pmm_spec_run (o :: os) I (r :: rs) I2.

Lemma flagged_info s ls i : pmm_ok s ls -> flagged s (Z.of_nat i) -> exists f, info s !! i = Some (None, 0, f).
Proof.
  intros Ok (_ & pg & Ep & Hf). rewrite Nat2Z.id in Ep. apply info_lookup in Ep.
  destruct (io_free _ _ (proj2 Ok) _ _ _ _ Ep Hf) as [Hp B]. rewrite B in Ep.
  destruct (listed_info s ls Ok i Hp) as (b & f & _ & _ & E & _). exists f. congruence.
Qed.

Lemma section_range i p : (i < 3)%nat -> baseid i <= Z.of_nat p < topid i -> section_of p = i.
Proof.
  intros Hi. unfold section_of. destruct i as [|[|[|i]]]; [..|lia]; cbn [baseid topid]; intros [Hb Ht];
    destruct (Z.ltb_spec (Z.of_nat p) TOP_1MB), (Z.ltb_spec (Z.of_nat p) TOP_4GB); try done; try lia;
    assert (TOP_1MB < TOP_4GB) by done; lia.
Qed.

Lemma fresh_in n page I i : (page <= i < page + n)%nat -> fresh_pages n page I !! i = Some (None, 1, 0).
Proof.
  intros Hi. unfold fresh_pages. apply lookup_union_Some_l. rewrite lookup_map_seq_Some.
  split; [lia|]. apply lookup_replicate. split; [done|lia].
Qed.

Lemma fresh_out n page I i : ~ (page <= i < page + n)%nat -> fresh_pages n page I !! i = I !! i.
Proof.
  intros Hi. unfold fresh_pages. rewrite lookup_union_r; [done|]. apply lookup_map_seq_None.
  rewrite length_replicate. lia.
Qed.

Lemma pmm_alloc_ok env size section s ls :
  pmm_ok s ls -> pmm_legal (OpAlloc env size section) s = true -> exists r s' ls',
    pmm_alloc env size section s = Some (r, s') /\ pmm_ok s' ls' /\ pmm_spec (OpAlloc env size section) (info s) r (info s').
Proof.
  intros Ok L. cbn [pmm_legal] in L. apply andb_true_iff in L as [[Sz Hs]%andb_true_iff Fe].
  apply Z.leb_le in Sz. apply Nat.ltb_lt in Hs. unfold pmm_alloc.
  destruct (Z.eqb_spec size 0); [lia|]. cbn [negb passert mbind option_bind].
  destruct (Z.eqb_spec size 1) as [->|N1].
  - destruct (pmm_allocpage_ok env section s ls Ok Hs) as (r & s' & ls' & E & Ok' & Al).
    { rewrite Forall_forall. intros l Hl. rewrite Forall_forall. intros p Hp. apply (co_dom _ _ (proj1 Ok)).
      rewrite forallb_forall in Fe. apply list_elem_of_In in Hl. specialize (Fe l Hl). rewrite forallb_forall in Fe.
      apply list_elem_of_In in Hp. specialize (Fe p Hp). by apply Z.ltb_lt. }
    exists r, s', ls'. split; [done|]. split; [done|]. destruct r as [a|]; [|apply Al].
    destruct Al as (p & b & f & -> & _ & Ei & Es & E' & Le). exists p. split; [done|]. split; [done|].
    change (Z.to_nat 1) with 1%nat. split.
    + intros i Hi. replace i with p by lia. eauto.
    + intros q b' x f' Eq Nq. destruct (Le q b' x f') as (x' & ? & ?); [rewrite lookup_delete_ne by lia; done|]. by exists x'.
  - destruct (scan_sections_ok section s ls size (proj1 Ok) Hs Sz) as (r & -> & H). cbn [mbind option_bind].
    destruct r as [q|]; [|exists None, s, ls; split; [done|]; split; [done|]; cbn; done].
    destruct H as (i & Hi & Lo & Up & Fl). set (page := q - (size - 1)) in *.
    assert (0 <= page) by (destruct (Fl page) as [? _]; lia).
    destruct (take_pages_ok (Z.to_nat size) (Z.to_nat page) s ls Ok) as (s' & ls' & -> & Ok' & I' & Pm).
    { intros k Hk. apply Fl. lia. }
    cbn [mbind option_bind]. eexists _, s', ls'. split; [done|]. split; [done|]. exists (Z.to_nat page).
    split; [unfold pmm_getpageaddress; f_equal; lia|]. split; [rewrite (section_range i); lia|]. rewrite I'. split.
    + intros k Hk. destruct (flagged_info s ls k Ok) as [f E]; [apply Fl; lia|]. rewrite fresh_in by done. eauto.
    + intros k b x f E Nk. rewrite fresh_out by done. exists x. split; [done|]. split; [lia|done].
Qed.
Lemma releasable_ok s ls a :
  pmm_ok s ls -> releasable (info s) (page_of a) = true -> exists s' ls' x,
    pmm_release a s = Some s' /\ pmm_ok s' ls' /\ info s !! page_of a = Some x /\
    info s' = <[page_of a := released x]> (info s).
Proof.
  unfold releasable. intros Ok L. destruct (info s !! page_of a) as [[[b r] f]|] eqn:E; [|done].
  apply andb_true_iff in L as [Hr%Z.ltb_lt Hd%negb_true_iff].
  destruct (pmm_release_ok s ls Ok a b r f E Hr) as (s' & ls' & H & Ok' & I' & _).
  - intros ->. done.
  - eauto 8.
Qed.

Lemma page_of_step a : 0 <= a -> page_of (a + PAGE_SIZE) = S (page_of a).
Proof.
  intros Ha. unfold page_of. pose proof (Z.div_pos a PAGE_SIZE Ha ltac:(done)).
  replace (a + PAGE_SIZE) with (a + 1 * PAGE_SIZE) by lia. rewrite Z.div_add by done. lia.
Qed.

Lemma free_loop_ok n a s ls :
  pmm_ok s ls -> 0 <= a -> forallb (releasable (info s)) (seq (page_of a) n) = true -> exists s' ls',
    free_loop n a s = Some s' /\ pmm_ok s' ls' /\
    forall q, info s' !! q = if decide (page_of a <= q < page_of a + n)%nat then released <$> info s !! q else info s !! q.
Proof.
  revert a s ls. induction n as [|n IH]; intros a s ls Ok Ha L.
  { exists s, ls. split; [done|]. split; [done|]. intros q. case_decide; [lia|done]. }
  cbn [free_loop seq forallb] in *. apply andb_true_iff in L as [L1 L2].
  destruct (releasable_ok s ls a Ok L1) as (s1 & ls1 & x & -> & Ok1 & E & I1). cbn [mbind option_bind].
  pose proof (page_of_step a Ha) as Pa.
  destruct (IH (a + PAGE_SIZE) s1 ls1 Ok1) as (s' & ls' & H & Ok' & I'); [unfold PAGE_SIZE; lia| |].
  { rewrite Pa, forallb_forall in *. intros q Hq. rewrite <- (L2 q Hq). apply in_seq in Hq.
    unfold releasable. by rewrite I1, lookup_insert_ne by lia. }
  exists s', ls'. split; [done|]. split; [done|]. intros q. rewrite I', Pa, I1.
  destruct (decide (q = page_of a)) as [->|Ne].
  - rewrite lookup_insert_eq, E. do 2 case_decide; try lia. done.
  - rewrite lookup_insert_ne by done. do 2 case_decide; try lia; done.
Qed.

Lemma pmm_exec_ok o s ls :
  pmm_ok s ls -> pmm_legal o s = true -> exists r s' ls',
    pmm_exec o s = Some (r, s') /\ pmm_ok s' ls' /\ pmm_spec o (info s) r (info s').
Proof.
  intros Ok L. destruct o as [env size section|a|a|a size|a b f]; cbn [pmm_exec].
  - by apply (pmm_alloc_ok _ _ _ s ls).
  - cbn [pmm_legal] in L. destruct (info s !! page_of a) as [[[b r] f]|] eqn:E; [|done].
    apply andb_true_iff in L as [Hb Hr%Z.ltb_lt]. apply orb_true_iff in Hb.
    destruct (internalhold_ok s ls Ok (page_of a) b r f E) as (s' & ls' & H & Ok' & I' & _); [|done|].
    { destruct Hb as [?%Z.ltb_lt|?%bool_decide_eq_true]; auto. }
    unfold pmm_hold. rewrite H. exists None, s', ls'. split; [done|]. split; [done|]. cbn. eauto 8.
  - destruct (releasable_ok s ls a Ok L) as (s' & ls' & x & -> & Ok' & E & I').
    exists None, s', ls'. split; [done|]. split; [done|]. cbn. eauto.
  - cbn [pmm_legal] in L. apply andb_true_iff in L as [[[Sz%Z.leb_le Ha%Z.leb_le]%andb_true_iff Al]%andb_true_iff Fe].
    unfold pmm_free. destruct (Z.eqb_spec size 0); [lia|]. rewrite Al. cbn [negb passert mbind option_bind].
    destruct (free_loop_ok (Z.to_nat size) a s ls Ok Ha Fe) as (s' & ls' & -> & Ok' & I').
    exists None, s', ls'. done.
  - cbn [pmm_legal] in L. destruct (info s !! page_of a) as [[[b' r] f']|] eqn:E; [|done].
    apply andb_true_iff in L as [Hr%Z.ltb_lt Hf%negb_true_iff].
    pose proof (held_unlisted s ls Ok _ _ _ _ E Hr) as Np. pose proof (ok_nodup _ _ Ok) as ND. destruct Ok as [C Io].
    pose proof (io_refcount _ _ Io _ _ _ _ E). destruct (info_inv _ _ _ _ _ E) as (pg & Ep & _ & Er & _).
    destruct (core_set s ls (page_of a) pg (mk_page b (freenext pg) (freeprev pg) (refcount pg) f) C Ep) as [C1 I1]; [done|].
    unfold cache_store, upd. rewrite Ep. eexists None, _, ls. split; [done|]. cbn [backing refcount flags] in I1.
    split; [split; [exact C1|]|cbn; rewrite Er in *; eauto 8]. rewrite I1. apply info_ok_held; [done|done|lia|done].
Qed.

(** C15. The contract of the physical page allocator: every sequence of
    allocations (of one page or several, with other threads taking references
    to cached pages meanwhile), holds, releases and frees in which callers
    respect the reference counts runs without a failed assertion, keeps the
    free and standby lists well formed, and does to the pages what the
    contract [pmm_spec] says: an allocated page was referenced by nobody and
    has exactly one reference, and nobody else loses a reference. *)
Theorem pmm_run_refines os s ls :
  pmm_ok s ls -> pmm_legal_run os s = true -> exists rs s' ls',
    pmm_run os s = Some (rs, s') /\ pmm_ok s' ls' /\ pmm_spec_run os (info s) rs (info s').
Proof.
  revert s ls. induction os as [|o os IH]; intros s ls Ok L.
  { exists [], s, ls. split; [done|]. split; [done|]. constructor. }
  cbn [pmm_legal_run pmm_run] in *. apply andb_true_iff in L as [L1 L2].
  destruct (pmm_exec_ok o s ls Ok L1) as (r & s1 & ls1 & E & Ok1 & Sp). rewrite E in *. cbn [mbind option_bind].
  destruct (IH s1 ls1 Ok1 L2) as (rs & s' & ls' & -> & Ok' & Sr).
  exists (r :: rs), s', ls'. split; [done|]. split; [done|]. by econstructor.
Qed.

(** [pmm_alloc] of several pages gives up only when no section it may use
    has that many free pages in a row (pages that [pmm_makefree] added are
    not flagged free, and do not count). *)
Theorem pmm_alloc_complete env size section s ls s' :
  pmm_ok s ls -> (section < 3)%nat -> 2 <= size -> pmm_alloc env size section s = Some (None, s') ->
  forall i a, (i <= section)%nat -> ~ run_at s (baseid i) (Z.min (topid i) (pagecount s)) size a.
Proof.
  intros Ok Hs Sz. unfold pmm_alloc. destruct (Z.eqb_spec size 0), (Z.eqb_spec size 1); try lia.
  cbn [negb passert mbind option_bind].
  destruct (scan_sections_ok section s ls size (proj1 Ok) Hs ltac:(lia)) as (r & -> & H). cbn [mbind option_bind].
  destruct r as [q|]; [|done]. destruct (take_pages _ _ s); by intros [= ].
Qed.

(** [pmm_makefree] of pages outside the allocator's hands adds them. *)
Lemma makefree_loop_ok n page s ls :
  pmm_ok s ls ->
  (forall i, (page <= i < page + n)%nat -> (i ∉ mjoin ls) /\ exists f, info s !! i = Some (None, 0, f)) ->
  exists s' ls', makefree_loop n page s = Some s' /\ pmm_ok s' ls' /\ info s' = info s /\
    forall q, q ∈ mjoin ls' <-> ((page <= q < page + n)%nat \/ q ∈ mjoin ls).
Proof.
  revert page s ls. induction n as [|n IH]; intros page s ls Ok H.
  { exists s, ls. split_and!; try done. intros q. split; [auto|]. intros [|]; [lia|done]. }
  destruct (H page) as (Np & f & E); [lia|]. destruct (info_inv _ _ _ _ _ E) as (pg & Ep & B & R & F).
  pose proof (ok_nodup _ _ Ok) as ND. destruct Ok as [C Io].
  destruct (lookup_lt_is_Some_2 ls (list_of page None)) as [l El]; [rewrite (co_len _ _ C); apply list_of_lt|].
  destruct (insertinfreelist_ok s ls page pg l C Np Ep) as (s1 & H1 & C1 & I1); [by rewrite B|].
  cbn [makefree_loop]. rewrite (co_pages _ _ C _ _ Ep). cbn [passert mbind option_bind]. rewrite H1. cbn [mbind option_bind].
  rewrite B in C1. pose proof (join_insert_perm ls _ l (page :: l) page El ltac:(done)) as Pm.
  assert (Io1 : info_ok (info s1) (<[list_of page None := page :: l]> ls)).
  { rewrite I1, <- (insert_id (info s) page (None, 0, f) E). apply info_ok_put; try done. }
  destruct (IH (S page) s1 _ (conj C1 Io1)) as (s' & ls' & E' & Ok' & I' & M').
  { intros i Hi. rewrite I1, Pm. destruct (H i) as [? ?]; [lia|]. split; [|done]. rewrite elem_of_cons. intros [->|]; [lia|done]. }
  exists s', ls'. split; [done|]. split; [done|]. split; [congruence|]. intros q. rewrite M', Pm, elem_of_cons.
  split; [intros [|[->|]]; [left|left|right]; try done; lia|intros [Hq|]; [|by right; right]].
  destruct (decide (q = page)) as [->|]; [by right; left|left; lia].
Qed.
(** ** Initialisation *)

(** A page lies in an entry of the memory map. *)
Definition in_entry (p : nat) (e : limine_memmap_entry) : Prop :=
  base e <= Z.of_nat p * PAGE_SIZE /\ Z.of_nat p * PAGE_SIZE < base e + length_ e.

Definition apart (e e' : limine_memmap_entry) : bool :=
  negb (usable e) || negb (usable e') || (base e + length_ e <=? base e') || (base e' + length_ e' <=? base e).

Fixpoint separate (es : list limine_memmap_entry) : bool :=
  match es with
  | [] => true
  | e :: es' => forallb (apart e) es' && separate es'
  end.

(** The last page whose number fits the [int] loop variables of [pmm_init]. *)
Definition MEMORY_LIMIT : Z := 0x7fffffff000.

(** What the boot loader's protocol promises (entries are sane; usable ones are
    page aligned and do not overlap), with less than 2^31 pages. *)
Definition entry_ok (e : limine_memmap_entry) : bool :=
  (0 <=? base e) && (0 <=? length_ e) && (base e + length_ e <=? MEMORY_LIMIT) &&
  (negb (usable e) || (base e mod PAGE_SIZE =? 0) && (length_ e mod PAGE_SIZE =? 0)).

(** The page array fits its entry, and is mapped above physical memory. *)
Definition memmap_ok (hhdmbase : Z) (es : list limine_memmap_entry) : bool :=
  forallb (fun e => negb (counted e) || entry_ok e) es && separate es &&
  let '(top, biggest, _) := survey es 0 0 None 0 in
  let count := ROUND_UP top PAGE_SIZE / PAGE_SIZE in
  match biggest with
  | Some (_, b) =>
      (count * SIZEOF_PAGE <=? length_ b) && (count * PAGE_SIZE <=? base b + hhdmbase) && (base b + hhdmbase <? 2 ^ 64)
  | None => false
  end.

Lemma entry_ok_spec e : entry_ok e = true ->
  0 <= base e /\ 0 <= length_ e /\ base e + length_ e <= MEMORY_LIMIT /\
  (usable e = true -> base e mod PAGE_SIZE = 0 /\ length_ e mod PAGE_SIZE = 0).
Proof.
  unfold entry_ok. intros [[[?%Z.leb_le ?%Z.leb_le]%andb_true_iff ?%Z.leb_le]%andb_true_iff Al]%andb_true_iff.
  split_and!; try done. intros U. rewrite U in Al. by apply andb_true_iff in Al as [?%Z.eqb_eq ?%Z.eqb_eq].
Qed.

Lemma survey_ok es i top biggest size :
  forallb (fun e => negb (counted e) || entry_ok e) es = true -> 0 <= top <= MEMORY_LIMIT ->
  let '(t, b, _) := survey es i top biggest size in
  top <= t <= MEMORY_LIMIT /\ (forall e, e ∈ es -> counted e = true -> base e + length_ e <= t) /\
  (b = biggest \/ exists k e, es !! k = Some e /\ usable e = true /\ b = Some ((i + k)%nat, e)).
Proof.
  revert i top biggest size. induction es as [|e es IH]; intros i top biggest size F Ht.
  { simpl. split; [lia|]. split; [by intros e ?%not_elem_of_nil|by left]. }
  cbn [forallb] in F. apply andb_true_iff in F as [Fe F]. cbn [survey].
  set (top' := if counted e && (u64 (base e + length_ e) >? top) then u64 (base e + length_ e) else top).
  assert (T : top <= top' <= MEMORY_LIMIT /\ (counted e = true -> base e + length_ e <= top')).
  { unfold top'. destruct (counted e); cbn [andb]; [|split; [lia|done]]. apply entry_ok_spec in Fe as (? & ? & ? & _).
    rewrite u64_id by (unfold is_u64, MEMORY_LIMIT in *; lia). cbn [andb]. rewrite Z.gtb_ltb.
    destruct (Z.ltb_spec top (base e + length_ e)); split; lia. }
  destruct (usable e) eqn:U.
  - set (big' := match biggest with None => Some (i, e) | Some (_, b) => if length_ e >? length_ b then Some (i, e) else biggest end).
    specialize (IH (S i) top' big' (u64 (size + length_ e)) F ltac:(lia)).
    destruct (survey es (S i) top' big' (u64 (size + length_ e))) as [[t b] z]. destruct IH as (Lt & Up & B).
    split; [lia|]. split.
    + intros x [->|Hx]%elem_of_cons Cx; [destruct T as [_ T]; specialize (T Cx); lia|by apply Up].
    + destruct B as [->|(k & x & Ek & Ux & ->)]; [|right; exists (S k), x; split; [done|]; split; [done|]; do 2 f_equal; lia].
      assert (big' = biggest \/ big' = Some (i, e)) as [->| ->] by (unfold big'; repeat case_match; auto); [by left|right].
      exists 0%nat, e. split; [done|]. split; [done|]. do 2 f_equal. lia.
  - specialize (IH (S i) top' biggest size F ltac:(lia)).
    destruct (survey es (S i) top' biggest size) as [[t b] z]. destruct IH as (Lt & Up & B).
    split; [lia|]. split.
    + intros x [->|Hx]%elem_of_cons Cx; [destruct T as [_ T]; specialize (T Cx); lia|by apply Up].
    + destruct B as [->|(k & x & Ek & Ux & ->)]; [by left|right; exists (S k), x; split; [done|]; split; [done|]; do 2 f_equal; lia].
Qed.

(** While the entries are placed, the pages not yet listed are still zero. *)
Record placing (count : Z) (s : pmm_t) (ls : list (list nat)) : Prop := {
  pl_ok : pmm_ok s ls;
  pl_count : pagecount s = count;
  pl_zero : forall p, Z.of_nat p < count -> p ∉ mjoin ls -> info s !! p = Some (None, 0, 0)
}.

Lemma place_loop_ok count n i s ls :
  placing count s ls -> Z.of_nat i + Z.of_nat n <= count -> (forall q, (i <= q < i + n)%nat -> q ∉ mjoin ls) ->
  exists s' ls', place_loop n i s = Some s' /\ placing count s' ls' /\
    forall q, q ∈ mjoin ls' <-> ((i <= q < i + n)%nat \/ q ∈ mjoin ls).
Proof.
  revert i s ls. induction n as [|n IH]; intros i s ls Pl Hn H.
  { exists s, ls. split_and!; try done. intros q. split; [auto|]. intros [|]; [lia|done]. }
  destruct Pl as [[C Io] Pc Pz]. pose proof (dl_nodup _ _ _ _ (co_lists _ _ C)) as ND.
  assert (Np : i ∉ mjoin ls) by (apply H; lia).
  pose proof (Pz i ltac:(lia) Np) as E. destruct (info_inv _ _ _ _ _ E) as (pg & Ep & B & R & F).
  destruct (core_set s ls i pg (with_flags (Z.lor (flags pg) PAGE_FLAGS_FREE) pg) C Ep) as [C1 I1]; [done|].
  cbn [place_loop]. unfold upd. rewrite Ep. cbn [mbind option_bind].
  set (s1 := with_pages _ s) in *. cbn [with_flags backing refcount flags] in I1. rewrite B, R, F in I1.
  destruct (lookup_lt_is_Some_2 ls (list_of i None)) as [l El]; [rewrite (co_len _ _ C); apply list_of_lt|].
  destruct (insertinfreelist_ok s1 ls i _ l C1 Np (lookup_insert_eq _ _ _)) as (s2 & H2 & C2 & I2); [cbn; by rewrite B|].
  rewrite H2. cbn [mbind option_bind]. cbn [with_flags backing] in C2. rewrite B in C2.
  assert (Pc2 : pagecount s2 = count).
  { revert H2. unfold insertinfreelist. intros (? & _ & (? & _ & (? & _ & (? & _ & (? & _ & [= <-])%bind_Some)%bind_Some)%bind_Some)%bind_Some)%bind_Some.
    exact Pc. }
  pose proof (join_insert_perm ls _ l (i :: l) i El ltac:(done)) as Pm. rewrite I1 in I2.
  assert (Pl2 : placing count s2 (<[list_of i None := i :: l]> ls)).
  { split; [split; [done|]|done|].
    - rewrite I2. apply info_ok_put; try done.
    - intros p Hp. rewrite Pm, elem_of_cons, I2. intros Nq. rewrite lookup_insert_ne by (intros ->; auto). auto. }
  destruct (IH (S i) s2 _ Pl2 ltac:(lia)) as (s' & ls' & E' & Pl' & M').
  { intros q Hq. rewrite Pm, elem_of_cons. intros [->|Q]; [lia|]. revert Q. apply H. lia. }
  exists s', ls'. split; [done|]. split; [done|]. intros q. rewrite M', Pm, elem_of_cons.
  split; [intros [|[->|]]; [left|left|right]; try done; lia|intros [Hq|]; [|by right; right]].
  destruct (decide (q = i)) as [->|]; [by right; left|left; lia].
Qed.
Lemma round_up_pages v : 0 <= v <= MEMORY_LIMIT -> ROUND_UP v PAGE_SIZE / PAGE_SIZE = (v + 4095) / 4096.
Proof.
  intros Hv. unfold ROUND_UP, ROUND_DOWN. unfold MEMORY_LIMIT in *. rewrite (u64_id (v + PAGE_SIZE - 1)) by (unfold is_u64, PAGE_SIZE; lia).
  replace (v + PAGE_SIZE - 1) with (v + 4095) by (unfold PAGE_SIZE; lia). unfold PAGE_SIZE.
  pose proof (Z.mod_pos_bound (v + 4095) 4096 ltac:(lia)). rewrite u64_id by (unfold is_u64; lia).
  Z.div_mod_to_equations. lia.
Qed.

Lemma place_entry_ok count big e s ls :
  placing count s ls -> 0 <= count -> entry_ok e = true -> usable e = true -> base e + length_ e <= count * PAGE_SIZE ->
  (big = true -> count * SIZEOF_PAGE <= length_ e) -> (forall p, p ∈ mjoin ls -> ~ in_entry p e) ->
  exists s' ls', place_entry count big e s = Some s' /\ placing count s' ls' /\
    forall q, q ∈ mjoin ls' <->
      (in_entry q e /\ (big = true -> base e + count * SIZEOF_PAGE <= Z.of_nat q * PAGE_SIZE) \/ q ∈ mjoin ls).
Proof.
  intros Pl Hc (B0 & L0 & Up & Al)%entry_ok_spec U Cv Fit Out. destruct (Al U) as [Ab Ae].
  unfold place_entry. set (v := if big then base e + count * SIZEOF_PAGE else base e).
  assert (Hv : base e <= v <= base e + length_ e /\ v <= MEMORY_LIMIT).
  { unfold v, SIZEOF_PAGE in *. destruct big; [specialize (Fit eq_refl)|]; lia. }
  assert (First : (if big then ROUND_UP (u64 (base e + count * SIZEOF_PAGE)) PAGE_SIZE / PAGE_SIZE else base e / PAGE_SIZE)
    = (v + 4095) / 4096).
  { unfold v in *. destruct big.
    - rewrite u64_id by (unfold is_u64, MEMORY_LIMIT in *; lia). apply round_up_pages. lia.
    - unfold PAGE_SIZE in *. Z.div_mod_to_equations. lia. }
  rewrite First. unfold PAGE_SIZE, MEMORY_LIMIT in *.
  rewrite (u64_id (base e + length_ e)) by (unfold is_u64; lia).
  assert (0 <= (v + 4095) / 4096 < 2 ^ 31) by (Z.div_mod_to_equations; lia).
  rewrite s32_small by lia. destruct (Z.ltb_spec ((v + 4095) / 4096) 0); [lia|].
  assert ((base e + length_ e) / 4096 < 2 ^ 31) by (Z.div_mod_to_equations; lia).
  destruct (Z.ltb_spec ((base e + length_ e) / 4096) (2 ^ 31)); [|lia]. cbn [passert mbind option_bind].
  set (first := Z.to_nat ((v + 4095) / 4096)). set (n := Z.to_nat ((base e + length_ e) / 4096 - (v + 4095) / 4096)).
  assert (Rg : forall q, (first <= q < first + n)%nat <->
     (in_entry q e /\ (big = true -> base e + count * SIZEOF_PAGE <= Z.of_nat q * PAGE_SIZE))).
  { intros q. trans (v <= Z.of_nat q * 4096 /\ Z.of_nat q * 4096 < base e + length_ e).
    - unfold first, n. Z.div_mod_to_equations. lia.
    - unfold in_entry, v, PAGE_SIZE. destruct big; [specialize (Fit eq_refl)|]; unfold SIZEOF_PAGE in *; split; intros H'.
      + split; [lia|]. intros _. lia.
      + destruct H' as [? H']. specialize (H' eq_refl). lia.
      + split; [lia|done].
      + lia. }
  destruct (place_loop_ok count n first s ls Pl) as (s' & ls' & E & Pl' & M).
  - unfold first, n. Z.div_mod_to_equations. lia.
  - intros q Hq%Rg Q. apply (Out q Q), Hq.
  - exists s', ls'. split; [done|]. split; [done|]. intros q. by rewrite M, Rg.
Qed.

(** The pages [place_entries] is to list. *)
Definition chosen (es : list limine_memmap_entry) (i big : nat) (count : Z) (p : nat) : Prop :=
  exists k e, es !! k = Some e /\ usable e = true /\ in_entry p e /\
    ((i + k)%nat = big -> base e + count * SIZEOF_PAGE <= Z.of_nat p * PAGE_SIZE).

Lemma apart_spec e e' p : apart e e' = true -> usable e = true -> usable e' = true -> in_entry p e -> ~ in_entry p e'.
Proof.
  unfold apart, in_entry. intros A U U'. rewrite U, U' in A. cbn [negb orb] in A. apply orb_true_iff in A as [?%Z.leb_le|?%Z.leb_le]; lia.
Qed.

Lemma chosen_cons e es i big count p :
  chosen (e :: es) i big count p <->
  (usable e = true /\ in_entry p e /\ ((i =? big)%nat = true -> base e + count * SIZEOF_PAGE <= Z.of_nat p * PAGE_SIZE))
  \/ chosen es (S i) big count p.
Proof.
  unfold chosen. split.
  - intros ([|k] & x & E & U & I & H); simpl in E.
    + left. injection E as ->. split; [done|]. split; [done|]. intros ?%Nat.eqb_eq. apply H. lia.
    + right. exists k, x. split_and!; try done. intros. apply H. lia.
  - intros [(U & I & H)|(k & x & E & U & I & H)].
    + exists 0%nat, e. split_and!; try done. intros. apply H, Nat.eqb_eq. lia.
    + exists (S k), x. split_and!; try done. intros. apply H. lia.
Qed.

Lemma place_entries_ok es i big count s ls :
  placing count s ls -> 0 <= count ->
  (forall k e, es !! k = Some e -> usable e = true -> entry_ok e = true /\ base e + length_ e <= count * PAGE_SIZE /\
     ((i + k)%nat = big -> count * SIZEOF_PAGE <= length_ e) /\ forall p, p ∈ mjoin ls -> ~ in_entry p e) ->
  separate es = true ->
  exists s' ls', place_entries es i big count s = Some s' /\ placing count s' ls' /\
    forall q, q ∈ mjoin ls' <-> (chosen es i big count q \/ q ∈ mjoin ls).
Proof.
  revert i s ls. induction es as [|e es IH]; intros i s ls Pl Hc He Sp.
  { exists s, ls. split_and!; try done. intros q. split; [auto|]. by intros [(? & ? & ? & _)|]. }
  cbn [separate place_entries] in *. apply andb_true_iff in Sp as [Sp1 Sp2]. rewrite forallb_forall in Sp1.
  destruct (usable e) eqn:U.
  - destruct (He 0%nat e eq_refl U) as (Ok & Cv & Fit & Out).
    destruct (place_entry_ok count (i =? big)%nat e s ls Pl Hc Ok U Cv) as (s1 & ls1 & -> & Pl1 & M1); [|done|].
    { intros ?%Nat.eqb_eq. apply Fit. lia. }
    cbn [mbind option_bind]. destruct (IH (S i) s1 ls1 Pl1 Hc) as (s' & ls' & E & Pl' & M'); [|done|].
    + intros k x Ex Ux. destruct (He (S k) x Ex Ux) as (Okx & Cvx & Fitx & Outx). split_and!; try done.
      * intros. apply Fitx. lia.
      * intros p [[Hp _]|Hp]%M1; [|by apply Outx].
        apply (apart_spec e x p); try done. apply Sp1, list_elem_of_In. by eapply list_elem_of_lookup_2.
    + exists s', ls'. split; [done|]. split; [done|]. intros q. rewrite M', M1, chosen_cons, U. tauto.
  - cbn [mbind option_bind]. destruct (IH (S i) s ls Pl Hc) as (s' & ls' & E & Pl' & M'); [|done|].
    + intros k x Ex Ux. destruct (He (S k) x Ex Ux) as (Okx & Cvx & Fitx & Outx). split_and!; try done.
      intros. apply Fitx. lia.
    + exists s', ls'. split; [done|]. split; [done|]. intros q. rewrite M', chosen_cons, U. split; [tauto|].
      intros [[[? _]|]|]; [done|tauto|tauto].
Qed.

Lemma separate_spec es i j e e' p :
  separate es = true -> es !! i = Some e -> es !! j = Some e' -> i <> j -> usable e = true -> usable e' = true ->
  in_entry p e -> ~ in_entry p e'.
Proof.
  revert i j. induction es as [|x es IH]; intros [|i] [|j] Sp Ei Ej Ne U U' I I'; try done;
    cbn [separate] in Sp; apply andb_true_iff in Sp as [Sp1 Sp2]; rewrite forallb_forall in Sp1; simplify_eq/=.
  - eapply (apart_spec e e' p); try done. apply Sp1, list_elem_of_In. by eapply list_elem_of_lookup_2.
  - eapply (apart_spec e' e p); try done. apply Sp1, list_elem_of_In. by eapply list_elem_of_lookup_2.
  - eapply (IH i j); try done. lia.
Qed.
Lemma placing_start count base_ top size :
  0 <= count -> count * PAGE_SIZE <= base_ ->
  placing count (mk_pmm (map_seq 0 (replicate (Z.to_nat count) zero_page)) (replicate 6 None) (replicate 6 None) 0
    (baseid <$> [0; 1; 2]%nat) count base_ top size) (replicate 6 []).
Proof.
  intros Hc Hb. set (s := mk_pmm _ _ _ _ _ _ _ _ _).
  assert (Lk : forall p pg, pages s !! p = Some pg <-> Z.of_nat p < count /\ pg = zero_page).
  { intros p pg. cbn. rewrite lookup_map_seq_Some, lookup_replicate. split; intros; [lia || (split; [lia|naive_solver])|].
    split; [lia|]. split; [naive_solver|lia]. }
  assert (In : forall p x, info s !! p = Some x -> x = (None, 0, 0)).
  { intros p x. unfold info. rewrite lookup_fmap. by intros (pg & [_ ->]%Lk & ->)%fmap_Some. }
  split; [|done|].
  - split; [split|split]; cbn [s heads tails searchstart freepagecount pagecount]; try done.
    + split; cbn [s heads tails]; [done|done| |cbn; constructor].
      intros l (k & [-> _]%lookup_replicate)%list_elem_of_lookup. done.
    + intros p pg [Hp _]%Lk. unfold PAGE_BOUNDARYCHECK. cbn. apply orb_true_iff. left. apply Z.ltb_lt. unfold PAGE_SIZE in *. lia.
    + intros p. split; [intros [pg [? _]%Lk]; done|]. intros Hp. exists zero_page. by apply Lk.
    + intros j l p [-> _]%lookup_replicate Hp. by apply not_elem_of_nil in Hp.
    + intros p b r f [= -> -> ->]%In. done.
    + intros p v f [=]%In.
    + intros p b r f [= -> -> ->]%In. lia.
  - intros p Hp _. apply (info_lookup s p zero_page). by apply Lk.
Qed.

(** Given a memory map as the boot protocol promises, [pmm_init] runs without
    a failed assertion and sets up a well-formed allocator, whose free pages are
    exactly the pages of usable memory, less those of the page array itself. *)
Theorem pmm_init_ok hhdmbase es :
  0 <= hhdmbase -> memmap_ok hhdmbase es = true -> exists s ls k b,
    pmm_init hhdmbase es = Some s /\ pmm_ok s ls /\ es !! k = Some b /\
    forall p, p ∈ mjoin ls <->
      ((exists e, e ∈ es /\ usable e = true /\ in_entry p e) /\
       ~ (base b <= Z.of_nat p * PAGE_SIZE < base b + pagecount s * SIZEOF_PAGE)).
Proof.
  intros H0 M. unfold memmap_ok, pmm_init in *. apply andb_true_iff in M as [[Fe Sp]%andb_true_iff M].
  pose proof (survey_ok es 0 0 None 0 Fe ltac:(done)) as Sv.
  destruct (survey es 0 0 None 0) as [[top biggest] size]. destruct Sv as (Ht & Up & B).
  destruct B as [->|(k & b & Ek & U & ->)]; [done|]. cbn [mbind option_bind fst snd Nat.add] in *.
  set (count := ROUND_UP top PAGE_SIZE / PAGE_SIZE) in *.
  apply andb_true_iff in M as [[Fit%Z.leb_le Ab%Z.leb_le]%andb_true_iff Aw%Z.ltb_lt].
  assert (Hc : 0 <= count /\ top <= count * PAGE_SIZE).
  { unfold count. rewrite round_up_pages by lia. unfold PAGE_SIZE. Z.div_mod_to_equations. lia. }
  destruct Hc as [C0 Ct].
  assert (Each : forall e, e ∈ es -> usable e = true -> entry_ok e = true /\ base e + length_ e <= count * PAGE_SIZE).
  { intros e He Ue. rewrite forallb_forall in Fe. assert (Ce : counted e = true) by (unfold usable, counted in *; by destruct (type e)).
    pose proof (Fe e ltac:(by apply list_elem_of_In)) as Q. rewrite Ce in Q. split; [done|]. specialize (Up e He Ce). lia. }
  destruct (Each b ltac:(by eapply list_elem_of_lookup_2) U) as [(Bb & Lb & _ & _)%entry_ok_spec _].
  rewrite (u64_id (base b + hhdmbase)) by (unfold is_u64; lia).
  destruct (place_entries_ok es 0 k count _ _ (placing_start count (base b + hhdmbase)
    (u64 (base b + hhdmbase + count * SIZEOF_PAGE)) size C0 Ab) C0) as (s' & ls' & -> & Pl & Mem); [|done|].
  { intros i e Ei Ue. destruct (Each e ltac:(by eapply list_elem_of_lookup_2) Ue) as [? ?]. split_and!; try done.
    - intros Q. simpl in Q. subst i. by simplify_eq.
    - intros p Hp. by apply not_elem_of_nil in Hp. }
  exists s', ls', k, b. split; [done|]. split; [apply Pl|]. split; [done|]. intros p. rewrite Mem, (pl_count _ _ _ Pl).
  split.
  - intros [(i & e & Ei & Ue & I & Hi)|Hp]; [|by apply not_elem_of_nil in Hp].
    split; [exists e; split_and!; try done; by eapply list_elem_of_lookup_2|]. intros Ar.
    destruct (decide (i = k)) as [->|Ne]; [simplify_eq; specialize (Hi eq_refl); lia|].
    apply (separate_spec es i k e b p Sp Ei Ek Ne Ue U I). unfold in_entry. lia.
  - intros [(e & (i & Ei)%list_elem_of_lookup & Ue & I) Ar]. left. exists i, e. split_and!; try done.
    intros Q. simpl in Q. subst i. simplify_eq. unfold in_entry in I. lia.
Qed.

(** ** Witnesses *)

Definition sample_map : list limine_memmap_entry :=
  [ mk_memmap_entry 0 0x4000 OTHER_MEMORY; mk_memmap_entry 0x4000 0x8000 USABLE;
    mk_memmap_entry 0xc000 0x4000 BOOTLOADER_RECLAIMABLE; mk_memmap_entry 0x100000 0x10000 USABLE ].

Lemma pmm_init_ok_witness : memmap_ok 0xffff800000000000 sample_map = true /\ exists s, pmm_init 0xffff800000000000 sample_map = Some s.
Proof.
  split; [vm_compute; reflexivity|].
  destruct (pmm_init_ok 0xffff800000000000 sample_map) as (s & ls & k & b & E & _); [lia|vm_compute; reflexivity|]. by exists s.
Defined.

(** Eight pages, of which pages 2 to 7 are free. *)
Definition sample_start : pmm_t :=
  mk_pmm (map_seq 0 (replicate 8 zero_page)) (replicate 6 None) (replicate 6 None) 0 (baseid <$> [0; 1; 2]%nat) 8
    0x100000 0x101000 0.

Definition sample_pmm : pmm_t := default sample_start (place_loop 6 2 sample_start).

Lemma sample_pmm_ok : exists ls, pmm_ok sample_pmm ls.
Proof.
  destruct (place_loop_ok 8 6 2 sample_start (replicate 6 [])) as (s & ls & E & Pl & _).
  - apply (placing_start 8 0x100000 0x101000 0); done.
  - done.
  - intros q _ Q. by apply not_elem_of_nil in Q.
  - exists ls. unfold sample_pmm. rewrite E. apply Pl.
Qed.

(** Three pages in a row and the three others one by one; one of these becomes
    a page of the cache on its standby list.  The next allocation wants it, and
    fails because another thread holds it; once that is released it succeeds. *)
Definition sample_ops : list pmm_op :=
  [ OpAlloc [] 3 2; OpAlloc [] 1 2; OpAlloc [] 1 0; OpAlloc [] 1 1; OpCache 0x5000 (Some 7) 0; OpRelease 0x5000;
    OpAlloc [[5%nat]] 1 2; OpRelease 0x5000; OpAlloc [] 1 2; OpHold 0x2000; OpFree 0x2000 3; OpRelease 0x2000 ].

Lemma pmm_run_refines_witness :
  pmm_legal_run sample_ops sample_pmm = true /\ exists s,
    pmm_run sample_ops sample_pmm =
      Some ([Some 0x2000; Some 0x7000; Some 0x6000; Some 0x5000; None; None; None; None; Some 0x5000; None; None; None], s).
Proof.
  split; [vm_compute; reflexivity|]. destruct sample_pmm_ok as [ls Ok].
  destruct (pmm_run_refines sample_ops sample_pmm ls Ok) as (rs & s & ls' & E & _); [vm_compute; reflexivity|].
  exists s. rewrite E. f_equal. f_equal.
  assert (Q : fst <$> pmm_run sample_ops sample_pmm = Some rs) by (by rewrite E).
  vm_compute in Q. by injection Q as <-.
Defined.

Lemma pmm_alloc_complete_witness :
  fst <$> pmm_alloc [] 7 2 sample_pmm = Some None /\ ~ run_at sample_pmm 0 8 7 1.
Proof.
  split; [vm_compute; reflexivity|]. destruct sample_pmm_ok as [ls Ok].
  destruct (pmm_alloc [] 7 2 sample_pmm) as [[r s']|] eqn:E; [|by vm_compute in E].
  assert (r = None) as -> by (assert (Q : fst <$> pmm_alloc [] 7 2 sample_pmm = Some r) by (by rewrite E);
    vm_compute in Q; congruence).
  apply (pmm_alloc_complete [] 7 2 sample_pmm ls s' Ok ltac:(lia) ltac:(lia) E 0%nat 1 ltac:(lia)).
Defined.
