(* ===== verification/Slab.v ===== *)
(** * The slab allocator ([mm/slab.c], [include/kernel/slab.h])

    A cache hands out objects of one size from slabs, each on one of the lists
    [full], [partial] and [empty].  The free objects of a slab are chained
    through pointer words: behind each object for small ones ("direct"), in the
    slab's own page for large ones ("indirect").  The model keeps the lists, the
    pointer words and all address arithmetic.  A slab is named by the number of
    the page whose end holds its [slab_t]; the results of the [vmm_map] calls
    are arguments. *)

From stdpp Require Import functions.
From S2P Require Import Prelude DList.

Definition SLAB_INDIRECT_CUTOFF : Z := 512.
Definition SLAB_INDIRECT_COUNT : Z := 16.
Definition SIZEOF_SLAB : Z := 40.
Definition SIZEOF_PTR : Z := 8.
Definition SLAB_PAGE_OFFSET : Z := PAGE_SIZE - SIZEOF_SLAB.
Definition SLAB_DATA_SIZE : Z := SLAB_PAGE_OFFSET.

Record slab_t := mk_slab {
  next : option nat;
  prev : option nat;
  used : Z;
  free : option Z;
  base : Z
}.

#[export, refine] Instance slab_linked : Linked slab_t (Z * option Z * Z) := {
  lnext := next;
  lprev := prev;
  payload s := (used s, free s, base s);
  with_next v s := mk_slab v (prev s) (used s) (free s) (base s);
  with_prev v s := mk_slab (next s) v (used s) (free s) (base s)
}.
Proof. all: done. Defined.

Definition with_free (u : Z) (f : option Z) (s : slab_t) : slab_t := mk_slab (next s) (prev s) u f (base s).

(** A cache with the slabs and the pointer words it owns. *)
Record scache_t := mk_scache {
  full : option nat;
  partial : option nat;
  empty : option nat;
  size : Z;
  truesize : Z;
  alignment : Z;
  slabobjcount : Z;
  slabs : gmap nat slab_t;
  words : gmap Z (option Z)
}.

Definition with_lists (f p e : option nat) (ss : gmap nat slab_t) (c : scache_t) : scache_t :=
  mk_scache f p e (size c) (truesize c) (alignment c) (slabobjcount c) ss (words c).

Definition with_memory (ss : gmap nat slab_t) (w : gmap Z (option Z)) (c : scache_t) : scache_t :=
  mk_scache (full c) (partial c) (empty c) (size c) (truesize c) (alignment c) (slabobjcount c) ss w.

Definition direct (c : scache_t) : bool := size c <? SLAB_INDIRECT_CUTOFF.

Definition page_address (n : nat) : Z := Z.of_nat n * PAGE_SIZE.
Definition slab_page (a : Z) : nat := Z.to_nat (a / PAGE_SIZE).

(** Constructors and destructors act on the contents of the objects, all of
    which are in [M]; they are given the cache's object size and the object's
    address, and leave other objects alone.  An object is [clean] when a client
    can be given it. *)
Class Objects (M C : Type) := {
  contents : Z -> M -> C;
  ctor : Z -> Z -> M -> M;
  dtor : Z -> Z -> M -> M;
  clean : Z -> C -> Prop;
  ctor_clean : forall z o m, clean z (contents o (ctor z o m));
  ctor_frame : forall z o o' m, o <> o' -> contents o' (ctor z o m) = contents o' m;
  dtor_clean : forall z o m, clean z (contents o (dtor z o m));
  dtor_frame : forall z o o' m, o <> o' -> contents o' (dtor z o m) = contents o' m
}.

(** A cache without constructor and destructor. *)
#[export, refine] Instance plain_objects : Objects unit unit := {
  contents _ _ := tt;
  ctor _ _ m := m;
  dtor _ _ m := m;
  clean _ _ := True
}.
Proof. all: done. Defined.

Section slab.
Context {M C : Type} `{!Objects M C}.

(** The loops of [initdirect] and [initindirect], which run once for each of
    the [slabobjcount] objects. *)
Fixpoint initdirect (n : nat) (c : scache_t) (base offset : Z) (fr : option Z) (w : gmap Z (option Z)) (m : M)
    : option Z * gmap Z (option Z) * M :=
  match n with
  | O => (fr, w, m)
  | S n' =>
      let m := ctor (size c) (base + offset) m in
      let freenext := base + offset + size c in
      initdirect n' c base (offset + truesize c) (Some freenext) (<[freenext := fr]> w) m
  end.

Fixpoint initindirect (n : nat) (c : scache_t) (base objbase offset : Z) (fr : option Z) (w : gmap Z (option Z)) (m : M)
    : option Z * gmap Z (option Z) * M :=
  match n with
  | O => (fr, w, m)
  | S n' =>
      let m := ctor (size c) (objbase + offset) m in
      let freenext := base + offset / truesize c * SIZEOF_PTR in
      initindirect n' c base objbase (offset + truesize c) (Some freenext) (<[freenext := fr]> w) m
  end.

(** [page] and [objbase] are what [vmm_map] returned for the slab's page and,
    for an indirect cache, for the objects. *)
Definition growcache (page objbase : option Z) (c : scache_t) (m : M) : option (bool * scache_t * M) :=
  match page with
  | None => Some (false, c, m)
  | Some a =>
      let count := Z.to_nat (slabobjcount c) in
      let init :=
        if direct c then Some (initdirect count c a 0 None (words c) m, 0)
        else match objbase with
             | None => None
             | Some ob => Some (initindirect count c a ob 0 None (words c) m, ob)
             end in
      match init with
      | None => Some (false, c, m)
      | Some (fr, w, m', ob) =>
          let n := slab_page a in
          ss ← push_front n (empty c) (<[n := mk_slab None None 0 fr ob]> (slabs c));
          Some (true, with_lists (full c) (partial c) (Some n) ss (with_memory (slabs c) w c), m')
      end
  end.

Definition takeobject (c : scache_t) (n : nat) : option (option Z * scache_t) :=
  s ← slabs c !! n;
  match free s with
  | None => Some (None, c)
  | Some objend =>
      nf ← words c !! objend;
      let obj :=
        if direct c then objend - size c
        else base s + (objend - page_address n) / SIZEOF_PTR * truesize c in
      Some (Some obj, with_memory (<[n := with_free (used s + 1) nf s]> (slabs c)) (<[objend := None]> (words c)) c)
  end.

(** The search of [returnobject] through [full], then [partial]. *)
Fixpoint find_slab (fuel : nat) (c : scache_t) (inpartial : bool) (cur : option nat) (obj : Z) : option (option nat) :=
  match fuel with
  | O => None
  | S fuel' =>
      match cur with
      | None => Some None
      | Some n =>
          s ← slabs c !! n;
          let top := base s + slabobjcount c * truesize c in
          if (base s <=? obj) && (obj <? top) then Some (Some n)
          else if bool_decide (next s = None) && negb inpartial then find_slab fuel' c true (partial c) obj
          else find_slab fuel' c inpartial (next s) obj
      end
  end.

(** The slab an object belongs to, and the object's pointer word. *)
Definition locate (c : scache_t) (obj : Z) : option (nat * Z) :=
  if direct c then
    let freeptr := obj + size c in
    v ← words c !! freeptr;
    _ ← passert (bool_decide (v = None));
    Some (slab_page obj, freeptr)
  else
    let inpartial := bool_decide (full c = None) in
    r ← find_slab (S (base.size (slabs c))) c inpartial (if inpartial then partial c else full c) obj;
    n ← r; (* __assert(slab) *)
    s ← slabs c !! n;
    Some (n, page_address n + (obj - base s) / truesize c * SIZEOF_PTR).

Definition returnobject (c : scache_t) (obj : Z) (m : M) : option (nat * scache_t * M) :=
  '(n, freeptr) ← locate c obj;
  let m := dtor (size c) obj m in
  s ← slabs c !! n;
  Some (n, with_memory (<[n := with_free (used s - 1) (Some freeptr) s]> (slabs c)) (<[freeptr := free s]> (words c)) c, m).

(** A slab at the head of a list goes to the head of another, as in
    [slab_allocate]. *)
Definition move_head (n : nat) (to : option nat) (ss : gmap nat slab_t) : option (gmap nat slab_t) :=
  s ← ss !! n;
  ss ← set_prev (next s) None ss;
  ss ← set_prev to (Some n) ss;
  upd n (fun s => with_prev None (with_next to s)) ss.

Definition slab_allocate (page objbase : option Z) (c : scache_t) (m : M) : option (option Z * scache_t * M) :=
  let slab := match partial c with Some n => Some n | None => empty c end in
  '(slab, c, m) ← (match slab with
                   | Some n => Some (Some n, c, m)
                   | None =>
                       '(ok, c, m) ← growcache page objbase c m;
                       Some (if ok : bool then empty c else None, c, m)
                   end);
  match slab with
  | None => Some (None, c, m)
  | Some n =>
      '(ret, c) ← takeobject c n;
      s ← slabs c !! n;
      if bool_decide (empty c = Some n) then
        ss ← move_head n (partial c) (slabs c);
        Some (ret, with_lists (full c) (Some n) (next s) ss c, m)
      else if used s =? slabobjcount c then
        ss ← move_head n (full c) (slabs c);
        Some (ret, with_lists (Some n) (next s) (empty c) ss c, m)
      else Some (ret, c, m)
  end.

Definition slab_free (addr : Z) (c : scache_t) (m : M) : option (scache_t * M) :=
  '(n, c, m) ← returnobject c addr m;
  s ← slabs c !! n;
  c ← (if used s =? 0 then
         ss ← unlink n (slabs c);
         let p := match prev s with None => next s | Some _ => partial c end in
         ss ← push_front n (empty c) ss;
         Some (with_lists (full c) p (Some n) ss c)
       else Some c);
  s ← slabs c !! n;
  c ← (if used s =? slabobjcount c - 1 then
         ss ← unlink n (slabs c);
         let f := match prev s with None => next s | Some _ => full c end in
         ss ← push_front n (partial c) ss;
         Some (with_lists f (Some n) (empty c) ss c)
       else Some c);
  Some (c, m).

(** The fields [slab_newcache] fills in. *)
Definition newcache (sz alignment : Z) : scache_t :=
  let alignment := if alignment =? 0 then 8 else alignment in
  let freeptrsize := if sz <? SLAB_INDIRECT_CUTOFF then SIZEOF_PTR else 0 in
  let truesize := ROUND_UP (u64 (sz + freeptrsize)) alignment in
  mk_scache None None None sz truesize alignment
    (if sz <? SLAB_INDIRECT_CUTOFF then SLAB_DATA_SIZE / truesize else SLAB_INDIRECT_COUNT) ∅ ∅.

(** [purge]: unmapping a slab removes it; [done] counts up to [maxcount]. *)
Fixpoint purge (maxcount : nat) (slab : option nat) (c : scache_t) : option scache_t :=
  match maxcount with
  | O => Some c
  | S maxcount' =>
      match slab with
      | None => Some c
      | Some n =>
          s ← slabs c !! n;
          ss ← set_prev (next s) None (slabs c);
          let ss := delete n ss in
          let slab := empty c in
          purge maxcount' slab (with_lists (full c) (partial c) (next s) ss c)
      end
  end.
End slab.

(** [sizeof(scache_t)]: a mutex of five words and nine words. *)
Definition selfcache (sizeof_scache : Z) : scache_t :=
  let ts := ROUND_UP (sizeof_scache + SIZEOF_PTR) 8 in
  mk_scache None None None sizeof_scache ts 8 (SLAB_DATA_SIZE / ts) ∅ ∅.

Definition slab_newcache (page : option Z) (sz alignment : Z) (self : scache_t) : option (option (Z * scache_t) * scache_t) :=
  '(r, self, _) ← slab_allocate page None self tt;
  match r with
  | None => Some (None, self)
  | Some a => Some (Some (a, newcache sz alignment), self)
  end.

(** [cache] is the address of the cache's structure in [selfcache]. *)
Definition slab_freecache (maxcount : nat) (cache : Z) (c self : scache_t) : option (scache_t * scache_t) :=
  _ ← passert (bool_decide (partial c = None));
  _ ← passert (bool_decide (full c = None));
  c ← purge maxcount (empty c) c;
  '(self, _) ← slab_free cache self tt;
  Some (c, self).
(** ** Geometry

    Where the pointer words and the objects of a slab lie. *)

Definition objects (c : scache_t) : nat := Z.to_nat (slabobjcount c).

Definition slot (c : scache_t) (n i : nat) : Z :=
  if direct c then page_address n + Z.of_nat i * truesize c + size c else page_address n + Z.of_nat i * SIZEOF_PTR.

Definition object (c : scache_t) (b : Z) (n i : nat) : Z :=
  if direct c then page_address n + Z.of_nat i * truesize c else b + Z.of_nat i * truesize c.

Record geo (c : scache_t) : Prop := {
  g_size : 0 < size c;
  g_true : size c + (if direct c then SIZEOF_PTR else 0) <= truesize c;
  g_count : 2 <= slabobjcount c;
  g_fit : slabobjcount c * (if direct c then truesize c else SIZEOF_PTR) <= SLAB_DATA_SIZE
}.

(** The parameters of a cache, apart from its state. *)
Definition same_params (c c' : scache_t) : Prop :=
  size c' = size c /\ truesize c' = truesize c /\ slabobjcount c' = slabobjcount c.

Lemma index_fits t k i : 0 <= t -> (i < Z.to_nat k)%nat -> 0 <= Z.of_nat i * t /\ Z.of_nat i * t + t <= k * t.
Proof. intros. assert (Z.of_nat i + 1 <= k) by lia. nia. Qed.

Lemma slot_bounds c n i : geo c -> (i < objects c)%nat ->
  page_address n <= slot c n i < page_address n + PAGE_SIZE.
Proof.
  intros [Sz Tr _ Fit] Hi. unfold slot. unfold SLAB_DATA_SIZE, SLAB_PAGE_OFFSET, SIZEOF_SLAB, SIZEOF_PTR in *.
  destruct (direct c) in *.
  - pose proof (index_fits (truesize c) _ _ ltac:(lia) Hi). lia.
  - pose proof (index_fits 8 _ _ ltac:(lia) Hi). lia.
Qed.

Lemma same_page n n' x : page_address n <= x < page_address n + PAGE_SIZE ->
  page_address n' <= x < page_address n' + PAGE_SIZE -> n = n'.
Proof. unfold page_address, PAGE_SIZE. lia. Qed.

Lemma slot_inj c n i n' i' : geo c -> (i < objects c)%nat -> (i' < objects c)%nat ->
  slot c n i = slot c n' i' -> n = n' /\ i = i'.
Proof.
  intros G Hi Hi' E. assert (n = n') as <-.
  { apply (same_page n n' (slot c n i)); [by apply slot_bounds|rewrite E; by apply slot_bounds]. }
  split; [done|]. unfold slot in E. pose proof (g_true _ G). pose proof (g_size _ G). unfold SIZEOF_PTR in *.
  destruct (direct c) in *; [|lia]. assert (0 < truesize c) by lia. nia.
Qed.

Lemma slab_page_of n x : page_address n <= x < page_address n + PAGE_SIZE -> slab_page x = n.
Proof. unfold slab_page, page_address, PAGE_SIZE. intros. Z.div_mod_to_equations. lia. Qed.

(** The pointer word tells the object, and the object its pointer word. *)
Lemma object_of_slot c b n i : geo c -> (i < objects c)%nat ->
  object c b n i =
    (if direct c then slot c n i - size c else b + (slot c n i - page_address n) / SIZEOF_PTR * truesize c).
Proof.
  intros G Hi. unfold object, slot. destruct (direct c); [lia|].
  replace (page_address n + Z.of_nat i * SIZEOF_PTR - page_address n) with (Z.of_nat i * SIZEOF_PTR) by lia.
  by rewrite Z.div_mul.
Qed.

Lemma object_bounds c b n i : geo c -> (i < objects c)%nat ->
  (if direct c then page_address n else b) <= object c b n i /\
  object c b n i + truesize c <= (if direct c then page_address n else b) + slabobjcount c * truesize c.
Proof.
  intros G Hi. pose proof (g_true _ G). pose proof (g_size _ G). unfold SIZEOF_PTR in *.
  pose proof (index_fits (truesize c) _ _ ltac:(destruct (direct c) in *; lia) Hi).
  unfold object. destruct (direct c); split; nia.
Qed.

(** ** The chain of free objects of a slab *)

Fixpoint fchain (c : scache_t) (w : gmap Z (option Z)) (n : nat) (f : option Z) (l : list nat) : Prop :=
  match l with
  | [] => f = None
  | i :: l' => f = Some (slot c n i) /\ exists nx, w !! slot c n i = Some nx /\ fchain c w n nx l'
  end.

Lemma fchain_ext c w w' n f l :
  (forall i, i ∈ l -> w' !! slot c n i = w !! slot c n i) -> fchain c w n f l -> fchain c w' n f l.
Proof.
  revert f. induction l as [|i l IH]; intros f E F; [done|]. destruct F as (-> & nx & Ew & F).
  split; [done|]. exists nx. rewrite (E i) by set_solver. split; [done|]. apply IH; [|done]. set_solver.
Qed.

(** The state of slab [n], whose free objects are [fl]. *)
Record slab_inv (c : scache_t) (w : gmap Z (option Z)) (n : nat) (s : slab_t) (fl : list nat) : Prop := {
  si_chain : fchain c w n (free s) fl;
  si_nodup : NoDup fl;
  si_lt : forall i, i ∈ fl -> (i < objects c)%nat;
  si_used : used s = slabobjcount c - Z.of_nat (length fl);
  si_word : forall i, (i < objects c)%nat -> i ∉ fl -> w !! slot c n i = Some None
}.

Lemma slab_inv_frame c w n s fl n' i x :
  geo c -> n <> n' -> (i < objects c)%nat -> slab_inv c w n s fl -> slab_inv c (<[slot c n' i := x]> w) n s fl.
Proof.
  intros G Ne Hi [Ch ND Lt Us Wd].
  assert (Neq : forall j, (j < objects c)%nat -> slot c n' i <> slot c n j).
  { intros j Hj E. destruct (slot_inj _ _ _ _ _ G Hi Hj E). congruence. }
  split; try done.
  - eapply fchain_ext; [|exact Ch]. intros j Hj. apply lookup_insert_ne. auto.
  - intros j Hj Nj. rewrite lookup_insert_ne by auto. auto.
Qed.

Lemma slab_inv_take c w n s i fl :
  geo c -> slab_inv c w n s (i :: fl) -> exists nx, free s = Some (slot c n i) /\ w !! slot c n i = Some nx /\
    slab_inv c (<[slot c n i := None]> w) n (with_free (used s + 1) nx s) fl.
Proof.
  intros G [(Fr & nx & Ew & Ch) ND Lt Us Wd]. exists nx. split; [done|]. split; [done|].
  apply NoDup_cons in ND as [Ni ND]. assert (Hi : (i < objects c)%nat) by (apply Lt; set_solver).
  assert (Neq : forall j, (j < objects c)%nat -> j <> i -> slot c n i <> slot c n j).
  { intros j Hj N E. destruct (slot_inj _ _ _ _ _ G Hi Hj E). congruence. }
  split; try done.
  - eapply fchain_ext; [|exact Ch]. intros j Hj. apply lookup_insert_ne, Neq; [apply Lt; set_solver|]. intros ->. done.
  - intros j Hj. apply Lt. set_solver.
  - cbn. rewrite Us. simpl length. lia.
  - intros j Hj Nj. destruct (decide (j = i)) as [->|]; [apply lookup_insert_eq|].
    rewrite lookup_insert_ne by auto. apply Wd; set_solver.
Qed.

Lemma slab_inv_give c w n s i fl :
  geo c -> slab_inv c w n s fl -> (i < objects c)%nat -> i ∉ fl ->
  slab_inv c (<[slot c n i := free s]> w) n (with_free (used s - 1) (Some (slot c n i)) s) (i :: fl).
Proof.
  intros G [Ch ND Lt Us Wd] Hi Ni.
  assert (Neq : forall j, (j < objects c)%nat -> j <> i -> slot c n i <> slot c n j).
  { intros j Hj N E. destruct (slot_inj _ _ _ _ _ G Hi Hj E). congruence. }
  split.
  - split; [done|]. exists (free s). rewrite lookup_insert_eq. split; [done|].
    eapply fchain_ext; [|exact Ch]. intros j Hj. apply lookup_insert_ne, Neq; [by apply Lt|]. intros ->. done.
  - by apply NoDup_cons.
  - intros j [->|Hj]%elem_of_cons; [done|by apply Lt].
  - cbn. rewrite Us. simpl length. lia.
  - intros j Hj [N1 N2]%not_elem_of_cons. rewrite lookup_insert_ne by auto. auto.
Qed.

(** All this depends on the parameters of the cache only. *)
Section params.
Context (c c' : scache_t) (Sp : same_params c c').

Lemma direct_params : direct c' = direct c.
Proof. destruct Sp as (Es & _). unfold direct. by rewrite Es. Qed.

Lemma objects_params : objects c' = objects c.
Proof. destruct Sp as (_ & _ & Ec). unfold objects. by rewrite Ec. Qed.

Lemma slot_params n i : slot c' n i = slot c n i.
Proof. destruct Sp as (Es & Et & _). unfold slot. by rewrite direct_params, Es, Et. Qed.

Lemma object_params b n i : object c' b n i = object c b n i.
Proof. destruct Sp as (_ & Et & _). unfold object. by rewrite direct_params, Et. Qed.

Lemma geo_params : geo c -> geo c'.
Proof.
  intros [Gs Gt Gc Gf]. pose proof direct_params as Ed. destruct Sp as (Es & Et & Ec).
  split; rewrite ?Ed, ?Es, ?Et, ?Ec; done.
Qed.

Lemma slab_inv_params w n s fl : slab_inv c w n s fl -> slab_inv c' w n s fl.
Proof.
  intros [Ch ND Lt Us Wd]. pose proof objects_params as Eo.
  split; rewrite ?Eo; try done; [|by destruct Sp as (_ & _ & ->)|intros i; rewrite slot_params; apply Wd].
  revert Ch. generalize (free s). clear - Sp. induction fl as [|i l IH]; intros f; simpl; [done|]. rewrite slot_params.
  intros (-> & nx & E & Ch). split; [done|]. exists nx. split; [done|]. by apply IH.
Qed.
End params.

Lemma free_length c w n s fl : slab_inv c w n s fl -> (length fl <= objects c)%nat.
Proof.
  intros [_ ND Lt _ _]. rewrite <- (length_seq (objects c) 0). apply NoDup_incl_length; [by apply NoDup_ListNoDup|].
  intros i Hi%list_elem_of_In%Lt. apply in_seq. lia.
Qed.

(** ** The invariant of a cache *)

Section inv.
Context {M C : Type} `{!Objects M C}.

Record cells (c : scache_t) (m : M) (F : nat -> list nat) : Prop := {
  ce_geo : geo c;
  ce_slab : forall n s, slabs c !! n = Some s -> slab_inv c (words c) n s (F n);
  ce_base : forall n s n' s', direct c = false -> slabs c !! n = Some s -> slabs c !! n' = Some s' -> n <> n' ->
    base s + slabobjcount c * truesize c <= base s' \/ base s' + slabobjcount c * truesize c <= base s;
  ce_clean : forall n s i, slabs c !! n = Some s -> i ∈ F n -> clean (size c) (contents (object c (base s) n i) m)
}.

Definition lists (c : scache_t) (lf lp le : list nat) : Prop :=
  (exists tails, dlists (slabs c) [full c; partial c; empty c] tails [lf; lp; le]) /\
  forall n, is_Some (slabs c !! n) -> n ∈ lf ++ lp ++ le.

(** How the list of a slab depends on the number of its free objects. *)
Definition placed (c : scache_t) (F : nat -> list nat) (lf lp le : list nat) : Prop :=
  (forall n, n ∈ lf -> F n = []) /\
  (forall n, n ∈ lp -> (0 < length (F n) < objects c)%nat) /\
  (forall n, n ∈ le -> length (F n) = objects c).

Definition allocated (c : scache_t) (F : nat -> list nat) (o : Z) : Prop :=
  exists n s i, slabs c !! n = Some s /\ (i < objects c)%nat /\ (i ∉ F n) /\ o = object c (base s) n i.

(** All objects of the cache, handed out or not. *)
Definition owned (c : scache_t) (o : Z) : Prop := allocated c (fun _ => []) o.

(** The same slabs, with the objects where they were. *)
Definition same_bases (c c' : scache_t) : Prop := forall n, base <$> slabs c !! n = base <$> slabs c' !! n.

Lemma owned_bases c c' o : same_params c c' -> same_bases c c' -> owned c' o -> owned c o.
Proof.
  intros Pr Sb (n & s & i & E & Hi & Ni & ->). pose proof (Sb n) as Q. rewrite E in Q.
  destruct (slabs c !! n) as [s0|] eqn:E0; [|done]. injection Q as Q. exists n, s0, i.
  by rewrite (object_params _ _ Pr), Q, <- (objects_params _ _ Pr).
Qed.

Lemma same_payload_bases c c' : same_payload (slabs c) (slabs c') -> same_bases c c'.
Proof. intros Sp n. specialize (Sp n). destruct (slabs c !! n), (slabs c' !! n); simplify_eq/=; congruence. Qed.

(** The cache has handed out the objects [A], and the others are clean. *)
Definition cache_rel (c : scache_t) (m : M) (A : gset Z) : Prop :=
  exists lf lp le F, cells c m F /\ lists c lf lp le /\ placed c F lf lp le /\ forall o, o ∈ A <-> allocated c F o.

Lemma object_inj c m F n s i n' s' i' :
  cells c m F -> slabs c !! n = Some s -> slabs c !! n' = Some s' -> (i < objects c)%nat -> (i' < objects c)%nat ->
  object c (base s) n i = object c (base s') n' i' -> n = n' /\ i = i'.
Proof.
  intros Ce Es Es' Hi Hi' E. pose proof (ce_geo _ _ _ Ce) as G.
  pose proof (object_bounds c (base s) n i G Hi) as B. pose proof (object_bounds c (base s') n' i' G Hi') as B'.
  pose proof (g_true _ G) as Tr. pose proof (g_size _ G) as Sz. pose proof (g_fit _ G) as Fit.
  unfold SLAB_DATA_SIZE, SLAB_PAGE_OFFSET, SIZEOF_SLAB, SIZEOF_PTR in *.
  assert (n = n') as <-.
  { destruct (decide (n = n')); [done|]. destruct (direct c) eqn:D in *.
    - apply (same_page n n' (object c (base s) n i)); lia.
    - destruct (ce_base _ _ _ Ce n s n' s' D Es Es'); [done|lia|lia]. }
  split; [done|]. assert (s' = s) as -> by congruence. unfold object in E. destruct (direct c) in *; assert (0 < truesize c) by lia; nia.
Qed.

Lemma allocated_not_free c m F n s i :
  cells c m F -> slabs c !! n = Some s -> i ∈ F n -> ~ allocated c F (object c (base s) n i).
Proof.
  intros Ce Es Hi (n' & s' & j & Es' & Hj & Nj & E).
  destruct (object_inj c m F n s i n' s' j Ce Es Es') as [-> ->]; try done.
  eapply (si_lt _ _ _ _ _ (ce_slab _ _ _ Ce _ _ Es)), Hi.
Qed.
End inv.
(** ** Moving slabs between the lists *)

Lemma slabs_move (h : gmap nat slab_t) heads tails ls j k l1 n l2 l' :
  dlists h heads tails ls -> ls !! j = Some (l1 ++ n :: l2) -> ls !! k = Some l' -> j <> k ->
  exists s h1 h2 tails2, h !! n = Some s /\ unlink n h = Some h1 /\ push_front n (hdo l' None) h1 = Some h2 /\
    dlists h2 (<[k := Some n]> (match prev s with Some _ => heads | None => <[j := next s]> heads end)) tails2
      (<[k := n :: l']> (<[j := l1 ++ l2]> ls)) /\ same_payload h h2.
Proof. exact (dlists_move (N := slab_t) h heads tails ls j k l1 n l2 l'). Qed.

Lemma move_head_ok (h : gmap nat slab_t) heads tails ls j k n l l' :
  dlists h heads tails ls -> ls !! j = Some (n :: l) -> ls !! k = Some l' -> j <> k ->
  exists s h2 tails2, h !! n = Some s /\ next s = hdo l None /\ move_head n (hdo l' None) h = Some h2 /\
    dlists h2 (<[k := Some n]> (<[j := next s]> heads)) tails2 (<[k := n :: l']> (<[j := l]> ls)) /\ same_payload h h2.
Proof.
  intros D El El' Ne. destruct (slabs_move h heads tails ls j k [] n l l' D El El' Ne) as (s & h1 & h2 & ts & Es & U & P & D2 & S).
  assert (Pv : prev s = None /\ next s = hdo l None).
  { pose proof (dl_seg _ _ _ _ D (n :: l) ltac:(by eapply list_elem_of_lookup_2)) as [(s' & Es' & Pv & Nx) _].
    rewrite Es in Es'. by injection Es' as <-. }
  destruct Pv as [Pv Nx]. rewrite Pv in D2. exists s, h2, ts. split; [done|]. split; [done|]. split; [|done].
  unfold move_head. rewrite Es. cbn [mbind option_bind].
  assert (U' : set_prev (next s) None h = Some h1).
  { unfold unlink in U. rewrite Es in U. cbn [mbind option_bind] in U. change (lprev s) with (prev s) in U.
    rewrite Pv in U. exact U. }
  rewrite U'. cbn [mbind option_bind]. rewrite set_prev_upd_comm; [exact P|].
  intros E. assert (Hn : n ∈ l') by (destruct l'; simplify_eq/=; set_solver).
  apply Ne. eapply (chain_disjoint ls j k (n :: l) l' n); try done; [apply D|set_solver].
Qed.

Section ops.
Context {M C : Type} `{!Objects M C}.
Implicit Types (c : scache_t) (m : M) (F : nat -> list nat).

(** What the cells say does not depend on the links. *)
Lemma cells_links c c' m F :
  cells c m F -> same_params c c' -> words c' = words c -> same_payload (slabs c) (slabs c') -> cells c' m F.
Proof.
  intros [G Sl Bs Cl] Pr Ew Sp.
  assert (Lk : forall n s', slabs c' !! n = Some s' -> exists s, slabs c !! n = Some s /\ payload s = payload s').
  { intros n s' E. pose proof (Sp n) as Q. rewrite E in Q. destruct (slabs c !! n) as [s|]; [|done].
    injection Q as Q. exists s. split; [done|]. cbn. congruence. }
  split.
  - by eapply geo_params.
  - intros n s' (s & E & [= Q1 Q2 Q3])%Lk. eapply slab_inv_params; [done|].
    destruct (Sl n s E) as [Ch ND Lt Us Wd]. rewrite Ew. split; rewrite <- ?Q1, <- ?Q2; done.
  - intros n s1 n' s2. rewrite (direct_params _ _ Pr). destruct Pr as (_ & -> & ->).
    intros D (s & E & [= _ _ Q])%Lk (s' & E' & [= _ _ Q'])%Lk Ne. rewrite <- Q, <- Q'. by eapply Bs.
  - intros n s' i (s & E & [= _ _ Q])%Lk Hi. rewrite (object_params _ _ Pr), <- Q. destruct Pr as (-> & _). by eapply Cl.
Qed.

Lemma allocated_links c c' F o :
  same_params c c' -> same_payload (slabs c) (slabs c') -> allocated c F o <-> allocated c' F o.
Proof.
  intros Pr Sp. unfold allocated. pose proof (objects_params _ _ Pr) as Eo. pose proof (object_params _ _ Pr) as Eob.
  split; intros (n & s & i & E & Hi & Ni & ->); pose proof (Sp n) as Q; rewrite E in Q.
  - destruct (slabs c' !! n) as [s'|] eqn:E'; [|done]. injection Q as _ _ Q. exists n, s', i. by rewrite Eo, Eob, Q.
  - destruct (slabs c !! n) as [s'|] eqn:E'; [|done]. injection Q as _ _ Q. exists n, s', i. by rewrite <- Eo, <- Eob, Q.
Qed.

Lemma cells_set c m m' F n s u f x i fl :
  cells c m F -> slabs c !! n = Some s -> (i < objects c)%nat ->
  slab_inv c (<[slot c n i := x]> (words c)) n (with_free u f s) fl ->
  (forall n' s' j, slabs c !! n' = Some s' -> j ∈ F n' -> (n' <> n \/ j ∈ fl) -> clean (size c) (contents (object c (base s') n' j) m')) ->
  (forall j, j ∈ fl -> j ∉ F n -> clean (size c) (contents (object c (base s) n j) m')) ->
  cells (with_memory (<[n := with_free u f s]> (slabs c)) (<[slot c n i := x]> (words c)) c) m' (<[n := fl]> F).
Proof.
  intros [G Sl Bs Cl] Es Hi Inv Cl1 Cl2.
  assert (Lk : forall n' s', <[n := with_free u f s]> (slabs c) !! n' = Some s' ->
     exists s0, slabs c !! n' = Some s0 /\ base s' = base s0 /\ (n' = n -> s' = with_free u f s) /\ (n' <> n -> s0 = s')).
  { intros n' s' [[<- <-]|[Ne E]]%lookup_insert_Some; [by exists s|exists s'; split_and!; congruence]. }
  split.
  - by apply (geo_params c).
  - intros n' s' (s0 & E0 & _ & Q1 & Q2)%Lk. cbn [words with_memory]. destruct (decide (n' = n)) as [->|Ne].
    + rewrite (Q1 eq_refl), fn_lookup_insert. by apply (slab_inv_params c).
    + rewrite fn_lookup_insert_ne by done. specialize (Q2 Ne). subst s0.
      apply (slab_inv_params c); [done|]. by apply slab_inv_frame; [..|apply Sl].
  - intros n1 s1 n2 s2 D (s1' & E1 & B1 & _)%Lk (s2' & E2 & B2 & _)%Lk Ne. rewrite B1, B2. by eapply (Bs n1 s1' n2 s2').
  - intros n' s' j (s0 & E0 & B & _)%Lk Hj. rewrite B. destruct (decide (n' = n)) as [->|Ne].
    + rewrite fn_lookup_insert in Hj. assert (s0 = s) as -> by congruence.
      destruct (decide (j ∈ F n)); [by apply Cl1; auto|by apply Cl2].
    + rewrite fn_lookup_insert_ne in Hj by done. by apply Cl1; auto.
Qed.

Lemma takeobject_ok c m F n s i fl :
  cells c m F -> slabs c !! n = Some s -> F n = i :: fl -> exists nx,
    let c' := with_memory (<[n := with_free (used s + 1) nx s]> (slabs c)) (<[slot c n i := None]> (words c)) c in
    takeobject c n = Some (Some (object c (base s) n i), c') /\ cells c' m (<[n := fl]> F).
Proof.
  intros Ce Es EF. pose proof (ce_geo _ _ _ Ce) as G. pose proof (ce_slab _ _ _ Ce _ _ Es) as Inv. rewrite EF in Inv.
  assert (Hi : (i < objects c)%nat) by (apply (si_lt _ _ _ _ _ Inv); set_solver).
  destruct (slab_inv_take _ _ _ _ _ _ G Inv) as (nx & Fr & Ew & Inv'). exists nx. cbn zeta. split.
  - unfold takeobject. rewrite Es. cbn [mbind option_bind]. rewrite Fr, Ew. cbn [mbind option_bind].
    by rewrite <- (object_of_slot c (base s) n i G Hi).
  - eapply cells_set; try done.
    + intros n' s' j E' Hj _. by eapply (ce_clean _ _ _ Ce).
    + intros j Hj Nj. rewrite EF in Nj. set_solver.
Qed.
End ops.
(** ** Setting up a slab *)

Section grow.
Context {M C : Type} `{!Objects M C}.
Implicit Types (c : scache_t) (m : M) (F : nat -> list nat).

(** The two loops in terms of slots and objects. *)
Fixpoint init_slots (k : nat) (c : scache_t) (n : nat) (b : Z) (i : nat) (fr : option Z) (w : gmap Z (option Z)) (m : M)
    : option Z * gmap Z (option Z) * M :=
  match k with
  | O => (fr, w, m)
  | S k' => init_slots k' c n b (S i) (Some (slot c n i)) (<[slot c n i := fr]> w) (ctor (size c) (object c b n i) m)
  end.

Lemma initdirect_slots k c n b i fr w m :
  direct c = true ->
  initdirect k c (page_address n) (Z.of_nat i * truesize c) fr w m = init_slots k c n b i fr w m.
Proof.
  intros D. revert i fr w m. induction k as [|k IH]; intros i fr w m; [done|]. cbn [initdirect init_slots].
  rewrite <- IH. unfold slot, object. rewrite D. f_equal. lia.
Qed.

Lemma initindirect_slots k c n b i fr w m :
  direct c = false -> 0 < truesize c ->
  initindirect k c (page_address n) b (Z.of_nat i * truesize c) fr w m = init_slots k c n b i fr w m.
Proof.
  intros D T. revert i fr w m. induction k as [|k IH]; intros i fr w m; [done|]. cbn [initindirect init_slots].
  rewrite <- IH. unfold slot, object. rewrite D, Z.div_mul by lia. f_equal. lia.
Qed.

Lemma init_slots_ok k c n b i fr w m fr' w' m' :
  geo c -> (i + k <= objects c)%nat -> fchain c w n fr (rev (seq 0 i)) ->
  (forall j, (j < i)%nat -> clean (size c) (contents (object c b n j) m)) ->
  (forall j j', (j < objects c)%nat -> (j' < objects c)%nat -> object c b n j = object c b n j' -> j = j') ->
  init_slots k c n b i fr w m = (fr', w', m') ->
  fchain c w' n fr' (rev (seq 0 (i + k))) /\
  (forall j, (j < i + k)%nat -> clean (size c) (contents (object c b n j) m')) /\
  (forall x, (forall j, (j < objects c)%nat -> x <> slot c n j) -> w' !! x = w !! x) /\
  (forall x, (forall j, (j < objects c)%nat -> x <> object c b n j) -> contents x m' = contents x m).
Proof.
  intros G. revert i fr w m. induction k as [|k IH]; intros i fr w m Hi Ch Cl Inj E; cbn [init_slots] in E.
  { injection E as <- <- <-. rewrite Nat.add_0_r. done. }
  apply IH in E as (Ch' & Cl' & Fw & Fm); [|lia| | |done].
  - rewrite <- Nat.add_succ_comm. split; [done|]. split; [done|]. split.
    + intros x Hx. rewrite Fw by done. apply lookup_insert_ne. intros Q. apply (Hx i); [lia|done].
    + intros x Hx. rewrite Fm by done. apply ctor_frame. intros Q. apply (Hx i); [lia|done].
  - rewrite seq_S, rev_app_distr. cbn [rev app Nat.add]. split; [done|]. exists fr. rewrite lookup_insert_eq. split; [done|].
    eapply fchain_ext; [|exact Ch]. intros j Hj%list_elem_of_In%in_rev%in_seq. apply lookup_insert_ne. intros Q.
    apply slot_inj in Q as [_ Q]; [lia|done|lia|lia].
  - intros j Hj. destruct (decide (j = i)) as [->|Ne]; [apply ctor_clean|].
    rewrite ctor_frame; [apply Cl; lia|]. intros Q. apply Inj in Q; lia.
Qed.

(** What the virtual memory manager's answers must satisfy: the slab's page and
    the objects' memory are not in use. *)
Definition fresh_memory (page objbase : option Z) (c : scache_t) : Prop :=
  match page with
  | None => True
  | Some a =>
      0 <= a /\ a mod PAGE_SIZE = 0 /\ slabs c !! slab_page a = None /\
      match objbase with
      | None => True
      | Some b => direct c = true \/
          map_Forall (fun _ s => b + slabobjcount c * truesize c <= base s \/ base s + slabobjcount c * truesize c <= b) (slabs c)
      end
  end.

#[global] Instance fresh_memory_dec page objbase c : Decision (fresh_memory page objbase c).
Proof. unfold fresh_memory. destruct page, objbase; apply _. Defined.

(** Where [growcache] puts new objects. *)
Definition grown (page objbase : option Z) (c : scache_t) (o : Z) : Prop :=
  exists a, (if direct c then page else objbase) = Some a /\ a <= o < a + slabobjcount c * truesize c.

Lemma page_address_of a : 0 <= a -> a mod PAGE_SIZE = 0 -> page_address (slab_page a) = a.
Proof. unfold page_address, slab_page, PAGE_SIZE. intros. Z.div_mod_to_equations. lia. Qed.

Lemma lists_fresh c lf lp le n : lists c lf lp le -> slabs c !! n = None -> n ∉ lf ++ lp ++ le.
Proof.
  intros [[ts D] _] E Hn. destruct (dlists_live _ _ _ _ n D) as [s Es]; [cbn; by rewrite app_nil_r|congruence].
Qed.

Lemma grow_cells c m F a b :
  cells c m F -> 0 <= a -> a mod PAGE_SIZE = 0 -> slabs c !! slab_page a = None ->
  (direct c = false -> map_Forall (fun _ s => b + slabobjcount c * truesize c <= base s \/ base s + slabobjcount c * truesize c <= b) (slabs c)) ->
  exists fr w m', init_slots (objects c) c (slab_page a) b 0 None (words c) m = (fr, w, m') /\
    cells (with_memory (<[slab_page a := mk_slab None None 0 fr b]> (slabs c)) w c) m' (<[slab_page a := rev (seq 0 (objects c))]> F) /\
    forall o, ~ grown (Some a) (Some b) c o -> contents o m' = contents o m.
Proof.
  intros Ce A0 Am An Bf. pose proof (ce_geo _ _ _ Ce) as G. set (n := slab_page a) in *.
  assert (Inj : forall j j', (j < objects c)%nat -> (j' < objects c)%nat -> object c b n j = object c b n j' -> j = j').
  { intros j j' _ _. unfold object. pose proof (g_true _ G). pose proof (g_size _ G). unfold SIZEOF_PTR in *.
    destruct (direct c) in *; assert (0 < truesize c) by lia; nia. }
  destruct (init_slots (objects c) c n b 0 None (words c) m) as [[fr w] m'] eqn:E. exists fr, w, m'. split; [done|].
  apply init_slots_ok in E as (Ch & Cl & Fw & Fm); try done; [|intros j Hj; lia]. cbn [Nat.add] in *.
  assert (Out : forall o, ~ grown (Some a) (Some b) c o -> contents o m' = contents o m).
  { intros o No. apply Fm. intros j Hj ->. apply No. exists (if direct c then a else b).
    split; [by destruct (direct c)|]. pose proof (object_bounds c b n j G Hj) as Bo. 
    assert (Ea : page_address n = a) by (by apply page_address_of). rewrite Ea in Bo. pose proof (g_true _ G). pose proof (g_size _ G). unfold SIZEOF_PTR in *.
    destruct (direct c) in *; lia. }
  split; [|done].
  assert (Lk : forall k s, <[n := mk_slab None None 0 fr b]> (slabs c) !! k = Some s ->
     (k = n /\ s = mk_slab None None 0 fr b) \/ (k <> n /\ slabs c !! k = Some s)).
  { intros k s [[<- <-]|[? ?]]%lookup_insert_Some; auto. }
  split.
  - by apply (geo_params c).
  - intros k s [[-> ->]|[Ne Ek]]%Lk; apply (slab_inv_params c); try done.
    + rewrite fn_lookup_insert. split; try done.
      * apply NoDup_ListNoDup, NoDup_rev, seq_NoDup.
      * intros i Hi%list_elem_of_In%in_rev%in_seq. lia.
      * cbn. rewrite length_rev, length_seq. unfold objects. pose proof (g_count _ G). lia.
      * intros i Hi Ni. destruct Ni. apply list_elem_of_In. rewrite <- in_rev. apply in_seq. lia.
    + rewrite fn_lookup_insert_ne by done. destruct (ce_slab _ _ _ Ce _ _ Ek) as [Ch0 ND Lt Us Wd].
      assert (Fk : forall i, (i < objects c)%nat -> w !! slot c k i = words c !! slot c k i).
      { intros i Hi. apply Fw. intros j Hj Q. apply slot_inj in Q as [? _]; done. }
      split; try done; [eapply fchain_ext; [|exact Ch0]; auto|]. intros i Hi Ni. cbn [words with_memory]. rewrite Fk; auto.
  - intros k s k' s' D [[-> ->]|[Ne Ek]]%Lk [[-> ->]|[Ne' Ek']]%Lk Nk; cbn; try done.
    + destruct (Bf D _ _ Ek'); lia.
    + destruct (Bf D _ _ Ek); lia.
    + by eapply (ce_base _ _ _ Ce).
  - intros k s i [[-> ->]|[Ne Ek]]%Lk Hi.
    + rewrite fn_lookup_insert in Hi. apply list_elem_of_In, in_rev, in_seq in Hi. apply Cl. lia.
    + rewrite fn_lookup_insert_ne in Hi by done. pose proof (ce_clean _ _ _ Ce _ _ _ Ek Hi) as Q.
      change (object _ (base s) k i) with (object c (base s) k i). cbn [size with_memory]. rewrite Fm; [done|].
      intros j Hj Eo. pose proof (si_lt _ _ _ _ _ (ce_slab _ _ _ Ce _ _ Ek) i Hi) as Hi'.
      pose proof (object_bounds c (base s) k i G Hi') as B1. pose proof (object_bounds c b n j G Hj) as B2.
      pose proof (g_true _ G). pose proof (g_size _ G). pose proof (g_fit _ G).
      unfold SLAB_DATA_SIZE, SLAB_PAGE_OFFSET, SIZEOF_SLAB, SIZEOF_PTR in *. destruct (direct c) eqn:D in *.
      * apply Ne. apply (same_page k n (object c (base s) k i)); lia.
      * destruct (Bf eq_refl _ _ Ek); lia.
Qed.
End grow.
(** ** Allocation *)

Section allocate.
Context {M C : Type} `{!Objects M C}.
Implicit Types (c : scache_t) (m : M) (F : nat -> list nat) (A : gset Z).

Lemma lists_set c lf lp le n s u f w :
  lists c lf lp le -> slabs c !! n = Some s -> lists (with_memory (<[n := with_free u f s]> (slabs c)) w c) lf lp le.
Proof.
  intros [[ts D] Dm] Es. split.
  - exists ts. split; try apply D. intros l Hl. apply (dseg_links (slabs c)); [|by apply D]. intros x nd Hx En. cbn.
    destruct (decide (x = n)) as [->|Ne]; [|exists nd; by rewrite lookup_insert_ne].
    rewrite lookup_insert_eq. assert (nd = s) as -> by congruence. eauto.
  - intros k. cbn. rewrite lookup_insert_is_Some. intros [->|[_ ?]]; apply Dm; eauto.
Qed.

Lemma lists_lookup c lf lp le n : lists c lf lp le -> n ∈ lf ++ lp ++ le -> exists s, slabs c !! n = Some s.
Proof. intros [[ts D] _] Hn. eapply dlists_live; [exact D|]. cbn. by rewrite app_nil_r. Qed.

Lemma lists_heads c lf lp le :
  lists c lf lp le -> full c = hdo lf None /\ partial c = hdo lp None /\ empty c = hdo le None /\ NoDup (lf ++ lp ++ le).
Proof.
  intros [[ts D] _]. pose proof (dl_heads _ _ _ _ D) as [= H1 H2 H3]. split_and!; try done.
  pose proof (dl_nodup _ _ _ _ D) as ND. cbn in ND. by rewrite app_nil_r in ND.
Qed.

(** Taking object [i] of slab [n] changes the handed out objects. *)
Lemma allocated_take c c' m F n s i fl u f o :
  cells c m F -> same_params c c' -> slabs c !! n = Some s -> F n = i :: fl -> NoDup (i :: fl) -> (i < objects c)%nat ->
  slabs c' = <[n := with_free u f s]> (slabs c) ->
  allocated c' (<[n := fl]> F) o <-> o = object c (base s) n i \/ allocated c F o.
Proof.
  intros Ce Pr Es EF ND Hi Ess. unfold allocated. apply NoDup_cons in ND as [Ni ND].
  rewrite (objects_params _ _ Pr), Ess. setoid_rewrite (object_params _ _ Pr). split.
  - intros (k & s' & j & [[<- <-]|[Ne Ek]]%lookup_insert_Some & Hj & Nj & ->).
    + rewrite fn_lookup_insert in Nj. destruct (decide (j = i)) as [->|]; [by left|right].
      exists n, s, j. rewrite EF. set_solver.
    + rewrite fn_lookup_insert_ne in Nj by done. right. by exists k, s', j.
  - intros [->|(k & s' & j & Ek & Hj & Nj & ->)].
    + exists n, (with_free u f s), i. rewrite lookup_insert_eq, fn_lookup_insert. done.
    + destruct (decide (k = n)) as [->|Ne].
      * exists n, (with_free u f s), j. rewrite lookup_insert_eq, fn_lookup_insert. rewrite EF in Nj.
        assert (s' = s) as -> by congruence. split_and!; try done. set_solver.
      * exists k, s', j. by rewrite lookup_insert_ne, fn_lookup_insert_ne.
Qed.

Lemma head_ne (l' : list nat) n : n ∉ l' -> bool_decide (hdo l' None = Some n) = false.
Proof. intros Hn. apply bool_decide_false. destruct l'; simpl; [done|]. intros [= ->]. set_solver. Qed.

(** The part of [slab_allocate] that follows the choice of a slab. *)
Definition finish_allocate (n : nat) (c : scache_t) (m : M) : option (option Z * scache_t * M) :=
  '(ret, c) ← takeobject c n;
  s ← slabs c !! n;
  if bool_decide (empty c = Some n) then
    ss ← move_head n (partial c) (slabs c);
    Some (ret, with_lists (full c) (Some n) (next s) ss c, m)
  else if used s =? slabobjcount c then
    ss ← move_head n (full c) (slabs c);
    Some (ret, with_lists (Some n) (next s) (empty c) ss c, m)
  else Some (ret, c, m).

Lemma slab_allocate_unfold page objbase c m :
  slab_allocate page objbase c m =
    match (match partial c with Some n => Some n | None => empty c end) with
    | Some n => finish_allocate n c m
    | None =>
        '(ok, c, m) ← growcache page objbase c m;
        match (if ok : bool then empty c else None) with
        | None => Some (None, c, m)
        | Some n => finish_allocate n c m
        end
    end.
Proof.
  unfold slab_allocate. destruct (match partial c with Some n => Some n | None => empty c end); [done|].
  destruct (growcache page objbase c m) as [[[ok c'] m']|]; [|done]. cbn [mbind option_bind]. done.
Qed.

Lemma lists_move c lf lp le lf' lp' le' f p e ss :
  lists c lf lp le -> (exists ts, dlists ss [f; p; e] ts [lf'; lp'; le']) -> same_payload (slabs c) ss ->
  lf' ++ lp' ++ le' ≡ₚ lf ++ lp ++ le -> lists (with_lists f p e ss c) lf' lp' le'.
Proof.
  intros [_ Dm] Ds Sp Pm. split; [done|]. intros n [s Es]. cbn in Es. rewrite Pm. apply Dm.
  pose proof (Sp n) as Q. rewrite Es in Q. destruct (slabs c !! n); eauto. done.
Qed.

Lemma set_bases c n s u f w : slabs c !! n = Some s -> same_bases c (with_memory (<[n := with_free u f s]> (slabs c)) w c).
Proof.
  intros Es k. cbn. destruct (decide (k = n)) as [->|]; [by rewrite lookup_insert_eq, Es|by rewrite lookup_insert_ne].
Qed.

Lemma bases_trans c c1 c' : same_bases c c1 -> same_payload (slabs c1) (slabs c') -> same_bases c c'.
Proof. intros H1 H2%same_payload_bases n. by rewrite H1. Qed.

Lemma take_setup c m F lf lp le n i fl :
  cells c m F -> lists c lf lp le -> F n = i :: fl -> n ∈ lf ++ lp ++ le ->
  exists s c1 s1, slabs c !! n = Some s /\ takeobject c n = Some (Some (object c (base s) n i), c1) /\ same_params c c1 /\
    full c1 = full c /\ partial c1 = partial c /\ empty c1 = empty c /\
    slabs c1 !! n = Some s1 /\ used s1 = slabobjcount c - Z.of_nat (length fl) /\
    cells c1 m (<[n := fl]> F) /\ lists c1 lf lp le /\ same_bases c c1 /\
    forall c', same_params c c' -> same_payload (slabs c1) (slabs c') -> forall o,
      allocated c' (<[n := fl]> F) o <-> o = object c (base s) n i \/ allocated c F o.
Proof.
  intros Ce Li EF Hn. destruct (lists_lookup c lf lp le n Li Hn) as [s Es].
  pose proof (ce_slab _ _ _ Ce _ _ Es) as Inv. rewrite EF in Inv. pose proof (si_nodup _ _ _ _ _ Inv) as NF.
  assert (Hi : (i < objects c)%nat) by (apply (si_lt _ _ _ _ _ Inv); set_solver).
  destruct (takeobject_ok c m F n s i fl Ce Es EF) as (nx & T & Ce1). cbn zeta in T, Ce1.
  eexists s, _, _. split; [done|]. split; [exact T|]. do 4 (split; [done|]). split; [apply lookup_insert_eq|].
  split; [cbn; rewrite (si_used _ _ _ _ _ Inv); simpl length; lia|]. split; [done|]. split; [by apply lists_set|].
  split; [by apply set_bases|]. intros c' Pr Sp o. rewrite <- (allocated_links (with_memory _ _ c) c') by done. by eapply allocated_take.
Qed.

Lemma placed_other c F n fl lf lp le :
  placed c F lf lp le -> n ∉ lf ++ lp ++ le -> placed c (<[n := fl]> F) lf lp le.
Proof.
  intros (P1 & P2 & P3) Nn. split; [|split]; intros k Hk; (rewrite fn_lookup_insert_ne by set_solver);
    [by apply P1|by apply P2|by apply P3].
Qed.

Lemma placed_params c c' F lf lp le : same_params c c' -> placed c F lf lp le -> placed c' F lf lp le.
Proof. intros Pr. unfold placed. by rewrite (objects_params _ _ Pr). Qed.

Lemma objects_count c : geo c -> Z.of_nat (objects c) = slabobjcount c /\ (2 <= objects c)%nat.
Proof. intros G. unfold objects. pose proof (g_count _ G). lia. Qed.

(** What a successful allocation from slab [n] means. *)
Definition gives (c : scache_t) (m : M) (F : nat -> list nat) (n i : nat) (fl : list nat) : Prop :=
  exists s c' lf' lp' le', slabs c !! n = Some s /\ finish_allocate n c m = Some (Some (object c (base s) n i), c', m) /\
    same_params c c' /\ cells c' m (<[n := fl]> F) /\ lists c' lf' lp' le' /\ placed c' (<[n := fl]> F) lf' lp' le' /\ same_bases c c' /\
    forall o, allocated c' (<[n := fl]> F) o <-> o = object c (base s) n i \/ allocated c F o.

(** The slab is the head of [partial], and may become full. *)
Lemma finish_partial c m F lf lp le n i fl :
  cells c m F -> lists c lf (n :: lp) le -> placed c F lf (n :: lp) le -> F n = i :: fl -> gives c m F n i fl.
Proof.
  intros Ce Li Pl EF. destruct (lists_heads _ _ _ _ Li) as (Hf & Hp & He & ND).
  destruct (take_setup c m F lf (n :: lp) le n i fl Ce Li EF) as
    (s & c1 & s1 & Es & T & Pr1 & Fc & Pc & Ec & Es1 & Us & Ce1 & Li1 & Sb & Al); [set_solver|].
  destruct (objects_count c (ce_geo _ _ _ Ce)) as [Oc G2].
  assert (Pm : lf ++ (n :: lp) ++ le ≡ₚ n :: lf ++ lp ++ le) by (cbn; by rewrite <- Permutation_middle).
  rewrite Pm in ND. apply NoDup_cons in ND as [Nn ND].
  assert (Oth : placed c (<[n := fl]> F) lf lp le).
  { apply placed_other; [|done]. destruct Pl as (P1 & P2 & P3). split; [done|split; [|done]]. set_solver. }
  destruct Pl as (_ & P2 & _). specialize (P2 n ltac:(set_solver)). rewrite EF in P2. simpl length in P2.
  unfold gives, finish_allocate. rewrite T. cbn [mbind option_bind]. rewrite Es1. cbn [mbind option_bind].
  rewrite Ec, He, (head_ne le n) by set_solver. rewrite Us. replace (slabobjcount c1) with (slabobjcount c) by (by destruct Pr1 as (_ & _ & ->)).
  destruct (Z.eqb_spec (slabobjcount c - Z.of_nat (length fl)) (slabobjcount c)) as [Ef|Nf].
  - destruct Li1 as [[ts D] Dm1].
    destruct (move_head_ok _ _ _ _ 1 0 n lp lf D eq_refl eq_refl ltac:(lia)) as (s1' & ss & ts2 & Es1' & Nx & Mv & D2 & Sp).
    rewrite Es1 in Es1'. injection Es1' as <-. rewrite Fc, Hf, Mv. cbn [mbind option_bind].
    eexists s, _, (n :: lf), lp, le. do 3 (split; [done|]). split; [by eapply cells_links|]. split; [|split; [|split; [by eapply bases_trans|by apply Al]]].
    + eapply (lists_move c1); [by split; [by exists ts|]| |done|by rewrite Pm]. exists ts2. rewrite Ec, He in D2. exact D2.
    + assert (fl = []) as -> by (destruct fl; [done|simpl in *; lia]). apply (placed_params c); [done|].
      destruct Oth as (O1 & O2). split; [|done]. intros k [->|Hk]%elem_of_cons; [apply fn_lookup_insert|by apply O1].
  - exists s, c1, lf, (n :: lp), le. do 5 (split; [done|]). split; [|split; [done|by apply Al]]. apply (placed_params c); [done|].
    destruct Oth as (O1 & O2 & O3). split; [done|]. split; [|done].
    intros k [->|Hk]%elem_of_cons; [rewrite fn_lookup_insert; lia|by apply O2].
Qed.

(** The slab is the head of [empty], and becomes the only partial one. *)
Lemma finish_empty c m F lf le n i fl :
  cells c m F -> lists c lf [] (n :: le) -> placed c F lf [] (n :: le) -> F n = i :: fl -> gives c m F n i fl.
Proof.
  intros Ce Li Pl EF. destruct (lists_heads _ _ _ _ Li) as (Hf & Hp & He & ND).
  destruct (take_setup c m F lf [] (n :: le) n i fl Ce Li EF) as
    (s & c1 & s1 & Es & T & Pr1 & Fc & Pc & Ec & Es1 & Us & Ce1 & Li1 & Sb & Al); [set_solver|].
  destruct (objects_count c (ce_geo _ _ _ Ce)) as [Oc G2].
  assert (Pm : lf ++ [] ++ (n :: le) ≡ₚ n :: lf ++ [] ++ le) by (cbn; by rewrite <- Permutation_middle).
  rewrite Pm in ND. apply NoDup_cons in ND as [Nn ND].
  assert (Oth : placed c (<[n := fl]> F) lf [] le).
  { apply placed_other; [|done]. destruct Pl as (P1 & P2 & P3). split; [done|split; [done|]]. set_solver. }
  destruct Pl as (_ & _ & P3). specialize (P3 n ltac:(set_solver)). rewrite EF in P3. simpl length in P3.
  unfold gives, finish_allocate. rewrite T. cbn [mbind option_bind]. rewrite Es1. cbn [mbind option_bind].
  rewrite Ec, He, Pc, Hp. cbn [hdo]. rewrite bool_decide_true by done. destruct Li1 as [[ts D] Dm1].
  destruct (move_head_ok _ _ _ _ 2 1 n le [] D eq_refl eq_refl ltac:(lia)) as (s1' & ss & ts2 & Es1' & Nx & Mv & D2 & Sp).
  rewrite Es1 in Es1'. injection Es1' as <-. cbn [hdo] in Mv. rewrite Mv. cbn [mbind option_bind].
  eexists s, _, lf, [n], le. do 3 (split; [done|]). split; [by eapply cells_links|]. split; [|split; [|split; [by eapply bases_trans|by apply Al]]].
  - eapply (lists_move c1); [by split; [by exists ts|]| |done|by rewrite Pm; cbn; rewrite <- Permutation_middle].
    exists ts2. cbn in D2. exact D2.
  - apply (placed_params c); [done|]. destruct Oth as (O1 & O2 & O3). split; [done|]. split; [|done].
    intros k ->%list_elem_of_singleton. rewrite fn_lookup_insert. lia.
Qed.
End allocate.
Section contract.
Context {M C : Type} `{!Objects M C}.
Implicit Types (c : scache_t) (m : M) (F : nat -> list nat) (A : gset Z).

(** [growcache], when it gets its memory. *)
Lemma growcache_ok c m F lf lp le a objbase :
  cells c m F -> lists c lf lp le -> placed c F lf lp le -> fresh_memory (Some a) objbase c ->
  (direct c = false -> is_Some objbase) ->
  let n := slab_page a in
  let F' := <[n := rev (seq 0 (objects c))]> F in
  exists c' m', growcache (Some a) objbase c m = Some (true, c', m') /\ same_params c c' /\ cells c' m' F' /\
    lists c' lf lp (n :: le) /\ placed c' F' lf lp (n :: le) /\ (forall o, allocated c' F' o <-> allocated c F o) /\
    (forall o, owned c' o -> owned c o \/ grown (Some a) objbase c o) /\
    forall o, ~ grown (Some a) objbase c o -> contents o m' = contents o m.
Proof.
  intros Ce Li Pl (A0 & Am & An & Bf) Ob n F'. destruct (lists_heads _ _ _ _ Li) as (Hf & Hp & He & ND).
  set (b := if direct c then 0 else default 0 objbase).
  destruct (grow_cells c m F a b Ce A0 Am An) as (fr & w & m' & E & Ce1 & Out).
  { intros D. unfold b. rewrite D. destruct (Ob D) as [b' ->]. destruct Bf as [?|Bf]; [congruence|exact Bf]. }
  fold n F' in E, Ce1. set (c1 := with_memory (<[n := mk_slab None None 0 fr b]> (slabs c)) w c) in *.
  assert (Gr : growcache (Some a) objbase c m =
    (ss ← push_front n (empty c) (slabs c1); Some (true, with_lists (full c) (partial c) (Some n) ss (with_memory (slabs c) w c), m'))).
  { pose proof (page_address_of a A0 Am) as Ea. fold n in Ea.
    assert (0 < truesize c) by (pose proof (g_true _ (ce_geo _ _ _ Ce)); pose proof (g_size _ (ce_geo _ _ _ Ce));
      unfold SIZEOF_PTR in *; destruct (direct c); lia).
    unfold growcache. fold n. unfold c1, b in *. destruct (direct c) eqn:D.
    - pose proof (initdirect_slots (objects c) c n 0 0 None (words c) m D) as Q. rewrite Ea, E in Q.
      change (Z.of_nat 0 * truesize c) with 0 in Q. change (Z.to_nat (slabobjcount c)) with (objects c). by rewrite Q.
    - destruct (Ob eq_refl) as [b' ->]. change (default 0 (Some b')) with b' in *.
      pose proof (initindirect_slots (objects c) c n b' 0 None (words c) m D ltac:(done)) as Q. rewrite Ea, E in Q.
      change (Z.of_nat 0 * truesize c) with 0 in Q. change (Z.to_nat (slabobjcount c)) with (objects c). by rewrite Q. }
  rewrite Gr. destruct Li as [[ts D] Dm].
  assert (Nn : n ∉ lf ++ lp ++ le) by (eapply lists_fresh; [split; [by exists ts|exact Dm]|done]).
  assert (D1 : dlists (slabs c1) [full c; partial c; empty c] ts [lf; lp; le]).
  { split; try apply D. intros l Hl. apply dseg_frame; [|by apply D].
    intros Q. apply Nn. apply list_elem_of_In in Hl. cbn in Hl. destruct Hl as [<-|[<-|[<-|[]]]]; set_solver. }
  destruct (dlists_push _ _ _ _ 2 le n (mk_slab None None 0 fr b) D1) as (ss & P & D2 & Sp & _); [done| |apply lookup_insert_eq|].
  { cbn. by rewrite app_nil_r. }
  rewrite He. rewrite P. cbn [mbind option_bind]. eexists _, m'. split; [done|]. split; [done|].
  split; [apply (cells_links c1); done|]. split; [|split; [|split; [|split]]].
  - split; [eexists; exact D2|]. intros k [sk Ek]. cbn in Ek. pose proof (Sp k) as Q. rewrite Ek in Q.
    destruct (decide (k = n)) as [->|Ne]; [set_solver|]. unfold c1 in Q. cbn in Q. rewrite lookup_insert_ne in Q by done.
    assert (k ∈ lf ++ lp ++ le) by (apply Dm; destruct (slabs c !! k); eauto; done). set_solver.
  - apply (placed_params c); [done|]. destruct (placed_other c F n (rev (seq 0 (objects c))) lf lp le Pl Nn) as (O1 & O2 & O3).
    split; [done|]. split; [done|]. intros k [->|Hk]%elem_of_cons; [|by apply O3].
    unfold F'. by rewrite fn_lookup_insert, length_rev, length_seq.
  - intros o. rewrite <- (allocated_links c1) by done. unfold allocated.
    change (objects c1) with (objects c). change (object c1) with (object c).
    change (slabs c1) with (<[n := mk_slab None None 0 fr b]> (slabs c)). split.
    + intros (k & sk & i & [[<- <-]|[Ne Ek]]%lookup_insert_Some & Hi & Ni & ->).
      * destruct Ni. unfold F'. rewrite fn_lookup_insert. apply list_elem_of_In. rewrite <- in_rev. apply in_seq. lia.
      * unfold F' in Ni. rewrite fn_lookup_insert_ne in Ni by done. by exists k, sk, i.
    + intros (k & sk & i & Ek & Hi & Ni & ->). assert (k <> n) by (unfold n; congruence).
      exists k, sk, i. unfold F'. by rewrite fn_lookup_insert_ne, lookup_insert_ne.
  - intros o (k & sk & i & Ek & Hi & _ & ->)%(owned_bases c1); [|done|by apply same_payload_bases].
    change (object c1) with (object c). change (objects c1) with (objects c) in Hi.
    change (slabs c1) with (<[n := mk_slab None None 0 fr b]> (slabs c)) in Ek.
    apply lookup_insert_Some in Ek as [[<- <-]|[Ne Ek]]; [right|left; exists k, sk, i; set_solver].
    pose proof (object_bounds c b n i (ce_geo _ _ _ Ce) Hi) as Bo. pose proof (page_address_of a A0 Am) as Ea. fold n in Ea. rewrite Ea in Bo.
    pose proof (g_true _ (ce_geo _ _ _ Ce)). pose proof (g_size _ (ce_geo _ _ _ Ce)). unfold grown, b, SIZEOF_PTR in *.
    cbn [base]. destruct (direct c) eqn:Dc; [exists a; split; [done|lia]|]. destruct (Ob eq_refl) as [b' ->].
    change (default 0 (Some b')) with b' in *. exists b'. split; [done|lia].
  - intros o No. apply Out. intros (x & Ex & Hx). apply No. unfold grown. destruct (direct c) eqn:Dc; [by exists x|].
    destruct (Ob eq_refl) as [b' ->]. unfold b in Ex. rewrite ?Dc in Ex. cbn in Ex. by exists x.
Qed.

Lemma rel_gives c m F n i fl A :
  cells c m F -> (forall o, o ∈ A <-> allocated c F o) -> F n = i :: fl -> gives c m F n i fl ->
  exists o c', finish_allocate n c m = Some (Some o, c', m) /\ same_params c c' /\ (o ∉ A) /\
    cache_rel c' m ({[o]} ∪ A) /\ clean (size c) (contents o m) /\ same_bases c c'.
Proof.
  intros Ce RA EF (s & c' & lf' & lp' & le' & Es & E & Pr & Ce' & Li' & Pl' & Sb & Al).
  exists (object c (base s) n i), c'. split; [done|]. split; [done|].
  assert (Hi : i ∈ F n) by (rewrite EF; set_solver).
  split; [rewrite RA; by eapply allocated_not_free|]. split; [|split; [by eapply (ce_clean _ _ _ Ce)|done]].
  exists lf', lp', le', (<[n := fl]> F). split_and!; try done. intros o. rewrite elem_of_union, elem_of_singleton, RA. symmetry. apply Al.
Qed.

(** The outcome of [slab_allocate] for its caller. *)
Lemma slab_allocate_ok page objbase c m A :
  cache_rel c m A -> fresh_memory page objbase c ->
  exists r c' m', slab_allocate page objbase c m = Some (r, c', m') /\ same_params c c' /\
    (forall o, ~ grown page objbase c o -> contents o m' = contents o m) /\
    (forall o, owned c' o -> owned c o \/ grown page objbase c o) /\
    match r with
    | Some o => (o ∉ A) /\ cache_rel c' m' ({[o]} ∪ A) /\ clean (size c) (contents o m')
    | None => c' = c /\ m' = m /\ (page = None \/ direct c = false /\ objbase = None)
    end.
Proof.
  intros (lf & lp & le & F & Ce & Li & Pl & RA) Fm. rewrite slab_allocate_unfold.
  destruct (lists_heads _ _ _ _ Li) as (Hf & Hp & He & _). rewrite Hp.
  destruct (objects_count c (ce_geo _ _ _ Ce)) as [Oc G2].
  destruct lp as [|n lp]; cbn [hdo].
  2: { destruct Pl as (P1 & P2 & P3). destruct (F n) as [|i fl] eqn:EF.
       { specialize (P2 n ltac:(set_solver)). rewrite EF in P2. simpl in P2. lia. }
       destruct (rel_gives c m F n i fl A Ce RA EF) as (o & c' & -> & Pr & No & R & Cl & Sb); [by eapply finish_partial|].
       exists (Some o), c', m. split_and!; try done. intros x Hx. left. by eapply owned_bases. }
  rewrite He. destruct le as [|n le]; cbn [hdo].
  2: { destruct Pl as (P1 & P2 & P3). destruct (F n) as [|i fl] eqn:EF.
       { specialize (P3 n ltac:(set_solver)). rewrite EF in P3. simpl in P3. lia. }
       destruct (rel_gives c m F n i fl A Ce RA EF) as (o & c' & -> & Pr & No & R & Cl & Sb); [by eapply finish_empty|].
       exists (Some o), c', m. split_and!; try done. intros x Hx. left. by eapply owned_bases. }
  assert (Fail : (page = None \/ direct c = false /\ objbase = None) -> growcache page objbase c m = Some (false, c, m)).
  { intros [->|[D ->]]; [done|]. destruct page as [a|]; [|done]. unfold growcache. by rewrite D. }
  destruct page as [a|]; [|rewrite Fail by auto; exists None, c, m; cbn; split_and!; by auto].
  destruct (decide (direct c = false /\ objbase = None)) as [Q|Q]; [rewrite Fail by auto; exists None, c, m; cbn; split_and!; by auto|].
  destruct (growcache_ok c m F lf [] [] a objbase Ce Li Pl Fm) as (c1 & m1 & -> & Pr1 & Ce1 & Li1 & Pl1 & Al1 & Own & Out).
  { intros D. destruct objbase; [done|]. by destruct Q. }
  cbn [mbind option_bind]. destruct (lists_heads _ _ _ _ Li1) as (_ & _ & He1 & _). rewrite He1. cbn [hdo].
  set (n := slab_page a) in *. set (F' := <[n := rev (seq 0 (objects c))]> F) in *.
  destruct (F' n) as [|i fl] eqn:EF.
  { unfold F' in EF. rewrite fn_lookup_insert in EF. apply (f_equal length) in EF. rewrite length_rev, length_seq in EF. simpl in EF. lia. }
  destruct (rel_gives c1 m1 F' n i fl A Ce1) as (o & c' & -> & Pr & No & R & Cl & Sb); [intros o; by rewrite Al1|done|by eapply finish_empty|].
  exists (Some o), c', m1. split; [done|].
  assert (Own' : forall x, owned c' x -> owned c x \/ grown (Some a) objbase c x) by (intros x Hx%(owned_bases c1); auto). destruct Pr1 as (Q1 & Q2 & Q3), Pr as (Q4 & Q5 & Q6).
  split; [split_and!; congruence|]. split; [done|]. split; [done|]. rewrite Q1 in Cl. done.
Qed.
End contract.
(** ** Freeing *)

(** A slab's range of objects, as the search tests it. *)
Definition in_slab (c : scache_t) (s : slab_t) (o : Z) : bool :=
  (base s <=? o) && (o <? base s + slabobjcount c * truesize c).

Section search.
Context (c : scache_t) (n : nat) (sn : slab_t) (o : Z).
Hypotheses (En : slabs c !! n = Some sn) (In : in_slab c sn o = true)
  (Only : forall k s, slabs c !! k = Some s -> in_slab c s o = true -> k = n).

Lemma find_step fuel inpartial k s :
  slabs c !! k = Some s -> k <> n ->
  find_slab (S fuel) c inpartial (Some k) o =
    if bool_decide (next s = None) && negb inpartial then find_slab fuel c true (partial c) o
    else find_slab fuel c inpartial (next s) o.
Proof.
  intros Ek Ne. cbn [find_slab]. rewrite Ek. cbn [mbind option_bind]. fold (in_slab c s o).
  destruct (in_slab c s o) eqn:I; [|done]. by apply (Only k s Ek) in I.
Qed.

Lemma find_here fuel inpartial : find_slab (S fuel) c inpartial (Some n) o = Some (Some n).
Proof. cbn [find_slab]. rewrite En. cbn [mbind option_bind]. fold (in_slab c sn o). by rewrite In. Qed.

Lemma find_in_partial l b fuel :
  dseg (slabs c) b l None -> n ∈ l -> (length l <= fuel)%nat -> find_slab fuel c true (hdo l None) o = Some (Some n).
Proof.
  revert b fuel. induction l as [|k l IH]; intros b [|fuel] D Hn Hl; simpl in Hl; try lia; [by apply not_elem_of_nil in Hn..|].
  cbn [hdo]. destruct (decide (k = n)) as [->|Ne]; [apply find_here|].
  destruct D as [(s & Ek & _ & Nx) D]. change (lnext s) with (next s) in Nx. rewrite (find_step _ _ _ _ Ek Ne), andb_false_r, Nx.
  apply (IH (Some k)); [done|set_solver|lia].
Qed.

Lemma find_in_full l lp b fuel :
  dseg (slabs c) b l None -> dseg (slabs c) None lp None -> partial c = hdo lp None -> l <> [] -> n ∈ l ++ lp ->
  (length l + length lp <= fuel)%nat -> find_slab fuel c false (hdo l None) o = Some (Some n).
Proof.
  intros D Dp Hp. revert b fuel D. induction l as [|k l IH]; intros b [|fuel] D Nl Hn Hl; simpl in Hl; try lia; [done..|].
  cbn [hdo]. destruct (decide (k = n)) as [->|Ne]; [apply find_here|].
  destruct D as [(s & Ek & _ & Nx) D]. change (lnext s) with (next s) in Nx. rewrite (find_step _ _ _ _ Ek Ne), andb_true_r, Nx.
  destruct l as [|k' l]; cbn [hdo].
  - rewrite bool_decide_true, Hp by done. apply (find_in_partial lp None); [done|set_solver|simpl in Hl; lia].
  - rewrite bool_decide_false by done. apply (IH (Some k)); [done|done|set_solver|simpl in *; lia].
Qed.
End search.

Section release.
Context {M C : Type} `{!Objects M C}.
Implicit Types (c : scache_t) (m : M) (F : nat -> list nat) (A : gset Z).

Lemma all_free fl k i : NoDup fl -> (forall j, j ∈ fl -> (j < k)%nat) -> length fl = k -> (i < k)%nat -> i ∈ fl.
Proof.
  intros ND Lt Ln Hi. apply list_elem_of_In. apply (NoDup_length_incl (l := fl) (l' := seq 0 k)).
  - by apply NoDup_ListNoDup.
  - rewrite length_seq. lia.
  - intros j Hj%list_elem_of_In%Lt. apply in_seq. lia.
  - apply in_seq. lia.
Qed.

(** The slab of a handed out object is not on [empty]. *)
Lemma used_slab c m F lf lp le n s i :
  cells c m F -> lists c lf lp le -> placed c F lf lp le -> slabs c !! n = Some s -> (i < objects c)%nat -> i ∉ F n ->
  n ∈ lf ++ lp.
Proof.
  intros Ce [_ Dm] (_ & _ & P3) Es Hi Ni. assert (Hn : n ∈ lf ++ lp ++ le) by (apply Dm; eauto).
  rewrite (assoc_L (++)), elem_of_app in Hn. destruct Hn as [|Hn]; [done|]. destruct Ni.
  destruct (ce_slab _ _ _ Ce _ _ Es) as [_ ND Lt _ _]. eapply all_free; eauto.
Qed.

Lemma locate_ok c m F lf lp le n s i :
  cells c m F -> lists c lf lp le -> placed c F lf lp le -> slabs c !! n = Some s -> (i < objects c)%nat -> i ∉ F n ->
  locate c (object c (base s) n i) = Some (n, slot c n i).
Proof.
  intros Ce Li Pl Es Hi Ni. pose proof (ce_geo _ _ _ Ce) as G. pose proof (object_bounds c (base s) n i G Hi) as Bo.
  pose proof (g_true _ G) as Gt. pose proof (g_size _ G) as Gs. pose proof (g_fit _ G) as Gf.
  pose proof (g_count _ G) as Gc.
  pose proof (si_word _ _ _ _ _ (ce_slab _ _ _ Ce _ _ Es) i Hi Ni) as Wd. unfold locate.
  unfold SLAB_DATA_SIZE, SLAB_PAGE_OFFSET, SIZEOF_SLAB, SIZEOF_PTR in *. destruct (direct c) eqn:D.
  - assert (So : object c (base s) n i + size c = slot c n i) by (unfold object, slot; rewrite D; lia).
    rewrite So, Wd. cbn [mbind option_bind passert]. rewrite (slab_page_of n); [done|]. lia.
  - assert (Fd : find_slab (S (base.size (slabs c))) c (bool_decide (full c = None))
        (if bool_decide (full c = None) then partial c else full c) (object c (base s) n i) = Some (Some n)).
    { pose proof (used_slab c m F lf lp le n s i Ce Li Pl Es Hi Ni) as Hn.
      destruct (lists_heads _ _ _ _ Li) as (Hf & Hp & _ & ND). destruct Li as [[ts Dl] _].
      assert (In : in_slab c s (object c (base s) n i) = true).
      { unfold in_slab. apply andb_true_iff. rewrite Z.leb_le, Z.ltb_lt. lia. }
      assert (Only : forall k sk, slabs c !! k = Some sk -> in_slab c sk (object c (base s) n i) = true -> k = n).
      { intros k sk Ek [?%Z.leb_le ?%Z.ltb_lt]%andb_true_iff. destruct (decide (k = n)); [done|].
        destruct (ce_base _ _ _ Ce k sk n s D Ek Es); [done|lia|lia]. }
      assert (Fu : (length lf + length lp <= S (base.size (slabs c)))%nat).
      { rewrite <- length_app. assert (length (lf ++ lp) <= base.size (slabs c))%nat; [|lia].
        apply nodup_live_size; [rewrite (assoc_L (++)) in ND; by apply NoDup_app in ND as (? & _)|].
        intros k Hk. apply (dlists_live _ _ _ _ k Dl). cbn. rewrite app_nil_r. set_solver. }
      pose proof (dl_seg _ _ _ _ Dl lf ltac:(set_solver)) as D1. pose proof (dl_seg _ _ _ _ Dl lp ltac:(set_solver)) as D2.
      rewrite Hf, Hp. destruct lf as [|k lf]; cbn [hdo].
      - rewrite bool_decide_true by done. eapply find_in_partial; eauto; simpl in *; lia.
      - rewrite bool_decide_false by done. change (Some k) with (hdo (k :: lf) None). eapply find_in_full; eauto; done. }
    rewrite Fd. cbn [mbind option_bind]. rewrite Es. cbn [mbind option_bind]. unfold object, slot. rewrite D.
    replace (base s + Z.of_nat i * truesize c - base s) with (Z.of_nat i * truesize c) by lia. rewrite Z.div_mul by lia. done.
Qed.

Lemma allocated_give c c' m F n s i u f o :
  cells c m F -> same_params c c' -> slabs c !! n = Some s -> (i < objects c)%nat -> i ∉ F n ->
  slabs c' = <[n := with_free u f s]> (slabs c) ->
  allocated c' (<[n := i :: F n]> F) o <-> allocated c F o /\ o <> object c (base s) n i.
Proof.
  intros Ce Pr Es Hi Ni Ess. unfold allocated. rewrite (objects_params _ _ Pr), Ess. setoid_rewrite (object_params _ _ Pr). split.
  - intros (k & s' & j & [[<- <-]|[Ne Ek]]%lookup_insert_Some & Hj & Nj & ->).
    + rewrite fn_lookup_insert in Nj. apply not_elem_of_cons in Nj as [N1 N2]. split; [by exists n, s, j|].
      intros Q. destruct (object_inj c m F n s j n s i Ce Es Es Hj Hi Q). congruence.
    + rewrite fn_lookup_insert_ne in Nj by done. split; [by exists k, s', j|].
      intros Q. destruct (object_inj c m F k s' j n s i Ce Ek Es Hj Hi Q). congruence.
  - intros [(k & s' & j & Ek & Hj & Nj & ->) Ne]. destruct (decide (k = n)) as [->|Nk].
    + assert (s' = s) as -> by congruence. exists n, (with_free u f s), j. rewrite lookup_insert_eq, fn_lookup_insert.
      split_and!; try done. rewrite not_elem_of_cons. split; [|done]. intros ->. done.
    + exists k, s', j. by rewrite lookup_insert_ne, fn_lookup_insert_ne.
Qed.

Lemma returnobject_ok c m F lf lp le n s i :
  cells c m F -> lists c lf lp le -> placed c F lf lp le -> slabs c !! n = Some s -> (i < objects c)%nat -> i ∉ F n ->
  exists c1 s1, returnobject c (object c (base s) n i) m = Some (n, c1, dtor (size c) (object c (base s) n i) m) /\
    same_params c c1 /\ full c1 = full c /\ partial c1 = partial c /\ empty c1 = empty c /\
    slabs c1 !! n = Some s1 /\ used s1 = slabobjcount c - Z.of_nat (S (length (F n))) /\
    cells c1 (dtor (size c) (object c (base s) n i) m) (<[n := i :: F n]> F) /\ lists c1 lf lp le /\ same_bases c c1 /\
    forall c', same_params c c' -> same_payload (slabs c1) (slabs c') -> forall o,
      allocated c' (<[n := i :: F n]> F) o <-> allocated c F o /\ o <> object c (base s) n i.
Proof.
  intros Ce Li Pl Es Hi Ni. pose proof (locate_ok c m F lf lp le n s i Ce Li Pl Es Hi Ni) as Lc.
  pose proof (ce_slab _ _ _ Ce _ _ Es) as Inv.
  eexists _, _. split; [unfold returnobject; rewrite Lc; cbn [mbind option_bind]; rewrite Es; reflexivity|].
  do 4 (split; [done|]). split; [apply lookup_insert_eq|].
  split; [cbn; rewrite (si_used _ _ _ _ _ Inv); lia|]. split; [|split; [by apply lists_set|split; [by apply set_bases|]]].
  - apply (cells_set c m); try done.
    + apply slab_inv_give; try done. apply (ce_geo _ _ _ Ce).
    + intros n' s' j E' Hj _. rewrite dtor_frame; [by eapply (ce_clean _ _ _ Ce)|]. intros Q.
      eapply (allocated_not_free c m F n' s' j Ce E' Hj). rewrite <- Q. by exists n, s, i.
    + intros j [->|Hj]%elem_of_cons Nj; [apply dtor_clean|done].
  - intros c' Pr Sp o. rewrite <- (allocated_links (with_memory _ _ c) c') by done. by eapply allocated_give.
Qed.

(** What follows the return of the object in [slab_free]: the slab may change
    its list. *)
Definition finish_free (n : nat) (c : scache_t) (m : M) : option (scache_t * M) :=
  s ← slabs c !! n;
  c ← (if used s =? 0 then
         ss ← unlink n (slabs c);
         let p := match prev s with None => next s | Some _ => partial c end in
         ss ← push_front n (empty c) ss;
         Some (with_lists (full c) p (Some n) ss c)
       else Some c);
  s ← slabs c !! n;
  c ← (if used s =? slabobjcount c - 1 then
         ss ← unlink n (slabs c);
         let f := match prev s with None => next s | Some _ => full c end in
         ss ← push_front n (partial c) ss;
         Some (with_lists f (Some n) (empty c) ss c)
       else Some c);
  Some (c, m).

Definition placed_but (c : scache_t) (F : nat -> list nat) (n : nat) (lf lp le : list nat) : Prop :=
  (forall k, k ∈ lf -> k <> n -> F k = []) /\
  (forall k, k ∈ lp -> k <> n -> (0 < length (F k) < objects c)%nat) /\
  (forall k, k ∈ le -> k <> n -> length (F k) = objects c).

(** The slab ends on the right list. *)
Definition settles (c : scache_t) (m : M) (F : nat -> list nat) (n : nat) : Prop :=
  exists c' lf lp le, finish_free n c m = Some (c', m) /\ same_params c c' /\ words c' = words c /\
    same_payload (slabs c) (slabs c') /\ lists c' lf lp le /\ placed c' F lf lp le.

Section settle.
Context (c : scache_t) (m : M) (F : nat -> list nat) (lf lp le : list nat) (n : nat) (s : slab_t).
Hypotheses (G : geo c) (Li : lists c lf lp le) (Es : slabs c !! n = Some s)
  (Us : used s = slabobjcount c - Z.of_nat (length (F n))) (Pb : placed_but c F n lf lp le).

Lemma settle_full : n ∈ lf -> length (F n) = 1%nat -> settles c m F n.
Proof.
  intros (l1 & l2 & ->)%list_elem_of_split Ln. destruct (lists_heads _ _ _ _ Li) as (Hf & Hp & He & ND).
  destruct (objects_count c G) as [Oc G2]. pose proof Li as [[ts D] _]. destruct Pb as (P1 & P2 & P3).
  destruct (slabs_move _ _ _ _ 0 1 l1 n l2 lp D eq_refl eq_refl ltac:(lia)) as (s' & h1 & h2 & ts2 & Es' & U & Pf & D2 & Sp).
  rewrite Es in Es'. injection Es' as <-.
  assert (Pm : (l1 ++ n :: l2) ++ lp ++ le ≡ₚ (l1 ++ l2) ++ (n :: lp) ++ le).
  { rewrite <- !Permutation_middle. cbn. by rewrite <- Permutation_middle. }
  unfold settles, finish_free. rewrite Es. cbn [mbind option_bind]. rewrite Us, Ln.
  destruct (Z.eqb_spec (slabobjcount c - Z.of_nat 1) 0); [lia|]. cbn [mbind option_bind]. rewrite Es. cbn [mbind option_bind].
  rewrite Us, Ln, Z.eqb_refl, U. cbn [mbind option_bind]. rewrite Hp, Pf. cbn [mbind option_bind].
  eexists _, (l1 ++ l2), (n :: lp), le. do 4 (split; [done|]). split.
  - apply (lists_move c (l1 ++ n :: l2) lp le); try done. exists ts2. destruct (prev s); exact D2.
  - rewrite Pm in ND. cbn in ND. rewrite <- Permutation_middle in ND. apply NoDup_cons in ND as [Nn _].
    apply (placed_params c); [done|]. split; [|split].
    + intros k Hk. apply P1; set_solver.
    + intros k [->|Hk]%elem_of_cons; [lia|]. apply P2; set_solver.
    + intros k Hk. apply P3; set_solver.
Qed.

Lemma settle_empty : n ∈ lp -> length (F n) = objects c -> settles c m F n.
Proof.
  intros (l1 & l2 & ->)%list_elem_of_split Ln. destruct (lists_heads _ _ _ _ Li) as (Hf & Hp & He & ND).
  destruct (objects_count c G) as [Oc G2]. pose proof Li as [[ts D] _]. destruct Pb as (P1 & P2 & P3).
  destruct (slabs_move _ _ _ _ 1 2 l1 n l2 le D eq_refl eq_refl ltac:(lia)) as (s' & h1 & h2 & ts2 & Es' & U & Pf & D2 & Sp).
  rewrite Es in Es'. injection Es' as <-.
  assert (Pm : lf ++ (l1 ++ n :: l2) ++ le ≡ₚ lf ++ (l1 ++ l2) ++ (n :: le)).
  { rewrite <- !(assoc_L (++)). cbn. by rewrite <- !Permutation_middle. }
  assert (Es2 : exists s2, h2 !! n = Some s2 /\ used s2 = 0).
  { pose proof (Sp n) as Q. rewrite Es in Q. destruct (h2 !! n) as [s2|]; [|done]. injection Q as Q _ _. exists s2. split; [done|lia]. }
  destruct Es2 as (s2 & Es2 & Us2).
  unfold settles, finish_free. rewrite Es. cbn [mbind option_bind]. rewrite Us, Ln.
  destruct (Z.eqb_spec (slabobjcount c - Z.of_nat (objects c)) 0); [|lia]. rewrite U. cbn [mbind option_bind]. rewrite He, Pf.
  cbn [mbind option_bind slabs with_lists]. rewrite Es2. cbn [mbind option_bind slabobjcount with_lists]. rewrite Us2.
  destruct (Z.eqb_spec 0 (slabobjcount c - 1)); [lia|]. cbn [mbind option_bind].
  eexists _, lf, (l1 ++ l2), (n :: le). do 4 (split; [done|]). split.
  - apply (lists_move c lf (l1 ++ n :: l2) le); try done. exists ts2. destruct (prev s); exact D2.
  - rewrite Pm in ND. rewrite (assoc_L (++)), <- Permutation_middle in ND. apply NoDup_cons in ND as [Nn _].
    apply (placed_params c); [done|]. split; [|split].
    + intros k Hk. apply P1; set_solver.
    + intros k Hk. apply P2; set_solver.
    + intros k [->|Hk]%elem_of_cons; [lia|]. apply P3; set_solver.
Qed.

Lemma settle_partial : n ∈ lp -> (1 < length (F n) < objects c)%nat -> settles c m F n.
Proof.
  intros Hn Ln. destruct (lists_heads _ _ _ _ Li) as (_ & _ & _ & ND). destruct (objects_count c G) as [Oc G2].
  destruct Pb as (P1 & P2 & P3). apply NoDup_app in ND as (_ & Dj1 & ND). apply NoDup_app in ND as (_ & Dj2 & _).
  unfold settles, finish_free. rewrite Es. cbn [mbind option_bind]. rewrite Us.
  destruct (Z.eqb_spec (slabobjcount c - Z.of_nat (length (F n))) 0); [lia|]. cbn [mbind option_bind]. rewrite Es. cbn [mbind option_bind].
  rewrite Us. destruct (Z.eqb_spec (slabobjcount c - Z.of_nat (length (F n))) (slabobjcount c - 1)); [lia|]. cbn [mbind option_bind].
  eexists c, lf, lp, le. do 5 (split; [done|]). split; [|split].
  - intros k Hk. apply P1; [done|]. intros ->. apply (Dj1 n Hk). set_solver.
  - intros k Hk. destruct (decide (k = n)) as [->|]; [lia|by apply P2].
  - intros k Hk. apply P3; [done|]. intros ->. by apply (Dj2 n).
Qed.
End settle.

(** The outcome of [slab_free]. *)
Lemma slab_free_ok c m A o :
  cache_rel c m A -> o ∈ A ->
  exists c', slab_free o c m = Some (c', dtor (size c) o m) /\ same_params c c' /\ same_bases c c' /\
    cache_rel c' (dtor (size c) o m) (A ∖ {[o]}).
Proof.
  intros (lf & lp & le & F & Ce & Li & Pl & RA) (n & s & i & Es & Hi & Ni & ->)%RA.
  destruct (returnobject_ok c m F lf lp le n s i Ce Li Pl Es Hi Ni) as
    (c1 & s1 & R & Pr1 & Fc & Pc & Ec & Es1 & Us & Ce1 & Li1 & Sb & Al). set (F' := <[n := i :: F n]> F) in *.
  pose proof (used_slab c m F lf lp le n s i Ce Li Pl Es Hi Ni) as Hn.
  pose proof (ce_geo _ _ _ Ce1) as G1. pose proof (objects_params _ _ Pr1) as Eo.
  assert (Fn : length (F' n) = S (length (F n))) by (unfold F'; by rewrite fn_lookup_insert).
  assert (Us1 : used s1 = slabobjcount c1 - Z.of_nat (length (F' n))) by (rewrite Us, Fn; by destruct Pr1 as (_ & _ & ->)).
  pose proof (free_length _ _ _ _ _ (ce_slab _ _ _ Ce1 _ _ Es1)) as Le. rewrite Fn in Le.
  destruct Pl as (P1 & P2 & P3).
  assert (Pb : placed_but c1 F' n lf lp le).
  { split; [|split]; intros k Hk Nk; unfold F'; rewrite fn_lookup_insert_ne by done; rewrite ?Eo; auto. }
  assert (St : settles c1 (dtor (size c) (object c (base s) n i) m) F' n).
  { apply elem_of_app in Hn as [Hn|Hn].
    - eapply (settle_full c1); eauto. by rewrite Fn, (P1 n Hn).
    - pose proof (P2 n Hn). destruct (decide (length (F' n) = objects c1)); [by eapply settle_empty; eauto|].
      eapply (settle_partial c1); eauto. lia. }
  destruct St as (c' & lf' & lp' & le' & E & Pr & Ew & Sp & Li' & Pl').
  assert (Pr' : same_params c c') by (destruct Pr1 as (? & ? & ?), Pr as (? & ? & ?); split_and!; congruence).
  exists c'. split; [unfold slab_free; rewrite R; exact E|]. split; [done|]. split; [by eapply bases_trans|].
  exists lf', lp', le', F'. split; [by apply (cells_links c1)|]. split; [done|]. split; [done|].
  intros x. rewrite elem_of_difference, elem_of_singleton, RA. by rewrite Al.
Qed.
End release.
(** ** A new cache *)

Lemma round_up_ge v n : 0 < n -> 0 <= v -> v + n <= 2 ^ 64 -> v <= ROUND_UP v n.
Proof.
  intros Hn Hv Hm. unfold ROUND_UP, ROUND_DOWN. rewrite (u64_id (v + n - 1)) by (unfold is_u64; lia).
  pose proof (Z.mod_pos_bound (v + n - 1) n Hn). pose proof (Z.mod_le (v + n - 1) n ltac:(lia) Hn).
  rewrite u64_id by (unfold is_u64; lia). lia.
Qed.

Lemma newcache_geo sz al :
  0 < sz -> 0 <= al -> sz + al + 16 <= 2 ^ 64 -> 2 <= slabobjcount (newcache sz al) -> geo (newcache sz al).
Proof.
  intros Hs Ha Hm. unfold newcache. set (al' := if al =? 0 then 8 else al).
  assert (Hal : 0 < al' <= al + 8) by (unfold al'; destruct (Z.eqb_spec al 0); lia).
  set (fp := if sz <? SLAB_INDIRECT_CUTOFF then SIZEOF_PTR else 0).
  assert (Hfp : 0 <= fp <= 8) by (unfold fp, SIZEOF_PTR; destruct (sz <? SLAB_INDIRECT_CUTOFF); lia).
  rewrite (u64_id (sz + fp)) by (unfold is_u64; lia). set (ts := ROUND_UP (sz + fp) al').
  assert (Ts : sz + fp <= ts) by (apply round_up_ge; lia). intros Hc.
  split; unfold direct; cbn [size truesize slabobjcount] in *; try done.
  destruct (sz <? SLAB_INDIRECT_CUTOFF); [|by vm_compute]. rewrite Z.mul_comm. apply Z.mul_div_le. lia.
Qed.

Section contract2.
Context {M C : Type} `{!Objects M C}.

Lemma new_rel c (m : M) : geo c -> slabs c = ∅ -> full c = None -> partial c = None -> empty c = None -> cache_rel c m ∅.
Proof.
  intros G Es Ef Ep Ee. exists [], [], [], (fun _ => []). rewrite <- (app_nil_r []).
  assert (Lk : forall n, slabs c !! n = None) by (intros n; by rewrite Es).
  split; [split; try done; intros n s; rewrite ?Lk; intros; try done; by rewrite Lk in *|]. split.
  - split; [|intros n; rewrite Lk; by intros []]. exists [None; None; None]. rewrite Ef, Ep, Ee.
    split; [done|done| |by constructor]. intros l Hl. apply list_elem_of_In in Hl. cbn in Hl. by destruct Hl as [<-|[<-|[<-|[]]]].
  - split; [split; [|split]; intros n Hn; by apply not_elem_of_nil in Hn|].
    intros o. split; [done|]. intros (n & s & i & E & _). by rewrite Lk in E.
Qed.

(** ** Sequences of requests *)

Inductive slab_op :=
  | SAlloc (page objbase : option Z) (* what [vmm_map] would return *)
  | SFree (o : Z).

(** A cache, the contents of objects, and the set of objects handed out. *)
Definition slab_state : Type := scache_t * M * gset Z.

Definition slab_exec (o : slab_op) (st : slab_state) : option (option Z * slab_state) :=
  let '(c, m, A) := st in
  match o with
  | SAlloc page objbase =>
      '(r, c', m') ← slab_allocate page objbase c m;
      Some (r, (c', m', match r with Some x => {[x]} ∪ A | None => A end))
  | SFree x =>
      '(c', m') ← slab_free x c m;
      Some (None, (c', m', A ∖ {[x]}))
  end.

(** Memory is new, and only handed out objects are freed. *)
Definition slab_legal (o : slab_op) (st : slab_state) : bool :=
  let '(c, _, A) := st in
  match o with
  | SAlloc page objbase => bool_decide (fresh_memory page objbase c)
  | SFree x => bool_decide (x ∈ A)
  end.

Fixpoint slab_run (os : list slab_op) (st : slab_state) : option (list (option Z) * slab_state) :=
  match os with
  | [] => Some ([], st)
  | o :: os' =>
      '(r, st1) ← slab_exec o st;
      '(rs, st2) ← slab_run os' st1;
      Some (r :: rs, st2)
  end.

Fixpoint slab_legal_run (os : list slab_op) (st : slab_state) : bool :=
  match os with
  | [] => true
  | o :: os' => slab_legal o st && match slab_exec o st with Some (_, st1) => slab_legal_run os' st1 | None => true end
  end.

(** The specification: an allocation returns an object nobody has, or [NULL]
    when there was no memory. *)
Definition slab_spec (o : slab_op) (A : gset Z) (r : option Z) (A' : gset Z) : Prop :=
  match o, r with
  | SAlloc _ _, Some x => (x ∉ A) /\ A' = {[x]} ∪ A
  | SAlloc page objbase, None => A' = A /\ (page = None \/ objbase = None)
  | SFree x, _ => x ∈ A /\ A' = A ∖ {[x]}
  end.

Inductive slab_trace : list slab_op -> gset Z -> list (option Z) -> gset Z -> Prop :=
  | trace_nil A : slab_trace [] A [] A
  | trace_cons o os A r A1 rs A2 : slab_spec o A r A1 -> slab_trace os A1 rs A2 -> slab_trace (o :: os) A (r :: rs) A2.

Lemma slab_exec_ok o c m A :
  cache_rel c m A -> slab_legal o (c, m, A) = true -> exists r c' m' A',
    slab_exec o (c, m, A) = Some (r, (c', m', A')) /\ cache_rel c' m' A' /\ slab_spec o A r A'.
Proof.
  intros R L. destruct o as [page objbase|x]; cbn [slab_exec slab_legal] in *; apply bool_decide_eq_true in L.
  - destruct (slab_allocate_ok page objbase c m A R L) as (r & c' & m' & -> & _ & _ & _ & H). cbn [mbind option_bind].
    eexists r, c', m', _. split; [done|]. destruct r as [x|]; [naive_solver|]. destruct H as (-> & -> & H). split; [done|].
    split; [done|]. naive_solver.
  - destruct (slab_free_ok c m A x R L) as (c' & -> & _ & _ & R'). cbn [mbind option_bind]. eexists None, c', _, _. done.
Qed.

(** C16. The contract of a slab cache, at the level of its list pointers, its
    chains of free objects and its address arithmetic: on every sequence of
    allocations and frees of handed out objects no assertion fails and no
    pointer is followed astray; an allocation returns an object that is not
    handed out already, or [NULL] only when memory for a new slab was refused. *)
Theorem slab_run_refines os c (m : M) A :
  cache_rel c m A -> slab_legal_run os (c, m, A) = true -> exists rs c' m' A',
    slab_run os (c, m, A) = Some (rs, (c', m', A')) /\ cache_rel c' m' A' /\ slab_trace os A rs A'.
Proof.
  revert c m A. induction os as [|o os IH]; intros c m A R L.
  { exists [], c, m, A. split; [done|]. split; [done|constructor]. }
  cbn [slab_legal_run slab_run] in *. apply andb_true_iff in L as [L1 L2].
  destruct (slab_exec_ok o c m A R L1) as (r & c1 & m1 & A1 & E & R1 & Sp). rewrite E in *. cbn [mbind option_bind].
  destruct (IH c1 m1 A1 R1 L2) as (rs & c' & m' & A' & -> & R' & T).
  exists (r :: rs), c', m', A'. split; [done|]. split; [done|]. by econstructor.
Qed.

(** Objects a cache has handed out do not overlap, and lie in memory the
    cache obtained. *)
Theorem slab_objects_apart c (m : M) A x y :
  cache_rel c m A -> x ∈ A -> y ∈ A -> x <> y -> x + size c <= y \/ y + size c <= x.
Proof.
  intros (lf & lp & le & F & Ce & _ & _ & RA) (n & s & i & Es & Hi & _ & ->)%RA (n' & s' & i' & Es' & Hi' & _ & ->)%RA Ne.
  pose proof (ce_geo _ _ _ Ce) as G. pose proof (g_true _ G) as Tr. pose proof (g_size _ G) as Sz. pose proof (g_fit _ G) as Fit.
  pose proof (object_bounds c (base s) n i G Hi) as B1. pose proof (object_bounds c (base s') n' i' G Hi') as B2.
  unfold SLAB_DATA_SIZE, SLAB_PAGE_OFFSET, SIZEOF_SLAB, SIZEOF_PTR in *. destruct (decide (n = n')) as [<-|Nn].
  - assert (s' = s) as -> by congruence. assert (i <> i') by (intros ->; done). unfold object.
    assert (Q : Z.of_nat i + 1 <= Z.of_nat i' \/ Z.of_nat i' + 1 <= Z.of_nat i) by lia.
    destruct (direct c) in *; assert (0 < truesize c) by lia; destruct Q; [left|right|left|right]; nia.
  - destruct (direct c) eqn:D in *.
    + unfold page_address, PAGE_SIZE in *. assert (Z.of_nat n + 1 <= Z.of_nat n' \/ Z.of_nat n' + 1 <= Z.of_nat n) as [|] by lia; [left|right]; lia.
    + destruct (ce_base _ _ _ Ce n s n' s' D Es Es' Nn); [left|right]; lia.
Qed.
End contract2.

(** [purge] follows the slab it has just unmapped: destroying a cache that
    still has an empty slab, as every cache that was used has, ends in an access
    to memory that is gone. *)
Theorem slab_freecache_faults maxcount cache c self n :
  (2 <= maxcount)%nat -> empty c = Some n -> slab_freecache maxcount cache c self = None.
Proof.
  intros Hm Ee. unfold slab_freecache. destruct (passert (bool_decide (partial c = None))); [|done]. cbn [mbind option_bind].
  destruct (passert (bool_decide (full c = None))); [|done]. cbn [mbind option_bind].
  destruct maxcount as [|[|k]]; [lia..|]. rewrite Ee. cbn [purge]. destruct (slabs c !! n) as [s|]; [|done]. cbn [mbind option_bind].
  destruct (set_prev (next s) None (slabs c)) as [ss|]; [|done]. cbn [mbind option_bind]. rewrite Ee.
  cbn [slabs with_lists]. by rewrite lookup_delete_eq.
Qed.

(** ** Witnesses *)

(** Small objects: two slabs of three, and back. *)
Definition small_cache : scache_t := newcache 500 1300.

Lemma small_cache_rel : cache_rel small_cache tt ∅.
Proof. by apply new_rel. Qed.

Definition small_ops : list slab_op :=
  [ SAlloc (Some 0x5000) None; SAlloc (Some 0x6000) None; SAlloc (Some 0x6000) None; SAlloc None None; SAlloc (Some 0x9000) None;
    SFree 0x5000; SFree 0x9a28; SAlloc None None; SFree 0x5a28; SFree 0x5514; SFree 0x5000 ].

Lemma slab_run_refines_witness :
  slab_legal_run small_ops (small_cache, tt, ∅) = true /\ exists st,
    slab_run small_ops (small_cache, tt, ∅) =
      Some ([Some 0x5a28; Some 0x5514; Some 0x5000; None; Some 0x9a28; None; None; Some 0x5000; None; None; None], st).
Proof.
  split; [vm_compute; reflexivity|].
  destruct (slab_run_refines small_ops small_cache tt ∅ small_cache_rel) as (rs & c & m & A & E & _); [vm_compute; reflexivity|].
  exists (c, m, A). rewrite E. f_equal. f_equal.
  assert (Q : fst <$> slab_run small_ops (small_cache, tt, ∅) = Some rs) by (by rewrite E).
  vm_compute in Q. by injection Q as <-.
Defined.

Lemma slab_objects_apart_witness :
  slab_run [SAlloc (Some 0x5000) None; SAlloc None None] (small_cache, tt, ∅) <> None /\ 0x5514 + 500 <= 0x5a28.
Proof.
  split; [vm_compute; congruence|].
  assert (R : exists c, cache_rel c tt {[0x5514; 0x5a28]} /\ size c = 500).
  { destruct (slab_exec_ok (SAlloc (Some 0x5000) None) small_cache tt ∅ small_cache_rel) as (r1 & c1 & m1 & A1 & E1 & R1 & _);
      [vm_compute; reflexivity|].
    assert (Q1 : (fun x => snd (snd x)) <$> slab_exec (SAlloc (Some 0x5000) None) (small_cache, tt, ∅) = Some A1) by (by rewrite E1).
    destruct m1. destruct (slab_exec_ok (SAlloc None None) c1 tt A1 R1) as (r2 & c2 & m2 & A2 & E2 & R2 & _); [reflexivity|].
    destruct m2. assert (Q2 : (fun x => (snd (snd x), size (fst (fst (snd x))))) <$>
      slab_run [SAlloc (Some 0x5000) None; SAlloc None None] (small_cache, tt, ∅) = Some (A2, size c2))
      by (cbn [slab_run]; rewrite E1; cbn [mbind option_bind]; rewrite E2; done).
    exists c2. remember (size c2) as z eqn:Ez in Q2. rewrite <- Ez. vm_compute in Q2. injection Q2 as <- <-. by split. }
  destruct R as (c & R & Sz). pose proof (slab_objects_apart c tt _ 0x5514 0x5a28 R) as H. rewrite Sz in H.
  destruct H as [|]; [vm_compute; reflexivity|vm_compute; reflexivity|lia|lia|lia].
Defined.

Lemma slab_freecache_faults_witness : slab_freecache 100 0x7000 (with_lists None None (Some 5%nat) {[5%nat := mk_slab None None 0 None 0]} small_cache) (selfcache 112) = None.
Proof. apply (slab_freecache_faults _ _ _ _ 5%nat); [lia|reflexivity]. Defined.
