(* ===== verification/Alloc.v ===== *)
(** * The kernel heap ([mm/alloc.c])

    [alloc], [free] and [realloc] on top of twelve slab caches.  An allocation
    is an object with two header words, the capacity and the current size, and
    the data; the pointer a caller has is that of the data.  The object contents
    instantiate the interface [Objects] of the slab allocator, and the theorems
    say that callers see a heap of zero-initialised, disjoint blocks. *)

From S2P Require Import Prelude DList Slab.

Definition allocsizes : list Z := [32; 64; 128; 256; 512; 1024; 2048; 4096; 8192; 16384; 32768; 65536].

(** The header is two words of eight bytes. *)
Definition HEADER : Z := 16.

Definition CAPACITY_SIZE (cachesize : Z) : Z := cachesize - HEADER.

Record area := mk_area { capacity : Z; current : Z; data : list Z }.

(** Constructor and destructor: the capacity is set and the data cleared. *)
Definition initarea (cachesize obj : Z) (m : gmap Z area) : gmap Z area :=
  let cap := CAPACITY_SIZE cachesize in
  <[obj := mk_area cap (from_option current 0 (m !! obj)) (replicate (Z.to_nat cap) 0)]> m.

Definition clean_area (cachesize : Z) (a : option area) : Prop :=
  exists cur, a = Some (mk_area (CAPACITY_SIZE cachesize) cur (replicate (Z.to_nat (CAPACITY_SIZE cachesize)) 0)).

#[export, refine] Instance area_objects : Objects (gmap Z area) (option area) := {
  contents o m := m !! o;
  ctor := initarea;
  dtor := initarea;
  clean := clean_area
}.
Proof.
  1, 3: intros z o m; unfold initarea, clean_area; rewrite lookup_insert_eq; eauto.
  all: intros z o o' m Ne; unfold initarea; by rewrite lookup_insert_ne.
Defined.

Record kheap := mk_kheap { caches : list scache_t; areas : gmap Z area }.

Fixpoint cache_index (sizes : list Z) (size : Z) : option nat :=
  match sizes with
  | [] => None
  | s :: sizes' => if size <=? s then Some 0%nat else S <$> cache_index sizes' size
  end.

(** The index of the cache; a size beyond the largest fails the assertion. *)
Definition getcachefromsize (size : Z) : option nat := cache_index allocsizes size.

(** [page] and [objbase] are what [vmm_map] would return. *)
Definition alloc (page objbase : option Z) (size : Z) (h : kheap) : option (option Z * kheap) :=
  i ← getcachefromsize size;
  c ← caches h !! i;
  '(r, c', m) ← slab_allocate page objbase c (areas h);
  let cs := <[i := c']> (caches h) in
  match r with
  | None => Some (None, mk_kheap cs m)
  | Some ret =>
      a ← m !! ret;
      _ ← passert (capacity a =? CAPACITY_SIZE (Slab.size c));
      Some (Some (ret + HEADER), mk_kheap cs (<[ret := mk_area (capacity a) size (data a)]> m))
  end.

Definition free (ptr : Z) (h : kheap) : option kheap :=
  let start := ptr - HEADER in
  a ← areas h !! start;
  i ← getcachefromsize (capacity a);
  c ← caches h !! i;
  '(c', m) ← slab_free start c (areas h);
  Some (mk_kheap (<[i := c']> (caches h)) m).

(** Stores into the data of an allocation; beyond the object is [None]. *)
Definition store (off : nat) (bs : list Z) (a : area) : option area :=
  _ ← passert (off + length bs <=? length (data a))%nat;
  Some (mk_area (capacity a) (current a) (splice (data a) off bs)).

Definition realloc (page objbase : option Z) (ptr size : Z) (h : kheap) : option (option Z * kheap) :=
  let start := ptr - HEADER in
  a ← areas h !! start;
  let currentsize := current a in
  if size <=? currentsize then
    Some (Some ptr, mk_kheap (caches h) (<[start := mk_area (capacity a) size (data a)]> (areas h)))
  else
    oldcache ← getcachefromsize (capacity a);
    newcache ← getcachefromsize size;
    if (oldcache =? newcache)%nat then
      let diff := size - currentsize in
      a' ← store (Z.to_nat currentsize) (replicate (Z.to_nat diff) 0) a;
      Some (Some ptr, mk_kheap (caches h) (<[start := mk_area (capacity a') size (data a')]> (areas h)))
    else
      c ← caches h !! newcache;
      '(r, c', m) ← slab_allocate page objbase c (areas h);
      let cs := <[newcache := c']> (caches h) in
      match r with
      | None => Some (None, mk_kheap cs m)
      | Some new =>
          b ← m !! new;
          a ← m !! start;
          b' ← store 0 (take (Z.to_nat currentsize) (data a)) (mk_area (capacity b) size (data b));
          o ← cs !! oldcache;
          '(o', m) ← slab_free start o (<[new := b']> m);
          Some (Some (new + HEADER), mk_kheap (<[oldcache := o']> cs) m)
      end.

(** The caches [alloc_init] makes. *)
Definition alloc_init : kheap := mk_kheap ((fun s => newcache (s + HEADER) 0) <$> allocsizes) ∅.

(** A caller's store into its block. *)
Definition poke (ptr : Z) (off : nat) (bs : list Z) (h : kheap) : option kheap :=
  a ← areas h !! (ptr - HEADER);
  a' ← store off bs a;
  Some (mk_kheap (caches h) (<[ptr - HEADER := a']> (areas h))).

(** ** The heap callers see

    A map from pointers to the bytes of the blocks. *)

Definition block_at (m : gmap Z area) (p : Z) (bs : list Z) (sz : Z) : Prop :=
  exists d, m !! (p - HEADER) = Some (mk_area sz (Z.of_nat (length bs)) d) /\ length d = Z.to_nat sz /\
    bs = take (length bs) d.

Definition cache_of (h : kheap) (Al : list (gset Z)) (i : nat) (c : scache_t) (A : gset Z) (sz : Z) : Prop :=
  caches h !! i = Some c /\ Al !! i = Some A /\ allocsizes !! i = Some sz.

Record heap_ok (h : kheap) (Al : list (gset Z)) (H : gmap Z (list Z)) : Prop := {
  ho_len : length (caches h) = length allocsizes /\ length Al = length allocsizes;
  ho_size : forall i c A sz, cache_of h Al i c A sz -> Slab.size c = sz + HEADER;
  ho_rel : forall i c A sz, cache_of h Al i c A sz -> cache_rel c (areas h) A;
  ho_apart : forall i j c c' x, caches h !! i = Some c -> caches h !! j = Some c' -> i <> j -> owned c x -> ~ owned c' x;
  ho_block : forall p bs, H !! p = Some bs -> exists i c A sz, cache_of h Al i c A sz /\ p - HEADER ∈ A /\ block_at (areas h) p bs sz;
  ho_all : forall i A o, Al !! i = Some A -> o ∈ A -> is_Some (H !! (o + HEADER))
}.

Definition heap_rel (h : kheap) (H : gmap Z (list Z)) : Prop := exists Al, heap_ok h Al H.

(** New memory is clear of what the caches have. *)
Definition clear_of (a len : Z) (c : scache_t) : Prop :=
  map_Forall (fun n s =>
    (a + len <= page_address n \/ page_address n + PAGE_SIZE <= a) /\
    (direct c = true \/ a + len <= base s \/ base s + slabobjcount c * truesize c <= a)) (slabs c).

Definition heap_fresh (page objbase : option Z) (size : Z) (h : kheap) : Prop :=
  match page with
  | Some a => 0 <= a /\ a mod PAGE_SIZE = 0 /\ Forall (clear_of a PAGE_SIZE) (caches h)
  | None => True
  end /\
  match objbase, getcachefromsize size ≫= fun i => caches h !! i with
  | Some b, Some c => Forall (clear_of b (slabobjcount c * truesize c)) (caches h)
  | _, _ => True
  end.

#[global] Instance clear_of_dec a len c : Decision (clear_of a len c).
Proof. unfold clear_of. apply _. Defined.

#[global] Instance heap_fresh_dec page objbase size h : Decision (heap_fresh page objbase size h).
Proof. unfold heap_fresh. destruct page, objbase, (getcachefromsize size ≫= fun i => caches h !! i); apply _. Defined.

Lemma cache_index_spec size i :
  getcachefromsize size = Some i -> exists sz, allocsizes !! i = Some sz /\ size <= sz.
Proof.
  unfold getcachefromsize. generalize allocsizes. intros l. revert i. induction l as [|s l IH]; intros i E; [done|].
  cbn [cache_index] in E. destruct (Z.leb_spec size s); [injection E as <-; by exists s|].
  destruct (cache_index l size) as [k|]; [|done]. injection E as <-. by apply IH.
Qed.

Lemma cache_index_size i sz : allocsizes !! i = Some sz -> getcachefromsize sz = Some i /\ 32 <= sz <= 65536.
Proof. intros E. do 12 (destruct i as [|i]; [by injection E as <-|]). done. Qed.

Lemma cache_index_total size : size <= 65536 -> is_Some (getcachefromsize size).
Proof.
  intros Hs. unfold getcachefromsize, allocsizes. cbn [cache_index].
  repeat (case_match; [eauto|]). destruct (Z.leb_spec size 65536); [done|lia].
Qed.

(** Contents of handed out objects are the callers' business. *)
Lemma rel_frame c (m m' : gmap Z area) A :
  cache_rel c m A -> (forall x, owned c x -> x ∉ A -> m' !! x = m !! x) -> cache_rel c m' A.
Proof.
  intros (lf & lp & le & F & Ce & Li & Pl & RA) Fr. exists lf, lp, le, F. split; [|done]. destruct Ce as [G Sl Bs Cl].
  split; try done. intros n s i Es Hi. cbn [contents area_objects]. rewrite Fr; [by eapply Cl| |].
  - exists n, s, i. split; [done|]. split; [by eapply (si_lt _ _ _ _ _ (Sl _ _ Es))|]. split; [set_solver|done].
  - rewrite RA. by eapply (allocated_not_free (M := gmap Z area) (C := option area) c m F).
Qed.

Lemma rel_geo c (m : gmap Z area) A : cache_rel c m A -> geo c.
Proof. intros (? & ? & ? & F & Ce & _). apply (ce_geo _ _ _ Ce). Qed.

Lemma rel_owned c (m : gmap Z area) A x : cache_rel c m A -> x ∈ A -> owned c x.
Proof.
  intros (? & ? & ? & F & _ & _ & _ & RA) (n & s & i & Es & Hi & _ & ->)%RA. exists n, s, i. split_and!; try done. set_solver.
Qed.

Lemma clear_owned a len c x : geo c -> clear_of a len c -> owned c x -> ~ (a <= x < a + len).
Proof.
  intros G Cl (n & s & i & Es & Hi & _ & ->). destruct (Cl n s Es) as [C1 C2].
  pose proof (object_bounds c (base s) n i G Hi) as B. pose proof (g_true _ G). pose proof (g_size _ G). pose proof (g_fit _ G).
  unfold SLAB_DATA_SIZE, SLAB_PAGE_OFFSET, SIZEOF_SLAB, SIZEOF_PTR, PAGE_SIZE in *.
  destruct (direct c) in *; [lia|]. destruct C2 as [|[|]]; [done|lia|lia].
Qed.

Section fresh.
Context (h : kheap) (page objbase : option Z) (size : Z) (i : nat) (c : scache_t).
Hypotheses (Fr : heap_fresh page objbase size h) (Gi : getcachefromsize size = Some i) (Ei : caches h !! i = Some c) (G : geo c).

Lemma heap_fresh_memory : fresh_memory page objbase c.
Proof.
  destruct Fr as [F1 F2]. rewrite Gi in F2. cbn [mbind option_bind] in F2. rewrite Ei in F2. unfold fresh_memory.
  destruct page as [a|]; [|done]. destruct F1 as (A0 & Am & Cl). split; [done|]. split; [done|]. rewrite Forall_forall in Cl.
  specialize (Cl c ltac:(by eapply list_elem_of_lookup_2)). split.
  - destruct (slabs c !! slab_page a) as [s|] eqn:Es; [|done]. destruct (Cl _ _ Es) as [C1 _].
    rewrite page_address_of in C1 by done. unfold PAGE_SIZE in *. lia.
  - destruct objbase as [b|]; [|done]. rewrite Forall_forall in F2. specialize (F2 c ltac:(by eapply list_elem_of_lookup_2)).
    destruct (direct c) eqn:D; [by left|right]. intros n s Es. destruct (F2 n s Es) as [_ C2]. destruct C2 as [|C2]; [congruence|done].
Qed.

Lemma heap_fresh_owned j c' x : caches h !! j = Some c' -> geo c' -> owned c' x -> ~ grown page objbase c x.
Proof.
  intros Ej G' Ow (a & Ea & Hx). destruct Fr as [F1 F2]. rewrite Gi in F2. cbn [mbind option_bind] in F2. rewrite Ei in F2.
  pose proof (g_fit _ G) as Fit. unfold SLAB_DATA_SIZE, SLAB_PAGE_OFFSET, SIZEOF_SLAB, SIZEOF_PTR in *.
  destruct (direct c) in *; rewrite Ea in *.
  - destruct F1 as (_ & _ & Cl). rewrite Forall_forall in Cl.
    apply (clear_owned a PAGE_SIZE c' x G'); [apply Cl; by eapply list_elem_of_lookup_2|done|lia].
  - rewrite Forall_forall in F2. eapply (clear_owned a _ c' x G'); [apply F2; by eapply list_elem_of_lookup_2|done|done].
Qed.
End fresh.

Lemma block_same m m' p bs sz : m' !! (p - HEADER) = m !! (p - HEADER) -> block_at m p bs sz -> block_at m' p bs sz.
Proof. intros E (d & Ed & H). exists d. by rewrite E. Qed.

Section heap.
Context (h : kheap) (Al : list (gset Z)) (H : gmap Z (list Z)).
Hypothesis Ok : heap_ok h Al H.

Lemma cache_at i sz : allocsizes !! i = Some sz -> exists c A, cache_of h Al i c A sz.
Proof.
  intros E. destruct (ho_len _ _ _ Ok) as [L1 L2]. pose proof (lookup_lt_Some _ _ _ E) as Li.
  destruct (lookup_lt_is_Some_2 (caches h) i) as [c Ec]; [lia|]. destruct (lookup_lt_is_Some_2 Al i) as [A EA]; [lia|].
  by exists c, A.
Qed.

Lemma cache_at_index i c : caches h !! i = Some c -> exists A sz, cache_of h Al i c A sz.
Proof.
  intros E. destruct (ho_len _ _ _ Ok) as [L1 L2]. pose proof (lookup_lt_Some _ _ _ E) as Li.
  destruct (lookup_lt_is_Some_2 allocsizes i) as [sz Es]; [lia|]. destruct (cache_at i sz Es) as (c' & A & Cc).
  exists A, sz. destruct Cc as (? & ? & ?). split_and!; congruence.
Qed.

(** Objects of two caches are different. *)
Lemma other_cache i j c c' A A' sz sz' x y :
  cache_of h Al i c A sz -> cache_of h Al j c' A' sz' -> i <> j -> x ∈ A -> y ∈ A' -> x <> y.
Proof.
  intros Ci Cj Ne Hx Hy ->. eapply (ho_apart _ _ _ Ok i j c c' y); [apply Ci|apply Cj|done| |].
  - eapply rel_owned; [by eapply (ho_rel _ _ _ Ok _ _ _ _ Ci)|done].
  - eapply rel_owned; [by eapply (ho_rel _ _ _ Ok _ _ _ _ Cj)|done].
Qed.

(** One cache is replaced, and the contents of what the others own is kept. *)
Lemma heap_replace i c A sz c' A' m' H' :
  cache_of h Al i c A sz -> same_params c c' -> cache_rel c' m' A' ->
  (forall j c2 x, caches h !! j = Some c2 -> j <> i -> owned c2 x -> ~ owned c' x /\ m' !! x = areas h !! x) ->
  (forall p bs, H' !! p = Some bs ->
     (p - HEADER ∈ A' /\ block_at m' p bs sz) \/
     (H !! p = Some bs /\ p - HEADER ∉ A)) ->
  (forall o, o ∈ A' -> is_Some (H' !! (o + HEADER))) ->
  (forall p, is_Some (H !! p) -> p - HEADER ∉ A -> is_Some (H' !! p)) ->
  heap_ok (mk_kheap (<[i := c']> (caches h)) m') (<[i := A']> Al) H'.
Proof.
  intros Ci Pr R Oth Bl All Keep. destruct Ci as (Ec & EA & Esz). destruct (ho_len _ _ _ Ok) as [L1 L2].
  pose proof (lookup_lt_Some _ _ _ Ec) as Li1. pose proof (lookup_lt_Some _ _ _ EA) as Li2.
  assert (Cs : forall j c2 A2 sz2, cache_of (mk_kheap (<[i := c']> (caches h)) m') (<[i := A']> Al) j c2 A2 sz2 ->
     (j = i /\ c2 = c' /\ A2 = A' /\ sz2 = sz) \/ (j <> i /\ cache_of h Al j c2 A2 sz2)).
  { intros j c2 A2 sz2 (E1 & E2 & E3). cbn in E1. destruct (decide (j = i)) as [->|Ne].
    - rewrite list_lookup_insert_eq in E1 by done. rewrite list_lookup_insert_eq in E2 by done. left. split_and!; congruence.
    - rewrite list_lookup_insert_ne in E1 by done. rewrite list_lookup_insert_ne in E2 by done. right. done. }
  split.
  - cbn. by rewrite !length_insert.
  - intros j c2 A2 sz2 [(-> & -> & -> & ->)|[Ne C2]]%Cs.
    + destruct Pr as (-> & _). eapply (ho_size _ _ _ Ok). by split; [|split].
    + by eapply (ho_size _ _ _ Ok).
  - intros j c2 A2 sz2 [(-> & -> & -> & ->)|[Ne C2]]%Cs; [done|]. cbn. apply (rel_frame _ (areas h)); [by eapply (ho_rel _ _ _ Ok)|].
    intros x Ow _. by eapply Oth; [apply C2| |].
  - cbn. intros j k c1 c2 x E1 E2 Ne O1. destruct (decide (j = i)) as [->|Nj].
    + rewrite list_lookup_insert_eq in E1 by done. injection E1 as <-. rewrite list_lookup_insert_ne in E2 by done.
      intros O2. by destruct (Oth k c2 x E2 (not_eq_sym Ne) O2).
    + rewrite list_lookup_insert_ne in E1 by done. destruct (decide (k = i)) as [->|Nk].
      * rewrite list_lookup_insert_eq in E2 by done. injection E2 as <-. by apply (Oth j c1 x E1 Ne).
      * rewrite list_lookup_insert_ne in E2 by done. by eapply (ho_apart _ _ _ Ok j k).
  - intros p bs [[Hp B]|[E Np]]%Bl.
    + exists i, c', A', sz. split; [|done]. split; [by apply list_lookup_insert_eq|split; [by apply list_lookup_insert_eq|done]].
    + destruct (ho_block _ _ _ Ok p bs E) as (j & c2 & A2 & sz2 & C2 & Hp & B).
      assert (j <> i) by (intros ->; destruct C2 as (_ & ? & _); congruence).
      exists j, c2, A2, sz2. split; [|split; [done|]].
      * destruct C2 as (? & ? & ?). split; [by cbn; rewrite list_lookup_insert_ne|split; [by rewrite list_lookup_insert_ne|done]].
      * cbn. eapply block_same; [|exact B]. eapply (Oth j c2); [apply C2|done|]. eapply rel_owned; [|exact Hp]. by eapply (ho_rel _ _ _ Ok).
  - intros j A2 o E2 Ho. destruct (decide (j = i)) as [->|Ne].
    + rewrite list_lookup_insert_eq in E2 by done. injection E2 as <-. by apply All.
    + rewrite list_lookup_insert_ne in E2 by done. apply Keep; [by eapply (ho_all _ _ _ Ok)|].
      replace (o + HEADER - HEADER) with o by (unfold HEADER; lia). intros Ho2.
      destruct (lookup_lt_is_Some_2 (caches h) j) as [c2 Ec2]; [apply lookup_lt_Some in E2; lia|].
      destruct (cache_at_index j c2 Ec2) as (A3 & sz3 & C3). assert (A3 = A2) as -> by (destruct C3 as (_ & ? & _); congruence).
      by eapply (other_cache j i c2 c A2 A sz3 sz o o).
Qed.

Lemma block_index p bs : H !! p = Some bs -> exists i c A sz d,
  cache_of h Al i c A sz /\ p - HEADER ∈ A /\ areas h !! (p - HEADER) = Some (mk_area sz (Z.of_nat (length bs)) d) /\
  length d = Z.to_nat sz /\ bs = take (length bs) d /\ getcachefromsize sz = Some i /\ (length bs <= Z.to_nat sz)%nat.
Proof.
  intros E. destruct (ho_block _ _ _ Ok p bs E) as (i & c & A & sz & Ci & Hp & d & Ed & Ld & Eb).
  exists i, c, A, sz, d. split_and!; try done; [apply cache_index_size, Ci|].
  rewrite <- Ld, Eb at 1. rewrite length_take. lia.
Qed.

(** A block is taken from cache [i]; what it then holds is up to the caller. *)
Lemma heap_take page objbase size i c A sz :
  getcachefromsize size = Some i -> cache_of h Al i c A sz -> heap_fresh page objbase size h ->
  exists r c' m, slab_allocate page objbase c (areas h) = Some (r, c', m) /\
    match r with
    | None => c' = c /\ m = areas h
    | Some o => H !! (o + HEADER) = None /\
        (exists cur, m !! o = Some (mk_area sz cur (replicate (Z.to_nat sz) 0))) /\
        (forall p, is_Some (H !! p) -> m !! (p - HEADER) = areas h !! (p - HEADER) /\ p - HEADER <> o) /\
        forall a bs, block_at (<[o := a]> m) (o + HEADER) bs sz ->
          heap_ok (mk_kheap (<[i := c']> (caches h)) (<[o := a]> m)) (<[i := {[o]} ∪ A]> Al) (<[o + HEADER := bs]> H)
    end.
Proof.
  intros Gi Ci Fr. pose proof (ho_rel _ _ _ Ok _ _ _ _ Ci) as R. pose proof (rel_geo _ _ _ R) as G. pose proof Ci as (Ec & EA & Esz).
  destruct (slab_allocate_ok page objbase c (areas h) A R) as (r & c' & m & E & Pr & Same & Own & Res).
  { by eapply heap_fresh_memory. }
  exists r, c', m. split; [done|]. destruct r as [o|]; [|naive_solver]. destruct Res as (No & R' & cur & Cl).
  rewrite (ho_size _ _ _ Ok _ _ _ _ Ci) in Cl. unfold CAPACITY_SIZE in Cl. replace (sz + HEADER - HEADER) with sz in Cl by lia.
  assert (Oo : owned c' o) by (eapply rel_owned; [exact R'|set_solver]).
  assert (Ot : forall j c2 x, caches h !! j = Some c2 -> owned c2 x -> m !! x = areas h !! x /\ (j <> i -> ~ owned c' x)).
  { intros j c2 x Ej Ox. destruct (cache_at_index j c2 Ej) as (A2 & sz2 & C2).
    assert (Ng : ~ grown page objbase c x)
      by (eapply heap_fresh_owned; try done; eapply rel_geo, (ho_rel _ _ _ Ok _ _ _ _ C2)).
    split; [by apply Same|]. intros Ne [Oc|?]%Own; [|done]. by eapply (ho_apart _ _ _ Ok j i). }
  assert (Old : forall p, is_Some (H !! p) -> m !! (p - HEADER) = areas h !! (p - HEADER) /\ p - HEADER <> o).
  { intros p [bs Ep]. destruct (block_index p bs Ep) as (j & c2 & A2 & sz2 & d & C2 & Hp & _).
    assert (Ox : owned c2 (p - HEADER)) by (eapply rel_owned; [eapply (ho_rel _ _ _ Ok _ _ _ _ C2)|done]).
    destruct (Ot j c2 _ (proj1 C2) Ox) as [S1 S2]. split; [done|]. intros Eo. destruct (decide (j = i)) as [->|Ne].
    - apply No. rewrite <- Eo. assert (A2 = A) as <- by (destruct C2 as (_ & ? & _); congruence). done.
    - apply (S2 Ne). by rewrite Eo. }
  split.
  { destruct (H !! (o + HEADER)) eqn:Eh; [|done]. destruct (Old (o + HEADER)) as [_ N]; [by eexists|]. lia. }
  split; [by exists cur|]. split; [done|]. intros a bs Bl. apply (heap_replace i c A sz); try done.
  - apply (rel_frame _ m); [done|]. intros x _ Nx. apply lookup_insert_ne. set_solver.
  - intros j c2 x Ej Ne Ox. destruct (Ot j c2 x Ej Ox) as [S1 S2]. split; [auto|]. rewrite lookup_insert_ne; [done|].
    intros ->. by apply (S2 Ne).
  - intros p bs' [[<- <-]|[Ne Ep]]%lookup_insert_Some.
    + left. split; [|done]. replace (o + HEADER - HEADER) with o by lia. set_solver.
    + destruct (Old p) as [S1 S2]; [by eexists|]. destruct (block_index p bs' Ep) as (j & c2 & A2 & sz2 & d & C2 & Hp & Ea & Ld & Eb & _).
      destruct (decide (j = i)) as [->|Nj].
      * assert (A2 = A /\ sz2 = sz) as [-> ->] by (destruct C2 as (_ & ? & ?); split; congruence). left. split; [set_solver|].
        exists d. by rewrite lookup_insert_ne, S1 by done.
      * right. split; [done|]. intros HA. by eapply (other_cache j i c2 c A2 A).
  - intros x [->%elem_of_singleton|Hx]%elem_of_union; [rewrite lookup_insert_eq; eauto|].
    rewrite lookup_insert_ne; [by eapply (ho_all _ _ _ Ok)|]. intros Q. apply No. by replace o with x by lia.
  - intros p Hp _. rewrite lookup_insert_is_Some. destruct (decide (o + HEADER = p)); auto.
Qed.

(** A block is given back. *)
Lemma heap_give p bs sz i c cur d :
  H !! p = Some bs -> areas h !! (p - HEADER) = Some (mk_area sz cur d) -> getcachefromsize sz = Some i ->
  caches h !! i = Some c -> exists c' m A,
    slab_free (p - HEADER) c (areas h) = Some (c', m) /\ Al !! i = Some A /\
    heap_ok (mk_kheap (<[i := c']> (caches h)) m) (<[i := A ∖ {[p - HEADER]}]> Al) (delete p H).
Proof.
  intros Ep Ea Gi Ec. destruct (block_index p bs Ep) as (j & c2 & A & sz2 & d2 & Ci & Hp & Ea2 & _ & _ & Gj & _).
  rewrite Ea in Ea2. injection Ea2 as -> -> ->. rewrite Gi in Gj. injection Gj as ->.
  assert (c2 = c) as -> by (destruct Ci as (? & _); congruence). pose proof (ho_rel _ _ _ Ok _ _ _ _ Ci) as R.
  destruct (slab_free_ok c (areas h) A (p - HEADER) R Hp) as (c' & E & Pr & Sb & R').
  eexists c', _, A. split; [exact E|]. split; [apply Ci|]. apply (heap_replace j c A sz2); try done.
  - intros k c3 x Ek Ne Ox. destruct (cache_at_index k c3 Ek) as (A3 & sz3 & C3). split.
    + intros Oc%(owned_bases c); [|done|done]. by eapply (ho_apart _ _ _ Ok k j).
    + cbn [dtor area_objects]. unfold initarea. apply lookup_insert_ne. intros <-. eapply (ho_apart _ _ _ Ok k j c3 c); [done|done|done|exact Ox|by eapply rel_owned].
  - intros q bs' [Ne Eq]%lookup_delete_Some. destruct (block_index q bs' Eq) as (k & c3 & A3 & sz3 & d3 & C3 & Hq & Eaq & Ld & Eb & _).
    assert (q - HEADER <> p - HEADER) by lia. destruct (decide (k = j)) as [->|Nk].
    + assert (A3 = A /\ sz3 = sz2) as [-> ->] by (destruct C3 as (_ & ? & ?), Ci as (_ & ? & ?); split; congruence).
      left. split; [set_solver|]. exists d3. cbn [dtor area_objects]. unfold initarea. by rewrite lookup_insert_ne.
    + right. split; [done|]. intros HA. by eapply (other_cache k j c3 c A3 A).
  - intros o [Ho No]%elem_of_difference. rewrite lookup_delete_ne; [eapply (ho_all _ _ _ Ok); [apply Ci|done]|].
    intros ->. apply No. apply elem_of_singleton. unfold HEADER. lia.
  - intros q Hq Nq. rewrite lookup_delete_ne; [done|]. intros ->. done.
Qed.

(** A caller changes its block in place. *)
Lemma heap_set p bs sz cur d bs' a :
  H !! p = Some bs -> areas h !! (p - HEADER) = Some (mk_area sz cur d) ->
  block_at (<[p - HEADER := a]> (areas h)) p bs' sz ->
  heap_ok (mk_kheap (caches h) (<[p - HEADER := a]> (areas h))) Al (<[p := bs']> H).
Proof.
  intros Ep Ea Bl. destruct (block_index p bs Ep) as (i & c & A & sz2 & d2 & Ci & Hp & Ea2 & _).
  rewrite Ea in Ea2. injection Ea2 as <- _ _. pose proof (ho_rel _ _ _ Ok _ _ _ _ Ci) as R. pose proof Ci as (Ec & EA & _).
  rewrite <- (list_insert_id (caches h) i c) by done. rewrite <- (list_insert_id Al i A) by done.
  apply (heap_replace i c A sz); try done.
  - apply (rel_frame _ (areas h)); [done|]. intros x _ Nx. apply lookup_insert_ne. intros <-. done.
  - intros j c2 x Ej Ne Ox. assert (No : ~ owned c x) by (by eapply (ho_apart _ _ _ Ok j i)). split; [done|].
    apply lookup_insert_ne. intros <-. apply No. by eapply rel_owned.
  - intros q bq [[<- <-]|[Ne Eq]]%lookup_insert_Some; [by left|].
    destruct (block_index q bq Eq) as (k & c3 & A3 & sz3 & d3 & C3 & Hq & Eaq & Ld & Eb & _). destruct (decide (k = i)) as [->|Nk].
    + assert (A3 = A /\ sz3 = sz) as [-> ->] by (destruct C3 as (_ & ? & ?), Ci as (_ & ? & ?); split; congruence).
      left. split; [done|]. exists d3. rewrite lookup_insert_ne by lia. done.
    + right. split; [done|]. intros HA. by eapply (other_cache k i c3 c A3 A).
  - intros o Ho. rewrite lookup_insert_is_Some. destruct (decide (p = o + HEADER)); [by left|right]. split; [done|].
    by eapply (ho_all _ _ _ Ok).
  - intros q Hq _. rewrite lookup_insert_is_Some. destruct (decide (p = q)); auto.
Qed.
End heap.

(** ** Sequences of requests *)

Inductive heap_op :=
  | HAlloc (page objbase : option Z) (size : Z)
  | HFree (p : Z)
  | HRealloc (page objbase : option Z) (p size : Z)
  | HPoke (p : Z) (off : nat) (bs : list Z).

Definition heap_exec (o : heap_op) (h : kheap) : option (option Z * kheap) :=
  match o with
  | HAlloc page objbase size => alloc page objbase size h
  | HFree p => h' ← free p h; Some (None, h')
  | HRealloc page objbase p size => realloc page objbase p size h
  | HPoke p off bs => h' ← poke p off bs h; Some (None, h')
  end.

(** A block of [n] bytes: the old ones as far as they go, then zeros. *)
Definition resize_block (n : nat) (bs : list Z) : list Z := take n bs ++ replicate (n - length bs) 0.

(** What the operation means for the callers' heap [H]. *)
Definition heap_spec (o : heap_op) (r : option Z) (H : gmap Z (list Z)) : gmap Z (list Z) :=
  match o, r with
  | HAlloc _ _ size, Some q => <[q := replicate (Z.to_nat size) 0]> H
  | HFree p, _ => delete p H
  | HRealloc _ _ p size, Some q => <[q := resize_block (Z.to_nat size) (default [] (H !! p))]> (delete p H)
  | HPoke p off bs, _ => <[p := splice (default [] (H !! p)) off bs]> H
  | _, None => H
  end.

(** A new pointer is not one a caller has. *)
Definition heap_new (o : heap_op) (r : option Z) (H : gmap Z (list Z)) : Prop :=
  match o, r with
  | HAlloc _ _ _, Some q => H !! q = None
  | HRealloc _ _ p _, Some q => q = p \/ H !! q = None
  | _, _ => True
  end.

Definition heap_legal (o : heap_op) (h : kheap) (H : gmap Z (list Z)) : bool :=
  match o with
  | HAlloc page objbase size => (0 <=? size) && (size <=? 65536) && bool_decide (heap_fresh page objbase size h)
  | HFree p => bool_decide (is_Some (H !! p))
  | HRealloc page objbase p size =>
      (0 <=? size) && (size <=? 65536) && bool_decide (is_Some (H !! p)) && bool_decide (heap_fresh page objbase size h)
  | HPoke p off bs => match H !! p with Some b => (off + length bs <=? length b)%nat | None => false end
  end.

Fixpoint heap_run (os : list heap_op) (h : kheap) (H : gmap Z (list Z)) : option (list (option Z) * kheap * gmap Z (list Z)) :=
  match os with
  | [] => Some ([], h, H)
  | o :: os' =>
      '(r, h1) ← heap_exec o h;
      '(rs, h2, H2) ← heap_run os' h1 (heap_spec o r H);
      Some (r :: rs, h2, H2)
  end.

Fixpoint heap_legal_run (os : list heap_op) (h : kheap) (H : gmap Z (list Z)) : bool :=
  match os with
  | [] => true
  | o :: os' => heap_legal o h H &&
      match heap_exec o h with Some (r, h1) => heap_legal_run os' h1 (heap_spec o r H) | None => true end
  end.

Inductive heap_trace : list heap_op -> list (option Z) -> gmap Z (list Z) -> Prop :=
  | heap_trace_nil H : heap_trace [] [] H
  | heap_trace_cons o os r rs H : heap_new o r H -> heap_trace os rs (heap_spec o r H) -> heap_trace (o :: os) (r :: rs) H.

Section exec.
Context (h : kheap) (H : gmap Z (list Z)).
Hypothesis R : heap_rel h H.

(** One request is done as specified. *)
Definition served (o : heap_op) : Prop :=
  exists r h', heap_exec o h = Some (r, h') /\ heap_rel h' (heap_spec o r H) /\ heap_new o r H.

Lemma alloc_served page objbase size :
  0 <= size <= 65536 -> heap_fresh page objbase size h -> served (HAlloc page objbase size).
Proof.
  intros Sz Fr. destruct R as [Al Ok]. destruct (cache_index_total size) as [i Gi]; [lia|].
  destruct (cache_index_spec size i Gi) as (sz & Esz & Le). destruct (cache_at h Al H Ok i sz Esz) as (c & A & Ci).
  destruct (heap_take h Al H Ok page objbase size i c A sz Gi Ci Fr) as (r & c' & m & E & Res).
  unfold served. cbn [heap_exec]. unfold alloc. rewrite Gi. cbn [mbind option_bind]. rewrite (proj1 Ci). cbn [mbind option_bind].
  rewrite E. cbn [mbind option_bind]. destruct r as [o|].
  - destruct Res as (Nh & (cur & Ea) & _ & Hk). rewrite Ea. cbn [mbind option_bind capacity data].
    rewrite (ho_size _ _ _ Ok _ _ _ _ Ci). unfold CAPACITY_SIZE. replace (sz + HEADER - HEADER) with sz by lia. rewrite Z.eqb_refl.
    cbn [passert mbind option_bind]. eexists _, _. split; [done|]. split; [|done]. eexists. apply Hk.
    exists (replicate (Z.to_nat sz) 0). rewrite length_replicate. replace (o + HEADER - HEADER) with o by lia. rewrite lookup_insert_eq.
    split; [do 2 f_equal; lia|]. split; [by rewrite length_replicate|]. rewrite take_replicate. f_equal. lia.
  - destruct Res as [-> ->]. eexists None, _. split; [done|]. split; [|done]. exists Al.
    rewrite list_insert_id by apply Ci. by destruct h.
Qed.

Lemma free_served p : is_Some (H !! p) -> served (HFree p).
Proof.
  intros [bs Ep]. destruct R as [Al Ok]. destruct (block_index h Al H Ok p bs Ep) as (i & c & A & sz & d & Ci & _ & Ea & _ & _ & Gi & _).
  destruct (heap_give h Al H Ok p bs sz i c _ d Ep Ea Gi (proj1 Ci)) as (c' & m & A' & E & _ & Ok').
  unfold served. cbn [heap_exec]. unfold free. rewrite Ea. cbn [mbind option_bind capacity]. rewrite Gi. cbn [mbind option_bind].
  rewrite (proj1 Ci). cbn [mbind option_bind]. rewrite E. eexists None, _. split; [done|]. split; [by eexists|done].
Qed.

Lemma poke_served p off bs b : H !! p = Some b -> (off + length bs <= length b)%nat -> served (HPoke p off bs).
Proof.
  intros Ep Fit. destruct R as [Al Ok].
  destruct (block_index h Al H Ok p b Ep) as (i & c & A & sz & d & Ci & _ & Ea & Ld & Eb & Gi & Lb).
  unfold served. cbn [heap_exec]. unfold poke, store. rewrite Ea. cbn [mbind option_bind data].
  destruct (Nat.leb_spec (off + length bs) (length d)); [|lia]. cbn [passert mbind option_bind].
  eexists None, _. split; [done|]. split; [|done]. exists Al. cbn [heap_spec]. rewrite Ep. apply (heap_set h Al H Ok p b sz _ d _ _ Ep Ea).
  exists (splice d off bs). rewrite lookup_insert_eq. cbn [default capacity current]. unfold id.
  rewrite length_splice by lia. split; [done|]. rewrite length_splice by lia. split; [done|].
  apply list_eq. intros k. destruct (decide (k < length b)%nat) as [Hk|Hk].
  - rewrite lookup_take_lt by done. rewrite !lookup_splice by lia. rewrite Eb, lookup_take_lt by done. done.
  - rewrite lookup_take_ge by lia. apply lookup_ge_None_2. rewrite length_splice; lia.
Qed.

(** A shrinking [realloc] keeps the block. *)
Lemma realloc_shrink Al p b i c A sz d size :
  heap_ok h Al H -> H !! p = Some b -> cache_of h Al i c A sz ->
  areas h !! (p - HEADER) = Some (mk_area sz (Z.of_nat (length b)) d) -> length d = Z.to_nat sz -> b = take (length b) d ->
  0 <= size <= Z.of_nat (length b) ->
  heap_rel (mk_kheap (caches h) (<[p - HEADER := mk_area sz size d]> (areas h)))
    (<[p := resize_block (Z.to_nat size) b]> (delete p H)).
Proof.
  intros Ok Ep Ci Ea Ld Eb Sz. exists Al. rewrite insert_delete_eq.
  apply (heap_set h Al H Ok p b sz _ d _ _ Ep Ea). exists d. rewrite lookup_insert_eq. unfold resize_block.
  replace (Z.to_nat size - length b)%nat with 0%nat by lia. cbn [replicate]. rewrite app_nil_r, length_take.
  split; [do 2 f_equal; lia|]. split; [done|]. rewrite Eb at 1. by rewrite take_take.
Qed.

Lemma grow_block (d b : list Z) n z :
  b = take (length b) d -> (length b <= n)%nat -> (n <= length d)%nat -> z = replicate (n - length b) 0 ->
  length (splice d (length b) z) = length d /\ resize_block n b = take n (splice d (length b) z).
Proof.
  intros Eb L1 L2 ->. assert (Lz : length (replicate (n - length b) 0) = (n - length b)%nat) by apply length_replicate.
  split; [by apply length_splice; rewrite Lz; lia|]. unfold resize_block, splice. rewrite take_ge by lia. rewrite <- Eb, app_assoc.
  rewrite take_app_le by (rewrite length_app, Lz; lia). rewrite take_ge; [done|]. rewrite length_app, Lz. lia.
Qed.

(** A growing [realloc] within the capacity extends it in place. *)
Lemma realloc_grow Al p b i c A sz d size :
  heap_ok h Al H -> H !! p = Some b -> cache_of h Al i c A sz ->
  areas h !! (p - HEADER) = Some (mk_area sz (Z.of_nat (length b)) d) -> length d = Z.to_nat sz -> b = take (length b) d ->
  Z.of_nat (length b) < size <= sz -> exists a',
    store (Z.to_nat (Z.of_nat (length b))) (replicate (Z.to_nat (size - Z.of_nat (length b))) 0) (mk_area sz (Z.of_nat (length b)) d) = Some a' /\
    heap_rel (mk_kheap (caches h) (<[p - HEADER := mk_area (capacity a') size (data a')]> (areas h)))
      (<[p := resize_block (Z.to_nat size) b]> (delete p H)).
Proof.
  intros Ok Ep Ci Ea Ld Eb Sz. destruct (grow_block d b (Z.to_nat size) (replicate (Z.to_nat (size - Z.of_nat (length b))) 0)) as [G1 G2];
    [done|lia|lia|f_equal; lia|].
  unfold store. cbn [data]. rewrite length_replicate, Nat2Z.id.
  destruct (Nat.leb_spec (length b + Z.to_nat (size - Z.of_nat (length b))) (length d)); [|lia].
  cbn [passert mbind option_bind]. eexists. split; [done|]. exists Al. rewrite insert_delete_eq.
  apply (heap_set h Al H Ok p b sz _ d _ _ Ep Ea). eexists. rewrite lookup_insert_eq. cbn [capacity data].
  assert (Lr : length (resize_block (Z.to_nat size) b) = Z.to_nat size)
    by (unfold resize_block; rewrite length_app, length_take, length_replicate; lia).
  rewrite Lr. split; [do 2 f_equal; lia|]. split; [lia|done].
Qed.

Lemma realloc_served page objbase p size :
  0 <= size <= 65536 -> is_Some (H !! p) -> heap_fresh page objbase size h -> served (HRealloc page objbase p size).
Proof.
  intros Sz [b Ep] Fr. destruct R as [Al Ok].
  destruct (block_index h Al H Ok p b Ep) as (i & c & A & sz & d & Ci & _ & Ea & Ld & Eb & Gi & Lb).
  unfold served. cbn [heap_exec heap_spec heap_new]. unfold realloc. rewrite Ea, Ep. cbn [mbind option_bind current data capacity].
  change (default [] (Some b)) with b. destruct (Z.leb_spec size (Z.of_nat (length b))) as [Sh|Gr].
  { eexists (Some p), _. split; [done|]. split; [|by left]. apply (realloc_shrink Al p b i c A sz d size); try done; lia. }
  rewrite Gi. cbn [mbind option_bind]. destruct (cache_index_total size) as [k Gk]; [lia|]. rewrite Gk. cbn [mbind option_bind].
  destruct (cache_index_spec size k Gk) as (sz' & Esz' & Le). destruct (Nat.eqb_spec i k) as [<-|Ne].
  { assert (sz' = sz) as -> by (destruct Ci as (_ & _ & ?); congruence).
    destruct (realloc_grow Al p b i c A sz d size) as (a' & -> & Q); try done. cbn [mbind option_bind].
    eexists (Some p), _. split; [done|]. split; [done|by left]. }
  destruct (cache_at h Al H Ok k sz' Esz') as (ck & Ak & Ck).
  destruct (heap_take h Al H Ok page objbase size k ck Ak sz' Gk Ck Fr) as (r & c' & m & E & Res).
  rewrite (proj1 Ck). cbn [mbind option_bind]. rewrite E. cbn [mbind option_bind]. destruct r as [o|].
  2: { destruct Res as [-> ->]. eexists None, _. split; [done|]. split; [|done]. exists Al.
       rewrite list_insert_id by apply Ck. by destruct h. }
  destruct Res as (Nh & (cur & Eo) & Old & Hk). destruct (Old p) as [S1 S2]; [by eexists|]. rewrite Eo, S1, Ea.
  cbn [mbind option_bind capacity data]. rewrite Nat2Z.id, <- Eb. unfold store. cbn [data]. rewrite length_replicate.
  destruct (Nat.leb_spec (0 + length b) (Z.to_nat sz')); [|lia]. cbn [passert mbind option_bind capacity current].
  set (a := mk_area sz' size (splice (replicate (Z.to_nat sz') 0) 0 b)).
  assert (Bl : block_at (<[o := a]> m) (o + HEADER) (resize_block (Z.to_nat size) b) sz').
  { exists (splice (replicate (Z.to_nat sz') 0) 0 b). replace (o + HEADER - HEADER) with o by lia. rewrite lookup_insert_eq.
    assert (Lr : length (resize_block (Z.to_nat size) b) = Z.to_nat size)
      by (unfold resize_block; rewrite length_app, length_take, length_replicate; lia).
    rewrite Lr. split; [unfold a; do 2 f_equal; lia|]. rewrite length_splice by (rewrite length_replicate; lia).
    split; [apply length_replicate|]. unfold splice, resize_block. rewrite (take_ge b), take_0 by lia. cbn [app Nat.add].
    rewrite take_app, (take_ge b) by lia. f_equal. rewrite drop_replicate, take_replicate. f_equal. lia. }
  pose proof (Hk a _ Bl) as Ok1. rewrite list_lookup_insert_ne by done. rewrite (proj1 Ci). cbn [mbind option_bind].
  destruct (heap_give _ _ _ Ok1 p b sz i c (Z.of_nat (length b)) d) as (o' & m' & A' & E' & _ & Ok2).
  - rewrite lookup_insert_ne; [done|]. intros Q. rewrite Q in Nh. congruence.
  - cbn [areas]. by rewrite lookup_insert_ne, S1 by (by apply not_eq_sym).
  - done.
  - cbn [caches]. rewrite list_lookup_insert_ne by done. apply Ci.
  - cbn [areas caches] in *. rewrite E'. cbn [mbind option_bind]. eexists (Some (o + HEADER)), _. split; [done|]. split; [|by right].
    eexists. rewrite <- delete_insert_ne; [exact Ok2|]. intros Q. rewrite Q in Ep. congruence.
Qed.
End exec.

Lemma heap_exec_ok o h H : heap_rel h H -> heap_legal o h H = true -> served h H o.
Proof.
  intros R L. destruct o as [page objbase size|p|page objbase p size|p off bs]; cbn [heap_legal] in L.
  - apply andb_true_iff in L as [[?%Z.leb_le ?%Z.leb_le]%andb_true_iff Fr%bool_decide_eq_true]. by apply alloc_served.
  - apply bool_decide_eq_true in L. by apply free_served.
  - apply andb_true_iff in L as [[[?%Z.leb_le ?%Z.leb_le]%andb_true_iff ?%bool_decide_eq_true]%andb_true_iff ?%bool_decide_eq_true].
    by apply realloc_served.
  - destruct (H !! p) as [b|] eqn:Ep; [|done]. apply Nat.leb_le in L. by eapply poke_served.
Qed.


(** A size beyond the largest cache is a failed assertion. *)
Lemma alloc_too_large page objbase size h : 65536 < size -> alloc page objbase size h = None.
Proof.
  intros Hs. unfold alloc, getcachefromsize, allocsizes. cbn [cache_index].
  repeat (case_match; [lia|]). done.
Qed.

Lemma alloc_init_rel : heap_rel alloc_init ∅.
Proof.
  exists (replicate 12 ∅). assert (Cs : forall i c, caches alloc_init !! i = Some c -> exists sz, allocsizes !! i = Some sz /\ c = newcache (sz + HEADER) 0).
  { intros i c. cbn [alloc_init caches]. rewrite list_lookup_fmap. intros (sz & E & ->)%fmap_Some. eauto. }
  assert (No : forall i c x, caches alloc_init !! i = Some c -> ~ owned c x).
  { intros i c x (sz & _ & ->)%Cs (n & s & k & E & _). done. }
  split; try done.
  - intros i c A sz ((sz' & E' & ->)%Cs & _ & E). cbn. congruence.
  - intros i c A sz ((sz' & E' & ->)%Cs & EA & E). apply lookup_replicate in EA as [-> _]. apply new_rel; try done.
    do 12 (destruct i as [|i]; [injection E' as <-; apply newcache_geo; by vm_compute|]). done.
  - intros i j c c' x Ei _ _ O. by destruct (No i c x Ei).
  - intros i A o [-> _]%lookup_replicate Ho. set_solver.
Qed.

(** ** Witness *)

(** Two blocks; one is written, shrunk, grown in place, moved and shrunk; the
    other is freed; the last request finds no memory. *)
Definition sample_heap_ops : list heap_op :=
  [ HAlloc (Some 0x5000) None 40; HAlloc (Some 0x6000) None 3; HPoke 0x5f88 0 [7; 8; 9]; HRealloc None None 0x5f88 5;
    HRealloc None None 0x5f88 60; HRealloc (Some 0x7000) None 0x5f88 100; HRealloc None None 0x7ee8 4; HFree 0x6f98;
    HAlloc None None 500 ].

