(* ===== verification/Poll.v ===== *)
(** * Waiting for events ([io/poll.c], [include/kernel/poll.h],
      [include/kernel/event.h])

    A thread that waits registers one [polldata_t] per source with the
    source's [pollheader_t]; the registrations of a header form a doubly linked
    chain, modelled at pointer level over [datas].  The spinlocks [lock] and
    [wakeuplock] of a descriptor are state (the code hands them from one thread
    to another), so they are booleans here; the sections under a header's lock
    or a descriptor's [eventlock] are the atomic events of a run. *)

From S2P Require Import Prelude Errno DList Semaphore.

Definition POLLIN : Z := 0x1.
Definition POLLPRI : Z := 0x2.
Definition POLLOUT : Z := 0x4.
Definition POLLERR : Z := 0x8.
Definition POLLHUP : Z := 0x10.
Definition POLLNVAL : Z := 0x20.

(** ** Data *)

Record polldata_t := mk_data {
  dnext : option nat;
  dprev : option nat;
  dheader : option nat;
  ddesc : nat;
  devents : Z;
  drevents : Z
}.

#[export, refine] Instance polldata_linked : Linked polldata_t (option nat * nat * Z * Z) := {
  lnext := dnext;
  lprev := dprev;
  payload x := (dheader x, ddesc x, devents x, drevents x);
  with_next v x := mk_data v (dprev x) (dheader x) (ddesc x) (devents x) (drevents x);
  with_prev v x := mk_data (dnext x) v (dheader x) (ddesc x) (devents x) (drevents x)
}.
Proof. all: done. Defined.

(** Where the thread that owns a descriptor is: registering with the sources,
    between the two halves of [poll_dowait], after it, or past [poll_leave]. *)
Inductive phase_t := Setup | Waiting | Done | Left.

#[export] Instance phase_eq_dec : EqDecision phase_t.
Proof. solve_decision. Defined.

(** [timed] says that the wait armed a timer; [phase] and [timed] stand for
    the position and the local variable of [poll_dowait]. *)
Record polldesc_t := mk_desc {
  thread : nat;
  lock : bool;
  wakeuplock : bool;
  data : list nat;
  event : option nat;
  dsize : nat;
  phase : phase_t;
  timed : bool
}.

Record poll_st := mk_poll {
  datas : gmap nat polldata_t;
  descs : gmap nat polldesc_t;
  headers : list (option nat);
  threads : threads_t
}.

Definition with_datas (v : gmap nat polldata_t) (s : poll_st) : poll_st := mk_poll v (descs s) (headers s) (threads s).
Definition with_descs (v : gmap nat polldesc_t) (s : poll_st) : poll_st := mk_poll (datas s) v (headers s) (threads s).
Definition with_threads (v : threads_t) (s : poll_st) : poll_st := mk_poll (datas s) (descs s) (headers s) v.

Definition with_lock (v : bool) (D : polldesc_t) : polldesc_t :=
  mk_desc (thread D) v (wakeuplock D) (data D) (event D) (dsize D) (phase D) (timed D).
Definition with_wakeuplock (v : bool) (D : polldesc_t) : polldesc_t :=
  mk_desc (thread D) (lock D) v (data D) (event D) (dsize D) (phase D) (timed D).
Definition with_event (v : option nat) (D : polldesc_t) : polldesc_t :=
  mk_desc (thread D) (lock D) (wakeuplock D) (data D) v (dsize D) (phase D) (timed D).
Definition with_phase (v : phase_t) (w : bool) (D : polldesc_t) : polldesc_t :=
  mk_desc (thread D) (lock D) (wakeuplock D) (data D) (event D) (dsize D) v w.

Definition with_revents (v : Z) (x : polldata_t) : polldata_t :=
  mk_data (dnext x) (dprev x) (dheader x) (ddesc x) (devents x) v.

(** ** The chains *)

Definition insertinheader (h : nat) (x : nat) (s : poll_st) : option poll_st :=
  first ← headers s !! h;
  ds ← push_front x first (datas s);
  Some (mk_poll ds (descs s) (<[h := Some x]> (headers s)) (threads s)).

(** The first argument is the variable that holds the head of the chain. *)
Definition removefromlist (head : option nat) (x : nat) (ds : gmap nat polldata_t)
    : option (option nat * gmap nat polldata_t) :=
  n ← ds !! x;
  ds1 ← set_prev (dnext n) (dprev n) ds;
  ds2 ← set_next (dprev n) (dnext n) ds1;
  ds3 ← upd x (fun n => with_next None (with_prev None n)) ds2;
  Some (match dprev n with Some _ => head | None => dnext n end, ds3).

(** ** Descriptors *)

(** The entries of a descriptor are [ids]: an array of [size] entries that
    [poll_initdesc] allocates zeroed, or, for an event listener, those of the
    listener, with [size] zero. *)
Definition poll_initdesc (d t size : nat) (ids : list nat) (s : poll_st) : poll_st :=
  mk_poll (list_to_map ((fun x => (x, mk_data None None None d 0 0)) <$> ids) ∪ datas s)
    (<[d := mk_desc t true false ids None size Setup false]> (descs s)) (headers s) (threads s).

Definition poll_add (h x : nat) (events : Z) (s : poll_st) : option poll_st :=
  ds ← upd x (fun n => mk_data (dnext n) (dprev n) (Some h) (ddesc n) events (drevents n)) (datas s);
  insertinheader h x (with_datas ds s).

Definition leave_one (x : nat) (s : poll_st) : option poll_st :=
  n ← datas s !! x;
  match dheader n with
  | None => Some s
  | Some h =>
      first ← headers s !! h;
      '(first', ds) ← removefromlist first x (datas s);
      Some (mk_poll ds (descs s) (<[h := first']> (headers s)) (threads s))
  end.

Fixpoint leave_all (l : list nat) (s : poll_st) : option poll_st :=
  match l with
  | [] => Some s
  | x :: l' => s1 ← leave_one x s; leave_all l' s1
  end.

(** [desc->size == 0 ? 1 : desc->size] *)
Definition leave_count (D : polldesc_t) : nat := match dsize D with O => 1%nat | n => n end.

Definition poll_leave (d : nat) (s : poll_st) : option poll_st :=
  D ← descs s !! d;
  passert (bool_decide (leave_count D <= length (data D))%nat);;
  s1 ← leave_all (take (leave_count D) (data D)) s;
  Some (with_descs (<[d := with_phase Left false D]> (descs s1)) s1).

(** The entries go with the descriptor: freed, or on the stack of the caller. *)
Definition poll_destroydesc (d : nat) (s : poll_st) : option poll_st :=
  D ← descs s !! d;
  Some (mk_poll (datas s ∖ list_to_map ((fun x => (x, mk_data None None None d 0 0)) <$> data D))
          (delete d (descs s)) (headers s) (threads s)).

(** ** Waiting *)

(** The timer's callback. *)
Definition timeout (d : nat) (s : poll_st) : option poll_st :=
  D ← descs s !! d;
  if lock D then Some s
  else
    '(_, th) ← sched_wakeup (thread D) 1 (threads s);
    Some (mk_poll (datas s) (<[d := with_lock true D]> (descs s)) (headers s) th).

(** [poll_dowait] up to the yield; the result is [true] when the thread sleeps. *)
Definition poll_dowait_enter (d : nat) (ustimeout : Z) (s : poll_st) : option (bool * poll_st) :=
  D ← descs s !! d;
  match event D with
  | Some _ => Some (false, with_descs (<[d := with_phase Done false D]> (descs s)) s)
  | None =>
      th ← sched_prepare_sleep (thread D) true (threads s);
      Some (true, mk_poll (datas s)
                    (<[d := with_phase Waiting (negb (ustimeout =? 0)) (with_lock false D)]> (descs s))
                    (headers s) th)
  end.

(** [poll_dowait] after the yield.  An interrupted wait spins for [wakeuplock],
    which is [None] here when it is taken. *)
Definition poll_dowait_resume (d : nat) (s : poll_st) : option (Z * poll_st) :=
  D ← descs s !! d;
  T ← threads s !! thread D;
  let ret := wakeupreason T in
  passert (negb (ret =? 0) || lock D);;
  if ret =? SCHED_WAKEUP_REASON_INTERRUPTED then
    passert (negb (wakeuplock D));;
    Some (EINTR, with_descs (<[d := with_phase Done false (with_wakeuplock true D)]> (descs s)) s)
  else Some (if ret =? 1 then 0 else ret, with_descs (<[d := with_phase Done false D]> (descs s)) s).

(** ** Events *)

Definition revents_of (n : polldata_t) (events : Z) : Z :=
  Z.land (Z.lor (Z.lor (devents n) POLLHUP) POLLERR) events.

(** The [||] chain of [spinlock_try]s: whether the entry goes straight back to
    the header, and the locks it leaves. *)
Definition try_locks (revents : Z) (D : polldesc_t) : bool * polldesc_t :=
  if revents =? 0 then (true, D)
  else if lock D then (true, D)
  else
    let D1 := with_lock true D in
    if wakeuplock D1 then (true, D1) else (false, with_wakeuplock true D1).

Fixpoint event_loop (fuel : nat) (h : nat) (events : Z) (pending iterator : option nat) (s : poll_st)
    : option (option nat * poll_st) :=
  match iterator with
  | None => Some (pending, s)
  | Some x =>
      match fuel with
      | O => None
      | S fuel' =>
          n ← datas s !! x;
          D ← descs s !! ddesc n;
          let revents := revents_of n events in
          let '(back, D1) := try_locks revents D in
          '(pending1, s1) ←
            (if back : bool then
               '(p, ds) ← removefromlist pending x (datas s);
               s1 ← insertinheader h x (with_datas ds s);
               Some (p, s1)
             else Some (pending, s));
          let notice := bool_decide (event D1 = None) && negb (revents =? 0) in
          ds ← (if notice then upd x (with_revents revents) (datas s1) else Some (datas s1));
          let D2 := if notice then with_event (Some x) D1 else D1 in
          event_loop fuel' h events pending1 (dnext n)
            (mk_poll ds (<[ddesc n := D2]> (descs s1)) (headers s1) (threads s1))
      end
  end.

Fixpoint wake_loop (fuel : nat) (h : nat) (iterator : option nat) (s : poll_st) : option poll_st :=
  match iterator with
  | None => Some s
  | Some x =>
      match fuel with
      | O => None
      | S fuel' =>
          n ← datas s !! x;
          D ← descs s !! ddesc n;
          '(_, th) ← sched_wakeup (thread D) SCHED_WAKEUP_REASON_NORMAL (threads s);
          s1 ← insertinheader h x (with_threads th s);
          wake_loop fuel' h (dnext n) (with_descs (<[ddesc n := with_wakeuplock false D]> (descs s1)) s1)
      end
  end.

(** Each loop visits an entry at most once. *)
Definition poll_event (h : nat) (events : Z) (s : poll_st) : option poll_st :=
  first ← headers s !! h;
  let fuel := S (size (datas s)) in
  '(pending, s1) ← event_loop fuel h events first first
                     (mk_poll (datas s) (descs s) (<[h := None]> (headers s)) (threads s));
  wake_loop fuel h pending s1.

(** ** Chains of registrations *)

Definition chains (ds : gmap nat polldata_t) (ls : list (list nat)) : Prop :=
  (forall l, l ∈ ls -> dseg ds None l None) /\ NoDup (mjoin ls).

Definition heads_of (ls : list (list nat)) : list (option nat) := (fun l => hdo l None) <$> ls.

Lemma chains_dlists ds ls : chains ds ls -> dlists ds (heads_of ls) ((fun l => lasto None l) <$> ls) ls.
Proof. intros [S ND]. by split. Qed.

Lemma dlists_chains ds hs ts ls : dlists ds hs ts ls -> chains ds ls /\ hs = heads_of ls.
Proof. intros [H _ S ND]. by split; [split|]. Qed.

Lemma chains_push ds ls h l x n :
  chains ds ls -> ls !! h = Some l -> x ∉ mjoin ls -> ds !! x = Some n ->
  exists ds', push_front x (hdo l None) ds = Some ds' /\ chains ds' (<[h := x :: l]> ls) /\ same_payload ds ds' /\
    forall y, y ∉ mjoin ls -> y <> x -> ds' !! y = ds !! y.
Proof.
  intros C El Nx E. destruct (dlists_push _ _ _ _ h l x n (chains_dlists _ _ C) El Nx E) as (ds' & P & D & S & F).
  apply dlists_chains in D as [D _]. eauto 10.
Qed.

(** [removefromlist] is [unlink], then the links of the object are cleared. *)
Lemma removefromlist_ok ds l1 x l2 :
  dseg ds None (l1 ++ x :: l2) None -> NoDup (l1 ++ x :: l2) ->
  exists n ds1, ds !! x = Some n /\ dnext n = hdo l2 None /\ unlink x ds = Some ds1 /\ ds1 !! x = Some n /\
    removefromlist (hdo (l1 ++ x :: l2) None) x ds =
      Some (hdo (l1 ++ l2) None, <[x := with_next None (with_prev None n)]> ds1).
Proof.
  intros Sg ND. destruct (unlink_ok _ _ _ _ Sg ND) as (n & ds1 & E & Pv & Nx & U & _ & _ & E1 & _).
  exists n, ds1. split; [done|]. split; [done|]. split; [done|]. split; [done|].
  unfold removefromlist. rewrite E. cbn [mbind option_bind].
  assert (U' : (ds1 ← set_prev (dnext n) (dprev n) ds; set_next (dprev n) (dnext n) ds1) = Some ds1).
  { unfold unlink in U. rewrite E in U. cbn [mbind option_bind] in U. rewrite <- U. symmetry. apply set_next_prev_comm.
    change (dprev n = lasto None l1) in Pv. change (dnext n = hdo l2 None) in Nx.
    change (lprev n) with (dprev n). change (lnext n) with (dnext n). rewrite Pv, Nx. intros y Ey Ey'. assert (y ∈ l1) by (by apply lasto_elem in Ey; [|destruct l1]).
    assert (y ∈ l2) by (destruct l2; simplify_eq/=; set_solver). apply NoDup_app in ND as (_ & ND & _). set_solver. }
  destruct (set_prev (dnext n) (dprev n) ds) as [ds'|]; [|done]. cbn [mbind option_bind] in U' |- *. rewrite U'.
  cbn [mbind option_bind]. unfold upd. rewrite E1. cbn [mbind option_bind]. repeat f_equal.
  change (dprev n = lasto None l1) in Pv. change (dnext n = hdo l2 None) in Nx. rewrite Pv, Nx, !hdo_app.
  by destruct (lasto_cases None l1) as [[-> ->]|(l & y & -> & ->)]; [|destruct l].
Qed.

(** The entries of a chain go one by one from the pending chain to the header. *)
Lemma chains_move ds ls P h lh l1 x l2 :
  chains ds (ls ++ [P]) -> P = l1 ++ x :: l2 -> ls !! h = Some lh ->
  exists n ds1 ds2, ds !! x = Some n /\ dnext n = hdo l2 None /\
    removefromlist (hdo P None) x ds = Some (hdo (l1 ++ l2) None, ds1) /\
    push_front x (hdo lh None) ds1 = Some ds2 /\
    chains ds2 (<[h := x :: lh]> ls ++ [l1 ++ l2]) /\ same_payload ds ds2.
Proof.
  intros C -> El. pose proof (lookup_lt_Some _ _ _ El) as Lh.
  assert (EP : (ls ++ [l1 ++ x :: l2]) !! length ls = Some (l1 ++ x :: l2)) by (by rewrite list_lookup_middle).
  assert (El' : (ls ++ [l1 ++ x :: l2]) !! h = Some lh) by (by rewrite lookup_app_l).
  destruct (removefromlist_ok ds l1 x l2) as (n & ds1 & E & Nx & U & E1 & R).
  { apply C. by eapply list_elem_of_lookup_2. } { eapply chain_nodup; [apply C|done]. }
  destruct (dlists_move _ _ _ _ (length ls) h l1 x l2 lh (chains_dlists _ _ C) EP El' ltac:(lia))
    as (n' & ds1' & ds2 & ts & E' & U' & Pf & D2 & Sp).
  rewrite E in E'. injection E' as <-. rewrite U in U'. injection U' as <-.
  exists n, (<[x := with_next None (with_prev None n)]> ds1), ds2. split; [done|]. split; [done|]. split; [done|].
  apply dlists_chains in D2 as [D2 _]. rewrite insert_app_r_alt in D2 by done. rewrite Nat.sub_diag in D2. cbn in D2.
  rewrite insert_app_l in D2 by done. split; [|done].
  unfold push_front, upd in Pf |- *. rewrite E1 in Pf. rewrite lookup_insert_eq. cbn [mbind option_bind] in Pf |- *.
  rewrite insert_insert_eq. exact Pf.
Qed.

Lemma chains_mono ds ds' ls :
  (forall x n, x ∈ mjoin ls -> ds !! x = Some n -> exists n', ds' !! x = Some n' /\ dprev n' = dprev n /\ dnext n' = dnext n) ->
  chains ds ls -> chains ds' ls.
Proof.
  intros F [S ND]. split; [|done]. intros l Hl. eapply dseg_links; [|by apply S]. intros x n Hx. apply F.
  apply list_elem_of_lookup_1 in Hl as [i Hi]. by eapply chain_elem.
Qed.

(** ** What [poll_event] does to the descriptors *)

(** The part of an entry only [poll_add] changes. *)
Definition reg (n : polldata_t) : option nat * nat * Z := (dheader n, ddesc n, devents n).

Definition same_reg (ds ds' : gmap nat polldata_t) : Prop := forall x, reg <$> ds !! x = reg <$> ds' !! x.

#[export] Instance same_reg_equiv : Equivalence same_reg.
Proof. split; [done|by intros h h' H x|intros h h' h'' H H' x; by rewrite (H x)]. Qed.

Lemma payload_reg ds ds' : same_payload ds ds' -> same_reg ds ds'.
Proof. intros S x. specialize (S x). destruct (ds !! x), (ds' !! x); simplify_eq/=; [|done]. unfold reg. congruence. Qed.

Lemma same_reg_lookup ds ds' x n : same_reg ds ds' -> ds !! x = Some n -> exists n', ds' !! x = Some n' /\ reg n' = reg n.
Proof. intros S E. specialize (S x). rewrite E in S. destruct (ds' !! x) as [n'|]; [|done]. exists n'. cbn in S. split; [done|congruence]. Qed.

(** One iteration of the first loop, on the descriptor of entry [x]. *)
Definition notice (revents : Z) (x : nat) (D : polldesc_t) : bool * polldesc_t :=
  let '(back, D1) := try_locks revents D in
  (back, if bool_decide (event D1 = None) && negb (revents =? 0) then with_event (Some x) D1 else D1).

(** The first loop on a chain: the entries whose threads are to be woken, and
    the descriptors. *)
Fixpoint notice_all (events : Z) (ds : gmap nat polldata_t) (l : list nat) (Ds : gmap nat polldesc_t)
    : option (list nat * gmap nat polldesc_t) :=
  match l with
  | [] => Some ([], Ds)
  | x :: l' =>
      n ← ds !! x;
      D ← Ds !! ddesc n;
      let '(back, D') := notice (revents_of n events) x D in
      '(K, Ds') ← notice_all events ds l' (<[ddesc n := D']> Ds);
      Some (if back : bool then K else x :: K, Ds')
  end.

Lemma notice_all_ext events ds ds' l Ds : same_reg ds ds' -> notice_all events ds l Ds = notice_all events ds' l Ds.
Proof.
  intros S. revert Ds. induction l as [|x l IH]; intros Ds; [done|]. cbn [notice_all]. specialize (S x).
  destruct (ds !! x) as [n|], (ds' !! x) as [n'|]; simplify_eq/=; [|done].
  unfold reg in *. simplify_eq/=. unfold revents_of. replace (ddesc n') with (ddesc n) by congruence.
  replace (devents n') with (devents n) by congruence. destruct (Ds !! ddesc n); [|done]. cbn [mbind option_bind].
  destruct (notice _ _ _). by rewrite IH.
Qed.

(** The noticed events are recorded in the entry. *)
Definition events_ok (ds : gmap nat polldata_t) (Ds : gmap nat polldesc_t) : Prop :=
  forall d D x, Ds !! d = Some D -> event D = Some x ->
    exists n, ds !! x = Some n /\ ddesc n = d /\ dheader n <> None /\ drevents n <> 0 /\
      Z.land (drevents n) (Z.lor (Z.lor (devents n) POLLHUP) POLLERR) = drevents n.

Lemma events_ok_payload ds ds' Ds : same_payload ds ds' -> events_ok ds Ds -> events_ok ds' Ds.
Proof.
  intros S H d D x ED Ex. destruct (H d D x ED Ex) as (n & E & H1 & H2 & H3 & H4). specialize (S x). rewrite E in S.
  destruct (ds' !! x) as [n'|]; simplify_eq/=. exists n'. split; [done|]. replace (dheader n') with (dheader n) by congruence.
  replace (ddesc n') with (ddesc n) by congruence. replace (drevents n') with (drevents n) by congruence.
  by replace (devents n') with (devents n) by congruence.
Qed.

Lemma revents_of_land n ev : Z.land (revents_of n ev) (Z.lor (Z.lor (devents n) POLLHUP) POLLERR) = revents_of n ev.
Proof. unfold revents_of. rewrite Z.land_comm, Z.land_assoc, Z.land_diag. done. Qed.

(** Storing the [revents] of a noticed entry. *)
Lemma notice_store_ok ds Ds x n D back D' ev :
  ds !! x = Some n -> dheader n <> None -> Ds !! ddesc n = Some D -> notice (revents_of n ev) x D = (back, D') -> events_ok ds Ds ->
  exists ds', (if bool_decide (event (try_locks (revents_of n ev) D).2 = None) && negb (revents_of n ev =? 0)
                 then upd x (with_revents (revents_of n ev)) ds else Some ds) = Some ds' /\
    same_reg ds ds' /\ events_ok ds' (<[ddesc n := D']> Ds) /\
    (forall y m, ds !! y = Some m -> exists m', ds' !! y = Some m' /\ dprev m' = dprev m /\ dnext m' = dnext m).
Proof.
  intros En Hh ED Nt Ok. unfold notice in Nt. destruct (try_locks (revents_of n ev) D) as [bk D1] eqn:T. cbn [snd].
  assert (Ev : event D1 = event D) by (unfold try_locks in T; repeat case_match; simplify_eq; done).
  destruct (bool_decide (event D1 = None) && negb (revents_of n ev =? 0)) eqn:C; simplify_eq.
  - apply andb_prop in C as [C1%bool_decide_eq_true Cr%negb_true_iff%Z.eqb_neq].
    unfold upd. rewrite En. cbn [mbind option_bind]. eexists. split; [done|]. split; [|split].
    + intros y. destruct (decide (y = x)) as [->|]; [by rewrite lookup_insert_eq, En|by rewrite lookup_insert_ne].
    + intros d D0 y E0 Ey. destruct (decide (d = ddesc n)) as [->|Nd].
      * rewrite lookup_insert_eq in E0. simplify_eq/=. rewrite lookup_insert_eq. eexists. split; [done|]. cbn.
        split; [done|]. split; [done|]. split; [done|]. apply revents_of_land.
      * rewrite lookup_insert_ne in E0 by done. destruct (Ok d D0 y E0 Ey) as (m & Em & Hd & H2).
        exists m. rewrite lookup_insert_ne by congruence. done.
    + intros y m Em. destruct (decide (y = x)) as [->|]; [|rewrite lookup_insert_ne by done; eauto].
      rewrite lookup_insert_eq. rewrite En in Em. simplify_eq. eauto.
  - eexists. split; [done|]. split; [done|]. split; [|eauto]. intros d D0 y E0 Ey.
    destruct (decide (d = ddesc n)) as [->|Nd]; [|rewrite lookup_insert_ne in E0 by done; eauto].
    rewrite lookup_insert_eq in E0. simplify_eq/=. apply (Ok _ D); congruence.
Qed.

Lemma registered_reg ds ds' (l : list nat) :
  same_reg ds ds' -> (forall x n, x ∈ l -> ds !! x = Some n -> dheader n <> None) ->
  forall x n, x ∈ l -> ds' !! x = Some n -> dheader n <> None.
Proof.
  intros S H x n Hx E. destruct (same_reg_lookup _ _ _ _ (symmetry S) E) as (m & Em & R). unfold reg in R.
  replace (dheader n) with (dheader m) by congruence. eauto.
Qed.

Lemma event_loop_ok fuel h ev ls lh K l s K' Ds' :
  ls !! h = Some lh -> chains (datas s) (ls ++ [K ++ l]) -> headers s = heads_of ls -> events_ok (datas s) (descs s) ->
  notice_all ev (datas s) l (descs s) = Some (K', Ds') ->
  (forall x n, x ∈ l -> datas s !! x = Some n -> dheader n <> None) -> (length l <= fuel)%nat ->
  exists s' l', event_loop fuel h ev (hdo (K ++ l) None) (hdo l None) s = Some (hdo (K ++ K') None, s') /\
    chains (datas s') (<[h := l' ++ lh]> ls ++ [K ++ K']) /\ headers s' = heads_of (<[h := l' ++ lh]> ls) /\
    events_ok (datas s') Ds' /\ same_reg (datas s) (datas s') /\ descs s' = Ds' /\ threads s' = threads s /\
    K' ++ l' ≡ₚ l.
Proof.
  revert fuel ls lh K s K'. induction l as [|x l IH]; intros fuel ls lh K s K' El Ch Hd Ok Na Hr Fu.
  { injection Na as <- <-. exists s, []. destruct fuel; cbn; rewrite list_insert_id by done; done. }
  destruct fuel as [|fuel]; cbn in Fu; [lia|].
  cbn [notice_all] in Na. destruct (datas s !! x) as [n|] eqn:En; [|done]. cbn [mbind option_bind] in Na.
  destruct (descs s !! ddesc n) as [D|] eqn:ED; [|done]. cbn [mbind option_bind] in Na.
  destruct (notice (revents_of n ev) x D) as [back D'] eqn:Nt.
  destruct (notice_all ev (datas s) l _) as [[K1 Ds1]|] eqn:Na1; [|done]. injection Na as <- <-.
  cbn [event_loop hdo]. rewrite En. cbn [mbind option_bind]. rewrite ED. cbn [mbind option_bind].
  assert (TL : try_locks (revents_of n ev) D = (back, (try_locks (revents_of n ev) D).2)).
  { unfold notice in Nt. destruct (try_locks _ D) as [b0 D0]. by simplify_eq. }
  assert (ND : D' = if bool_decide (event (try_locks (revents_of n ev) D).2 = None) && negb (revents_of n ev =? 0)
                    then with_event (Some x) (try_locks (revents_of n ev) D).2 else (try_locks (revents_of n ev) D).2).
  { unfold notice in Nt. destruct (try_locks _ D) as [b0 D0]. cbn. congruence. }
  rewrite TL. destruct back.
  - destruct (chains_move _ _ _ h lh K x l Ch eq_refl El) as (n' & ds1 & ds2 & En' & Nx & R & Pf & C2 & Sp).
    rewrite En in En'. injection En' as <-. rewrite R. cbn [mbind option_bind]. unfold insertinheader. cbn [headers with_datas datas].
    assert (Hh : headers s !! h = Some (hdo lh None)) by (by rewrite Hd; unfold heads_of; rewrite list_lookup_fmap, El).
    rewrite Hh. cbn [mbind option_bind]. rewrite Pf. cbn [mbind option_bind datas descs headers threads with_datas].
    destruct (same_reg_lookup _ _ x n (payload_reg _ _ Sp) En) as (n2 & En2 & Rn).
    assert (Rv : revents_of n2 ev = revents_of n ev) by (unfold reg in Rn; simplify_eq; unfold revents_of; congruence).
    assert (Rd : ddesc n2 = ddesc n) by (unfold reg in Rn; congruence).
    assert (Hr2 : dheader n2 <> None) by (pose proof (Hr x n ltac:(set_solver) En); unfold reg in Rn; congruence).
    rewrite <- Rd, <- Rv in *.
    destruct (notice_store_ok ds2 (descs s) x n2 D true D' ev En2 Hr2 ED Nt (events_ok_payload _ _ _ Sp Ok)) as (ds3 & St & Sr & Ok3 & Lk).
    rewrite St. cbn [mbind option_bind]. rewrite <- ND, Nx.
    destruct (IH fuel (<[h := x :: lh]> ls) (x :: lh) K
                (mk_poll ds3 (<[ddesc n2 := D']> (descs s)) (<[h := Some x]> (headers s)) (threads s)) K1) as (s' & l' & Ev' & C' & H' & O' & S' & D3 & T' & P').
    { apply list_lookup_insert_eq, (lookup_lt_Some _ _ _ El). }
    { eapply chains_mono; [|exact C2]. eauto. }
    { cbn [headers]. rewrite Hd. unfold heads_of. by rewrite list_fmap_insert. }
    { exact Ok3. }
    { cbn [datas descs]. rewrite <- Na1. apply notice_all_ext. symmetry. transitivity ds2; [by apply payload_reg|done]. }
    { apply (registered_reg (datas s)); [transitivity ds2; [by apply payload_reg|done]|]. intros y m Hy. apply Hr. set_solver. }
    { lia. }
    exists s', (l' ++ [x]). rewrite <- app_assoc. cbn [app]. rewrite list_insert_insert_eq in C', H'.
    split; [exact Ev'|]. split; [exact C'|]. split; [exact H'|]. split; [done|]. cbn [datas descs threads] in S', T'.
    split; [transitivity ds2; [by apply payload_reg|by transitivity ds3]|]. split; [done|]. split; [done|].
    rewrite app_assoc, P'. apply Permutation_app_comm.
  - cbn [mbind option_bind].
    destruct (notice_store_ok (datas s) (descs s) x n D false D' ev En (Hr x n ltac:(set_solver) En) ED Nt Ok) as (ds3 & St & Sr & Ok3 & Lk).
    rewrite St. cbn [mbind option_bind]. rewrite <- ND.
    assert (Nx : dnext n = hdo l None).
    { pose proof (proj1 Ch (K ++ x :: l) ltac:(set_solver)) as [_ ((m & Em & _ & Nx) & _)]%dseg_app.
      rewrite En in Em. injection Em as <-. exact Nx. }
    rewrite Nx. replace (K ++ x :: l) with ((K ++ [x]) ++ l) in * by (by rewrite <- app_assoc).
    replace (K ++ x :: K1) with ((K ++ [x]) ++ K1) in * by (by rewrite <- app_assoc).
    destruct (IH fuel ls lh (K ++ [x]) (mk_poll ds3 (<[ddesc n := D']> (descs s)) (headers s) (threads s)) K1)
      as (s' & l' & Ev' & C' & H' & O' & S' & D3 & T' & P'); try done.
    { eapply chains_mono; [|exact Ch]. eauto. }
    { cbn [datas descs]. rewrite <- Na1. apply notice_all_ext. by symmetry. }
    { apply (registered_reg (datas s)); [done|]. intros y m Hy. apply Hr. set_solver. }
    { lia. }
    exists s', l'. split; [exact Ev'|]. split; [exact C'|]. split; [exact H'|]. split; [done|].
    split; [by transitivity ds3|]. split; [done|]. split; [done|]. cbn. by rewrite P'.
Qed.

Lemma notice_all_total ev ds l Ds :
  (forall x, x ∈ l -> exists n D, ds !! x = Some n /\ Ds !! ddesc n = Some D) ->
  exists K Ds', notice_all ev ds l Ds = Some (K, Ds').
Proof.
  revert Ds. induction l as [|x l IH]; intros Ds H; [by eexists _, _|]. cbn [notice_all].
  destruct (H x) as (n & D & -> & E); [set_solver|]. cbn [mbind option_bind]. rewrite E. cbn [mbind option_bind].
  destruct (notice _ x D) as [back D'].
  destruct (IH (<[ddesc n := D']> Ds)) as (K & Ds' & ->); [|eauto].
  intros y Hy. destruct (H y) as (m & Dm & Em & E'); [set_solver|]. exists m.
  destruct (decide (ddesc m = ddesc n)) as [->|]; [exists D'; by rewrite lookup_insert_eq|].
  exists Dm. by rewrite lookup_insert_ne.
Qed.

(** Some entry of [l] registers descriptor [d] for one of the [events]. *)
Definition hits (ev : Z) (ds : gmap nat polldata_t) (l : list nat) (d : nat) : Prop :=
  exists x n, x ∈ l /\ ds !! x = Some n /\ ddesc n = d /\ revents_of n ev <> 0.

Definition owners (ds : gmap nat polldata_t) (l : list nat) : list (option nat) := (fun x => ddesc <$> ds !! x) <$> l.

Definition same_fixed (D D' : polldesc_t) : Prop :=
  thread D' = thread D /\ data D' = data D /\ dsize D' = dsize D /\ phase D' = phase D /\ timed D' = timed D.

(** What one entry ([hit] says whether its events match) does to its descriptor. *)
Lemma notice_spec rv x D back D' :
  notice rv x D = (back, D') ->
  same_fixed D D' /\ (rv = 0 -> back = true /\ D' = D) /\
  (rv <> 0 -> event D' <> None /\ lock D' = true) /\ (event D <> None -> event D' = event D) /\
  (lock D = true -> lock D' = true) /\
  if back then wakeuplock D' = wakeuplock D /\ (rv <> 0 -> lock D = true \/ wakeuplock D = true)
  else lock D = false /\ wakeuplock D = false /\ wakeuplock D' = true.
Proof.
  unfold notice, try_locks, same_fixed. intros E. destruct D as [t lk wl da e sz ph ti].
  destruct (decide (rv = 0)) as [->|Ne]; [|apply Z.eqb_neq in Ne as Ne'; rewrite Ne' in E];
    destruct lk, wl, e; cbn in E; simplify_eq; cbn; repeat split; auto; try congruence.
Qed.

Record noticed (ev : Z) (ds : gmap nat polldata_t) (l K : list nat) (d : nat) (D D' : polldesc_t) : Prop := {
  nt_fixed : same_fixed D D';
  nt_miss : ~ hits ev ds l d -> D' = D /\ Some d ∉ owners ds K;
  nt_hit : hits ev ds l d -> event D' <> None /\ lock D' = true;
  nt_keep : event D <> None -> event D' = event D;
  nt_lock : lock D = true -> lock D' = true;
  nt_woken : Some d ∈ owners ds K -> lock D = false /\ wakeuplock D = false /\ wakeuplock D' = true;
  nt_back : Some d ∉ owners ds K -> wakeuplock D' = wakeuplock D /\ (hits ev ds l d -> lock D = true \/ wakeuplock D = true)
}.

Lemma hits_cons ev ds x l d n :
  ds !! x = Some n -> hits ev ds (x :: l) d <-> (ddesc n = d /\ revents_of n ev <> 0) \/ hits ev ds l d.
Proof.
  intros E. split.
  - intros (y & m & [->|Hy]%elem_of_cons & Em & H); [left; congruence|right; by exists y, m].
  - intros [[H1 H2]|(y & m & Hy & H)]; [exists x, n|exists y, m]; set_solver.
Qed.

Lemma notice_all_spec ev ds l Ds K Ds' :
  notice_all ev ds l Ds = Some (K, Ds') ->
  NoDup (owners ds K) /\ dom Ds' = dom Ds /\
  forall d D, Ds !! d = Some D -> exists D', Ds' !! d = Some D' /\ noticed ev ds l K d D D'.
Proof.
  revert Ds K. induction l as [|x l IH]; intros Ds K E.
  { injection E as <- <-. split; [constructor|]. split; [done|]. intros d D ED. exists D. split; [done|].
    assert (N : ~ hits ev ds [] d) by (intros (x & _ & Hx & _); set_solver).
    split; try done; try (intros H; by destruct (N H)); set_solver. }
  cbn [notice_all] in E. destruct (ds !! x) as [n|] eqn:En; [|done]. cbn [mbind option_bind] in E.
  destruct (Ds !! ddesc n) as [D0|] eqn:ED0; [|done]. cbn [mbind option_bind] in E.
  destruct (notice _ x D0) as [back D0'] eqn:Nt. destruct (notice_all ev ds l _) as [[K1 Ds1]|] eqn:Na; [|done].
  injection E as <- <-. destruct (IH _ _ Na) as (ND & Dm & Sp). apply notice_spec in Nt as (Fx & Ms & Hi & Kp & Lk & Bk).
  assert (Ow : owners ds (x :: K1) = Some (ddesc n) :: owners ds K1) by (unfold owners; cbn; by rewrite En).
  destruct (Sp (ddesc n) D0') as (D1 & ED1 & [F1 M1 H1 K1' L1 W1 B1]); [apply lookup_insert_eq|].
  split; [|split].
  - destruct back; [done|]. rewrite Ow. apply NoDup_cons. split; [|done]. intros Hin. apply W1 in Hin as (C1 & C2 & _).
    destruct Bk as (_ & _ & C). congruence.
  - rewrite Dm. apply elem_of_dom_2 in ED0. set_solver.
  - intros d D ED. destruct (decide (d = ddesc n)) as [->|Nd].
    + rewrite ED0 in ED. injection ED as <-. exists D1. split; [done|].
      destruct (decide (revents_of n ev = 0)) as [Z0|NZ].
      * destruct (Ms Z0) as [-> ->]. assert (HH : hits ev ds (x :: l) (ddesc n) <-> hits ev ds l (ddesc n)).
        { rewrite (hits_cons _ _ _ _ _ _ En). split; [by intros [[_ ?]|?]|by right]. }
        by split; rewrite ?HH.
      * destruct (Hi NZ) as [Ev Lc]. assert (HH : hits ev ds (x :: l) (ddesc n)) by (apply (hits_cons _ _ _ _ _ _ En); auto).
        assert (No : Some (ddesc n) ∉ owners ds K1) by (intros Q; apply W1 in Q as [Q _]; congruence).
        destruct (B1 No) as [Wk _].
        split; try done.
        -- unfold same_fixed in *. repeat split; intuition congruence.
        -- intros _. rewrite K1' by done. auto.
        -- intros Ee. rewrite K1', Kp by auto. done.
        -- auto.
        -- destruct back; [done|]. intros _. rewrite Wk. exact Bk.
        -- destruct back; [|rewrite Ow; intros Q; destruct Q; by left]. intros _. rewrite Wk.
           destruct Bk as [Bk1 Bk2]. split; [exact Bk1|]. intros _. exact (Bk2 NZ).
    + destruct (Sp d D) as (D' & ED' & [F' M' H' K' L' W' B']); [by rewrite lookup_insert_ne|]. exists D'. split; [done|].
      assert (HH : hits ev ds (x :: l) d <-> hits ev ds l d).
      { rewrite (hits_cons _ _ _ _ _ _ En). split; [intros [[? ?]|?]; [congruence|done]|auto]. }
      assert (OO : Some d ∈ owners ds (if back then K1 else x :: K1) <-> Some d ∈ owners ds K1).
      { destruct back; [done|]. rewrite Ow, elem_of_cons. split; [intros [?|?]; [congruence|done]|auto]. }
      split; rewrite ?HH, ?OO; auto.
Qed.

(** A thread after [sched_wakeup (t, 0)]. *)
Definition woken (T : thread_t) : thread_t :=
  if sleeping T then mk_thread (sleepnext T) (sleepprev T) false false SCHED_WAKEUP_REASON_NORMAL else T.

Lemma woken_woken T : woken (woken T) = woken T.
Proof. unfold woken. by destruct (sleeping T) eqn:E; cbn; rewrite ?E. Qed.

Lemma sched_wakeup_normal t th T :
  th !! t = Some T -> exists b th', sched_wakeup t SCHED_WAKEUP_REASON_NORMAL th = Some (b, th') /\ th' !! t = Some (woken T) /\
    forall u, u <> t -> th' !! u = th !! u.
Proof.
  intros E. unfold sched_wakeup, woken. rewrite E. cbn.
  destruct (sleeping T) eqn:S; cbn; eexists _, _; (split; [done|]); [|by rewrite E].
  split; [apply lookup_insert_eq|]. intros u Ne. by rewrite lookup_insert_ne.
Qed.

(** [t] is the thread of a descriptor in [ow]. *)
Definition owned_by (Ds : gmap nat polldesc_t) (ow : list (option nat)) (t : nat) : Prop :=
  exists d D, Some d ∈ ow /\ Ds !! d = Some D /\ thread D = t.

Lemma owners_payload ds ds' K : same_payload ds ds' -> owners ds' K = owners ds K.
Proof.
  intros S. unfold owners. apply list_fmap_ext. intros _ x _. specialize (S x).
  destruct (ds !! x), (ds' !! x); simplify_eq/=; [|done]. congruence.
Qed.

Record wakes (ds : gmap nat polldata_t) (K : list nat) (s s' : poll_st) : Prop := {
  wk_in : forall d D, descs s !! d = Some D -> Some d ∈ owners ds K -> descs s' !! d = Some (with_wakeuplock false D);
  wk_out : forall d, Some d ∉ owners ds K -> descs s' !! d = descs s !! d;
  wk_thread : forall t T, threads s !! t = Some T -> owned_by (descs s) (owners ds K) t -> threads s' !! t = Some (woken T);
  wk_other : forall t, ~ owned_by (descs s) (owners ds K) t -> threads s' !! t = threads s !! t;
  wk_dom : dom (descs s') = dom (descs s)
}.

Lemma owned_by_ext Ds d D D' ow t :
  Ds !! d = Some D -> thread D' = thread D -> owned_by (<[d := D']> Ds) ow t <-> owned_by Ds ow t.
Proof.
  intros E Et. split; intros (e & De & Hin & Ee & <-); destruct (decide (e = d)) as [->|Ne].
  - rewrite lookup_insert_eq in Ee. simplify_eq. by exists d, D.
  - rewrite lookup_insert_ne in Ee by done. by exists e, De.
  - exists d, D'. rewrite lookup_insert_eq. rewrite E in Ee. by simplify_eq.
  - exists e, De. by rewrite lookup_insert_ne.
Qed.

Lemma wakes_cons ds x n D T K s s1 s' :
  ds !! x = Some n -> descs s !! ddesc n = Some D -> threads s !! thread D = Some T ->
  Some (ddesc n) ∉ owners ds K -> descs s1 = <[ddesc n := with_wakeuplock false D]> (descs s) ->
  threads s1 !! thread D = Some (woken T) -> (forall u, u <> thread D -> threads s1 !! u = threads s !! u) ->
  wakes ds K s1 s' -> wakes ds (x :: K) s s'.
Proof.
  intros En ED ET No Ds1 Tw To [W1 W2 W3 W4 W5].
  assert (Ow : owners ds (x :: K) = Some (ddesc n) :: owners ds K) by (unfold owners; cbn; by rewrite En).
  assert (OB : forall t, owned_by (descs s1) (owners ds K) t <-> owned_by (descs s) (owners ds K) t).
  { intros t. rewrite Ds1. by apply (owned_by_ext _ _ D). }
  assert (OB' : forall t, owned_by (descs s) (owners ds (x :: K)) t <-> t = thread D \/ owned_by (descs s) (owners ds K) t).
  { intros t. rewrite Ow. split.
    - intros (d & E & [Hd|Hd]%elem_of_cons & EE & <-); [|by right; exists d, E]. left. simplify_eq. congruence.
    - intros [->|(d & E & Hd & H)]; [by exists (ddesc n), D; repeat split; [left|..]|exists d, E; split; [by right|done]]. }
  split.
  - intros d D0 E0. rewrite Ow, elem_of_cons. intros [Hd|Hd].
    + simplify_eq. rewrite W2 by done. rewrite Ds1. by rewrite lookup_insert_eq.
    + apply W1; [|done]. rewrite Ds1, lookup_insert_ne by congruence. done.
  - intros d Hd. rewrite Ow in Hd. rewrite W2 by set_solver. rewrite Ds1. apply lookup_insert_ne. set_solver.
  - intros t T0 E0 HO. apply OB' in HO. destruct (decide (t = thread D)) as [->|Nt].
    + rewrite ET in E0. injection E0 as <-. destruct (decide (Some (thread D) ∈ ((fun d => thread <$> (e ← d; descs s !! e)) <$> owners ds K))) as [Hin|Hout].
      * rewrite <- (woken_woken T). apply W3; [done|]. apply OB.
        apply list_elem_of_fmap in Hin as ([d|] & Et & Hd); [|done]. cbn in Et.
        destruct (descs s !! d) as [E|] eqn:EE; [|done]. exists d, E. cbn in Et. split; [done|]. split; [done|congruence].
      * rewrite W4; [done|]. rewrite OB. intros (d & E & Hd & EE & Et). apply Hout. apply list_elem_of_fmap.
        exists (Some d). split; [cbn; rewrite EE; cbn; congruence|done].
    + destruct HO as [->|HO]; [done|]. apply W3; [by rewrite To|by apply OB].
  - intros t HO. rewrite OB' in HO. rewrite W4; [apply To; tauto|]. rewrite OB. tauto.
  - rewrite W5, Ds1. apply elem_of_dom_2 in ED. set_solver.
Qed.

Lemma wake_loop_ok fuel h ls lh b K s :
  ls !! h = Some lh -> chains (datas s) ls -> headers s = heads_of ls ->
  dseg (datas s) b K None -> NoDup (mjoin ls ++ K) -> NoDup (owners (datas s) K) ->
  (forall x n, x ∈ K -> datas s !! x = Some n ->
     exists D T, descs s !! ddesc n = Some D /\ threads s !! thread D = Some T) ->
  (length K <= fuel)%nat ->
  exists s', wake_loop fuel h (hdo K None) s = Some s' /\
    chains (datas s') (<[h := rev K ++ lh]> ls) /\ headers s' = heads_of (<[h := rev K ++ lh]> ls) /\
    same_payload (datas s) (datas s') /\ wakes (datas s) K s s'.
Proof.
  revert fuel ls lh b s. induction K as [|x K IH]; intros fuel ls lh b s El Ch Hd Sg ND NO Own Fu.
  { exists s. destruct fuel; cbn; rewrite list_insert_id by done; (split; [done|]); (split; [done|]); (split; [done|]);
      (split; [done|]); split; try done; try set_solver; intros t T Et (d & D & Hin & _); cbn in Hin; set_solver. }
  destruct fuel as [|fuel]; cbn in Fu; [lia|]. destruct Sg as [(n & En & _ & Nx) Sg].
  change (lnext n = hdo K None) with (dnext n = hdo K None) in Nx.
  destruct (Own x n ltac:(set_solver) En) as (D & T & ED & ET).
  cbn [wake_loop hdo]. rewrite En. cbn [mbind option_bind]. rewrite ED. cbn [mbind option_bind].
  destruct (sched_wakeup_normal _ _ _ ET) as (w & th' & Wk & Tw & To). rewrite Wk. cbn [mbind option_bind].
  unfold insertinheader. cbn [headers datas with_threads].
  assert (Hh : headers s !! h = Some (hdo lh None)) by (by rewrite Hd; unfold heads_of; rewrite list_lookup_fmap, El).
  assert (Nxl : x ∉ mjoin ls) by (apply NoDup_app in ND as (_ & ND & _); intros Q; apply (ND x Q); set_solver).
  destruct (chains_push _ _ h lh x n Ch El Nxl En) as (ds' & Pf & C' & Sp & Fr).
  rewrite Hh. cbn [mbind option_bind]. rewrite Pf. cbn [mbind option_bind descs with_descs datas headers threads with_threads].
  assert (Ow : owners (datas s) (x :: K) = Some (ddesc n) :: owners (datas s) K) by (unfold owners; cbn; by rewrite En).
  rewrite Ow in NO. apply NoDup_cons in NO as [No NO].
  assert (Pm : mjoin (<[h := x :: lh]> ls) ≡ₚ x :: mjoin ls) by (by rewrite (join_insert_perm _ _ lh)).
  set (s1 := mk_poll ds' (<[ddesc n := with_wakeuplock false D]> (descs s)) (<[h := Some x]> (headers s)) th').
  destruct (IH fuel (<[h := x :: lh]> ls) (x :: lh) (Some x) s1) as (s' & Ev & C2 & H2 & S2 & W).
  { apply list_lookup_insert_eq, (lookup_lt_Some _ _ _ El). }
  { exact C'. }
  { cbn [headers s1]. rewrite Hd. unfold heads_of. by rewrite list_fmap_insert. }
  { eapply dseg_ext; [|exact Sg]. intros y Hy. apply Fr; [|intros ->]; apply NoDup_app in ND as (_ & ND1 & ND2).
    - intros Q. apply (ND1 y Q). set_solver.
    - apply NoDup_cons in ND2 as [? _]. done. }
  { rewrite Pm. cbn. rewrite Permutation_middle. done. }
  { cbn [datas s1]. by rewrite (owners_payload _ _ _ Sp). }
  { intros y m Hy Em. destruct (same_reg_lookup ds' (datas s) y m) as (m0 & Em0 & Rm); [by symmetry; apply payload_reg|done|].
    assert (ddesc m = ddesc m0) as -> by (unfold reg in Rm; congruence).
    destruct (Own y m0 ltac:(set_solver) Em0) as (Dy & Ty & EDy & ETy). cbn [descs threads s1].
    assert (Ne : ddesc m0 <> ddesc n).
    { intros Q. apply No. unfold owners. apply list_elem_of_fmap. exists y. rewrite Em0. cbn. split; [congruence|done]. }
    exists Dy. rewrite lookup_insert_ne by done.
    destruct (decide (thread Dy = thread D)) as [E|]; [rewrite E, Tw; eauto|rewrite To by done; eauto]. }
  { lia. }
  exists s'. rewrite Nx. split; [exact Ev|]. rewrite list_insert_insert_eq in C2, H2. cbn [rev]. rewrite <- app_assoc. cbn [app].
  split; [exact C2|]. split; [exact H2|]. split; [by transitivity ds'|].
  eapply (wakes_cons _ x n D T K s s1); try done.
  destruct W as [W1 W2 W3 W4 W5]. cbn [datas s1] in W1, W2, W3, W4.
  split; rewrite <- ?(owners_payload _ _ _ Sp); assumption.
Qed.

(** ** The invariant *)

(** How the locks follow the wait.  A sleeping thread has released [lock] and
    no event was noticed; the one who wakes it holds [lock], unless it was
    interrupted. *)
Definition phase_ok (D : polldesc_t) (T : thread_t) : Prop :=
  match phase D with
  | Setup => sleeping T = false /\ lock D = true /\ wakeuplock D = false
  | Waiting =>
      wakeuplock D = false /\
      if sleeping T then lock D = false /\ event D = None /\ interruptible T = true
      else wakeupreason T = SCHED_WAKEUP_REASON_INTERRUPTED \/
           lock D = true /\ (wakeupreason T = 0 /\ event D <> None \/ wakeupreason T = 1 /\ timed D = true)
  | Done | Left => sleeping T = false
  end.

Record inv (ls : list (list nat)) (s : poll_st) : Prop := {
  i_chains : chains (datas s) ls;
  i_heads : headers s = heads_of ls;
  i_reg : forall h l x, ls !! h = Some l ->
    x ∈ l <-> exists n D, datas s !! x = Some n /\ dheader n = Some h /\ descs s !! ddesc n = Some D /\ phase D <> Left;
  i_bound : forall x n h, datas s !! x = Some n -> dheader n = Some h -> (h < length ls)%nat;
  i_data : forall x n, datas s !! x = Some n -> exists D, descs s !! ddesc n = Some D /\ x ∈ data D;
  i_own : forall d D x, descs s !! d = Some D -> x ∈ data D -> exists n, datas s !! x = Some n /\ ddesc n = d;
  i_desc : forall d D, descs s !! d = Some D -> NoDup (data D) /\ (leave_count D <= length (data D))%nat;
  i_lead : forall d D i x n, descs s !! d = Some D -> data D !! i = Some x -> datas s !! x = Some n ->
    dheader n <> None -> (i < leave_count D)%nat;
  i_thread : forall d D, descs s !! d = Some D -> exists T, threads s !! thread D = Some T /\ phase_ok D T;
  i_inj : forall d d' D D', descs s !! d = Some D -> descs s !! d' = Some D' -> thread D = thread D' -> d = d';
  i_events : events_ok (datas s) (descs s)
}.

(** The chain of header [h] taken out of the family. *)
Lemma chains_detach ds ls h l : chains ds ls -> ls !! h = Some l -> chains ds (<[h := []]> ls ++ [l]).
Proof.
  intros [Sg ND] El. pose proof (lookup_lt_Some _ _ _ El) as L.
  rewrite <- (take_drop_middle ls h l El) in Sg, ND. rewrite insert_take_drop by done. split.
  - intros k Hk. destruct (decide (k = [])) as [->|]; [done|]. apply Sg. set_solver.
  - revert ND. apply NoDup_Permutation_proper. rewrite <- app_assoc. cbn [app]. rewrite !join_app. cbn.
    rewrite join_app. cbn. rewrite app_nil_r. apply Permutation_app_head, Permutation_app_comm.
Qed.

Lemma chains_app ds ls K : chains ds (ls ++ [K]) -> chains ds ls /\ dseg ds None K None /\ NoDup (mjoin ls ++ K).
Proof.
  intros [Sg ND]. rewrite join_app in ND. cbn in ND. rewrite app_nil_r in ND.
  split; [split; [intros l Hl; apply Sg; set_solver|by apply NoDup_app in ND as (? & _)]|]. split; [apply Sg; set_solver|done].
Qed.

(** What [poll_event] does to one descriptor and its thread. *)
Definition signalled (ev : Z) (ds : gmap nat polldata_t) (l : list nat) (d : nat) (D D' : polldesc_t) (T T' : thread_t) : Prop :=
  (hits ev ds l d /\ same_fixed D D' /\ event D' <> None /\ lock D' = true /\ wakeuplock D' = wakeuplock D /\
     T' = (if lock D || wakeuplock D then T else woken T)) \/
  (~ hits ev ds l d /\ D' = D /\ T' = T).

#[export] Instance hits_dec ev ds l d : Decision (hits ev ds l d).
Proof.
  destruct (decide (Exists (fun x => match ds !! x with
    | Some n => bool_decide (ddesc n = d) && negb (revents_of n ev =? 0) | None => false end = true) l)) as [H|H].
  - left. apply Exists_exists in H as (x & Hx & H). destruct (ds !! x) as [n|] eqn:E; [|done].
    apply andb_prop in H as [?%bool_decide_eq_true ?%negb_true_iff%Z.eqb_neq]. by exists x, n.
  - right. intros (x & n & Hx & E & <- & Q%Z.eqb_neq). apply H. apply Exists_exists. exists x.
    by rewrite E, bool_decide_eq_true_2, Q.
Defined.

Lemma signalled_ok ev ds l K d D D1 T s1 s2 :
  noticed ev ds l K d D D1 -> descs s1 !! d = Some D1 -> threads s1 !! thread D = Some T ->
  wakes ds K s1 s2 -> (owned_by (descs s1) (owners ds K) (thread D) -> Some d ∈ owners ds K) ->
  exists D' T', descs s2 !! d = Some D' /\ thread D' = thread D /\ threads s2 !! thread D = Some T' /\
    signalled ev ds l d D D' T T'.
Proof.
  intros [Fx Ms Hi Kp Lk Wk Bk] ED ET [W1 W2 W3 W4 W5] OB. pose proof (proj1 Fx) as Th.
  destruct (decide (Some d ∈ owners ds K)) as [Ho|Ho].
  - exists (with_wakeuplock false D1), (woken T). split; [by apply W1|]. split; [done|].
    split; [apply W3; [done|by exists d, D1]|]. left. destruct (Wk Ho) as (L & U & _).
    destruct (decide (hits ev ds l d)) as [H|H]; [|by destruct (Ms H)]. rewrite L, U. by destruct (Hi H).
  - exists D1, T. rewrite W2, W4 by auto. split; [done|]. split; [done|]. split; [done|].
    destruct (decide (hits ev ds l d)) as [H|H]; [left|right; by destruct (Ms H)].
    destruct (Bk Ho) as [U Q], (Hi H). specialize (Q H). repeat (split; [done|]).
    by destruct Q as [->| ->]; rewrite ?orb_true_r.
Qed.

Lemma poll_event_ok h ev ls l s :
  inv ls s -> ls !! h = Some l ->
  exists s' l', poll_event h ev s = Some s' /\ l' ≡ₚ l /\
    chains (datas s') (<[h := l']> ls) /\ headers s' = heads_of (<[h := l']> ls) /\
    same_reg (datas s) (datas s') /\ events_ok (datas s') (descs s') /\ dom (descs s') = dom (descs s) /\
    forall d D T, descs s !! d = Some D -> threads s !! thread D = Some T ->
      exists D' T', descs s' !! d = Some D' /\ thread D' = thread D /\ threads s' !! thread D = Some T' /\
        signalled ev (datas s) l d D D' T T'.
Proof.
  intros I El. pose proof (lookup_lt_Some _ _ _ El) as Lh. set (s0 := mk_poll (datas s) (descs s) (<[h := None]> (headers s)) (threads s)).
  assert (Ent : forall x, x ∈ l -> exists n D, datas s !! x = Some n /\ descs s !! ddesc n = Some D).
  { intros x Hx. apply (i_reg _ _ I h l x El) in Hx as (n & D & ? & _ & ? & _). eauto. }
  destruct (notice_all_total ev (datas s) l (descs s) Ent) as (K & Ds' & Na).
  assert (ND : NoDup l) by (eapply chain_nodup; [apply (i_chains _ _ I)|done]).
  assert (Fu : (length l <= S (size (datas s)))%nat).
  { enough (length l <= size (datas s))%nat by lia. apply nodup_live_size; [done|]. intros x Hx. destruct (Ent x Hx) as (n & _ & ? & _). eauto. }
  destruct (event_loop_ok (S (size (datas s))) h ev (<[h := []]> ls) [] [] l s0 K Ds') as (s1 & l1 & Ev & C1 & H1 & O1 & R1 & D1 & T1 & P1); try done.
  { by apply list_lookup_insert_eq. }
  { apply chains_detach; [apply (i_chains _ _ I)|done]. }
  { cbn [headers s0]. rewrite (i_heads _ _ I). unfold heads_of. by rewrite list_fmap_insert. }
  { apply (i_events _ _ I). }
  { intros x n Hx En. apply (i_reg _ _ I h l x El) in Hx as (n' & _ & En' & Hh & _). cbn in En. congruence. }
  destruct (notice_all_spec _ _ _ _ _ _ Na) as (NO & Dm & Sp).
  rewrite app_nil_r, list_insert_insert_eq in C1, H1. cbn [app] in C1, Ev.
  apply chains_app in C1 as (C1 & Sg & ND1).
  assert (OwR : owners (datas s1) K = owners (datas s) K).
  { unfold owners. apply list_fmap_ext. intros _ x _. specialize (R1 x). cbn [datas s0] in R1.
    destruct (datas s !! x), (datas s1 !! x); simplify_eq/=; [|done]. f_equal. unfold reg in R1. congruence. }
  destruct (wake_loop_ok (S (size (datas s))) h (<[h := l1]> ls) l1 None K s1) as (s2 & Wl & C2 & H2 & S2 & W); try done.
  { by apply list_lookup_insert_eq. }
  { by rewrite OwR. }
  { intros x n Hx En. destruct (same_reg_lookup (datas s1) (datas s) x n) as (m & Em & Rm); [by symmetry|done|].
    assert (ddesc n = ddesc m) as -> by (unfold reg in Rm; congruence).
    destruct (Ent x) as (m' & D & Em' & ED); [by rewrite <- P1; set_solver|]. rewrite Em in Em'. injection Em' as <-.
    destruct (Sp _ _ ED) as (D' & ED' & N'). destruct (i_thread _ _ I _ _ ED) as (T & ET & _).
    exists D', T. rewrite D1, T1. split; [done|]. destruct (nt_fixed _ _ _ _ _ _ _ N') as [-> _]. done. }
  { apply Permutation_length in P1. rewrite length_app in P1. lia. }
  assert (Hh : headers s !! h = Some (hdo l None)) by (by rewrite (i_heads _ _ I); unfold heads_of; rewrite list_lookup_fmap, El).
  exists s2, (rev K ++ l1). unfold poll_event. rewrite Hh. cbn [mbind option_bind]. fold s0. rewrite Ev. cbn [mbind option_bind].
  rewrite list_insert_insert_eq in C2, H2. split; [done|]. split; [by rewrite <- P1, <- Permutation_rev|]. split; [done|]. split; [done|].
  assert (W' : wakes (datas s) K s1 s2) by (destruct W as [W1 W2 W3 W4 W5]; rewrite OwR in *; by split).
  split; [transitivity (datas s1); [done|by apply payload_reg]|].
  assert (Inj : forall d D, descs s !! d = Some D -> owned_by (descs s1) (owners (datas s) K) (thread D) -> Some d ∈ owners (datas s) K).
  { intros d D ED (e & E & He & EE & Et). rewrite D1 in EE.
    destruct (descs s !! e) as [E0|] eqn:EE0; [|by apply not_elem_of_dom in EE0; apply elem_of_dom_2 in EE; rewrite Dm in EE].
    destruct (Sp _ _ EE0) as (E' & EE' & N'). rewrite EE in EE'. injection EE' as <-.
    rewrite (i_inj _ _ I d e D E0 ED EE0); [done|]. destruct (nt_fixed _ _ _ _ _ _ _ N') as [<- _]. congruence. }
  split; [|split].
  - eapply (events_ok_payload _ _ _ S2). intros d D' x ED' Ex.
    destruct (decide (Some d ∈ owners (datas s) K)) as [Ho|Ho]; [|rewrite (wk_out _ _ _ _ W' _ Ho) in ED'; rewrite D1 in ED'; by apply (O1 d D' x)].
    destruct (descs s1 !! d) as [E1|] eqn:EE1.
    + rewrite (wk_in _ _ _ _ W' _ _ EE1 Ho) in ED'. simplify_eq/=. by apply (O1 d E1 x).
    + apply not_elem_of_dom in EE1. apply elem_of_dom_2 in ED'. by rewrite (wk_dom _ _ _ _ W') in ED'.
  - by rewrite (wk_dom _ _ _ _ W'), D1.
  - intros d D T ED ET. destruct (Sp d D ED) as (D' & ED' & N').
    apply (signalled_ok _ _ _ K _ _ D' _ s1 s2); try done; [by rewrite D1|by rewrite T1|by apply Inj].
Qed.

(** ** Every operation keeps the invariant *)

(** The parts of the invariant that depend only on which entries and which
    descriptors there are. *)
Definition shape (D : polldesc_t) : nat * list nat * nat := (thread D, data D, dsize D).

Lemma inv_rebuild ls ls' s s' :
  inv ls s -> chains (datas s') ls' -> headers s' = heads_of ls' ->
  (forall x, ddesc <$> datas s' !! x = ddesc <$> datas s !! x) ->
  (forall d, shape <$> descs s' !! d = shape <$> descs s !! d) ->
  (forall h l x, ls' !! h = Some l ->
    x ∈ l <-> exists n D, datas s' !! x = Some n /\ dheader n = Some h /\ descs s' !! ddesc n = Some D /\ phase D <> Left) ->
  (forall x n h, datas s' !! x = Some n -> dheader n = Some h -> (h < length ls')%nat) ->
  (forall d D i x n, descs s' !! d = Some D -> data D !! i = Some x -> datas s' !! x = Some n ->
    dheader n <> None -> (i < leave_count D)%nat) ->
  (forall d D, descs s' !! d = Some D -> exists T, threads s' !! thread D = Some T /\ phase_ok D T) ->
  events_ok (datas s') (descs s') -> inv ls' s'.
Proof.
  intros I Ch Hd Fx Fd Rg Bd Ld Th Ev.
  assert (Dw : forall d D', descs s' !! d = Some D' -> exists D, descs s !! d = Some D /\ thread D' = thread D /\
    data D' = data D /\ dsize D' = dsize D).
  { intros d D' E. specialize (Fd d). rewrite E in Fd. destruct (descs s !! d) as [D|]; [|done]. unfold shape in Fd. cbn in Fd.
    exists D. split; [done|]. repeat split; congruence. }
  split; try done.
  - intros x n' En'. specialize (Fx x). rewrite En' in Fx. destruct (datas s !! x) as [n|] eqn:En; [|done]. cbn in Fx. simplify_eq.
    destruct (i_data _ _ I x n En) as (D & ED & Hx). specialize (Fd (ddesc n)). rewrite ED in Fd.
    replace (ddesc n') with (ddesc n) by done. destruct (descs s' !! ddesc n) as [D'|] eqn:ED'; [|done].
    exists D'. split; [done|]. unfold shape in Fd. cbn in Fd. by replace (data D') with (data D) by congruence.
  - intros d D' x ED' Hx. destruct (Dw _ _ ED') as (D & ED & _ & Hd' & _). rewrite Hd' in Hx.
    destruct (i_own _ _ I d D x ED Hx) as (n & En & <-). specialize (Fx x). rewrite En in Fx.
    destruct (datas s' !! x) as [n'|]; [|done]. exists n'. cbn in Fx. split; [done|congruence].
  - intros d D' ED'. destruct (Dw _ _ ED') as (D & ED & _ & Hd' & Hs). unfold leave_count. rewrite Hd', Hs.
    exact (i_desc _ _ I d D ED).
  - intros d d' D D' ED ED' Et. destruct (Dw _ _ ED) as (E1 & H1 & Q1 & _), (Dw _ _ ED') as (E2 & H2 & Q2 & _).
    apply (i_inj _ _ I d d' E1 E2 H1 H2). congruence.
Qed.

Lemma same_reg_ddesc ds ds' : same_reg ds ds' -> forall x, ddesc <$> ds' !! x = ddesc <$> ds !! x.
Proof. intros S x. specialize (S x). destruct (ds !! x), (ds' !! x); try done. cbn in *. unfold reg in S. congruence. Qed.

Lemma inv_update ls ls' s s' :
  inv ls s -> length ls' = length ls -> (forall h l l', ls !! h = Some l -> ls' !! h = Some l' -> l' ≡ₚ l) ->
  chains (datas s') ls' -> headers s' = heads_of ls' -> same_reg (datas s) (datas s') ->
  dom (descs s') = dom (descs s) -> events_ok (datas s') (descs s') ->
  (forall d D T, descs s !! d = Some D -> threads s !! thread D = Some T -> phase_ok D T ->
     exists D' T', descs s' !! d = Some D' /\ thread D' = thread D /\ data D' = data D /\ dsize D' = dsize D /\
       (phase D' = Left <-> phase D = Left) /\ threads s' !! thread D = Some T' /\ phase_ok D' T') ->
  inv ls' s'.
Proof.
  intros I Ln Pm Ch Hd Sr Dm Ev Ds. pose proof (symmetry Sr) as Sr'.
  assert (Dw : forall d D', descs s' !! d = Some D' -> exists D T', descs s !! d = Some D /\ thread D' = thread D /\
    data D' = data D /\ dsize D' = dsize D /\ (phase D' = Left <-> phase D = Left) /\
    threads s' !! thread D' = Some T' /\ phase_ok D' T').
  { intros d D' E. destruct (descs s !! d) as [D|] eqn:ED; [|by apply not_elem_of_dom in ED; apply elem_of_dom_2 in E; set_solver].
    destruct (i_thread _ _ I _ _ ED) as (T & ET & Ok). destruct (Ds d D T ED ET Ok) as (D2 & T2 & E2 & H1 & H2 & H3 & H4 & H5 & H6).
    rewrite E in E2. injection E2 as <-. exists D, T2. rewrite H1 in *. done. }
  assert (Rg : forall x n', datas s' !! x = Some n' -> exists n, datas s !! x = Some n /\ ddesc n' = ddesc n /\ dheader n' = dheader n).
  { intros x n' E. destruct (same_reg_lookup _ _ _ _ Sr' E) as (n & En & Rn). exists n. unfold reg in Rn. split; [done|]. split; congruence. }
  apply (inv_rebuild ls ls' s s' I); try done.
  - by apply same_reg_ddesc.
  - intros d. destruct (descs s !! d) as [D|] eqn:ED.
    + destruct (i_thread _ _ I _ _ ED) as (T & ET & Ok). destruct (Ds d D T ED ET Ok) as (D2 & T2 & -> & H1 & H2 & H3 & _).
      unfold shape. cbn. congruence.
    + apply not_elem_of_dom in ED. rewrite <- Dm in ED. by apply not_elem_of_dom in ED as ->.
  - intros h l' x El'. destruct (lookup_lt_is_Some_2 ls h) as [l El]; [rewrite <- Ln; by eapply lookup_lt_Some|].
    rewrite (Pm _ _ _ El El'), (i_reg _ _ I h l x El). split.
    + intros (n & D & En & Hh & ED & Ph). destruct (same_reg_lookup _ _ _ _ Sr En) as (n' & En' & Rn). unfold reg in Rn.
      destruct (i_thread _ _ I _ _ ED) as (T & ET & Ok). destruct (Ds _ D T ED ET Ok) as (D' & T' & E' & _ & _ & _ & Hp & _).
      exists n', D'. split; [done|]. split; [congruence|]. split; [by replace (ddesc n') with (ddesc n) by congruence|by rewrite Hp].
    + intros (n' & D' & En' & Hh & ED' & Ph). destruct (Rg x n' En') as (n & En & Rd & Rh).
      destruct (Dw _ _ ED') as (D & T' & ED & _ & _ & _ & Hp & _). exists n, D. rewrite <- Rd, <- Rh, <- Hp. done.
  - intros x n' h En' Hh. destruct (Rg x n' En') as (n & En & Rd & Rh). rewrite Ln. apply (i_bound _ _ I x n h); congruence.
  - intros d D' i x n' ED' Hi En' Hh. destruct (Dw _ _ ED') as (D & T' & ED & _ & Hd' & Hs & _). unfold leave_count. rewrite Hs.
    destruct (Rg x n' En') as (n & En & Rd & Rh). apply (i_lead _ _ I d D i x n); congruence.
  - intros d D' ED'. destruct (Dw _ _ ED') as (D & T' & ED & _ & _ & _ & _ & ET' & Ok'). eauto.
Qed.

Lemma signalled_phase ev ds l d D D' T T' : signalled ev ds l d D D' T T' -> phase_ok D T -> phase_ok D' T'.
Proof.
  intros [(H & (F1 & F2 & F3 & F4 & F5) & Ee & Lk & Wk & ->)|(_ & -> & ->)]; [|done]. unfold phase_ok. rewrite F4, F5, Lk, Wk.
  unfold woken. destruct (phase D); intros P.
  - destruct P as (Hs & -> & ->). by cbn.
  - destruct P as [-> P]. destruct (sleeping T) eqn:Hs.
    + destruct P as (-> & _). cbn. split; [done|]. right. split; [done|]. by left.
    + destruct (lock D || false); rewrite Hs; (split; [done|]); intuition.
  - destruct (lock D || wakeuplock D), (sleeping T) eqn:?; done.
  - destruct (lock D || wakeuplock D), (sleeping T) eqn:?; done.
Qed.

Lemma poll_event_inv h ev ls l s s' : inv ls s -> ls !! h = Some l -> poll_event h ev s = Some s' -> exists ls', inv ls' s' /\ length ls' = length ls.
Proof.
  intros I El E. destruct (poll_event_ok h ev ls l s I El) as (s2 & l' & E' & Pm & Ch & Hd & Sr & Ok & Dm & Sg).
  rewrite E in E'. injection E' as <-. exists (<[h := l']> ls). split; [|by rewrite length_insert].
  apply (inv_update ls _ s); try done.
  - by rewrite length_insert.
  - intros k k1 k2 E1 E2. destruct (decide (k = h)) as [->|Ne]; [|rewrite list_lookup_insert_ne in E2 by done; by simplify_eq].
    rewrite list_lookup_insert_eq in E2 by (by eapply lookup_lt_Some). by simplify_eq.
  - intros d D T ED ET Po. destruct (Sg d D T ED ET) as (D' & T' & ED' & Th & ET' & S).
    exists D', T'. pose proof (signalled_phase _ _ _ _ _ _ _ _ S Po).
    destruct S as [(_ & (F1 & F2 & F3 & F4 & F5) & _)|(_ & -> & _)]; rewrite ?F4; done.
Qed.

(** An operation that changes one descriptor and its thread. *)
Lemma inv_one ls s d D D' th T' :
  inv ls s -> descs s !! d = Some D -> thread D' = thread D -> data D' = data D -> dsize D' = dsize D ->
  (phase D' = Left <-> phase D = Left) -> (event D' = event D) -> th !! thread D = Some T' -> phase_ok D' T' ->
  (forall u, u <> thread D -> th !! u = threads s !! u) ->
  inv ls (mk_poll (datas s) (<[d := D']> (descs s)) (headers s) th).
Proof.
  intros I ED Ht Hd Hs Hp He ET Po Fr. apply (inv_update ls ls s); try done.
  - intros h l l' E1 E2. by simplify_eq.
  - apply (i_chains _ _ I).
  - apply (i_heads _ _ I).
  - cbn. apply elem_of_dom_2 in ED. set_solver.
  - intros e E x EE Ex. cbn in EE. destruct (decide (e = d)) as [->|Ne].
    + rewrite lookup_insert_eq in EE. simplify_eq. apply (i_events _ _ I d D); congruence.
    + rewrite lookup_insert_ne in EE by done. by apply (i_events _ _ I e E).
  - intros e E T EE EeT Pe. cbn. destruct (decide (e = d)) as [->|Ne].
    + rewrite ED in EE. injection EE as <-. rewrite lookup_insert_eq. by exists D', T'.
    + rewrite lookup_insert_ne by done. exists E, T. rewrite Fr; [done|]. intros Q. apply Ne. by apply (i_inj _ _ I e d E D).
Qed.

(** The entries in the chains are those [dheader] says. *)
Definition filed (ds : gmap nat polldata_t) (ls : list (list nat)) (xs : list nat) : Prop :=
  forall x, x ∈ xs -> exists n, ds !! x = Some n /\
    (forall h, dheader n = Some h -> exists l, ls !! h = Some l /\ x ∈ l) /\
    (forall h l, ls !! h = Some l -> x ∈ l -> dheader n = Some h).

Lemma leave_one_ok ls s x :
  chains (datas s) ls -> headers s = heads_of ls -> filed (datas s) ls [x] ->
  exists s' ls', leave_one x s = Some s' /\ chains (datas s') ls' /\ headers s' = heads_of ls' /\
    same_payload (datas s) (datas s') /\ descs s' = descs s /\ threads s' = threads s /\ length ls' = length ls /\
    forall h l l' y, ls !! h = Some l -> ls' !! h = Some l' -> y ∈ l' <-> y ∈ l /\ y <> x.
Proof.
  intros Ch Hd Fi. destruct (Fi x) as (n & En & F1 & F2); [set_solver|]. unfold leave_one. rewrite En. cbn [mbind option_bind].
  destruct (dheader n) as [h|] eqn:Eh.
  - destruct (F1 h eq_refl) as (l & El & (l1 & l2 & ->)%list_elem_of_split). pose proof (lookup_lt_Some _ _ _ El) as Lh.
    assert (Hh : headers s !! h = Some (hdo (l1 ++ x :: l2) None)) by (by rewrite Hd; unfold heads_of; rewrite list_lookup_fmap, El).
    rewrite Hh. cbn [mbind option_bind].
    destruct (removefromlist_ok (datas s) l1 x l2) as (n' & ds1 & En' & _ & U & E1 & R).
    { apply Ch. by eapply list_elem_of_lookup_2. } { eapply chain_nodup; [apply Ch|done]. }
    rewrite En in En'. injection En' as <-. rewrite R. cbn [mbind option_bind].
    destruct (dlists_unlink _ _ _ _ h l1 x l2 (chains_dlists _ _ Ch) El) as (n' & ds1' & En' & U' & D1 & S1 & _ & Pm & _).
    rewrite U in U'. injection U' as <-. apply dlists_chains in D1 as [C1 _].
    assert (Nx : x ∉ mjoin (<[h := l1 ++ l2]> ls)) by (pose proof (proj2 Ch) as ND; rewrite Pm in ND; by apply NoDup_cons in ND as [? _]).
    eexists _, (<[h := l1 ++ l2]> ls). split; [done|]. cbn [datas headers descs threads]. split; [|split; [|split]].
    + destruct C1 as [C1 ND]. split; [|done]. intros k Hk. apply dseg_frame; [|by apply C1]. intros Q. apply Nx.
      apply list_elem_of_lookup_1 in Hk as [i Hi]. by eapply chain_elem.
    + rewrite Hd. unfold heads_of. by rewrite list_fmap_insert.
    + etransitivity; [exact S1|]. intros y. destruct (decide (y = x)) as [->|]; [by rewrite lookup_insert_eq, E1|by rewrite lookup_insert_ne].
    + split; [done|]. split; [done|]. split; [by rewrite length_insert|]. intros k k1 k2 y Ek Ek2.
      destruct (decide (k = h)) as [->|Ne].
      * rewrite list_lookup_insert_eq in Ek2 by done. simplify_eq.
        destruct (decide (y = x)) as [->|]; [|set_solver]. split; [|tauto]. intros Q. destruct Nx.
        eapply chain_elem; [|exact Q]. by apply list_lookup_insert_eq.
      * rewrite list_lookup_insert_ne in Ek2 by done. simplify_eq. split; [|tauto]. intros Q. split; [done|]. intros ->.
        eapply F2 in Q; [|done]; congruence.
  - exists s, ls. repeat (split; [done|]). intros k k1 k2 y Ek Ek2. simplify_eq. split; [|tauto]. intros Q. split; [done|].
    intros ->. eapply F2 in Q; [|done]; congruence.
Qed.

Lemma leave_all_ok xs ls s :
  chains (datas s) ls -> headers s = heads_of ls -> NoDup xs -> filed (datas s) ls xs ->
  exists s' ls', leave_all xs s = Some s' /\ chains (datas s') ls' /\ headers s' = heads_of ls' /\
    same_payload (datas s) (datas s') /\ descs s' = descs s /\ threads s' = threads s /\ length ls' = length ls /\
    forall h l l' y, ls !! h = Some l -> ls' !! h = Some l' -> y ∈ l' <-> y ∈ l /\ y ∉ xs.
Proof.
  revert ls s. induction xs as [|x xs IH]; intros ls s Ch Hd ND Fi.
  { exists s, ls. repeat (split; [done|]). intros h l l' y E1 E2. simplify_eq. set_solver. }
  apply NoDup_cons in ND as [Nx ND].
  destruct (leave_one_ok ls s x Ch Hd) as (s1 & ls1 & E1 & C1 & H1 & S1 & D1 & T1 & L1 & M1).
  { intros y ->%list_elem_of_singleton. apply Fi. set_solver. }
  destruct (IH ls1 s1 C1 H1 ND) as (s2 & ls2 & E2 & C2 & H2 & S2 & D2 & T2 & L2 & M2).
  { intros y Hy. destruct (Fi y) as (n & En & F1 & F2); [set_solver|]. pose proof (S1 y) as Sy. rewrite En in Sy.
    destruct (datas s1 !! y) as [n'|]; [|done]. cbn in Sy. assert (Eh : dheader n' = dheader n) by congruence.
    exists n'. rewrite Eh. split; [done|]. split.
    - intros h Hh. destruct (F1 h Hh) as (l & El & Hl). destruct (lookup_lt_is_Some_2 ls1 h) as [l' El'].
      { rewrite L1. by eapply lookup_lt_Some. }
      exists l'. split; [done|]. apply (M1 h l l' y El El'). split; [done|]. by intros ->.
    - intros h l' El' Hl'. destruct (lookup_lt_is_Some_2 ls h) as [l El]. { rewrite <- L1. by eapply lookup_lt_Some. }
      apply (F2 h l El). by apply (M1 h l l' y El El'). }
  exists s2, ls2. cbn [leave_all]. rewrite E1. cbn [mbind option_bind]. split; [done|]. split; [done|]. split; [done|].
  split; [by transitivity (datas s1)|]. split; [congruence|]. split; [congruence|]. split; [congruence|].
  intros h l l' y El El'. destruct (lookup_lt_is_Some_2 ls1 h) as [l1 El1]. { rewrite L1. by eapply lookup_lt_Some. }
  rewrite (M2 h l1 l' y El1 El'), (M1 h l l1 y El El1). set_solver.
Qed.

Lemma poll_leave_inv ls s d D :
  inv ls s -> descs s !! d = Some D -> phase D = Setup \/ phase D = Done ->
  exists s' ls', poll_leave d s = Some s' /\ inv ls' s' /\ length ls' = length ls.
Proof.
  intros I ED Ph. destruct (i_desc _ _ I d D ED) as [NDd Lc].
  assert (PL : phase D <> Left) by (destruct Ph as [-> | ->]; done).
  destruct (leave_all_ok (take (leave_count D) (data D)) ls s) as (s1 & ls1 & E1 & C1 & H1 & S1 & D1 & T1 & L1 & M1).
  { apply (i_chains _ _ I). } { apply (i_heads _ _ I). } { eapply sublist_NoDup; [exact NDd|apply sublist_take]. }
  { intros x Hx%elem_of_take. destruct Hx as (i & Hi & _). apply list_elem_of_lookup_2 in Hi as Hx.
    destruct (i_own _ _ I d D x ED Hx) as (n & En & Hd). exists n. split; [done|]. split.
    - intros h Hh. destruct (lookup_lt_is_Some_2 ls h) as [l El]; [by apply (i_bound _ _ I x n)|]. exists l. split; [done|].
      apply (i_reg _ _ I h l x El). exists n, D. rewrite Hd. done.
    - intros h l El Hl. apply (i_reg _ _ I h l x El) in Hl as (n' & _ & En' & Hh & _). congruence. }
  unfold poll_leave. rewrite ED. cbn [mbind option_bind]. unfold passert. rewrite bool_decide_eq_true_2 by done.
  cbn [mbind option_bind]. rewrite E1. cbn [mbind option_bind]. eexists _, ls1. split; [done|]. split; [|done].
  assert (Sr : same_reg (datas s1) (datas s)) by (symmetry; by apply payload_reg).
  assert (Rg : forall x n', datas s1 !! x = Some n' -> exists n, datas s !! x = Some n /\ ddesc n' = ddesc n /\ dheader n' = dheader n).
  { intros x n' E. destruct (same_reg_lookup _ _ _ _ Sr E) as (n & En & Rn). exists n. unfold reg in Rn. split; [done|]. split; congruence. }
  rewrite D1. set (Df := with_phase Left false D).
  assert (Lk : forall e E, <[d := Df]> (descs s) !! e = Some E -> exists E0, descs s !! e = Some E0 /\ thread E = thread E0 /\
    data E = data E0 /\ dsize E = dsize E0 /\ event E = event E0 /\ (E = E0 \/ e = d /\ E = Df)).
  { intros e E H. destruct (decide (e = d)) as [->|Ne]; [rewrite lookup_insert_eq in H|rewrite lookup_insert_ne in H by done; eauto 10].
    simplify_eq. exists D. split; [done|]. do 4 (split; [done|]). auto. }
  apply (inv_rebuild ls ls1 s); cbn [datas descs headers threads with_descs]; try done.
  - by apply same_reg_ddesc, symmetry.
  - intros e. destruct (decide (e = d)) as [->|Ne]; [by rewrite lookup_insert_eq, ED|by rewrite lookup_insert_ne].
  - intros h l' x El'. destruct (lookup_lt_is_Some_2 ls h) as [l El]. { rewrite <- L1. by eapply lookup_lt_Some. }
    rewrite (M1 h l l' x El El'), (i_reg _ _ I h l x El). split.
    + intros ((n & E & En & Hh & EE & Pe) & Ht). destruct (same_reg_lookup _ _ _ _ (symmetry Sr) En) as (n' & En' & Rn). unfold reg in Rn.
      exists n', E. split; [done|]. split; [congruence|]. replace (ddesc n') with (ddesc n) by congruence.
      rewrite lookup_insert_ne; [done|]. intros Q. destruct Ht. rewrite <- Q, ED in EE. injection EE as <-.
      destruct (i_data _ _ I x n En) as (D' & ED' & Hx). rewrite <- Q, ED in ED'. injection ED' as <-.
      apply list_elem_of_lookup_1 in Hx as [i Hi]. apply elem_of_take. exists i. split; [done|].
      apply (i_lead _ _ I d D i x n ED Hi En). congruence.
    + intros (n' & E & En' & Hh & EE & Pe). destruct (Rg x n' En') as (n & En & Rd & Rh).
      destruct (Lk _ _ EE) as (E0 & EE0 & _ & _ & _ & _ & [->|[_ ->]]); [|done]. split; [exists n, E0; rewrite <- Rd, <- Rh; done|].
      intros Hx. apply elem_of_take in Hx as (i & Hi & _). apply list_elem_of_lookup_2 in Hi.
      destruct (i_own _ _ I d D x ED Hi) as (m & Em & Hd). replace (ddesc n') with d in EE by congruence.
      rewrite lookup_insert_eq in EE. injection EE as <-. done.
  - intros x n' h En' Hh. destruct (Rg x n' En') as (n & En & Rd & Rh). rewrite L1. apply (i_bound _ _ I x n h); congruence.
  - intros e E i x n' EE Hi En' Hh. destruct (Lk _ _ EE) as (E0 & EE0 & _ & Hd & Hs & _). unfold leave_count. rewrite Hs.
    destruct (Rg x n' En') as (n & En & Rd & Rh). apply (i_lead _ _ I e E0 i x n); congruence.
  - intros e E EE. destruct (Lk _ _ EE) as (E0 & EE0 & Ht & _ & _ & _ & C). rewrite T1, Ht.
    destruct (i_thread _ _ I _ _ EE0) as (T & ET & Po). exists T. split; [done|]. destruct C as [->|[-> ->]]; [done|].
    rewrite ED in EE0. injection EE0 as <-. unfold phase_ok in Po |- *. cbn. destruct Ph as [Q|Q]; rewrite Q in Po; tauto.
  - intros e E x EE Ex. destruct (Lk _ _ EE) as (E0 & EE0 & _ & _ & _ & He & _).
    apply (events_ok_payload _ _ _ S1 (i_events _ _ I) e E0 x EE0). congruence.
Qed.

Lemma poll_add_inv ls s h x ev n D l :
  inv ls s -> ls !! h = Some l -> datas s !! x = Some n -> dheader n = None -> descs s !! ddesc n = Some D ->
  phase D = Setup -> x ∈ take (leave_count D) (data D) ->
  exists s', poll_add h x ev s = Some s' /\ inv (<[h := x :: l]> ls) s'.
Proof.
  intros I El En Hn ED Ph Hx. pose proof (lookup_lt_Some _ _ _ El) as Lh.
  set (n1 := mk_data (dnext n) (dprev n) (Some h) (ddesc n) ev (drevents n)).
  assert (Nx : x ∉ mjoin ls).
  { intros (j & k & Ej & Hk)%elem_concat. apply (i_reg _ _ I j k x Ej) in Hk as (n' & _ & En' & Hh & _). congruence. }
  assert (C1 : chains (<[x := n1]> (datas s)) ls).
  { eapply chains_mono; [|apply (i_chains _ _ I)]. intros y m Hy Em. exists m. rewrite lookup_insert_ne by set_solver. done. }
  destruct (chains_push _ _ h l x n1 C1 El Nx (lookup_insert_eq _ _ _)) as (ds & Pf & C2 & Sp & _).
  assert (Hh : headers s !! h = Some (hdo l None)) by (by rewrite (i_heads _ _ I); unfold heads_of; rewrite list_lookup_fmap, El).
  unfold poll_add, upd. rewrite En. cbn [mbind option_bind]. fold n1. unfold insertinheader. cbn [headers datas with_datas]. rewrite Hh.
  cbn [mbind option_bind]. rewrite Pf. cbn [mbind option_bind]. eexists. split; [done|].
  assert (Ex : exists n2, ds !! x = Some n2 /\ reg n2 = reg n1 /\ drevents n2 = drevents n).
  { specialize (Sp x). rewrite lookup_insert_eq in Sp. destruct (ds !! x) as [n2|]; [|done]. exists n2. cbn in Sp. unfold reg. cbn.
    split; [done|]. split; congruence. }
  destruct Ex as (n2 & En2 & R2 & V2). unfold reg in R2. cbn in R2.
  assert (Ey : forall y, y <> x -> reg <$> ds !! y = reg <$> datas s !! y).
  { intros y Ne. rewrite <- (payload_reg _ _ Sp y). by rewrite lookup_insert_ne. }
  apply (inv_rebuild ls _ s); cbn [datas descs headers threads with_datas]; try done.
  - rewrite (i_heads _ _ I). unfold heads_of. by rewrite list_fmap_insert.
  - intros y. destruct (decide (y = x)) as [->|Ne]; [rewrite En, En2; cbn; congruence|]. specialize (Ey y Ne).
    destruct (ds !! y), (datas s !! y); try done. unfold reg in Ey. cbn in Ey |- *. congruence.
  - intros k k' y Ek. assert (Hy : y ∈ k' <-> (y = x /\ k = h) \/ exists k0, ls !! k = Some k0 /\ y ∈ k0).
    { destruct (decide (k = h)) as [->|Nk].
      - rewrite list_lookup_insert_eq in Ek by done. injection Ek as <-. rewrite elem_of_cons, El. naive_solver.
      - rewrite list_lookup_insert_ne in Ek by done. rewrite Ek. naive_solver. }
    rewrite Hy. split.
    + intros [[-> ->]|(k0 & Ek0 & Hk0)].
      * exists n2, D. split; [done|]. split; [congruence|]. split; [by replace (ddesc n2) with (ddesc n) by congruence|by rewrite Ph].
      * apply (i_reg _ _ I k k0 y Ek0) in Hk0 as (m & E & Em & Hm & EE & Pe).
        assert (Ne : y <> x) by congruence. specialize (Ey y Ne). rewrite Em in Ey. destruct (ds !! y) as [m'|]; [|done].
        unfold reg in Ey. cbn in Ey. exists m', E. split; [done|]. split; [congruence|]. by replace (ddesc m') with (ddesc m) by congruence.
    + intros (m & E & Em & Hm & EE & Pe). destruct (decide (y = x)) as [->|Ne]; [left; split; congruence|right].
      specialize (Ey y Ne). rewrite Em in Ey. destruct (datas s !! y) as [m'|] eqn:Em'; [|done]. unfold reg in Ey. cbn in Ey.
      destruct (lookup_lt_is_Some_2 ls k) as [k0 Ek0]; [by apply (i_bound _ _ I y m' k); congruence|]. exists k0. split; [done|].
      apply (i_reg _ _ I k k0 y Ek0). exists m', E. split; [done|]. split; [congruence|]. by replace (ddesc m') with (ddesc m) by congruence.
  - intros y m k Em Hm. rewrite length_insert. destruct (decide (y = x)) as [->|Ne]; [rewrite En2 in Em; simplify_eq; congruence|].
    specialize (Ey y Ne). rewrite Em in Ey. destruct (datas s !! y) as [m'|] eqn:Em'; [|done]. unfold reg in Ey. cbn in Ey.
    apply (i_bound _ _ I y m' k); congruence.
  - intros d E j y m EE Hj Em Hm. destruct (decide (y = x)) as [->|Ne].
    + destruct (i_own _ _ I d E x EE) as (m' & Em' & Hd); [by eapply list_elem_of_lookup_2|].
      assert (Q : d = ddesc n) by congruence. rewrite Q, ED in EE. injection EE as <-.
      apply elem_of_take in Hx as (i & Hi & Li). by rewrite (NoDup_lookup _ _ _ _ (proj1 (i_desc _ _ I _ _ ED)) Hj Hi).
    + specialize (Ey y Ne). rewrite Em in Ey. destruct (datas s !! y) as [m'|] eqn:Em'; [|done]. unfold reg in Ey. cbn in Ey.
      apply (i_lead _ _ I d E j y m'); congruence.
  - apply (i_thread _ _ I).
  - apply (events_ok_payload _ _ _ Sp). intros d E y EE Ee. destruct (i_events _ _ I d E y EE Ee) as (m & Em & Hd & Hm & H).
    exists m. rewrite lookup_insert_ne by congruence. done.
Qed.

Lemma lookup_fresh_datas (ids : list nat) d (ds : gmap nat polldata_t) x :
  NoDup ids -> (list_to_map ((fun x => (x, mk_data None None None d 0 0)) <$> ids) ∪ ds) !! x =
    if bool_decide (x ∈ ids) then Some (mk_data None None None d 0 0) else ds !! x.
Proof.
  intros ND. set (f := fun x => (x, mk_data None None None d 0 0)).
  assert (NF : NoDup (f <$> ids).*1) by (rewrite <- list_fmap_compose; unfold f; by rewrite list_fmap_id).
  case_bool_decide as Hx.
  - apply lookup_union_Some_l, elem_of_list_to_map_1; [done|]. apply list_elem_of_fmap. eauto.
  - rewrite lookup_union_r; [done|]. apply not_elem_of_list_to_map_1. rewrite <- list_fmap_compose. unfold f. by rewrite list_fmap_id.
Qed.

Lemma poll_initdesc_inv ls s d t size ids T :
  inv ls s -> descs s !! d = None -> NoDup ids -> (forall x, x ∈ ids -> datas s !! x = None) ->
  (match size with O => 1 | n => n end <= length ids)%nat ->
  threads s !! t = Some T -> sleeping T = false -> (forall e E, descs s !! e = Some E -> thread E <> t) ->
  inv ls (poll_initdesc d t size ids s).
Proof.
  intros I Ed ND Fr Lc ET Sl Ot. set (D := mk_desc t true false ids None size Setup false).
  assert (Lk : forall x, datas (poll_initdesc d t size ids s) !! x = if bool_decide (x ∈ ids) then Some (mk_data None None None d 0 0) else datas s !! x).
  { intros x. by apply lookup_fresh_datas. }
  assert (Old : forall x n, datas s !! x = Some n -> (x ∉ ids) /\ ddesc n <> d).
  { intros x n En. split; [intros Hx; rewrite (Fr x Hx) in En; done|]. destruct (i_data _ _ I x n En) as (E & EE & _). congruence. }
  assert (Keep : forall x n, datas s !! x = Some n -> datas (poll_initdesc d t size ids s) !! x = Some n).
  { intros x n En. rewrite Lk, bool_decide_eq_false_2; [done|]. by apply (Old x n). }
  assert (Inv : forall x n, datas (poll_initdesc d t size ids s) !! x = Some n ->
    (x ∈ ids /\ n = mk_data None None None d 0 0) \/ datas s !! x = Some n).
  { intros x n En. rewrite Lk in En. case_bool_decide; [left; split; congruence|by right]. }
  assert (De : forall e E, descs (poll_initdesc d t size ids s) !! e = Some E -> (e = d /\ E = D) \/ (e <> d /\ descs s !! e = Some E)).
  { intros e E EE. cbn in EE. destruct (decide (e = d)) as [->|Ne]; [rewrite lookup_insert_eq in EE; injection EE as <-; by left|].
    rewrite lookup_insert_ne in EE by done. auto. }
  split.
  - eapply chains_mono; [|apply (i_chains _ _ I)]. eauto.
  - apply (i_heads _ _ I).
  - intros h l x El. rewrite (i_reg _ _ I h l x El). split.
    + intros (n & E & En & Hh & EE & Pe). exists n, E. split; [by apply Keep|]. split; [done|]. cbn.
      rewrite lookup_insert_ne; [done|]. intros Q. by apply (proj2 (Old x n En)).
    + intros (n & E & En & Hh & EE & Pe). apply Inv in En as [[_ ->]|En]; [done|]. exists n, E.
      apply De in EE as [[Q _]|[_ EE]]; [by destruct (proj2 (Old x n En))|done].
  - intros x n h En Hh. apply Inv in En as [[_ ->]|En]; [done|]. by apply (i_bound _ _ I x n).
  - intros x n En. apply Inv in En as [[Hx ->]|En]; [exists D; cbn; by rewrite lookup_insert_eq|].
    destruct (i_data _ _ I x n En) as (E & EE & Hx). exists E. cbn. rewrite lookup_insert_ne; [done|]. intros Q. by apply (proj2 (Old x n En)).
  - intros e E x EE Hx. apply De in EE as [[-> ->]|[Ne EE]]; [rewrite Lk, bool_decide_eq_true_2 by done; eauto|].
    destruct (i_own _ _ I e E x EE Hx) as (n & En & Hn). exists n. auto.
  - intros e E EE. apply De in EE as [[-> ->]|[Ne EE]]; [split; [exact ND|by destruct size]|]. by apply (i_desc _ _ I e).
  - intros e E i x n EE Hi En Hn. apply Inv in En as [[_ ->]|En]; [done|]. apply De in EE as [[-> ->]|[Ne EE]].
    + apply list_elem_of_lookup_2 in Hi. by destruct (proj1 (Old x n En)).
    + by apply (i_lead _ _ I e E i x n).
  - intros e E EE. apply De in EE as [[-> ->]|[Ne EE]]; [exists T; by cbn|]. by apply (i_thread _ _ I e).
  - intros e e' E E' EE EE' Q. apply De in EE as [[-> ->]|[Ne EE]]; apply De in EE' as [[-> ->]|[Ne' EE']]; try done.
    + by destruct (Ot e' E' EE').
    + by destruct (Ot e E EE).
    + by apply (i_inj _ _ I e e' E E').
  - intros e E x EE Ex. apply De in EE as [[-> ->]|[Ne EE]]; [done|]. destruct (i_events _ _ I e E x EE Ex) as (n & En & H). exists n. auto.
Qed.

Lemma poll_destroydesc_inv ls s d D :
  inv ls s -> descs s !! d = Some D -> phase D = Left -> exists s', poll_destroydesc d s = Some s' /\ inv ls s'.
Proof.
  intros I ED Ph. unfold poll_destroydesc. rewrite ED. cbn [mbind option_bind]. eexists. split; [done|].
  set (del := list_to_map ((fun x => (x, mk_data None None None d 0 0)) <$> data D) : gmap nat polldata_t).
  assert (Dl : forall x, del !! x = None <-> x ∉ data D).
  { intros x. pose proof (lookup_fresh_datas (data D) d ∅ x (proj1 (i_desc _ _ I d D ED))) as L. fold del in L.
    rewrite map_union_empty in L. rewrite L, lookup_empty. case_bool_decide; naive_solver. }
  assert (Lk : forall x n, (datas s ∖ del) !! x = Some n <-> datas s !! x = Some n /\ ddesc n <> d).
  { intros x n. rewrite lookup_difference_Some, Dl. split; intros [En H]; (split; [done|]).
    - intros Q. apply H. destruct (i_data _ _ I x n En) as (D' & ED' & Hx). congruence.
    - intros Hx. destruct (i_own _ _ I d D x ED Hx) as (n' & En' & Q). congruence. }
  assert (De : forall e E, delete d (descs s) !! e = Some E <-> e <> d /\ descs s !! e = Some E).
  { intros e E. rewrite lookup_delete_Some. naive_solver. }
  assert (Keep : forall h l x, ls !! h = Some l -> x ∈ l -> (datas s ∖ del) !! x = datas s !! x).
  { intros h l x El Hx. apply (i_reg _ _ I h l x El) in Hx as (n & E & En & _ & EE & Pe). rewrite En. apply Lk. split; [done|]. congruence. }
  split; cbn [datas descs headers threads].
  - eapply chains_mono; [|apply (i_chains _ _ I)]. intros x n (j & l & El & Hx)%elem_concat En. exists n. by rewrite (Keep j l).
  - apply (i_heads _ _ I).
  - intros h l x El. rewrite (i_reg _ _ I h l x El). split.
    + intros (n & E & En & Hh & EE & Pe). exists n, E. rewrite Lk, De. assert (ddesc n <> d) by congruence. done.
    + intros (n & E & [En _]%Lk & Hh & [_ EE]%De & Pe). by exists n, E.
  - intros x n h [En _]%Lk. by apply (i_bound _ _ I x n).
  - intros x n [En Ne]%Lk. destruct (i_data _ _ I x n En) as (E & EE & Hx). exists E. by rewrite De.
  - intros e E x [Ne EE]%De Hx. destruct (i_own _ _ I e E x EE Hx) as (n & En & Hn). exists n. rewrite Lk. split; [|done]. split; [done|congruence].
  - intros e E [Ne EE]%De. by apply (i_desc _ _ I e).
  - intros e E i x n [Ne EE]%De Hi [En _]%Lk. by apply (i_lead _ _ I e E i x n).
  - intros e E [Ne EE]%De. by apply (i_thread _ _ I e).
  - intros e e' E E' [_ EE]%De [_ EE']%De. by apply (i_inj _ _ I e e' E E').
  - intros e E x [Ne EE]%De Ex. destruct (i_events _ _ I e E x EE Ex) as (n & En & Hn & H). exists n. rewrite Lk. split; [|done]. split; [done|congruence].
Qed.

Lemma poll_dowait_enter_inv ls s d D us :
  inv ls s -> descs s !! d = Some D -> phase D = Setup -> exists b s', poll_dowait_enter d us s = Some (b, s') /\ inv ls s'.
Proof.
  intros I ED Ph. destruct (i_thread _ _ I d D ED) as (T & ET & Po). unfold phase_ok in Po. rewrite Ph in Po. destruct Po as (Sl & Lk & Wk).
  unfold poll_dowait_enter. rewrite ED. cbn [mbind option_bind]. destruct (event D) as [x|] eqn:Ee.
  - eexists _, _. split; [done|]. apply (inv_one _ _ d D _ _ T); try done. cbn. by rewrite Ph.
  - unfold sched_prepare_sleep, upd. rewrite ET. cbn [mbind option_bind]. eexists _, _. split; [done|].
    eapply (inv_one _ _ d D); try done; [cbn; by rewrite Ph|apply lookup_insert_eq| |].
    + unfold phase_ok. cbn. split; [done|]. by rewrite orb_true_r.
    + intros u Ne. by rewrite lookup_insert_ne.
Qed.

(** Waking with a reason other than an interruption, [lock] just taken. *)
Lemma timeout_inv ls s d D :
  inv ls s -> descs s !! d = Some D -> phase D = Waiting -> timed D = true -> exists s', timeout d s = Some s' /\ inv ls s'.
Proof.
  intros I ED Ph Ti. destruct (i_thread _ _ I d D ED) as (T & ET & Po). unfold timeout. rewrite ED. cbn [mbind option_bind].
  destruct (lock D) eqn:Lk; [eauto|]. unfold sched_wakeup. rewrite ET. cbn [mbind option_bind]. change (1 =? SCHED_WAKEUP_REASON_INTERRUPTED) with false.
  rewrite orb_false_r. unfold phase_ok in Po. rewrite Ph, Lk in Po. destruct Po as [Wk Po]. destruct (sleeping T) eqn:Sl; cbn [negb].
  - eexists. split; [done|]. eapply (inv_one _ _ d D); try done; [apply lookup_insert_eq| |intros u Ne; by rewrite lookup_insert_ne].
    unfold phase_ok. cbn. rewrite Ph. split; [done|]. auto.
  - eexists. split; [done|]. apply (inv_one _ _ d D _ _ T); try done. unfold phase_ok. cbn. rewrite Ph, Sl. split; [done|]. intuition.
Qed.

Lemma poll_dowait_resume_inv ls s d D T :
  inv ls s -> descs s !! d = Some D -> phase D = Waiting -> threads s !! thread D = Some T -> sleeping T = false ->
  exists r s', poll_dowait_resume d s = Some (r, s') /\ inv ls s' /\
    (r = EINTR /\ wakeupreason T = SCHED_WAKEUP_REASON_INTERRUPTED \/
     r = 0 /\ (event D <> None \/ timed D = true) /\ lock D = true).
Proof.
  intros I ED Ph ET Sl. destruct (i_thread _ _ I d D ED) as (T' & ET' & Po). rewrite ET in ET'. injection ET' as <-.
  unfold phase_ok in Po. rewrite Ph, Sl in Po. destruct Po as [Wk Po].
  unfold poll_dowait_resume. rewrite ED. cbn [mbind option_bind]. rewrite ET. cbn [mbind option_bind].
  destruct Po as [->|[Lk [[-> Ee]|[-> Ti]]]]; [rewrite Wk|rewrite Lk|rewrite Lk]; cbn; eexists _, _; (split; [done|]);
    (split; [apply (inv_one _ _ d D _ _ T); try done; cbn; rewrite Ph; done|]); auto.
Qed.

Lemma interrupt_inv ls s t T :
  inv ls s -> threads s !! t = Some T ->
  exists b th, sched_wakeup t SCHED_WAKEUP_REASON_INTERRUPTED (threads s) = Some (b, th) /\ inv ls (with_threads th s).
Proof.
  intros I ET. unfold sched_wakeup. rewrite ET. cbn [mbind option_bind]. destruct (_ || _) eqn:C; eexists _, _; (split; [done|]).
  { by destruct s. }
  apply orb_false_iff in C as [Sl%negb_false_iff _]. apply (inv_update ls ls s); try done.
  - intros h l l' E1 E2. by simplify_eq.
  - apply (i_chains _ _ I).
  - apply (i_heads _ _ I).
  - apply (i_events _ _ I).
  - intros d D T0 ED ET0 Po. exists D. destruct (decide (t = thread D)) as [->|Ne].
    + eexists. do 5 (split; [done|]). split; [apply lookup_insert_eq|]. rewrite ET in ET0. injection ET0 as <-.
      unfold phase_ok in Po |- *. rewrite Sl in Po. cbn. destruct (phase D); intuition.
    + exists T0. cbn. by rewrite lookup_insert_ne.
Qed.

(** ** Runs *)

Inductive event_t :=
  | EInit (d t size : nat) (ids : list nat)
  | EAdd (h x : nat) (events : Z)
  | EEnter (d : nat) (ustimeout : Z)
  | ETimeout (d : nat)
  | EResume (d : nat)
  | EEvent (h : nat) (events : Z)
  | EInterrupt (t : nat)
  | ELeave (d : nat)
  | EDestroy (d : nat).

Definition in_phase (p : phase_t) (d : nat) (s : poll_st) : bool :=
  match descs s !! d with Some D => bool_decide (phase D = p) | None => false end.

Definition awake (t : nat) (s : poll_st) : bool :=
  match threads s !! t with Some T => negb (sleeping T) | None => false end.

(** The order in which callers use a descriptor; timers fire only while they
    are armed, and a thread runs only while it is awake. *)
Definition legal (s : poll_st) (e : event_t) : bool :=
  match e with
  | EInit d t size ids =>
      bool_decide (descs s !! d = None) && bool_decide (NoDup ids) &&
      forallb (fun x => bool_decide (datas s !! x = None)) ids &&
      bool_decide (match size with O => 1 | n => n end <= length ids)%nat &&
      awake t s && bool_decide (map_Forall (fun _ E => thread E <> t) (descs s))
  | EAdd h x _ =>
      bool_decide (h < length (headers s))%nat &&
      match datas s !! x with
      | Some n =>
          bool_decide (dheader n = None) && in_phase Setup (ddesc n) s &&
          match descs s !! ddesc n with
          | Some D => bool_decide (x ∈ take (leave_count D) (data D))
          | None => false
          end
      | None => false
      end
  | EEnter d _ => in_phase Setup d s
  | ETimeout d => in_phase Waiting d s && match descs s !! d with Some D => timed D | None => false end
  | EResume d => in_phase Waiting d s && match descs s !! d with Some D => awake (thread D) s | None => false end
  | EEvent h _ => bool_decide (h < length (headers s))%nat
  | EInterrupt t => bool_decide (is_Some (threads s !! t))
  | ELeave d => in_phase Setup d s || in_phase Done d s
  | EDestroy d => in_phase Left d s
  end.

Definition exec (s : poll_st) (e : event_t) : option poll_st :=
  match e with
  | EInit d t size ids => Some (poll_initdesc d t size ids s)
  | EAdd h x events => poll_add h x events s
  | EEnter d us => snd <$> poll_dowait_enter d us s
  | ETimeout d => timeout d s
  | EResume d => snd <$> poll_dowait_resume d s
  | EEvent h events => poll_event h events s
  | EInterrupt t => '(_, th) ← sched_wakeup t SCHED_WAKEUP_REASON_INTERRUPTED (threads s); Some (with_threads th s)
  | ELeave d => poll_leave d s
  | EDestroy d => poll_destroydesc d s
  end.

Fixpoint run (s : poll_st) (es : list event_t) : option poll_st :=
  match es with [] => Some s | e :: es' => s' ← exec s e; run s' es' end.

Fixpoint legal_run (s : poll_st) (es : list event_t) : bool :=
  match es with
  | [] => true
  | e :: es' => legal s e && match exec s e with Some s' => legal_run s' es' | None => true end
  end.

Definition init (nheaders : nat) (th : threads_t) : poll_st := mk_poll ∅ ∅ (replicate nheaders None) th.

Lemma init_inv n th : inv (replicate n []) (init n th).
Proof.
  split; cbn; try done.
  - split; [intros l [-> _]%elem_of_replicate; done|]. induction n; [constructor|done].
  - unfold heads_of. by rewrite fmap_replicate.
  - intros h l x [-> _]%lookup_replicate. split; [by intros ?%not_elem_of_nil|]. by intros (? & ? & [=] & _).
Qed.

Lemma in_phase_true p d s : in_phase p d s = true -> exists D, descs s !! d = Some D /\ phase D = p.
Proof. unfold in_phase. destruct (descs s !! d) as [D|]; [|done]. intros ?%bool_decide_eq_true. eauto. Qed.

Lemma exec_inv ls s e : inv ls s -> legal s e = true -> exists s' ls', exec s e = Some s' /\ inv ls' s' /\ length ls' = length ls.
Proof.
  intros I L. assert (HL : length (headers s) = length ls) by (rewrite (i_heads _ _ I); apply length_fmap).
  destruct e as [d t size ids|h x ev|d us|d|d|h ev|t|d|d]; cbn [legal exec] in L |- *.
  - apply andb_prop in L as [[[[[L H3]%andb_prop H2]%andb_prop H1]%andb_prop H0]%andb_prop H]. unfold awake in H0. destruct (threads s !! t) as [T|] eqn:ET; [|done].
    eexists _, ls. split; [done|]. split; [|done]. apply (poll_initdesc_inv ls s d t size ids T); try done.
    + by apply bool_decide_eq_true in L.
    + by apply bool_decide_eq_true in H3.
    + intros x Hx%list_elem_of_In. eapply (proj1 (forallb_forall _ _)) in H2; [|exact Hx]. by apply bool_decide_eq_true in H2.
    + by apply bool_decide_eq_true in H1.
    + by apply negb_true_iff.
    + by apply bool_decide_eq_true in H.
  - apply andb_prop in L as [Lh%bool_decide_eq_true L]. destruct (datas s !! x) as [n|] eqn:En; [|done].
    apply andb_prop in L as [[Hn%bool_decide_eq_true (D & ED & Ph)%in_phase_true]%andb_prop L]. rewrite ED in L. apply bool_decide_eq_true in L.
    destruct (lookup_lt_is_Some_2 ls h) as [l El]; [lia|].
    destruct (poll_add_inv ls s h x ev n D l I El En Hn ED Ph L) as (s' & E & I'). exists s', (<[h := x :: l]> ls). by rewrite length_insert.
  - apply in_phase_true in L as (D & ED & Ph). destruct (poll_dowait_enter_inv ls s d D us I ED Ph) as (b & s' & -> & I'). by exists s', ls.
  - apply andb_prop in L as [(D & ED & Ph)%in_phase_true Ti]. rewrite ED in Ti.
    destruct (timeout_inv ls s d D I ED Ph Ti) as (s' & -> & I'). by exists s', ls.
  - apply andb_prop in L as [(D & ED & Ph)%in_phase_true Aw]. rewrite ED in Aw. unfold awake in Aw.
    destruct (threads s !! thread D) as [T|] eqn:ET; [|done]. apply negb_true_iff in Aw.
    destruct (poll_dowait_resume_inv ls s d D T I ED Ph ET Aw) as (r & s' & -> & I' & _). by exists s', ls.
  - apply bool_decide_eq_true in L. destruct (lookup_lt_is_Some_2 ls h) as [l El]; [lia|].
    destruct (poll_event_ok h ev ls l s I El) as (s' & l' & E & _).
    destruct (poll_event_inv h ev ls l s s' I El E) as (ls' & I' & Ln). by exists s', ls'.
  - apply bool_decide_eq_true in L as [T ET]. destruct (interrupt_inv ls s t T I ET) as (b & th & -> & I'). cbn. by exists (with_threads th s), ls.
  - assert (exists D, descs s !! d = Some D /\ (phase D = Setup \/ phase D = Done)) as (D & ED & Ph).
    { apply orb_prop in L as [(D & ED & Ph)%in_phase_true|(D & ED & Ph)%in_phase_true]; eauto. }
    destruct (poll_leave_inv ls s d D I ED Ph) as (s' & ls' & -> & I' & Ln). by exists s', ls'.
  - apply in_phase_true in L as (D & ED & Ph). destruct (poll_destroydesc_inv ls s d D I ED Ph) as (s' & -> & I'). by exists s', ls.
Qed.

Lemma run_inv ls s es : inv ls s -> legal_run s es = true -> exists s' ls', run s es = Some s' /\ inv ls' s' /\ length ls' = length ls.
Proof.
  revert ls s. induction es as [|e es IH]; intros ls s I L; [by exists s, ls|].
  apply andb_prop in L as [L1 L2]. destruct (exec_inv ls s e I L1) as (s1 & ls1 & E & I1 & Ln). cbn [run]. rewrite E in L2 |- *.
  destruct (IH ls1 s1 I1 L2) as (s' & ls' & E' & I' & Ln'). exists s', ls'. cbn. split; [done|]. split; [done|congruence].
Qed.

(** ** Claims *)

(** C18. Any interleaving of registrations, waits, timeouts, interruptions,
    events and departures keeps the chains and the locks consistent: no
    operation touches an entry or a descriptor that is gone, the assertion of
    [poll_dowait] holds, every entry is on the chain of its header exactly once,
    and a sleeping thread has no noticed event. *)
Theorem poll_run_safe n th es :
  legal_run (init n th) es = true -> exists s ls, run (init n th) es = Some s /\ inv ls s.
Proof. intros L. destruct (run_inv _ _ _ (init_inv n th) L) as (s & ls & E & I & _). eauto. Qed.

(** Descriptor [d] waits on header [h] for one of [events]. *)
Definition registered (s : poll_st) (h : nat) (events : Z) (d : nat) : Prop :=
  exists x n D, datas s !! x = Some n /\ dheader n = Some h /\ ddesc n = d /\ descs s !! d = Some D /\ phase D <> Left /\
    revents_of n events <> 0.

Lemma registered_hits ls s h l ev d : inv ls s -> ls !! h = Some l -> registered s h ev d <-> hits ev (datas s) l d.
Proof.
  intros I El. split.
  - intros (x & n & D & En & Hh & Hd & ED & Ph & Rv). exists x, n. split; [|done].
    apply (i_reg _ _ I h l x El). exists n, D. by rewrite Hd.
  - intros (x & n & Hx & En & Hd & Rv). apply (i_reg _ _ I h l x El) in Hx as (n' & D & En' & Hh & ED & Ph).
    rewrite En in En'. injection En' as <-. exists x, n, D. by rewrite <- Hd.
Qed.

(** C19. No event is lost and none wakes a thread it is not for: in a reachable
    state [poll_event] leaves every descriptor registered for one of the events
    with a noticed event and its thread awake; a thread that slept then returns 0
    from [poll_dowait], and one that has not slept yet will not; the other
    descriptors and their threads are unchanged. *)
Theorem poll_event_wakes n th es s h ev :
  legal_run (init n th) es = true -> run (init n th) es = Some s -> (h < n)%nat ->
  exists s', poll_event h ev s = Some s' /\
    forall d D T, descs s !! d = Some D -> threads s !! thread D = Some T ->
      exists D' T', descs s' !! d = Some D' /\ threads s' !! thread D = Some T' /\
        (registered s h ev d -> event D' <> None /\ sleeping T' = false /\
           (sleeping T = true -> exists s2, poll_dowait_resume d s' = Some (0, s2)) /\
           (phase D = Setup -> forall us, exists s2, poll_dowait_enter d us s' = Some (false, s2))) /\
        (~ registered s h ev d -> D' = D /\ T' = T).
Proof.
  intros L R Lh. destruct (run_inv _ _ _ (init_inv n th) L) as (s0 & ls & R' & I & Ln). rewrite R in R'. injection R' as <-.
  rewrite length_replicate in Ln. destruct (lookup_lt_is_Some_2 ls h) as [l El]; [lia|].
  destruct (poll_event_ok h ev ls l s I El) as (s' & l' & E & _ & _ & _ & _ & _ & _ & Sg). exists s'. split; [done|].
  destruct (poll_event_inv h ev ls l s s' I El E) as (ls' & I' & _).
  intros d D T ED ET. destruct (Sg d D T ED ET) as (D' & T' & ED' & Th & ET' & S). exists D', T'. split; [done|]. split; [done|].
  rewrite (registered_hits _ _ _ _ _ _ I El). destruct (i_thread _ _ I d D ED) as (T0 & ET0 & Po). rewrite ET in ET0. injection ET0 as <-.
  destruct S as [(Hi & (_ & _ & _ & Fp & _) & Ee & Lk & Wk & HT)|(Hi & -> & ->)]; [|done]. split; [intros _|done]. split; [done|].
  assert (Sl : sleeping T' = false /\ (sleeping T = true -> phase D = Waiting /\ wakeupreason T' = 0)).
  { rewrite HT. unfold phase_ok, woken in *. destruct (sleeping T) eqn:Sl; [|destruct (_ || _); rewrite Sl; done].
    destruct (phase D); [by destruct Po| |done|done]. destruct Po as (-> & -> & _). done. }
  destruct Sl as [Sl Sw]. split; [done|]. split.
  - intros [Ph Wr]%Sw. rewrite <- Th in ET'. rewrite <- Fp in Ph.
    destruct (poll_dowait_resume_inv ls' s' d D' T' I' ED' Ph ET' Sl) as (r & s2 & E2 & _ & C).
    destruct C as [[_ C]|(-> & _)]; [by rewrite Wr in C|eauto].
  - intros Ph us. unfold poll_dowait_enter. rewrite ED'. cbn [mbind option_bind]. destruct (event D'); [eauto|done].
Qed.

(** Two threads: one sleeps on a pipe's header, the other polls two headers. *)
Definition example_threads : threads_t :=
  {[ 0%nat := mk_thread None None false false 0; 1%nat := mk_thread None None false false 0 ]}.

Definition example_events : list event_t :=
  [EInit 0 0 0 [0; 1; 2; 3; 4]%nat; EAdd 0 0 POLLPRI; EEnter 0 0;
   EInit 1 1 2 [5; 6]%nat; EAdd 0 5 POLLOUT; EAdd 1 6 POLLIN; EEnter 1 1000;
   EEvent 1 POLLOUT; EEvent 0 POLLOUT; EResume 1; ELeave 1; EDestroy 1].

Lemma poll_run_safe_witness : exists s ls, run (init 2 example_threads) example_events = Some s /\ inv ls s.
Proof. apply poll_run_safe. vm_compute. reflexivity. Defined.

Lemma poll_event_wakes_witness :
  exists s s', run (init 2 example_threads) example_events = Some s /\ poll_event 0 POLLHUP s = Some s'.
Proof.
  destruct (run (init 2 example_threads) example_events) as [s|] eqn:E; [|vm_compute in E; discriminate].
  destruct (poll_event_wakes 2 example_threads example_events s 0 POLLHUP) as (s' & E' & _);
    [vm_compute; reflexivity|exact E|lia|]. exists s, s'. split; [reflexivity|exact E'].
Defined.
