(* ===== verification/Pipe.v ===== *)
(** * Pipes ([fs/pipefs.c], [include/kernel/pipefs.h])

    A pipe is a ring buffer with counts of its open ends.  Each section that
    [INTERNAL_LOCK] protects is one atomic step: a read or a write that has to
    wait ends its step by sleeping, and the next step starts with its loop
    again.  The calls of [poll_event] are returned as effects, in order; [Poll]
    gives what each of them does. *)

From S2P Require Import Prelude Errno Vnode Mem RingBuffer Iovec Poll.

Definition BUFFER_SIZE : Z := 16 * PAGE_SIZE.
Definition PIPE_ATOMIC_SIZE : Z := 4096.

(** ** Data *)

Record pipenode_t := mk_pipe {
  attr : vattr_t;
  pdata : ringbuffer_t;
  readers : Z;
  writers : Z
}.

Inductive header_t := pollheader | readopenevent | writeopenevent.

(** What a step does besides: signal a header, or [SIGPIPE] to the caller. *)
Inductive effect_t :=
  | Signal (h : header_t) (events : Z)
  | Sigpipe.

(** How a step of a call ends: it returns an error number and a byte count, or
    the thread sleeps, its entry registered with a header or with none. *)
Inductive outcome_t :=
  | Return (error count : Z)
  | Sleep (registered : option (header_t * Z)).

Definition with_pdata (v : ringbuffer_t) (p : pipenode_t) : pipenode_t := mk_pipe (attr p) v (readers p) (writers p).

(** ** Creation, attributes *)

(** [VOP_INIT] and the constructor leave a pipe without ends; the caller
    passes what [slab_allocate] and [ringbuffer_init] gave. *)
Definition ctor (inode : Z) (rb : ringbuffer_t) : pipenode_t :=
  mk_pipe (mk_vattr 0 0 0 0 0 inode 0 0 0 (mk_timespec 0 0) (mk_timespec 0 0) (mk_timespec 0 0) 0 0 0 0 0) rb 0 0.

Definition pipefs_newpipe (allocated : bool) (vmm_map : Z -> option (Z * list Z)) (inode : Z) : Z + pipenode_t :=
  if negb allocated then inl ENOMEM
  else match ringbuffer_init vmm_map BUFFER_SIZE with
       | inl e => inl e
       | inr rb => inr (ctor inode rb)
       end.

Definition pipefs_getattr (p : pipenode_t) : vattr_t := with_type V_TYPE_FIFO (attr p).

Definition pipefs_setattr (new : vattr_t) (which : Z) (p : pipenode_t) : pipenode_t :=
  mk_pipe (assign_attr which new (attr p)) (pdata p) (readers p) (writers p).

(** ** Opening and closing *)

Definition pipefs_close (flags : Z) (p : pipenode_t) : pipenode_t * list effect_t :=
  let r := if has flags V_FFLAGS_READ then u64 (readers p - 1) else readers p in
  let w := if has flags V_FFLAGS_WRITE then u64 (writers p - 1) else writers p in
  (mk_pipe (attr p) (pdata p) r w,
   (if r =? 0 then [Signal pollheader POLLERR] else []) ++
   (if w =? 0 then [Signal pollheader POLLHUP] else [])).

(** From [leave] on. *)
Definition open_leave (flags error : Z) (p : pipenode_t) : outcome_t * pipenode_t * list effect_t :=
  if negb (error =? 0) then
    let '(p', es) := pipefs_close flags p in (Return error 0, p', es)
  else (Return error 0, p,
        [Signal (if has flags V_FFLAGS_READ then readopenevent else writeopenevent) POLLPRI]).

(** Up to the wait; [EVENT_ATTACH] registers for [POLLPRI]. *)
Definition pipefs_open (flags : Z) (p : pipenode_t) : outcome_t * pipenode_t * list effect_t :=
  if negb (has flags (Z.lor V_FFLAGS_WRITE V_FFLAGS_READ)) then (Return EINVAL 0, p, [])
  else
    let r := if has flags V_FFLAGS_READ then u64 (readers p + 1) else readers p in
    let w := if has flags V_FFLAGS_WRITE then u64 (writers p + 1) else writers p in
    let p := mk_pipe (attr p) (pdata p) r w in
    if (w >? 0) && (r >? 0) then open_leave flags 0 p
    else if has flags V_FFLAGS_NONBLOCKING && has flags V_FFLAGS_READ then open_leave flags 0 p
    else if has flags V_FFLAGS_NONBLOCKING && has flags V_FFLAGS_WRITE then open_leave flags ENXIO p
    else (Sleep (Some (if has flags V_FFLAGS_READ then writeopenevent else readopenevent, POLLPRI)), p, []).

(** After the wait, which returned [error]. *)
Definition pipefs_open_resume (flags error : Z) (p : pipenode_t) : outcome_t * pipenode_t * list effect_t :=
  open_leave flags error p.

(** ** Polling *)

(** The events returned and, when an entry is given, what it registers for. *)
Definition internalpoll (data : bool) (events : Z) (p : pipenode_t) : Z * option (header_t * Z) :=
  let '(events, revents) :=
    if has events POLLIN then
      (Z.lor events POLLHUP,
       if writers p =? 0 then POLLHUP
       else if RINGBUFFER_DATACOUNT (pdata p) >? 0 then POLLIN else 0)
    else (events, 0) in
  let '(events, revents) :=
    if has events POLLOUT then
      (Z.lor events POLLERR,
       if readers p =? 0 then Z.lor revents POLLERR
       else if RINGBUFFER_DATACOUNT (pdata p) <? BUFFER_SIZE - PIPE_ATOMIC_SIZE then Z.lor revents POLLOUT
       else revents)
    else (events, revents) in
  (revents, if (revents =? 0) && data then Some (pollheader, events) else None).

Definition pipefs_poll (data : bool) (events : Z) (p : pipenode_t) : Z * option (header_t * Z) :=
  internalpoll data events p.

(** ** Reading *)

(** One step of the loop; [desc_ok] says whether [poll_initdesc] found memory. *)
Definition pipefs_read (desc_ok : bool) (m : mem) (it : iovec_iterator_t) (size flags : Z) (p : pipenode_t)
    : option (outcome_t * mem * iovec_iterator_t * pipenode_t * list effect_t) :=
  let '(revents, _) := internalpoll false POLLIN p in
  if negb (revents =? 0) then
    '(m', it', rb, readc) ← iovec_iterator_read_from_ringbuffer m it (pdata p) size;
    let error := if readc =? RINGBUFFER_USER_COPY_FAILED then EFAULT else 0 in
    Some (Return error readc, m', it', with_pdata rb p,
          if RINGBUFFER_DATACOUNT rb <? BUFFER_SIZE - PIPE_ATOMIC_SIZE then [Signal pollheader POLLOUT] else [])
  else if has flags V_FFLAGS_NONBLOCKING then Some (Return EAGAIN 0, m, it, p, [])
  else if negb desc_ok then Some (Return ENOMEM 0, m, it, p, [])
  else Some (Sleep (snd (internalpoll true POLLIN p)), m, it, p, []).

(** ** Writing *)

Definition writetopipe (m : mem) (it : iovec_iterator_t) (size : Z) (p : pipenode_t)
    : option (Z * Z * iovec_iterator_t * pipenode_t * list effect_t) :=
  if readers p =? 0 then Some (EPIPE, 0, it, p, [Sigpipe])
  else
    '(it', rb, writec) ← iovec_iterator_write_to_ringbuffer m it (pdata p) size;
    if writec =? RINGBUFFER_USER_COPY_FAILED then Some (EFAULT, writec, it', with_pdata rb p, [])
    else
      passert (negb (writec =? 0));;
      Some (0, writec, it', with_pdata rb p, [Signal pollheader POLLIN]).

(** The wait at the end of a step of the loop. *)
Definition write_wait (desc_ok : bool) (p : pipenode_t) : outcome_t :=
  if negb desc_ok then Return ENOMEM 0 else Sleep (snd (internalpoll true POLLOUT p)).

(** The call after the loop. *)
Definition write_last (m : mem) (it : iovec_iterator_t) (size case3written : Z) (p : pipenode_t)
    : option (outcome_t * Z * iovec_iterator_t * pipenode_t * list effect_t) :=
  '(error, writec, it', p', es) ← writetopipe m it size p;
  Some (Return error writec, case3written, it', p', es).

(** One step of the loop; [case3written] is the variable of that name. *)
Definition pipefs_write (desc_ok : bool) (m : mem) (it : iovec_iterator_t) (size flags case3written : Z) (p : pipenode_t)
    : option (outcome_t * Z * iovec_iterator_t * pipenode_t * list effect_t) :=
  let atomic := size <=? PIPE_ATOMIC_SIZE in
  let nonblock := has flags V_FFLAGS_NONBLOCKING in
  let '(revents, _) := internalpoll false POLLOUT p in
  if has revents POLLHUP then write_last m it size case3written p
  else
    let freebytes := RINGBUFFER_FREESPACE (pdata p) in
    if negb nonblock && atomic && (freebytes >=? size) then write_last m it size case3written p
    else if nonblock && atomic && (freebytes <? size) then Some (Return EAGAIN 0, case3written, it, p, [])
    else if nonblock && atomic then write_last m it size case3written p
    else if negb nonblock && negb atomic && negb (freebytes =? 0) then
      let writecount := cmin freebytes (u64 (size - case3written)) in
      '(error, tmp, it', p', es) ← writetopipe m it writecount p;
      if negb (error =? 0) then Some (Return error 0, case3written, it', p', es)
      else
        let case3written := u64 (case3written + writecount) in
        passert (tmp =? writecount);;
        if case3written =? size then Some (Return 0 size, case3written, it', p', es)
        else Some (write_wait desc_ok p', case3written, it', p', es)
    else if nonblock && negb atomic && negb (freebytes =? 0) then write_last m it size case3written p
    else if nonblock && negb atomic then Some (Return EAGAIN 0, case3written, it, p, [])
    else Some (write_wait desc_ok p, case3written, it, p, []).

(** ** Transfers with one buffer *)

(** The iterator of a [read] or [write]: one buffer, [o] bytes of it done. *)
Definition single (c : iovec_t) (o : Z) : iovec_iterator_t := mk_iter [c] 0 o o (len c).

Definition buffer_ok (c : iovec_t) : Prop := 0 <= addr c /\ 0 < len c < 2 ^ 62 /\ addr c + len c <= USERSPACE_END.

Lemma single_cur c o : cur (single c o) = Some c.
Proof. done. Qed.

Lemma single_wf c o : buffer_ok c -> 0 <= o <= len c -> iter_wf (single c o) /\ rest (single c o) = seqZ (addr c + o) (len c - o).
Proof.
  intros (A & L & U) Ho. unfold USERSPACE_END in *.
  assert (R : rest (single c o) = seqZ (addr c + o) (len c - o)).
  { unfold rest. rewrite single_cur. cbn [single current_offset current iovec]. change (flat (drop 1 [c])) with (@nil Z). rewrite app_nil_r.
    unfold iovec_addrs. apply list_eq. intros i. rewrite lookup_drop. destruct (decide (Z.of_nat i < len c - o)).
    - rewrite !lookup_seqZ_lt by lia. f_equal. lia.
    - rewrite !lookup_seqZ_ge by lia. done. }
  split; [|done]. split; cbn [single iovec current current_offset total_offset total_size]; try lia.
  - cbn. lia.
  - intros x ->%list_elem_of_singleton. lia.
  - intros c'. rewrite single_cur. intros [= <-]. lia.
  - rewrite R, length_seqZ. lia.
Qed.

Lemma single_skip c o k :
  buffer_ok c -> 0 <= o -> 0 <= k -> o + k <= len c -> exists r, iovec_iterator_skip (single c o) k = Some (single c (o + k), r).
Proof.
  intros B Ho Hk Hs. pose proof B as (A & L & U). destruct (single_wf c o B ltac:(lia)) as [W _]. unfold iovec_iterator_skip.
  rewrite (skip_loop_S _ _ k c k W eq_refl) by (cbn [single current_offset]; lia). rewrite Z.sub_diag. cbn [Z.eqb orb mbind option_bind].
  unfold skip_round. change (current_offset (advance (single c o) k)) with (o + k). unfold iovec_iterator_finished.
  change (total_size (advance (single c o) k)) with (len c). change (total_offset (advance (single c o) k)) with (o + k).
  destruct ((o + k =? len c) && negb (len c =? o + k)) eqn:E; [lia|]. eauto.
Qed.

Lemma single_piece c o r :
  buffer_ok c -> 0 <= o <= len c -> 0 <= r < 2 ^ 63 -> piece (single c o) r = Some (addr c + o, Z.min (len c - o) r).
Proof.
  intros (A & L & U) Ho Hr. unfold USERSPACE_END in *. unfold piece. rewrite single_cur. cbn [mbind option_bind].
  change (current_offset (single c o)) with o. rewrite (u64_z (len c - o)), cmin_z, u64_z by lia. done.
Qed.

Lemma write_keeps m rb b n rb' r : ringbuffer_write m rb b n = Some (rb', r) -> size rb' = size rb.
Proof.
  unfold ringbuffer_write. intros E. apply bind_Some in E as ([bs1 e1] & _ & E). apply bind_Some in E as (d1 & _ & E).
  destruct (negb (e1 =? 0)); [by simplify_eq|]. case_match; [by simplify_eq|]. apply bind_Some in E as ([bs2 e2] & _ & E).
  apply bind_Some in E as (d2 & _ & E). destruct (negb (e2 =? 0)); by simplify_eq.
Qed.

(** The ring of a pipe: its size divides the range of the counters. *)
Definition ring_ok (rb : ringbuffer_t) : Prop := rb_wf rb /\ size rb = BUFFER_SIZE.

Lemma buffer_divides : (BUFFER_SIZE | 2 ^ 64).
Proof. exists (2 ^ 48). reflexivity. Qed.

Lemma ring_room rb : ring_ok rb ->
  RINGBUFFER_DATACOUNT rb = Z.of_nat (length (contents rb)) /\ 0 <= RINGBUFFER_DATACOUNT rb <= BUFFER_SIZE /\
  RINGBUFFER_FREESPACE rb = BUFFER_SIZE - Z.of_nat (length (contents rb)).
Proof.
  intros [W S]. rewrite length_contents, freespace_eq, S by done. split; [done|]. split; [|done].
  pose proof (datacount_nonneg rb). pose proof (wf_count rb W). lia.
Qed.

(** Queueing the next bytes of a buffer: all that was asked for, or what fits
    when the call asks for the rest of the buffer. *)
Lemma single_write m c o rb count bs :
  let k := Z.min count (len c - o) in
  let n := Z.min k (BUFFER_SIZE - Z.of_nat (length (contents rb))) in
  ring_ok rb -> buffer_ok c -> 0 <= o < len c -> 0 < count < 2 ^ 62 -> 0 < n -> n = k \/ count = len c - o ->
  holds m (addr c + o) bs -> Z.of_nat (length bs) = k ->
  exists rb', iovec_iterator_write_to_ringbuffer m (single c o) rb count = Some (single c (o + k), rb', n) /\
    ring_ok rb' /\ contents rb' = contents rb ++ take (Z.to_nat n) bs.
Proof.
  intros k n [W Sz] B Ho Hc Hn Hk Hh Hb. pose proof B as (A & L & U). destruct (single_wf c o B ltac:(lia)) as [Wi Ri].
  unfold USERSPACE_END in U. unfold iovec_iterator_write_to_ringbuffer. rewrite (remaining_total_ok _ _ Wi) by lia.
  rewrite Ri, length_seqZ. replace (Z.min count (Z.of_nat (Z.to_nat (len c - o)))) with k by lia.
  change (length (iovec (single c o))) with 1%nat. cbn [write_ring_loop]. rewrite single_piece by (done || lia). cbn [mbind option_bind].
  replace (Z.min (len c - o) k) with (Z.of_nat (length bs)) by lia.
  destruct (write_ok m rb (addr c + o) bs W) as (rb' & E & W' & C'); [lia|lia|lia|done|left; rewrite Sz; apply buffer_divides|].
  rewrite Hb, Sz in *. fold n in E, C'. rewrite E. cbn [mbind option_bind].
  assert (Sz' : size rb' = BUFFER_SIZE) by (rewrite <- Sz; by apply (write_keeps _ _ _ _ _ _ E)).
  pose proof (wf_size rb W) as S62. rewrite read_result_not_failed by lia. destruct (n =? 0) eqn:N0; [lia|].
  destruct (single_skip c o k B) as (r & ->); [lia..|]. cbn [mbind option_bind]. rewrite (u64_z (0 + n)) by lia. rewrite Z.add_0_l.
  assert (St : (n =? count) || iovec_iterator_finished (single c (o + k)) = true).
  { unfold iovec_iterator_finished. cbn [single total_size total_offset]. lia. }
  rewrite St. cbn [mbind option_bind]. rewrite read_result_not_failed by lia. exists rb'. split; [done|]. by split; [split|].
Qed.

(** A source that faults queues nothing and leaves the iterator where it was. *)
Lemma single_write_fault m c o rb count :
  let k := Z.min count (len c - o) in
  let n := Z.min k (BUFFER_SIZE - Z.of_nat (length (contents rb))) in
  ring_ok rb -> buffer_ok c -> 0 <= o < len c -> 0 < count < 2 ^ 62 -> ~ mapped m (addr c + o) (Z.to_nat n) ->
  exists rb', iovec_iterator_write_to_ringbuffer m (single c o) rb count = Some (single c o, rb', RINGBUFFER_USER_COPY_FAILED) /\
    ring_ok rb' /\ contents rb' = contents rb.
Proof.
  intros k n [W Sz] B Ho Hc Hm. pose proof B as (A & L & U). destruct (single_wf c o B ltac:(lia)) as [Wi Ri].
  unfold iovec_iterator_write_to_ringbuffer. rewrite (remaining_total_ok _ _ Wi) by lia.
  rewrite Ri, length_seqZ. replace (Z.min count (Z.of_nat (Z.to_nat (len c - o)))) with k by lia.
  change (length (iovec (single c o))) with 1%nat. cbn [write_ring_loop]. rewrite single_piece by (done || lia). cbn [mbind option_bind].
  replace (Z.min (len c - o) k) with k by lia.
  destruct (write_fault_ok m rb (addr c + o) k W) as (rb1 & E & W1 & C1); [lia|lia|lia|by rewrite Sz|].
  rewrite E. cbn [mbind option_bind]. rewrite Z.eqb_refl. cbn [mbind option_bind]. rewrite Z.eqb_refl.
  pose proof (write_keeps _ _ _ _ _ _ E) as Sz1. destruct (trim_ok rb1 0 W1 ltac:(lia)) as [_ T].
  unfold ringbuffer_remove in T |- *. cbn [fst] in T |- *. destruct T as (W2 & _ & C2).
  assert (St : exists r, iovec_iterator_set (single c o) o = Some (single c o, r)).
  { destruct (single_skip c 0 o B) as (r & Sk); [lia..|]. exists r. exact Sk. }
  change (total_offset (single c o)) with o. destruct St as (r & ->). cbn [mbind option_bind]. eexists. split; [done|]. split.
  - split; [done|]. cbn. congruence.
  - rewrite C2, take_ge; [done|]. lia.
Qed.

(** Delivering to a whole buffer takes the oldest bytes. *)
Lemma single_read m c rb :
  let n := Z.min (len c) (Z.of_nat (length (contents rb))) in
  ring_ok rb -> buffer_ok c -> mapped m (addr c) (Z.to_nat n) ->
  exists m' it' rb', iovec_iterator_read_from_ringbuffer m (single c 0) rb (len c) = Some (m', it', rb', n) /\
    ring_ok rb' /\ contents rb' = drop (Z.to_nat n) (contents rb) /\ holds m' (addr c) (take (Z.to_nat n) (contents rb)) /\
    (forall x, ~ (addr c <= x < addr c + n) -> m' !! x = m !! x).
Proof.
  intros n R B Hm. pose proof R as [W Sz]. pose proof B as (A & L & U). destruct (single_wf c 0 B ltac:(lia)) as [Wi Ri].
  destruct (ring_room rb R) as (Dc & Dr & Fs). unfold USERSPACE_END in U.
  unfold iovec_iterator_read_from_ringbuffer, iovec_iterator_peek_from_ringbuffer. rewrite (remaining_total_ok _ _ Wi) by lia.
  rewrite Ri, length_seqZ. replace (Z.min (len c) (Z.of_nat (Z.to_nat (len c - 0)))) with (len c) by lia.
  change (length (iovec (single c 0))) with 1%nat. cbn [peek_ring_loop]. rewrite single_piece by (done || lia). cbn [mbind option_bind].
  replace (Z.min (len c - 0) (len c)) with (len c) by lia. rewrite Z.add_0_r. change (u64 (0 + 0)) with 0.
  destruct (peek_ok m rb (addr c) 0 (len c) W) as (m' & E & Hh & Fr); [lia|lia|lia|lia|by replace (Z.max 0 (Z.min (len c) (Z.of_nat (length (contents rb)) - 0))) with n by lia|].
  replace (Z.max 0 (Z.min (len c) (Z.of_nat (length (contents rb)) - 0))) with n in E, Hh, Fr by lia.
  rewrite E. cbn [mbind option_bind]. pose proof (wf_size rb W). rewrite read_result_not_failed by lia.
  assert (T : ring_ok (ringbuffer_truncate rb n).1 /\ contents (ringbuffer_truncate rb n).1 = drop (Z.to_nat n) (contents rb)).
  { destruct (trim_ok rb n W ltac:(lia)) as [T _]. unfold ringbuffer_truncate in T |- *. cbn [fst] in T |- *. destruct T as (W2 & _ & ->).
    split; [by split|]. f_equal. lia. }
  assert (F : exists it', (if (n =? 0) || false then Some (m', single c 0, 0, n) else
      '(it, _) ← iovec_iterator_skip (single c 0) (len c);
      let total_done := u64 (0 + n) in
      if (total_done =? len c) || iovec_iterator_finished it then Some (m', it, total_done, n)
      else peek_ring_loop 1 m' it rb 0 (len c) total_done (u64 (len c - n))) = Some (m', it', n, n)).
  { rewrite orb_false_r. destruct (Z.eqb_spec n 0) as [->|Nz]; [eauto|]. destruct (single_skip c 0 (len c) B) as (r & ->); [lia..|].
    cbn [mbind option_bind]. rewrite (u64_z (0 + n)) by lia. unfold iovec_iterator_finished. cbn [single total_size total_offset].
    rewrite Z.add_0_l, Z.eqb_refl, orb_true_r. eauto. }
  destruct F as (it' & F). cbn zeta in F. cbn [peek_ring_loop] in F. rewrite F. cbn [mbind option_bind].
  rewrite read_result_not_failed by lia. cbn [mbind option_bind]. rewrite read_result_not_failed by lia.
  exists m', it'. eexists. split; [done|]. unfold slice in Hh. cbn in Hh. rewrite drop_0 in Hh. destruct T as [T1 T2]. done.
Qed.

(** ** Steps of the calls *)

Definition pipe_ok (p : pipenode_t) : Prop := ring_ok (pdata p) /\ 0 <= readers p /\ 0 <= writers p.

Definition queued (p : pipenode_t) : list Z := contents (pdata p).
Definition room (p : pipenode_t) : Z := BUFFER_SIZE - Z.of_nat (length (queued p)).

Lemma poll_out p :
  fst (internalpoll false POLLOUT p) =
    if readers p =? 0 then POLLERR else if RINGBUFFER_DATACOUNT (pdata p) <? BUFFER_SIZE - PIPE_ATOMIC_SIZE then POLLOUT else 0.
Proof. unfold internalpoll. cbn. destruct (readers p =? 0); [done|]. by destruct (_ <? _). Qed.

Lemma poll_out_data p :
  snd (internalpoll true POLLOUT p) =
    if (readers p =? 0) || (RINGBUFFER_DATACOUNT (pdata p) <? BUFFER_SIZE - PIPE_ATOMIC_SIZE) then None
    else Some (pollheader, Z.lor POLLOUT POLLERR).
Proof. unfold internalpoll. cbn. destruct (readers p =? 0); [done|]. by destruct (_ <? _). Qed.

Lemma poll_in p :
  fst (internalpoll false POLLIN p) =
    if writers p =? 0 then POLLHUP else if RINGBUFFER_DATACOUNT (pdata p) >? 0 then POLLIN else 0.
Proof. unfold internalpoll. cbn. destruct (writers p =? 0); [done|]. by destruct (_ >? _). Qed.

Lemma poll_in_data p :
  snd (internalpoll true POLLIN p) =
    if (writers p =? 0) || (RINGBUFFER_DATACOUNT (pdata p) >? 0) then None else Some (pollheader, Z.lor POLLIN POLLHUP).
Proof. unfold internalpoll. cbn. destruct (writers p =? 0); [done|]. by destruct (_ >? _). Qed.

(** [POLLOUT] never comes with [POLLHUP]. *)
Lemma poll_out_no_hup p : has (fst (internalpoll false POLLOUT p)) POLLHUP = false.
Proof. rewrite poll_out. destruct (readers p =? 0); [done|]. by destruct (_ <? _). Qed.

Lemma writetopipe_ok m c o size p bs :
  let k := Z.min size (len c - o) in
  let n := Z.min k (room p) in
  pipe_ok p -> buffer_ok c -> 0 <= o < len c -> 0 < size < 2 ^ 62 -> 0 < room p -> n = k \/ size = len c - o ->
  readers p <> 0 -> holds m (addr c + o) bs -> Z.of_nat (length bs) = k ->
  exists p', writetopipe m (single c o) size p = Some (0, n, single c (o + k), p', [Signal pollheader POLLIN]) /\
    pipe_ok p' /\ readers p' = readers p /\ writers p' = writers p /\ queued p' = queued p ++ take (Z.to_nat n) bs.
Proof.
  intros k n (R & Hr & Hw) B Ho Hs Rm Hk Nr Hh Hb. unfold writetopipe. apply Z.eqb_neq in Nr as ->.
  destruct (single_write m c o (pdata p) size bs R B Ho Hs) as (rb & E & R' & C'); try done; [unfold room, queued in *; lia|].
  rewrite E. cbn [mbind option_bind]. fold k. fold (queued p). fold (room p). fold n. destruct R as [W Sz]. pose proof (wf_size _ W).
  rewrite read_result_not_failed by (unfold room, queued in *; lia). destruct (n =? 0) eqn:N0; [unfold room, queued in *; lia|].
  cbn. exists (with_pdata rb p). split; [done|]. split; [by split|]. done.
Qed.

(** What one step of a write did: the bytes of the buffer it queued. *)
Definition step_written (o o' : Z) (out : outcome_t) : Z :=
  if negb (o' =? o) then o' - o else match out with Return error n => if error =? 0 then n else 0 | Sleep _ => 0 end.

(** The bytes of a call: one [write] of a whole buffer that is readable. *)
Record write_call (m : mem) (c : iovec_t) (flags o : Z) (bs : list Z) : Prop := {
  wc_buffer : buffer_ok c;
  wc_bytes : holds m (addr c) bs;
  wc_length : Z.of_nat (length bs) = len c;
  wc_done : 0 <= o < len c;
  wc_part : o = 0 \/ has flags V_FFLAGS_NONBLOCKING = false /\ PIPE_ATOMIC_SIZE < len c
}.

(** A step of a write queues a piece of the buffer, right behind what it queued
    before, or leaves the pipe alone; a small write is all or nothing. *)
Record write_step (c : iovec_t) (o : Z) (bs : list Z) (p : pipenode_t)
    (r : outcome_t * Z * iovec_iterator_t * pipenode_t * list effect_t) : Prop := {
  ws_ok : pipe_ok r.1.2;
  ws_ends : readers r.1.2 = readers p /\ writers r.1.2 = writers p;
  ws_range : 0 <= step_written o r.1.1.1.2 r.1.1.1.1 <= len c - o;
  ws_queued : queued r.1.2 = queued p ++ take (Z.to_nat (step_written o r.1.1.1.2 r.1.1.1.1)) (drop (Z.to_nat o) bs);
  ws_sleep : forall reg, r.1.1.1.1 = Sleep reg ->
    r.1.1.1.2 = o + step_written o r.1.1.1.2 r.1.1.1.1 /\ r.1.1.2 = single c r.1.1.1.2 /\ r.1.1.1.2 < len c /\
    (reg = None -> readers p = 0);
  ws_atomic : len c <= PIPE_ATOMIC_SIZE -> step_written o r.1.1.1.2 r.1.1.1.1 = 0 \/ step_written o r.1.1.1.2 r.1.1.1.1 = len c
}.

Lemma step_same c o bs p out :
  pipe_ok p -> 0 <= o < len c -> step_written o o out = 0 -> (forall reg, out = Sleep reg -> reg = None -> readers p = 0) ->
  write_step c o bs p (out, o, single c o, p, []).
Proof.
  intros P Ho Hs Hr. split; cbn [fst snd]; rewrite ?Hs; try done; try lia.
  - by rewrite app_nil_r.
  - intros reg E. split; [lia|]. split; [done|]. split; [lia|]. eauto.
Qed.

Lemma step_broken m c o flags p bs o' :
  pipe_ok p -> write_call m c flags o bs -> o' = o ->
  write_step c o bs p (Return EPIPE 0, o', single c o, p, [Sigpipe]).
Proof.
  intros P [B Hh Hl Ho Hp] ->. assert (W : step_written o o (Return EPIPE 0) = 0) by (unfold step_written; by rewrite Z.eqb_refl).
  split; cbn [fst snd]; rewrite ?W; try done; try lia.
  by rewrite app_nil_r.
Qed.

(** The transfer after the loop. *)
Lemma step_last m c o flags p bs :
  pipe_ok p -> write_call m c flags o bs -> o = 0 -> 0 < room p -> (len c <= PIPE_ATOMIC_SIZE -> len c <= room p) ->
  exists r, write_last m (single c o) (len c) o p = Some r /\ write_step c o bs p r.
Proof.
  intros P C -> Rm Fit. pose proof C as [B Hh Hl Ho Hp]. pose proof B as (A & L & U). unfold write_last.
  destruct (decide (readers p = 0)) as [R0|R0].
  { unfold writetopipe. rewrite R0. cbn. eexists. split; [done|]. by apply (step_broken m _ _ flags). }
  destruct (writetopipe_ok m c 0 (len c) p bs) as (p' & E & P' & E1 & E2 & Q); try done; try lia; [by rewrite Z.add_0_r|].
  rewrite E. cbn [mbind option_bind]. eexists. split; [done|].
  assert (W : step_written 0 0 (Return 0 (Z.min (Z.min (len c) (len c - 0)) (room p))) = Z.min (len c) (room p))
    by (unfold step_written; cbn; lia).
  split; cbn [fst snd]; rewrite ?W; try done; try lia.
  rewrite Q, drop_0. do 2 f_equal. lia.
Qed.

(** A piece of a large blocking write. *)
Lemma step_case3 dok m c o flags p bs :
  pipe_ok p -> write_call m c flags o bs -> 0 < room p -> PIPE_ATOMIC_SIZE < len c ->
  exists r, ('(error, tmp, it', p', es) ← writetopipe m (single c o) (cmin (room p) (u64 (len c - o))) p;
     if negb (error =? 0) then Some (Return error 0, o, it', p', es)
     else
       let case3written := u64 (o + cmin (room p) (u64 (len c - o))) in
       passert (tmp =? cmin (room p) (u64 (len c - o)));;
       if case3written =? len c then Some (Return 0 (len c), case3written, it', p', es)
       else Some (write_wait dok p', case3written, it', p', es)) = Some r /\ write_step c o bs p r.
Proof.
  intros P C Rm Big. pose proof C as [B Hh Hl Ho Hp]. pose proof B as (A & L & U). pose proof P as (R & _).
  destruct (ring_room _ R) as (Dc & Dr & Fs). fold (queued p) in Dc. assert (Rb : room p <= BUFFER_SIZE) by (unfold room; lia).
  unfold BUFFER_SIZE, PAGE_SIZE in Rb. rewrite (u64_z (len c - o)), cmin_z by lia. set (k := Z.min (room p) (len c - o)).
  destruct (decide (readers p = 0)) as [R0|R0].
  { unfold writetopipe. rewrite R0. cbn. eexists. split; [done|]. by apply (step_broken m _ _ flags). }
  destruct (writetopipe_ok m c o k p (take (Z.to_nat k) (drop (Z.to_nat o) bs))) as (p' & E & P' & E1 & E2 & Q); try done; try lia.
  { apply holds_take. replace (addr c + o) with (addr c + Z.of_nat (Z.to_nat o)) by lia. by apply holds_drop. }
  { rewrite length_take, length_drop. lia. }
  rewrite E. cbn [mbind option_bind Z.eqb negb]. replace (Z.min k (len c - o)) with k in Q |- * by lia.
  replace (Z.min k (room p)) with k in Q |- * by lia. unfold passert. rewrite Z.eqb_refl. cbn [mbind option_bind].
  rewrite (u64_z (o + k)) by lia. rewrite take_take, Nat.min_id in Q.
  assert (W : forall out, step_written o (o + k) out = k).
  { intros out. unfold step_written. destruct (o + k =? o) eqn:X; [lia|]. cbn. lia. }
  destruct (o + k =? len c) eqn:F; (eexists; split; [done|]); split; cbn [fst snd]; rewrite ?W; try done; try lia.
  intros reg Eq. split; [done|]. split; [done|]. split; [lia|]. intros ->. unfold write_wait in Eq. destruct dok; cbn in Eq; [|done].
  rewrite poll_out_data in Eq. destruct ((readers p' =? 0) || _) eqn:X; [|done].
  assert (Rf : room p' = 0) by (unfold room in *; rewrite Q, length_app, length_take, length_drop; lia).
  destruct P' as (R' & _). destruct (ring_room _ R') as (Dc' & Dr' & _). fold (queued p') in Dc'. unfold room in Rf.
  rewrite Dc' in X. unfold BUFFER_SIZE, PAGE_SIZE, PIPE_ATOMIC_SIZE in *. lia.
Qed.

Lemma write_step_ok dok m c o flags p bs :
  pipe_ok p -> write_call m c flags o bs ->
  exists r, pipefs_write dok m (single c o) (len c) flags o p = Some r /\ write_step c o bs p r.
Proof.
  intros P C. pose proof C as [B Hh Hl Ho Hp]. pose proof P as (R & _). pose proof B as (A & L & U).
  destruct (ring_room _ R) as (Dc & Dr & Fs). fold (queued p) in Dc, Fs. fold (room p) in Fs.
  unfold pipefs_write. destruct (internalpoll false POLLOUT p) as [rv x] eqn:Ip.
  pose proof (poll_out_no_hup p) as Nh. rewrite Ip in Nh. cbn [fst] in Nh. rewrite Nh, Fs.
  assert (Z0 : forall e, step_written o o (Return e 0) = 0) by (intros e; unfold step_written; rewrite Z.eqb_refl; cbn; by destruct (e =? 0)).
  assert (Wait : RINGBUFFER_DATACOUNT (pdata p) >= BUFFER_SIZE - PIPE_ATOMIC_SIZE ->
    write_step c o bs p (write_wait dok p, o, single c o, p, [])).
  { intros Full. apply step_same; [done|lia| |].
    - unfold write_wait. destruct dok; cbn; [|apply Z0]. unfold step_written. by rewrite Z.eqb_refl.
    - unfold write_wait. destruct dok; cbn; [|done]. rewrite poll_out_data. intros reg E ->.
      destruct ((readers p =? 0) || _) eqn:X; [lia|done]. }
  assert (Again : write_step c o bs p (Return EAGAIN 0, o, single c o, p, [])) by (by apply step_same; [| |apply Z0|]).
  unfold room in *. unfold BUFFER_SIZE, PAGE_SIZE, PIPE_ATOMIC_SIZE in *.
  destruct (has flags V_FFLAGS_NONBLOCKING) eqn:Nb, (len c <=? 4096) eqn:At; cbn [negb andb].
  - assert (o = 0) by (by destruct Hp as [|[? ?]]).
    destruct (_ <? len c) eqn:X; [eauto|]. apply (step_last m c o flags); try done; unfold room; unfold BUFFER_SIZE, PAGE_SIZE, PIPE_ATOMIC_SIZE; lia.
  - assert (o = 0) by (by destruct Hp as [|[? ?]]).
    destruct (_ =? 0) eqn:X; cbn [negb]; [eauto|]. apply (step_last m c o flags); try done; unfold room; unfold BUFFER_SIZE, PAGE_SIZE, PIPE_ATOMIC_SIZE; lia.
  - assert (o = 0) by (destruct Hp as [|[? ?]]; lia).
    destruct (_ >=? len c) eqn:X; [|eexists; split; [done|apply Wait; lia]].
    apply (step_last m c o flags); try done; unfold room; unfold BUFFER_SIZE, PAGE_SIZE, PIPE_ATOMIC_SIZE; lia.
  - destruct (_ =? 0) eqn:X; cbn [negb]; [eexists; split; [done|apply Wait; lia]|].
    apply (step_case3 dok m c o flags p bs); try done; unfold room; unfold BUFFER_SIZE, PAGE_SIZE, PIPE_ATOMIC_SIZE; lia.
Qed.

(** A step of a read takes the oldest bytes, reports the end of the stream when
    nobody can write any more, or waits for data. *)
Lemma read_step_ok dok m c flags p :
  let n := Z.min (len c) (Z.of_nat (length (queued p))) in
  pipe_ok p -> buffer_ok c -> mapped m (addr c) (Z.to_nat n) ->
  exists out m' it' p' es, pipefs_read dok m (single c 0) (len c) flags p = Some (out, m', it', p', es) /\
    pipe_ok p' /\ readers p' = readers p /\ writers p' = writers p /\
    ((out = Return 0 n /\ queued p' = drop (Z.to_nat n) (queued p) /\ holds m' (addr c) (take (Z.to_nat n) (queued p)) /\
        (n = 0 -> writers p = 0)) \/
     (queued p = [] /\ writers p <> 0 /\ p' = p /\ m' = m /\
        (out = Return EAGAIN 0 \/ out = Return ENOMEM 0 \/ out = Sleep (Some (pollheader, Z.lor POLLIN POLLHUP))))).
Proof.
  intros n P B Hm. pose proof P as (R & Hr & Hw). destruct (ring_room _ R) as (Dc & Dr & _). fold (queued p) in Dc. pose proof B as (A & L & U).
  unfold pipefs_read. destruct (internalpoll false POLLIN p) as [rv x] eqn:Ip. pose proof (poll_in p) as Rv. rewrite Ip in Rv. cbn [fst] in Rv.
  destruct (negb (rv =? 0)) eqn:Nz.
  - destruct (single_read m c (pdata p) R B Hm) as (m' & it' & rb & E & R' & C' & Hh & Fr). rewrite E. cbn [mbind option_bind].
    destruct R as [W Sz]. pose proof (wf_size _ W). rewrite read_result_not_failed by lia.
    eexists _, _, _, _, _. split; [done|]. split; [by split|]. split; [done|]. split; [done|]. left. split; [done|]. split; [done|].
    split; [done|]. intros N0. destruct (Z.eqb_spec (writers p) 0) as [|Nw]; [done|]. destruct (_ >? 0) eqn:X; [lia|]. by subst rv.
  - destruct (Z.eqb_spec (writers p) 0) as [|Nw]; [by subst rv|]. destruct (_ >? 0) eqn:X; [by subst rv|].
    assert (Q : queued p = []) by (apply length_zero_iff_nil; lia).
    assert (PD : snd (internalpoll true POLLIN p) = Some (pollheader, Z.lor POLLIN POLLHUP)).
    { rewrite poll_in_data. apply Z.eqb_neq in Nw as ->. by rewrite X. }
    destruct (has flags V_FFLAGS_NONBLOCKING), dok; cbn [negb]; eexists _, _, _, _, _; (split; [done|]); (split; [done|]);
      (split; [done|]); (split; [done|]); right; rewrite ?PD; auto 10.
Qed.

(** ** Runs *)

(** The steps of the calls of any number of threads; a write names the buffer
    of its call and how much of it earlier steps have queued. *)
Inductive op_t :=
  | OOpen (flags : Z)
  | OResume (flags error : Z)
  | OClose (flags : Z)
  | ORead (desc_ok : bool) (m : mem) (c : iovec_t) (flags : Z)
  | OWrite (desc_ok : bool) (m : mem) (c : iovec_t) (o flags : Z).

(** A pipe, the bytes writers gave it and the bytes readers got, in order. *)
Record stream_t := mk_stream { pipe : pipenode_t; accepted : list Z; delivered : list Z }.

Definition buffer_okb (c : iovec_t) : bool :=
  (0 <=? addr c) && (0 <? len c) && (len c <? 2 ^ 62) && (addr c + len c <=? USERSPACE_END).

Definition legal (s : stream_t) (op : op_t) : bool :=
  match op with
  | OOpen _ | OResume _ _ | OClose _ => true
  | ORead _ m c _ => buffer_okb c && mappedb m (addr c) (Z.to_nat (len c))
  | OWrite _ m c o flags =>
      buffer_okb c && mappedb m (addr c) (Z.to_nat (len c)) && (0 <=? o) && (o <? len c) &&
      ((o =? 0) || negb (has flags V_FFLAGS_NONBLOCKING) && (PIPE_ATOMIC_SIZE <? len c))
  end.

(** The bytes a transfer moved are those in the caller's memory. *)
Definition exec (s : stream_t) (op : op_t) : option stream_t :=
  match op with
  | OOpen flags => let '(_, p, _) := pipefs_open flags (pipe s) in Some (mk_stream p (accepted s) (delivered s))
  | OResume flags error => let '(_, p, _) := pipefs_open_resume flags error (pipe s) in Some (mk_stream p (accepted s) (delivered s))
  | OClose flags => let '(p, _) := pipefs_close flags (pipe s) in Some (mk_stream p (accepted s) (delivered s))
  | ORead dok m c flags =>
      '(out, m', _, p, _) ← pipefs_read dok m (single c 0) (len c) flags (pipe s);
      bs ← (match out with
            | Return error n => if error =? 0 then bytes_at m' (seqZ (addr c) n) else Some []
            | Sleep _ => Some []
            end);
      Some (mk_stream p (accepted s) (delivered s ++ bs))
  | OWrite dok m c o flags =>
      '(out, o', _, p, _) ← pipefs_write dok m (single c o) (len c) flags o (pipe s);
      bs ← bytes_at m (seqZ (addr c + o) (step_written o o' out));
      Some (mk_stream p (accepted s ++ bs) (delivered s))
  end.

Fixpoint run (s : stream_t) (ops : list op_t) : option stream_t :=
  match ops with [] => Some s | op :: ops' => s' ← exec s op; run s' ops' end.

Fixpoint legal_run (s : stream_t) (ops : list op_t) : bool :=
  match ops with
  | [] => true
  | op :: ops' => legal s op && match exec s op with Some s' => legal_run s' ops' | None => true end
  end.

Definition stream_ok (s : stream_t) : Prop := pipe_ok (pipe s) /\ accepted s = delivered s ++ queued (pipe s).

Lemma buffer_okb_true c : buffer_okb c = true -> buffer_ok c.
Proof. unfold buffer_okb, buffer_ok. lia. Qed.

Lemma holds_bytes_at m a bs : holds m a bs -> bytes_at m (seqZ a (Z.of_nat (length bs))) = Some bs.
Proof.
  revert a. induction bs as [|b bs IH]; intros a H; [done|]. apply holds_cons in H as [Hb H]. unfold bytes_at in *.
  cbn [length]. rewrite seqZ_S. cbn [mapM]. rewrite Hb. cbn [mbind option_bind]. by rewrite (IH _ H).
Qed.

Lemma mapped_holds m a n : mapped m a n -> exists bs, length bs = n /\ holds m a bs.
Proof.
  revert a. induction n as [|n IH]; intros a H; [exists []; split; [done|]; intros i b Hi; by rewrite lookup_nil in Hi|].
  apply mapped_S in H as [[b Hb] H]. destruct (IH _ H) as (bs & L & Hh). exists (b :: bs). split; [cbn; congruence|].
  by apply holds_cons.
Qed.

Lemma ends_ok r w p : pipe_ok p -> 0 <= r -> 0 <= w -> pipe_ok (mk_pipe (attr p) (pdata p) r w).
Proof. intros (R & _) Hr Hw. by split. Qed.

Lemma close_ok flags p : pipe_ok p -> pipe_ok (pipefs_close flags p).1 /\ pdata (pipefs_close flags p).1 = pdata p.
Proof.
  intros P. split; [|done]. apply ends_ok; [done|case_match; [apply u64_range|apply P]..].
Qed.

Lemma open_leave_ok flags error p :
  pipe_ok p -> pipe_ok (open_leave flags error p).1.2 /\ pdata (open_leave flags error p).1.2 = pdata p.
Proof.
  intros P. unfold open_leave. destruct (negb (error =? 0)); [|done]. pose proof (close_ok flags p P).
  by destruct (pipefs_close flags p).
Qed.

Lemma open_ok flags p : pipe_ok p -> pipe_ok (pipefs_open flags p).1.2 /\ pdata (pipefs_open flags p).1.2 = pdata p.
Proof.
  intros P. unfold pipefs_open. destruct (negb _); [done|].
  set (p1 := mk_pipe _ _ _ _).
  assert (P1 : pipe_ok p1) by (apply ends_ok; [done|case_match; [apply u64_range|apply P]..]).
  do 3 (match goal with |- context [if ?b then open_leave _ _ _ else _] => destruct b; [by apply (open_leave_ok flags _ p1)|] end). done.
Qed.

Lemma stream_exec_ok s op : stream_ok s -> legal s op = true -> exists s', exec s op = Some s' /\ stream_ok s'.
Proof.
  intros [P Q] L. destruct op as [flags|flags error|flags|dok m c flags|dok m c o flags]; cbn [legal exec] in L |- *.
  - pose proof (open_ok flags _ P) as [P' D]. destruct (pipefs_open flags (pipe s)) as [[out p] es]. eexists. split; [done|].
    split; [done|]. unfold queued. cbn in D |- *. by rewrite D.
  - pose proof (open_leave_ok flags error _ P) as [P' D]. unfold pipefs_open_resume. destruct (open_leave flags error (pipe s)) as [[out p] es].
    eexists. split; [done|]. split; [done|]. unfold queued. cbn in D |- *. by rewrite D.
  - pose proof (close_ok flags _ P) as [P' D]. destruct (pipefs_close flags (pipe s)) as [p es]. eexists. split; [done|].
    split; [done|]. unfold queued. cbn in D |- *. by rewrite D.
  - apply andb_prop in L as [B%buffer_okb_true M%mappedb_mapped].
    destruct (read_step_ok dok m c flags (pipe s) P B) as (out & m' & it' & p' & es & E & P' & _ & _ & C).
    { intros i Hi. apply M. lia. }
    rewrite E. cbn [mbind option_bind]. destruct C as [(-> & Qp & Hh & _)|(Q0 & _ & -> & -> & C)].
    + cbn [Z.eqb]. set (n := Z.min _ _) in *. apply holds_bytes_at in Hh as Hb. rewrite length_take in Hb.
      replace (Z.of_nat (Z.to_nat n `min` length (queued (pipe s)))) with n in Hb by (destruct B as (_ & ? & _); lia). rewrite Hb.
      eexists. split; [done|]. split; [done|]. cbn [accepted delivered pipe]. rewrite Qp, <- app_assoc, take_drop. done.
    + assert (Eb : (match out with Return error n => if error =? 0 then bytes_at m (seqZ (addr c) n) else Some [] | Sleep _ => Some [] end) = Some []).
      { destruct C as [->|[->| ->]]; done. }
      rewrite Eb. eexists. split; [done|]. split; [done|]. cbn [accepted delivered pipe]. by rewrite app_nil_r.
  - apply andb_prop in L as [[[[B%buffer_okb_true M%mappedb_mapped]%andb_prop O1]%andb_prop O2]%andb_prop Pt].
    destruct (mapped_holds _ _ _ M) as (bs & Lb & Hh). pose proof B as (_ & LB & _).
    destruct (write_step_ok dok m c o flags (pipe s) bs P) as (r & E & [W1 W2 W3 W4 W5 W6]).
    { split; [done|done|lia|lia|]. destruct (has flags _); cbn in Pt; [left; lia|]. destruct (Z.eqb_spec o 0); [by left|right; lia]. }
    rewrite E. destruct r as [[[[out o'] it'] p'] es]. cbn [fst snd mbind option_bind] in *. set (w := step_written o o' out) in *.
    assert (Hb : bytes_at m (seqZ (addr c + o) w) = Some (take (Z.to_nat w) (drop (Z.to_nat o) bs))).
    { assert (Hd : holds m (addr c + o) (take (Z.to_nat w) (drop (Z.to_nat o) bs))).
      { apply holds_take. replace (addr c + o) with (addr c + Z.of_nat (Z.to_nat o)) by lia. by apply holds_drop. }
      apply holds_bytes_at in Hd. rewrite length_take, length_drop in Hd.
      by replace (Z.of_nat (Z.to_nat w `min` (length bs - Z.to_nat o))) with w in Hd by lia. }
    rewrite Hb. eexists. split; [done|]. split; [done|]. cbn [accepted delivered pipe]. by rewrite W4, Q, app_assoc.
Qed.

Lemma stream_run_ok s ops : stream_ok s -> legal_run s ops = true -> exists s', run s ops = Some s' /\ stream_ok s'.
Proof.
  revert s. induction ops as [|op ops IH]; intros s Ok L; [by exists s|]. apply andb_prop in L as [L1 L2].
  destruct (stream_exec_ok s op Ok L1) as (s1 & E & Ok1). cbn [run]. rewrite E in L2 |- *. by apply IH.
Qed.

(** ** Claims *)

(** What a kernel mapping of [sz] bytes gives. *)
Definition kernel_mapping (vmm_map : Z -> option (Z * list Z)) : Prop :=
  forall sz a d, vmm_map sz = Some (a, d) -> USERSPACE_END <= a /\ a + sz < 2 ^ 64 /\ Z.of_nat (length d) = sz.

Lemma newpipe_ok allocated vmm_map inode p :
  kernel_mapping vmm_map -> pipefs_newpipe allocated vmm_map inode = inr p -> stream_ok (mk_stream p [] []).
Proof.
  intros K E. unfold pipefs_newpipe in E. destruct allocated; [|done]. cbn [negb] in E. unfold ringbuffer_init in E.
  change (ROUND_UP BUFFER_SIZE PAGE_SIZE) with BUFFER_SIZE in E. destruct (vmm_map BUFFER_SIZE) as [[a d]|] eqn:M; [|done].
  injection E as <-. destruct (K _ _ _ M) as (Ka & Kb & Kd). unfold BUFFER_SIZE, PAGE_SIZE in *.
  split; [|done]. split; [|done]. split; [|done]. split; cbn [size write read base data ctor pdata pipe]; unfold is_u64; try lia.
  - vm_compute. discriminate.
  - cbn. lia.
Qed.

(** C20. A pipe is a stream: whatever readers, writers, openers and closers do and
    however their steps interleave, every step completes, and the bytes the
    readers got followed by the bytes still queued are the bytes the writers
    gave, in order, none lost, repeated or invented. *)
Theorem pipe_stream_fifo allocated vmm_map inode p ops :
  kernel_mapping vmm_map -> pipefs_newpipe allocated vmm_map inode = inr p ->
  legal_run (mk_stream p [] []) ops = true ->
  exists s, run (mk_stream p [] []) ops = Some s /\ accepted s = delivered s ++ queued (pipe s).
Proof.
  intros K E L. destruct (stream_run_ok _ ops (newpipe_ok _ _ _ _ K E) L) as (s & R & _ & Q). eauto.
Qed.

(** C21. A write of at most [PIPE_ATOMIC_SIZE] bytes is atomic, in one step.  With
    room for all of it the whole buffer is queued in one piece and the readers are
    signalled, or, without readers, nothing is queued and it fails with [EPIPE]
    and the signal.  Without room nothing is queued: it fails with [EAGAIN] or,
    when no descriptor can be made, with [ENOMEM], or sleeps.  The sleeper is
    registered for the events that make room if there are readers; if there are
    none it is registered for nothing, and no event will wake it. *)
Theorem pipe_write_atomic desc_ok m c flags p bs :
  pipe_ok p -> buffer_ok c -> holds m (addr c) bs -> Z.of_nat (length bs) = len c -> len c <= PIPE_ATOMIC_SIZE ->
  if len c <=? room p then
    if readers p =? 0
    then pipefs_write desc_ok m (single c 0) (len c) flags 0 p = Some (Return EPIPE 0, 0, single c 0, p, [Sigpipe])
    else exists p', pipefs_write desc_ok m (single c 0) (len c) flags 0 p =
           Some (Return 0 (len c), 0, single c (len c), p', [Signal pollheader POLLIN]) /\ queued p' = queued p ++ bs
  else pipefs_write desc_ok m (single c 0) (len c) flags 0 p =
         Some (if has flags V_FFLAGS_NONBLOCKING then Return EAGAIN 0
               else if negb desc_ok then Return ENOMEM 0
               else Sleep (if readers p =? 0 then None else Some (pollheader, Z.lor POLLOUT POLLERR)), 0, single c 0, p, []).
Proof.
  intros P B Hh Hl At. pose proof P as (R & _). destruct (ring_room _ R) as (Dc & Dr & Fs). fold (queued p) in Dc, Fs. fold (room p) in Fs.
  pose proof B as (_ & L & _). unfold pipefs_write. apply Z.leb_le in At as At'. rewrite At'.
  destruct (internalpoll false POLLOUT p) as [rv x] eqn:Ip. pose proof (poll_out_no_hup p) as Nh. rewrite Ip in Nh. cbn [fst] in Nh.
  rewrite Nh, Fs. destruct (len c <=? room p) eqn:Fit.
  - destruct (Z.eqb_spec (readers p) 0) as [R0|Nr].
    { unfold write_last, writetopipe. rewrite R0, Z.geb_leb, Fit. destruct (room p <? len c) eqn:X; [lia|]. by destruct (has flags _). }
    destruct (writetopipe_ok m c 0 (len c) p bs) as (p' & E & P' & _ & _ & Q); try done; try lia; [by rewrite Z.add_0_r|].
    exists p'. replace (Z.min (Z.min (len c) (len c - 0)) (room p)) with (len c) in E, Q by lia.
    replace (0 + Z.min (len c) (len c - 0)) with (len c) in E by lia. rewrite take_ge in Q by lia. split; [|done].
    unfold write_last. rewrite E. cbn [mbind option_bind]. rewrite Z.geb_leb, Fit.
    destruct (room p <? len c) eqn:X; [lia|]. by destruct (has flags _).
  - rewrite Z.geb_leb, Fit. destruct (room p <? len c) eqn:X; [|lia].
    destruct (has flags _); cbn [negb andb]; [done|]. unfold write_wait. destruct desc_ok; cbn [negb]; [|done].
    rewrite poll_out_data. destruct (readers p =? 0); [done|].
    destruct (RINGBUFFER_DATACOUNT (pdata p) <? _) eqn:Y; [|done]. unfold room, BUFFER_SIZE, PAGE_SIZE, PIPE_ATOMIC_SIZE in *. lia.
Qed.

(** A blocking write to a full pipe that has lost its readers does not fail
    with [EPIPE]: it sleeps, and is registered with no header, so no event can
    wake it. *)
Theorem pipe_broken_writer_sleeps m c flags p :
  pipe_ok p -> buffer_ok c -> readers p = 0 -> room p = 0 -> has flags V_FFLAGS_NONBLOCKING = false ->
  pipefs_write true m (single c 0) (len c) flags 0 p = Some (Sleep None, 0, single c 0, p, []).
Proof.
  intros P B R0 Rm Nb. pose proof P as (R & _). destruct (ring_room _ R) as (Dc & Dr & Fs). fold (queued p) in Dc, Fs. fold (room p) in Fs.
  pose proof B as (_ & L & _). unfold pipefs_write. destruct (internalpoll false POLLOUT p) as [rv x] eqn:Ip.
  pose proof (poll_out_no_hup p) as Nh. rewrite Ip in Nh. cbn [fst] in Nh. rewrite Nh, Fs, Nb, Rm. cbn [negb andb].
  destruct (len c <=? PIPE_ATOMIC_SIZE); cbn [negb andb Z.eqb].
  - destruct (0 >=? len c) eqn:X; [lia|]. unfold write_wait. cbn [negb]. rewrite poll_out_data, R0. done.
  - unfold write_wait. cbn [negb]. rewrite poll_out_data, R0. done.
Qed.

(** Mappings at one kernel address. *)
Definition sample_map (sz : Z) : option (Z * list Z) :=
  if (0 <=? sz) && (sz <? 2 ^ 46) then Some (0xffff900000000000, replicate (Z.to_nat sz) 0) else None.

Lemma sample_map_kernel : kernel_mapping sample_map.
Proof.
  intros sz a d. unfold sample_map, USERSPACE_END. destruct (_ && _) eqn:E; [|done]. intros [= <- <-]. rewrite length_replicate. lia.
Qed.

Definition sample_memory : mem := list_to_map (zip (seqZ 0x1000 8) [1; 2; 3; 4; 5; 6; 7; 8]).

Definition sample_ops : list op_t :=
  [OOpen V_FFLAGS_READ; OOpen V_FFLAGS_WRITE; OWrite true sample_memory (mk_iovec 0x1000 5) 0 0;
   ORead true sample_memory (mk_iovec 0x1002 3) 0; OWrite true sample_memory (mk_iovec 0x1006 2) 0 0;
   OClose V_FFLAGS_WRITE; ORead true sample_memory (mk_iovec 0x1000 8) 0].

Definition new_pipe : pipenode_t :=
  match pipefs_newpipe true sample_map 1 with inr p => p | inl _ => ctor 0 (mk_ringbuffer 0 0 0 0 []) end.

Lemma pipe_stream_fifo_witness :
  exists s, run (mk_stream new_pipe [] []) sample_ops = Some s /\ accepted s = delivered s ++ queued (pipe s).
Proof.
  apply (pipe_stream_fifo true sample_map 1); [exact sample_map_kernel|reflexivity|]. vm_compute. reflexivity.
Defined.

(** A full pipe: the queue holds zeros. *)
Definition full_pipe (r : Z) : pipenode_t :=
  mk_pipe zero_attr (mk_ringbuffer BUFFER_SIZE BUFFER_SIZE 0 0xffff900000000000 (replicate (Z.to_nat BUFFER_SIZE) 0)) r 1.

Lemma full_pipe_ok r : 0 <= r -> pipe_ok (full_pipe r).
Proof.
  intros Hr. split; [|done]. split; [|done].
  split; cbn [full_pipe pdata size write read base data]; unfold is_u64, USERSPACE_END, BUFFER_SIZE, PAGE_SIZE; try lia.
  - vm_compute. discriminate.
  - cbn [RingBuffer.data]. rewrite length_replicate. lia.
Qed.

Lemma full_pipe_room r : room (full_pipe r) = 0.
Proof. unfold room, queued. rewrite length_contents. reflexivity. Qed.

Lemma sample_buffer_ok : buffer_ok (mk_iovec 0x1000 5).
Proof. unfold buffer_ok, USERSPACE_END. cbn. lia. Qed.

Lemma pipe_write_atomic_witness :
  pipefs_write true sample_memory (single (mk_iovec 0x1000 5) 0) 5 0 0 (full_pipe 1) =
    Some (Sleep (Some (pollheader, Z.lor POLLOUT POLLERR)), 0, single (mk_iovec 0x1000 5) 0, full_pipe 1, []).
Proof.
  pose proof (pipe_write_atomic true sample_memory (mk_iovec 0x1000 5) 0 (full_pipe 1) [1; 2; 3; 4; 5]
    (full_pipe_ok 1 ltac:(lia)) sample_buffer_ok ltac:(apply holdsb_holds; vm_compute; reflexivity) eq_refl ltac:(vm_compute; discriminate)) as H.
  rewrite full_pipe_room in H. exact H.
Defined.

Lemma pipe_broken_writer_sleeps_witness :
  pipefs_write true sample_memory (single (mk_iovec 0x1000 5) 0) 5 0 0 (full_pipe 0) =
    Some (Sleep None, 0, single (mk_iovec 0x1000 5) 0, full_pipe 0, []).
Proof.
  exact (pipe_broken_writer_sleeps sample_memory (mk_iovec 0x1000 5) 0 (full_pipe 0)
    (full_pipe_ok 0 ltac:(lia)) sample_buffer_ok eq_refl (full_pipe_room 0) eq_refl).
Defined.
