(* ===== verification/Net.v ===== *)
(** * The network stack up to IPv4 ([io/net/eth.c], [io/net/arp.c],
      [io/net/ipv4.c], [io/net/loopback.c], [include/kernel/net.h],
      [include/kernel/eth.h])

    Packets are lists of bytes; a packed structure is a record of the values
    its fields hold in memory, with its bytes in order.  Reading a field past
    the end of a packet is [None].  The driver of a device is a type class: the
    descriptors it hands out and what it does with a packet. *)

From S2P Require Import Prelude Errno Vnode.

(** ** Bytes and words *)

Definition bswap16 (w : Z) : Z := (w mod 256) * 256 + (w / 256) mod 256.
Definition bswap32 (d : Z) : Z :=
  (d mod 256) * 2 ^ 24 + ((d / 2 ^ 8) mod 256) * 2 ^ 16 + ((d / 2 ^ 16) mod 256) * 2 ^ 8 + (d / 2 ^ 24) mod 256.

Definition cpu_to_be_w (w : Z) : Z := bswap16 (w mod 2 ^ 16).
Definition be_to_cpu_w (w : Z) : Z := bswap16 (w mod 2 ^ 16).
Definition cpu_to_be_d (d : Z) : Z := bswap32 (d mod 2 ^ 32).
Definition be_to_cpu_d (d : Z) : Z := bswap32 (d mod 2 ^ 32).

(** The bytes of a word in memory, and back. *)
Definition bytes16 (w : Z) : list Z := [w mod 256; (w / 256) mod 256].
Definition bytes32 (d : Z) : list Z := [d mod 256; (d / 2 ^ 8) mod 256; (d / 2 ^ 16) mod 256; (d / 2 ^ 24) mod 256].
Definition word16 (a b : Z) : Z := a + 256 * b.
Definition word32 (a b c d : Z) : Z := a + 2 ^ 8 * b + 2 ^ 16 * c + 2 ^ 24 * d.

Definition is_byte (b : Z) : Prop := 0 <= b < 256.

(** ** Frames *)

Definition mac_t : Type := list Z.
Definition NET_BROADCAST_MAC : mac_t := [0xff; 0xff; 0xff; 0xff; 0xff; 0xff].
Definition MAC_EQUAL (a b : mac_t) : bool := bool_decide (a = b).

Definition ETH_PROTO_IP : Z := 0x0800.
Definition ETH_PROTO_ARP : Z := 0x0806.
Definition IPV4_PROTO_TCP : Z := 0x06.
Definition IPV4_PROTO_UDP : Z := 0x11.
Definition IPV4_BROADCAST_ADDRESS : Z := 0xffffffff.

Record ethframe_t := mk_eth { destination : mac_t; source : mac_t; etype : Z }.

Definition ethframe_bytes (f : ethframe_t) : list Z := destination f ++ source f ++ bytes16 (etype f).

(** The frame at the start of a buffer and what follows it. *)
Definition ethframe_of (bs : list Z) : option (ethframe_t * list Z) :=
  match bs with
  | d0 :: d1 :: d2 :: d3 :: d4 :: d5 :: s0 :: s1 :: s2 :: s3 :: s4 :: s5 :: t0 :: t1 :: r =>
      Some (mk_eth [d0; d1; d2; d3; d4; d5] [s0; s1; s2; s3; s4; s5] (word16 t0 t1), r)
  | _ => None
  end.

Record ipv4frame_t := mk_ipv4 {
  version_length : Z;
  servicetype_ecn : Z;
  packetlen : Z;
  id : Z;
  flags_fragoffset : Z;
  timetolive : Z;
  protocol : Z;
  framechecksum : Z;
  srcaddr : Z;
  dstaddr : Z
}.

Definition IPV4_FRAME_SIZE : Z := 20.

Definition ipv4frame_bytes (f : ipv4frame_t) : list Z :=
  [version_length f; servicetype_ecn f] ++ bytes16 (packetlen f) ++ bytes16 (id f) ++ bytes16 (flags_fragoffset f) ++
  [timetolive f; protocol f] ++ bytes16 (framechecksum f) ++ bytes32 (srcaddr f) ++ bytes32 (dstaddr f).

Definition ipv4frame_of (bs : list Z) : option (ipv4frame_t * list Z) :=
  match bs with
  | v :: s :: l0 :: l1 :: i0 :: i1 :: f0 :: f1 :: t :: p :: c0 :: c1 ::
    s0 :: s1 :: s2 :: s3 :: d0 :: d1 :: d2 :: d3 :: r =>
      Some (mk_ipv4 v s (word16 l0 l1) (word16 i0 i1) (word16 f0 f1) t p (word16 c0 c1)
              (word32 s0 s1 s2 s3) (word32 d0 d1 d2 d3), r)
  | _ => None
  end.

(** ** Devices *)

Record netdev_t := mk_netdev { mac : mac_t; mtu : Z; ip : Z; ipcurrid : Z }.

(** What a driver does to the outside state [W]: [allocdesc] and [sendpacket]
    return an error number, or stop at a failed assertion. *)
Class Driver (W : Type) := {
  allocdesc : netdev_t -> Z -> W -> option (Z * W);
  freedesc : netdev_t -> W -> W;
  sendpacket : netdev_t -> list Z -> mac_t -> Z -> W -> option (Z * W)
}.

(** ** Routing ([ipv4.c]) *)

Record routingentry_t := mk_route { rnetdev : option nat; raddr : Z; gateway : Z; mask : Z; weight : Z }.

Definition no_route : routingentry_t := mk_route None 0 0 0 0.

Fixpoint getroute_loop (ipaddr : Z) (t : list routingentry_t) (selected : routingentry_t) : routingentry_t :=
  match t with
  | [] => selected
  | e :: t' =>
      getroute_loop ipaddr t'
        (if bool_decide (rnetdev e = None) || negb (Z.land (mask e) ipaddr =? Z.land (raddr e) (mask e)) then selected
         else if weight e >? weight selected then e else selected)
  end.

Definition getroute (table : list routingentry_t) (ipaddr : Z) : routingentry_t := getroute_loop ipaddr table no_route.

Fixpoint replace_free (entry : routingentry_t) (t : list routingentry_t) : option (list routingentry_t) :=
  match t with
  | [] => None
  | e :: t' => match rnetdev e with
               | None => Some (entry :: t')
               | Some _ => t'' ← replace_free entry t'; Some (e :: t'')
               end
  end.

(** [realloc_ok] says whether the table could grow. *)
Definition ipv4_addroute (realloc_ok : bool) (netdev : nat) (addr gw msk w : Z) (table : list routingentry_t)
    : Z * list routingentry_t :=
  let entry := mk_route (Some netdev) addr gw msk w in
  match replace_free entry table with
  | Some t => (0, t)
  | None => if realloc_ok then (0, table ++ [entry]) else (ENOMEM, table)
  end.

Definition ipv4_getmtu (devs : list netdev_t) (table : list routingentry_t) (ipaddr : Z) : option Z :=
  match rnetdev (getroute table ipaddr) with None => Some 0 | Some d => nd ← devs !! d; Some (mtu nd) end.

Definition ipv4_getnetdevip (devs : list netdev_t) (table : list routingentry_t) (ipaddr : Z) : option Z :=
  match rnetdev (getroute table ipaddr) with None => Some 0 | Some d => nd ← devs !! d; Some (ip nd) end.

(** ** The header checksum *)

(** Pairs of bytes as big endian words; an odd last byte is added as it is. *)
Fixpoint checksum_loop (bs : list Z) (sum : Z) : Z :=
  match bs with
  | a :: b :: bs' => checksum_loop bs' (sum + be_to_cpu_w (word16 a b))
  | [a] => sum + a
  | [] => sum
  end.

(** The carries folded back, twice. *)
Definition fold_carries (sum : Z) : Z :=
  let sum := Z.shiftr sum 16 + Z.land sum 0xffff in
  sum + Z.shiftr sum 16.

Definition checksum (bs : list Z) : Z := Z.lnot (fold_carries (checksum_loop bs 0)) mod 2 ^ 16.

Definition VERSION_LENGTH (v l : Z) : Z := Z.lor (Z.shiftl v 4) l.
Definition FLAG_MF : Z := 1.
Definition FLAGS_FRAGOFFSET (flg offset : Z) : Z := Z.lor (Z.shiftl flg 13) (Z.shiftr offset 3).
Definition GET_FLAGS (x : Z) : Z := Z.land (Z.shiftr x 13) 0x7.
Definition GET_FRAGOFFSET (x : Z) : Z := Z.land x 0x1fff.

(** ** Sending *)

Definition fragment_header (nd : netdev_t) (fragmentoffset fragmentlen pid ipaddr proto : Z) (last : bool) : ipv4frame_t :=
  mk_ipv4 (VERSION_LENGTH 4 5) 0 (cpu_to_be_w (fragmentlen + IPV4_FRAME_SIZE)) (cpu_to_be_w pid)
    (cpu_to_be_w (FLAGS_FRAGOFFSET (if negb last then FLAG_MF else 0) fragmentoffset)) 0xff proto 0
    (cpu_to_be_d (ip nd)) (cpu_to_be_d ipaddr).

Definition with_checksum (v : Z) (f : ipv4frame_t) : ipv4frame_t :=
  mk_ipv4 (version_length f) (servicetype_ecn f) (packetlen f) (id f) (flags_fragoffset f) (timetolive f) (protocol f)
    v (srcaddr f) (dstaddr f).

Section send.
Context {W : Type} `{!Driver W}.

(** [payload] is what the caller has put behind the header. *)
Definition dispatch_fragment (nd : netdev_t) (payload : list Z) (fragmentoffset fragmentlen pid ipaddr : Z)
    (m : mac_t) (proto : Z) (last : bool) (w : W) : option (Z * W) :=
  let frame := fragment_header nd fragmentoffset fragmentlen pid ipaddr proto last in
  let frame := with_checksum (cpu_to_be_w (checksum (ipv4frame_bytes frame))) frame in
  sendpacket nd (ipv4frame_bytes frame ++ payload) m ETH_PROTO_IP w.

(** The loop, [n] fragments before its end; [i] is the loop's variable. *)
Fixpoint fragment_loop (n : nat) (nd : netdev_t) (buffer : list Z) (devfragmentsize fragmentcount i pid ipaddr : Z)
    (m : mac_t) (proto : Z) (w : W) : option (Z * W) :=
  match n with
  | O => Some (0, w)
  | S n' =>
      let packetsize := Z.of_nat (length buffer) in
      let fragmentlen := if i =? fragmentcount - 1 then packetsize - devfragmentsize * (fragmentcount - 1) else devfragmentsize in
      '(e, w) ← allocdesc nd (fragmentlen + IPV4_FRAME_SIZE) w;
      if negb (e =? 0) then Some (e, w)
      else
        let payload := slice buffer (Z.to_nat (i * devfragmentsize)) (Z.to_nat fragmentlen) in
        '(e, w) ← dispatch_fragment nd payload (i * devfragmentsize) fragmentlen pid ipaddr m proto (i =? fragmentcount - 1) w;
        let w := freedesc nd w in
        if negb (e =? 0) then Some (e, w)
        else fragment_loop n' nd buffer devfragmentsize fragmentcount (i + 1) pid ipaddr m proto w
  end.

Definition devfragmentsize (nd : netdev_t) : Z :=
  let mtuheader := u64 (mtu nd - IPV4_FRAME_SIZE) in mtuheader - mtuheader mod 8.

(** From the choice of the device on: the packet's identification is the
    device's counter, which goes up.  A device that cannot carry a fragment
    divides by zero. *)
Definition send_on (devs : list netdev_t) (d : nat) (buffer : list Z) (ipaddr : Z) (m : mac_t) (proto : Z) (w : W)
    : option (Z * list netdev_t * W) :=
  nd ← devs !! d;
  passert (negb (devfragmentsize nd =? 0));;
  let fragmentcount := Z.of_nat (length buffer) / devfragmentsize nd + 1 in
  let pid := ipcurrid nd in
  let devs := <[d := mk_netdev (mac nd) (mtu nd) (ip nd) (s32 (pid + 1))]> devs in
  '(e, w) ← fragment_loop (Z.to_nat fragmentcount) nd buffer (devfragmentsize nd) fragmentcount 0 pid ipaddr m proto w;
  Some (e, devs, w).

(** [arp_lookup] is an argument: the error and the address it finds, given the
    device and the next hop. *)
Definition ipv4_sendpacket (table : list routingentry_t) (arp_lookup : nat -> Z -> W -> option (Z * mac_t * W))
    (devs : list netdev_t) (buffer : list Z) (ipaddr proto : Z) (broadcastdev : option nat) (w : W)
    : option (Z * list netdev_t * W) :=
  if Z.of_nat (length buffer) + IPV4_FRAME_SIZE >? 65535 then Some (EMSGSIZE, devs, w)
  else if negb (ipaddr =? IPV4_BROADCAST_ADDRESS) then
    let entry := getroute table ipaddr in
    match rnetdev entry with
    | None => Some (ENETUNREACH, devs, w)
    | Some d =>
        '(error, m, w) ← arp_lookup d (if negb (gateway entry =? 0) then gateway entry else ipaddr) w;
        if negb (error =? 0) then Some (error, devs, w) else send_on devs d buffer ipaddr m proto w
    end
  else d ← broadcastdev; send_on devs d buffer ipaddr NET_BROADCAST_MAC proto w.
End send.

(** ** Receiving *)

(** What [ipv4_process] hands to the protocols. *)
Inductive delivery_t :=
  | Drop
  | To_udp (payload : list Z) (srcip : Z)
  | To_tcp (payload : list Z) (frame : ipv4frame_t).

Definition ipv4_process (nd : netdev_t) (buff : list Z) : option delivery_t :=
  '(frame, nextbuff) ← ipv4frame_of buff;
  if negb (checksum (take 20 buff) =? 0) then Some Drop
  else if negb (version_length frame =? VERSION_LENGTH 4 5) then Some Drop
  else
    let flagsfrag := be_to_cpu_w (flags_fragoffset frame) in
    if has (GET_FLAGS flagsfrag) FLAG_MF || (GET_FRAGOFFSET flagsfrag >? 0) then Some Drop
    else
      let dstip := be_to_cpu_d (dstaddr frame) in
      let srcip := be_to_cpu_d (srcaddr frame) in
      if negb (dstip =? IPV4_BROADCAST_ADDRESS) && negb (dstip =? ip nd) then Some Drop
      else if protocol frame =? IPV4_PROTO_UDP then Some (To_udp nextbuff srcip)
      else if protocol frame =? IPV4_PROTO_TCP then Some (To_tcp nextbuff frame)
      else Some Drop.

Inductive input_t := Ignored | Ipv4_in (d : delivery_t) | Arp_in (buffer : list Z).

Definition eth_process (nd : netdev_t) (buffer : list Z) : option input_t :=
  '(frame, nextbuff) ← ethframe_of buffer;
  if negb (MAC_EQUAL (destination frame) (mac nd) || MAC_EQUAL (destination frame) NET_BROADCAST_MAC) then Some Ignored
  else if be_to_cpu_w (etype frame) =? ETH_PROTO_IP then d ← ipv4_process nd nextbuff; Some (Ipv4_in d)
  else if be_to_cpu_w (etype frame) =? ETH_PROTO_ARP then Some (Arp_in nextbuff)
  else Some Ignored.

(** ** The loopback device ([loopback.c]) *)

(** Whether each next allocation succeeds, and the frames its deferred calls
    hand to [eth_process]. *)
Record loopback_t := mk_loopback { lo_memory : list bool; lo_frames : list (list Z) }.

Definition loopback_allocdesc (nd : netdev_t) (requestedsize : Z) (w : loopback_t) : option (Z * loopback_t) :=
  passert (requestedsize <=? mtu nd);;
  match lo_memory w with
  | [] => Some (0, w)
  | ok :: rest => Some (if ok : bool then 0 else ENOMEM, mk_loopback rest (lo_frames w))
  end.

Definition loopback_freedesc (_ : netdev_t) (w : loopback_t) : loopback_t := w.

(** The target address is not used: every frame is a broadcast. *)
Definition loopback_sendpacket (nd : netdev_t) (packet : list Z) (_ : mac_t) (proto : Z) (w : loopback_t)
    : option (Z * loopback_t) :=
  let ethframe := mk_eth NET_BROADCAST_MAC (mac nd) (cpu_to_be_w proto) in
  Some (0, mk_loopback (lo_memory w) (lo_frames w ++ [ethframe_bytes ethframe ++ packet])).

#[export] Instance loopback_driver : Driver loopback_t := {
  allocdesc := loopback_allocdesc;
  freedesc := loopback_freedesc;
  sendpacket := loopback_sendpacket
}.

Definition loopback_init : netdev_t := mk_netdev [0; 0; 0; 0; 0; 0] 30000 0x7f000001 0.

(** ** Words and bytes *)

Lemma bswap16_range w : 0 <= bswap16 w < 2 ^ 16.
Proof. unfold bswap16. Z.div_mod_to_equations. lia. Qed.

Lemma bswap16_involutive w : 0 <= w < 2 ^ 16 -> bswap16 (bswap16 w) = w.
Proof.
  intros H. unfold bswap16. pose proof (Z.mod_pos_bound w 256 ltac:(lia)). pose proof (Z.mod_pos_bound (w / 256) 256 ltac:(lia)).
  rewrite Z.add_mod, Z_mod_mult, Z.add_0_l, Z.mod_mod, Z.div_add_l by lia. rewrite (Z.mod_small ((w / 256) mod 256) 256) by lia.
  rewrite (Z.div_small ((w / 256) mod 256) 256) by lia. rewrite Z.add_0_r, (Z.mod_small (w mod 256) 256) by lia.
  rewrite (Z.mod_small (w / 256) 256) by (Z.div_mod_to_equations; lia). Z.div_mod_to_equations. lia.
Qed.

Lemma be_w w : be_to_cpu_w (cpu_to_be_w w) = w mod 2 ^ 16.
Proof.
  unfold be_to_cpu_w, cpu_to_be_w. rewrite (Z.mod_small (bswap16 _)) by apply bswap16_range.
  apply bswap16_involutive, Z.mod_pos_bound. lia.
Qed.

Lemma word16_bytes w : 0 <= w < 2 ^ 16 -> word16 (w mod 256) ((w / 256) mod 256) = w.
Proof. unfold word16. intros H. Z.div_mod_to_equations. lia. Qed.

Lemma be_word16 a b : is_byte a -> is_byte b -> be_to_cpu_w (word16 a b) = 256 * a + b.
Proof. unfold is_byte, be_to_cpu_w, bswap16, word16. intros Ha Hb. Z.div_mod_to_equations. lia. Qed.

Lemma word32_bytes d : 0 <= d < 2 ^ 32 ->
  word32 (d mod 256) ((d / 2 ^ 8) mod 256) ((d / 2 ^ 16) mod 256) ((d / 2 ^ 24) mod 256) = d.
Proof. unfold word32. intros H. Z.div_mod_to_equations. lia. Qed.

Lemma bswap32_range d : 0 <= bswap32 d < 2 ^ 32.
Proof. unfold bswap32. Z.div_mod_to_equations. lia. Qed.

(** A word made of four bytes. *)
Lemma bswap32_word a b c d : is_byte a -> is_byte b -> is_byte c -> is_byte d -> bswap32 (word32 a b c d) = word32 d c b a.
Proof. unfold is_byte, bswap32, word32. intros. Z.div_mod_to_equations. lia. Qed.

Lemma be_d d : be_to_cpu_d (cpu_to_be_d d) = d mod 2 ^ 32.
Proof.
  unfold be_to_cpu_d, cpu_to_be_d. rewrite (Z.mod_small (bswap32 _)) by apply bswap32_range.
  assert (H : 0 <= d mod 2 ^ 32 < 2 ^ 32) by (apply Z.mod_pos_bound; lia). set (x := d mod 2 ^ 32) in *.
  assert (Bs : forall n, is_byte ((x / n) mod 256)) by (intros n; apply Z.mod_pos_bound; lia).
  pose proof (Z.mod_pos_bound x 256 ltac:(lia)) as B0.
  rewrite <- (word32_bytes x H) at 1. rewrite !bswap32_word; try done; try apply Bs. by apply word32_bytes.
Qed.

(** ** Headers *)

Record ipv4frame_ok (f : ipv4frame_t) : Prop := {
  fo_version : is_byte (version_length f);
  fo_service : is_byte (servicetype_ecn f);
  fo_ttl : is_byte (timetolive f);
  fo_proto : is_byte (protocol f);
  fo_len : 0 <= packetlen f < 2 ^ 16;
  fo_id : 0 <= id f < 2 ^ 16;
  fo_frag : 0 <= flags_fragoffset f < 2 ^ 16;
  fo_sum : 0 <= framechecksum f < 2 ^ 16;
  fo_src : 0 <= srcaddr f < 2 ^ 32;
  fo_dst : 0 <= dstaddr f < 2 ^ 32
}.

Lemma ipv4frame_roundtrip f r : ipv4frame_ok f -> ipv4frame_of (ipv4frame_bytes f ++ r) = Some (f, r).
Proof.
  intros []. unfold ipv4frame_bytes, bytes16, bytes32. cbn [app ipv4frame_of]. rewrite !word16_bytes, !word32_bytes by done.
  by destruct f.
Qed.

Lemma length_ipv4frame_bytes f : length (ipv4frame_bytes f) = 20%nat.
Proof. done. Qed.

Lemma ethframe_roundtrip f r :
  length (destination f) = 6%nat -> length (source f) = 6%nat -> 0 <= etype f < 2 ^ 16 ->
  ethframe_of (ethframe_bytes f ++ r) = Some (f, r).
Proof.
  intros Hd Hs Ht. destruct f as [d s t]. cbn [destination source etype] in *.
  do 6 (destruct d as [|? d]; [done|]). destruct d; [|done]. do 6 (destruct s as [|? s]; [done|]). destruct s; [|done].
  unfold ethframe_bytes, bytes16. cbn [destination source etype app ethframe_of]. by rewrite word16_bytes.
Qed.

(** ** The checksum *)

Lemma checksum_loop_acc bs acc : checksum_loop bs acc = acc + checksum_loop bs 0.
Proof.
  revert acc. induction bs as [bs IH] using (induction_ltof1 _ length). unfold ltof in IH. intros acc.
  destruct bs as [|a [|b bs]]; cbn [checksum_loop]; [lia|lia|].
  rewrite IH by (cbn; lia). rewrite (IH bs ltac:(cbn; lia) (0 + _)). lia.
Qed.

(** The sum of the words of a header, its checksum field apart. *)
Definition words_but_checksum (f : ipv4frame_t) : Z := checksum_loop (ipv4frame_bytes (with_checksum 0 f)) 0.

Lemma checksum_field f v :
  0 <= v < 2 ^ 16 ->
  checksum_loop (ipv4frame_bytes (with_checksum v f)) 0 = words_but_checksum f + be_to_cpu_w v.
Proof.
  intros Hv. unfold words_but_checksum, ipv4frame_bytes, with_checksum, bytes16, bytes32.
  cbn [version_length servicetype_ecn packetlen id flags_fragoffset timetolive protocol framechecksum srcaddr dstaddr app checksum_loop].
  rewrite (word16_bytes v) by done. change (word16 (0 mod 256) ((0 / 256) mod 256)) with 0. change (be_to_cpu_w 0) with 0. lia.
Qed.

Lemma be_to_cpu_w_range w : 0 <= be_to_cpu_w w < 2 ^ 16.
Proof. apply bswap16_range. Qed.

Lemma words_range f : 0 <= words_but_checksum f <= 10 * 65535.
Proof.
  unfold words_but_checksum, ipv4frame_bytes, with_checksum, bytes16, bytes32. cbn [app checksum_loop].
  repeat match goal with |- context [be_to_cpu_w ?w] => lazymatch goal with
    | H : 0 <= be_to_cpu_w w < _ |- _ => fail | _ => pose proof (be_to_cpu_w_range w); generalize dependent (be_to_cpu_w w); intros end end.
  lia.
Qed.

(** One's complement: adding the complement of the folded sum gives all ones. *)
Lemma fold_complement S :
  0 <= S <= 10 * 65535 -> Z.lnot (fold_carries (S + Z.lnot (fold_carries S) mod 2 ^ 16)) mod 2 ^ 16 = 0.
Proof.
  intros HS. unfold fold_carries. assert (L : forall s, Z.land s 0xffff = s mod 2 ^ 16) by (intros s; by apply (Z.land_ones s 16)).
  rewrite !L, !Z.shiftr_div_pow2 by lia. unfold Z.lnot. set (a := S / 2 ^ 16). set (b := S mod 2 ^ 16).
  assert (Sab : S = 65536 * a + b /\ 0 <= a <= 9 /\ 0 <= b < 65536) by (unfold a, b; Z.div_mod_to_equations; lia).
  destruct (Z.leb_spec 65536 (a + b)) as [Hc|Hc].
  - assert (E1 : (a + b) / 2 ^ 16 = 1) by (Z.div_mod_to_equations; lia). rewrite E1.
    assert (E2 : Z.pred (- (a + b + 1)) mod 2 ^ 16 = 131070 - a - b) by (Z.div_mod_to_equations; lia). rewrite E2.
    assert (E3 : (S + (131070 - a - b)) / 2 ^ 16 = a + 1) by (Z.div_mod_to_equations; lia).
    assert (E4 : (S + (131070 - a - b)) mod 2 ^ 16 = 65534 - a) by (Z.div_mod_to_equations; lia).
    rewrite E3, E4. replace (a + 1 + (65534 - a)) with 65535 by lia. reflexivity.
  - assert (E1 : (a + b) / 2 ^ 16 = 0) by (Z.div_mod_to_equations; lia). rewrite E1.
    assert (E2 : Z.pred (- (a + b + 0)) mod 2 ^ 16 = 65535 - a - b) by (Z.div_mod_to_equations; lia). rewrite E2.
    assert (E3 : (S + (65535 - a - b)) / 2 ^ 16 = a) by (Z.div_mod_to_equations; lia).
    assert (E4 : (S + (65535 - a - b)) mod 2 ^ 16 = 65535 - a) by (Z.div_mod_to_equations; lia).
    rewrite E3, E4. replace (a + (65535 - a)) with 65535 by lia. reflexivity.
Qed.

Lemma checksum_range bs : 0 <= checksum bs < 2 ^ 16.
Proof. unfold checksum. apply Z.mod_pos_bound. lia. Qed.

(** A header with its checksum filled in sums to zero. *)
Lemma checksum_verifies f :
  framechecksum f = 0 -> checksum (ipv4frame_bytes (with_checksum (cpu_to_be_w (checksum (ipv4frame_bytes f))) f)) = 0.
Proof.
  intros F0. assert (Ef : ipv4frame_bytes f = ipv4frame_bytes (with_checksum 0 f)) by (destruct f; cbn in F0; by subst).
  rewrite Ef. unfold checksum at 1. rewrite checksum_field by apply bswap16_range.
  rewrite be_w, (Z.mod_small (checksum _)) by apply checksum_range. unfold checksum.
  rewrite (checksum_field f 0) by lia. change (be_to_cpu_w 0) with 0. rewrite Z.add_0_r. apply fold_complement, words_range.
Qed.

(** ** Routes *)

Definition route_matches (ipaddr : Z) (e : routingentry_t) : Prop :=
  rnetdev e <> None /\ Z.land (mask e) ipaddr = Z.land (raddr e) (mask e).

Lemma getroute_loop_spec ipaddr t sel :
  let r := getroute_loop ipaddr t sel in
  (r = sel \/ r ∈ t /\ route_matches ipaddr r /\ weight sel < weight r) /\ weight sel <= weight r /\
  forall e, e ∈ t -> route_matches ipaddr e -> weight e <= weight r.
Proof.
  revert sel. induction t as [|e t IH]; intros sel; cbn [getroute_loop]; [split; [by left|]; split; [lia|]; intros e H; by apply not_elem_of_nil in H|].
  destruct (bool_decide (rnetdev e = None) || _) eqn:M.
  - destruct (IH sel) as (H1 & H2 & H3). split; [destruct H1 as [->|(? & ? & ?)]; [by left|right; split; [by right|done]]|]. split; [done|].
    intros x [->|Hx]%elem_of_cons Mx; [|by apply H3]. destruct Mx as [Mx1 Mx2].
    rewrite bool_decide_eq_false_2, Mx2, Z.eqb_refl in M by done. done.
  - apply orb_false_iff in M as [M1%bool_decide_eq_false M2%negb_false_iff%Z.eqb_eq].
    set (sel' := if weight e >? weight sel then e else sel). destruct (IH sel') as (H1 & H2 & H3).
    assert (Hs : weight sel <= weight sel' /\ weight e <= weight sel') by (unfold sel'; destruct (weight e >? weight sel) eqn:G; lia).
    split; [|split; [lia|]].
    + destruct H1 as [->|(H & Hm & Hw)]; [|right; split; [by right|]; split; [done|lia]].
      unfold sel'. destruct (weight e >? weight sel) eqn:G; [|by left]. right. split; [by left|]. split; [done|lia].
    + intros x [->|Hx]%elem_of_cons Mx; [lia|]. by apply H3.
Qed.

(** The route chosen for an address is an entry of the table for it, and no
    entry for it weighs more; without an entry of positive weight there is no
    route. *)
Theorem getroute_best table ipaddr :
  let r := getroute table ipaddr in
  match rnetdev r with
  | Some _ => r ∈ table /\ route_matches ipaddr r /\ forall e, e ∈ table -> route_matches ipaddr e -> weight e <= weight r
  | None => forall e, e ∈ table -> route_matches ipaddr e -> weight e <= 0
  end.
Proof.
  cbv zeta. unfold getroute. destruct (getroute_loop_spec ipaddr table no_route) as (H1 & H2 & H3).
  destruct H1 as [E|(Hin & Hm & Hw)].
  - rewrite E in *. exact H3.
  - destruct (rnetdev _) eqn:N; [done|]. by destruct Hm.
Qed.

(** ** Fragments *)

(** The pieces the sender cuts a packet of [fragmentcount] fragments into, from
    number [i]: offset, payload, whether it is the last. *)
Fixpoint fragments (n : nat) (k i : nat) (buffer : list Z) : list (nat * list Z * bool) :=
  match n with
  | O => []
  | S O => [((i * k)%nat, drop (i * k) buffer, true)]
  | S n' => ((i * k)%nat, slice buffer (i * k) k, false) :: fragments n' k (S i) buffer
  end.

(** A packet on the loopback device. *)
Definition lo_packet (nd : netdev_t) (pid ipaddr proto : Z) (f : nat * list Z * bool) : list Z :=
  let '(offset, payload, last) := f in
  let frame := fragment_header nd (Z.of_nat offset) (Z.of_nat (length payload)) pid ipaddr proto last in
  ethframe_bytes (mk_eth NET_BROADCAST_MAC (mac nd) (cpu_to_be_w ETH_PROTO_IP)) ++
  ipv4frame_bytes (with_checksum (cpu_to_be_w (checksum (ipv4frame_bytes frame))) frame) ++ payload.

Lemma fragments_concat n k i buffer :
  (0 < n)%nat -> ((i + n - 1) * k <= length buffer)%nat -> concat ((fun f => f.1.2) <$> fragments n k i buffer) = drop (i * k) buffer.
Proof.
  revert i. induction n as [|n IH]; intros i Hn Hl; [lia|]. destruct n as [|n].
  - cbn. by rewrite app_nil_r.
  - change (fragments (S (S n)) k i buffer) with (((i * k)%nat, slice buffer (i * k) k, false) :: fragments (S n) k (S i) buffer).
    rewrite fmap_cons. cbn [concat fst snd]. rewrite IH by lia. unfold slice. replace (S i * k)%nat with (i * k + k)%nat by lia.
    rewrite <- drop_drop. apply take_drop.
Qed.

Section loopback_send.
Context (nd : netdev_t) (k : nat).
Hypothesis Kpos : (0 < k)%nat.
Hypothesis Kmtu : Z.of_nat k + IPV4_FRAME_SIZE <= mtu nd.

(** With memory for the descriptors every fragment is sent. *)
Lemma fragment_loop_ok n i buffer pid ipaddr m proto fs :
  (0 < n)%nat -> (i + n = length buffer / k + 1)%nat ->
  fragment_loop n nd buffer (Z.of_nat k) (Z.of_nat (length buffer / k + 1)) (Z.of_nat i) pid ipaddr m proto (mk_loopback [] fs) =
    Some (0, mk_loopback [] (fs ++ (lo_packet nd pid ipaddr proto <$> fragments n k i buffer))).
Proof using Kpos Kmtu.
  revert i fs. induction n as [|n IH]; intros i fs Hn Hi; [lia|].
  pose proof (Nat.div_mod_eq (length buffer) k) as DM. pose proof (Nat.mod_upper_bound (length buffer) k ltac:(lia)) as MB.
  set (q := (length buffer / k)%nat) in *. cbn [fragment_loop].
  assert (Il : (i <= q)%nat) by lia. assert (Qk : (i * k <= q * k)%nat) by (by apply Nat.mul_le_mono_r).
  destruct n as [|n].
  - assert (Eq : i = q) by lia. rewrite (proj2 (Z.eqb_eq (Z.of_nat i) (Z.of_nat (q + 1) - 1))) by lia.
    replace (Z.of_nat (length buffer) - Z.of_nat k * (Z.of_nat (q + 1) - 1)) with (Z.of_nat (length buffer - i * k)) by nia.
    cbn [allocdesc loopback_driver]. unfold loopback_allocdesc, passert.
    rewrite (proj2 (Z.leb_le _ _)) by nia. cbn [mbind option_bind lo_memory Z.eqb negb].
    unfold dispatch_fragment. cbn [sendpacket loopback_driver loopback_sendpacket mbind option_bind lo_memory lo_frames fragment_loop freedesc loopback_freedesc].
    cbn [fragments fmap list_fmap lo_packet]. rewrite <- Nat2Z.inj_mul, !Nat2Z.id, length_drop.
    assert (Sl : slice buffer (i * k) (length buffer - i * k) = drop (i * k) buffer) by (unfold slice; apply take_ge; rewrite length_drop; lia).
    rewrite Sl. done.
  - rewrite (proj2 (Z.eqb_neq (Z.of_nat i) (Z.of_nat (q + 1) - 1))) by lia.
    cbn [allocdesc loopback_driver]. unfold loopback_allocdesc, passert.
    rewrite (proj2 (Z.leb_le _ _)) by lia. cbn [mbind option_bind lo_memory Z.eqb negb].
    unfold dispatch_fragment. cbn [sendpacket loopback_driver loopback_sendpacket mbind option_bind lo_memory lo_frames freedesc loopback_freedesc Z.eqb negb].
    replace (Z.of_nat i + 1) with (Z.of_nat (S i)) by lia. unfold loopback_freedesc. rewrite IH by lia.
    change (fragments (S (S n)) k i buffer) with (((i * k)%nat, slice buffer (i * k) k, false) :: fragments (S n) k (S i) buffer).
    cbn [fmap list_fmap lo_packet]. rewrite <- Nat2Z.inj_mul, !Nat2Z.id, <- app_assoc. cbn [app].
    rewrite length_slice by nia. done.
Qed.
End loopback_send.

(** The packet a fragment becomes passes the checks of the receiver. *)
Lemma fragment_header_ok nd off n pid ipaddr proto last :
  is_byte proto -> ipv4frame_ok (with_checksum (cpu_to_be_w (checksum (ipv4frame_bytes (fragment_header nd off n pid ipaddr proto last))))
                                   (fragment_header nd off n pid ipaddr proto last)).
Proof.
  intros Hp. split; cbn [with_checksum fragment_header version_length servicetype_ecn packetlen id flags_fragoffset timetolive protocol framechecksum srcaddr dstaddr];
    try apply bswap16_range; try apply bswap32_range; try done; unfold is_byte; try lia.
Qed.

(** What the sender puts on the wire is what the receiver reads: a packet
    that fits one fragment, addressed to the device, passes the checksum and is
    handed to its protocol with its payload and the sender's address. *)
Lemma ipv4_roundtrip (nd rd : netdev_t) (payload : list Z) (pid : Z) (proto : Z) :
  proto = IPV4_PROTO_UDP \/ proto = IPV4_PROTO_TCP -> 0 <= ip nd < 2 ^ 32 -> 0 <= ip rd < 2 ^ 32 ->
  let frame := fragment_header nd 0 (Z.of_nat (length payload)) pid (ip rd) proto true in
  let sent := with_checksum (cpu_to_be_w (checksum (ipv4frame_bytes frame))) frame in
  ipv4_process rd (ipv4frame_bytes sent ++ payload) =
    Some (if proto =? IPV4_PROTO_UDP then To_udp payload (ip nd) else To_tcp payload sent).
Proof.
  intros Hp Hs Hd frame sent. assert (Pb : is_byte proto) by (destruct Hp as [-> | ->]; done).
  unfold ipv4_process. rewrite ipv4frame_roundtrip by (by apply fragment_header_ok). cbn [mbind option_bind].
  assert (Tk : take 20 (ipv4frame_bytes sent ++ payload) = ipv4frame_bytes sent) by done. rewrite Tk.
  assert (Cs : checksum (ipv4frame_bytes sent) = 0) by exact (checksum_verifies frame eq_refl). rewrite Cs. cbn [negb Z.eqb].
  assert (V : version_length sent = VERSION_LENGTH 4 5) by done. rewrite V, Z.eqb_refl. cbn [negb].
  assert (Fl : be_to_cpu_w (flags_fragoffset sent) = 0).
  { unfold sent, frame. cbn [with_checksum fragment_header flags_fragoffset negb]. rewrite be_w. reflexivity. }
  rewrite Fl. change (has (GET_FLAGS 0) FLAG_MF || (GET_FRAGOFFSET 0 >? 0)) with false. cbn [orb].
  assert (Ds : be_to_cpu_d (dstaddr sent) = ip rd) by (unfold sent, frame; cbn [with_checksum fragment_header dstaddr]; rewrite be_d; by apply Z.mod_small).
  assert (Sr : be_to_cpu_d (srcaddr sent) = ip nd) by (unfold sent, frame; cbn [with_checksum fragment_header srcaddr]; rewrite be_d; by apply Z.mod_small).
  rewrite Ds, Sr, Z.eqb_refl, andb_false_r. assert (Pr : protocol sent = proto) by done. rewrite Pr.
  by destruct Hp as [-> | ->].
Qed.

(** The pieces: contiguous, all but the last of [k] bytes. *)
Lemma fragments_spec n k i buffer f :
  (0 < n)%nat -> ((i + n - 1) * k <= length buffer < (i + n) * k)%nat -> f ∈ fragments n k i buffer ->
  (exists j, f.1.1 = (j * k)%nat) /\ (length f.1.2 <= k)%nat /\ (f.1.1 <= (i + n - 1) * k)%nat /\
  (f.2 = true <-> f.1.1 = ((i + n - 1) * k)%nat).
Proof.
  revert i. induction n as [|n IH]; intros i Hn Hl Hf; [lia|]. destruct n as [|n].
  - cbn in Hf. apply list_elem_of_singleton in Hf as ->. cbn [fst snd]. rewrite length_drop.
    split; [eauto|]. split; [nia|]. split; [nia|]. split; [nia|done].
  - change (fragments (S (S n)) k i buffer) with (((i * k)%nat, slice buffer (i * k) k, false) :: fragments (S n) k (S i) buffer) in Hf.
    apply elem_of_cons in Hf as [->|Hf]; [|apply (IH (S i)) in Hf; [|lia|nia]; replace (S i + S n - 1)%nat with (i + S (S n) - 1)%nat in Hf by lia; done].
    cbn [fst snd]. split; [eauto|]. unfold slice. rewrite length_take. split; [lia|]. split; [nia|]. split; [done|]. nia.
Qed.

(** The size of a fragment on a device. *)
Lemma devfragmentsize_ok nd : 28 <= mtu nd < 2 ^ 16 ->
  exists k, devfragmentsize nd = Z.of_nat k /\ (0 < k)%nat /\ Z.of_nat k + 20 <= mtu nd /\ Z.of_nat k mod 8 = 0.
Proof.
  intros Hm. exists (Z.to_nat (devfragmentsize nd)). unfold devfragmentsize, IPV4_FRAME_SIZE.
  rewrite u64_id by (unfold is_u64; lia). Z.div_mod_to_equations. lia.
Qed.

(** C22. Fragmentation loses nothing and respects the device: a packet of any
    length up to the maximum is sent as fragments whose payloads put together
    are the packet, none longer than the device takes, each at an offset the
    header can carry, and only the last one without the more-fragments flag. *)
Theorem ipv4_fragmentation (devs : list netdev_t) (d : nat) (nd : netdev_t) (buffer : list Z) (ipaddr : Z) (m : mac_t) (proto : Z) (fs : list (list Z)) :
  devs !! d = Some nd -> 28 <= mtu nd < 2 ^ 16 -> Z.of_nat (length buffer) + IPV4_FRAME_SIZE <= 65535 ->
  exists l devs', send_on devs d buffer ipaddr m proto (mk_loopback [] fs) =
      Some (0, devs', mk_loopback [] (fs ++ (lo_packet nd (ipcurrid nd) ipaddr proto <$> l))) /\
    concat ((fun f => f.1.2) <$> l) = buffer /\
    forall f, f ∈ l -> Z.of_nat (length f.1.2) + IPV4_FRAME_SIZE <= mtu nd /\ Z.of_nat f.1.1 mod 8 = 0 /\
      (f.2 = true <-> Z.of_nat f.1.1 + devfragmentsize nd > Z.of_nat (length buffer)).
Proof.
  intros Ed Hm Hl. unfold IPV4_FRAME_SIZE in *. destruct (devfragmentsize_ok nd Hm) as (k & Dk & Kp & Km & K8). unfold send_on. rewrite Ed. cbn [mbind option_bind]. rewrite Dk.
  unfold passert. rewrite (proj2 (Z.eqb_neq _ _)) by lia. cbn [negb mbind option_bind].
  assert (Ec : Z.of_nat (length buffer) / Z.of_nat k + 1 = Z.of_nat (length buffer / k + 1)) by (rewrite <- Nat2Z.inj_div; lia).
  rewrite Ec, Nat2Z.id. change 0 with (Z.of_nat 0) at 1.
  pose proof (Nat.div_mod_eq (length buffer) k) as DM. pose proof (Nat.mod_upper_bound (length buffer) k ltac:(lia)) as MB.
  rewrite (fragment_loop_ok nd k Kp Km) by lia. cbn [mbind option_bind].
  eexists (fragments (length buffer / k + 1) k 0 buffer), _. split; [done|]. split.
  - rewrite fragments_concat by nia. by rewrite drop_0.
  - intros f Hf. apply fragments_spec in Hf as ((j & Ej) & Lf & Lj & La); [|lia|nia]. split; [lia|].
    rewrite Ej in *. split; [rewrite Nat2Z.inj_mul, Z.mul_comm; rewrite Z.mul_mod, K8 by lia; reflexivity|].
    rewrite La. replace (0 + (length buffer / k + 1) - 1)%nat with (length buffer / k)%nat in * by lia. set (q := (length buffer / k)%nat) in *.
    split; [nia|]. intros H. assert (q < S j)%nat by (apply (Nat.mul_lt_mono_pos_r k); lia).
    assert (j <= q)%nat by (apply (Nat.mul_le_mono_pos_r _ _ k); lia). f_equal. lia.
Qed.

(** A packet shorter than a fragment is sent as one frame. *)
Lemma send_on_single devs d nd buffer ipaddr m proto fs :
  devs !! d = Some nd -> 28 <= mtu nd < 2 ^ 16 -> Z.of_nat (length buffer) < devfragmentsize nd ->
  exists devs', send_on devs d buffer ipaddr m proto (mk_loopback [] fs) =
    Some (0, devs', mk_loopback [] (fs ++ [lo_packet nd (ipcurrid nd) ipaddr proto (0%nat, buffer, true)])).
Proof.
  intros Ed Hm Hl. destruct (devfragmentsize_ok nd Hm) as (k & Dk & Kp & Km & _). rewrite Dk in Hl. unfold send_on. rewrite Ed. cbn [mbind option_bind]. rewrite Dk.
  unfold passert. rewrite (proj2 (Z.eqb_neq _ _)) by lia. cbn [negb mbind option_bind].
  assert (Ec : (length buffer / k = 0)%nat) by (apply Nat.div_small; lia).
  pose proof (fragment_loop_ok nd k Kp Km 1 0 buffer (ipcurrid nd) ipaddr m proto fs) as F. rewrite Ec in F. specialize (F ltac:(lia) ltac:(lia)).
  rewrite Z.div_small by lia. change (Z.of_nat (0 + 1)) with 1 in F. change (Z.to_nat (0 + 1)) with 1%nat. change (0 + 1) with 1. change (Z.of_nat 0) with 0 in F. rewrite F. cbn [mbind option_bind].
  eexists. reflexivity.
Qed.

(** A frame of the loopback driver is handed to its protocol by the device it
    is addressed to. *)
Lemma eth_lo_packet nd pid payload :
  length (mac nd) = 6%nat -> 0 <= ip nd < 2 ^ 32 ->
  eth_process nd (lo_packet nd pid (ip nd) IPV4_PROTO_UDP (0%nat, payload, true)) = Some (Ipv4_in (To_udp payload (ip nd))).
Proof.
  intros Hm Hi. unfold lo_packet, eth_process. rewrite ethframe_roundtrip by (done || apply bswap16_range). cbn [mbind option_bind destination etype].
  change (MAC_EQUAL NET_BROADCAST_MAC NET_BROADCAST_MAC) with true. rewrite orb_true_r. cbn [negb].
  change (be_to_cpu_w (cpu_to_be_w ETH_PROTO_IP) =? ETH_PROTO_IP) with true.
  change (Z.of_nat 0) with 0. cbn iota. rewrite (ipv4_roundtrip nd nd payload pid IPV4_PROTO_UDP (or_introl eq_refl) Hi Hi). reflexivity.
Qed.

(** A device behind the loopback driver that takes small packets. *)
Definition small_dev : netdev_t := mk_netdev [2; 0; 0; 0; 0; 1] 46 0x0a000001 7.

Lemma ipv4_fragmentation_witness :
  exists l devs', send_on [small_dev] 0 (replicate 50 5) 0x0a000002 [] IPV4_PROTO_UDP (mk_loopback [] []) =
      Some (0, devs', mk_loopback [] (lo_packet small_dev 7 0x0a000002 IPV4_PROTO_UDP <$> l)) /\
    concat ((fun f => f.1.2) <$> l) = replicate 50 5.
Proof.
  destruct (ipv4_fragmentation [small_dev] 0 small_dev (replicate 50 5) 0x0a000002 [] IPV4_PROTO_UDP [] eq_refl ltac:(cbn; lia) ltac:(vm_compute; discriminate))
    as (l & devs' & E & C & _). exists l, devs'. split; [exact E|exact C].
Defined.
