(* ===== verification/Arp.v ===== *)
(** * Address resolution ([io/net/arp.c])

    Requests and replies, the per device cache, the handler thread with its
    queue, the cleanup thread and the lookup.  A section under [cachelock] or
    [ringlock] is one step; a lookup that has to wait ends its step asleep.  The
    hash tables are the maps they implement, with the memory of an insertion as
    an argument. *)

From S2P Require Import Prelude Errno Vnode Time Net.

Definition CACHE_TIMEOUT_SEC : Z := 300.
Definition CACHE_TIMEOUT_MS : Z := CACHE_TIMEOUT_SEC * 1000.
Definition LOOKUP_TIMEOUT_SEC : Z := 5.
Definition OPCODE_REQUEST : Z := 1.
Definition OPCODE_REPLY : Z := 2.

(** ** Data *)

Record entry_t := mk_cache_entry { emac : mac_t; etime : timespec_t }.

Record arpframe_t := mk_arp {
  hwtype : Z; protocoltype : Z; hwlen : Z; ptlen : Z; opcode : Z;
  srchw : mac_t; srcpt : Z; dsthw : mac_t; dstpt : Z
}.

Definition ARP_FRAME_SIZE : Z := 28.

Definition arpframe_bytes (f : arpframe_t) : list Z :=
  bytes16 (hwtype f) ++ bytes16 (protocoltype f) ++ [hwlen f; ptlen f] ++ bytes16 (opcode f) ++
  srchw f ++ bytes32 (srcpt f) ++ dsthw f ++ bytes32 (dstpt f).

(** The packed structure read off the front of a buffer. *)
Definition arpframe_of (bs : list Z) : option arpframe_t :=
  match bs with
  | h0 :: h1 :: p0 :: p1 :: hl :: pl :: o0 :: o1 :: r =>
      match drop 6 r, drop 16 r with
      | a0 :: a1 :: a2 :: a3 :: _, b0 :: b1 :: b2 :: b3 :: _ =>
          Some (mk_arp (word16 h0 h1) (word16 p0 p1) hl pl (word16 o0 o1) (take 6 r) (word32 a0 a1 a2 a3)
                  (take 6 (drop 10 r)) (word32 b0 b1 b2 b3))
      | _, _ => None
      end
  | _ => None
  end.

Record bufferentry_t := mk_bufferentry { bopcode : Z; bnetdev : nat; bip : Z; bmac : mac_t }.

(** The ring takes a thousand whole entries. *)
Definition PROCESS_ENTRIES : nat := 1000.

Record arp_st := mk_arp_st {
  caches : gset nat;
  arpcache : gmap nat (gmap Z entry_t);
  processbuffer : list bufferentry_t;
  psem : Z
}.

Definition with_arpcache (d : nat) (c : gmap Z entry_t) (st : arp_st) : arp_st :=
  mk_arp_st (caches st) (<[d := c]> (arpcache st)) (processbuffer st) (psem st).

(** ** The cache *)

Definition cache_of (d : nat) (st : arp_st) : gmap Z entry_t := default ∅ (arpcache st !! d).

Definition get (d : nat) (ipaddr : Z) (st : arp_st) : option mac_t := emac <$> cache_of d st !! ipaddr.

(** Which of the three allocations succeed. *)
Record set_memory := mk_set_memory { list_ok : bool; entry_ok : bool; insert_ok : bool }.

Definition set (mm : set_memory) (d : nat) (ipaddr : Z) (m : mac_t) (time : timespec_t) (st : arp_st) : arp_st :=
  if negb (bool_decide (d ∈ caches st)) && negb (list_ok mm) then st
  else
    let st := mk_arp_st ({[d]} ∪ caches st) (arpcache st) (processbuffer st) (psem st) in
    match get d ipaddr st with
    | Some _ => st
    | None =>
        if negb (entry_ok mm) then st
        else if negb (insert_ok mm) then st
        else with_arpcache d (<[ipaddr := mk_cache_entry m time]> (cache_of d st)) st
    end.

(** One round of the cleanup thread. *)
Definition cleanup (currtime : timespec_t) (st : arp_st) : arp_st :=
  mk_arp_st (caches st)
    (map_imap (fun d c => Some (if decide (d ∈ caches st)
                                then filter (fun kv : Z * entry_t => timespec_diffms currtime (etime kv.2) < CACHE_TIMEOUT_MS) c
                                else c)) (arpcache st))
    (processbuffer st) (psem st).

(** ** Frames *)

Section frames.
Context {W : Type} `{!Driver W}.

Definition send_frame (nd : netdev_t) (frame : arpframe_t) (target : mac_t) (w : W) : option (Z * W) :=
  '(e, w) ← allocdesc nd ARP_FRAME_SIZE w;
  if negb (e =? 0) then Some (e, w)
  else
    '(e, w) ← sendpacket nd (arpframe_bytes frame) target ETH_PROTO_ARP w;
    Some (e, freedesc nd w).

Definition send_reply (nd : netdev_t) (ipaddr : Z) (m : mac_t) (w : W) : option W :=
  '(_, w) ← send_frame nd (mk_arp (cpu_to_be_w 1) (cpu_to_be_w 0x800) 6 4 (cpu_to_be_w OPCODE_REPLY)
                             (mac nd) (cpu_to_be_d (ip nd)) m (cpu_to_be_d ipaddr)) m w;
  Some w.

Definition sendrequest (nd : netdev_t) (ipaddr : Z) (w : W) : option (Z * W) :=
  send_frame nd (mk_arp (cpu_to_be_w 1) (cpu_to_be_w 0x800) 6 4 (cpu_to_be_w OPCODE_REQUEST)
                   (mac nd) 0 [0; 0; 0; 0; 0; 0] (cpu_to_be_d ipaddr)) NET_BROADCAST_MAC w.

(** One turn of the handler thread, once [semaphore_wait] has returned; an
    empty ring leaves the entry it works on uninitialised.  The flag says
    whether [addedevent] is signalled. *)
Definition handler (mm : set_memory) (time : timespec_t) (devs : list netdev_t) (st : arp_st) (w : W)
    : option (bool * arp_st * W) :=
  passert (psem st >? 0);;
  match processbuffer st with
  | [] => None
  | entry :: rest =>
      let st := mk_arp_st (caches st) (arpcache st) rest (psem st - 1) in
      if bopcode entry =? OPCODE_REPLY then
        Some (true, set mm (bnetdev entry) (bip entry) (bmac entry) time st, w)
      else if bopcode entry =? OPCODE_REQUEST then
        nd ← devs !! bnetdev entry;
        w ← send_reply nd (bip entry) (bmac entry) w;
        Some (false, st, w)
      else Some (false, st, w)
  end.
End frames.

(** A ring without room takes nothing, and the semaphore goes up all the same. *)
Definition arp_process (d : nat) (nd : netdev_t) (buffer : list Z) (st : arp_st) : option arp_st :=
  frame ← arpframe_of buffer;
  if negb (hwtype frame =? cpu_to_be_w 1) then Some st
  else if negb (protocoltype frame =? cpu_to_be_w 0x800) then Some st
  else if negb (hwlen frame =? 6) then Some st
  else if negb (ptlen frame =? 4) then Some st
  else if (be_to_cpu_w (opcode frame) =? OPCODE_REPLY) && negb (MAC_EQUAL (dsthw frame) (mac nd)) then Some st
  else if (be_to_cpu_w (opcode frame) =? OPCODE_REQUEST) && negb (be_to_cpu_d (dstpt frame) =? ip nd) then Some st
  else
    let entry := mk_bufferentry (cpu_to_be_w (opcode frame)) d (be_to_cpu_d (srcpt frame)) (srchw frame) in
    let buf := if decide (length (processbuffer st) < PROCESS_ENTRIES)%nat then processbuffer st ++ [entry] else processbuffer st in
    Some (mk_arp_st (caches st) (arpcache st) buf (psem st + 1)).

(** ** Lookup *)

(** A finished lookup, or the end of its time and the timeout it sleeps with. *)
Inductive lookup_t := Looked (e : Z) (m : mac_t) | Waiting (fin : timespec_t) (timeout : Z).

(** The head of the waiting loop. *)
Definition wait_more (time fin : timespec_t) : lookup_t :=
  let timeout := timespec_diffus time fin in
  if timeout =? 0 then Looked ENETUNREACH [] else Waiting fin timeout.

Section lookup.
Context {W : Type} `{!Driver W}.

(** Up to the first sleep; the clock is read twice. *)
Definition arp_lookup (nd : netdev_t) (d : nat) (ipaddr : Z) (time1 time2 : timespec_t) (st : arp_st) (w : W)
    : option (lookup_t * W) :=
  match get d ipaddr st with
  | Some m => Some (Looked 0 m, w)
  | None =>
      '(e, w) ← sendrequest nd ipaddr w;
      if negb (e =? 0) then Some (Looked e [], w)
      else Some (wait_more time2 (mk_timespec (s64 (ts_s time1 + LOOKUP_TIMEOUT_SEC)) (ts_ns time1)), w)
  end.
End lookup.

(** From one sleep to the next. *)
Definition arp_lookup_resume (d : nat) (ipaddr : Z) (fin : timespec_t) (timedout : bool) (time1 time2 : timespec_t) (st : arp_st)
    : lookup_t :=
  match get d ipaddr st with
  | Some m => Looked 0 m
  | None =>
      if timedout || (ts_s time1 >? ts_s fin) || (ts_s fin =? ts_s time1) && (ts_ns time1 >=? ts_ns fin)
      then Looked ENETUNREACH []
      else wait_more time2 fin
  end.

Definition arp_init : arp_st := mk_arp_st ∅ ∅ [] 0.

(** ** Frames read back *)

Record arpframe_ok (f : arpframe_t) : Prop := {
  af_hw : 0 <= hwtype f < 2 ^ 16; af_pt : 0 <= protocoltype f < 2 ^ 16; af_op : 0 <= opcode f < 2 ^ 16;
  af_shw : length (srchw f) = 6%nat; af_spt : 0 <= srcpt f < 2 ^ 32;
  af_dhw : length (dsthw f) = 6%nat; af_dpt : 0 <= dstpt f < 2 ^ 32
}.

Lemma arpframe_roundtrip f : arpframe_ok f -> arpframe_of (arpframe_bytes f) = Some f.
Proof.
  intros [H1 H2 H3 H4 H5 H6 H7]. destruct f as [ht pt hl pl op sh sp dh dp]. cbn [hwtype protocoltype opcode srchw srcpt dsthw dstpt] in *.
  do 6 (destruct sh as [|? sh]; [done|]). destruct sh; [|done]. do 6 (destruct dh as [|? dh]; [done|]). destruct dh; [|done].
  unfold arpframe_bytes, bytes16, bytes32. cbn [hwtype protocoltype hwlen ptlen opcode srchw srcpt dsthw dstpt app arpframe_of drop take].
  rewrite !word16_bytes, !word32_bytes by done. done.
Qed.

Lemma eth_arp (nd src : netdev_t) (target : mac_t) f :
  length (mac src) = 6%nat -> arpframe_ok f ->
  exists buffer, eth_process nd (ethframe_bytes (mk_eth NET_BROADCAST_MAC (mac src) (cpu_to_be_w ETH_PROTO_ARP)) ++ arpframe_bytes f) = Some (Arp_in buffer) /\
    arpframe_of buffer = Some f.
Proof.
  intros Hm F. unfold eth_process. rewrite ethframe_roundtrip by (done || apply bswap16_range). cbn [mbind option_bind destination etype].
  change (MAC_EQUAL NET_BROADCAST_MAC NET_BROADCAST_MAC) with true. rewrite orb_true_r. cbn [negb].
  change (be_to_cpu_w (cpu_to_be_w ETH_PROTO_ARP) =? ETH_PROTO_IP) with false.
  change (be_to_cpu_w (cpu_to_be_w ETH_PROTO_ARP) =? ETH_PROTO_ARP) with true. eexists. split; [done|]. by apply arpframe_roundtrip.
Qed.

(** A frame that passes the checks, and what is queued for it. *)
Definition accepted (nd : netdev_t) (f : arpframe_t) : bool :=
  (hwtype f =? cpu_to_be_w 1) && (protocoltype f =? cpu_to_be_w 0x800) && (hwlen f =? 6) && (ptlen f =? 4) &&
  negb ((be_to_cpu_w (opcode f) =? OPCODE_REPLY) && negb (MAC_EQUAL (dsthw f) (mac nd))) &&
  negb ((be_to_cpu_w (opcode f) =? OPCODE_REQUEST) && negb (be_to_cpu_d (dstpt f) =? ip nd)).

Definition queued_for (d : nat) (f : arpframe_t) : bufferentry_t :=
  mk_bufferentry (cpu_to_be_w (opcode f)) d (be_to_cpu_d (srcpt f)) (srchw f).

Lemma arp_process_eq d nd buffer st f :
  arpframe_of buffer = Some f -> (length (processbuffer st) < PROCESS_ENTRIES)%nat ->
  arp_process d nd buffer st =
    Some (if accepted nd f then mk_arp_st (caches st) (arpcache st) (processbuffer st ++ [queued_for d f]) (psem st + 1) else st).
Proof.
  intros E L. unfold arp_process, accepted. rewrite E. cbn [mbind option_bind]. rewrite decide_True by done.
  repeat (match goal with |- context [?b =? ?c] => destruct (b =? c) end; cbn [andb negb]; try done).
  all: destruct (MAC_EQUAL _ _); done.
Qed.

Lemma get_set mm d ipaddr m time st : list_ok mm = true -> entry_ok mm = true -> insert_ok mm = true -> get d ipaddr st = None ->
  get d ipaddr (set mm d ipaddr m time st) = Some m.
Proof.
  intros H1 H2 H3 G. unfold set. rewrite H1, H2, H3, andb_false_r.
  change (get d ipaddr (mk_arp_st _ _ _ _)) with (get d ipaddr st). rewrite G. cbn [negb]. unfold get, cache_of. cbn [arpcache with_arpcache].
  by rewrite lookup_insert_eq; cbn; rewrite lookup_insert_eq.
Qed.

(** ** Runs *)

(** A frame arrives on a device, the handler thread takes a turn, or the cleanup
    thread does. *)
Inductive arp_op :=
  | Arrives (d : nat) (buffer : list Z)
  | Handles (mm : set_memory) (time : timespec_t)
  | Cleans (time : timespec_t).

(** The replies that told an address: the device that was asked to hear them,
    the address and the hardware address. *)
Record arp_world := mk_world { arp : arp_st; lo : loopback_t; told : list (nat * Z * mac_t) }.

Definition reply_of (d : nat) (nd : netdev_t) (buffer : list Z) : list (nat * Z * mac_t) :=
  match arpframe_of buffer with
  | Some f => if (be_to_cpu_w (opcode f) =? OPCODE_REPLY) && MAC_EQUAL (dsthw f) (mac nd)
              then [(d, be_to_cpu_d (srcpt f), srchw f)] else []
  | None => []
  end.

Section runs.
Context (devs : list netdev_t).

Definition legal_arp (op : arp_op) (x : arp_world) : bool :=
  match op with
  | Arrives d buffer => bool_decide (is_Some (devs !! d)) && bool_decide (28 <= length buffer)%nat &&
                        bool_decide (length (processbuffer (arp x)) < PROCESS_ENTRIES)%nat
  | Handles _ _ => psem (arp x) >? 0
  | Cleans _ => true
  end.

Definition exec_arp (op : arp_op) (x : arp_world) : option arp_world :=
  match op with
  | Arrives d buffer => nd ← devs !! d; st ← arp_process d nd buffer (arp x); Some (mk_world st (lo x) (told x ++ reply_of d nd buffer))
  | Handles mm time => '(_, st, w) ← handler mm time devs (arp x) (lo x); Some (mk_world st w (told x))
  | Cleans time => Some (mk_world (cleanup time (arp x)) (lo x) (told x))
  end.

Fixpoint run_arp (ops : list arp_op) (x : arp_world) : option arp_world :=
  match ops with [] => Some x | op :: ops' => x' ← exec_arp op x; run_arp ops' x' end.

Fixpoint legal_run_arp (ops : list arp_op) (x : arp_world) : bool :=
  match ops with
  | [] => true
  | op :: ops' => legal_arp op x && match exec_arp op x with Some x' => legal_run_arp ops' x' | None => true end
  end.

(** The queue is what the semaphore counts, its entries are of known devices,
    the replies in it and the cache entries have been told. *)
Record arp_ok (x : arp_world) : Prop := {
  ao_count : psem (arp x) = Z.of_nat (length (processbuffer (arp x)));
  ao_known : forall e, e ∈ processbuffer (arp x) -> is_Some (devs !! bnetdev e);
  ao_replies : forall e, e ∈ processbuffer (arp x) -> bopcode e = OPCODE_REPLY -> (bnetdev e, bip e, bmac e) ∈ told x;
  ao_cache : forall d i m, get d i (arp x) = Some m -> (d, i, m) ∈ told x;
  ao_lo : lo_memory (lo x) = []
}.

Hypothesis carry : forall d nd, devs !! d = Some nd -> ARP_FRAME_SIZE <= mtu nd.

Lemma arpframe_of_long bs : (28 <= length bs)%nat -> is_Some (arpframe_of bs).
Proof. intros H. do 28 (destruct bs as [|? bs]; [cbn in H; lia|]). by eexists. Qed.

Lemma arrives_ok x d nd buffer f :
  arp_ok x -> devs !! d = Some nd -> arpframe_of buffer = Some f -> (length (processbuffer (arp x)) < PROCESS_ENTRIES)%nat ->
  exists st, arp_process d nd buffer (arp x) = Some st /\ arp_ok (mk_world st (lo x) (told x ++ reply_of d nd buffer)).
Proof.
  intros [A B C D E] Hd Hf Hl. rewrite (arp_process_eq d nd buffer (arp x) f Hf Hl). eexists. split; [done|].
  unfold reply_of. rewrite Hf. match goal with |- context [told x ++ ?l] => set (new := l) end.
  assert (Old : forall y, y ∈ told x -> y ∈ told x ++ new) by (intros; apply elem_of_app; auto).
  destruct (accepted nd f) eqn:Ac; split; cbn [arp lo told psem processbuffer]; try done; try (intros; apply Old; eauto; fail).
  - rewrite A, length_app. cbn. lia.
  - intros e He. apply elem_of_app in He as [He|He%list_elem_of_singleton]; [auto|subst e; by exists nd].
  - intros e He Ho. apply elem_of_app in He as [He|He%list_elem_of_singleton]; [auto|subst e].
    apply elem_of_app; right. unfold new, accepted in *. cbn [queued_for bopcode bnetdev bip bmac] in *.
    change (be_to_cpu_w (opcode f)) with (cpu_to_be_w (opcode f)) in *. rewrite Ho in *. rewrite Z.eqb_refl in *.
    destruct (MAC_EQUAL _ _); [by apply list_elem_of_singleton|]. cbn [andb negb] in Ac. rewrite andb_false_r in Ac. done.
Qed.

Lemma set_get_inv mm d i m time st d' i' m' :
  get d' i' (set mm d i m time st) = Some m' -> get d' i' st = Some m' \/ (d', i', m') = (d, i, m).
Proof.
  unfold set. destruct (_ && _); [auto|]. change (get d i (mk_arp_st _ _ _ _)) with (get d i st).
  destruct (get d i st) eqn:G; [auto|]. destruct (entry_ok mm); [|auto]. destruct (insert_ok mm); [|auto]. cbn [negb].
  unfold get, cache_of. cbn [arpcache with_arpcache]. destruct (decide (d' = d)) as [->|Nd].
  - rewrite lookup_insert_eq. cbn [from_option Datatypes.id]. destruct (decide (i' = i)) as [->|Ni].
    + rewrite lookup_insert_eq. cbn. intros [= <-]. auto.
    + rewrite lookup_insert_ne by done. auto.
  - rewrite lookup_insert_ne by done. auto.
Qed.

Lemma set_queue mm d i m time st : processbuffer (set mm d i m time st) = processbuffer st /\
  psem (set mm d i m time st) = psem st.
Proof. unfold set. repeat case_match; done. Qed.

Lemma cleanup_get time st d i m : get d i (cleanup time st) = Some m -> get d i st = Some m.
Proof.
  unfold get, cache_of. cbn [arpcache cleanup]. rewrite map_lookup_imap. destruct (arpcache st !! d) as [c|]; [|done]. cbn [mbind option_bind from_option Datatypes.id].
  case_decide; [|done]. destruct (filter _ c !! i) as [e|] eqn:F; [|done]. apply map_lookup_filter_Some in F as [F _]. by rewrite F.
Qed.

Lemma send_reply_ok nd i m fs : ARP_FRAME_SIZE <= mtu nd ->
  exists frame, send_reply nd i m (mk_loopback [] fs) = Some (mk_loopback [] (fs ++ [frame])).
Proof.
  intros H. unfold send_reply, send_frame. cbn [allocdesc loopback_driver]. unfold loopback_allocdesc, passert.
  rewrite (proj2 (Z.leb_le _ _)) by done. by eexists.
Qed.

Lemma handles_ok x mm time : arp_ok x -> (psem (arp x) >? 0) = true -> exists x', exec_arp (Handles mm time) x = Some x' /\ arp_ok x'.
Proof using carry.
  intros [A B C D E] Hp. cbn [exec_arp]. unfold handler, passert. rewrite Hp. cbn [mbind option_bind].
  destruct (processbuffer (arp x)) as [|e q] eqn:Q; [cbn in A; lia|]. cbn [length] in A.
  pose proof (fun y (H : y ∈ q) => list_elem_of_further y e q H) as Tl. pose proof (list_elem_of_here e q) as He.
  assert (Keep : forall st w, psem st = psem (arp x) - 1 -> processbuffer st = q -> lo_memory w = [] ->
      (forall d i m, get d i st = Some m -> (d, i, m) ∈ told x) -> arp_ok (mk_world st w (told x))).
  { intros st w H1 H2 H3 H4. split; cbn [arp lo told]; rewrite ?H1, ?H2; try done; [lia|auto|auto]. }
  destruct (Z.eqb_spec (bopcode e) OPCODE_REPLY) as [Er|Nr].
  - cbn [mbind option_bind]. eexists. split; [done|]. destruct (set_queue mm (bnetdev e) (bip e) (bmac e) time
      (mk_arp_st (caches (arp x)) (arpcache (arp x)) q (psem (arp x) - 1))) as [S1 S2].
    apply Keep; [by rewrite S2|by rewrite S1|done|]. intros d i m G. apply set_get_inv in G as [G|[= -> -> ->]]; [by apply D|by apply C].
  - destruct (bopcode e =? OPCODE_REQUEST); [|cbn [mbind option_bind]; eexists; split; [done|]; apply Keep; done].
    destruct (B e He) as [nd En]. rewrite En. cbn [mbind option_bind]. destruct (lo x) as [lm fs]. cbn [lo_memory] in E. subst lm.
    destruct (send_reply_ok nd (bip e) (bmac e) fs (carry _ _ En)) as [frame ->]. cbn [mbind option_bind]. eexists. split; [done|]. by apply Keep.
Qed.

Lemma run_arp_ok ops x : arp_ok x -> legal_run_arp ops x = true -> exists x', run_arp ops x = Some x' /\ arp_ok x'.
Proof using carry.
  revert x. induction ops as [|op ops IH]; intros x Ok L; [by exists x|]. cbn [legal_run_arp] in L. apply andb_prop in L as [L1 L2].
  assert (H : exists x1, exec_arp op x = Some x1 /\ arp_ok x1).
  { destruct op as [d buffer|mm time|time]; cbn [legal_arp] in L1.
    - apply andb_prop in L1 as [[L0 L1]%andb_prop Lq]. apply bool_decide_eq_true in L0, L1, Lq. destruct L0 as [nd En].
      destruct (arpframe_of_long buffer L1) as [f Ef]. destruct (arrives_ok x d nd buffer f Ok En Ef Lq) as (st & E & Ok').
      cbn [exec_arp]. rewrite En. cbn [mbind option_bind]. rewrite E. by eexists.
    - by apply handles_ok.
    - eexists. split; [done|]. destruct Ok as [A B C D E]. split; try done. intros d i m G. by apply D, (cleanup_get time). }
  destruct H as (x1 & E & Ok1). cbn [run_arp]. rewrite E in L2 |- *. by apply IH.
Qed.
End runs.

(** ** Claims *)

(** C25. The cache never invents an address: whatever frames arrive and however
    the threads take turns, while fewer than a thousand frames wait every step
    completes, the handler never looks at an empty queue, and every address in
    the cache was told by a reply addressed to the device that caches it. *)
Theorem arp_cache_told devs fs ops :
  (forall d nd, devs !! d = Some nd -> ARP_FRAME_SIZE <= mtu nd) ->
  legal_run_arp devs ops (mk_world arp_init (mk_loopback [] fs) []) = true ->
  exists x, run_arp devs ops (mk_world arp_init (mk_loopback [] fs) []) = Some x /\
    psem (arp x) = Z.of_nat (length (processbuffer (arp x))) /\
    forall d i m, get d i (arp x) = Some m -> (d, i, m) ∈ told x.
Proof.
  intros Hm L. destruct (run_arp_ok devs Hm ops (mk_world arp_init (mk_loopback [] fs) [])) as (x & R & Ok); [|done|].
  - split; cbn; try done; intros; set_solver.
  - exists x. split; [done|]. split; [exact (ao_count _ _ Ok)|exact (ao_cache _ _ Ok)].
Qed.

(** Two stations resolve each other: the request for an address reaches the
    station that has it, its handler answers, the answer is accepted by the
    station that asked, and the lookup that waits for it returns the hardware
    address of the station that was asked. *)
Theorem arp_resolves nda ndb ia ib sa sb devs mm time fin timedout t1 t2 :
  length (mac nda) = 6%nat -> length (mac ndb) = 6%nat -> 0 <= ip ndb < 2 ^ 32 -> ARP_FRAME_SIZE <= mtu nda -> ARP_FRAME_SIZE <= mtu ndb ->
  devs !! ib = Some ndb -> processbuffer sa = [] -> psem sa = 0 -> processbuffer sb = [] -> psem sb = 0 -> get ia (ip ndb) sa = None ->
  exists w1 req rb sb1 sb2 w2 rep ra sa1 sa2,
    sendrequest nda (ip ndb) (mk_loopback [] []) = Some (0, w1) /\ lo_frames w1 = [req] /\ eth_process ndb req = Some (Arp_in rb) /\
    arp_process ib ndb rb sb = Some sb1 /\ handler mm time devs sb1 (mk_loopback [] []) = Some (false, sb2, w2) /\
    lo_frames w2 = [rep] /\ eth_process nda rep = Some (Arp_in ra) /\ arp_process ia nda ra sa = Some sa1 /\
    handler (mk_set_memory true true true) time devs sa1 w2 = Some (true, sa2, w2) /\
    arp_lookup_resume ia (ip ndb) fin timedout t1 t2 sa2 = Looked 0 (mac ndb).
Proof.
  intros La Lb Hi Ma Mb Ed Qa Pa Qb Pb Gn.
  set (fq := mk_arp (cpu_to_be_w 1) (cpu_to_be_w 0x800) 6 4 (cpu_to_be_w OPCODE_REQUEST) (mac nda) 0 [0; 0; 0; 0; 0; 0] (cpu_to_be_d (ip ndb))).
  set (fr := mk_arp (cpu_to_be_w 1) (cpu_to_be_w 0x800) 6 4 (cpu_to_be_w OPCODE_REPLY) (mac ndb) (cpu_to_be_d (ip ndb)) (mac nda) (cpu_to_be_d 0)).
  destruct (eth_arp ndb nda NET_BROADCAST_MAC fq La) as (rb & Eb & Fb); [split; try done; apply bswap32_range|].
  destruct (eth_arp nda ndb (mac nda) fr Lb) as (ra & Ea & Fa); [split; try done; apply bswap32_range|].
  assert (Di : be_to_cpu_d (cpu_to_be_d (ip ndb)) = ip ndb) by (rewrite be_d; by apply Z.mod_small).
  pose proof (arp_process_eq ib ndb rb sb fq Fb) as Pq. pose proof (arp_process_eq ia nda ra sa fr Fa) as Pr.
  rewrite Qb in Pq. rewrite Qa in Pr. specialize (Pq ltac:(unfold PROCESS_ENTRIES; cbn; lia)). specialize (Pr ltac:(unfold PROCESS_ENTRIES; cbn; lia)).
  assert (Aq : accepted ndb fq = true) by (unfold accepted, fq; cbn [hwtype protocoltype hwlen ptlen opcode dsthw dstpt]; rewrite Di, !Z.eqb_refl; reflexivity).
  assert (Ar : accepted nda fr = true) by (unfold accepted, fr; cbn [hwtype protocoltype hwlen ptlen opcode dsthw dstpt]; unfold MAC_EQUAL; rewrite bool_decide_true by done; reflexivity).
  rewrite Aq, Pb in Pq. rewrite Ar, Pa in Pr. cbn [app] in Pq, Pr.
  eexists _, _, rb, _, _, _, _, ra, _, _.
  split; [unfold sendrequest, send_frame; cbn [allocdesc loopback_driver]; unfold loopback_allocdesc, passert; rewrite (proj2 (Z.leb_le _ _)) by done; reflexivity|].
  split; [reflexivity|]. split; [exact Eb|]. split; [exact Pq|].
  split. { unfold handler, passert. cbn [psem processbuffer Z.add Z.gtb Z.compare mbind option_bind queued_for bopcode bnetdev opcode fq].
    change (cpu_to_be_w (cpu_to_be_w OPCODE_REQUEST) =? OPCODE_REPLY) with false. change (cpu_to_be_w (cpu_to_be_w OPCODE_REQUEST) =? OPCODE_REQUEST) with true.
    cbn iota. rewrite Ed. cbn [mbind option_bind]. unfold send_reply, send_frame. cbn [allocdesc loopback_driver]. unfold loopback_allocdesc, passert. rewrite (proj2 (Z.leb_le _ _)) by done. reflexivity. }
  split; [reflexivity|]. split; [exact Ea|]. split; [exact Pr|].
  split. { unfold handler, passert. cbn [psem processbuffer Z.add Z.gtb Z.compare mbind option_bind queued_for bopcode bnetdev opcode fr].
    change (cpu_to_be_w (cpu_to_be_w OPCODE_REPLY) =? OPCODE_REPLY) with true. reflexivity. }
  unfold arp_lookup_resume. cbn [queued_for bnetdev bip bmac srcpt srchw fr]. rewrite Di, get_set; done.
Qed.

Definition station_a : netdev_t := mk_netdev [2; 0; 0; 0; 0; 1] 1500 0x0a000001 0.
Definition station_b : netdev_t := mk_netdev [2; 0; 0; 0; 0; 2] 1500 0x0a000002 0.
Definition sample_reply : list Z :=
  arpframe_bytes (mk_arp (cpu_to_be_w 1) (cpu_to_be_w 0x800) 6 4 (cpu_to_be_w OPCODE_REPLY) (mac station_b) (cpu_to_be_d (ip station_b)) (mac station_a) 0).

Lemma arp_cache_told_witness :
  exists x, run_arp [station_a] [Arrives 0 sample_reply; Handles (mk_set_memory true true true) (mk_timespec 5 0); Cleans (mk_timespec 9 0)]
    (mk_world arp_init (mk_loopback [] []) []) = Some x /\ get 0 0x0a000002 (arp x) = Some (mac station_b) /\ (0%nat, 0x0a000002, mac station_b) ∈ told x.
Proof.
  destruct (arp_cache_told [station_a] [] [Arrives 0 sample_reply; Handles (mk_set_memory true true true) (mk_timespec 5 0); Cleans (mk_timespec 9 0)])
    as (x & R & _ & T).
  - intros [|d] nd; [intros [= <-]; cbn; unfold ARP_FRAME_SIZE; lia|done].
  - vm_compute. reflexivity.
  - exists x. split; [exact R|]. assert (G : get 0 0x0a000002 (arp x) = Some (mac station_b)).
    { vm_compute in R. injection R as <-. vm_compute. reflexivity. }
    split; [exact G|]. exact (T _ _ _ G).
Defined.

Lemma arp_resolves_witness :
  exists sa2, arp_lookup_resume 0 0x0a000002 (mk_timespec 8 0) false (mk_timespec 4 0) (mk_timespec 4 0) sa2 = Looked 0 [2; 0; 0; 0; 0; 2].
Proof.
  destruct (arp_resolves station_a station_b 0 0 arp_init arp_init [station_b] (mk_set_memory false false false) (mk_timespec 3 0)
    (mk_timespec 8 0) false (mk_timespec 4 0) (mk_timespec 4 0)) as (? & ? & ? & ? & ? & ? & ? & ? & ? & sa2 & _ & _ & _ & _ & _ & _ & _ & _ & _ & E);
    try reflexivity; try (cbn; unfold ARP_FRAME_SIZE; lia). exists sa2. exact E.
Defined.
