(* ===== verification/Udp.v ===== *)
(** * UDP sockets ([io/net/udp.c], [include/kernel/sock.h])

    A socket queues datagrams in its ring buffer, each behind an eight byte
    header.  The sections under the socket's mutex are the steps of the calls;
    [udp_process] runs in a deferred call and is one step. *)

From S2P Require Import Prelude Errno Vnode Mem RingBuffer Iovec Poll Pipe Net.

Definition SOCKET_BUFFER : Z := 256 * 1024.
Definition ALLOC_RANGE_START : Z := 50000.
Definition ALLOC_RANGE_END : Z := 60000.

Definition SOCKET_STATE_UNBOUND : Z := 0.
Definition SOCKET_STATE_BOUND : Z := 1.
Definition SOCKET_STATE_CONNECTED : Z := 2.
Definition SOCKET_RECV_FLAGS_PEEK : Z := 0x8000000000000000.

(** ** Data *)

Record udpframe_t := mk_udpframe { usrcport : Z; udstport : Z; ulength : Z; uchecksum : Z }.

Definition UDP_FRAME_SIZE : Z := 8.

Definition udpframe_bytes (f : udpframe_t) : list Z :=
  bytes16 (usrcport f) ++ bytes16 (udstport f) ++ bytes16 (ulength f) ++ bytes16 (uchecksum f).

Definition udpframe_of (bs : list Z) : option (udpframe_t * list Z) :=
  match bs with
  | s0 :: s1 :: d0 :: d1 :: l0 :: l1 :: c0 :: c1 :: r =>
      Some (mk_udpframe (word16 s0 s1) (word16 d0 d1) (word16 l0 l1) (word16 c0 c1), r)
  | _ => None
  end.

Record dataheader_t := mk_dataheader { peer : Z; srcport : Z; dlength : Z }.

Definition DATAHEADER_SIZE : Z := 8.

Definition dataheader_bytes (h : dataheader_t) : list Z := bytes32 (peer h) ++ bytes16 (srcport h) ++ bytes16 (dlength h).

Definition dataheader_of (bs : list Z) : option dataheader_t :=
  match bs with
  | [p0; p1; p2; p3; s0; s1; l0; l1] => Some (mk_dataheader (word32 p0 p1 p2 p3) (word16 s0 s1) (word16 l0 l1))
  | _ => None
  end.

Record udpsocket_t := mk_udpsocket {
  state : Z;
  broadcast : Z;
  netdev : option nat;
  address : Z;
  port : Z;
  peeraddress : Z;
  peerport : Z;
  ringbuffer : ringbuffer_t
}.

Definition with_ringbuffer (v : ringbuffer_t) (s : udpsocket_t) : udpsocket_t :=
  mk_udpsocket (state s) (broadcast s) (netdev s) (address s) (port s) (peeraddress s) (peerport s) v.

(** [ports] and the sockets there are. *)
Record udp_st := mk_udp { ports : gmap Z nat; sockets : gmap nat udpsocket_t }.

(** A kernel buffer is its bytes at some kernel address. *)
Definition KBUFFER : Z := 0xffff800000000000.
Definition kmem (bs : list Z) : mem := list_to_map (zip (seqZ KBUFFER (Z.of_nat (length bs))) bs).

(** ** Ports *)

(** The search of [udp_allocport], [n] ports before the end of the range. *)
Fixpoint first_free (n : nat) (p : Z) (ps : gmap Z nat) : Z :=
  match n with
  | O => p
  | S n' => match ps !! p with None => p | Some _ => first_free n' (p + 1) ps end
  end.

(** The error, the port and the table. *)
Definition udp_allocport (sock : nat) (p : Z) (ps : gmap Z nat) : option (Z * Z * gmap Z nat) :=
  p ← (if p =? 0 then
         let p := first_free (Z.to_nat (ALLOC_RANGE_END - ALLOC_RANGE_START)) ALLOC_RANGE_START ps in
         passert (negb (p =? ALLOC_RANGE_END));; Some p
       else Some p);
  match ps !! p with
  | Some _ => Some (EADDRINUSE, p, ps)
  | None => Some (0, p, <[p := sock]> ps)
  end.

Definition udp_unallocport (p : Z) (ps : gmap Z nat) : option (gmap Z nat) :=
  passert (p >? 0);; Some (delete p ps).

(** ** Binding *)

(** [auth] is the answer of [auth_network_check] for a reserved port. *)
Definition udp_bind (auth : Z) (sock : nat) (addr p : Z) (u : udp_st) : option (Z * udp_st) :=
  if negb (p =? 0) && (p <? 1024) && negb (auth =? 0) then Some (auth, u)
  else
    s ← sockets u !! sock;
    if negb (state s =? SOCKET_STATE_UNBOUND) then Some (EINVAL, u)
    else
      '(e, p, ps) ← udp_allocport sock p (ports u);
      if negb (e =? 0) then Some (e, u)
      else Some (0, mk_udp ps (<[sock := mk_udpsocket SOCKET_STATE_BOUND (broadcast s) (netdev s) addr p
                                         (peeraddress s) (peerport s) (ringbuffer s)]> (sockets u))).

(** ** Receiving *)

(** The sockets to signal [POLLIN] are returned. *)
Definition udp_process (buffer : list Z) (from : Z) (u : udp_st) : option (udp_st * list nat) :=
  '(frame, writebuffer) ← udpframe_of buffer;
  match ports u !! be_to_cpu_w (udstport frame) with
  | None => Some (u, [])
  | Some sock =>
      s ← sockets u !! sock;
      let header := mk_dataheader from (be_to_cpu_w (usrcport frame)) ((be_to_cpu_w (ulength frame) - UDP_FRAME_SIZE) mod 2 ^ 16) in
      let needed := dlength header + DATAHEADER_SIZE in
      let freespace := u64 (SOCKET_BUFFER - RINGBUFFER_DATACOUNT (ringbuffer s)) in
      if freespace >=? needed then
        '(rb, n) ← ringbuffer_write (kmem (dataheader_bytes header)) (ringbuffer s) KBUFFER DATAHEADER_SIZE;
        passert (n =? DATAHEADER_SIZE);;
        '(rb, n) ← ringbuffer_write (kmem writebuffer) rb KBUFFER (dlength header);
        passert (n =? dlength header);;
        Some (mk_udp (ports u) (<[sock := with_ringbuffer rb s]> (sockets u)), [sock])
      else Some (u, [])
  end.

(** The events returned and whether the entry registers. *)
Definition udp_poll (data : bool) (events : Z) (s : udpsocket_t) : Z * option Z :=
  let revents := if has events POLLIN then (if RINGBUFFER_DATACOUNT (ringbuffer s) >? 0 then POLLIN else 0) else 0 in
  let revents := if has events POLLOUT then Z.lor revents POLLOUT else revents in
  (revents, if (revents =? 0) && data then Some events else None).

(** What a step of a receive returns: an error, or the byte count with the
    sender's address and port; or it sleeps, registered for [events]. *)
Inductive recv_t := Recv_error (e : Z) | Recv_done (count from p : Z) | Recv_sleep (events : option Z).

Definition udp_recv (desc_ok : bool) (m : mem) (it : iovec_iterator_t) (count flags : Z) (s : udpsocket_t)
    : option (recv_t * mem * iovec_iterator_t * udpsocket_t) :=
  if port s =? 0 then Some (Recv_error EINVAL, m, it, s)
  else if negb desc_ok then Some (Recv_error ENOMEM, m, it, s)
  else
    let '(revents, registered) := udp_poll true POLLIN s in
    if revents =? 0 then
      if has flags V_FFLAGS_NONBLOCKING then Some (Recv_error EAGAIN, m, it, s) else Some (Recv_sleep registered, m, it, s)
    else
      '(km, n) ← ringbuffer_peek (kmem (replicate 8 0)) (ringbuffer s) KBUFFER 0 DATAHEADER_SIZE;
      passert (n =? DATAHEADER_SIZE);;
      hbytes ← bytes_at km (seqZ KBUFFER DATAHEADER_SIZE);
      header ← dataheader_of hbytes;
      let copycount := cmin (dlength header) count in
      '(m, it, donecount) ← iovec_iterator_peek_from_ringbuffer m it (ringbuffer s) DATAHEADER_SIZE copycount;
      if donecount =? RINGBUFFER_USER_COPY_FAILED then Some (Recv_error EFAULT, m, it, s)
      else
        passert (donecount =? copycount);;
        let rb := if has flags SOCKET_RECV_FLAGS_PEEK then ringbuffer s
                  else (ringbuffer_truncate (ringbuffer s) (DATAHEADER_SIZE + dlength header)).1 in
        Some (Recv_done copycount (peer header) (srcport header), m, it, with_ringbuffer rb s).

(** ** Sending *)

Section send.
Context {W : Type} `{!Driver W}.
Context (table : list routingentry_t) (arp_lookup : nat -> Z -> W -> option (Z * mac_t * W)).

(** [alloc_ok] says whether the packet buffer could be allocated. *)
Definition udp_sendpacket (alloc_ok : bool) (m : mem) (it : iovec_iterator_t) (size ipaddr sport dport : Z)
    (broadcastdev : option nat) (devs : list netdev_t) (w : W) : option (Z * list netdev_t * W) :=
  if negb alloc_ok then Some (ENOMEM, devs, w)
  else
    let frame := mk_udpframe (cpu_to_be_w sport) (cpu_to_be_w dport) (cpu_to_be_w (size + UDP_FRAME_SIZE)) 0 in
    '(_, payload, error) ← iovec_iterator_copy_to_buffer m it size;
    if negb (error =? 0) then Some (error, devs, w)
    else
      passert (bool_decide (length payload <= Z.to_nat size)%nat);;
      let newbuff := udpframe_bytes frame ++ payload ++ replicate (Z.to_nat size - length payload) 0 in
      ipv4_sendpacket table arp_lookup devs newbuff ipaddr IPV4_PROTO_UDP broadcastdev w.

(** [dest] is the address and port of the descriptor, when it has one. *)
Definition udp_send (alloc_ok : bool) (m : mem) (it : iovec_iterator_t) (count : Z) (dest : option (Z * Z))
    (sock : nat) (u : udp_st) (devs : list netdev_t) (w : W) : option (Z * udp_st * list netdev_t * W) :=
  s ← sockets u !! sock;
  if bool_decide (dest = None) && negb (state s =? SOCKET_STATE_CONNECTED) then Some (ENOTCONN, u, devs, w)
  else
    let to := match dest with Some (a, _) => a | None => peeraddress s end in
    if (to =? IPV4_BROADCAST_ADDRESS) && ((broadcast s =? 0) || bool_decide (netdev s = None)) then Some (EACCES, u, devs, w)
    else
      '(s, u) ←
        (if state s =? SOCKET_STATE_UNBOUND then
           '(_, p, ps) ← udp_allocport sock 0 (ports u);
           let s := mk_udpsocket SOCKET_STATE_BOUND (broadcast s) (netdev s) 0 p (peeraddress s) (peerport s) (ringbuffer s) in
           Some (s, mk_udp ps (<[sock := s]> (sockets u)))
         else Some (s, u));
      '(e, devs, w) ← udp_sendpacket alloc_ok m it count to (port s)
                        (match dest with Some (_, p) => p | None => peerport s end) (netdev s) devs w;
      Some (e, u, devs, w).
End send.

(** ** Creation, names, destruction *)

Definition udp_createsocket (alloc_ok : bool) (vmm_map : Z -> option (Z * list Z)) : option udpsocket_t :=
  if negb alloc_ok then None
  else match ringbuffer_init vmm_map SOCKET_BUFFER with
       | inl _ => None
       | inr rb => Some (mk_udpsocket SOCKET_STATE_UNBOUND 0 None 0 0 0 0 rb)
       end.

Definition udp_getname (s : udpsocket_t) : Z * Z := (address s, port s).
Definition udp_getpeername (s : udpsocket_t) : Z * Z := (peeraddress s, peerport s).

(** Once the packets being processed are done. *)
Definition udp_destroy (sock : nat) (u : udp_st) : option udp_st :=
  s ← sockets u !! sock;
  ps ← (if negb (port s =? 0) then udp_unallocport (port s) (ports u) else Some (ports u));
  Some (mk_udp ps (delete sock (sockets u))).

(** ** Kernel buffers and the socket's ring *)

Lemma kmem_holds bs : holds (kmem bs) KBUFFER bs.
Proof.
  intros i b Hi. unfold kmem. pose proof (lookup_lt_Some _ _ _ Hi) as L. apply elem_of_list_to_map_1.
  - rewrite fst_zip by (rewrite length_seqZ; lia). apply NoDup_seqZ.
  - apply list_elem_of_lookup. exists i. apply lookup_zip_Some. split; [|done]. apply lookup_seqZ. lia.
Qed.

Definition uring_ok (rb : ringbuffer_t) : Prop := rb_wf rb /\ size rb = SOCKET_BUFFER.

Lemma socket_buffer_divides : (SOCKET_BUFFER | 2 ^ 64).
Proof. exists (2 ^ 46). reflexivity. Qed.

Lemma uring_room rb : uring_ok rb ->
  RINGBUFFER_DATACOUNT rb = Z.of_nat (length (contents rb)) /\ 0 <= RINGBUFFER_DATACOUNT rb <= SOCKET_BUFFER /\
  u64 (SOCKET_BUFFER - RINGBUFFER_DATACOUNT rb) = SOCKET_BUFFER - Z.of_nat (length (contents rb)) /\
  RINGBUFFER_FREESPACE rb = SOCKET_BUFFER - Z.of_nat (length (contents rb)).
Proof.
  intros [W S]. rewrite length_contents, freespace_eq, S by done. pose proof (datacount_nonneg rb). pose proof (wf_count rb W).
  rewrite u64_id by (unfold is_u64, SOCKET_BUFFER in *; lia). rewrite S in *. lia.
Qed.

(** Queueing the front of a kernel buffer that fits. *)
Lemma kwrite_ok rb bs extra :
  uring_ok rb -> Z.of_nat (length (contents rb) + length bs) <= SOCKET_BUFFER ->
  exists rb', ringbuffer_write (kmem (bs ++ extra)) rb KBUFFER (Z.of_nat (length bs)) = Some (rb', Z.of_nat (length bs)) /\
    uring_ok rb' /\ contents rb' = contents rb ++ bs.
Proof.
  intros [W S] Hl. unfold SOCKET_BUFFER in *.
  destruct (write_ok (kmem (bs ++ extra)) rb KBUFFER bs W) as (rb' & E & W' & C').
  - unfold KBUFFER. lia.
  - lia.
  - unfold KBUFFER. lia.
  - pose proof (holds_take _ _ _ (length bs) (kmem_holds (bs ++ extra))) as H. by rewrite take_app_length in H.
  - left. rewrite S. exact socket_buffer_divides.
  - rewrite S in *. replace (Z.min (Z.of_nat (length bs)) (256 * 1024 - Z.of_nat (length (contents rb)))) with (Z.of_nat (length bs)) in * by lia.
    exists rb'. rewrite take_ge in C' by lia. split; [done|]. split; [|done]. split; [done|]. rewrite (write_keeps _ _ _ _ _ _ E). done.
Qed.

(** Looking at the bytes behind an offset, into the front of one buffer. *)
Lemma single_peek m c rb off count :
  uring_ok rb -> buffer_ok c -> 0 <= count <= len c -> count <= Z.of_nat (length (contents rb)) - off ->
  0 <= off < 2 ^ 63 -> mapped m (addr c) (Z.to_nat count) ->
  exists m' it', iovec_iterator_peek_from_ringbuffer m (single c 0) rb off count = Some (m', it', count) /\
    holds m' (addr c) (slice (contents rb) (Z.to_nat (Z.min off (SOCKET_BUFFER - Z.of_nat (length (contents rb))))) (Z.to_nat count)) /\
    (forall x, ~ (addr c <= x < addr c + count) -> m' !! x = m !! x).
Proof.
  intros R B Hc Hn Ho Hm. pose proof R as [W Sz]. pose proof B as (A & L & U). destruct (single_wf c 0 B ltac:(lia)) as [Wi Ri].
  destruct (uring_room rb R) as (Dc & Dr & _ & Fs). unfold USERSPACE_END, SOCKET_BUFFER in *.
  unfold iovec_iterator_peek_from_ringbuffer. rewrite (remaining_total_ok _ _ Wi) by lia.
  rewrite Ri, length_seqZ. replace (Z.min count (Z.of_nat (Z.to_nat (len c - 0)))) with count by lia.
  change (length (iovec (single c 0))) with 1%nat. cbn [peek_ring_loop]. rewrite single_piece by (done || lia). cbn [mbind option_bind].
  replace (Z.min (len c - 0) count) with count by lia. rewrite !Z.add_0_r, (u64_z off) by lia.
  destruct (peek_at m rb (addr c) off count W) as (m' & E & Hh & Fr); [lia|lia|lia|lia|by replace (Z.max 0 (Z.min count (Z.of_nat (length (contents rb)) - off))) with count by lia|].
  replace (Z.max 0 (Z.min count (Z.of_nat (length (contents rb)) - off))) with count in E, Hh, Fr by lia.
  rewrite Fs in Hh. rewrite E. cbn [mbind option_bind]. rewrite !read_result_not_failed by lia. rewrite orb_false_r.
  destruct (Z.eqb_spec count 0) as [->|Nz].
  - cbn [mbind option_bind]. rewrite read_result_not_failed by lia. eauto 10.
  - destruct (single_skip c 0 count B) as (r & ->); [lia..|]. cbn [mbind option_bind]. rewrite (u64_z (0 + count)) by lia.
    rewrite !Z.add_0_l, Z.eqb_refl. cbn [orb mbind option_bind]. rewrite read_result_not_failed by lia. eauto 10.
Qed.

(** ** The queue of datagrams *)

Record dgram_t := mk_dgram { from : Z; fromport : Z; payload : list Z }.

Definition dgram_ok (d : dgram_t) : Prop :=
  0 <= from d < 2 ^ 32 /\ 0 <= fromport d < 2 ^ 16 /\ Z.of_nat (length (payload d)) < 2 ^ 16.

Definition dgram_header (d : dgram_t) : dataheader_t := mk_dataheader (from d) (fromport d) (Z.of_nat (length (payload d))).
Definition dgram_bytes (d : dgram_t) : list Z := dataheader_bytes (dgram_header d) ++ payload d.

Record queue_ok (s : udpsocket_t) (q : list dgram_t) : Prop := {
  qo_ring : uring_ok (ringbuffer s);
  qo_contents : contents (ringbuffer s) = concat (dgram_bytes <$> q);
  qo_dgrams : Forall dgram_ok q
}.

Lemma dataheader_roundtrip d : dgram_ok d -> dataheader_of (dataheader_bytes (dgram_header d)) = Some (dgram_header d).
Proof.
  intros (H1 & H2 & H3). unfold dataheader_bytes, dgram_header, bytes32, bytes16. cbn [peer srcport dlength app dataheader_of].
  rewrite word32_bytes, !word16_bytes by lia. done.
Qed.

Lemma length_dgram_bytes d : length (dgram_bytes d) = (8 + length (payload d))%nat.
Proof. done. Qed.

(** A ring just mapped. *)
Definition fresh_ring (b : Z) : ringbuffer_t := mk_ringbuffer SOCKET_BUFFER 0 0 b (replicate (Z.to_nat (ROUND_UP SOCKET_BUFFER PAGE_SIZE)) 0).

Lemma fresh_queue s b : USERSPACE_END <= b -> b + SOCKET_BUFFER < 2 ^ 64 -> ringbuffer s = fresh_ring b -> queue_ok s [].
Proof.
  intros B1 B2 E. unfold fresh_ring in E. set (d := replicate _ _) in E. assert (Ld : Z.of_nat (length d) = SOCKET_BUFFER).
  { unfold d. rewrite length_replicate, Z2Nat.id; [reflexivity|vm_compute; discriminate]. }
  clearbody d. split; rewrite ?E; [|reflexivity|constructor]. split; [|reflexivity].
  split; cbn [size write read RingBuffer.base RingBuffer.data]; unfold is_u64, SOCKET_BUFFER in *; try lia.
  vm_compute. discriminate.
Qed.

(** Taking the front of a concatenation of datagrams. *)
Lemma queue_front s d q :
  queue_ok s (d :: q) ->
  take 8 (contents (ringbuffer s)) = dataheader_bytes (dgram_header d) /\
  slice (contents (ringbuffer s)) 8 (length (payload d)) = payload d /\
  drop (8 + length (payload d)) (contents (ringbuffer s)) = concat (dgram_bytes <$> q) /\
  (8 + length (payload d) <= length (contents (ringbuffer s)))%nat.
Proof.
  intros [R C F]. rewrite C. cbn [fmap list_fmap concat]. unfold dgram_bytes at 1 4 7. rewrite <- !app_assoc.
  split; [done|]. split; [|split].
  - unfold slice. change (drop 8 (dataheader_bytes (dgram_header d) ++ payload d ++ concat (list_fmap _ _ dgram_bytes q)))
      with (payload d ++ concat (dgram_bytes <$> q)). apply take_app_length.
  - rewrite <- drop_drop. change (drop 8 (dataheader_bytes (dgram_header d) ++ payload d ++ concat (list_fmap _ _ dgram_bytes q)))
      with (payload d ++ concat (dgram_bytes <$> q)). apply drop_app_length.
  - cbn. rewrite length_app. lia.
Qed.

(** A packet whose header announces no more bytes than follow it, for a bound
    port: they join the socket's queue, with the sender's address and port, when
    there is room for them and a header; otherwise nothing changes. *)
Lemma process_frame u packet f sock s q d extra :
  udpframe_of packet = Some (f, payload d ++ extra) -> be_to_cpu_w (usrcport f) = fromport d ->
  (be_to_cpu_w (ulength f) - UDP_FRAME_SIZE) mod 2 ^ 16 = Z.of_nat (length (payload d)) ->
  ports u !! be_to_cpu_w (udstport f) = Some sock -> sockets u !! sock = Some s -> queue_ok s q -> dgram_ok d ->
  if Z.of_nat (length (contents (ringbuffer s)) + length (dgram_bytes d)) <=? SOCKET_BUFFER
  then exists rb, udp_process packet (from d) u = Some (mk_udp (ports u) (<[sock := with_ringbuffer rb s]> (sockets u)), [sock]) /\
         queue_ok (with_ringbuffer rb s) (q ++ [d])
  else udp_process packet (from d) u = Some (u, []).
Proof.
  intros Fr Hs Hn Ep Es [R C F] Dk. unfold udp_process. rewrite Fr. cbn [mbind option_bind]. rewrite Ep, Es. cbn [mbind option_bind].
  rewrite Hs, Hn. change (mk_dataheader (from d) (fromport d) (Z.of_nat (length (payload d)))) with (dgram_header d).
  destruct (uring_room _ R) as (Dc & Dr & Fs & _). rewrite Fs. cbn [dlength dgram_header]. unfold DATAHEADER_SIZE.
  rewrite Z.geb_leb, length_dgram_bytes.
  destruct (Z.leb_spec (Z.of_nat (length (contents (ringbuffer s)) + (8 + length (payload d)))) SOCKET_BUFFER) as [Fit|Fit].
  - rewrite (proj2 (Z.leb_le _ _)) by lia.
    destruct (kwrite_ok (ringbuffer s) (dataheader_bytes (dgram_header d)) [] R) as (rb1 & E1 & R1 & C1); [cbn [length dataheader_bytes bytes16 bytes32 app]; lia|].
    rewrite app_nil_r in E1. change (Z.of_nat (length (dataheader_bytes (dgram_header d)))) with 8 in E1. rewrite E1. cbn [mbind option_bind].
    unfold passert. rewrite Z.eqb_refl. cbn [mbind option_bind].
    destruct (kwrite_ok rb1 (payload d) extra R1) as (rb2 & E2 & R2 & C2).
    { rewrite C1, length_app. change (length (dataheader_bytes (dgram_header d))) with 8%nat. lia. }
    rewrite E2. cbn [mbind option_bind]. rewrite Z.eqb_refl. cbn [mbind option_bind]. exists rb2. split; [done|]. split; [done| |].
    + cbn [ringbuffer with_ringbuffer]. rewrite C2, C1, C, fmap_app, concat_app. cbn [fmap list_fmap concat]. by rewrite app_nil_r, <- app_assoc.
    + apply Forall_app. auto.
  - rewrite (proj2 (Z.leb_gt _ _)) by lia. done.
Qed.

(** A header that announces more bytes than follow it, when the ring has room
    for what it announces: the copy runs past the end of the packet. *)
Lemma process_overrun u packet f bytes sock s q src :
  udpframe_of packet = Some (f, bytes) -> ports u !! be_to_cpu_w (udstport f) = Some sock -> sockets u !! sock = Some s -> queue_ok s q ->
  let n := (be_to_cpu_w (ulength f) - UDP_FRAME_SIZE) mod 2 ^ 16 in
  Z.of_nat (length bytes) < n -> Z.of_nat (length (contents (ringbuffer s)) + 8) + n <= SOCKET_BUFFER ->
  udp_process packet src u = None.
Proof.
  intros Fr Ep Es [R C F] n Hn Fit. unfold udp_process. rewrite Fr. cbn [mbind option_bind]. rewrite Ep, Es. cbn [mbind option_bind].
  fold n. destruct (uring_room _ R) as (Dc & Dr & Fs & _). rewrite Fs. cbn [dlength]. unfold DATAHEADER_SIZE.
  rewrite Z.geb_leb, (proj2 (Z.leb_le _ _)) by lia. set (h := mk_dataheader _ _ _).
  destruct (kwrite_ok (ringbuffer s) (dataheader_bytes h) [] R) as (rb1 & E1 & R1 & C1); [cbn [length dataheader_bytes bytes16 bytes32 app]; lia|].
  rewrite app_nil_r in E1. change (Z.of_nat (length (dataheader_bytes h))) with 8 in E1. rewrite E1. cbn [mbind option_bind].
  unfold passert. rewrite Z.eqb_refl. cbn [mbind option_bind]. apply (f_equal length) in C1. rewrite length_app in C1.
  change (length (dataheader_bytes h)) with 8%nat in C1. destruct R1 as [W1 S1]. unfold SOCKET_BUFFER in *.
  rewrite write_fault_kernel; [done|done|unfold KBUFFER, USERSPACE_END; lia|lia|unfold KBUFFER; lia|].
  intros M. destruct (M (length bytes)) as [b Hb]; [lia|]. unfold kmem in Hb. apply elem_of_list_to_map_2, elem_of_zip_l, elem_of_seqZ in Hb. lia.
Qed.

(** What a receive copies of the first of the datagrams queued: its bytes;
    but with less room left in the ring than a header takes, the copy starts
    inside the header (the offset is cut to the free space of the ring). *)
Definition copied (q : list dgram_t) (n : nat) : list Z :=
  let room := SOCKET_BUFFER - Z.of_nat (length (concat (dgram_bytes <$> q))) in
  match q with
  | [] => []
  | d :: _ => if DATAHEADER_SIZE <=? room then take n (payload d) else slice (dgram_bytes d) (Z.to_nat room) n
  end.

Lemma copied_front s d q n : queue_ok s (d :: q) -> (n <= length (payload d))%nat ->
  slice (contents (ringbuffer s)) (Z.to_nat (Z.min 8 (SOCKET_BUFFER - Z.of_nat (length (contents (ringbuffer s)))))) n = copied (d :: q) n.
Proof.
  intros [R C F] Hn. destruct (uring_room _ R) as (Dc & Dr & _ & _). unfold copied, DATAHEADER_SIZE. rewrite <- C.
  set (room := SOCKET_BUFFER - _). assert (Hr : 0 <= room) by lia. rewrite C. cbn [fmap list_fmap concat]. unfold slice.
  rewrite drop_app_le by (rewrite length_dgram_bytes; lia). rewrite take_app_le by (rewrite length_drop, length_dgram_bytes; lia).
  destruct (Z.leb_spec 8 room); [by rewrite Z.min_l by lia|by rewrite Z.min_r by lia].
Qed.

(** A receive on a bound socket returns the oldest datagram: its bytes, cut
    to the buffer, its sender's address and port, and takes it off the queue
    unless it only looks. *)
Lemma udp_recv_next m c flags s d q :
  queue_ok s (d :: q) -> port s <> 0 -> buffer_ok c -> mapped m (addr c) (Z.to_nat (len c)) ->
  let n := Z.min (Z.of_nat (length (payload d))) (len c) in
  exists m' it' rb, udp_recv true m (single c 0) (len c) flags s = Some (Recv_done n (from d) (fromport d), m', it', with_ringbuffer rb s) /\
    holds m' (addr c) (copied (d :: q) (Z.to_nat n)) /\ (forall x, ~ (addr c <= x < addr c + n) -> m' !! x = m !! x) /\
    queue_ok (with_ringbuffer rb s) (if has flags SOCKET_RECV_FLAGS_PEEK then d :: q else q).
Proof.
  intros Q Np B Hm n. pose proof Q as [R C F]. apply Forall_cons in F as [Dk F]. pose proof B as (A & L & _).
  destruct (queue_front _ _ _ Q) as (Q1 & Q2 & Q3 & Q4). destruct (uring_room _ R) as (Dc & Dr & _ & Fs).
  unfold udp_recv. apply Z.eqb_neq in Np as ->. cbn [negb]. unfold udp_poll. change (has POLLIN POLLIN) with true. change (has POLLIN POLLOUT) with false.
  destruct (RINGBUFFER_DATACOUNT (ringbuffer s) >? 0) eqn:G; [|lia]. change (POLLIN =? 0) with false. cbn [andb negb].
  unfold DATAHEADER_SIZE, SOCKET_BUFFER in *. pose proof R as [W Sz].
  destruct (peek_ok (kmem (replicate 8 0)) (ringbuffer s) KBUFFER 0 8 W) as (km & E & Hh & _).
  { unfold KBUFFER. lia. } { lia. } { unfold KBUFFER. lia. } { lia. }
  { replace (Z.to_nat (Z.max 0 (Z.min 8 (Z.of_nat (length (contents (ringbuffer s))) - 0)))) with (length (replicate 8 0%Z)) by (cbn; lia).
    apply holds_mapped, kmem_holds. }
  replace (Z.max 0 (Z.min 8 (Z.of_nat (length (contents (ringbuffer s))) - 0))) with 8 in E, Hh by lia.
  rewrite E. cbn [mbind option_bind]. unfold passert. cbn [Z.eqb Pos.eqb mbind option_bind].
  change (slice (contents (ringbuffer s)) (Z.to_nat 0) (Z.to_nat 8)) with (take 8 (contents (ringbuffer s))) in Hh. rewrite Q1 in Hh.
  apply holds_bytes_at in Hh. change (Z.of_nat (length (dataheader_bytes (dgram_header d)))) with 8 in Hh. rewrite Hh. cbn [mbind option_bind].
  rewrite (dataheader_roundtrip d Dk). cbn [mbind option_bind dlength peer srcport dgram_header].
  destruct Dk as (_ & _ & Lp). rewrite cmin_z by lia. fold n.
  destruct (single_peek m c (ringbuffer s) 8 n R B) as (m' & it' & E2 & Hh2 & Fr2); [lia|lia|lia| |].
  { intros i Hi. apply Hm. lia. }
  rewrite E2. cbn [mbind option_bind]. rewrite read_result_not_failed, Z.eqb_refl by lia. cbn [mbind option_bind].
  exists m', it'. eexists. split; [done|]. split; [|split; [done|]].
  - rewrite <- (copied_front s d q) by (done || lia). exact Hh2.
  - destruct (has flags SOCKET_RECV_FLAGS_PEEK); [by destruct s|].
    destruct (trim_ok (ringbuffer s) (8 + Z.of_nat (length (payload d))) W ltac:(lia)) as [T _].
    unfold ringbuffer_truncate in T |- *. cbn [fst] in T |- *. destruct T as (W2 & _ & C2). split; cbn [ringbuffer with_ringbuffer]; [by split| |done].
    rewrite C2. rewrite <- Q3. f_equal. lia.
Qed.

(** ** Sockets as queues *)

(** What the network sees of a socket: its port, zero while it has none, and
    the datagrams waiting in it. *)
Record usock_t := mk_usock { uport : Z; uqueue : list dgram_t }.

Record udp_rel (u : udp_st) (a : gmap nat usock_t) : Prop := {
  ur_dom : forall k, is_Some (sockets u !! k) <-> is_Some (a !! k);
  ur_port : forall k s x, sockets u !! k = Some s -> a !! k = Some x -> port s = uport x;
  ur_queue : forall k s x, sockets u !! k = Some s -> a !! k = Some x -> queue_ok s (uqueue x);
  ur_state : forall k s, sockets u !! k = Some s -> (state s = SOCKET_STATE_UNBOUND <-> port s = 0);
  ur_ports : forall p k, ports u !! p = Some k <-> (p <> 0 /\ exists x, a !! k = Some x /\ uport x = p);
  ur_range : forall k x, a !! k = Some x -> 0 <= uport x < 2 ^ 16
}.

Definition taken (a : gmap nat usock_t) (p : Z) : Prop := exists k x, a !! k = Some x /\ uport x = p.

(** There is room behind the datagrams of [q] for one of [n] bytes. *)
Definition fits (q : list dgram_t) (n : Z) : bool :=
  Z.of_nat (length (concat (dgram_bytes <$> q))) + DATAHEADER_SIZE + n <=? SOCKET_BUFFER.

(** A packet on the wire: the port it is for, the byte count its header
    announces and the datagram made of the bytes that follow the header. *)
Definition incoming (packet : list Z) (src : Z) : option (Z * Z * dgram_t) :=
  match packet with
  | s0 :: s1 :: d0 :: d1 :: l0 :: l1 :: _ :: _ :: bytes =>
      Some (256 * d0 + d1, (256 * l0 + l1 - 8) mod 2 ^ 16, mk_dgram src (256 * s0 + s1) bytes)
  | _ => None
  end.

(** The announced bytes reach the socket of the port if it has room. *)
Definition delivered (dport n : Z) (d : dgram_t) (x : usock_t) : usock_t :=
  if bool_decide (uport x = dport) && negb (dport =? 0) && fits (uqueue x) n
  then mk_usock (uport x) (uqueue x ++ [mk_dgram (from d) (fromport d) (take (Z.to_nat n) (payload d))]) else x.

(** What a socket sees of a call. *)
Inductive udp_op :=
  | Creates (k : nat) (base : Z)
  | Binds (k : nat) (auth addr p : Z)
  | Delivers (packet : list Z) (src : Z)
  | Receives (k : nat) (m : mem) (c : iovec_t) (flags : Z)
  | Destroys (k : nat).

(** A receive also leaves the caller's memory. *)
Inductive udp_out := Out_int (e : Z) | Out_recv (r : recv_t) (m : mem).

Definition exec_udp (op : udp_op) (u : udp_st) : option (udp_out * udp_st) :=
  match op with
  | Creates k base =>
      s ← udp_createsocket true (fun sz => Some (base, replicate (Z.to_nat sz) 0));
      Some (Out_int 0, mk_udp (ports u) (<[k := s]> (sockets u)))
  | Binds k auth addr p => '(e, u) ← udp_bind auth k addr p u; Some (Out_int e, u)
  | Delivers packet src => '(u, _) ← udp_process packet src u; Some (Out_int 0, u)
  | Receives k m c flags =>
      s ← sockets u !! k;
      '(r, m, _, s) ← udp_recv true m (single c 0) (len c) flags s;
      Some (Out_recv r m, mk_udp (ports u) (<[k := s]> (sockets u)))
  | Destroys k => u ← udp_destroy k u; Some (Out_int 0, u)
  end.

Definition spec_udp (op : udp_op) (a : gmap nat usock_t) (out : udp_out) (a' : gmap nat usock_t) : Prop :=
  match op with
  | Creates k _ => out = Out_int 0 /\ a' = <[k := mk_usock 0 []]> a
  | Binds k auth _ p =>
      if negb (p =? 0) && (p <? 1024) && negb (auth =? 0) then out = Out_int auth /\ a' = a
      else exists x, a !! k = Some x /\
        ((uport x <> 0 /\ out = Out_int EINVAL /\ a' = a) \/
         (uport x = 0 /\ p <> 0 /\ taken a p /\ out = Out_int EADDRINUSE /\ a' = a) \/
         (uport x = 0 /\ out = Out_int 0 /\ exists p', p' <> 0 /\ ~ taken a p' /\ (p <> 0 -> p' = p) /\
            (p = 0 -> ALLOC_RANGE_START <= p' < ALLOC_RANGE_END) /\ a' = <[k := mk_usock p' (uqueue x)]> a))
  | Delivers packet src =>
      exists dport n d, incoming packet src = Some (dport, n, d) /\ out = Out_int 0 /\ a' = delivered dport n d <$> a
  | Receives k m c flags =>
      exists x, a !! k = Some x /\
        if uport x =? 0 then out = Out_recv (Recv_error EINVAL) m /\ a' = a
        else match uqueue x with
             | [] => out = Out_recv (if has flags V_FFLAGS_NONBLOCKING then Recv_error EAGAIN else Recv_sleep (Some POLLIN)) m /\ a' = a
             | d :: q =>
                 let n := Z.min (Z.of_nat (length (payload d))) (len c) in
                 (exists m', out = Out_recv (Recv_done n (from d) (fromport d)) m' /\
                    holds m' (addr c) (copied (d :: q) (Z.to_nat n)) /\ (forall y, ~ (addr c <= y < addr c + n) -> m' !! y = m !! y)) /\
                 a' = <[k := mk_usock (uport x) (if has flags SOCKET_RECV_FLAGS_PEEK then d :: q else q)]> a
             end
  | Destroys k => out = Out_int 0 /\ a' = delete k a
  end.

(** The calls that do not survive: binding when every port of the range is
    taken fails an assertion; a packet too short for its header, or one that
    announces more bytes than it has to a socket with room for them, makes
    [udp_process] read past its end. *)
Definition goes_wrong (op : udp_op) (a : gmap nat usock_t) : Prop :=
  match op with
  | Binds k _ _ p =>
      p = 0 /\ (exists x, a !! k = Some x /\ uport x = 0) /\ (forall f, ALLOC_RANGE_START <= f < ALLOC_RANGE_END -> taken a f)
  | Delivers packet src =>
      match incoming packet src with
      | None => True
      | Some (dport, n, d) =>
          Z.of_nat (length (payload d)) < n /\ dport <> 0 /\ exists k x, a !! k = Some x /\ uport x = dport /\ fits (uqueue x) n = true
      end
  | _ => False
  end.

(** New names are unused, ports and addresses have their widths, packets are
    bytes and the buffers of a receive are mapped. *)
Definition legal_udp (op : udp_op) (u : udp_st) : Prop :=
  match op with
  | Creates k base => sockets u !! k = None /\ USERSPACE_END <= base /\ base + SOCKET_BUFFER < 2 ^ 64
  | Binds k _ _ p => is_Some (sockets u !! k) /\ 0 <= p < 2 ^ 16
  | Delivers packet src => Forall is_byte packet /\ 0 <= src < 2 ^ 32
  | Receives k m c _ => is_Some (sockets u !! k) /\ buffer_ok c /\ mapped m (addr c) (Z.to_nat (len c))
  | Destroys k => is_Some (sockets u !! k)
  end.

Lemma first_free_cases n p ps :
  (p <= first_free n p ps < p + Z.of_nat n /\ ps !! first_free n p ps = None) \/
  (first_free n p ps = p + Z.of_nat n /\ forall f, p <= f < p + Z.of_nat n -> is_Some (ps !! f)).
Proof.
  revert p. induction n as [|n IH]; intros p; [right; cbn; split; [lia|intros; lia]|]. cbn [first_free].
  destruct (ps !! p) eqn:E; [|left; split; [lia|done]]. destruct (IH (p + 1)) as [[H1 H2]|[H1 H2]]; [left; split; [lia|done]|].
  right. split; [lia|]. intros f Hf. destruct (decide (f = p)) as [->|]; [by eexists|apply H2; lia].
Qed.

Section rel.
Context (u : udp_st) (a : gmap nat usock_t).
Hypothesis R : udp_rel u a.

Lemma rel_lookup k s : sockets u !! k = Some s -> exists x, a !! k = Some x /\ port s = uport x /\ queue_ok s (uqueue x).
Proof using R.
  intros E. destruct (proj1 (ur_dom _ _ R k)) as [x Ex]; [by eexists|]. exists x. split; [done|].
  split; [by apply (ur_port _ _ R k)|by apply (ur_queue _ _ R k)].
Qed.

Lemma rel_free p : ports u !! p = None -> p <> 0 -> ~ taken a p.
Proof using R.
  intros N Z (k & x & E & P). assert (ports u !! p = Some k) by (apply (ur_ports _ _ R); eauto). congruence.
Qed.

(** A socket that changes what is queued. *)
Lemma rel_queue k s x s' q : sockets u !! k = Some s -> a !! k = Some x -> port s' = port s -> state s' = state s -> queue_ok s' q ->
  udp_rel (mk_udp (ports u) (<[k := s']> (sockets u))) (<[k := mk_usock (uport x) q]> a).
Proof using R.
  intros Es Ex Hp Hs Hq. destruct R as [D P Q S T G]. split; cbn [ports sockets].
  - intros k'. destruct (decide (k' = k)) as [->|]; [rewrite !lookup_insert_eq; split; eauto|]. rewrite !lookup_insert_ne by done. apply D.
  - intros k' s1 x1. destruct (decide (k' = k)) as [->|]; [|rewrite !lookup_insert_ne by done; apply P].
    rewrite !lookup_insert_eq. intros [= <-] [= <-]. cbn. rewrite Hp. by apply (P k).
  - intros k' s1 x1. destruct (decide (k' = k)) as [->|]; [|rewrite !lookup_insert_ne by done; apply Q].
    rewrite !lookup_insert_eq. intros [= <-] [= <-]. done.
  - intros k' s1. destruct (decide (k' = k)) as [->|]; [|rewrite !lookup_insert_ne by done; apply S].
    rewrite !lookup_insert_eq. intros [= <-]. rewrite Hs, Hp. by apply (S k).
  - intros p k'. rewrite T. destruct (decide (k' = k)) as [->|]; [|by rewrite !lookup_insert_ne by done].
    rewrite lookup_insert_eq, Ex. split; intros (Z & y & [= <-] & E); (split; [done|]; eauto).
  - intros k' x1. destruct (decide (k' = k)) as [->|]; [|rewrite !lookup_insert_ne by done; apply G].
    rewrite !lookup_insert_eq. intros [= <-]. cbn. by apply (G k).
Qed.

(** A socket that gets a free port. *)
Lemma rel_bind k s x s' p : sockets u !! k = Some s -> a !! k = Some x -> uport x = 0 -> ports u !! p = None -> 0 < p < 2 ^ 16 ->
  port s' = p -> state s' <> SOCKET_STATE_UNBOUND -> ringbuffer s' = ringbuffer s ->
  udp_rel (mk_udp (<[p := k]> (ports u)) (<[k := s']> (sockets u))) (<[k := mk_usock p (uqueue x)]> a).
Proof using R.
  intros Es Ex Hx Hf Hp Hp' Hs Hr. pose proof (ur_queue _ _ R _ _ _ Es Ex) as [Q1 Q2 Q3]. destruct R as [D P Q S T G]. split; cbn [ports sockets].
  - intros k'. destruct (decide (k' = k)) as [->|]; [rewrite !lookup_insert_eq; split; eauto|]. rewrite !lookup_insert_ne by done. apply D.
  - intros k' s1 x1. destruct (decide (k' = k)) as [->|]; [|rewrite !lookup_insert_ne by done; apply P].
    rewrite !lookup_insert_eq. intros [= <-] [= <-]. done.
  - intros k' s1 x1. destruct (decide (k' = k)) as [->|]; [|rewrite !lookup_insert_ne by done; apply Q].
    rewrite !lookup_insert_eq. intros [= <-] [= <-]. split; [by rewrite Hr|by rewrite Hr|done].
  - intros k' s1. destruct (decide (k' = k)) as [->|]; [|rewrite !lookup_insert_ne by done; apply S].
    rewrite !lookup_insert_eq. intros [= <-]. split; intros; [done|lia].
  - intros p' k'. destruct (decide (k' = k)) as [->|Nk].
    + rewrite lookup_insert_eq. destruct (decide (p' = p)) as [->|Np].
      * rewrite lookup_insert_eq. split; [intros _; split; [lia|eauto]|done].
      * rewrite lookup_insert_ne by done. rewrite T, Ex. split; intros (Z & y & [= <-] & E); cbn in *; congruence.
    + rewrite (lookup_insert_ne a) by done. destruct (decide (p' = p)) as [->|Np]; [|rewrite lookup_insert_ne by done; apply T].
      rewrite lookup_insert_eq. split; [congruence|]. intros H. apply T in H. congruence.
  - intros k' x1. destruct (decide (k' = k)) as [->|]; [|rewrite !lookup_insert_ne by done; apply G].
    rewrite !lookup_insert_eq. intros [= <-]. cbn. lia.
Qed.

Lemma rel_create k s : sockets u !! k = None -> port s = 0 -> state s = SOCKET_STATE_UNBOUND -> queue_ok s [] ->
  udp_rel (mk_udp (ports u) (<[k := s]> (sockets u))) (<[k := mk_usock 0 []]> a).
Proof using R.
  intros Es Hp Hs Hq. assert (Na : a !! k = None) by (apply eq_None_not_Some; rewrite <- (ur_dom _ _ R), Es; intros []; done).
  destruct R as [D P Q S T G]. split; cbn [ports sockets].
  - intros k'. destruct (decide (k' = k)) as [->|]; [rewrite !lookup_insert_eq; split; eauto|]. rewrite !lookup_insert_ne by done. apply D.
  - intros k' s1 x1. destruct (decide (k' = k)) as [->|]; [|rewrite !lookup_insert_ne by done; apply P].
    rewrite !lookup_insert_eq. intros [= <-] [= <-]. done.
  - intros k' s1 x1. destruct (decide (k' = k)) as [->|]; [|rewrite !lookup_insert_ne by done; apply Q].
    rewrite !lookup_insert_eq. intros [= <-] [= <-]. done.
  - intros k' s1. destruct (decide (k' = k)) as [->|]; [|rewrite !lookup_insert_ne by done; apply S].
    rewrite !lookup_insert_eq. intros [= <-]. done.
  - intros p k'. rewrite T. destruct (decide (k' = k)) as [->|]; [|by rewrite !lookup_insert_ne by done].
    rewrite lookup_insert_eq, Na. split; intros (Z & y & E & E'); [done|]. injection E as <-. cbn in E'. congruence.
  - intros k' x1. destruct (decide (k' = k)) as [->|]; [|rewrite !lookup_insert_ne by done; apply G].
    rewrite !lookup_insert_eq. intros [= <-]. cbn. lia.
Qed.

Lemma rel_destroy k s : sockets u !! k = Some s ->
  udp_rel (mk_udp (if negb (port s =? 0) then delete (port s) (ports u) else ports u) (delete k (sockets u))) (delete k a).
Proof using R.
  intros Es. destruct (rel_lookup k s Es) as (x & Ex & Px & _). destruct R as [D P Q S T G]. split; cbn [ports sockets].
  - intros k'. destruct (decide (k' = k)) as [->|]; [by rewrite !lookup_delete_eq|]. rewrite !lookup_delete_ne by done. apply D.
  - intros k' s1 x1 [_ H1]%lookup_delete_Some [_ H2]%lookup_delete_Some. by apply (P k').
  - intros k' s1 x1 [_ H1]%lookup_delete_Some [_ H2]%lookup_delete_Some. by apply (Q k').
  - intros k' s1 [_ H1]%lookup_delete_Some. by apply (S k').
  - intros p k'. setoid_rewrite lookup_delete_Some. transitivity (k <> k' /\ ports u !! p = Some k').
    + destruct (Z.eqb_spec (port s) 0) as [Z|Z]; cbn [negb].
      * split; [|tauto]. intros E. split; [|done]. intros <-. apply T in E as (N & y & Ey & <-). assert (y = x) as -> by congruence. lia.
      * assert (Pk : ports u !! port s = Some k) by (apply T; eauto). rewrite lookup_delete_Some. split; intros [N E]; (split; [|done]).
        -- intros <-. apply T in E as (_ & y & Ey & <-). congruence.
        -- intros <-. congruence.
    + rewrite T. naive_solver.
  - intros k' x1 [_ H1]%lookup_delete_Some. by apply (G k').
Qed.
End rel.

(** The step of each call. *)
Section steps.
Context (u : udp_st) (a : gmap nat usock_t).
Hypothesis R : udp_rel u a.

Definition refined (op : udp_op) : Prop :=
  (goes_wrong op a /\ exec_udp op u = None) \/
  (~ goes_wrong op a /\ exists out u' a', exec_udp op u = Some (out, u') /\ spec_udp op a out a' /\ udp_rel u' a').

Lemma creates_refined k base : legal_udp (Creates k base) u -> refined (Creates k base).
Proof using R.
  intros (N & B1 & B2). right. split; [tauto|]. cbn [exec_udp spec_udp]. unfold udp_createsocket, ringbuffer_init. cbn [negb mbind option_bind].
  eexists _, _, _. split; [reflexivity|]. split; [split; reflexivity|].
  apply rel_create; [exact R|exact N|reflexivity|reflexivity|apply (fresh_queue _ base B1 B2); reflexivity].
Qed.

Lemma allocport_ok k p : 0 <= p < 2 ^ 16 ->
  (p = 0 /\ udp_allocport k p (ports u) = None /\ forall f, ALLOC_RANGE_START <= f < ALLOC_RANGE_END -> taken a f) \/
  (exists j, p <> 0 /\ ports u !! p = Some j /\ udp_allocport k p (ports u) = Some (EADDRINUSE, p, ports u)) \/
  (exists p', udp_allocport k p (ports u) = Some (0, p', <[p' := k]> (ports u)) /\ ports u !! p' = None /\ (p <> 0 -> p' = p) /\
     (p = 0 -> ALLOC_RANGE_START <= p' < ALLOC_RANGE_END)).
Proof using R.
  intros Hp. unfold udp_allocport. destruct (Z.eqb_spec p 0) as [->|Np].
  - unfold ALLOC_RANGE_START, ALLOC_RANGE_END in *.
    pose proof (first_free_cases (Z.to_nat (60000 - 50000)) 50000 (ports u)) as H. set (p' := first_free _ _ _) in *. unfold passert.
    destruct H as [[H1 H2]|[H1 H2]].
    + right; right. rewrite (proj2 (Z.eqb_neq p' 60000)) by lia. cbn [negb mbind option_bind].
      rewrite H2. exists p'. split; [done|]. split; [done|]. split; [done|]. intros _. lia.
    + left. replace p' with 60000 by lia. split; [done|]. split; [done|]. intros f Hf. destruct (H2 f) as [j Hj]; [lia|].
      apply (ur_ports _ _ R) in Hj as (_ & x & Ex & Ux). by exists j, x.
  - right. cbn [mbind option_bind]. destruct (ports u !! p) as [j|] eqn:E; [left; by exists j|right; by exists p].
Qed.

Lemma binds_refined k auth addr p : legal_udp (Binds k auth addr p) u -> refined (Binds k auth addr p).
Proof using R.
  intros ([s Es] & Hp). destruct (rel_lookup u a R k s Es) as (x & Ex & Px & Qx). unfold refined. cbn [exec_udp spec_udp goes_wrong]. unfold udp_bind.
  destruct (Z.eqb_spec p 0) as [P0|P0]; cbn [negb andb].
  2: { destruct (_ && _) eqn:Ba; [right; split; [tauto|by eexists _, _, _]|]. clear Ba. right. split; [tauto|].
       rewrite Es. cbn [mbind option_bind]. pose proof (ur_state _ _ R _ _ Es) as St.
       destruct (Z.eqb_spec (state s) SOCKET_STATE_UNBOUND) as [Hs|Hs]; cbn [negb].
       - assert (Hx : uport x = 0) by (rewrite <- Px; by apply St).
         destruct (allocport_ok k p Hp) as [(? & _)|[(j & Np & Pj & ->)|(p' & -> & Fr & H1 & H2)]]; [done|..]; cbn [mbind option_bind].
         + eexists _, u, a. split; [reflexivity|]. split; [|done]. exists x. split; [done|]. right; left.
           apply (ur_ports _ _ R) in Pj as (_ & y & Ey & Uy). split; [done|]. split; [done|]. split; [by exists j, y|done].
         + rewrite (H1 P0) in *. eexists _, _, _. split; [reflexivity|]. split.
           * exists x. split; [done|]. right; right. split; [done|]. split; [done|]. exists p. split; [done|]. split; [by apply (rel_free u a R)|]. done.
           * apply (rel_bind u a R k s x); (done || lia).
       - eexists _, u, a. split; [reflexivity|]. split; [|done]. exists x. split; [done|]. left. split; [|done]. rewrite <- Px. tauto. }
  subst p. rewrite Es. cbn [mbind option_bind]. pose proof (ur_state _ _ R _ _ Es) as St.
  destruct (Z.eqb_spec (state s) SOCKET_STATE_UNBOUND) as [Hs|Hs]; cbn [negb].
  - assert (Hx : uport x = 0) by (rewrite <- Px; by apply St).
    destruct (allocport_ok k 0 Hp) as [(_ & -> & All)|[(j & Np & _)|(p' & -> & Fr & _ & H2)]]; [|done|]; cbn [mbind option_bind].
    + left. split; [|done]. split; [done|]. split; [by exists x|done].
    + specialize (H2 eq_refl). assert (Np : ~ taken a p') by (apply (rel_free u a R); unfold ALLOC_RANGE_START in *; [done|lia]).
      right. split; [intros (_ & _ & All); by apply Np, All|]. eexists _, _, _. split; [reflexivity|].
      unfold ALLOC_RANGE_START, ALLOC_RANGE_END in *. split; [|apply (rel_bind u a R k s x); (done || lia)].
      exists x. split; [done|]. right; right. split; [done|]. split; [done|]. exists p'. split; [lia|]. by split.
  - right. split; [intros (_ & (y & Ey & Uy) & _); apply Hs, St; congruence|].
    eexists _, u, a. split; [reflexivity|]. split; [|done]. exists x. split; [done|]. left. split; [|done]. rewrite <- Px. tauto.
Qed.

(** What the header of a packet of bytes says. *)
Lemma incoming_frame packet src dport n d : Forall is_byte packet -> 0 <= src < 2 ^ 32 -> incoming packet src = Some (dport, n, d) ->
  exists f, udpframe_of packet = Some (f, payload d) /\ be_to_cpu_w (usrcport f) = fromport d /\ be_to_cpu_w (udstport f) = dport /\
    (be_to_cpu_w (ulength f) - UDP_FRAME_SIZE) mod 2 ^ 16 = n /\ from d = src /\ 0 <= fromport d < 2 ^ 16.
Proof using.
  intros Hb Hs E. do 8 (destruct packet as [|? packet]; [done|]). repeat (apply Forall_cons in Hb as [? Hb]). cbn [incoming] in E. injection E as <- <- <-.
  eexists. split; [reflexivity|]. cbn [usrcport udstport ulength fromport from]. rewrite !be_word16 by done. unfold is_byte in *. repeat split; lia.
Qed.

(** Only the socket of the port sees a packet. *)
Lemma delivered_map dport n d : delivered dport n d <$> a =
  match ports u !! dport with
  | Some k => match a !! k with Some x => <[k := delivered dport n d x]> a | None => a end
  | None => a
  end.
Proof using R.
  assert (One : forall k x, ports u !! dport <> Some k -> a !! k = Some x -> delivered dport n d x = x).
  { intros k x Nk E. unfold delivered. destruct (decide (uport x = dport)) as [Eu|Nu]; [|by rewrite bool_decide_false by done].
    destruct (Z.eqb_spec dport 0); [by rewrite andb_false_r|]. destruct Nk. apply (ur_ports _ _ R). eauto. }
  apply map_eq. intros k. rewrite lookup_fmap. destruct (a !! k) as [x|] eqn:E; cbn [fmap option_fmap option_map].
  - destruct (ports u !! dport) as [j|] eqn:Pj; [|by rewrite E, (One k) by done]. destruct (decide (j = k)) as [->|Nj].
    + by rewrite E, lookup_insert_eq.
    + rewrite (One k) by congruence. by destruct (a !! j); rewrite ?lookup_insert_ne by done.
  - destruct (ports u !! dport) as [j|]; [|done]. destruct (decide (j = k)) as [->|Nj]; [by rewrite E|].
    by destruct (a !! j); rewrite ?lookup_insert_ne by done.
Qed.

Lemma delivers_refined packet src : legal_udp (Delivers packet src) u -> refined (Delivers packet src).
Proof using R.
  intros (Hb & Hs). unfold refined. cbn [exec_udp spec_udp goes_wrong].
  destruct (incoming packet src) as [[[dport n] d]|] eqn:In.
  2: { left. split; [done|]. unfold udp_process. by do 8 (destruct packet as [|? packet]; [done|]). }
  destruct (incoming_frame packet src dport n d Hb Hs In) as (f & Ef & Fp & Fd & Fl & <- & Hfp).
  assert (Hn : 0 <= n < 2 ^ 16) by (rewrite <- Fl; apply Z.mod_pos_bound; lia).
  destruct (ports u !! dport) as [k|] eqn:Pk.
  2: { right. split; [intros (_ & N0 & k & x & Ex & Ux & _); assert (ports u !! dport = Some k) by (apply (ur_ports _ _ R); eauto); congruence|].
       unfold udp_process. rewrite Ef. cbn [mbind option_bind]. rewrite Fd, Pk. cbn [mbind option_bind]. eexists _, _, _. split; [reflexivity|].
       split; [by exists dport, n, d|]. by rewrite delivered_map, Pk. }
  pose proof Pk as Pk'. apply (ur_ports _ _ R) in Pk' as (N0 & x & Ex & Ux).
  destruct (proj2 (ur_dom _ _ R k)) as [s Es]; [by eexists|]. pose proof (ur_queue _ _ R _ _ _ Es Ex) as Q.
  assert (Cq : length (contents (ringbuffer s)) = length (concat (dgram_bytes <$> uqueue x))) by (by rewrite (qo_contents _ _ Q)).
  pose proof (delivered_map dport n d) as Fm. rewrite Pk, Ex in Fm. unfold delivered at 2 in Fm.
  rewrite Ux, bool_decide_true, (proj2 (Z.eqb_neq dport 0)) in Fm by done. cbn [negb andb] in Fm.
  destruct (Z.ltb_spec (Z.of_nat (length (payload d))) n) as [Lg|Ok].
  - destruct (fits (uqueue x) n) eqn:Ft.
    + left. split; [split; [done|split; [done|by exists k, x]]|]. unfold fits, DATAHEADER_SIZE in Ft. apply Z.leb_le in Ft.
      rewrite (process_overrun u packet f (payload d) k s (uqueue x)); rewrite ?Fd, ?Fl; (done || lia).
    + right. split.
      { intros (_ & _ & k' & x' & Ex' & Ux' & Ft'). assert (Pk' : ports u !! dport = Some k') by (apply (ur_ports _ _ R); eauto).
        assert (k' = k) as -> by congruence. assert (x' = x) as -> by congruence. congruence. }
      exists (Out_int 0), u, a. split; [|split; [exists dport, n, d; split; [done|]; split; [done|]; by rewrite Fm, insert_id|done]].
      unfold udp_process. rewrite Ef. cbn [mbind option_bind]. rewrite Fd, Pk, Es, Fl. cbn [mbind option_bind dlength].
      destruct (uring_room _ (qo_ring _ _ Q)) as (_ & _ & -> & _). rewrite Cq, Z.geb_leb. unfold fits in Ft. apply Z.leb_gt in Ft.
      rewrite (proj2 (Z.leb_gt _ _)) by (unfold DATAHEADER_SIZE in *; lia). done.
  - right. split; [lia|]. set (d' := mk_dgram (from d) (fromport d) (take (Z.to_nat n) (payload d))) in *.
    assert (Ln : Z.of_nat (length (payload d')) = n) by (cbn; rewrite length_take; lia).
    pose proof (process_frame u packet f k s (uqueue x) d' (drop (Z.to_nat n) (payload d))) as H.
    cbn [payload d' fromport from] in H. rewrite take_drop, Fd, Fl in H. cbn [payload d'] in Ln. rewrite Ln in H.
    specialize (H Ef Fp eq_refl Pk Es Q ltac:(split; [done|]; split; [done|]; cbn; lia)).
    rewrite length_dgram_bytes, Cq in H. cbn [payload d'] in H.
    replace (Z.of_nat (length (concat (dgram_bytes <$> uqueue x)) + (8 + length (take (Z.to_nat n) (payload d)))))
      with (Z.of_nat (length (concat (dgram_bytes <$> uqueue x))) + DATAHEADER_SIZE + n) in H by (unfold DATAHEADER_SIZE; lia).
    fold (fits (uqueue x) n) in H. destruct (fits (uqueue x) n).
    + destruct H as (rb & -> & Q'). cbn [mbind option_bind]. eexists _, _, (delivered dport n d <$> a). split; [reflexivity|].
      split; [by exists dport, n, d|]. rewrite Fm, <- Ux. by apply (rel_queue u a R k s).
    + rewrite H. cbn [mbind option_bind]. eexists _, _, (delivered dport n d <$> a). split; [reflexivity|]. split; [by exists dport, n, d|].
      by rewrite Fm, insert_id.
Qed.

Lemma receives_refined k m c flags : legal_udp (Receives k m c flags) u -> refined (Receives k m c flags).
Proof using R.
  intros ([s Es] & B & Hm). destruct (rel_lookup u a R k s Es) as (x & Ex & Px & Q). right. split; [tauto|]. cbn [exec_udp spec_udp]. rewrite Es. cbn [mbind option_bind].
  assert (Same : udp_rel (mk_udp (ports u) (<[k := s]> (sockets u))) a) by (rewrite insert_id by done; by destruct u).
  destruct (Z.eqb_spec (port s) 0) as [Z|Z].
  - unfold udp_recv. rewrite Z, Z.eqb_refl. cbn [mbind option_bind]. eexists _, _, _. split; [reflexivity|]. split; [|exact Same].
    exists x. split; [done|]. by rewrite <- Px, Z, Z.eqb_refl.
  - destruct (uqueue x) as [|d q] eqn:Ux.
    + assert (Dc : RINGBUFFER_DATACOUNT (ringbuffer s) = 0) by (destruct (uring_room _ (qo_ring _ _ Q)) as (-> & _); by rewrite (qo_contents _ _ Q)).
      unfold udp_recv. rewrite (proj2 (Z.eqb_neq _ _)) by done. cbn [negb]. unfold udp_poll. rewrite Dc.
      change (has POLLIN POLLIN) with true. change (has POLLIN POLLOUT) with false. cbn [Z.gtb Z.compare Z.eqb andb].
      exists (Out_recv (if has flags V_FFLAGS_NONBLOCKING then Recv_error EAGAIN else Recv_sleep (Some POLLIN)) m), (mk_udp (ports u) (<[k := s]> (sockets u))), a.
      split; [by destruct (has flags V_FFLAGS_NONBLOCKING)|]. split; [|exact Same]. exists x. split; [done|]. rewrite <- Px, (proj2 (Z.eqb_neq _ _)) by done. by rewrite Ux.
    + destruct (udp_recv_next m c flags s d q Q Z B Hm) as (m' & it' & rb & E & Hh & Fr & Q'). rewrite E. cbn [mbind option_bind].
      eexists _, _, (<[k := mk_usock (uport x) (if has flags SOCKET_RECV_FLAGS_PEEK then d :: q else q)]> a). split; [reflexivity|]. split.
      * exists x. split; [done|]. rewrite <- Px, (proj2 (Z.eqb_neq _ _)) by done. rewrite Ux. split; [|done]. by exists m'.
      * by apply (rel_queue u a R k s).
Qed.

Lemma destroys_refined k : legal_udp (Destroys k) u -> refined (Destroys k).
Proof using R.
  intros [s Es]. right. split; [tauto|]. cbn [exec_udp spec_udp]. unfold udp_destroy, udp_unallocport. rewrite Es. cbn [mbind option_bind].
  pose proof (rel_destroy u a R k s Es) as D. destruct (rel_lookup u a R k s Es) as (x & Ex & Px & _). pose proof (ur_range _ _ R _ _ Ex).
  destruct (Z.eqb_spec (port s) 0); cbn [negb mbind option_bind] in *; [by eexists _, _, _|].
  unfold passert. rewrite Z.gtb_ltb, (proj2 (Z.ltb_lt _ _)) by lia. cbn [mbind option_bind]. by eexists _, _, _.
Qed.

Lemma steps_refined op : legal_udp op u -> refined op.
Proof using R.
  destruct op; [apply creates_refined|apply binds_refined|apply delivers_refined|apply receives_refined|apply destroys_refined].
Qed.
End steps.

(** ** Claims *)

Definition udp_packet (d : dgram_t) (dport : Z) : list Z :=
  udpframe_bytes (mk_udpframe (cpu_to_be_w (fromport d)) (cpu_to_be_w dport) (cpu_to_be_w (Z.of_nat (length (payload d)) + UDP_FRAME_SIZE)) 0) ++ payload d.

(** The packet of a datagram that fits a port with room for it. *)
Lemma udp_process_queues u sock s q d dport :
  ports u !! dport = Some sock -> sockets u !! sock = Some s -> queue_ok s q -> dgram_ok d ->
  0 <= dport < 2 ^ 16 -> Z.of_nat (length (payload d)) + UDP_FRAME_SIZE < 2 ^ 16 ->
  Z.of_nat (length (contents (ringbuffer s)) + length (dgram_bytes d)) <= SOCKET_BUFFER ->
  exists rb, udp_process (udp_packet d dport) (from d) u = Some (mk_udp (ports u) (<[sock := with_ringbuffer rb s]> (sockets u)), [sock]) /\
    queue_ok (with_ringbuffer rb s) (q ++ [d]).
Proof.
  intros Ep Es Q Dk Hp Hl Fit. pose proof Dk as (Hf & Hfp & _). unfold UDP_FRAME_SIZE in Hl.
  set (frame := mk_udpframe (cpu_to_be_w (fromport d)) (cpu_to_be_w dport) (cpu_to_be_w (Z.of_nat (length (payload d)) + UDP_FRAME_SIZE)) 0).
  pose proof (process_frame u (udp_packet d dport) frame sock s q d []) as P. rewrite (proj2 (Z.leb_le _ _)) in P by done. apply P; try done.
  - unfold udp_packet. fold frame. unfold udpframe_bytes, bytes16. cbn [app udpframe_of frame usrcport udstport ulength uchecksum].
    rewrite !word16_bytes by apply bswap16_range. by rewrite app_nil_r.
  - cbn [usrcport frame]. rewrite be_w, Z.mod_small by lia. done.
  - cbn [ulength frame]. rewrite be_w. unfold UDP_FRAME_SIZE. rewrite !Z.mod_small by (rewrite ?Z.mod_small; lia). lia.
  - cbn [udstport frame]. by rewrite be_w, Z.mod_small by lia.
Qed.

Lemma no_sockets : udp_rel (mk_udp ∅ ∅) ∅.
Proof. split; cbn [ports sockets]; intros; rewrite ?lookup_empty in *; try done; naive_solver. Qed.



Definition echo_socket (p : Z) : udpsocket_t := mk_udpsocket SOCKET_STATE_BOUND 0 None 0 p 0 0 (fresh_ring 0xffff900000000000).
Definition lo_route : list routingentry_t := [mk_route (Some 0%nat) 0x7f000000 0 0xff000000 1].

(** A packet of three bytes from port 9 to port 7. *)
Definition three_bytes : list Z := [0; 9; 0; 7; 0; 11; 0; 0; 65; 66; 67].


