(* ===== verification/Signal.v ===== *)
(** * Signals ([sys/signal.c], the signal system calls)

    Masks, pending sets and actions of the threads and processes, sending a
    signal to a thread or a process, the check on the way back to user mode, and
    the return from a handler.  A section under the signal locks is one step: a
    wait and a stop end their step asleep and have a step for what follows. *)

From Stdlib Require Import Sorted.
From S2P Require Import Prelude Errno Vnode.

(** ** Signal sets

    The words of a [sigset_t] are one little endian integer of 1024 bits. *)

Definition sigset_t : Type := Z.

Definition SIGNAL_GET (s : sigset_t) (signal : Z) : bool := Z.testbit s (signal - 1).
Definition SIGNAL_SETON (s : sigset_t) (signal : Z) : sigset_t := Z.lor s (Z.shiftl 1 (signal - 1)).
Definition SIGNAL_SETOFF (s : sigset_t) (signal : Z) : sigset_t := Z.land s (Z.lnot (Z.shiftl 1 (signal - 1))).

Definition NSIG : Z := 65.
(** The signals the loops go through. *)
Definition signals : list Z := seqZ 1 (NSIG - 1).

Definition SIG_DFL : Z := 0.
Definition SIG_IGN : Z := 1.
Definition SA_NOCLDSTOP : Z := 1.
Definition SA_SIGINFO : Z := 4.
Definition SA_ONSTACK : Z := 0x08000000.
Definition SA_NODEFER : Z := 0x40000000.
Definition SA_RESETHAND : Z := 0x80000000.
Definition SA_RESTORER : Z := 0x04000000.

Definition SIGHUP : Z := 1.
Definition SIGINT : Z := 2.
Definition SIGQUIT : Z := 3.
Definition SIGILL : Z := 4.
Definition SIGTRAP : Z := 5.
Definition SIGABRT : Z := 6.
Definition SIGBUS : Z := 7.
Definition SIGFPE : Z := 8.
Definition SIGKILL : Z := 9.
Definition SIGUSR1 : Z := 10.
Definition SIGSEGV : Z := 11.
Definition SIGUSR2 : Z := 12.
Definition SIGCHLD : Z := 17.
Definition SIGCONT : Z := 18.
Definition SIGSTOP : Z := 19.
Definition SIGTSTP : Z := 20.
Definition SIGTTIN : Z := 21.
Definition SIGTTOU : Z := 22.
Definition SIGURG : Z := 23.
Definition SIGXCPU : Z := 24.
Definition SIGXFSZ : Z := 25.
Definition SIGWINCH : Z := 28.
Definition SIGSYS : Z := 31.

Definition SIG_BLOCK : Z := 0.
Definition SIG_UNBLOCK : Z := 1.
Definition SIG_SETMASK : Z := 2.

Inductive action_t := ACTION_TERM | ACTION_IGN | ACTION_CORE | ACTION_STOP | ACTION_CONT.

#[export] Instance action_eq : EqDecision action_t.
Proof. solve_decision. Defined.

(** A table that is zero, so [ACTION_TERM], where it has no entry. *)
Definition signal_defaultactions (signal : Z) : action_t :=
  if bool_decide (signal ∈ [SIGABRT; SIGBUS; SIGFPE; SIGILL; SIGQUIT; SIGSEGV; SIGSYS; SIGTRAP; SIGXCPU; SIGXFSZ]) then ACTION_CORE
  else if bool_decide (signal ∈ [SIGCHLD; SIGURG; SIGWINCH]) then ACTION_IGN
  else if bool_decide (signal ∈ [SIGSTOP; SIGTSTP; SIGTTIN; SIGTTOU]) then ACTION_STOP
  else if signal =? SIGCONT then ACTION_CONT
  else ACTION_TERM.

(** ** State *)

Record stack_t := mk_stack { sbase : Z; sflags : Z; ssize : Z }.
Definition no_stack : stack_t := mk_stack 0 0 0.

Record sigaction_t := mk_sigaction { address : Z; flags : Z; restorer : Z; amask : sigset_t }.
Definition default_action : sigaction_t := mk_sigaction 0 0 0 0.

(** The general registers the check touches and the rest. *)
Record context_t := mk_context {
  rax : Z; rdx : Z; rdi : Z; rsi : Z; rip : Z; rsp : Z; cs : Z; ss : Z; ds : Z; es : Z; rflags : Z; others : list Z
}.

Definition ARCH_CONTEXT_ISUSER (c : context_t) : bool := cs c =? 0x23.

(** The segment bases, the image of the floating point state and its control
    register. *)
Record extracontext_t := mk_extracontext { gsbase : Z; fsbase : Z; fx : list Z; mxcsr : Z }.

(** The same registers in the processor, with the stack the next interrupt
    from user mode runs on ([ist.rsp0]). *)
Record cpu_t := mk_cpu { msr_kernelgsbase : Z; msr_fsbase : Z; fpu : list Z; cpu_mxcsr : Z; rsp0 : Z }.

(** What a thread keeps while it does not run. *)
Record saved_t := mk_saved { tcontext : context_t; textracontext : extracontext_t; kernelstacktop : Z }.

Definition ARCH_CONTEXT_THREADSAVE (cpu : cpu_t) (c : context_t) (s : saved_t) : saved_t :=
  mk_saved c (mk_extracontext (msr_kernelgsbase cpu) (msr_fsbase cpu) (fpu cpu) (cpu_mxcsr cpu)) (kernelstacktop s).

(** The context it loads and the processor afterwards. *)
Definition ARCH_CONTEXT_THREADLOAD (s : saved_t) : context_t * cpu_t :=
  let e := textracontext s in (tcontext s, mk_cpu (gsbase e) (fsbase e) (fx e) (mxcsr e) (kernelstacktop s)).

Record sigframe_t := mk_sigframe {
  frestorer : Z;
  oldstack : stack_t;
  oldmask : sigset_t;
  fcontext : context_t;
  extracontext : extracontext_t
}.

(** The signal part of a thread, its process, its dead flag and its saved
    contexts. *)
Record thread_t := mk_thread {
  tproc : nat;
  dead : bool;
  mask : sigset_t;
  pending : sigset_t;
  urgent : sigset_t;
  waiting : sigset_t;
  returnmask : sigset_t;
  hasreturnmask : bool;
  stopped : bool;
  stack : stack_t;
  saved : saved_t
}.

(** The signal part of a process, its threads and its parent; [waitsem] counts
    the units given to its semaphore. *)
Record proc_t := mk_proc {
  actions : list sigaction_t;
  ppending : sigset_t;
  stopunwaited : bool;
  continueunwaited : bool;
  status : Z;
  parent : option nat;
  threadlist : list nat;
  waitsem : Z
}.

(** [woken] are the calls of [sched_wakeup] with their reasons and [events] the
    threads whose [waitpendingevent] was signalled, latest first. *)
Record sig_st := mk_sig { procs : gmap nat proc_t; threads : gmap nat thread_t; woken : list (nat * Z); events : list nat }.

Definition SCHED_WAKEUP_REASON_INTERRUPTED : Z := -1.

Definition set_mask (v : sigset_t) (t : thread_t) : thread_t :=
  mk_thread (tproc t) (dead t) v (pending t) (urgent t) (waiting t) (returnmask t) (hasreturnmask t) (stopped t) (stack t) (saved t).
Definition set_pending (v : sigset_t) (t : thread_t) : thread_t :=
  mk_thread (tproc t) (dead t) (mask t) v (urgent t) (waiting t) (returnmask t) (hasreturnmask t) (stopped t) (stack t) (saved t).
Definition set_urgent (v : sigset_t) (t : thread_t) : thread_t :=
  mk_thread (tproc t) (dead t) (mask t) (pending t) v (waiting t) (returnmask t) (hasreturnmask t) (stopped t) (stack t) (saved t).
Definition set_waiting (v : sigset_t) (t : thread_t) : thread_t :=
  mk_thread (tproc t) (dead t) (mask t) (pending t) (urgent t) v (returnmask t) (hasreturnmask t) (stopped t) (stack t) (saved t).
Definition set_returnmask (v : sigset_t) (b : bool) (t : thread_t) : thread_t :=
  mk_thread (tproc t) (dead t) (mask t) (pending t) (urgent t) (waiting t) v b (stopped t) (stack t) (saved t).
Definition set_stopped (b : bool) (t : thread_t) : thread_t :=
  mk_thread (tproc t) (dead t) (mask t) (pending t) (urgent t) (waiting t) (returnmask t) (hasreturnmask t) b (stack t) (saved t).
Definition set_stack (v : stack_t) (t : thread_t) : thread_t :=
  mk_thread (tproc t) (dead t) (mask t) (pending t) (urgent t) (waiting t) (returnmask t) (hasreturnmask t) (stopped t) v (saved t).
Definition set_saved (v : saved_t) (t : thread_t) : thread_t :=
  mk_thread (tproc t) (dead t) (mask t) (pending t) (urgent t) (waiting t) (returnmask t) (hasreturnmask t) (stopped t) (stack t) v.

Definition set_ppending (v : sigset_t) (p : proc_t) : proc_t :=
  mk_proc (actions p) v (stopunwaited p) (continueunwaited p) (status p) (parent p) (threadlist p) (waitsem p).
Definition set_actions (v : list sigaction_t) (p : proc_t) : proc_t :=
  mk_proc v (ppending p) (stopunwaited p) (continueunwaited p) (status p) (parent p) (threadlist p) (waitsem p).

Definition put_thread (x : nat) (t : thread_t) (st : sig_st) : sig_st :=
  mk_sig (procs st) (<[x := t]> (threads st)) (woken st) (events st).
Definition put_proc (x : nat) (p : proc_t) (st : sig_st) : sig_st :=
  mk_sig (<[x := p]> (procs st)) (threads st) (woken st) (events st).
Definition sched_wakeup (x : nat) (reason : Z) (st : sig_st) : sig_st :=
  mk_sig (procs st) (threads st) ((x, reason) :: woken st) (events st).
Definition EVENT_SIGNAL (x : nat) (st : sig_st) : sig_st :=
  mk_sig (procs st) (threads st) (woken st) (x :: events st).

(** An entry of an array of [NSIG]; an index outside it is out of bounds. *)
Definition action_of (p : proc_t) (signal : Z) : option sigaction_t :=
  if (0 <=? signal) && (signal <? NSIG) then actions p !! Z.to_nat signal else None.

(** ** Actions, stacks and masks *)

(** The old action is returned. *)
Definition signal_action (x : nat) (signal : Z) (new : option sigaction_t) (st : sig_st) : option (sigaction_t * sig_st) :=
  passert ((signal <? NSIG) && (signal >=? 0));;
  p ← procs st !! x;
  old ← action_of p signal;
  Some (old, match new with
             | Some a => put_proc x (set_actions (<[Z.to_nat signal := a]> (actions p)) p) st
             | None => st
             end).

Definition signal_altstack (new : option stack_t) (t : thread_t) : stack_t * thread_t :=
  (stack t, match new with Some s => set_stack s t | None => t end).

(** The loop over the signals of [new]. *)
Definition changemask_one (how : Z) (new : sigset_t) (m : sigset_t) (i : Z) : sigset_t :=
  if negb (SIGNAL_GET new i) then m
  else if (how =? SIG_BLOCK) && negb (SIGNAL_GET m i) then SIGNAL_SETON m i
  else if (how =? SIG_UNBLOCK) && SIGNAL_GET m i then SIGNAL_SETOFF m i
  else m.

Definition signal_changemask (how : Z) (new : option sigset_t) (t : thread_t) : option (sigset_t * thread_t) :=
  match new with
  | None => Some (mask t, t)
  | Some n =>
      if (how =? SIG_BLOCK) || (how =? SIG_UNBLOCK) then Some (mask t, set_mask (fold_left (changemask_one how n) signals (mask t)) t)
      else if how =? SIG_SETMASK then Some (mask t, set_mask n t)
      else None
  end.

Definition signal_pending (p : proc_t) (t : thread_t) : sigset_t :=
  fold_left (fun s i =>
    let s := if SIGNAL_GET (ppending p) i then SIGNAL_SETON s i else s in
    if SIGNAL_GET (pending t) i then SIGNAL_SETON s i else s) signals 0.

Definition signal_returnmask (s : sigset_t) (t : thread_t) : thread_t := set_returnmask s true t.

(** Up to the sleep. *)
Definition signal_suspend (s : sigset_t) (t : thread_t) : thread_t := signal_returnmask s (set_mask s t).

(** ** Waiting for a signal *)

(** The first signal of the set that is pending, taken off the set it is in. *)
Fixpoint take_pending (l : list Z) (s : sigset_t) (p : proc_t) (t : thread_t) : option (Z * proc_t * thread_t) :=
  match l with
  | [] => None
  | i :: l' =>
      if negb (SIGNAL_GET s i) then take_pending l' s p t
      else if SIGNAL_GET (pending t) i then Some (i, p, set_pending (SIGNAL_SETOFF (pending t) i) t)
      else if SIGNAL_GET (ppending p) i then Some (i, set_ppending (SIGNAL_SETOFF (ppending p) i) p, t)
      else take_pending l' s p t
  end.

(** The signal, an error, or the sleep with its timeout; zero sleeps until the
    event. *)
Inductive wait_t := Wait_got (signum : Z) | Wait_error (e : Z) | Wait_sleep (timeout : Z).

Definition signal_wait (s : sigset_t) (timeout : option timespec_t) (p : proc_t) (t : thread_t) : wait_t * proc_t * thread_t :=
  match take_pending signals s p t with
  | Some (i, p, t) => (Wait_got i, p, t)
  | None =>
      match timeout with
      | Some ts =>
          let timeoutus := u64 (ts_s ts * 1000000 + Z.quot (ts_ns ts) 1000) in
          if timeoutus =? 0 then (Wait_error EAGAIN, p, t) else (Wait_sleep timeoutus, p, set_waiting s t)
      | None => (Wait_sleep 0, p, set_waiting s t)
      end
  end.

(** After the sleep; [err] is what the wait returned. *)
Definition signal_wait_resume (s : sigset_t) (has_timeout : bool) (err : Z) (p : proc_t) (t : thread_t)
    : option (wait_t * proc_t * thread_t) :=
  if err =? 0 then
    match take_pending signals s p t with
    | Some (i, p, t) => Some (Wait_got i, p, set_waiting 0 t)
    | None => passert has_timeout;; Some (Wait_error EAGAIN, p, set_waiting 0 t)
    end
  else Some (Wait_error err, p, set_waiting 0 t).

(** ** Sending a signal *)

Definition notignored (a : sigaction_t) (signal : Z) : bool :=
  negb (address a =? SIG_IGN) &&
  (((address a =? SIG_DFL) && negb (bool_decide (signal_defaultactions signal = ACTION_IGN))) || negb (address a =? SIG_DFL)).

Definition signal_signalthread (x : nat) (signal : Z) (is_urgent : bool) (st : sig_st) : option sig_st :=
  t ← threads st !! x;
  p ← procs st !! tproc t;
  a ← action_of p signal;
  let on t := if is_urgent then set_urgent (SIGNAL_SETON (urgent t) signal) t else set_pending (SIGNAL_SETON (pending t) signal) t in
  let off t := if is_urgent then set_urgent (SIGNAL_SETOFF (urgent t) signal) t else set_pending (SIGNAL_SETOFF (pending t) signal) t in
  let st' := put_thread x (on t) st in
  if (signal =? SIGKILL) || (signal =? SIGSTOP) || is_urgent || (negb (SIGNAL_GET (mask t) signal) && notignored a signal)
  then Some (sched_wakeup x SCHED_WAKEUP_REASON_INTERRUPTED st')
  else if negb (notignored a signal) then Some (put_thread x (off (on t)) st)
  else if SIGNAL_GET (mask t) signal && SIGNAL_GET (waiting t) signal then Some (EVENT_SIGNAL x st')
  else Some st'.

(** What the process's action and the signal say, once per call. *)
Record sending := mk_sending { s_signal : Z; s_notignored : bool; s_notignorable : bool; s_shouldstop : bool }.

Definition sending_of (a : sigaction_t) (signal : Z) : sending :=
  mk_sending signal (notignored a signal)
    ((signal =? SIGKILL) || (signal =? SIGSTOP) || (signal =? SIGCONT))
    (((address a =? SIG_DFL) && bool_decide (signal_defaultactions signal = ACTION_STOP)) || (signal =? SIGSTOP)).

(** The first loop: whether it returned, and whether a thread was continued. *)
Fixpoint deliver_loop (ts : list nat) (g : sending) (continued : bool) (st : sig_st) : option (bool * bool * sig_st) :=
  match ts with
  | [] => Some (false, continued, st)
  | x :: rest =>
      t ← threads st !! x;
      if dead t then deliver_loop rest g continued st
      else if negb (SIGNAL_GET (mask t) (s_signal g)) || s_notignorable g then
        let t := set_pending (SIGNAL_SETON (pending t) (s_signal g)) t in
        let interesting := s_notignored g || s_notignorable g in
        let wakes := stopped t && ((s_signal g =? SIGCONT) || (s_signal g =? SIGKILL)) in
        if interesting && negb wakes && (s_signal g =? SIGCONT) then
          deliver_loop rest g continued (put_thread x (set_pending (SIGNAL_SETOFF (pending t) (s_signal g)) t) st)
        else
          let st :=
            if interesting
            then if wakes then sched_wakeup x 0 (put_thread x (set_stopped false t) st)
                 else sched_wakeup x SCHED_WAKEUP_REASON_INTERRUPTED (put_thread x t st)
            else put_thread x t st in
          let continued := continued || (interesting && wakes) in
          if negb (s_shouldstop g || (s_signal g =? SIGCONT)) then Some (true, continued, st)
          else deliver_loop rest g continued st
      else deliver_loop rest g continued st
  end.

(** The second loop: the first thread that waits for the signal gets it. *)
Fixpoint waiting_loop (ts : list nat) (signal : Z) (st : sig_st) : option (bool * sig_st) :=
  match ts with
  | [] => Some (false, st)
  | x :: rest =>
      t ← threads st !! x;
      if SIGNAL_GET (waiting t) signal
      then Some (true, EVENT_SIGNAL x (put_thread x (set_pending (SIGNAL_SETON (pending t) signal) t) st))
      else waiting_loop rest signal st
  end.

Definition set_child_state (v : Z) (is_stop : bool) (p : proc_t) : proc_t :=
  mk_proc (actions p) (ppending p) (is_stop || stopunwaited p) (negb is_stop || continueunwaited p) v (parent p) (threadlist p) (waitsem p).

Definition give_unit (x : nat) (st : sig_st) : option sig_st :=
  p ← procs st !! x;
  Some (put_proc x (mk_proc (actions p) (ppending p) (stopunwaited p) (continueunwaited p) (status p) (parent p) (threadlist p) (waitsem p + 1)) st).

(** Telling the parent; [signalproc] sends it [SIGCHLD].  A process without a
    parent is a null pointer access. *)
Definition tell_parent (signalproc : nat -> Z -> sig_st -> option sig_st) (x : nat) (v : Z) (is_stop : bool) (st : sig_st) : option sig_st :=
  p ← procs st !! x;
  let st := put_proc x (set_child_state v is_stop p) st in
  y ← parent p;
  py ← procs st !! y;
  a ← action_of py SIGCHLD;
  st ← (if negb (has (flags a) SA_NOCLDSTOP) then signalproc y SIGCHLD st else Some st);
  give_unit y st.

(** [fuel] bounds the parents that are told; [SIGCHLD] tells nobody else. *)
Fixpoint signalproc_fuel (fuel : nat) (x : nat) (signal : Z) (st : sig_st) : option sig_st :=
  match fuel with
  | O => None
  | S fuel' =>
      p ← procs st !! x;
      a ← action_of p signal;
      let g := sending_of a signal in
      '(returned, continued, st) ← deliver_loop (threadlist p) g false st;
      if returned : bool then Some st
      else
        let held := negb (s_notignorable g) && negb (continued || s_shouldstop g) in
        '(returned, st) ← (if held then waiting_loop (threadlist p) signal st else Some (false, st));
        if returned : bool then Some st
        else
          p ← procs st !! x;
          let st := if held then put_proc x (set_ppending (SIGNAL_SETON (ppending p) signal) p) st else st in
          st ← (if (s_notignorable g || s_notignored g) && bool_decide (signal_defaultactions signal = ACTION_STOP)
                then tell_parent (signalproc_fuel fuel') x (Z.lor 0x7f (Z.shiftl signal 8)) true st else Some st);
          if continued then tell_parent (signalproc_fuel fuel') x 0xffff false st else Some st
  end.

Definition signal_signalproc (x : nat) (signal : Z) (st : sig_st) : option sig_st := signalproc_fuel 2 x signal st.

(** ** The check on the way to user mode *)

Definition ARCH_SIGNAL_REDZONE_SIZE : Z := 128.
(** [SIGFRAME_SIZE] is [sizeof(sigframe_t)]. *)
Definition SIGFRAME_SIZE : Z := 8 + 24 + 128 + 26 * 8 + (8 + 8 + 512 + 16) + 128.

(** The urgent signal handled is the last one found. *)
Fixpoint last_urgent (l : list Z) (t : thread_t) (found : option Z) : option Z :=
  match l with
  | [] => found
  | i :: l' => last_urgent l' t (if SIGNAL_GET (urgent t) i then Some i else found)
  end.

Inductive source_t := From_urgent | From_thread | From_proc.

Fixpoint first_unmasked (l : list Z) (p : proc_t) (t : thread_t) : option (Z * source_t) :=
  match l with
  | [] => None
  | i :: l' =>
      if SIGNAL_GET (mask t) i then first_unmasked l' p t
      else if SIGNAL_GET (pending t) i then Some (i, From_thread)
      else if SIGNAL_GET (ppending p) i then Some (i, From_proc)
      else first_unmasked l' p t
  end.

Definition select (p : proc_t) (t : thread_t) : option (Z * source_t) :=
  match last_urgent signals t None with
  | Some i => Some (i, From_urgent)
  | None => first_unmasked signals p t
  end.

(** Taking the signal off the set it was found in. *)
Definition take_off (i : Z) (src : source_t) (p : proc_t) (t : thread_t) : proc_t * thread_t :=
  match src with
  | From_urgent => (p, set_urgent (SIGNAL_SETOFF (urgent t) i) t)
  | From_thread => (p, set_pending (SIGNAL_SETOFF (pending t) i) t)
  | From_proc => (set_ppending (SIGNAL_SETOFF (ppending p) i) p, t)
  end.

(** What a check ends with: done, and whether to check again; the process
    terminates; the thread sleeps stopped; or a handler runs on the frame at an
    address. *)
Inductive check_t :=
  | Check_done (retry : bool)
  | Check_terminate (status : Z)
  | Check_stopped
  | Check_handler (ctx : context_t) (frame : sigframe_t) (at_ : Z).

(** [touser] says whether the frame can be copied to the user's stack at an
    address. *)
Definition run_handler (touser : Z -> bool) (cpu : cpu_t) (signal : Z) (a : sigaction_t) (ctx : context_t) (sysret : option (Z * Z))
    (p : proc_t) (t : thread_t) : check_t * proc_t * thread_t :=
  let t := set_saved (ARCH_CONTEXT_THREADSAVE cpu ctx (saved t)) t in
  let altstack := has (flags a) SA_ONSTACK && (ssize (stack t) >? 0) && negb (sbase (stack t) =? 0) in
  let top := if altstack then u64 (sbase (stack t) + ssize (stack t)) else rsp ctx in
  let sp := u64 (Z.land (u64 (top - ARCH_SIGNAL_REDZONE_SIZE - SIGFRAME_SIZE)) (Z.lnot 0xf) - 8) in
  let ctx := match sysret with
             | Some (ret, errno) => mk_context ret errno (rdi ctx) (rsi ctx) (rip ctx) (rsp ctx) (cs ctx) (ss ctx) (ds ctx) (es ctx) (rflags ctx) (others ctx)
             | None => ctx
             end in
  let frame := mk_sigframe (restorer a) (if altstack then stack t else no_stack)
                 (if hasreturnmask t then returnmask t else mask t) ctx (textracontext (saved t)) in
  let t := if altstack then set_stack no_stack t else t in
  let t := set_returnmask (returnmask t) false t in
  if negb (touser sp) then (Check_terminate SIGSEGV, p, t)
  else
    let m := if negb (has (flags a) SA_NODEFER) then SIGNAL_SETON (mask t) signal else mask t in
    let m := fold_left (fun m i => if SIGNAL_GET (amask a) i then SIGNAL_SETON m i else m) (seqZ 1 (signal - 1)) m in
    let new := mk_context 0 0 signal 0 (address a) sp 0x23 0x1b 0x1b 0x1b 0x200 (replicate 15 0) in
    let p := if has (flags a) SA_RESETHAND then set_actions (<[Z.to_nat signal := default_action]> (actions p)) p else p in
    (Check_handler new frame sp, p, set_mask m t).

Definition signal_check (touser : Z -> bool) (cpu : cpu_t) (ctx : context_t) (sysret : option (Z * Z)) (p : proc_t) (t : thread_t)
    : option (check_t * proc_t * thread_t) :=
  if SIGNAL_GET (ppending p) SIGKILL || SIGNAL_GET (pending t) SIGKILL then Some (Check_terminate SIGKILL, p, t)
  else
    match select p t with
    | None => Some (Check_done false, p, t)
    | Some (signal, src) =>
        a ← action_of p signal;
        let '(p, t) := take_off signal src p t in
        let is_urgent := match src with From_urgent => true | _ => false end in
        if (address a =? SIG_IGN) && negb is_urgent then Some (Check_done true, p, t)
        else if ((address a =? SIG_DFL) && negb (has (flags a) SA_SIGINFO)) || ((address a =? SIG_IGN) && is_urgent) then
          match signal_defaultactions signal with
          | ACTION_IGN | ACTION_CONT => Some (Check_done true, p, t)
          | ACTION_CORE | ACTION_TERM => Some (Check_terminate signal, p, t)
          | ACTION_STOP =>
              if SIGNAL_GET (pending t) SIGCONT then Some (Check_done true, p, t)
              else Some (Check_stopped, p, set_stopped true t)
          end
        else Some (run_handler touser cpu signal a ctx sysret p t)
    end.

(** A stopped thread that has been woken. *)
Definition signal_check_resume (t : thread_t) : option check_t :=
  passert (SIGNAL_GET (pending t) SIGCONT);;
  passert (negb (stopped t));;
  Some (Check_done true).

(** ** System calls *)

Definition syscall_sigaction (x : nat) (sig : Z) (new : option sigaction_t) (st : sig_st) : option (Z * sig_st) :=
  if (sig >? NSIG) || (sig =? SIGKILL) || (sig =? SIGSTOP) then Some (EINVAL, st)
  else if match new with Some a => negb (has (flags a) SA_RESTORER) | None => false end then Some (EINVAL, st)
  else '(_, st) ← signal_action x sig new st; Some (0, st).

Definition syscall_sigprocmask (how : Z) (set : option sigset_t) (t : thread_t) : option (Z * sigset_t * thread_t) :=
  if bool_decide (set <> None) && negb (how =? SIG_BLOCK) && negb (how =? SIG_UNBLOCK) && negb (how =? SIG_SETMASK) then Some (EINVAL, 0, t)
  else '(old, t) ← signal_changemask how set t; Some (0, old, t).

(** [frame] is what could be read at the stack pointer.  The process ends, or
    the processor goes on in the context of the frame. *)
Definition syscall_sigreturn (frame : option sigframe_t) (t : thread_t) : option ((Z + context_t * cpu_t) * thread_t) :=
  match frame with
  | None => Some (inl SIGSEGV, t)
  | Some f =>
      if negb (ARCH_CONTEXT_ISUSER (fcontext f)) then Some (inl SIGSEGV, t)
      else
        let '(_, t) := signal_altstack (Some (oldstack f)) t in
        '(_, t) ← signal_changemask SIG_SETMASK (Some (oldmask f)) t;
        passert (ARCH_CONTEXT_ISUSER (fcontext f));;
        let t := set_saved (mk_saved (tcontext (saved t)) (extracontext f) (kernelstacktop (saved t))) t in
        let '(_, cpu) := ARCH_CONTEXT_THREADLOAD (saved t) in
        Some (inr (fcontext f, cpu), t)
  end.

(** ** Signal sets *)

Lemma get_on s i j : 1 <= i -> SIGNAL_GET (SIGNAL_SETON s i) j = (i =? j) || SIGNAL_GET s j.
Proof.
  intros Hi. unfold SIGNAL_GET, SIGNAL_SETON. change (Z.lor s (Z.shiftl 1 (i - 1))) with (Z.setbit s (i - 1)).
  rewrite Z.setbit_eqb by lia. f_equal. destruct (Z.eqb_spec i j), (Z.eqb_spec (i - 1) (j - 1)); lia.
Qed.

Lemma get_off s i j : SIGNAL_GET (SIGNAL_SETOFF s i) j = SIGNAL_GET s j && negb (i =? j).
Proof.
  unfold SIGNAL_GET, SIGNAL_SETOFF. rewrite <- Z.ldiff_land. change (Z.ldiff s (Z.shiftl 1 (i - 1))) with (Z.clearbit s (i - 1)).
  rewrite Z.clearbit_eqb. do 2 f_equal. destruct (Z.eqb_spec i j), (Z.eqb_spec (i - 1) (j - 1)); lia.
Qed.

Lemma elem_of_signals i : i ∈ signals <-> 1 <= i < NSIG.
Proof. unfold signals. rewrite elem_of_seqZ. unfold NSIG. lia. Qed.

(** A loop that sets the signals of a condition. *)
Lemma fold_on (c : Z -> bool) l s j : (forall i, i ∈ l -> 1 <= i) ->
  SIGNAL_GET (fold_left (fun m i => if c i then SIGNAL_SETON m i else m) l s) j = (bool_decide (j ∈ l) && c j) || SIGNAL_GET s j.
Proof.
  revert s. induction l as [|i l IH]; intros s H; cbn [fold_left]; [done|].
  rewrite IH by (intros k Hk; apply H; by right). assert (1 <= i) by (apply H; left).
  rewrite (bool_decide_ext (j ∈ i :: l) (j = i \/ j ∈ l)) by apply elem_of_cons. rewrite bool_decide_or.
  destruct (decide (j = i)) as [->|N].
  - rewrite (bool_decide_true (i = i)) by done. destruct (c i) eqn:E; [rewrite get_on, Z.eqb_refl by done|]; destruct (bool_decide (i ∈ l)); cbn; rewrite ?E; done.
  - rewrite (bool_decide_false (j = i)) by done. cbn [orb]. destruct (c i); [|done]. rewrite get_on by done. rewrite (proj2 (Z.eqb_neq i j)) by done. done.
Qed.

Lemma fold_changemask how new l s j : (forall i, i ∈ l -> 1 <= i) ->
  SIGNAL_GET (fold_left (changemask_one how new) l s) j =
    if bool_decide (j ∈ l) && SIGNAL_GET new j then (how =? SIG_BLOCK) || (negb (how =? SIG_UNBLOCK) && SIGNAL_GET s j) else SIGNAL_GET s j.
Proof.
  revert s. induction l as [|i l IH]; intros s H; cbn [fold_left]; [done|].
  rewrite IH by (intros k Hk; apply H; by right). assert (Hi : 1 <= i) by (apply H; left).
  rewrite (bool_decide_ext (j ∈ i :: l) (j = i \/ j ∈ l)) by apply elem_of_cons. rewrite bool_decide_or.
  assert (E : SIGNAL_GET (changemask_one how new s i) j =
    if bool_decide (j = i) && SIGNAL_GET new j then (how =? SIG_BLOCK) || (negb (how =? SIG_UNBLOCK) && SIGNAL_GET s j) else SIGNAL_GET s j).
  { unfold changemask_one. destruct (decide (j = i)) as [->|N].
    - rewrite bool_decide_true by done. cbn [andb]. destruct (SIGNAL_GET new i); [|done]. cbn [negb].
      destruct (how =? SIG_BLOCK) eqn:B, (how =? SIG_UNBLOCK) eqn:U, (SIGNAL_GET s i) eqn:G; cbn [andb orb negb]; rewrite ?get_on, ?get_off, ?Z.eqb_refl, ?G by done; try done; apply Z.eqb_eq in B, U; unfold SIG_BLOCK, SIG_UNBLOCK in *; lia.
    - rewrite bool_decide_false by done. cbn [andb]. repeat case_match; rewrite ?get_on, ?get_off by done; rewrite ?(proj2 (Z.eqb_neq i j)) by done; by rewrite ?andb_true_r. }
  rewrite E. destruct (bool_decide (j = i)), (bool_decide (j ∈ l)), (SIGNAL_GET new j), (how =? SIG_BLOCK), (how =? SIG_UNBLOCK); done.
Qed.

(** ** Well-formed states *)

Record sig_wf (st : sig_st) : Prop := {
  sw_actions : forall x p, procs st !! x = Some p -> length (actions p) = 65%nat;
  sw_threads : forall x p y, procs st !! x = Some p -> y ∈ threadlist p -> exists t, threads st !! y = Some t /\ tproc t = x;
  sw_parents : forall x p y, procs st !! x = Some p -> parent p = Some y -> is_Some (procs st !! y);
  sw_procs : forall y t, threads st !! y = Some t -> is_Some (procs st !! tproc t)
}.

Lemma action_some p signal : length (actions p) = 65%nat -> 1 <= signal < NSIG -> is_Some (action_of p signal).
Proof.
  unfold NSIG. intros H Hs. unfold action_of, NSIG. rewrite (proj2 (Z.leb_le _ _)), (proj2 (Z.ltb_lt _ _)) by lia.
  cbn [andb]. apply lookup_lt_is_Some. lia.
Qed.

(** What the loops leave alone. *)
Record same_shape (st st' : sig_st) : Prop := {
  sh_procs : procs st' = procs st;
  sh_threads : forall y, tproc <$> threads st' !! y = tproc <$> threads st !! y
}.

Lemma same_shape_refl st : same_shape st st.
Proof. by split. Qed.

Lemma same_shape_trans a b c : same_shape a b -> same_shape b c -> same_shape a c.
Proof. intros [A1 A2] [B1 B2]. split; [congruence|]. intros y. by rewrite B2, A2. Qed.

Lemma put_shape y t t' st : threads st !! y = Some t -> tproc t' = tproc t -> same_shape st (put_thread y t' st).
Proof.
  intros E H. split; [done|]. intros z. cbn [threads put_thread]. destruct (decide (z = y)) as [->|].
  - rewrite lookup_insert_eq, E. cbn. by rewrite H.
  - by rewrite lookup_insert_ne.
Qed.

Lemma wake_shape y r st st' : same_shape st st' -> same_shape st (sched_wakeup y r st').
Proof. by intros [A B]. Qed.

Lemma event_shape y st st' : same_shape st st' -> same_shape st (EVENT_SIGNAL y st').
Proof. by intros [A B]. Qed.

Create HintDb signals_db.
#[export] Hint Resolve same_shape_refl put_shape wake_shape event_shape : signals_db.

Lemma same_shape_some st st' y t : same_shape st st' -> threads st !! y = Some t -> exists t', threads st' !! y = Some t' /\ tproc t' = tproc t.
Proof. intros [_ H] E. specialize (H y). rewrite E in H. destruct (threads st' !! y) as [t'|]; [|done]. exists t'. split; [done|]. by injection H. Qed.

Definition all_there (st : sig_st) (ts : list nat) : Prop := forall y, y ∈ ts -> is_Some (threads st !! y).

Lemma all_there_shape st st' ts : same_shape st st' -> all_there st ts -> all_there st' ts.
Proof. intros S A y Hy. destruct (A y Hy) as [t E]. destruct (same_shape_some _ _ _ _ S E) as (t' & E' & _). by eexists. Qed.

Lemma deliver_loop_total ts g continued st : all_there st ts ->
  exists r c st', deliver_loop ts g continued st = Some (r, c, st') /\ same_shape st st'.
Proof.
  revert continued st. induction ts as [|x ts IH]; intros continued st A; cbn [deliver_loop]; [eauto 6 with signals_db|].
  destruct (A x) as [t E]; [left|]. rewrite E. cbn [mbind option_bind]. assert (A' : all_there st ts) by (intros y Hy; apply A; by right).
  assert (Go : forall c st1, same_shape st st1 -> exists r c' st', deliver_loop ts g c st1 = Some (r, c', st') /\ same_shape st st').
  { intros c st1 S1. destruct (IH c st1 (all_there_shape _ _ _ S1 A')) as (r & c' & st' & Eq & S'). exists r, c', st'. split; [done|]. by eapply same_shape_trans. }
  destruct (dead t); [by apply Go|]. destruct (_ || s_notignorable g); [|by apply Go]. cbv zeta.
  destruct (_ && _ && _); [apply Go; eauto with signals_db|].
  match goal with |- context [deliver_loop ts g _ ?s] => assert (S1 : same_shape st s) end.
  { repeat case_match; eauto with signals_db. }
  destruct (negb _); [eauto 6|by apply Go].
Qed.

Lemma waiting_loop_total ts signal st : all_there st ts -> exists r st', waiting_loop ts signal st = Some (r, st') /\ same_shape st st'.
Proof.
  induction ts as [|x ts IH]; intros A; cbn [waiting_loop]; [eauto with signals_db|].
  destruct (A x) as [t E]; [left|]. rewrite E. cbn [mbind option_bind]. destruct (SIGNAL_GET _ _); [eauto 6 with signals_db|].
  apply IH. intros y Hy. apply A. by right.
Qed.

Lemma wf_shape st st' : same_shape st st' -> sig_wf st -> sig_wf st'.
Proof.
  intros S [A B C D]. pose proof S as [Sp St]. split; rewrite ?Sp; [done| |done|].
  - intros x p y Ep Hy. destruct (B x p y Ep Hy) as (t & Et & <-). exact (same_shape_some _ _ _ _ S Et).
  - intros y t Et. specialize (St y). rewrite Et in St. destruct (threads st !! y) as [t0|] eqn:E0; [|done]. injection St as ->. by apply (D y).
Qed.

(** Changing what a process counts or holds pending. *)
Lemma wf_put st x p p' : sig_wf st -> procs st !! x = Some p -> actions p' = actions p -> threadlist p' = threadlist p -> parent p' = parent p ->
  sig_wf (put_proc x p' st).
Proof.
  intros [A B C D] E Ha Ht Hp.
  assert (L : forall z q, <[x := p']> (procs st) !! z = Some q -> exists q0, procs st !! z = Some q0 /\ actions q = actions q0 /\ threadlist q = threadlist q0 /\ parent q = parent q0).
  { intros z q. destruct (decide (z = x)) as [->|]; [rewrite lookup_insert_eq; intros [= <-]; by exists p|rewrite lookup_insert_ne by done; by exists q]. }
  assert (M : forall z, is_Some (procs st !! z) -> is_Some (<[x := p']> (procs st) !! z)).
  { intros z H. destruct (decide (z = x)) as [->|]; [rewrite lookup_insert_eq; by eexists|by rewrite lookup_insert_ne]. }
  split; cbn [procs threads put_proc].
  - intros z q Hz. destruct (L z q Hz) as (q0 & E0 & -> & _). by apply (A z).
  - intros z q y Hz Hy. destruct (L z q Hz) as (q0 & E0 & _ & T & _). rewrite T in Hy. by apply (B z q0).
  - intros z q y Hz Hy. destruct (L z q Hz) as (q0 & E0 & _ & _ & P). rewrite P in Hy. apply M. by apply (C z q0).
  - intros y t Et. apply M. by apply (D y).
Qed.

Definition same_parents (st st' : sig_st) : Prop := forall z, parent <$> procs st' !! z = parent <$> procs st !! z.

Lemma put_parents st x p p' : procs st !! x = Some p -> parent p' = parent p -> same_parents st (put_proc x p' st).
Proof.
  intros E H z. cbn [procs put_proc]. destruct (decide (z = x)) as [->|]; [rewrite lookup_insert_eq, E; cbn; by rewrite H|by rewrite lookup_insert_ne].
Qed.

Lemma shape_parents st st' : same_shape st st' -> same_parents st st'.
Proof. intros [S _] z. by rewrite S. Qed.

Lemma parents_trans a b c : same_parents a b -> same_parents b c -> same_parents a c.
Proof. intros A B z. by rewrite B, A. Qed.

Lemma parents_some st st' x p : same_parents st st' -> procs st !! x = Some p -> exists p', procs st' !! x = Some p' /\ parent p' = parent p.
Proof. intros S E. specialize (S x). rewrite E in S. destruct (procs st' !! x) as [p'|]; [|done]. exists p'. split; [done|]. by injection S. Qed.

Lemma deliver_not_continued ts g continued st r c st' : s_signal g <> SIGCONT -> s_signal g <> SIGKILL ->
  deliver_loop ts g continued st = Some (r, c, st') -> c = continued.
Proof.
  intros N1 N2. revert continued st. induction ts as [|x ts IH]; intros continued st; cbn [deliver_loop]; [by intros [= _ <- _]|].
  destruct (threads st !! x) as [t|]; [|done]. cbn [mbind option_bind].
  rewrite (proj2 (Z.eqb_neq _ _) N1), (proj2 (Z.eqb_neq _ _) N2). rewrite !andb_false_r.
  destruct (dead t); [apply IH|]. destruct (_ || s_notignorable g); [|apply IH]. cbv zeta. rewrite !orb_false_r.
  destruct (negb _); [by intros [= _ <- _]|apply IH].
Qed.

(** One level of sending, given how a parent is told. *)
Lemma signalproc_step n x p signal st : sig_wf st -> procs st !! x = Some p -> 1 <= signal < NSIG ->
  (signal_defaultactions signal = ACTION_STOP \/ signal = SIGCONT \/ signal = SIGKILL ->
   forall v b st1 p1, sig_wf st1 -> procs st1 !! x = Some p1 -> parent p1 = parent p ->
   exists st', tell_parent (signalproc_fuel n) x v b st1 = Some st' /\ sig_wf st' /\ same_parents st1 st') ->
  exists st', signalproc_fuel (S n) x signal st = Some st' /\ sig_wf st' /\ same_parents st st'.
Proof.
  intros W E Hs Tell. cbn [signalproc_fuel]. rewrite E. cbn [mbind option_bind].
  destruct (action_some p signal (sw_actions _ W _ _ E) Hs) as [a ->]. cbn [mbind option_bind].
  assert (A : all_there st (threadlist p)) by (intros z Hz; destruct (sw_threads _ W _ _ _ E Hz) as (t & Et & _); by eexists).
  destruct (deliver_loop_total (threadlist p) (sending_of a signal) false st A) as (r & c & st1 & E1 & S1). rewrite E1. cbn [mbind option_bind].
  destruct r; [exists st1; split; [done|]; split; [by eapply wf_shape|by apply shape_parents]|].
  match goal with |- context [if ?b then waiting_loop _ _ _ else _] => generalize b; intros held end.
  assert (H2 : exists r st2, (if held then waiting_loop (threadlist p) signal st1 else Some (false, st1)) = Some (r, st2) /\ same_shape st1 st2).
  { destruct held; [apply waiting_loop_total; by eapply all_there_shape|eauto with signals_db]. }
  destruct H2 as (r & st2 & -> & S2). cbn [mbind option_bind]. pose proof (same_shape_trans _ _ _ S1 S2) as S. pose proof (wf_shape _ _ S W) as W2.
  destruct r; [exists st2; split; [done|]; split; [done|by apply shape_parents]|].
  assert (E2 : procs st2 !! x = Some p) by (by rewrite (sh_procs _ _ S)). rewrite E2. cbn [mbind option_bind].
  match goal with |- context [if ?b then tell_parent _ _ _ true ?s else _] => set (st3 := s); set (stops := b) end.
  assert (H3 : exists p3, procs st3 !! x = Some p3 /\ parent p3 = parent p /\ sig_wf st3 /\ same_parents st st3).
  { unfold st3. pose proof (shape_parents _ _ S) as P2. destruct held; [|by exists p]. eexists. split; [apply lookup_insert_eq|]. split; [done|].
    split; [by eapply wf_put|]. eapply parents_trans; [exact P2|by eapply put_parents]. }
  destruct H3 as (p3 & E3 & P3 & W3 & P3'). assert (Hst : stops = true -> signal_defaultactions signal = ACTION_STOP) by (intros [_ H%bool_decide_eq_true]%andb_prop; done).
  clearbody st3 stops.
  assert (H4 : exists st4, (if stops then tell_parent (signalproc_fuel n) x (Z.lor 0x7f (Z.shiftl signal 8)) true st3 else Some st3) = Some st4 /\ sig_wf st4 /\ same_parents st3 st4).
  { destruct stops; [|by exists st3]. apply (Tell ltac:(auto) _ _ st3 p3); done. }
  destruct H4 as (st4 & -> & W4 & P4). cbn [mbind option_bind]. destruct (parents_some _ _ _ _ P4 E3) as (p4 & E4 & Pp4).
  assert (P5 : same_parents st st4) by (by eapply parents_trans). destruct c; [|by exists st4].
  assert (Hc : signal = SIGCONT \/ signal = SIGKILL).
  { destruct (decide (signal = SIGCONT)); [auto|]. destruct (decide (signal = SIGKILL)); [auto|]. by apply deliver_not_continued in E1. }
  destruct (Tell ltac:(auto) 0xffff false st4 p4 W4 E4 ltac:(congruence)) as (st5 & -> & W5 & P6). exists st5. split; [done|]. split; [done|by eapply parents_trans].
Qed.

Lemma give_unit_ok x st : sig_wf st -> is_Some (procs st !! x) -> exists st', give_unit x st = Some st' /\ sig_wf st' /\ same_parents st st'.
Proof.
  intros W [p E]. unfold give_unit. rewrite E. cbn [mbind option_bind]. eexists. split; [done|]. split; [by eapply wf_put|by eapply put_parents].
Qed.

Lemma tell_parent_ok n x v b st p y : sig_wf st -> procs st !! x = Some p -> parent p = Some y ->
  exists st', tell_parent (signalproc_fuel (S n)) x v b st = Some st' /\ sig_wf st' /\ same_parents st st'.
Proof.
  intros W E Py. unfold tell_parent. rewrite E. cbn [mbind option_bind].
  assert (W1 : sig_wf (put_proc x (set_child_state v b p) st)) by (by eapply wf_put).
  assert (P1 : same_parents st (put_proc x (set_child_state v b p) st)) by (by eapply put_parents).
  set (st1 := put_proc x (set_child_state v b p) st) in *. rewrite Py. cbn [mbind option_bind].
  destruct (sw_parents _ W _ _ _ E Py) as [py0 Ey0]. destruct (parents_some _ _ _ _ P1 Ey0) as (py & Ey & _). rewrite Ey. cbn [mbind option_bind].
  destruct (action_some py SIGCHLD (sw_actions _ W1 _ _ Ey) ltac:(unfold SIGCHLD, NSIG; lia)) as [a ->]. cbn [mbind option_bind].
  assert (H : exists st2, (if negb (has (flags a) SA_NOCLDSTOP) then signalproc_fuel (S n) y SIGCHLD st1 else Some st1) = Some st2 /\ sig_wf st2 /\ same_parents st1 st2).
  { destruct (negb _); [|exists st1; done]. apply (signalproc_step n y py); [done|done|done|]. intros [H|[H|H]]; discriminate H. }
  destruct H as (st2 & -> & W2 & P2). cbn [mbind option_bind]. destruct (parents_some _ _ _ _ P2 Ey) as (py2 & Ey2 & _).
  destruct (give_unit_ok y st2 W2 ltac:(by eexists)) as (st3 & E3 & W3 & P3). exists st3. split; [done|]. split; [done|].
  eapply parents_trans; [exact P1|]. by eapply parents_trans.
Qed.

(** ** Claims *)

(** Sending any signal to a process that has a parent completes, although a
    stop or a continue sends [SIGCHLD] on to the parent: the chain ends there.
    The processes and threads stay well formed. *)
Theorem signal_signalproc_total st x p signal :
  sig_wf st -> procs st !! x = Some p -> is_Some (parent p) -> 1 <= signal < NSIG ->
  exists st', signal_signalproc x signal st = Some st' /\ sig_wf st'.
Proof.
  intros W E [y Py] Hs. destruct (signalproc_step 1 x p signal st W E Hs) as (st' & E' & W' & _); [|by exists st'].
  intros _ v b st1 p1 W1 E1 P1. apply (tell_parent_ok 0 x v b st1 p1 y); congruence.
Qed.

(** The first live thread of a process, before which all are dead. *)
Definition first_live (st : sig_st) (ts : list nat) (y : nat) (t : thread_t) : Prop :=
  exists pre post, ts = pre ++ y :: post /\ threads st !! y = Some t /\ dead t = false /\
    forall z, z ∈ pre -> exists tz, threads st !! z = Some tz /\ dead tz = true.

Lemma deliver_skip pre rest g continued st : (forall z, z ∈ pre -> exists tz, threads st !! z = Some tz /\ dead tz = true) ->
  deliver_loop (pre ++ rest) g continued st = deliver_loop rest g continued st.
Proof.
  induction pre as [|z pre IH]; intros H; [done|]. destruct (H z) as (tz & Ez & Dz); [left|]. cbn [app deliver_loop]. rewrite Ez. cbn [mbind option_bind].
  rewrite Dz. apply IH. intros w Hw. apply H. by right.
Qed.

(** What [SIGKILL] does to the first live thread. *)
Definition killed (t : thread_t) : thread_t :=
  set_stopped false (set_pending (SIGNAL_SETON (pending t) SIGKILL) t).

Lemma kill_ok st x p y t : procs st !! x = Some p -> length (actions p) = 65%nat -> first_live st (threadlist p) y t ->
  signal_signalproc x SIGKILL st =
    Some (sched_wakeup y (if stopped t then 0 else SCHED_WAKEUP_REASON_INTERRUPTED) (put_thread y (killed t) st)).
Proof.
  intros E L (pre & post & Et & Ey & Dt & Hpre). unfold signal_signalproc. cbn [signalproc_fuel]. rewrite E. cbn [mbind option_bind].
  destruct (action_some p SIGKILL L ltac:(unfold SIGKILL, NSIG; lia)) as [a ->]. cbn [mbind option_bind].
  rewrite Et, deliver_skip by done. cbn [deliver_loop]. rewrite Ey. cbn [mbind option_bind]. rewrite Dt.
  change (s_notignorable (sending_of a SIGKILL)) with true. rewrite !orb_true_r. cbv zeta. change (s_signal (sending_of a SIGKILL)) with SIGKILL.
  change (SIGKILL =? SIGCONT) with false. change (SIGKILL =? SIGKILL) with true. cbn [orb]. rewrite !andb_false_r, !andb_true_r.
  assert (N : s_shouldstop (sending_of a SIGKILL) = false) by (cbn; rewrite andb_false_r; done). rewrite N. cbn [orb negb mbind option_bind].
  destruct t as [tp td tm tpe tu tw tr th ts tk tv]. cbn [stopped set_pending killed set_stopped] in *. by destruct ts.
Qed.

(** What a thread that was woken does first: one that slept stopped leaves its
    check, which asks for another one, and any other runs the check on its way to
    user mode. *)
Definition woken_check (was_stopped : bool) (touser : Z -> bool) (cpu : cpu_t) (ctx : context_t) (sysret : option (Z * Z)) (p : proc_t) (t : thread_t)
    : option (check_t * proc_t * thread_t) :=
  if was_stopped then _ ← signal_check_resume t; signal_check touser cpu ctx sysret p t else signal_check touser cpu ctx sysret p t.

(** C27. [SIGKILL] cannot be blocked or caught: sent to a process, its first live
    thread is woken, and if it was not stopped its next check ends the process,
    whatever its mask, its actions and its other pending signals are.  If it was
    stopped the wakeup fails the assertion that it came from [SIGCONT], and the
    kernel stops; only with a [SIGCONT] pending does it terminate. *)
Theorem signal_kill_outcome st x p y t touser cpu ctx sysret p' :
  procs st !! x = Some p -> length (actions p) = 65%nat -> first_live st (threadlist p) y t ->
  exists st' t', signal_signalproc x SIGKILL st = Some st' /\ threads st' !! y = Some t' /\ mask t' = mask t /\
    woken st' = (y, if stopped t then 0 else SCHED_WAKEUP_REASON_INTERRUPTED) :: woken st /\
    woken_check (stopped t) touser cpu ctx sysret p' t' =
      if stopped t && negb (SIGNAL_GET (pending t) SIGCONT) then None else Some (Check_terminate SIGKILL, p', t').
Proof.
  intros E L F. exists (sched_wakeup y (if stopped t then 0 else SCHED_WAKEUP_REASON_INTERRUPTED) (put_thread y (killed t) st)), (killed t).
  split; [exact (kill_ok st x p y t E L F)|]. split; [apply lookup_insert_eq|]. split; [done|]. split; [reflexivity|].
  assert (C : signal_check touser cpu ctx sysret p' (killed t) = Some (Check_terminate SIGKILL, p', killed t)).
  { unfold signal_check, killed. cbn [pending set_stopped set_pending]. rewrite get_on, Z.eqb_refl, orb_true_r by (unfold SIGKILL; lia). done. }
  unfold woken_check. destruct (stopped t); [|exact C]. rewrite C. unfold signal_check_resume, passert.
  cbn [killed pending set_stopped set_pending stopped negb]. rewrite get_on by (unfold SIGKILL; lia). change (SIGKILL =? SIGCONT) with false. cbn [orb andb].
  by destruct (SIGNAL_GET (pending t) SIGCONT).
Qed.

(** A signal the check may handle. *)
Definition deliverable (p : proc_t) (t : thread_t) (i : Z) : bool :=
  negb (SIGNAL_GET (mask t) i) && (SIGNAL_GET (pending t) i || SIGNAL_GET (ppending p) i).

Lemma first_unmasked_spec l p t : StronglySorted Z.lt l ->
  match first_unmasked l p t with
  | Some (i, src) => i ∈ l /\ deliverable p t i = true /\ src = (if SIGNAL_GET (pending t) i then From_thread else From_proc) /\ (forall j, j ∈ l -> j < i -> deliverable p t j = false)
  | None => forall j, j ∈ l -> deliverable p t j = false
  end.
Proof.
  induction l as [|i l IH]; intros S; cbn [first_unmasked]; [intros j Hj; by apply not_elem_of_nil in Hj|]. apply StronglySorted_inv in S as [S Fi]. specialize (IH S).
  rewrite Forall_forall in Fi. assert (Low : forall j, j ∈ i :: l -> j < i -> False) by (intros j [->|Hj]%elem_of_cons Lt; [lia|specialize (Fi j Hj); lia]).
  assert (Def : deliverable p t i = negb (SIGNAL_GET (mask t) i) && (SIGNAL_GET (pending t) i || SIGNAL_GET (ppending p) i)) by done.
  assert (Skip : deliverable p t i = false -> match first_unmasked l p t with
    | Some (k, src) => k ∈ i :: l /\ deliverable p t k = true /\ src = (if SIGNAL_GET (pending t) k then From_thread else From_proc) /\ (forall j, j ∈ i :: l -> j < k -> deliverable p t j = false)
    | None => forall j, j ∈ i :: l -> deliverable p t j = false
    end).
  { intros Hi. destruct (first_unmasked l p t) as [[k src]|].
    - destruct IH as (I1 & I2 & I3 & I4). split; [by right|]. split; [done|]. split; [done|]. intros j [->|Hj]%elem_of_cons; auto.
    - intros j [->|Hj]%elem_of_cons; auto. }
  destruct (SIGNAL_GET (mask t) i) eqn:Em; [apply Skip; by rewrite Def|].
  destruct (SIGNAL_GET (pending t) i) eqn:Ep; [split; [apply list_elem_of_here|]; split; [by rewrite Def|]; split; [by rewrite Ep|]; intros j Hj Lt; destruct (Low j Hj Lt)|].
  destruct (SIGNAL_GET (ppending p) i) eqn:Eq; [split; [apply list_elem_of_here|]; split; [by rewrite Def|]; split; [by rewrite Ep|]; intros j Hj Lt; destruct (Low j Hj Lt)|].
  apply Skip. by rewrite Def.
Qed.

Lemma signals_sorted : StronglySorted Z.lt signals.
Proof. unfold signals. vm_compute (seqZ 1 (NSIG - 1)). repeat constructor. Qed.

Definition no_urgent (t : thread_t) : Prop := forall j, 1 <= j < NSIG -> SIGNAL_GET (urgent t) j = false.

Lemma last_urgent_spec l t found : StronglySorted Z.lt l ->
  match last_urgent l t found with
  | Some i => (i ∈ l /\ SIGNAL_GET (urgent t) i = true /\ forall j, j ∈ l -> i < j -> SIGNAL_GET (urgent t) j = false) \/
              (found = Some i /\ forall j, j ∈ l -> SIGNAL_GET (urgent t) j = false)
  | None => found = None /\ forall j, j ∈ l -> SIGNAL_GET (urgent t) j = false
  end.
Proof.
  revert found. induction l as [|k l IH]; intros found S; cbn [last_urgent].
  { destruct found; [right|]; (split; [done|]; intros j Hj; by apply not_elem_of_nil in Hj). }
  apply StronglySorted_inv in S as [S Fk]. rewrite Forall_forall in Fk. specialize (IH (if SIGNAL_GET (urgent t) k then Some k else found) S).
  destruct (last_urgent l t _) as [i|]; cbn zeta in IH.
  - destruct IH as [(Hi & Ui & Hg)|(Ef & Hn)].
    + left. split; [by right|]. split; [done|]. intros j [->|Hj]%elem_of_cons Lt; [specialize (Fk i Hi); lia|auto].
    + destruct (SIGNAL_GET (urgent t) k) eqn:Uk.
      * injection Ef as <-. left. split; [left|]. split; [done|]. intros j [->|Hj]%elem_of_cons Lt; [lia|auto].
      * right. split; [done|]. intros j [->|Hj]%elem_of_cons; auto.
  - destruct IH as [Ef Hn]. destruct (SIGNAL_GET (urgent t) k) eqn:Uk; [done|]. split; [done|]. intros j [->|Hj]%elem_of_cons; auto.
Qed.

(** The signal a check turns to: the highest urgent one, masked or not; without
    one, the lowest that is pending and not masked. *)
Definition turns_to (p : proc_t) (t : thread_t) (i : Z) (is_urgent : bool) : Prop :=
  if is_urgent then SIGNAL_GET (urgent t) i = true /\ forall j, i < j < NSIG -> SIGNAL_GET (urgent t) j = false
  else no_urgent t /\ deliverable p t i = true /\ forall j, 1 <= j < i -> deliverable p t j = false.

(** It is taken off the set it was found in, and nothing else is. *)
Definition taken_off (p : proc_t) (t : thread_t) (i : Z) (is_urgent : bool) (p' : proc_t) (t' : thread_t) : Prop :=
  urgent t' = (if is_urgent then SIGNAL_SETOFF (urgent t) i else urgent t) /\
  pending t' = (if negb is_urgent && SIGNAL_GET (pending t) i then SIGNAL_SETOFF (pending t) i else pending t) /\
  ppending p' = (if negb is_urgent && negb (SIGNAL_GET (pending t) i) then SIGNAL_SETOFF (ppending p) i else ppending p).

(** What the check does with signal [i] under action [a]: an ignored one is
    skipped unless it is urgent, the default action is taken when it is the
    action or when an urgent one is ignored, and otherwise the handler runs, or
    the process ends when its frame cannot be pushed. *)
Definition acted (t : thread_t) (i : Z) (is_urgent : bool) (a : sigaction_t) (c : check_t) : Prop :=
  if (address a =? SIG_IGN) && negb is_urgent then c = Check_done true
  else if ((address a =? SIG_DFL) && negb (has (flags a) SA_SIGINFO)) || (address a =? SIG_IGN) then
    match signal_defaultactions i with
    | ACTION_IGN | ACTION_CONT => c = Check_done true
    | ACTION_CORE | ACTION_TERM => c = Check_terminate i
    | ACTION_STOP => c = if SIGNAL_GET (pending t) SIGCONT then Check_done true else Check_stopped
    end
  else c = Check_terminate SIGSEGV \/ exists new frame sp, c = Check_handler new frame sp /\ rdi new = i /\ rip new = address a.

Lemma select_spec p t :
  match select p t with
  | Some (i, src) => 1 <= i < NSIG /\ exists is_urgent, turns_to p t i is_urgent /\
      src = (if is_urgent then From_urgent else if SIGNAL_GET (pending t) i then From_thread else From_proc)
  | None => no_urgent t /\ forall j, 1 <= j < NSIG -> deliverable p t j = false
  end.
Proof.
  unfold select. pose proof (last_urgent_spec signals t None signals_sorted) as U. destruct (last_urgent signals t None) as [i|].
  { destruct U as [(Hi & Ui & Hg)|[? _]]; [|done]. apply elem_of_signals in Hi. split; [done|]. exists true. split; [|done]. split; [done|].
    intros j Hj. apply Hg; [apply elem_of_signals; lia|lia]. }
  destruct U as [_ U]. assert (Nu : no_urgent t) by (intros j Hj; by apply U, elem_of_signals).
  pose proof (first_unmasked_spec signals p t signals_sorted) as F. destruct (first_unmasked signals p t) as [[i src]|] eqn:Ef.
  - destruct F as (Hi & Di & Hsrc & Lo). apply elem_of_signals in Hi. split; [done|]. exists false. split; [|done]. split; [done|]. split; [done|].
    intros j Hj. apply Lo; [apply elem_of_signals; lia|lia].
  - split; [done|]. intros j Hj. by apply F, elem_of_signals.
Qed.

Lemma run_handler_acted touser cpu i a ctx sysret p t : exists c p' t', run_handler touser cpu i a ctx sysret p t = (c, p', t') /\
  (c = Check_terminate SIGSEGV \/ exists new frame sp, c = Check_handler new frame sp /\ rdi new = i /\ rip new = address a) /\
  urgent t' = urgent t /\ pending t' = pending t /\ ppending p' = ppending p.
Proof.
  unfold run_handler. cbv zeta. destruct (negb (touser _)); eexists _, _, _; (split; [reflexivity|]).
  - split; [by left|]. by destruct (_ && _).
  - split; [right; by eexists _, _, _|]. by destruct (_ && _), (has (flags a) SA_RESETHAND).
Qed.

(** C28. What a check acts on.  A pending [SIGKILL] ends the process, masked or
    not.  Otherwise it turns to the highest urgent signal, masked or not; with
    none urgent, to the lowest pending one that is not masked; and with none of
    those it does nothing.  It takes that signal off the set it came from,
    leaves every other one pending, and does with it what its action says. *)
Theorem signal_check_acts touser cpu ctx sysret p t :
  length (actions p) = 65%nat ->
  exists c p' t', signal_check touser cpu ctx sysret p t = Some (c, p', t') /\
    if SIGNAL_GET (ppending p) SIGKILL || SIGNAL_GET (pending t) SIGKILL then c = Check_terminate SIGKILL /\ p' = p /\ t' = t
    else (c = Check_done false /\ p' = p /\ t' = t /\ no_urgent t /\ forall j, 1 <= j < NSIG -> deliverable p t j = false) \/
         (exists i a is_urgent, 1 <= i < NSIG /\ turns_to p t i is_urgent /\ action_of p i = Some a /\ taken_off p t i is_urgent p' t' /\ acted t' i is_urgent a c).
Proof.
  intros L. unfold signal_check. destruct (_ || _); [by eexists _, _, _|]. pose proof (select_spec p t) as S.
  destruct (select p t) as [[i src]|]; [|eexists _, _, _; split; [reflexivity|]; left; tauto].
  destruct S as (Hi & g & Tg & Hsrc). destruct (action_some p i L Hi) as [a Ea]. rewrite Ea. cbn [mbind option_bind].
  assert (Off : taken_off p t i g (take_off i src p t).1 (take_off i src p t).2).
  { rewrite Hsrc. unfold taken_off. destruct g; [done|]. by destruct (SIGNAL_GET (pending t) i). }
  destruct (take_off i src p t) as [p1 t1]. cbn [fst snd] in Off.
  replace (match src with From_urgent => true | _ => false end) with g by (rewrite Hsrc; destruct g; [done|by destruct (SIGNAL_GET (pending t) i)]).
  assert (Kept : forall c p' t', urgent t' = urgent t1 -> pending t' = pending t1 -> ppending p' = ppending p1 -> acted t' i g a c ->
    exists i a g, 1 <= i < NSIG /\ turns_to p t i g /\ action_of p i = Some a /\ taken_off p t i g p' t' /\ acted t' i g a c).
  { intros c p' t' H1 H2 H3 H4. exists i, a, g. split; [done|]. split; [done|]. split; [done|]. split; [|done]. unfold taken_off. by rewrite H1, H2, H3. }
  destruct ((address a =? SIG_IGN) && negb g) eqn:Ig.
  { eexists _, _, _. split; [reflexivity|]. right. apply Kept; try done. unfold acted. by rewrite Ig. }
  destruct (((address a =? SIG_DFL) && negb (has (flags a) SA_SIGINFO)) || ((address a =? SIG_IGN) && g)) eqn:Df.
  - assert (Df' : ((address a =? SIG_DFL) && negb (has (flags a) SA_SIGINFO)) || (address a =? SIG_IGN) = true).
    { destruct (_ && negb (has _ _)); [done|]. cbn [orb] in *. by apply andb_prop in Df as [-> _]. }
    destruct (signal_defaultactions i) eqn:Da;
      try (eexists _, _, _; split; [reflexivity|]; right; apply Kept; try done; unfold acted; by rewrite Ig, Df', Da).
    destruct (SIGNAL_GET (pending t1) SIGCONT) eqn:Pc; eexists _, _, _; (split; [reflexivity|]); right; apply Kept; try done;
      unfold acted; rewrite Ig, Df', Da; cbn [pending set_stopped]; by rewrite Pc.
  - assert (Df' : ((address a =? SIG_DFL) && negb (has (flags a) SA_SIGINFO)) || (address a =? SIG_IGN) = false).
    { destruct (_ && negb (has _ _)); [done|]. cbn [orb] in *. destruct (address a =? SIG_IGN), g; done. }
    destruct (run_handler_acted touser cpu i a ctx sysret p1 t1) as (c & p' & t' & -> & H & H1 & H2 & H3).
    eexists _, _, _. split; [reflexivity|]. right. apply Kept; try done. unfold acted. by rewrite Ig, Df'.
Qed.

(** C30. Returning from a handler undoes what running it did to the thread: with
    the frame as it was pushed, [sigreturn] puts back the interrupted context,
    with the results of the system call it interrupted, the segment bases and the
    floating point state of the processor, and the mask of before, or the one to
    return to when there was one.  The alternate stack is put back only when the
    handler ran on it, and is lost otherwise. *)
Theorem sigreturn_restores touser cpu signal a ctx sysret p t new frame sp p' t' t2 :
  cs ctx = 0x23 -> run_handler touser cpu signal a ctx sysret p t = (Check_handler new frame sp, p', t') ->
  exists ctx' cpu' t3, syscall_sigreturn (Some frame) t2 = Some (inr (ctx', cpu'), t3) /\
    mask t3 = (if hasreturnmask t then returnmask t else mask t) /\ rip ctx' = rip ctx /\ rsp ctx' = rsp ctx /\ others ctx' = others ctx /\
    (forall ret errno, sysret = Some (ret, errno) -> rax ctx' = ret /\ rdx ctx' = errno) /\ (sysret = None -> ctx' = ctx) /\
    stack t3 = (if has (flags a) SA_ONSTACK && (ssize (stack t) >? 0) && negb (sbase (stack t) =? 0) then stack t else no_stack) /\
    cpu' = mk_cpu (msr_kernelgsbase cpu) (msr_fsbase cpu) (fpu cpu) (cpu_mxcsr cpu) (kernelstacktop (saved t2)) /\
    textracontext (saved t3) = textracontext (saved t').
Proof.
  intros C H. unfold run_handler in H. cbv zeta in H. destruct (touser _) in H; [|done]. injection H as _ <- _ _ <-.
  unfold syscall_sigreturn. cbn [fcontext oldstack oldmask signal_altstack]. unfold signal_changemask, ARCH_CONTEXT_ISUSER, passert.
  change ((SIG_SETMASK =? SIG_BLOCK) || (SIG_SETMASK =? SIG_UNBLOCK)) with false. change (SIG_SETMASK =? SIG_SETMASK) with true.
  destruct sysret as [[ret errno]|]; cbn [cs fcontext]; rewrite C; cbn [negb Z.eqb Pos.eqb mbind option_bind].
  - eexists _, _, _. split; [reflexivity|]. cbn [mask set_mask set_stack set_saved stack rip rsp others rax rdx]. do 4 (split; [done|]).
    split; [by intros ? ? [= <- <-]|]. split; [done|]. split; [done|]. split; [done|]. by destruct (_ && _).
  - eexists _, _, _. split; [reflexivity|]. cbn [mask set_mask set_stack set_saved stack rip rsp others rax rdx]. do 4 (split; [done|]).
    split; [done|]. split; [done|]. split; [done|]. split; [done|]. by destruct (_ && _).
Qed.

(** Blocking adds the set to the mask and unblocking takes it away, for every
    signal there is; the old mask is returned. *)
Theorem changemask_spec how new t j :
  how = SIG_BLOCK \/ how = SIG_UNBLOCK -> 1 <= j < NSIG ->
  exists t', signal_changemask how (Some new) t = Some (mask t, t') /\
    SIGNAL_GET (mask t') j = (if how =? SIG_BLOCK then SIGNAL_GET (mask t) j || SIGNAL_GET new j else SIGNAL_GET (mask t) j && negb (SIGNAL_GET new j)).
Proof.
  intros Hh Hj. exists (set_mask (fold_left (changemask_one how new) signals (mask t)) t).
  assert (B : (how =? SIG_BLOCK) || (how =? SIG_UNBLOCK) = true) by (destruct Hh as [-> | ->]; reflexivity).
  unfold signal_changemask. rewrite B. split; [reflexivity|]. cbn [mask set_mask]. 
  rewrite fold_changemask by (intros i Hi; apply elem_of_signals in Hi; lia). rewrite bool_decide_true by (by apply elem_of_signals).
  destruct Hh as [-> | ->]; cbn [andb Z.eqb SIG_BLOCK SIG_UNBLOCK Pos.eqb negb orb]; destruct (SIGNAL_GET new j), (SIGNAL_GET (mask t) j); done.
Qed.

(** A user program can stop the kernel: [sigaction] lets the signal number
    one past the last one, and every negative one, through to an assertion. *)
Theorem sigaction_panics x sig new st :
  sig = NSIG \/ sig < 0 -> has (flags new) SA_RESTORER = true -> syscall_sigaction x sig (Some new) st = None.
Proof.
  intros H R. unfold syscall_sigaction, signal_action, passert, NSIG, SIGKILL, SIGSTOP in *. rewrite R.
  destruct (_ || _ || _) eqn:G; [lia|]. cbn [negb]. destruct (_ && _) eqn:G2; [lia|]. done.
Qed.

Lemma deliver_none ts g c st : s_notignorable g = false ->
  (forall y, y ∈ ts -> exists t, threads st !! y = Some t /\ (dead t = true \/ SIGNAL_GET (mask t) (s_signal g) = true)) ->
  deliver_loop ts g c st = Some (false, c, st).
Proof.
  intros N. induction ts as [|x ts IH]; intros H; [done|]. destruct (H x) as (t & Et & Ht); [left|]. cbn [deliver_loop]. rewrite Et. cbn [mbind option_bind].
  assert (R : deliver_loop ts g c st = Some (false, c, st)) by (apply IH; intros y Hy; apply H; by right).
  destruct (dead t) eqn:D; [done|]. destruct Ht as [?|M]; [done|]. rewrite M, N. done.
Qed.

Lemma waiting_loop_spec ts signal st r st' : 1 <= signal -> waiting_loop ts signal st = Some (r, st') ->
  if r then exists y t', y ∈ ts /\ threads st' !! y = Some t' /\ SIGNAL_GET (pending t') signal = true /\ SIGNAL_GET (waiting t') signal = true /\ y ∈ events st'
  else st' = st.
Proof.
  intros Hs. induction ts as [|x ts IH]; cbn [waiting_loop]; [by intros [= <- <-]|].
  destruct (threads st !! x) as [t|]; [|done]. cbn [mbind option_bind]. destruct (SIGNAL_GET (waiting t) signal) eqn:Wt.
  - intros [= <- <-]. exists x. eexists. split; [left|]. split; [apply lookup_insert_eq|]. cbn [pending set_pending waiting events EVENT_SIGNAL].
    split; [by rewrite get_on, Z.eqb_refl by done|]. split; [done|left].
  - intros E. specialize (IH E). destruct r; [|done]. destruct IH as (y & t' & Hy & R). exists y, t'. split; [by right|done].
Qed.

(** The loops touch no thread outside their list. *)
Lemma deliver_loop_frame ts g c st r c' st' : deliver_loop ts g c st = Some (r, c', st') -> forall z, z ∉ ts -> threads st' !! z = threads st !! z.
Proof.
  revert c st. induction ts as [|x ts IH]; intros c st; cbn [deliver_loop]; [by intros [= _ _ <-]|].
  destruct (threads st !! x) as [t|]; [|done]. cbn [mbind option_bind]. intros H z [Nz Nt]%not_elem_of_cons.
  assert (Go : forall c1 st1, deliver_loop ts g c1 st1 = Some (r, c', st') -> threads st1 !! z = threads st !! z -> threads st' !! z = threads st !! z).
  { intros c1 st1 E1 E2. by rewrite (IH _ _ E1 z Nt). }
  destruct (dead t); [by eapply Go|]. destruct (_ || s_notignorable g); [|by eapply Go]. cbv zeta in H.
  destruct (_ && _ && _) in H; [eapply Go; [exact H|]; by apply lookup_insert_ne|].
  match type of H with context [deliver_loop ts g _ ?s] => assert (S1 : threads s !! z = threads st !! z) end.
  { repeat case_match; cbn [threads sched_wakeup put_thread]; by apply lookup_insert_ne. }
  destruct (negb _) in H; [by injection H as _ _ <-|by eapply Go].
Qed.

Lemma waiting_loop_frame ts signal st r st' : waiting_loop ts signal st = Some (r, st') -> forall z, z ∉ ts -> threads st' !! z = threads st !! z.
Proof.
  induction ts as [|x ts IH]; cbn [waiting_loop]; [by intros [= _ <-]|]. destruct (threads st !! x) as [t|]; [|done]. cbn [mbind option_bind].
  intros H z [Nz Nt]%not_elem_of_cons. destruct (SIGNAL_GET _ _); [injection H as _ <-; by apply lookup_insert_ne|by apply IH].
Qed.

(** [SIGCHLD] changes its receiver and the threads of its receiver only. *)
Lemma sigchld_frame n y st st' : sig_wf st -> signalproc_fuel (S n) y SIGCHLD st = Some st' ->
  (forall z t, threads st !! z = Some t -> tproc t <> y -> threads st' !! z = Some t) /\ (forall x, x <> y -> procs st' !! x = procs st !! x).
Proof.
  intros W. cbn [signalproc_fuel]. destruct (procs st !! y) as [py|] eqn:Ey; [|done]. cbn [mbind option_bind]. destruct (action_of py SIGCHLD) as [a|]; [|done]. cbn [mbind option_bind].
  assert (A : all_there st (threadlist py)) by (intros z Hz; destruct (sw_threads _ W _ _ _ Ey Hz) as (t & Et & _); by eexists).
  assert (Out : forall z t, threads st !! z = Some t -> tproc t <> y -> z ∉ threadlist py).
  { intros z t Et Nt Hz. destruct (sw_threads _ W _ _ _ Ey Hz) as (t0 & Et0 & Ht0). congruence. }
  destruct (deliver_loop_total (threadlist py) (sending_of a SIGCHLD) false st A) as (r & c & st1 & E1 & S1). rewrite E1. cbn [mbind option_bind].
  pose proof (deliver_loop_frame _ _ _ _ _ _ _ E1) as F1. apply deliver_not_continued in E1 as ->; [|done..].
  destruct r; [intros [= <-]; split; [intros z t Et Nt; rewrite F1 by (by eapply Out); done|intros x Nx; by rewrite (sh_procs _ _ S1)]|].
  match goal with |- context [if ?b then waiting_loop _ _ _ else _] => generalize b; intros held end.
  assert (H2 : exists r st2, (if held then waiting_loop (threadlist py) SIGCHLD st1 else Some (false, st1)) = Some (r, st2) /\ same_shape st1 st2 /\
    forall z, z ∉ threadlist py -> threads st2 !! z = threads st1 !! z).
  { destruct held; [|eauto with signals_db]. destruct (waiting_loop_total (threadlist py) SIGCHLD st1 (all_there_shape _ _ _ S1 A)) as (r & st2 & E2 & S2).
    exists r, st2. split; [done|]. split; [done|]. exact (waiting_loop_frame _ _ _ _ _ E2). }
  destruct H2 as (r & st2 & -> & S2 & F2). cbn [mbind option_bind]. pose proof (same_shape_trans _ _ _ S1 S2) as S.
  assert (G : forall z t, threads st !! z = Some t -> tproc t <> y -> threads st2 !! z = Some t) by (intros z t Et Nt; rewrite F2, F1 by (by eapply Out); done).
  destruct r; [intros [= <-]; split; [done|intros x Nx; by rewrite (sh_procs _ _ S)]|].
  rewrite (sh_procs _ _ S), Ey. cbn [mbind option_bind]. change (bool_decide (signal_defaultactions SIGCHLD = ACTION_STOP)) with false. rewrite andb_false_r.
  cbn [mbind option_bind]. intros [= <-]. destruct held; (split; [done|]); intros x Nx; cbn [procs put_proc]; rewrite ?lookup_insert_ne by done; by rewrite (sh_procs _ _ S).
Qed.

(** Telling the parent leaves the threads of the process alone. *)
Lemma tell_parent_keeps n x v b st p y : sig_wf st -> procs st !! x = Some p -> parent p = Some y -> y <> x ->
  exists st', tell_parent (signalproc_fuel (S n)) x v b st = Some st' /\ procs st' !! x = Some (set_child_state v b p) /\
    forall z t, threads st !! z = Some t -> tproc t = x -> threads st' !! z = Some t.
Proof.
  intros W E Py Ny. destruct (tell_parent_ok n x v b st p y W E Py) as (st' & Et & _). exists st'. split; [done|].
  unfold tell_parent in Et. rewrite E in Et. cbn [mbind option_bind] in Et. rewrite Py in Et. cbn [mbind option_bind] in Et.
  assert (W1 : sig_wf (put_proc x (set_child_state v b p) st)) by (by eapply wf_put). set (st1 := put_proc x _ st) in *.
  assert (E1 : procs st1 !! x = Some (set_child_state v b p)) by apply lookup_insert_eq.
  destruct (procs st1 !! y) as [py|]; [|done]. cbn [mbind option_bind] in Et. destruct (action_of py SIGCHLD) as [a|]; [|done]. cbn [mbind option_bind] in Et.
  assert (H : exists st2, (if negb (has (flags a) SA_NOCLDSTOP) then signalproc_fuel (S n) y SIGCHLD st1 else Some st1) = Some st2 /\
    procs st2 !! x = procs st1 !! x /\ forall z t, threads st1 !! z = Some t -> tproc t = x -> threads st2 !! z = Some t).
  { destruct (negb _); [|by exists st1]. destruct (signalproc_fuel (S n) y SIGCHLD st1) as [st2|] eqn:E2; [|done]. exists st2. split; [done|].
    apply sigchld_frame in E2 as [F1 F2]; [|done]. split; [by apply F2|]. intros z t Ez Tz. apply F1; [done|congruence]. }
  destruct H as (st2 & E2 & P2 & T2). rewrite E2 in Et. cbn [mbind option_bind] in Et. unfold give_unit in Et.
  destruct (procs st2 !! y) as [q|]; [|done]. injection Et as <-. cbn [procs threads put_proc]. rewrite lookup_insert_ne by done. split; [by rewrite P2|exact T2].
Qed.

(** What [SIGCONT] does to a live thread. *)
Definition continued_thread (t : thread_t) : thread_t :=
  let t' := set_pending (SIGNAL_SETON (pending t) SIGCONT) t in
  if stopped t then set_stopped false t' else set_pending (SIGNAL_SETOFF (pending t') SIGCONT) t'.

Lemma deliver_cont ts a c st : NoDup ts -> all_there st ts ->
  exists c' st', deliver_loop ts (sending_of a SIGCONT) c st = Some (false, c', st') /\ same_shape st st' /\
    forall z t, threads st !! z = Some t -> threads st' !! z = Some (if bool_decide (z ∈ ts) && negb (dead t) then continued_thread t else t).
Proof.
  revert c st. induction ts as [|x ts IH]; intros c st Nd A; [eexists c, st; split; [reflexivity|]; split; [apply same_shape_refl|done]|].
  apply NoDup_cons in Nd as [Nx Nd]. destruct (A x) as [t E]; [left|]. cbn [deliver_loop]. rewrite E. cbn [mbind option_bind].
  assert (Go : forall c1 st1 t1, same_shape st st1 -> threads st1 !! x = Some t1 -> t1 = (if dead t then t else continued_thread t) ->
    (forall z, z <> x -> threads st1 !! z = threads st !! z) ->
    exists c' st', deliver_loop ts (sending_of a SIGCONT) c1 st1 = Some (false, c', st') /\ same_shape st st' /\
      forall z u, threads st !! z = Some u -> threads st' !! z = Some (if bool_decide (z ∈ x :: ts) && negb (dead u) then continued_thread u else u)).
  { intros c1 st1 t1 S1 E1 H1 Ot. destruct (IH c1 st1 Nd) as (c' & st' & Eq & S' & H'); [eapply all_there_shape; [exact S1|]; intros z Hz; apply A; by right|].
    exists c', st'. split; [done|]. split; [by eapply same_shape_trans|]. intros z u Ez. destruct (decide (z = x)) as [->|Nz].
    - assert (u = t) as -> by congruence. rewrite (bool_decide_true (x ∈ x :: ts)) by left. rewrite (H' x t1 E1), (bool_decide_false (x ∈ ts)), H1 by done.
      by destruct (dead t).
    - rewrite (H' z u) by (by rewrite Ot). by rewrite (bool_decide_ext (z ∈ x :: ts) (z ∈ ts)) by (rewrite elem_of_cons; tauto). }
  destruct (dead t) eqn:D; [by eapply Go|]. change (s_notignorable (sending_of a SIGCONT)) with true. rewrite !orb_true_r. cbv zeta.
  change (s_signal (sending_of a SIGCONT)) with SIGCONT. change (SIGCONT =? SIGCONT) with true. cbn [orb andb stopped set_pending]. rewrite ?andb_true_r. cbn [negb].
  assert (Ct : continued_thread t = if stopped t then set_stopped false (set_pending (SIGNAL_SETON (pending t) SIGCONT) t)
    else set_pending (SIGNAL_SETOFF (SIGNAL_SETON (pending t) SIGCONT) SIGCONT) (set_pending (SIGNAL_SETON (pending t) SIGCONT) t)) by done.
  destruct (stopped t); cbn [negb andb]; (eapply Go; [|apply lookup_insert_eq|by rewrite Ct|intros z Nz; by apply lookup_insert_ne]).
  - by apply wake_shape, (put_shape x t).
  - by apply (put_shape x t).
Qed.

(** C29. What becomes of a signal sent to a process, which has a parent, while
    every live thread blocks it.  [SIGCONT] is handed to the stopped threads,
    which it wakes, and is pending nowhere else: without a stopped thread it is
    dropped.  A stop signal under its default action is dropped, although the
    parent is told that the process stopped.  Any other signal, whatever its
    action, becomes pending in a thread that waits for it, which is told, or in
    the process, where the check of any thread that has it unblocked finds it.
    [SIGKILL] and [SIGSTOP] cannot be blocked. *)
Theorem signal_blocked_outcome st x p y signal a :
  sig_wf st -> procs st !! x = Some p -> parent p = Some y -> y <> x -> NoDup (threadlist p) -> 1 <= signal < NSIG ->
  signal <> SIGKILL -> signal <> SIGSTOP -> action_of p signal = Some a ->
  (forall z t, z ∈ threadlist p -> threads st !! z = Some t -> dead t = false -> SIGNAL_GET (mask t) signal = true) ->
  exists st' p', signal_signalproc x signal st = Some st' /\ procs st' !! x = Some p' /\
    if signal =? SIGCONT then
      ppending p' = ppending p /\ forall z t, z ∈ threadlist p -> threads st !! z = Some t -> dead t = false ->
        exists t', threads st' !! z = Some t' /\ SIGNAL_GET (pending t') SIGCONT = stopped t /\ stopped t' = false
    else if (address a =? SIG_DFL) && bool_decide (signal_defaultactions signal = ACTION_STOP) then
      ppending p' = ppending p /\ stopunwaited p' = true /\ forall z t, z ∈ threadlist p -> threads st !! z = Some t -> threads st' !! z = Some t
    else
      (exists z t', z ∈ threadlist p /\ threads st' !! z = Some t' /\ SIGNAL_GET (pending t') signal = true /\
         SIGNAL_GET (waiting t') signal = true /\ z ∈ events st') \/
      ((forall t, SIGNAL_GET (mask t) signal = false -> deliverable p' t signal = true) /\
       forall z t, z ∈ threadlist p -> threads st !! z = Some t -> threads st' !! z = Some t).
Proof.
  intros W E Py Ny Nd Hs Nk Ns Ea Hm. unfold signal_signalproc. remember 1%nat as one eqn:One. cbn [signalproc_fuel]. rewrite E. cbn [mbind option_bind].
  rewrite Ea. cbn [mbind option_bind].
  assert (A : all_there st (threadlist p)) by (intros z Hz; destruct (sw_threads _ W _ _ _ E Hz) as (t & Et & _); by eexists).
  assert (Own : forall st1 z t, same_shape st st1 -> z ∈ threadlist p -> threads st1 !! z = Some t -> tproc t = x).
  { intros st1 z t S1 Hz Et. destruct (sw_threads _ W _ _ _ E Hz) as (t0 & Et0 & Ht0). destruct (same_shape_some _ _ _ _ S1 Et0) as (t1 & Et1 & Ht1). congruence. }
  assert (Tell : forall c v b st1 p1, same_shape st st1 \/ st1 = put_proc x p1 st -> procs st1 !! x = Some p1 -> actions p1 = actions p -> threadlist p1 = threadlist p -> parent p1 = parent p ->
    exists st', (if c : bool then tell_parent (signalproc_fuel one) x v b st1 else Some st1) = Some st' /\
      procs st' !! x = Some (if c then set_child_state v b p1 else p1) /\ forall z t, z ∈ threadlist p -> threads st1 !! z = Some t -> threads st' !! z = Some t).
  { intros c v b st1 p1 S1 E1 Ha Ht Hp. subst one. destruct c; [|by exists st1].
    assert (W1 : sig_wf st1) by (destruct S1 as [S1| ->]; [by eapply wf_shape|by eapply wf_put]).
    destruct (tell_parent_keeps 0 x v b st1 p1 y W1 E1 ltac:(congruence) Ny) as (st' & Et & E' & T'). exists st'. split; [done|]. split; [done|].
    intros z t Hz Ez. apply T'; [done|]. destruct S1 as [S1| ->]; [by eapply Own|by apply (Own st z); [apply same_shape_refl|..]]. }
  destruct (Z.eqb_spec signal SIGCONT) as [->|Nc].
  - destruct (deliver_cont (threadlist p) a false st Nd A) as (c & st1 & -> & S1 & H1). cbn [mbind option_bind].
    change (s_notignorable (sending_of a SIGCONT)) with true. cbn [negb andb mbind option_bind]. rewrite (sh_procs _ _ S1), E. cbn [mbind option_bind].
    change (bool_decide (signal_defaultactions SIGCONT = ACTION_STOP)) with false. cbn [orb andb mbind option_bind].
    destruct (Tell c 0xffff false st1 p (or_introl S1)) as (st' & -> & E' & T'); try done; [by rewrite (sh_procs _ _ S1)|].
    exists st'. eexists. split; [done|]. split; [exact E'|]. split; [by destruct c|]. intros z t Hz Ez Dz. eexists. split; [apply T'; [done|]; by apply H1|].
    rewrite bool_decide_true, Dz by done. cbn [negb andb]. unfold continued_thread. destruct (stopped t) eqn:Sd; cbn [pending set_pending set_stopped stopped];
      rewrite ?get_off, get_on, Z.eqb_refl by (unfold SIGCONT; lia); by rewrite ?Sd.
  - assert (NI : s_notignorable (sending_of a signal) = false) by (cbn; apply Z.eqb_neq in Nk, Nc, Ns; rewrite Nk, Nc, Ns; done).
    assert (SS : s_shouldstop (sending_of a signal) = (address a =? SIG_DFL) && bool_decide (signal_defaultactions signal = ACTION_STOP))
      by (cbn; apply Z.eqb_neq in Ns; by rewrite Ns, orb_false_r).
    rewrite deliver_none; [|done|].
    2:{ intros z Hz. destruct (sw_threads _ W _ _ _ E Hz) as (t & Et & _). exists t. split; [done|]. destruct (dead t) eqn:D; [auto|]. right. by apply (Hm z). }
    cbn [mbind option_bind]. rewrite NI, SS. cbn [negb orb andb]. destruct (_ && bool_decide _) eqn:St; cbn [negb].
    + cbn [mbind option_bind]. rewrite E. cbn [mbind option_bind]. apply andb_prop in St as [Sd Sa].
      assert (Nig : s_notignored (sending_of a signal) = true).
      { cbn. unfold notignored. apply bool_decide_eq_true in Sa. rewrite Sa, Sd. apply Z.eqb_eq in Sd. by rewrite Sd. }
      rewrite Nig, Sa. cbn [andb].
      destruct (Tell true (Z.lor 0x7f (Z.shiftl signal 8)) true st p (or_introl (same_shape_refl st))) as (st' & Et & E' & T'); try done. rewrite Et. cbn [mbind option_bind].
      exists st'. eexists. split; [done|]. split; [exact E'|]. done.
    + destruct (waiting_loop_total (threadlist p) signal st A) as (r & st2 & E2 & S2). rewrite E2. cbn [mbind option_bind].
      apply waiting_loop_spec in E2; [|lia]. destruct r; [exists st2, p; split; [done|]; split; [by rewrite (sh_procs _ _ S2)|by left]|]. subst st2. rewrite E. cbn [mbind option_bind].
      match goal with |- context [if ?b then tell_parent _ _ _ true ?s else _] => set (b0 := b); set (st3 := s) end.
      destruct (Tell b0 (Z.lor 0x7f (Z.shiftl signal 8)) true st3 (set_ppending (SIGNAL_SETON (ppending p) signal) p)) as (st' & Et & E' & T'); try done;
        [by right|apply lookup_insert_eq|]. rewrite Et. cbn [mbind option_bind]. exists st'. eexists. split; [done|]. split; [exact E'|]. right. split; [|exact T'].
      intros t Ht. unfold deliverable. rewrite Ht. assert (Pp : ppending (if b0 then set_child_state (Z.lor 127 (Z.shiftl signal 8)) true (set_ppending (SIGNAL_SETON (ppending p) signal) p)
        else set_ppending (SIGNAL_SETON (ppending p) signal) p) = SIGNAL_SETON (ppending p) signal) by (by destruct b0).
      rewrite Pp, get_on, Z.eqb_refl by lia. by rewrite orb_true_r.
Qed.

(** ** Witnesses *)

Definition sample_thread (stop : bool) (m : sigset_t) : thread_t :=
  mk_thread 1 false m 0 0 0 0 false stop no_stack
  (mk_saved (mk_context 0 0 0 0 0 0 0 0 0 0 0 []) (mk_extracontext 0 0 [] 0) 0).
Definition sample_proc (par : option nat) (ts : list nat) : proc_t := mk_proc (replicate 65 default_action) 0 false false 0 par ts 0.
Definition sample_sig (stop : bool) (m : sigset_t) : sig_st :=
  mk_sig {[0%nat := sample_proc None []; 1%nat := sample_proc (Some 0%nat) [7%nat]]} {[7%nat := sample_thread stop m]} [] [].

Lemma sample_wf stop m : sig_wf (sample_sig stop m).
Proof.
  assert (P : forall x p, procs (sample_sig stop m) !! x = Some p -> (x = 0%nat /\ p = sample_proc None []) \/ (x = 1%nat /\ p = sample_proc (Some 0%nat) [7%nat])).
  { intros x p H. cbn [procs sample_sig] in H. apply lookup_insert_Some in H as [[<- <-]|[_ H]]; [auto|]. apply lookup_singleton_Some in H as [<- <-]. auto. }
  split.
  - intros x p [[_ ->]|[_ ->]]%P; done.
  - intros x p y [[_ ->]|[-> ->]]%P; cbn [threadlist sample_proc]; [by intros ?%not_elem_of_nil|]. intros ->%list_elem_of_singleton. by eexists.
  - intros x p y [[_ ->]|[_ ->]]%P; [done|]. intros [= <-]. by eexists.
  - intros y t H. cbn [threads sample_sig] in H. apply lookup_singleton_Some in H as [_ <-]. by eexists.
Qed.

Lemma sample_first stop m : first_live (sample_sig stop m) [7%nat] 7 (sample_thread stop m).
Proof. exists [], []. split; [done|]. split; [done|]. split; [done|]. intros z Hz. by apply not_elem_of_nil in Hz. Qed.

Lemma signal_signalproc_total_witness : exists st', signal_signalproc 1 SIGTSTP (sample_sig false 0) = Some st' /\ sig_wf st'.
Proof.
  apply (signal_signalproc_total (sample_sig false 0) 1 (sample_proc (Some 0%nat) [7%nat]) SIGTSTP);
    [apply sample_wf|reflexivity|by eexists|unfold SIGTSTP, NSIG; lia].
Defined.

Definition user_context : context_t := mk_context 1 2 3 4 0x1000 0x7000 0x23 0x1b 0x1b 0x1b 0x200 (replicate 15 9).

Definition sample_cpu : cpu_t := mk_cpu 0x1111 0x2222 [7; 8; 9] 0x1f80 0x3000.

Lemma signal_kill_outcome_witness :
  (exists st' t', signal_signalproc 1 SIGKILL (sample_sig false (2 ^ 64 - 1)) = Some st' /\ threads st' !! 7%nat = Some t' /\
    signal_check (fun _ => true) sample_cpu user_context None (sample_proc None []) t' = Some (Check_terminate SIGKILL, sample_proc None [], t')) /\
  (exists st' t', signal_signalproc 1 SIGKILL (sample_sig true 0) = Some st' /\ threads st' !! 7%nat = Some t' /\ signal_check_resume t' = None).
Proof.
  split.
  - destruct (signal_kill_outcome (sample_sig false (2 ^ 64 - 1)) 1 (sample_proc (Some 0%nat) [7%nat]) 7 (sample_thread false (2 ^ 64 - 1))
      (fun _ => true) sample_cpu user_context None (sample_proc None []) eq_refl eq_refl (sample_first false (2 ^ 64 - 1))) as (st' & t' & H1 & H2 & _ & _ & H3).
    exists st', t'. split; [exact H1|]. split; [exact H2|exact H3].
  - destruct (signal_kill_outcome (sample_sig true 0) 1 (sample_proc (Some 0%nat) [7%nat]) 7 (sample_thread true 0)
      (fun _ => true) sample_cpu user_context None (sample_proc None []) eq_refl eq_refl (sample_first true 0)) as (st' & t' & H1 & H2 & _ & _ & H3).
    exists st', t'. split; [exact H1|]. split; [exact H2|]. cbn [stopped sample_thread woken_check] in H3. destruct (signal_check_resume t') as [r|] eqn:Er; [|reflexivity].
    unfold signal_check_resume, passert in Er. injection H1 as <-. apply (inj Some) in H2. subst t'. discriminate Er.
Defined.

Definition pending_thread : thread_t := set_pending (SIGNAL_SETON (SIGNAL_SETON 0 SIGUSR1) SIGHUP) (sample_thread false (SIGNAL_SETON 0 SIGHUP)).

Lemma signal_check_acts_witness :
  exists c p' t', signal_check (fun _ => true) sample_cpu user_context None (sample_proc None []) pending_thread = Some (c, p', t') /\
    exists i is_urgent, turns_to (sample_proc None []) pending_thread i is_urgent /\ taken_off (sample_proc None []) pending_thread i is_urgent p' t'.
Proof.
  destruct (signal_check_acts (fun _ => true) sample_cpu user_context None (sample_proc None []) pending_thread eq_refl)
    as (c & p' & t' & E & [(_ & _ & _ & _ & H)|(i & a & g & _ & H1 & _ & H2 & _)]).
  - discriminate (H SIGUSR1 ltac:(unfold SIGUSR1, NSIG; lia)).
  - exists c, p', t'. split; [exact E|]. exists i, g. split; [exact H1|exact H2].
Defined.

Definition handler_action : sigaction_t := mk_sigaction 0x400000 SA_RESTORER 0x500000 0.

Lemma sigreturn_restores_witness :
  exists ctx' cpu' t3, syscall_sigreturn (Some (mk_sigframe 0x500000 no_stack 5 (mk_context 0 4 3 4 0x1000 0x7000 0x23 0x1b 0x1b 0x1b 0x200 (replicate 15 9))
      (mk_extracontext 0x1111 0x2222 [7; 8; 9] 0x1f80))) (sample_thread false 0) =
    Some (inr (ctx', cpu'), t3) /\ mask t3 = 5 /\ rip ctx' = 0x1000 /\ stack t3 = no_stack /\ fpu cpu' = [7; 8; 9].
Proof.
  destruct (sigreturn_restores (fun _ => true) sample_cpu SIGUSR1 handler_action user_context (Some (0, 4)) (sample_proc None []) (sample_thread false 5) _ _ _ _ _ (sample_thread false 0) eq_refl eq_refl)
    as (ctx' & cpu' & t3 & E & M & R & _ & _ & _ & _ & S & C & _). exists ctx', cpu', t3. split; [exact E|]. split; [exact M|]. split; [exact R|]. split; [exact S|]. rewrite C. reflexivity.
Defined.

Lemma changemask_spec_witness :
  exists t', signal_changemask SIG_BLOCK (Some 6) (sample_thread false 1) = Some (1, t') /\ SIGNAL_GET (mask t') SIGQUIT = true.
Proof. exact (changemask_spec SIG_BLOCK 6 (sample_thread false 1) SIGQUIT (or_introl eq_refl) ltac:(unfold SIGQUIT, NSIG; lia)). Defined.

Lemma sigaction_panics_witness : syscall_sigaction 1 (-1) (Some handler_action) (sample_sig false 0) = None.
Proof. apply (sigaction_panics 1 (-1) handler_action (sample_sig false 0)); [right; lia|reflexivity]. Defined.

Lemma signal_blocked_outcome_witness :
  (exists st' p', signal_signalproc 1 SIGUSR1 (sample_sig false (SIGNAL_SETON 0 SIGUSR1)) = Some st' /\ procs st' !! 1%nat = Some p' /\
    ((exists z t', z ∈ [7%nat] /\ threads st' !! z = Some t' /\ SIGNAL_GET (pending t') SIGUSR1 = true /\ SIGNAL_GET (waiting t') SIGUSR1 = true /\ z ∈ events st') \/
     ((forall t, SIGNAL_GET (mask t) SIGUSR1 = false -> deliverable p' t SIGUSR1 = true) /\
      forall z t, z ∈ [7%nat] -> threads (sample_sig false (SIGNAL_SETON 0 SIGUSR1)) !! z = Some t -> threads st' !! z = Some t))) /\
  (exists st' p', signal_signalproc 1 SIGTSTP (sample_sig false (SIGNAL_SETON 0 SIGTSTP)) = Some st' /\ procs st' !! 1%nat = Some p' /\
    ppending p' = 0 /\ stopunwaited p' = true /\
    forall z t, z ∈ [7%nat] -> threads (sample_sig false (SIGNAL_SETON 0 SIGTSTP)) !! z = Some t -> threads st' !! z = Some t).
Proof.
  split.
  - apply (signal_blocked_outcome (sample_sig false (SIGNAL_SETON 0 SIGUSR1)) 1 (sample_proc (Some 0%nat) [7%nat]) 0 SIGUSR1 default_action);
      [apply sample_wf|reflexivity|reflexivity|discriminate|apply NoDup_singleton|unfold SIGUSR1, NSIG; lia|discriminate|discriminate|reflexivity|].
    intros z t _ H _. cbn [threads sample_sig] in H. apply lookup_singleton_Some in H as [_ <-]. reflexivity.
  - apply (signal_blocked_outcome (sample_sig false (SIGNAL_SETON 0 SIGTSTP)) 1 (sample_proc (Some 0%nat) [7%nat]) 0 SIGTSTP default_action);
      [apply sample_wf|reflexivity|reflexivity|discriminate|apply NoDup_singleton|unfold SIGTSTP, NSIG; lia|discriminate|discriminate|reflexivity|].
    intros z t _ H _. cbn [threads sample_sig] in H. apply lookup_singleton_Some in H as [_ <-]. reflexivity.
Defined.
