(* ===== verification/Jobctl.v ===== *)
(** * Job control ([sys/jobctl.c], [sys/syscalls/setpid.c])

    Sessions, process groups and controlling terminals.  The members of a group
    are chained through the processes themselves, the leader holding the head of
    the chain, and the chain is modelled at the level of its pointers.  Each
    operation is one step, as it runs with interrupts off under its locks. *)

From S2P Require Import Prelude Errno DList Signal.

(** ** State *)

(** The job control part of a process; the leaders are [None] in a process that
    is the leader itself. *)
Record jproc_t := mk_jproc {
  pid : Z;
  refcount : Z;
  jparent : option nat;
  session_leader : option nat;
  foreground : option nat;
  controllingtty : option nat;
  pgrp_leader : option nat;
  nextmember : option nat;
  previousmember : option nat
}.

(** The session of a terminal and the references to its master vnode. *)
Record tty_t := mk_tty { session : option nat; holds : Z }.

Record job_st := mk_job { jprocs : gmap nat jproc_t; ttys : gmap nat tty_t }.

Definition with_nextmember (v : option nat) (p : jproc_t) : jproc_t :=
  mk_jproc (pid p) (refcount p) (jparent p) (session_leader p) (foreground p) (controllingtty p) (pgrp_leader p) v (previousmember p).
Definition with_previousmember (v : option nat) (p : jproc_t) : jproc_t :=
  mk_jproc (pid p) (refcount p) (jparent p) (session_leader p) (foreground p) (controllingtty p) (pgrp_leader p) (nextmember p) v.
Definition with_refcount (v : Z) (p : jproc_t) : jproc_t :=
  mk_jproc (pid p) v (jparent p) (session_leader p) (foreground p) (controllingtty p) (pgrp_leader p) (nextmember p) (previousmember p).
Definition with_session (leader fg ctty : option nat) (p : jproc_t) : jproc_t :=
  mk_jproc (pid p) (refcount p) (jparent p) leader fg ctty (pgrp_leader p) (nextmember p) (previousmember p).
Definition with_pgrp_leader (v : option nat) (p : jproc_t) : jproc_t :=
  mk_jproc (pid p) (refcount p) (jparent p) (session_leader p) (foreground p) (controllingtty p) v (nextmember p) (previousmember p).

(** What a process has besides its links. *)
Record jdata_t := mk_jdata {
  d_pid : Z; d_refcount : Z; d_parent : option nat; d_session : option nat; d_foreground : option nat; d_tty : option nat; d_pgrp : option nat
}.

#[export, refine] Instance jproc_linked : Linked jproc_t jdata_t := {
  lnext := nextmember;
  lprev := previousmember;
  payload p := mk_jdata (pid p) (refcount p) (jparent p) (session_leader p) (foreground p) (controllingtty p) (pgrp_leader p);
  with_next := with_nextmember;
  with_prev := with_previousmember
}.
Proof. all: done. Defined.

Definition on_procs (g : gmap nat jproc_t -> option (gmap nat jproc_t)) (st : job_st) : option job_st :=
  h ← g (jprocs st); Some (mk_job h (ttys st)).

Definition PROC_HOLD (x : nat) (h : gmap nat jproc_t) : option (gmap nat jproc_t) :=
  upd x (fun p => with_refcount (refcount p + 1) p) h.

(** The last reference frees the process. *)
Definition PROC_RELEASE (x : nat) (h : gmap nat jproc_t) : option (gmap nat jproc_t) :=
  p ← h !! x;
  if refcount p - 1 =? 0 then Some (delete x h) else Some (<[x := with_refcount (refcount p - 1) p]> h).

Definition release_opt (x : option nat) (h : gmap nat jproc_t) : option (gmap nat jproc_t) :=
  match x with Some y => PROC_RELEASE y h | None => Some h end.

Definition hold_tty (x : nat) (d : Z) (st : job_st) : option job_st :=
  t ← ttys st !! x; Some (mk_job (jprocs st) (<[x := mk_tty (session t) (holds t + d)]> (ttys st))).

(** ** The list of a group *)

Definition addtolist (pgrp proc : nat) (h : gmap nat jproc_t) : option (gmap nat jproc_t) :=
  g ← h !! pgrp;
  h ← upd proc (fun p => with_previousmember None (with_nextmember (nextmember g) p)) h;
  h ← upd pgrp (with_nextmember (Some proc)) h;
  p ← h !! proc;
  set_prev (nextmember p) (Some proc) h.

Definition removefromlist (pgrp proc : nat) (h : gmap nat jproc_t) : option (gmap nat jproc_t) :=
  p ← h !! proc;
  h ← (match previousmember p with
       | Some y => upd y (with_nextmember (nextmember p)) h
       | None => upd pgrp (with_nextmember None) h
       end);
  p ← h !! proc;
  set_prev (nextmember p) (previousmember p) h.

(** ** Terminals *)

Definition jobctl_setctty (proc : nat) (tty : option nat) (steal : bool) (st : job_st) : option (Z * job_st) :=
  p ← jprocs st !! proc;
  if bool_decide (is_Some (session_leader p)) then Some (0, st)
  else
    '(unhold, st) ←
      (match tty, controllingtty p with
       | None, Some c =>
           t ← ttys st !! c;
           if bool_decide (session t = Some proc) then
             h ← upd proc (fun p => with_session (session_leader p) (foreground p) None p) (jprocs st);
             Some (Some c, mk_job h (<[c := mk_tty None (holds t)]> (ttys st)))
           else Some (None, st)
       | _, _ => Some (None, st)
       end);
    p ← jprocs st !! proc;
    '(e, st) ←
      (match tty, controllingtty p with
       | Some c, None =>
           t ← ttys st !! c;
           match session t with
           | None =>
               h ← upd proc (fun p => with_session (session_leader p) (foreground p) (Some c) p) (jprocs st);
               Some (0, mk_job h (<[c := mk_tty (Some proc) (holds t + 1)]> (ttys st)))
           | Some s =>
               if steal then
                 h ← upd s (fun p => with_session (session_leader p) (foreground p) None p) (jprocs st);
                 Some (0, mk_job h (<[c := mk_tty (Some proc) (holds t)]> (ttys st)))
               else Some (EPERM, st)
           end
       | _, _ => Some (0, st)
       end);
    match unhold with
    | Some c => st ← hold_tty c (-1) st; Some (e, st)
    | None => Some (e, st)
    end.

(** The terminal comes with a reference. *)
Definition jobctl_getctty (proc : nat) (st : job_st) : option (option nat * job_st) :=
  p ← jprocs st !! proc;
  s ← jprocs st !! default proc (session_leader p);
  match controllingtty s with
  | Some c => st ← hold_tty c 1 st; Some (Some c, st)
  | None => Some (None, st)
  end.

(** ** Identifiers *)

Definition jobctl_getpgid (proc : nat) (st : job_st) : option Z :=
  p ← jprocs st !! proc;
  match pgrp_leader p with Some l => lp ← jprocs st !! l; Some (pid lp) | None => Some (pid p) end.

Definition jobctl_getsid (proc : nat) (st : job_st) : option Z :=
  p ← jprocs st !! proc;
  match session_leader p with Some l => lp ← jprocs st !! l; Some (pid lp) | None => Some (pid p) end.

(** ** Sessions and groups *)

Definition jobctl_newsession (proc : nat) (st : job_st) : option (Z * job_st) :=
  p ← jprocs st !! proc;
  match pgrp_leader p with
  | None => Some (EPERM, st)
  | Some l =>
      h ← removefromlist l proc (jprocs st);
      h ← upd proc (fun p => with_previousmember None (with_nextmember None (with_pgrp_leader None (with_session None None None p)))) h;
      h ← PROC_RELEASE l h;
      s ← session_leader p;
      h ← PROC_RELEASE s h;
      Some (0, mk_job h (ttys st))
  end.

Definition jobctl_newgroup (proc : nat) (st : job_st) : option (Z * job_st) :=
  p ← jprocs st !! proc;
  match pgrp_leader p with
  | None => Some (0, st)
  | Some l =>
      h ← removefromlist l proc (jprocs st);
      h ← upd proc (fun p => with_previousmember None (with_nextmember None (with_pgrp_leader None p))) h;
      h ← PROC_RELEASE l h;
      Some (0, mk_job h (ttys st))
  end.

Definition jobctl_changegroup (proc group : nat) (st : job_st) : option (Z * job_st) :=
  p ← jprocs st !! proc;
  match pgrp_leader p with
  | None => Some (EPERM, st)
  | Some l =>
      h ← removefromlist l proc (jprocs st);
      h ← upd proc (with_pgrp_leader (Some group)) h;
      h ← PROC_HOLD group h;
      h ← addtolist group proc h;
      h ← PROC_RELEASE l h;
      Some (0, mk_job h (ttys st))
  end.

Definition jobctl_addproc (parent proc : nat) (st : job_st) : option job_st :=
  pp ← jprocs st !! parent;
  let sl := default parent (session_leader pp) in
  let gl := default parent (pgrp_leader pp) in
  h ← upd proc (fun p => with_pgrp_leader (Some gl) (with_session (Some sl) (foreground p) (controllingtty p) p)) (jprocs st);
  h ← PROC_HOLD sl h;
  h ← PROC_HOLD gl h;
  h ← addtolist gl proc h;
  Some (mk_job h (ttys st)).

Definition jobctl_getforeground (proc : nat) (st : job_st) : option (option nat * job_st) :=
  p ← jprocs st !! proc;
  match session_leader p with
  | Some _ => Some (None, st)
  | None => let f := default proc (foreground p) in st ← on_procs (PROC_HOLD f) st; Some (Some f, st)
  end.

Definition jobctl_setforeground (sess pgrp : nat) (st : job_st) : option (Z * job_st) :=
  s ← jprocs st !! sess;
  g ← jprocs st !! pgrp;
  if bool_decide (is_Some (session_leader s)) then Some (EINVAL, st)
  else if negb (bool_decide (sess = pgrp)) && (bool_decide (is_Some (pgrp_leader g)) || negb (bool_decide (session_leader g = Some sess)))
  then Some (EPERM, st)
  else
    h ← upd sess (fun p => with_session (session_leader p) (Some pgrp) (controllingtty p) p) (jprocs st);
    h ← PROC_HOLD pgrp h;
    h ← release_opt (foreground s) h;
    Some (0, mk_job h (ttys st)).

(** ** Signalling a group *)

(** The chain from [it] on; [None] when it has more than [fuel] members, so for
    ever in a cycle. *)
Fixpoint members (fuel : nat) (it : option nat) (h : gmap nat jproc_t) : option (list nat) :=
  match it with
  | None => Some []
  | Some x =>
      match fuel with
      | O => None
      | S fuel' => p ← h !! x; l ← members fuel' (nextmember p) h; Some (x :: l)
      end
  end.

(** [allowed] is [auth_process_check]; the processes signalled are returned, in
    order.  Without a target the group is that of the current process. *)
Definition jobctl_signal (fuel : nat) (allowed : nat -> nat -> bool) (current : nat) (proc : option nat) (signal : Z) (sender : option nat)
    (st : job_st) : option (Z * list nat) :=
  senderpgid ← (match sender with Some s => jobctl_getpgid s st | None => Some 0 end);
  target ← (match proc with
            | None => p ← jprocs st !! current; Some (Some (default current (pgrp_leader p)))
            | Some x => p ← jprocs st !! x; Some (if bool_decide (is_Some (pgrp_leader p)) then None else Some x)
            end);
  match target with
  | None => Some (ESRCH, [])
  | Some leader =>
      lp ← jprocs st !! leader;
      l ← members fuel (Some leader) (jprocs st);
      let sent := filter (fun x => (senderpgid =? 0) || ((signal =? SIGCONT) && (pid lp =? senderpgid)) ||
                                   match sender with Some s => allowed s x | None => false end) l in
      Some (if bool_decide (sent = []) then EPERM else 0, sent)
  end.

(** Leaving job control on exit; the signals to the foreground group are the
    ones sent. *)
Definition jobctl_detach (fuel : nat) (proc : nat) (st : job_st) : option (list (nat * Z) * job_st) :=
  p ← jprocs st !! proc;
  h ← (match pgrp_leader p with
       | Some l => h ← removefromlist l proc (jprocs st); upd proc (with_pgrp_leader None) h
       | None => Some (jprocs st)
       end);
  match session_leader p with
  | Some s =>
      h ← upd proc (fun p => with_session None (foreground p) (controllingtty p) p) h;
      h ← release_opt (pgrp_leader p) h;
      h ← PROC_RELEASE s h;
      Some ([], mk_job h (ttys st))
  | None =>
      let f := default proc (foreground p) in
      h ← PROC_HOLD f h;
      h ← release_opt (pgrp_leader p) h;
      '(_, st) ← jobctl_setctty proc None false (mk_job h (ttys st));
      '(_, sent1) ← jobctl_signal fuel (fun _ _ => false) proc (Some f) SIGHUP None st;
      '(_, sent2) ← jobctl_signal fuel (fun _ _ => false) proc (Some f) SIGCONT None st;
      st ← on_procs (PROC_RELEASE f) st;
      Some (((fun x => (x, SIGHUP)) <$> sent1) ++ ((fun x => (x, SIGCONT)) <$> sent2), st)
  end.

(** ** System calls *)

Definition syscall_setsid (current : nat) (st : job_st) : option (Z * Z * job_st) :=
  '(e, st) ← jobctl_newsession current st;
  p ← jprocs st !! current;
  Some (if e =? 0 then pid p else -1, e, st).

(** [find] is the pid table. *)
Definition syscall_setpgid (find : Z -> option nat) (current : nat) (pid_ pgid : Z) (st : job_st) : option (Z * job_st) :=
  if pgid <? 0 then Some (EINVAL, st)
  else
    match (if pid_ =? 0 then Some current else find pid_) with
    | None => Some (ESRCH, st)
    | Some proc =>
        st ← on_procs (PROC_HOLD proc) st;
        p ← jprocs st !! proc;
        if negb (bool_decide (proc = current)) && negb (bool_decide (jparent p = Some current))
        then st ← on_procs (PROC_RELEASE proc) st; Some (ESRCH, st)
        else
          match (if pgid =? 0 then Some current else find pgid) with
          | None => st ← on_procs (PROC_RELEASE proc) st; Some (EPERM, st)
          | Some pgrp =>
              st ← on_procs (PROC_HOLD pgrp) st;
              '(e, st) ← (if (pgid =? pid_) || (pgid =? 0) then jobctl_newgroup proc st else jobctl_changegroup proc pgrp st);
              st ← on_procs (PROC_RELEASE pgrp) st;
              st ← on_procs (PROC_RELEASE proc) st;
              Some (e, st)
          end
    end.

(** ** Groups *)

(** The chain of leader [g] runs through [l]. *)
Record group_ok (h : gmap nat jproc_t) (g : nat) (l : list nat) : Prop := {
  go_leader : exists gp, h !! g = Some gp /\ pgrp_leader gp = None /\ nextmember gp = hdo l None;
  go_chain : dseg h None l None;
  go_nodup : NoDup (g :: l);
  go_members : forall x p, x ∈ l -> h !! x = Some p -> pgrp_leader p = Some g
}.

Lemma members_chain h b l : dseg h b l None -> members (length l) (hdo l None) h = Some l.
Proof.
  revert b. induction l as [|x l IH]; intros b D; [done|]. destruct D as [(p & Ep & _ & Nx) D].
  cbn [length hdo members]. rewrite Ep. cbn [mbind option_bind]. change (lnext p) with (nextmember p) in Nx. rewrite Nx, (IH _ D). done.
Qed.

Lemma members_group h g l : group_ok h g l -> members (S (length l)) (Some g) h = Some (g :: l).
Proof.
  intros [(gp & Eg & _ & Ng) D _ _]. cbn [members]. rewrite Eg. cbn [mbind option_bind]. rewrite Ng, (members_chain h None l D). done.
Qed.

(** A process that is its own successor is never left. *)
Lemma members_loop h x p fuel : h !! x = Some p -> nextmember p = Some x -> members fuel (Some x) h = None.
Proof. intros E N. induction fuel as [|fuel IH]; [done|]. cbn [members]. rewrite E. cbn [mbind option_bind]. by rewrite N, IH. Qed.

Lemma upd_some {N} (x : nat) (g : N -> N) (h : gmap nat N) n : h !! x = Some n -> upd x g h = Some (<[x := g n]> h).
Proof. intros E. unfold upd. by rewrite E. Qed.

(** Changing a process without its links keeps the chains it is not the leader of. *)
Lemma dseg_upd h b l x p p' : h !! x = Some p -> nextmember p' = nextmember p -> previousmember p' = previousmember p ->
  dseg h b l None -> dseg (<[x := p']> h) b l None.
Proof.
  intros E N P. apply dseg_links. intros y n Hy En. destruct (decide (y = x)) as [->|].
  - rewrite lookup_insert_eq. exists p'. split; [done|]. assert (n = p) as -> by congruence. done.
  - rewrite lookup_insert_ne by done. by exists n.
Qed.

Lemma addtolist_ok h g l x gp p :
  h !! g = Some gp -> nextmember gp = hdo l None -> dseg h None l None -> NoDup (g :: x :: l) -> h !! x = Some p ->
  exists h', addtolist g x h = Some h' /\ dseg h' None (x :: l) None /\ same_payload h h' /\
    (exists gp', h' !! g = Some gp' /\ nextmember gp' = Some x) /\ forall y, y ∉ g :: x :: l -> h' !! y = h !! y.
Proof.
  intros Eg Ng D ND Ex. apply NoDup_cons in ND as [Hg ND]. apply NoDup_cons in ND as [Hx ND]. unfold addtolist. rewrite Eg. cbn [mbind option_bind].
  assert (Nxg : x <> g) by set_solver. rewrite (upd_some _ _ _ _ Ex). cbn [mbind option_bind].
  set (p' := with_previousmember None (with_nextmember (nextmember gp) p)).
  rewrite (upd_some _ _ _ gp) by (by rewrite lookup_insert_ne). cbn [mbind option_bind]. rewrite lookup_insert_ne, lookup_insert_eq by done. cbn [mbind option_bind].
  change (nextmember p') with (nextmember gp). rewrite Ng.
  set (h2 := <[g := with_nextmember (Some x) gp]> (<[x := p']> h)).
  assert (D2 : dseg h2 None l None) by (apply dseg_frame; [set_solver|]; by apply dseg_frame).
  destruct (set_prev_first h2 None l (Some x) D2 ND) as (h' & H' & D' & P' & F'). exists h'. split; [done|].
  split; [|split; [|split]].
  - split; [|done]. exists p'. rewrite (F' x Hx). unfold h2. rewrite lookup_insert_ne, lookup_insert_eq by done. split; [done|]. split; [done|exact Ng].
  - transitivity h2; [|done]. intros y. unfold h2. destruct (decide (y = g)) as [->|]; [rewrite lookup_insert_eq, Eg; done|]. rewrite lookup_insert_ne by done.
    destruct (decide (y = x)) as [->|]; [rewrite lookup_insert_eq, Ex; done|by rewrite lookup_insert_ne].
  - exists (with_nextmember (Some x) gp). rewrite F' by set_solver. unfold h2. by rewrite lookup_insert_eq.
  - intros y Hy. rewrite F' by set_solver. unfold h2. rewrite !lookup_insert_ne by set_solver. done.
Qed.

(** Leaving from behind another member joins the neighbours. *)
Lemma removefromlist_unlink h g x p y : h !! x = Some p -> previousmember p = Some y -> y <> x -> removefromlist g x h = unlink x h.
Proof.
  intros E P N. unfold removefromlist, unlink. rewrite E. cbn [mbind option_bind]. change (lprev p) with (previousmember p). change (lnext p) with (nextmember p).
  rewrite P. cbn [set_next]. unfold upd. destruct (h !! y) as [q|]; [|done]. cbn [mbind option_bind]. rewrite lookup_insert_ne, E by done. cbn [mbind option_bind].
  by rewrite P.
Qed.

Lemma payload_some h h' x (p : jproc_t) : same_payload h h' -> h !! x = Some p ->
  exists p', h' !! x = Some p' /\ pid p' = pid p /\ refcount p' = refcount p /\ session_leader p' = session_leader p /\ pgrp_leader p' = pgrp_leader p.
Proof.
  intros S E. specialize (S x). rewrite E in S. destruct (h' !! x) as [p'|]; [|done]. injection S as S1 S2 S3 S4 S5 S6 S7. exists p'. auto 6.
Qed.

Lemma release_keeps x h p : h !! x = Some p -> 2 <= refcount p -> PROC_RELEASE x h = Some (<[x := with_refcount (refcount p - 1) p]> h).
Proof. intros E H. unfold PROC_RELEASE. rewrite E. cbn [mbind option_bind]. by rewrite (proj2 (Z.eqb_neq _ _)) by lia. Qed.

(** ** Claims *)

(** C31. A signal to a group reaches its leader and every member exactly once, in
    the order of the chain, except those the sender may not signal, and fails
    only when there is nobody left. *)
Theorem jobctl_signal_group st g l signal sender allowed current spgid :
  group_ok (jprocs st) g l ->
  match sender with Some s => jobctl_getpgid s st = Some spgid | None => spgid = 0 end ->
  exists gp sent, jprocs st !! g = Some gp /\
    jobctl_signal (S (length l)) allowed current (Some g) signal sender st = Some (if bool_decide (sent = []) then EPERM else 0, sent) /\
    sublist sent (g :: l) /\ NoDup sent /\
    forall x, x ∈ g :: l -> (x ∈ sent <-> spgid = 0 \/ (signal = SIGCONT /\ pid gp = spgid) \/ exists s, sender = Some s /\ allowed s x = true).
Proof.
  intros G Hs. destruct (go_leader _ _ _ G) as (gp & Eg & Lg & Ng). exists gp.
  set (f := fun x : nat => Is_true ((spgid =? 0) || ((signal =? SIGCONT) && (pid gp =? spgid)) || match sender with Some s => allowed s x | None => false end)).
  exists (filter f (g :: l)). split; [done|]. split; [|split; [apply sublist_filter|split; [apply NoDup_filter, G|]]].
  - unfold jobctl_signal. replace (match sender with Some s => jobctl_getpgid s st | None => Some 0 end) with (Some spgid) by (destruct sender; [done|by rewrite Hs]).
    cbn [mbind option_bind]. rewrite Eg. cbn [mbind option_bind]. rewrite Lg. cbn [bool_decide]. rewrite bool_decide_false by (by intros []).
    rewrite Eg. cbn [mbind option_bind]. rewrite (members_group _ _ _ G). cbn [mbind option_bind]. reflexivity.
  - intros x Hx. rewrite list_elem_of_filter. unfold f. rewrite Is_true_true, !orb_true_iff, andb_true_iff, !Z.eqb_eq. destruct sender as [s|]; naive_solver.
Qed.

(** A forked process joins its parent's group and session: it is chained in
    front of the members that were there, its leaders are those of the parent,
    and both are held for it. *)
Theorem jobctl_addproc_joins st parent pp x p g gp s l :
  jprocs st !! parent = Some pp -> g = default parent (pgrp_leader pp) -> s = default parent (session_leader pp) ->
  jprocs st !! x = Some p -> jprocs st !! g = Some gp -> is_Some (jprocs st !! s) -> group_ok (jprocs st) g l -> x ∉ g :: l -> x <> s -> pgrp_leader p = None ->
  exists st' gp' p', jobctl_addproc parent x st = Some st' /\ group_ok (jprocs st') g (x :: l) /\
    jprocs st' !! x = Some p' /\ session_leader p' = Some s /\
    jprocs st' !! g = Some gp' /\ refcount gp' = refcount gp + (if decide (s = g) then 2 else 1).
Proof.
  intros Ep Hg Hs Ex Eg [sp Es] G Nx Nxs Px. destruct (go_leader _ _ _ G) as (gp0 & Eg0 & Lg & Ng). assert (gp0 = gp) as -> by congruence.
  assert (Nxg : x <> g) by set_solver. unfold jobctl_addproc. rewrite Ep. cbn [mbind option_bind]. rewrite <- Hg, <- Hs.
  rewrite (upd_some _ _ _ _ Ex). cbn [mbind option_bind].
  set (p1 := with_pgrp_leader _ _). set (h1 := <[x := p1]> (jprocs st)).
  assert (Es1 : h1 !! s = Some sp) by (unfold h1; by rewrite lookup_insert_ne). unfold PROC_HOLD. rewrite (upd_some _ _ _ _ Es1). cbn [mbind option_bind].
  set (h2 := <[s := with_refcount (refcount sp + 1) sp]> h1).
  assert (Hg2 : exists gp2, h2 !! g = Some gp2 /\ nextmember gp2 = hdo l None /\ pgrp_leader gp2 = None /\ refcount gp2 = refcount gp + (if decide (s = g) then 1 else 0)).
  { unfold h2. destruct (decide (s = g)) as [Esg|].
    - subst s. rewrite Esg, lookup_insert_eq. eexists. split; [done|]. rewrite Esg in Es. assert (sp = gp) as -> by congruence. done.
    - rewrite lookup_insert_ne by done. unfold h1. rewrite lookup_insert_ne by done. exists gp. split; [done|]. split; [done|]. split; [done|lia]. }
  destruct Hg2 as (gp2 & Eg2 & Ng2 & Lg2 & Rg2). rewrite (upd_some _ _ _ _ Eg2). cbn [mbind option_bind].
  set (h3 := <[g := with_refcount (refcount gp2 + 1) gp2]> h2).
  assert (D1 : dseg h1 None l None) by (apply dseg_frame; [set_solver|apply G]).
  assert (D3 : dseg h3 None l None) by (eapply dseg_upd; [exact Eg2|done|done|]; by eapply dseg_upd; [exact Es1|done|done|]).
  assert (Ex3 : h3 !! x = Some p1) by (unfold h3, h2, h1; rewrite !lookup_insert_ne, lookup_insert_eq by done; done).
  destruct (addtolist_ok h3 g l x (with_refcount (refcount gp2 + 1) gp2) p1) as (h4 & E4 & D4 & P4 & (gp4 & Eg4 & Ng4) & F4); [by apply lookup_insert_eq|done|done| |done|].
  { apply NoDup_cons. split; [destruct G as [_ _ [Hg' _]%NoDup_cons _]; set_solver|]. apply NoDup_cons. split; [set_solver|by destruct G as [_ _ [_ ?]%NoDup_cons _]]. }
  rewrite E4. cbn [mbind option_bind]. destruct (payload_some _ _ _ _ P4 Ex3) as (p4 & Ex4 & _ & _ & Sp4 & Gp4).
  destruct (payload_some _ _ g (with_refcount (refcount gp2 + 1) gp2) P4 ltac:(apply lookup_insert_eq)) as (gp5 & Eg5 & _ & Rg5 & _ & Lg5).
  assert (gp5 = gp4) as -> by congruence. eexists _, gp4, p4. split; [done|]. cbn [jprocs]. split; [|split; [done|split; [by rewrite Sp4|split; [done|]]]].
  - split; [exists gp4; split; [done|]; split; [by rewrite Lg5|done]|done| |].
    + destruct G as [_ _ [Hg' ND]%NoDup_cons _]. apply NoDup_cons. split; [set_solver|]. apply NoDup_cons. split; [set_solver|done].
    + intros y q Hy Eq. apply elem_of_cons in Hy as [->|Hy]; [assert (q = p4) as -> by congruence; by rewrite Gp4|].
      assert (Q : exists q3, h3 !! y = Some q3 /\ pgrp_leader q3 = pgrp_leader q).
      { specialize (P4 y). rewrite Eq in P4. destruct (h3 !! y) as [q3|]; [|done]. injection P4 as _ _ _ _ _ _ P4. by exists q3. }
      destruct Q as (q3 & Eq3 & <-). assert (Ny : y <> g) by (destruct G as [_ _ [? _]%NoDup_cons _]; set_solver). unfold h3 in Eq3. rewrite lookup_insert_ne in Eq3 by done.
      unfold h2 in Eq3. destruct (decide (y = s)) as [->|]; [|rewrite lookup_insert_ne in Eq3 by done; unfold h1 in Eq3; rewrite lookup_insert_ne in Eq3 by set_solver; by apply (go_members _ _ _ G y)].
      rewrite lookup_insert_eq in Eq3. injection Eq3 as <-. cbn. by apply (go_members _ _ _ G s).
  - rewrite Rg5. cbn. rewrite Rg2. destruct (decide (s = g)); lia.
Qed.

(** After the chain has been left: the process is alone, the leader loses a
    reference. *)
Lemma newgroup_after h2 x p2 g gp2 l : h2 !! x = Some p2 -> h2 !! g = Some gp2 -> x <> g -> x ∉ l -> 2 <= refcount gp2 -> pgrp_leader gp2 = None ->
  nextmember gp2 = hdo l None -> dseg h2 None l None ->
  exists h2' h3, upd x (fun p => with_previousmember None (with_nextmember None (with_pgrp_leader None p))) h2 = Some h2' /\ PROC_RELEASE g h2' = Some h3 /\
    members 1 (Some x) h3 = Some [x] /\ members (S (length l)) (Some g) h3 = Some (g :: l) /\
    forall y, y <> x -> y <> g -> h3 !! y = h2 !! y.
Proof.
  intros Ex Eg N Nl R Lg Ng D. rewrite (upd_some _ _ _ _ Ex). set (p3 := with_previousmember _ _).
  assert (Eg3 : <[x := p3]> h2 !! g = Some gp2) by (by rewrite lookup_insert_ne).
  set (h3 := <[g := with_refcount (refcount gp2 - 1) gp2]> (<[x := p3]> h2)). exists (<[x := p3]> h2), h3. split; [done|]. split; [exact (release_keeps _ _ _ Eg3 R)|]. assert (E3 : h3 !! x = Some p3) by (unfold h3; by rewrite lookup_insert_ne, lookup_insert_eq).
  assert (Eg4 : h3 !! g = Some (with_refcount (refcount gp2 - 1) gp2)) by (by apply lookup_insert_eq).
  split; [cbn [members]; rewrite E3; done|]. split; [|intros y Ny Ng'; unfold h3; by rewrite !lookup_insert_ne by done].
  cbn [members]. rewrite Eg4. cbn [mbind option_bind]. change (nextmember (with_refcount _ gp2)) with (nextmember gp2). rewrite Ng.
  rewrite (members_chain h3 None l); [done|]. eapply dseg_upd; [exact Eg3|done|done|]. by apply dseg_frame.
Qed.

(** A member that is not the last to have joined can leave for a group of
    its own: the rest of the group stays chained, and both groups are reached by
    their signals. *)
Theorem jobctl_newgroup_leaves st g gp l1 x l2 :
  group_ok (jprocs st) g (l1 ++ x :: l2) -> l1 <> [] -> jprocs st !! g = Some gp -> 2 <= refcount gp ->
  exists st', jobctl_newgroup x st = Some (0, st') /\ members 1 (Some x) (jprocs st') = Some [x] /\
    members (S (length (l1 ++ l2))) (Some g) (jprocs st') = Some (g :: l1 ++ l2).
Proof.
  intros G Ne Eg R. pose proof (go_nodup _ _ _ G) as [Hg ND]%NoDup_cons. destruct (go_leader _ _ _ G) as (gp0 & Eg0 & Lg & Ng). assert (gp0 = gp) as -> by congruence.
  destruct (unlink_ok _ _ _ _ (go_chain _ _ _ G) ND) as (p & h1 & Ex & Pv & Nx & U & D1 & S1 & Ex1 & F1).
  assert (Px : pgrp_leader p = Some g) by (apply (go_members _ _ _ G x); [set_solver|done]).
  destruct (lasto_cases None l1) as [[-> _]|(l1' & y & -> & La)]; [done|].
  assert (Nyx : y <> x) by (intros ->; apply NoDup_app in ND as (_ & Dj & _); apply (Dj x); set_solver).
  assert (Ng1 : h1 !! g = Some gp) by (rewrite F1; [done|set_solver]).
  assert (Nxg : x <> g) by set_solver. assert (Nxl : x ∉ (l1' ++ [y]) ++ l2) by (apply NoDup_app in ND as (_ & Dj & [? _]%NoDup_cons); specialize (Dj x); set_solver).
  destruct (newgroup_after h1 x p g gp ((l1' ++ [y]) ++ l2) Ex1 Ng1 Nxg Nxl R Lg) as (h2 & h3 & E2 & E3 & M1 & M2 & _); [|done|].
  { rewrite Ng, !hdo_app. destruct l1'; done. }
  exists (mk_job h3 (ttys st)). split; [|done]. unfold jobctl_newgroup. rewrite Ex. cbn [mbind option_bind]. rewrite Px.
  change (lprev p) with (previousmember p) in Pv. rewrite La in Pv. rewrite (removefromlist_unlink _ g x p y Ex Pv Nyx). rewrite U. cbn [mbind option_bind].
  rewrite E2. cbn [mbind option_bind]. by rewrite E3.
Qed.

(** C32. When the member that joined last leaves a group, the group loses all its
    other members: they keep their leader, but the leader's chain ends and no
    signal to the group reaches them any more. *)
Theorem jobctl_newgroup_orphans st g gp x l2 :
  group_ok (jprocs st) g (x :: l2) -> jprocs st !! g = Some gp -> 2 <= refcount gp ->
  exists st', jobctl_newgroup x st = Some (0, st') /\ members 1 (Some g) (jprocs st') = Some [g] /\
    forall y, y ∈ l2 -> exists py, jprocs st' !! y = Some py /\ pgrp_leader py = Some g.
Proof.
  intros G Eg R. pose proof (go_nodup _ _ _ G) as [Hg [Hx ND]%NoDup_cons]%NoDup_cons. destruct (go_leader _ _ _ G) as (gp0 & Eg0 & Lg & Ng). assert (gp0 = gp) as -> by congruence.
  destruct (go_chain _ _ _ G) as [(p & Ex & Pv & Nx) D]. assert (Px : pgrp_leader p = Some g) by (apply (go_members _ _ _ G x); [set_solver|done]).
  assert (Nxg : x <> g) by set_solver. unfold jobctl_newgroup, removefromlist. rewrite Ex. cbn [mbind option_bind]. rewrite Px. cbn [mbind option_bind].
  change (lprev p) with (previousmember p) in Pv. change (lnext p) with (nextmember p) in Nx. rewrite Pv, (upd_some _ _ _ _ Eg). cbn [mbind option_bind].
  rewrite lookup_insert_ne, Ex by done. cbn [mbind option_bind]. rewrite Nx, Pv. set (h1 := <[g := with_nextmember None gp]> (jprocs st)).
  assert (D1 : dseg h1 (Some x) l2 None) by (apply dseg_frame; [set_solver|done]).
  destruct (set_prev_first h1 (Some x) l2 None D1 ND) as (h2 & -> & D2 & S2 & F2). cbn [mbind option_bind].
  assert (Ex2 : h2 !! x = Some p) by (rewrite F2 by done; unfold h1; by rewrite lookup_insert_ne).
  assert (Eg2 : h2 !! g = Some (with_nextmember None gp)) by (rewrite F2 by set_solver; apply lookup_insert_eq).
  destruct (newgroup_after h2 x p g (with_nextmember None gp) [] Ex2 Eg2 Nxg) as (h2' & h3 & E2' & E3 & _ & M2 & F3); [by apply not_elem_of_nil|done|done|done|done|].
  exists (mk_job h3 (ttys st)). split; [rewrite E2'; cbn [mbind option_bind]; by rewrite E3|]. split; [done|].
  intros y Hy. cbn [jprocs]. rewrite F3 by set_solver. destruct (dseg_live _ _ _ _ y D Hy) as [q Eq].
  destruct (payload_some h1 h2 y q S2) as (q' & Eq' & _ & _ & _ & L'); [unfold h1; rewrite lookup_insert_ne by set_solver; done|].
  exists q'. split; [done|]. rewrite L'. apply (go_members _ _ _ G y); [set_solver|done].
Qed.

(** A leader with two members. *)
Definition shell : jproc_t := mk_jproc 10 3 None None None None None (Some 2%nat) None.
Definition member (n : Z) (nx pv : option nat) : jproc_t := mk_jproc n 2 (Some 0%nat) (Some 0%nat) None None (Some 0%nat) nx pv.
Definition sample_jobs : job_st :=
  mk_job {[0%nat := shell; 1%nat := member 11 None (Some 2%nat); 2%nat := member 12 (Some 1%nat) None]} ∅.

(** [setpgid(0, getpid())] by a member of a group makes it a leader of itself
    with a chain that never ends: a signal to its own group then loops for ever. *)
Theorem setpgid_self_cycles :
  exists find st', syscall_setpgid find 1 0 11 sample_jobs = Some (0, st') /\
    forall fuel allowed signal sender, match sender with Some s => is_Some (jobctl_getpgid s st') | None => True end ->
      jobctl_signal fuel allowed 1 None signal sender st' = None.
Proof.
  exists (fun n => if n =? 11 then Some 1%nat else None). eexists. split; [vm_compute; reflexivity|].
  intros fuel allowed signal sender Hs. unfold jobctl_signal. destruct sender as [s|]; [destruct Hs as [v ->]|]; cbn [mbind option_bind].
  all: match goal with |- context [jprocs ?s !! 1%nat] => let v := eval vm_compute in (jprocs s !! 1%nat) in change (jprocs s !! 1%nat) with v end.
  all: cbn [mbind option_bind pgrp_leader]; cbn [default from_option Datatypes.id].
  all: match goal with |- context [jprocs ?s !! 1%nat] => let v := eval vm_compute in (jprocs s !! 1%nat) in change (jprocs s !! 1%nat) with v end.
  all: cbn [mbind option_bind]; erewrite members_loop; [done|vm_compute; reflexivity|reflexivity].
Qed.

(** Stealing a terminal leaves the thief without it: the terminal's session
    is the thief, but the thief's controlling terminal stays unset. *)
Theorem setctty_steal_unset st x p c t s sp :
  jprocs st !! x = Some p -> session_leader p = None -> controllingtty p = None -> ttys st !! c = Some t -> session t = Some s ->
  jprocs st !! s = Some sp -> x <> s ->
  exists st', jobctl_setctty x (Some c) true st = Some (0, st') /\ (exists t', ttys st' !! c = Some t' /\ session t' = Some x) /\
    jobctl_getctty x st' = Some (None, st').
Proof.
  intros Ex Hl Hc Et Hs Es N. unfold jobctl_setctty. rewrite Ex. cbn [mbind option_bind]. rewrite Hl, bool_decide_false by (by intros []). cbn [mbind option_bind].
  rewrite Ex. cbn [mbind option_bind]. rewrite Hc, Et. cbn [mbind option_bind]. rewrite Hs, (upd_some _ _ _ _ Es). cbn [mbind option_bind].
  eexists. split; [done|]. cbn [ttys jprocs]. split; [rewrite lookup_insert_eq; by eexists|]. unfold jobctl_getctty. cbn [jprocs].
  rewrite lookup_insert_ne, Ex by done. cbn [mbind option_bind]. rewrite Hl. cbn [default from_option Datatypes.id]. rewrite lookup_insert_ne, Ex by done. cbn [mbind option_bind].
  by rewrite Hc.
Qed.

(** ** Witnesses *)

Lemma sample_group : group_ok (jprocs sample_jobs) 0 [2%nat; 1%nat].
Proof.
  split.
  - exists shell. done.
  - split; [eexists; split; [reflexivity|done]|]. split; [eexists; split; [reflexivity|done]|done].
  - repeat constructor; set_solver.
  - intros x p Hx E. apply elem_of_cons in Hx as [->|Hx%list_elem_of_singleton]; [|subst x]; vm_compute in E; injection E as <-; done.
Qed.

Lemma jobctl_signal_group_witness :
  exists gp sent, jprocs sample_jobs !! 0%nat = Some gp /\
    jobctl_signal 3 (fun _ _ => false) 1 (Some 0%nat) SIGHUP None sample_jobs = Some (if bool_decide (sent = []) then EPERM else 0, sent) /\ 1%nat ∈ sent.
Proof.
  destruct (jobctl_signal_group sample_jobs 0 [2%nat; 1%nat] SIGHUP None (fun _ _ => false) 1 0 sample_group eq_refl) as (gp & sent & E & S & _ & _ & H).
  exists gp, sent. split; [exact E|]. split; [exact S|]. apply H; [set_solver|left; reflexivity].
Defined.

Definition forking_jobs : job_st := mk_job (<[3%nat := mk_jproc 13 1 (Some 1%nat) None None None None None None]> (jprocs sample_jobs)) ∅.

Lemma forking_group : group_ok (jprocs forking_jobs) 0 [2%nat; 1%nat].
Proof.
  split.
  - exists shell. done.
  - split; [eexists; split; [reflexivity|done]|]. split; [eexists; split; [reflexivity|done]|done].
  - repeat constructor; set_solver.
  - intros x p Hx E. apply elem_of_cons in Hx as [->|Hx%list_elem_of_singleton]; [|subst x]; vm_compute in E; injection E as <-; done.
Qed.

Lemma jobctl_addproc_joins_witness :
  exists st' gp' p', jobctl_addproc 1 3 forking_jobs = Some st' /\ group_ok (jprocs st') 0 [3%nat; 2%nat; 1%nat] /\
    jprocs st' !! 3%nat = Some p' /\ session_leader p' = Some 0%nat /\ jprocs st' !! 0%nat = Some gp' /\ refcount gp' = 5.
Proof.
  exact (jobctl_addproc_joins forking_jobs 1 (member 11 None (Some 2%nat)) 3 _ 0 shell 0 [2%nat; 1%nat] eq_refl eq_refl eq_refl eq_refl eq_refl
    ltac:(by eexists) forking_group ltac:(set_solver) ltac:(lia) eq_refl).
Defined.

Lemma jobctl_newgroup_leaves_witness :
  exists st', jobctl_newgroup 1 sample_jobs = Some (0, st') /\ members 1 (Some 1%nat) (jprocs st') = Some [1%nat] /\
    members 2 (Some 0%nat) (jprocs st') = Some [0%nat; 2%nat].
Proof. exact (jobctl_newgroup_leaves sample_jobs 0 shell [2%nat] 1 [] sample_group ltac:(done) eq_refl ltac:(cbn; lia)). Defined.

Lemma jobctl_newgroup_orphans_witness :
  exists st', jobctl_newgroup 2 sample_jobs = Some (0, st') /\ members 1 (Some 0%nat) (jprocs st') = Some [0%nat] /\
    exists py, jprocs st' !! 1%nat = Some py /\ pgrp_leader py = Some 0%nat.
Proof.
  destruct (jobctl_newgroup_orphans sample_jobs 0 shell 2 [1%nat] sample_group eq_refl ltac:(cbn; lia)) as (st' & E & M & H).
  exists st'. split; [exact E|]. split; [exact M|]. apply H. set_solver.
Defined.

Definition tty_jobs : job_st := mk_job {[0%nat := mk_jproc 10 1 None None None (Some 5%nat) None None None; 1%nat := mk_jproc 11 1 None None None None None None None]} {[5%nat := mk_tty (Some 0%nat) 1]}.

Lemma setctty_steal_unset_witness :
  exists st', jobctl_setctty 1 (Some 5%nat) true tty_jobs = Some (0, st') /\ (exists t', ttys st' !! 5%nat = Some t' /\ session t' = Some 1%nat) /\
    jobctl_getctty 1 st' = Some (None, st').
Proof.
  exact (setctty_steal_unset tty_jobs 1 _ 5 (mk_tty (Some 0%nat) 1) 0 _ eq_refl eq_refl eq_refl eq_refl eq_refl eq_refl ltac:(lia)).
Defined.
