(* ===== verification/Proc.v ===== *)
(** * Families of processes ([sys/proc.c], [sys/syscalls/waitpid.c], [fork.c])

    Parents, children and zombies: forking, exiting and waiting.  The children
    of a process are chained through their [sibling] pointers, and the chain is
    modelled at that level.  Sections under the mutexes of the processes are the
    steps. *)

From S2P Require Import Prelude Errno Signal.

Inductive proc_state := PROC_STATE_NORMAL | PROC_STATE_ZOMBIE.

#[export] Instance proc_state_eq : EqDecision proc_state.
Proof. solve_decision. Defined.

(** The family part of a process and its threads; [units] counts what was given
    to its [waitsem] and [signalled] the [SIGCHLD] it was sent. *)
Record fproc_t := mk_fproc {
  fpid : Z;
  fstate : proc_state;
  child : option nat;
  sibling : option nat;
  fparent : option nat;
  fstatus : Z;
  fstop : bool;
  fcont : bool;
  frefs : Z;
  units : Z;
  signalled : Z;
  fthreads : list nat
}.

Definition with_child (v : option nat) (p : fproc_t) : fproc_t :=
  mk_fproc (fpid p) (fstate p) v (sibling p) (fparent p) (fstatus p) (fstop p) (fcont p) (frefs p) (units p) (signalled p) (fthreads p).
Definition with_sibling (v : option nat) (p : fproc_t) : fproc_t :=
  mk_fproc (fpid p) (fstate p) (child p) v (fparent p) (fstatus p) (fstop p) (fcont p) (frefs p) (units p) (signalled p) (fthreads p).
Definition with_parent (v : option nat) (p : fproc_t) : fproc_t :=
  mk_fproc (fpid p) (fstate p) (child p) (sibling p) v (fstatus p) (fstop p) (fcont p) (frefs p) (units p) (signalled p) (fthreads p).
Definition with_state (v : proc_state) (p : fproc_t) : fproc_t :=
  mk_fproc (fpid p) v (child p) (sibling p) (fparent p) (fstatus p) (fstop p) (fcont p) (frefs p) (units p) (signalled p) (fthreads p).
Definition with_waits (s c : bool) (p : fproc_t) : fproc_t :=
  mk_fproc (fpid p) (fstate p) (child p) (sibling p) (fparent p) (fstatus p) s c (frefs p) (units p) (signalled p) (fthreads p).
Definition with_refs (v : Z) (p : fproc_t) : fproc_t :=
  mk_fproc (fpid p) (fstate p) (child p) (sibling p) (fparent p) (fstatus p) (fstop p) (fcont p) v (units p) (signalled p) (fthreads p).
Definition told (u s : Z) (p : fproc_t) : fproc_t :=
  mk_fproc (fpid p) (fstate p) (child p) (sibling p) (fparent p) (fstatus p) (fstop p) (fcont p) (frefs p) (units p + u) (signalled p + s) (fthreads p).
Definition with_threads (v : list nat) (p : fproc_t) : fproc_t :=
  mk_fproc (fpid p) (fstate p) (child p) (sibling p) (fparent p) (fstatus p) (fstop p) (fcont p) (frefs p) (units p) (signalled p) v.

Abbreviation family := (gmap nat fproc_t).

Definition change (x : nat) (g : fproc_t -> fproc_t) (h : family) : option family := p ← h !! x; Some (<[x := g p]> h).

(** ** Creation *)

(** A new process takes the next pid. *)
Definition proc_create (x : nat) (currpid : Z) (h : family) : Z * family :=
  (s32 (currpid + 1), <[x := mk_fproc currpid PROC_STATE_NORMAL None None None 0 false false 1 0 0 []]> h).

(** The child becomes the first of its parent's children. *)
Definition fork_link (proc nproc : nat) (h : family) : option family :=
  p ← h !! proc;
  h ← change nproc (fun n => with_sibling (child p) (with_parent (Some proc) n)) h;
  change proc (with_child (Some nproc)) h.

(** ** Exit *)

(** The loop over the children: the last one and the zombies before it. *)
Fixpoint reparent_loop (fuel : nat) (init : nat) (lastchild : nat) (belowzombiecount : Z) (h : family) : option (nat * Z * family) :=
  match fuel with
  | O => None
  | S fuel' =>
      c ← h !! lastchild;
      match sibling c with
      | None => Some (lastchild, belowzombiecount, h)
      | Some next =>
          h ← change lastchild (with_parent (Some init)) h;
          reparent_loop fuel' init next (belowzombiecount + if decide (fstate c = PROC_STATE_ZOMBIE) then 1 else 0) h
      end
  end.

(** Handing the children from [c] on to init. *)
Definition adopt (init c : nat) (h : family) : option (Z * family) :=
  '(lastchild, count, h) ← reparent_loop (size h) init c 0 h;
  i ← h !! init;
  h ← change lastchild (with_sibling (child i)) h;
  h ← change init (with_child (Some c)) h;
  Some (count, h).

(** From the hold to the signals to the parent and to init; the number of
    processes bounds the children. *)
Definition proc_exit (init proc : nat) (h : family) : option family :=
  passert (negb (bool_decide (proc = init)));;
  h ← change proc (fun p => with_refs (frefs p + 1) p) h;
  h ← change proc (with_state PROC_STATE_ZOMBIE) h;
  p ← h !! proc;
  '(count, h) ← (match child p with None => Some (0, h) | Some c => adopt init c h end);
  par ← fparent p;
  h ← change par (told 1 1) h;
  change init (told count 0) h.

(** ** Waiting *)

Definition WNOHANG : Z := 1.
Definition WSTOPPED : Z := 2.
Definition WCONTINUED : Z := 8.
Definition WALL : Z := 0x40000000.
Definition KNOWN_FLAGS : Z := Z.lor (Z.lor (Z.lor WNOHANG WSTOPPED) WCONTINUED) WALL.

Definition known_options (options : Z) : bool := Z.land options (Z.lnot KNOWN_FLAGS) =? 0.

(** What a scan of the children found: the child, the one before it and whether
    it is a zombie; nothing, and whether there was a candidate. *)
Inductive scan_t := Scan_found (x : nat) (prev : option nat) (zombie : bool) | Scan_none (desired : bool).

Fixpoint wait_scan (fuel : nat) (pid_ options : Z) (prev it : option nat) (desired : bool) (h : family) : option (scan_t * family) :=
  match it with
  | None => Some (Scan_none desired, h)
  | Some x =>
      match fuel with
      | O => None
      | S fuel' =>
          p ← h !! x;
          if ((pid_ >? 0) && (fpid p =? pid_)) || (pid_ =? -1) then
            let continued := fcont p && has options WCONTINUED in
            let stopped := fstop p && has options WSTOPPED in
            let zombie := bool_decide (fstate p = PROC_STATE_ZOMBIE) in
            let h := <[x := with_waits (fstop p && negb stopped) (fcont p && negb continued) p]> h in
            if zombie || continued || stopped then Some (Scan_found x prev zombie, h)
            else wait_scan fuel' pid_ options (Some x) (sibling p) true h
          else wait_scan fuel' pid_ options (Some x) (sibling p) desired h
      end
  end.

(** What a pass of a wait ends with: an error; nothing; the pid of a child, the
    status stored for the caller, the error of storing it and the threads
    destroyed with a zombie; or another pass. *)
Inductive waited_t := Waited_error (e : Z) | Waited_nothing | Waited (pid_ : Z) (stored : option Z) (e : Z) (destroyed : list nat) | Wait_again.

(** What is stored through the user's pointer: nothing without one ([None]) or
    when the copy fails. *)
Definition store_status (user : option bool) (v : Z) : option Z * Z :=
  match user with None => (None, 0) | Some true => (Some v, 0) | Some false => (None, EFAULT) end.

(** One pass over the children.  [got] is whether [semaphore_test] found a unit,
    or [semaphore_wait] was not interrupted.  The threads of a zombie are
    destroyed once each of them is dead. *)
Definition waitpid_step (proc : nat) (pid_ : Z) (user : option bool) (options : Z) (got : bool) (h : family) : option (waited_t * family) :=
  passert (known_options options);;
  passert ((pid_ =? -1) || (pid_ >? 0));;
  p ← h !! proc;
  match child p with
  | None => Some (Waited_error ECHILD, h)
  | Some _ =>
      '(found, h) ← wait_scan (size h) pid_ options None (child p) false h;
      match found with
      | Scan_none desired =>
          if (pid_ >? 0) && negb desired then Some (Waited_error ECHILD, h)
          else if has options WNOHANG && negb got then Some (Waited_nothing, h)
          else if negb (has options WNOHANG) && negb got then Some (Waited_error EINTR, h)
          else Some (Wait_again, h)
      | Scan_found x prev zombie =>
          c ← h !! x;
          h ← (if zombie : bool then
                 match prev with
                 | Some y => change y (with_sibling (sibling c)) h
                 | None => change proc (with_child (sibling c)) h
                 end
               else Some h);
          let '(stored, e) := store_status user (fstatus c) in
          if zombie then
            Some (Waited (fpid c) stored e (fthreads c),
                  if frefs c - 1 =? 0 then delete x h else <[x := with_refs (frefs c - 1) (with_threads [] c)]> h)
          else Some (Waited (fpid c) stored e [], h)
      end
  end.

(** ** Chains of children *)

Fixpoint kids (h : family) (s : option nat) (l : list nat) : Prop :=
  match l with
  | [] => s = None
  | x :: l' => s = Some x /\ exists p, h !! x = Some p /\ kids h (sibling p) l'
  end.

Lemma kids_frame h s l x p : x ∉ l -> kids h s l -> kids (<[x := p]> h) s l.
Proof.
  revert s. induction l as [|y l IH]; intros s Hx K; [done|]. destruct K as (-> & q & E & K). split; [done|].
  exists q. rewrite lookup_insert_ne by set_solver. split; [done|]. apply IH; [set_solver|done].
Qed.

(** Changing a process but not its sibling. *)
Lemma kids_change h s l x p q : h !! x = Some p -> sibling q = sibling p -> kids h s l -> kids (<[x := q]> h) s l.
Proof.
  intros E S. revert s. induction l as [|y l IH]; intros s K; [done|]. destruct K as (-> & r & Er & K). split; [done|].
  destruct (decide (y = x)) as [->|].
  - exists q. rewrite lookup_insert_eq. split; [done|]. rewrite S. assert (r = p) as -> by congruence. by apply IH.
  - exists r. rewrite lookup_insert_ne by done. split; [done|]. by apply IH.
Qed.

Lemma change_some x g h p : h !! x = Some p -> change x g h = Some (<[x := g p]> h).
Proof. intros E. unfold change. by rewrite E. Qed.

Lemma kids_live h s l x : kids h s l -> x ∈ l -> is_Some (h !! x).
Proof.
  revert s. induction l as [|y l IH]; intros s K Hx; [by apply not_elem_of_nil in Hx|]. destruct K as (-> & p & E & K).
  apply elem_of_cons in Hx as [->|Hx]; [by eexists|by eapply IH].
Qed.

(** A chain of distinct processes is no longer than there are processes. *)
Lemma kids_size h s l : kids h s l -> NoDup l -> (length l <= size h)%nat.
Proof.
  intros K ND. rewrite <- (size_dom h). rewrite <- (size_list_to_set (C := gset nat) l ND). apply subseteq_size.
  intros x Hx%elem_of_list_to_set. apply elem_of_dom. by eapply kids_live.
Qed.

Lemma filter_ext_in {A} (P Q : A -> Prop) `{!forall x, Decision (P x), !forall x, Decision (Q x)} (l : list A) :
  (forall x, x ∈ l -> P x <-> Q x) -> filter P l = filter Q l.
Proof.
  induction l as [|x l IH]; intros Heq; [done|]. rewrite !filter_cons. rewrite IH by (intros y Hy; apply Heq; by right).
  pose proof (Heq x ltac:(left)). repeat case_decide; tauto.
Qed.

(** ** The loop over the children *)

Definition zombies (h : family) (l : list nat) : Z :=
  Z.of_nat (length (filter (fun x => fstate <$> h !! x = Some PROC_STATE_ZOMBIE) l)).

Lemma reparent_ok fuel init c l last_ n h : kids h (Some c) (l ++ [last_]) -> NoDup (l ++ [last_]) -> (length l < fuel)%nat ->
  exists h', reparent_loop fuel init c n h = Some (last_, n + zombies h l, h') /\
    (forall x, x ∈ l -> exists p, h !! x = Some p /\ h' !! x = Some (with_parent (Some init) p)) /\ (forall x, x ∉ l -> h' !! x = h !! x) /\ size h' = size h.
Proof.
  revert c n h fuel. induction l as [|y l IH]; intros c n h fuel K ND Hf.
  - destruct K as ([= <-] & p & E & K). cbn in K. destruct fuel as [|fuel]; [lia|]. cbn [reparent_loop]. rewrite E. cbn [mbind option_bind]. rewrite K.
    exists h. unfold zombies. cbn. rewrite Z.add_0_r. split; [done|]. split; [by intros x ?%not_elem_of_nil|done].
  - destruct K as ([= ->] & p & E & K). fold kids in K. apply NoDup_cons in ND as [Hy ND]. destruct fuel as [|fuel]; [lia|]. cbn [reparent_loop]. rewrite E. cbn [mbind option_bind].
    destruct (sibling p) as [next|] eqn:S; [|destruct l; by destruct K]. rewrite (change_some _ _ _ _ E). cbn [mbind option_bind].
    set (h1 := <[y := with_parent (Some init) p]> h). assert (K1 : kids h1 (Some next) (l ++ [last_])) by (by apply kids_frame).
    cbn [length] in Hf. destruct (IH next (n + if decide (fstate p = PROC_STATE_ZOMBIE) then 1 else 0) h1 fuel K1 ND ltac:(lia)) as (h' & E' & C' & F' & Sz).
    assert (Nl : y ∉ l) by set_solver. exists h'. split; [|split; [|split]].
    + rewrite E'. do 3 f_equal. unfold zombies. rewrite filter_cons. rewrite E. cbn [fmap option_fmap option_map].
      replace (filter (fun x => fstate <$> h1 !! x = Some PROC_STATE_ZOMBIE) l) with (filter (fun x => fstate <$> h !! x = Some PROC_STATE_ZOMBIE) l).
      { destruct (decide (fstate p = PROC_STATE_ZOMBIE)) as [Z|Z], (decide (Some (fstate p) = Some PROC_STATE_ZOMBIE)) as [Z'|Z']; try congruence; cbn [length]; lia. }
      apply filter_ext_in. intros x Hx. unfold h1. rewrite lookup_insert_ne by set_solver. done.
    + intros x [->|Hx]%elem_of_cons; [exists p; split; [done|]; rewrite F' by done; apply lookup_insert_eq|].
      destruct (C' x Hx) as (q & Eq & Eq'). unfold h1 in Eq. rewrite lookup_insert_ne in Eq by set_solver. by exists q.
    + intros x Hx. rewrite F' by set_solver. unfold h1. rewrite lookup_insert_ne by set_solver. done.
    + rewrite Sz. unfold h1. apply map_size_insert_Some. by eexists.
Qed.

Lemma kids_join h s l z q t m0 m : kids h s (l ++ z :: m0) -> h !! z = Some q -> kids h t m -> z ∉ l -> z ∉ m ->
  kids (<[z := with_sibling t q]> h) s (l ++ z :: m).
Proof.
  intros K E M Nl Nm. revert s K. induction l as [|y l IH]; intros s K.
  - destruct K as (-> & _). split; [done|]. exists (with_sibling t q). rewrite lookup_insert_eq. split; [done|]. by apply kids_frame.
  - destruct K as (-> & p & Ep & K). split; [done|]. exists p. rewrite lookup_insert_ne by set_solver. split; [done|]. apply IH; [set_solver|done].
Qed.

Lemma kids_ext h h' s l : (forall x p, x ∈ l -> h !! x = Some p -> exists p', h' !! x = Some p' /\ sibling p' = sibling p) -> kids h s l -> kids h' s l.
Proof.
  revert s. induction l as [|y l IH]; intros s H K; [done|]. destruct K as (-> & p & E & K). split; [done|].
  destruct (H y p ltac:(left) E) as (p' & E' & S'). exists p'. split; [done|]. rewrite S'. apply IH; [|done]. intros x q Hx. apply H. by right.
Qed.

Lemma adopt_ok init c l z ic i pz h : kids h (Some c) (l ++ [z]) -> kids h (child i) ic -> NoDup (l ++ [z] ++ ic) -> (init ∉ l ++ [z] ++ ic) ->
  h !! init = Some i -> h !! z = Some pz ->
  exists h', adopt init c h = Some (zombies h l, h') /\ h' !! init = Some (with_child (Some c) i) /\ kids h' (Some c) (l ++ z :: ic) /\
    (forall y, y ∈ l -> exists q, h' !! y = Some (with_parent (Some init) q)) /\ h' !! z = Some (with_sibling (child i) pz) /\
    forall y, (y ∉ l ++ [z]) -> y <> init -> h' !! y = h !! y.
Proof.
  intros K Ki ND Ni Ei Ez. assert (NDl : NoDup (l ++ [z])) by (rewrite app_assoc in ND; by apply NoDup_app in ND as (? & _)).
  destruct (reparent_ok (size h) init c l z 0 h K NDl) as (h3 & E3 & C3 & F3 & Sz3).
  { pose proof (kids_size _ _ _ K NDl). rewrite length_app in *. cbn in *. lia. }
  unfold adopt. rewrite E3. cbn [mbind option_bind]. rewrite F3, Ei by set_solver. cbn [mbind option_bind].
  assert (Nzl : z ∉ l) by (apply NoDup_app in ND as (_ & D & _); intros Q; apply (D z Q); set_solver).
  assert (Nzi : z ∉ ic) by (by apply NoDup_app in ND as (_ & _ & [D _]%NoDup_cons)).
  assert (Ez3 : h3 !! z = Some pz) by (by rewrite F3). rewrite (change_some _ _ _ _ Ez3). cbn [mbind option_bind]. set (h4 := <[z := with_sibling (child i) pz]> h3).
  assert (Sib : forall y q, h !! y = Some q -> exists q', h3 !! y = Some q' /\ sibling q' = sibling q).
  { intros y q Eq. destruct (decide (y ∈ l)) as [Hy|Hy]; [|rewrite F3 by done; by exists q]. destruct (C3 y Hy) as (q0 & E0 & E0'). assert (q0 = q) as -> by congruence. by eexists. }
  assert (K4 : kids h4 (Some c) (l ++ z :: ic)) by (apply (kids_join _ _ _ _ _ _ []); [by eapply kids_ext; [|exact K]; eauto|done|by eapply kids_ext; [|exact Ki]; eauto|done|done]).
  assert (Ei4 : h4 !! init = Some i) by (unfold h4; rewrite lookup_insert_ne, F3 by set_solver; done). rewrite (change_some _ _ _ _ Ei4). cbn [mbind option_bind].
  eexists. split; [done|]. split; [apply lookup_insert_eq|]. split; [by eapply kids_change; [exact Ei4|done|]|]. split; [|split].
  - intros y Hy. destruct (C3 y Hy) as (q & _ & Eq). exists q. rewrite lookup_insert_ne by set_solver. unfold h4. rewrite lookup_insert_ne by set_solver. done.
  - rewrite lookup_insert_ne by set_solver. apply lookup_insert_eq.
  - intros y Hy Hi. rewrite lookup_insert_ne by done. unfold h4. rewrite lookup_insert_ne, F3 by set_solver. done.
Qed.

(** The two processes that are told. *)
Lemma told_ok par init a h pp i : h !! par = Some pp -> h !! init = Some i ->
  exists h' i', (h1 ← change par (told 1 1) h; change init (told a 0) h1) = Some h' /\ h' !! init = Some i' /\ child i' = child i /\
    units i' = units i + a + (if decide (par = init) then 1 else 0) /\
    (forall y p, h !! y = Some p -> exists p', h' !! y = Some p' /\ sibling p' = sibling p /\ fparent p' = fparent p).
Proof.
  intros Ep Ei. rewrite (change_some _ _ _ _ Ep). cbn [mbind option_bind]. set (h1 := <[par := told 1 1 pp]> h).
  assert (E1 : exists i1, h1 !! init = Some i1 /\ child i1 = child i /\ units i1 = units i + (if decide (par = init) then 1 else 0) /\ sibling i1 = sibling i /\ fparent i1 = fparent i).
  { unfold h1. destruct (decide (par = init)) as [->|]; [rewrite lookup_insert_eq|rewrite lookup_insert_ne by done].
    - assert (pp = i) as -> by congruence. by eexists.
    - exists i. do 3 (split; [done || (cbn; lia)|]). done. }
  destruct E1 as (i1 & E1 & C1 & U1 & S1 & P1). rewrite (change_some _ _ _ _ E1). eexists _, (told a 0 i1). split; [done|]. split; [apply lookup_insert_eq|].
  split; [done|]. split; [cbn; lia|]. intros y p Ey. destruct (decide (y = init)) as [->|].
  - rewrite lookup_insert_eq. assert (p = i) as -> by congruence. by eexists.
  - rewrite lookup_insert_ne by done. unfold h1. destruct (decide (y = par)) as [->|]; [rewrite lookup_insert_eq|rewrite lookup_insert_ne by done; by exists p].
    assert (p = pp) as -> by congruence. by eexists.
Qed.

(** The family as its chains: the exiting process, its parent, init and the
    children of both, all different where they have to be. *)
Record exiting (h : family) (init x par : nat) (p pp i : fproc_t) (l : list nat) (z : nat) (ic : list nat) : Prop := {
  ex_x : h !! x = Some p;
  ex_par : h !! par = Some pp;
  ex_init : h !! init = Some i;
  ex_parent : fparent p = Some par;
  ex_children : kids h (child p) (l ++ [z]);
  ex_inits : kids h (child i) ic;
  ex_nodup : NoDup (l ++ [z] ++ ic);
  ex_self : x <> init /\ (x ∉ l ++ [z]) /\ (init ∉ l ++ [z] ++ ic) /\ (par ∉ l ++ [z])
}.

(** The children of a process that exits become children of init: init's
    list is theirs followed by its own.  But only those before the last one get
    init as their parent and are counted when they are zombies: the last one
    keeps the process that exited as its parent, and init is not told of it. *)
Theorem proc_exit_children h init x par p pp i l z ic pz :
  exiting h init x par p pp i l z ic -> h !! z = Some pz ->
  exists h' i' pz', proc_exit init x h = Some h' /\ h' !! init = Some i' /\ kids h' (child i') (l ++ [z] ++ ic) /\
    (forall y, y ∈ l -> exists q, h' !! y = Some q /\ fparent q = Some init) /\
    h' !! z = Some pz' /\ fparent pz' = fparent pz /\
    units i' = units i + zombies h l + (if decide (par = init) then 1 else 0).
Proof.
  intros [Ex Ep Ei Pp K Ki ND (N1 & N2 & N3 & N4)] Ez. unfold proc_exit, passert. rewrite bool_decide_false by done. cbn [negb mbind option_bind].
  rewrite (change_some _ _ _ _ Ex). cbn [mbind option_bind]. rewrite (change_some _ _ _ (with_refs (frefs p + 1) p)) by apply lookup_insert_eq.
  rewrite insert_insert_eq. cbn [mbind option_bind]. set (p2 := with_state PROC_STATE_ZOMBIE (with_refs (frefs p + 1) p)). rewrite lookup_insert_eq. cbn [mbind option_bind].
  change (child p2) with (child p). change (fparent p2) with (fparent p). set (h2 := <[x := p2]> h).
  assert (K2 : kids h2 (child p) (l ++ [z])) by (by eapply kids_change; [exact Ex|done|]).
  assert (Ki2 : kids h2 (child i) ic) by (by eapply kids_change; [exact Ex|done|]).
  destruct (child p) as [c|]; [|destruct l; by destruct K]. assert (Ei2 : h2 !! init = Some i) by (unfold h2; by rewrite lookup_insert_ne).
  assert (Ez2 : h2 !! z = Some pz) by (unfold h2; rewrite lookup_insert_ne by set_solver; done).
  destruct (adopt_ok init c l z ic i pz h2 K2 Ki2 ND N3 Ei2 Ez2) as (h5 & -> & Ei5 & K5 & C5 & Ez5 & F5). cbn [mbind option_bind]. rewrite Pp. cbn [mbind option_bind].
  assert (E5 : exists pp5, h5 !! par = Some pp5).
  { destruct (decide (par = init)) as [->|]; [by eexists|]. rewrite F5 by done. unfold h2. destruct (decide (par = x)) as [->|]; [rewrite lookup_insert_eq; by eexists|rewrite lookup_insert_ne by done; by eexists]. }
  destruct E5 as (pp5 & E5). destruct (told_ok par init (zombies h2 l) h5 pp5 _ E5 Ei5) as (h' & i' & E' & Ei' & Ci' & Ui' & Same).
  destruct (Same z _ Ez5) as (pz' & Ez' & _ & Pz'). exists h', i', pz'. split; [exact E'|]. split; [done|].
  split; [|split; [|split; [done|split; [done|]]]].
  - rewrite Ci'. cbn [child with_child]. eapply kids_ext; [|exact K5]. intros y q _ Eq. destruct (Same y q Eq) as (q' & Eq' & S' & _). by exists q'.
  - intros y Hy. destruct (C5 y Hy) as (q & Eq). destruct (Same y _ Eq) as (q' & Eq' & _ & P'). exists q'. split; [done|]. by rewrite P'.
  - rewrite Ui'. cbn [units with_child]. do 2 f_equal. unfold zombies. do 2 f_equal. apply filter_ext_in. intros y Hy. unfold h2. rewrite lookup_insert_ne by set_solver. done.
Qed.

(** ** Waiting *)

(** The children a wait is for, and those that have something to report. *)
Definition wanted (pid_ : Z) (q : fproc_t) : bool := ((pid_ >? 0) && (fpid q =? pid_)) || (pid_ =? -1).
Definition zombie (q : fproc_t) : bool := bool_decide (fstate q = PROC_STATE_ZOMBIE).
Definition reports (options : Z) (q : fproc_t) : bool :=
  zombie q || (fcont q && has options WCONTINUED) || (fstop q && has options WSTOPPED).

Definition candidate (h : family) (pid_ : Z) (y : nat) : bool := match h !! y with Some q => wanted pid_ q | None => false end.

(** The reports of stops and continues are given once. *)
Definition reported (options : Z) (q : fproc_t) : fproc_t :=
  with_waits (fstop q && negb (has options WSTOPPED)) (fcont q && negb (has options WCONTINUED)) q.

Lemma scan_pass options p : reports options p = false ->
  with_waits (fstop p && negb (fstop p && has options WSTOPPED)) (fcont p && negb (fcont p && has options WCONTINUED)) p = p.
Proof. unfold reports. destruct p. cbn. intros ((_ & ->)%orb_false_elim & ->)%orb_false_elim. by rewrite !andb_true_r. Qed.

Lemma scan_step fuel pid_ options prev x p d h : h !! x = Some p -> wanted pid_ p && reports options p = false ->
  wait_scan (S fuel) pid_ options prev (Some x) d h = wait_scan fuel pid_ options (Some x) (sibling p) (d || wanted pid_ p) h.
Proof.
  intros E N. cbn [wait_scan]. rewrite E. cbn [mbind option_bind]. fold (wanted pid_ p). destruct (wanted pid_ p); [|by rewrite orb_false_r].
  cbn [andb] in N. rewrite scan_pass by done. unfold reports, zombie in N. apply orb_false_elim in N as [N N2]. rewrite N, N2, insert_id by done. by rewrite orb_true_r.
Qed.

(** The scan passes the children that are not wanted or report nothing. *)
Lemma scan_skips fuel pid_ options prev s d h l1 rest : kids h s (l1 ++ rest) -> (length (l1 ++ rest) <= fuel)%nat ->
  (forall y q, y ∈ l1 -> h !! y = Some q -> wanted pid_ q && reports options q = false) ->
  exists s' fuel', kids h s' rest /\ (length rest <= fuel')%nat /\ wait_scan fuel pid_ options prev s d h =
    wait_scan fuel' pid_ options (match last l1 with Some y => Some y | None => prev end) s'
      (d || existsb (candidate h pid_) l1) h.
Proof.
  revert fuel prev s d. induction l1 as [|y l1 IH]; intros fuel prev s d K Hf Hl.
  { exists s, fuel. split; [done|]. split; [done|]. by rewrite orb_false_r. }
  destruct K as (-> & p & E & K). destruct fuel as [|fuel]; [cbn in Hf; lia|]. rewrite (scan_step _ _ _ _ _ p) by (done || by apply (Hl y p); [left|]).
  destruct (IH fuel (Some y) (sibling p) (d || wanted pid_ p) K ltac:(cbn in Hf; lia)) as (s' & fuel' & K' & Hf' & ->); [intros z q Hz; apply Hl; by right|].
  exists s', fuel'. split; [done|]. split; [done|]. f_equal.
  - destruct l1 as [|z l1]; [done|]. change (last (y :: z :: l1)) with (last (z :: l1)). destruct (last (z :: l1)) eqn:La; [done|by apply last_None in La].
  - rewrite <- orb_assoc. f_equal. cbn [existsb]. unfold candidate at 2. by rewrite E.
Qed.

Lemma kids_at h s l1 x l2 c : kids h s (l1 ++ x :: l2) -> h !! x = Some c -> kids h (sibling c) l2.
Proof. intros K E. revert s K. induction l1 as [|y l1 IH]; intros s K; destruct K as (_ & q & Eq & K); [by assert (q = c) as -> by congruence|by eapply IH]. Qed.

(** Unlinking a child from the chain. *)
Lemma unlink_child_ok h proc p l1 x c l2 : h !! proc = Some p -> kids h (child p) (l1 ++ x :: l2) -> NoDup (proc :: l1 ++ x :: l2) -> h !! x = Some c ->
  exists h1 p1, (match (match last l1 with Some y => Some y | None => None end) with Some y => change y (with_sibling (sibling c)) h | None => change proc (with_child (sibling c)) h end) = Some h1 /\
    h1 !! proc = Some p1 /\ kids h1 (child p1) (l1 ++ l2).
Proof.
  intros Ep K [Np ND]%NoDup_cons Ex. pose proof (kids_at _ _ _ _ _ _ K Ex) as K2. destruct (last l1) as [y|] eqn:La.
  - apply last_Some in La as [l' ->]. rewrite <- app_assoc in K. destruct (kids_live _ _ _ y K ltac:(set_solver)) as [q Eq]. rewrite (change_some _ _ _ _ Eq).
    assert (Ny : proc <> y) by set_solver. eexists _, p. split; [done|]. rewrite lookup_insert_ne by done. split; [done|]. rewrite <- app_assoc.
    apply NoDup_app in ND as (ND1 & D & [_ ND2]%NoDup_cons). eapply kids_join; [exact K|done|done|apply NoDup_app in ND1 as (_ & D1 & _); intros Q; apply (D1 y Q); set_solver|].
    intros Q. apply (D y); set_solver.
  - apply last_None in La as ->. rewrite (change_some _ _ _ _ Ep). eexists _, _. split; [done|]. split; [apply lookup_insert_eq|]. cbn. by eapply kids_change; [exact Ep|done|].
Qed.

(** C33. One pass of a wait, for the options and pids the kernel accepts; any
    others fail an assertion.  The first child that is wanted and has something
    to report (its end, or a stop or continue when the options ask for it) is
    taken: its pid is returned and its status is stored if there is a pointer,
    and a failed store is an error that loses it.  A zombie leaves the list of
    children, which keeps the others in order, its threads are destroyed and it
    is freed with its last reference; another child stays and its report is used
    up.  With no child to report, there is an error when there is no child to
    wait for, and otherwise the pass ends with nothing, an interruption or
    another pass, and nothing changes. *)
Theorem waitpid_outcome h proc p pid_ user options got l :
  h !! proc = Some p -> kids h (child p) l -> NoDup (proc :: l) ->
  if negb (known_options options && ((pid_ =? -1) || (pid_ >? 0))) then waitpid_step proc pid_ user options got h = None
  else
    (forall l1 x c l2, l = l1 ++ x :: l2 -> (forall y q, y ∈ l1 -> h !! y = Some q -> wanted pid_ q && reports options q = false) ->
       h !! x = Some c -> wanted pid_ c = true -> reports options c = true ->
       exists h' p', waitpid_step proc pid_ user options got h =
           Some (Waited (fpid c) (store_status user (fstatus c)).1 (store_status user (fstatus c)).2 (if zombie c then fthreads c else []), h') /\
         h' !! proc = Some p' /\
         if zombie c then kids h' (child p') (l1 ++ l2) /\ (frefs c = 1 -> h' !! x = None)
         else kids h' (child p') l /\ h' !! x = Some (reported options c)) /\
    ((forall y q, y ∈ l -> h !! y = Some q -> wanted pid_ q && reports options q = false) ->
       waitpid_step proc pid_ user options got h =
         Some (if existsb (candidate h pid_) l
               then (if got then Wait_again else if has options WNOHANG then Waited_nothing else Waited_error EINTR)
               else Waited_error ECHILD, h)).
Proof.
  intros Ep K ND. unfold waitpid_step, passert. destruct (known_options options); [|done]. destruct ((pid_ =? -1) || (pid_ >? 0)) eqn:Hp; [|done].
  cbn [negb andb mbind option_bind]. rewrite Ep. cbn [mbind option_bind]. pose proof ND as [Np ND']%NoDup_cons. pose proof (kids_size _ _ _ K ND') as Sz. split.
  - intros l1 x c l2 -> Hl Ex Wx Rx. destruct (scan_skips (size h) pid_ options None (child p) false h l1 (x :: l2) K Sz Hl) as (s' & fuel' & (-> & c' & Ec & K') & Hf & Sc).
    assert (c' = c) as -> by congruence. destruct (child p) as [c0|] eqn:Ech; [|destruct l1; by destruct K]. rewrite Sc. destruct fuel' as [|fuel']; [cbn in Hf; lia|].
    cbn [wait_scan]. rewrite Ex. cbn [mbind option_bind]. fold (wanted pid_ c). rewrite Wx. fold (zombie c). fold (reports options c). rewrite Rx. cbn [mbind option_bind].
    set (c1 := with_waits _ _ c). rewrite lookup_insert_eq. cbn [mbind option_bind].
    assert (Npx : proc <> x) by set_solver. set (h0 := <[x := c1]> h).
    assert (E0 : h0 !! proc = Some p) by (unfold h0; by rewrite lookup_insert_ne). assert (K0 : kids h0 (child p) (l1 ++ x :: l2)) by (rewrite Ech; by eapply kids_change; [exact Ex|done|]).
    destruct (zombie c) eqn:Zc; cbn [mbind option_bind].
    + destruct (unlink_child_ok h0 proc p l1 x c1 l2 E0 K0 ND ltac:(apply lookup_insert_eq)) as (h1 & p1 & -> & E1 & K1). cbn [mbind option_bind].
      change (fstatus c1) with (fstatus c). change (frefs c1) with (frefs c). change (fthreads c1) with (fthreads c). change (fpid c1) with (fpid c).
      destruct (store_status user (fstatus c)) as [v e]. eexists _, p1. split; [reflexivity|].
      assert (Nx : x ∉ l1 ++ l2) by (apply NoDup_app in ND' as (_ & D & [? _]%NoDup_cons); specialize (D x); set_solver).
      destruct (frefs c - 1 =? 0) eqn:R.
      * rewrite lookup_delete_ne by done. split; [done|]. split; [|intros _; apply lookup_delete_eq]. eapply kids_ext; [|exact K1]. intros y q Hy Eq. exists q. rewrite lookup_delete_ne by set_solver. done.
      * rewrite lookup_insert_ne by done. split; [done|]. split; [by apply kids_frame|lia].
    + change (fstatus c1) with (fstatus c). change (fpid c1) with (fpid c). destruct (store_status user (fstatus c)) as [v e]. exists h0, p. split; [done|]. split; [done|]. split; [done|].
      unfold h0. rewrite lookup_insert_eq. f_equal. unfold c1, reported. by destruct (fstop c), (fcont c).
  - intros Hl. destruct (scan_skips (size h) pid_ options None (child p) false h l []) as (s' & fuel' & -> & _ & Sc); rewrite ?app_nil_r; try done.
    destruct (child p) as [c0|] eqn:Ech; [|destruct l; [done|by destruct K]].
    rewrite Sc. destruct fuel'; cbn [wait_scan mbind option_bind orb]; (destruct (existsb (candidate h pid_) l) eqn:B; cbn [negb]; [rewrite andb_false_r; by destruct (has options WNOHANG), got|]);
      (destruct (pid_ >? 0) eqn:Pp; [done|]; exfalso; rewrite orb_false_r in Hp;
       destruct l as [|y l]; [discriminate K|]; destruct K as (_ & q & Eq & _); cbn [existsb] in B; unfold candidate at 1 in B; rewrite Eq in B; unfold wanted in B at 1; rewrite Hp, orb_true_r in B; done).
Qed.

(** A forked child is the first of its parent's children. *)
Lemma fork_link_ok h proc nproc p n l : h !! proc = Some p -> h !! nproc = Some n -> kids h (child p) l -> proc <> nproc -> (nproc ∉ l) -> (proc ∉ l) ->
  exists h' p', fork_link proc nproc h = Some h' /\ h' !! proc = Some p' /\ kids h' (child p') (nproc :: l).
Proof.
  intros Ep En K N Nn Np. unfold fork_link. rewrite Ep. cbn [mbind option_bind]. rewrite (change_some _ _ _ _ En). cbn [mbind option_bind].
  rewrite (change_some _ _ _ p) by (by rewrite lookup_insert_ne). eexists _, _. split; [done|]. split; [apply lookup_insert_eq|]. split; [done|].
  eexists. rewrite lookup_insert_ne, lookup_insert_eq by done. split; [done|]. cbn. apply kids_frame; [done|]. by apply kids_frame.
Qed.

(** ** Witnesses *)

Definition relative (n : Z) (s : proc_state) (ch sib par : option nat) : fproc_t := mk_fproc n s ch sib par 0 false false 1 0 0 [].

(** Init with child 1, which has children 3 and 2, the last one a zombie. *)
Definition sample_family : family :=
  {[0%nat := relative 1 PROC_STATE_NORMAL (Some 1%nat) None None; 1%nat := relative 2 PROC_STATE_NORMAL (Some 3%nat) None (Some 0%nat);
    2%nat := relative 3 PROC_STATE_ZOMBIE None None (Some 1%nat); 3%nat := relative 4 PROC_STATE_NORMAL None (Some 2%nat) (Some 1%nat)]}.

Lemma proc_exit_children_witness :
  exists h' i' pz', proc_exit 0 1 sample_family = Some h' /\ h' !! 0%nat = Some i' /\ kids h' (child i') [3%nat; 2%nat; 1%nat] /\
    h' !! 2%nat = Some pz' /\ fparent pz' = Some 1%nat /\ units i' = 1.
Proof.
  destruct (proc_exit_children sample_family 0 1 0 (relative 2 PROC_STATE_NORMAL (Some 3%nat) None (Some 0%nat)) (relative 1 PROC_STATE_NORMAL (Some 1%nat) None None)
    (relative 1 PROC_STATE_NORMAL (Some 1%nat) None None) [3%nat] 2 [1%nat] (relative 3 PROC_STATE_ZOMBIE None None (Some 1%nat))) as (h' & i' & pz' & E & Ei & K & _ & Ez & Pz & U).
  - split; try reflexivity.
    + split; [reflexivity|]. eexists. split; [reflexivity|]. split; [reflexivity|]. eexists. split; reflexivity.
    + split; [reflexivity|]. eexists. split; reflexivity.
    + repeat constructor; set_solver.
    + split; [lia|]. set_solver.
  - reflexivity.
  - exists h', i', pz'. split; [exact E|]. split; [exact Ei|]. split; [exact K|]. split; [exact Ez|]. split; [exact Pz|exact U].
Defined.

Lemma waitpid_outcome_witness :
  exists h' p', waitpid_step 1 (-1) (Some true) 0 false sample_family = Some (Waited 3 (Some 0) 0 [], h') /\ h' !! 1%nat = Some p' /\
    kids h' (child p') [3%nat] /\ (1 = 1 -> h' !! 2%nat = None).
Proof.
  destruct (waitpid_outcome sample_family 1 (relative 2 PROC_STATE_NORMAL (Some 3%nat) None (Some 0%nat)) (-1) (Some true) 0 false [3%nat; 2%nat]) as [H _].
  - reflexivity.
  - split; [reflexivity|]. eexists. split; [reflexivity|]. split; [reflexivity|]. eexists. split; reflexivity.
  - repeat constructor; set_solver.
  - apply (H [3%nat] 2%nat (relative 3 PROC_STATE_ZOMBIE None None (Some 1%nat)) []); try reflexivity.
    intros y q ->%list_elem_of_singleton E. vm_compute in E. injection E as <-. reflexivity.
Defined.
