(* ===== verification/Vfs.v ===== *)
(** * The virtual file system ([fs/vfs.c], [include/kernel/vfs.h])

    Vnodes with their reference counts and locks, the mounted file systems, and
    the operations on paths.  A file system is an instance of [Vops], the table
    of operations of its vnodes, with a private state of its own; the theorems
    on path lookup are proved against the laws of [LookupLaws].

    One thread runs: a lock that it would wait for stops it, which is [None]
    like a failed assertion, and a release of a lock that is not held adds one
    to the semaphore of the lock, as in the code. *)

From S2P Require Import Prelude Errno Vnode Auth.

(** ** Data *)

Abbreviation name_t := (list Z).
Definition dotdot : name_t := [46; 46].
Definition slash : Z := 47.

Definition V_FLAGS_ROOT : Z := 1.
Definition V_ACCESS_SEARCH : Z := 1.
Definition V_ACCESS_WRITE : Z := 2.
Definition V_ACCESS_READ : Z := 4.

Definition PATHNAME_MAX : Z := 512.
Definition MAXLINKDEPTH : Z := 64.

Definition VFS_LOOKUP_PARENT : Z := 0x20000000.
Definition VFS_LOOKUP_NOLINK : Z := 0x40000000.
Definition VFS_LOOKUP_INTERNAL : Z := 0x80000000.

(** [lock] is the count of the lock's semaphore: 1 when it is free. *)
Record vnode_t := mk_vnode { lock : Z; refcount : Z; flags : Z; type : Z; vfs : nat; vfsmounted : option nat }.

Record vfs_t := mk_vfs { nodecovered : option nat; root : option nat }.

(** [memory] is what the coming allocations get, in order: an address or
    nothing; [fs] is the private state of the file systems. *)
Record world (F : Type) := mk_world {
  vnodes : gmap nat vnode_t;
  vfss : gmap nat vfs_t;
  vfslist : list nat;
  memory : list (option nat);
  fs : F
}.
Arguments mk_world {F} _ _ _ _ _.
Arguments vnodes {F} _.
Arguments vfss {F} _.
Arguments vfslist {F} _.
Arguments memory {F} _.
Arguments fs {F} _.

Definition with_lock (v : Z) (n : vnode_t) : vnode_t := mk_vnode v (refcount n) (flags n) (type n) (vfs n) (vfsmounted n).
Definition with_refcount (v : Z) (n : vnode_t) : vnode_t := mk_vnode (lock n) v (flags n) (type n) (vfs n) (vfsmounted n).
Definition with_vfsmounted (v : option nat) (n : vnode_t) : vnode_t := mk_vnode (lock n) (refcount n) (flags n) (type n) (vfs n) v.

Section world.
Context {F : Type}.

Definition set_vnode (x : nat) (n : vnode_t) (w : world F) : world F :=
  mk_world (<[x := n]> (vnodes w)) (vfss w) (vfslist w) (memory w) (fs w).
Definition set_fs (f : F) (w : world F) : world F := mk_world (vnodes w) (vfss w) (vfslist w) (memory w) f.
Definition set_memory (m : list (option nat)) (w : world F) : world F := mk_world (vnodes w) (vfss w) (vfslist w) m (fs w).
Definition set_vfs (v : nat) (u : vfs_t) (w : world F) : world F :=
  mk_world (vnodes w) (<[v := u]> (vfss w)) (vfslist w) (memory w) (fs w).
Definition set_vfslist (l : list nat) (w : world F) : world F := mk_world (vnodes w) (vfss w) l (memory w) (fs w).

(** An allocation. *)
Definition take_memory (w : world F) : option nat * world F :=
  match memory w with
  | [] => (None, w)
  | a :: m => (a, set_memory m w)
  end.

Definition VOP_HOLD (x : nat) (w : world F) : option (world F) :=
  n ← vnodes w !! x; Some (set_vnode x (with_refcount (refcount n + 1) n) w).

Definition VOP_INIT (x : nat) (f t : Z) (v : nat) (w : world F) : world F := set_vnode x (mk_vnode 1 1 f t v None) w.

Definition VOP_LOCK (x : nat) (w : world F) : option (world F) :=
  n ← vnodes w !! x;
  passert (0 <? lock n);;
  Some (set_vnode x (with_lock (lock n - 1) n) w).

Definition VOP_UNLOCK (x : nat) (w : world F) : option (world F) :=
  n ← vnodes w !! x; Some (set_vnode x (with_lock (lock n + 1) n) w).
End world.

(** ** The operations of a file system *)

Class Vops (F : Type) := {
  vop_lookup : nat -> name_t -> world F -> option (Z * option nat * world F);
  vop_create : nat -> name_t -> vattr_t -> Z -> world F -> option (Z * option nat * world F);
  vop_open : nat -> Z -> world F -> option (Z * nat * world F);
  vop_close : nat -> Z -> world F -> option (Z * world F);
  vop_access : option cred_t -> nat -> Z -> world F -> option Z;
  vop_getattr : nat -> world F -> option vattr_t;
  vop_unlink : nat -> nat -> name_t -> world F -> option (Z * world F);
  vop_link : nat -> nat -> name_t -> world F -> option (Z * world F);
  vop_symlink : nat -> name_t -> vattr_t -> name_t -> world F -> option (Z * world F);
  vop_readlink : nat -> world F -> option (Z * name_t * world F);
  vop_rename : nat -> nat -> name_t -> nat -> option nat -> name_t -> world F -> option (Z * world F);
  vop_inactive : nat -> world F -> option (world F);
  vfs_ops_mount : world F -> option (Z * option nat * world F);
  vfs_ops_root : nat -> world F -> option (Z * option nat * world F)
}.

Section ops.
Context {F : Type} `{!Vops F}.

(** [VOP_RELEASE], with [vfs_inactive] at the last reference; no socket or pipe
    is bound to the nodes here. *)
Definition vfs_inactive (x : nat) (w : world F) : option (world F) := vop_inactive x w.

Definition VOP_RELEASE (x : nat) (w : world F) : option (world F) :=
  n ← vnodes w !! x;
  let w := set_vnode x (with_refcount (refcount n - 1) n) w in
  if refcount n - 1 =? 0 then vfs_inactive x w else Some w.

(** ** Mount points *)

(** The loop stops at a node nothing is mounted on; there are no more steps
    than file systems. *)
Fixpoint highest_loop (fuel : nat) (node : nat) (w : world F) : option (Z * nat * world F) :=
  match fuel with
  | O => None
  | S fuel' =>
      n ← vnodes w !! node;
      match vfsmounted n with
      | None => Some (0, node, w)
      | Some v =>
          '(e, r, w) ← vfs_ops_root v w;
          if negb (e =? 0) then Some (e, node, w)
          else r ← r; highest_loop fuel' r w
      end
  end.

Definition highestnodeinmp (node : nat) (w : world F) : option (Z * nat * world F) := highest_loop (S (size (vfss w))) node w.

Fixpoint lowest_loop (fuel : nat) (node : nat) (w : world F) : option nat :=
  match fuel with
  | O => None
  | S fuel' =>
      n ← vnodes w !! node;
      if has (flags n) V_FLAGS_ROOT then u ← vfss w !! vfs n; c ← nodecovered u; lowest_loop fuel' c w
      else Some node
  end.

Definition lowestnodeinmp (node : nat) (w : world F) : option nat := lowest_loop (S (size (vfss w))) node w.

(** ** Path lookup *)

(** The slashes of the copy of the path become terminators; a component ends at
    the first one. *)
Definition split_slashes (path : name_t) : name_t := map (fun c => if c =? slash then 0 else c) path.

Fixpoint strlen_at (buf : name_t) : nat :=
  match buf with
  | [] => 0
  | c :: rest => if c =? 0 then 0%nat else S (strlen_at rest)
  end.

(** Only separators follow. *)
Fixpoint only_slashes (buf : name_t) : bool :=
  match buf with
  | [] => true
  | c :: rest => (c =? 0) && only_slashes rest
  end.

(** The thread: the scopes of the authorisation, its credentials, the root
    directory of its process, and the root of the tree. *)
Variable scopes : scopes_t.
Variable cred : option cred_t.
Variable proc_root : option nat.
Variable vfsroot : nat.

(** The steps taken for a component [..]: [true] when it is skipped. *)
Definition go_up (component : name_t) (current : nat) (w : world F) : option (bool * nat * world F) :=
  if negb (bool_decide (component = dotdot)) then Some (false, current, w)
  else
    '(e, top, w) ← highestnodeinmp vfsroot w;
    passert (e =? 0);;
    if bool_decide (top = current) then Some (true, current, w)
    else
      cn ← vnodes w !! current;
      if has (flags cn) V_FLAGS_ROOT then
        n ← lowestnodeinmp current w;
        if bool_decide (n = current) then Some (false, current, w)
        else
          w ← VOP_HOLD n w;
          w ← VOP_UNLOCK current w;
          w ← VOP_RELEASE current w;
          w ← VOP_LOCK n w;
          Some (false, n, w)
      else Some (false, current, w).

(** Following the link [next] found in [current]; [deref] is the lookup
    itself. *)
Definition follow_link (deref : nat -> name_t -> Z -> world F -> option (Z * option nat * world F)) (lflags : Z) (current next : nat)
    (w : world F) : option (Z * nat * world F) :=
  '(e, linkderef, w) ← vop_readlink next w;
  w ← VOP_UNLOCK next w;
  if negb (e =? 0) then w ← VOP_RELEASE next w; Some (e, next, w)
  else
    let pass := if has lflags VFS_LOOKUP_INTERNAL then lflags + 1 else VFS_LOOKUP_INTERNAL in
    let absolute := bool_decide (head linkderef = Some slash) in
    let derefstart := if absolute then default vfsroot proc_root else current in
    w ← (if absolute then VOP_HOLD derefstart w else Some w);
    '(e, res, w) ← deref derefstart linkderef pass w;
    w ← (if absolute then VOP_RELEASE derefstart w else Some w);
    w ← VOP_RELEASE next w;
    if negb (e =? 0) then Some (e, next, w) else r ← res; Some (0, r, w).

(** One component: the next node, or the error that ends the walk. *)
Definition comp_step (deref : nat -> name_t -> Z -> world F -> option (Z * option nat * world F)) (lflags : Z) (islast : bool)
    (component : name_t) (current : nat) (w : world F) : option (Z * nat * world F) :=
  e ← vop_access cred current V_ACCESS_SEARCH w;
  if negb (e =? 0) then Some (e, current, w)
  else
    '(e, next, w) ← vop_lookup current component w;
    if negb (e =? 0) then Some (e, current, w)
    else
      next ← next;
      w ← (if negb (bool_decide (current = next)) && negb (bool_decide (component = dotdot)) then VOP_UNLOCK current w else Some w);
      '(e, r, w) ← highestnodeinmp next w;
      if negb (e =? 0) then
        w ← (if negb (bool_decide (current = next)) then VOP_UNLOCK next w else Some w);
        w ← VOP_RELEASE next w;
        Some (e, current, w)
      else
        w ← (if bool_decide (r = next) then Some w
             else w ← VOP_HOLD r w; w ← VOP_UNLOCK next w; w ← VOP_RELEASE next w; VOP_LOCK r w);
        rn ← vnodes w !! r;
        '(e, r, w) ← (if (type rn =? V_TYPE_LINK) && (negb islast || negb (has lflags VFS_LOOKUP_NOLINK))
                      then follow_link deref lflags current r w
                      else Some (0, r, w));
        if negb (e =? 0) then Some (e, current, w)
        else w ← VOP_RELEASE current w; Some (0, r, w).

(** The walk over the buffer; [skip] counts the bytes of a component that was
    dealt with. *)
Fixpoint comp_loop (deref : nat -> name_t -> Z -> world F -> option (Z * option nat * world F)) (lflags : Z) (want : bool)
    (buf : name_t) (skip : nat) (current : nat) (w : world F) : option (Z * nat * option name_t * world F) :=
  match buf with
  | [] => Some (0, current, None, w)
  | ch :: rest =>
      match skip with
      | S k => comp_loop deref lflags want rest k current w
      | O =>
          if ch =? 0 then comp_loop deref lflags want rest 0 current w
          else
            cn ← vnodes w !! current;
            if negb (type cn =? V_TYPE_DIR) then Some (ENOTDIR, current, None, w)
            else
              let complen := strlen_at buf in
              let component := take complen buf in
              let islast := only_slashes (drop complen buf) in
              if islast && has lflags VFS_LOOKUP_PARENT then passert want;; Some (0, current, Some component, w)
              else
                '(skipped, current, w) ← go_up component current w;
                if skipped : bool then comp_loop deref lflags want rest complen current w
                else
                  '(e, next, w) ← comp_step deref lflags islast component current w;
                  if negb (e =? 0) then Some (e, current, None, w)
                  else comp_loop deref lflags want rest complen next w
      end
  end.

(** The result: the error, the node and the last component.  [want] says that
    the caller has a buffer for the last component. *)
Fixpoint lookup_fuel (fuel : nat) (start : nat) (path : name_t) (want : bool) (lflags : Z) (w : world F)
    : option (Z * option nat * option name_t * world F) :=
  match fuel with
  | O => None
  | S fuel' =>
      if has lflags VFS_LOOKUP_INTERNAL && (Z.land lflags 0xff >? MAXLINKDEPTH) then Some (ELOOP, None, None, w)
      else if bool_decide (path = []) then
        if has lflags VFS_LOOKUP_PARENT then Some (ENOENT, None, None, w)
        else
          '(e, r, w) ← highestnodeinmp start w;
          if negb (e =? 0) then Some (e, None, None, w)
          else w ← VOP_HOLD r w; Some (0, Some r, None, w)
      else if Z.of_nat (length path) >? PATHNAME_MAX then Some (ENAMETOOLONG, None, None, w)
      else
        '(e, current, w) ← highestnodeinmp start w;
        if negb (e =? 0) then Some (e, None, None, w)
        else
          let '(compbuffer, w) := take_memory w in
          if bool_decide (compbuffer = None) then Some (ENOMEM, None, None, w)
          else
            w ← VOP_HOLD current w;
            w ← VOP_LOCK current w;
            let deref s p f w := '(e, r, _, w) ← lookup_fuel fuel' s p false f w; Some (e, r, w) in
            '(e, current, lastcomp, w) ← comp_loop deref lflags want (split_slashes path) 0 current w;
            if negb (e =? 0) then
              w ← VOP_UNLOCK current w;
              w ← VOP_RELEASE current w;
              Some (e, None, lastcomp, w)
            else Some (0, Some current, lastcomp, w)
  end.

(** [MAXLINKDEPTH] links, one call for the path and one that finds the limit
    exceeded. *)
Definition vfs_lookup (start : nat) (path : name_t) (want : bool) (lflags : Z) (w : world F)
    : option (Z * option nat * option name_t * world F) := lookup_fuel 67 start path want lflags w.

(** ** Operations on paths *)

(** The authorisation of an action on a node, in a directory.  Without
    credentials it is granted before any attribute is read. *)
Definition fs_check (actions : Z) (x : nat) (dir : option nat) (w : world F) : option Z :=
  match cred with
  | None => Some 0
  | Some _ =>
      n ← vnodes w !! x;
      a ← vop_getattr x w;
      d ← (match dir with Some d => da ← vop_getattr d w; Some (Some da) | None => Some None end);
      auth_filesystem_check scopes cred actions (type n) a d
  end.

(** [known] says whether the file system type is registered.  A mount keeps the
    reference of the lookup to the node it covers. *)
Definition vfs_mount (known : bool) (pathref : nat) (path : name_t) (w : world F) : option (Z * world F) :=
  if negb known then Some (ENOENT, w)
  else
    '(e, mounton, _, w) ← vfs_lookup pathref path false 0 w;
    if negb (e =? 0) then Some (e, w)
    else
      mounton ← mounton;
      let bail e w := w ← VOP_UNLOCK mounton w; w ← VOP_RELEASE mounton w; Some (e, w) in
      e ← fs_check AUTH_ACTIONS_FILESYSTEM_MOUNT mounton None w;
      if negb (e =? 0) then bail e w
      else
        n ← vnodes w !! mounton;
        if negb (type n =? V_TYPE_DIR) then bail ENOTDIR w
        else
          '(e, v, w) ← vfs_ops_mount w;
          if negb (e =? 0) then bail e w
          else
            v ← v;
            u ← vfss w !! v;
            n ← vnodes w !! mounton;
            let w := set_vfslist (v :: vfslist w) w in
            let w := set_vnode mounton (with_vfsmounted (Some v) n) w in
            let w := set_vfs v (mk_vfs (Some mounton) (root u)) w in
            w ← VOP_UNLOCK mounton w;
            Some (0, w).

Definition vfs_open (ref : nat) (path : name_t) (fflags : Z) (w : world F) : option (Z * option nat * world F) :=
  '(e, tmp, _, w) ← vfs_lookup ref path false 0 w;
  if negb (e =? 0) then Some (e, None, w)
  else
    tmp ← tmp;
    let mode := Z.lor (if has fflags V_FFLAGS_READ then V_ACCESS_READ else 0) (if has fflags V_FFLAGS_WRITE then V_ACCESS_WRITE else 0) in
    e ← vop_access cred tmp mode w;
    if negb (e =? 0) then w ← VOP_UNLOCK tmp w; Some (e, None, w)
    else
      '(e, new, w) ← vop_open tmp fflags w;
      if negb (e =? 0) then
        w ← VOP_RELEASE tmp w;
        w ← VOP_UNLOCK tmp w;
        Some (e, None, w)
      else w ← VOP_UNLOCK tmp w; Some (0, Some new, w).

Definition vfs_close (node : nat) (fflags : Z) (w : world F) : option (Z * world F) :=
  w ← VOP_LOCK node w;
  '(e, w) ← vop_close node fflags w;
  w ← VOP_UNLOCK node w;
  Some (e, w).

(** [free] of a buffer that could not be allocated faults. *)
Definition free_buffer (b : option nat) : option unit := passert (bool_decide (is_Some b)).

(** [keep] says that the caller takes the new node. *)
Definition vfs_create (ref : nat) (path : name_t) (a : vattr_t) (t : Z) (keep : bool) (w : world F) : option (Z * option nat * world F) :=
  let '(component, w) := take_memory w in
  '(e, parent, lastcomp, w) ← vfs_lookup ref path (bool_decide (is_Some component)) VFS_LOOKUP_PARENT w;
  if negb (e =? 0) then free_buffer component;; Some (e, None, w)
  else
    parent ← parent;
    name ← lastcomp;
    e ← vop_access cred parent V_ACCESS_WRITE w;
    if negb (e =? 0) then
      w ← VOP_UNLOCK parent w;
      w ← VOP_RELEASE parent w;
      w ← VOP_UNLOCK parent w;
      Some (e, None, w)
    else
      '(e, ret, w) ← vop_create parent name a t w;
      w ← VOP_RELEASE parent w;
      if negb (e =? 0) then w ← VOP_UNLOCK parent w; Some (e, None, w)
      else
        ret ← ret;
        w ← (if keep then Some w else w ← VOP_UNLOCK ret w; VOP_RELEASE ret w);
        w ← VOP_UNLOCK parent w;
        Some (0, if keep then Some ret else None, w).

Definition vfs_link (destref : nat) (destpath : name_t) (linkref : nat) (linkpath : name_t) (t : Z) (a : vattr_t) (w : world F)
    : option (Z * world F) :=
  passert ((t =? V_TYPE_LINK) || (t =? V_TYPE_REGULAR));;
  '(e, targetnode, w) ← (if t =? V_TYPE_REGULAR then '(e, r, _, w) ← vfs_lookup destref destpath false 0 w; Some (e, r, w)
                         else Some (0, None, w));
  if negb (e =? 0) then Some (e, w)
  else
    let cleanup e w :=
      if t =? V_TYPE_REGULAR then x ← targetnode; w ← VOP_UNLOCK x w; w ← VOP_RELEASE x w; Some (e, w) else Some (e, w) in
    let '(component, w) := take_memory w in
    if bool_decide (component = None) then cleanup ENOMEM w
    else
      '(e, parent, lastcomp, w) ← vfs_lookup linkref linkpath true VFS_LOOKUP_PARENT w;
      if negb (e =? 0) then cleanup e w
      else
        parent ← parent;
        name ← lastcomp;
        e ← vop_access cred parent V_ACCESS_WRITE w;
        '(e, w) ← (if negb (e =? 0) then Some (e, w)
                   else if t =? V_TYPE_REGULAR then x ← targetnode; vop_link x parent name w
                   else vop_symlink parent name a destpath w);
        w ← VOP_UNLOCK parent w;
        w ← VOP_RELEASE parent w;
        cleanup e w.

Definition vfs_unlink (ref : nat) (path : name_t) (w : world F) : option (Z * world F) :=
  let '(component, w) := take_memory w in
  if bool_decide (component = None) then Some (ENOMEM, w)
  else
    '(e, parent, lastcomp, w) ← vfs_lookup ref path true (Z.lor VFS_LOOKUP_NOLINK VFS_LOOKUP_PARENT) w;
    if negb (e =? 0) then Some (e, w)
    else
      parent ← parent;
      name ← lastcomp;
      let isdotdot := bool_decide (path = dotdot) in
      '(e, child, w) ← vop_lookup parent name w;
      if negb (e =? 0) then w ← VOP_UNLOCK parent w; w ← VOP_RELEASE parent w; Some (e, w)
      else
        child ← child;
        r ← fs_check AUTH_ACTIONS_FILESYSTEM_UNLINK child (Some parent) w;
        '(e, w) ← (if negb (r =? 0) then Some (EACCES, w) else vop_unlink parent child name w);
        w ← VOP_UNLOCK child w;
        w ← (if isdotdot then Some w else VOP_UNLOCK parent w);
        w ← VOP_RELEASE child w;
        w ← VOP_RELEASE parent w;
        Some (e, w).

(** The part of [vfs_rename] with both directories locked, up to the label
    [cleanup_locks]. *)
Definition rename_locked (srcdir : nat) (srccomp : name_t) (dstdir : nat) (dstcomp : name_t) (w : world F) : option (Z * world F) :=
  '(e, src, w) ← vop_lookup srcdir srccomp w;
  if negb (e =? 0) then Some (e, w)
  else
    src ← src;
    w ← (if bool_decide (srccomp = dotdot) then VOP_LOCK srcdir w else Some w);
    w ← VOP_UNLOCK src w;
    '(e, dst, w) ← vop_lookup dstdir dstcomp w;
    if negb (e =? 0) && negb (e =? ENOENT) then w ← VOP_RELEASE src w; Some (e, w)
    else
      let dst := if e =? 0 then dst else None in
      w ← (if bool_decide (dstcomp = dotdot) then VOP_LOCK dstdir w else Some w);
      w ← (if bool_decide (Some src = dst) then Some w else VOP_LOCK src w);
      r ← fs_check AUTH_ACTIONS_FILESYSTEM_RENAME src (Some srcdir) w;
      '(e, w) ←
        (if negb (r =? 0) then Some (EACCES, w)
         else
           r ← (match dst with Some d => fs_check AUTH_ACTIONS_FILESYSTEM_UNLINK d (Some dstdir) w | None => Some 0 end);
           if negb (r =? 0) then Some (EACCES, w)
           else
             e ← vop_access cred dstdir V_ACCESS_WRITE w;
             if negb (e =? 0) then Some (e, w) else vop_rename srcdir src srccomp dstdir dst dstcomp w);
      w ← (if bool_decide (Some src = dst) then Some w else VOP_UNLOCK src w);
      w ← (match dst with Some d => VOP_UNLOCK d w | None => Some w end);
      w ← VOP_RELEASE src w;
      w ← (match dst with Some d => VOP_RELEASE d w | None => Some w end);
      Some (e, w).

Definition vfs_rename (srcref : nat) (srcpath : name_t) (dstref : nat) (dstpath : name_t) (w : world F) : option (Z * world F) :=
  let '(b1, w) := take_memory w in
  if bool_decide (b1 = None) then Some (ENOMEM, w)
  else
    let '(b2, w) := take_memory w in
    if bool_decide (b2 = None) then Some (ENOMEM, w)
    else
      '(e, srcdir, srccomp, w) ← vfs_lookup srcref srcpath true (Z.lor VFS_LOOKUP_NOLINK VFS_LOOKUP_PARENT) w;
      if negb (e =? 0) then Some (e, w)
      else
        srcdir ← srcdir;
        srccomp ← srccomp;
        w ← VOP_UNLOCK srcdir w;
        '(e, dstdir, dstcomp, w) ← vfs_lookup dstref dstpath true (Z.lor VFS_LOOKUP_NOLINK VFS_LOOKUP_PARENT) w;
        if negb (e =? 0) then w ← VOP_RELEASE srcdir w; Some (e, w)
        else
          dstdir ← dstdir;
          dstcomp ← dstcomp;
          w ← (if bool_decide (srcdir = dstdir) then Some w else VOP_LOCK srcdir w);
          '(e, w) ← rename_locked srcdir srccomp dstdir dstcomp w;
          w ← (if bool_decide (srcdir = dstdir) then Some w else VOP_UNLOCK srcdir w);
          w ← VOP_UNLOCK dstdir w;
          w ← VOP_RELEASE srcdir w;
          w ← VOP_RELEASE dstdir w;
          Some (e, w).
End ops.

(** ** What path lookup needs of a file system

    [entry] is the contents of the directories ([None] when there is no such
    directory), [target] that of the links and
    [grants] the permissions. *)

Class LookupLaws (F : Type) `{!Vops F} := {
  entry : F -> nat -> name_t -> option (option nat);
  target : F -> nat -> option name_t;
  grants : option cred_t -> F -> nat -> Z -> Z -> option Z;
  lookup_found (w : world F) d n name c :
    vnodes w !! d = Some n -> type n = V_TYPE_DIR -> entry (fs w) d name = Some (Some c) ->
    vop_lookup d name w =
      (w ← VOP_HOLD c w;
       w ← (if bool_decide (name = dotdot) then VOP_UNLOCK d w else Some w);
       w ← (if bool_decide (c = d) then Some w else VOP_LOCK c w);
       Some (0, Some c, w));
  lookup_absent (w : world F) d n name :
    vnodes w !! d = Some n -> type n = V_TYPE_DIR -> entry (fs w) d name = Some None ->
    vop_lookup d name w = Some (ENOENT, None, w);
  access_local (w : world F) cred x n mode :
    vnodes w !! x = Some n -> vop_access cred x mode w = grants cred (fs w) x (type n) mode;
  readlink_found (w : world F) x n p a m :
    vnodes w !! x = Some n -> type n = V_TYPE_LINK -> target (fs w) x = Some p -> memory w = Some a :: m ->
    vop_readlink x w = Some (0, p, set_memory m w);
  root_made (w : world F) v u r : vfss w !! v = Some u -> root u = Some r -> vfs_ops_root v w = Some (0, Some r, w)
}.

(** ** Worlds up to references and locks *)

Section adjust.
Context {F : Type} `{!Vops F}.

(** The change of a counter at one node. *)
Definition add (x : nat) (d : Z) (f : nat -> Z) : nat -> Z := fun y => f y + if decide (y = x) then d else 0.

Definition bump (r l : Z) (n : vnode_t) : vnode_t := mk_vnode (lock n + l) (refcount n + r) (flags n) (type n) (vfs n) (vfsmounted n).

(** [w] with [r x] more references and [l x] more units of the lock of every
    node [x], and the memory [m]. *)
Definition adj (r l : nat -> Z) (m : list (option nat)) (w : world F) : world F :=
  mk_world (map_imap (fun x n => Some (bump (r x) (l x) n)) (vnodes w)) (vfss w) (vfslist w) m (fs w).

#[local] Arguments adj : simpl never.

Lemma world_eq (w w' : world F) :
  vnodes w = vnodes w' -> vfss w = vfss w' -> vfslist w = vfslist w' -> memory w = memory w' -> fs w = fs w' -> w = w'.
Proof. destruct w, w'. simpl. by intros -> -> -> -> ->. Qed.

Lemma adj_vnode r l m w x : vnodes (adj r l m w) !! x = bump (r x) (l x) <$> vnodes w !! x.
Proof. unfold adj. simpl. rewrite map_lookup_imap. by destruct (vnodes w !! x). Qed.

Lemma adj_ext r l r' l' m w : (forall x, r x = r' x) -> (forall x, l x = l' x) -> adj r l m w = adj r' l' m w.
Proof.
  intros Hr Hl. apply world_eq; try done. apply map_eq. intros x. rewrite !adj_vnode, Hr, Hl. done.
Qed.

Lemma adj_zero w : adj (fun _ => 0) (fun _ => 0) (memory w) w = w.
Proof.
  apply world_eq; try done. apply map_eq. intros x. rewrite adj_vnode.
  destruct (vnodes w !! x) as [[]|]; simpl; [|done]. unfold bump. simpl. do 2 f_equal; lia.
Qed.

(** Updating one node of an adjusted world. *)
Lemma adj_set r l r' l' m w x n :
  vnodes w !! x = Some n ->
  (forall y, y <> x -> r' y = r y) -> (forall y, y <> x -> l' y = l y) ->
  set_vnode x (bump (r' x) (l' x) n) (adj r l m w) = adj r' l' m w.
Proof.
  intros Hx Hr Hl. apply world_eq; try done. apply map_eq. intros y. unfold set_vnode. cbn [vnodes].
  destruct (decide (y = x)) as [->|].
  - by rewrite lookup_insert_eq, adj_vnode, Hx.
  - rewrite lookup_insert_ne by done. by rewrite !adj_vnode, Hr, Hl.
Qed.

Lemma add_eq x d f : add x d f x = f x + d.
Proof. unfold add. by rewrite decide_True. Qed.

Lemma add_ne x d f y : y <> x -> add x d f y = f y.
Proof. intros. unfold add. rewrite decide_False by done. lia. Qed.

Lemma hold_adj r l m w x : is_Some (vnodes w !! x) -> VOP_HOLD x (adj r l m w) = Some (adj (add x 1 r) l m w).
Proof.
  intros [n Hx]. unfold VOP_HOLD. rewrite adj_vnode, Hx. simpl. f_equal.
  rewrite <- (adj_set r l (add x 1 r) l m w x n Hx); [|intros; by apply add_ne|done].
  rewrite add_eq. unfold bump, with_refcount. simpl. do 2 f_equal. lia.
Qed.

Lemma unlock_adj r l m w x : is_Some (vnodes w !! x) -> VOP_UNLOCK x (adj r l m w) = Some (adj r (add x 1 l) m w).
Proof.
  intros [n Hx]. unfold VOP_UNLOCK. rewrite adj_vnode, Hx. simpl. f_equal.
  rewrite <- (adj_set r l r (add x 1 l) m w x n Hx); [|done|intros; by apply add_ne].
  rewrite add_eq. unfold bump, with_lock. simpl. do 2 f_equal. lia.
Qed.

Lemma lock_adj r l m w x n :
  vnodes w !! x = Some n -> 0 < lock n + l x -> VOP_LOCK x (adj r l m w) = Some (adj r (add x (-1) l) m w).
Proof.
  intros Hx Hl. unfold VOP_LOCK. rewrite adj_vnode, Hx. cbn -[set_vnode].
  destruct (Z.ltb_spec 0 (lock n + l x)); [|lia]. cbn -[set_vnode]. f_equal.
  rewrite <- (adj_set r l r (add x (-1) l) m w x n Hx); [|done|intros; by apply add_ne].
  rewrite add_eq. unfold bump, with_lock. simpl. do 2 f_equal. lia.
Qed.

Lemma release_adj r l m w x n :
  vnodes w !! x = Some n -> 1 < refcount n + r x -> VOP_RELEASE x (adj r l m w) = Some (adj (add x (-1) r) l m w).
Proof.
  intros Hx Hr. unfold VOP_RELEASE. rewrite adj_vnode, Hx. cbn -[set_vnode].
  destruct (Z.eqb_spec (refcount n + r x - 1) 0); [lia|]. f_equal.
  rewrite <- (adj_set r l (add x (-1) r) l m w x n Hx); [|intros; by apply add_ne|done].
  rewrite add_eq. unfold bump, with_refcount. simpl. do 2 f_equal. lia.
Qed.

Lemma set_memory_adj r l m m' w : set_memory m (adj r l m' w) = adj r l m w.
Proof. done. Qed.
End adjust.
Arguments adj : simpl never.
Arguments add : simpl never.
Arguments highestnodeinmp : simpl never.
Arguments lowestnodeinmp : simpl never.
Arguments VOP_HOLD : simpl never.
Arguments VOP_RELEASE : simpl never.
Arguments VOP_LOCK : simpl never.
Arguments VOP_UNLOCK : simpl never.

(** ** The components of a path *)

Fixpoint split0 (buf : name_t) : list name_t :=
  match buf with
  | [] => [[]]
  | c :: rest =>
      if c =? 0 then [] :: split0 rest
      else match split0 rest with
           | h :: t => (c :: h) :: t
           | [] => [[c]]
           end
  end.

Definition comps (buf : name_t) : list name_t := filter (fun s => s <> []) (split0 buf).

Definition components (path : name_t) : list name_t := comps (split_slashes path).

Lemma split0_first buf : exists t, split0 buf = take (strlen_at buf) buf :: t /\
  filter (fun s => s <> []) t = comps (drop (S (strlen_at buf)) buf).
Proof.
  induction buf as [|c buf (t & Ht & Hf)]; simpl; [by exists []|].
  destruct (c =? 0); [by exists (split0 buf)|]. rewrite Ht. by exists t.
Qed.

Lemma comps_zero buf : comps (0 :: buf) = comps buf.
Proof. done. Qed.

Lemma comps_first c buf :
  c <> 0 -> comps (c :: buf) = take (strlen_at (c :: buf)) (c :: buf) :: comps (drop (strlen_at (c :: buf)) buf).
Proof.
  intros Hc. destruct (split0_first (c :: buf)) as (t & Ht & Hf). unfold comps at 1. rewrite Ht.
  rewrite filter_cons_True by (simpl; destruct (Z.eqb_spec c 0); [lia|done]). rewrite Hf. done.
Qed.

Lemma only_slashes_comps buf : only_slashes buf = bool_decide (comps buf = []).
Proof.
  induction buf as [|c buf IH]; [done|]. cbn [only_slashes]. destruct (Z.eqb_spec c 0) as [->|].
  - by rewrite comps_zero.
  - rewrite comps_first by done. done.
Qed.

Lemma comps_drop_strlen buf : comps (drop (strlen_at buf) buf) = comps (drop (S (strlen_at buf)) buf).
Proof.
  induction buf as [|c buf IH]; [done|]. cbn [strlen_at]. destruct (Z.eqb_spec c 0) as [->|]; [done|exact IH].
Qed.

(** ** Resolution of paths *)

Section resolution.
Context {F : Type} `{!Vops F} `{!LookupLaws F}.
Variable cred : option cred_t.
Variable proc_root : option nat.
Variable vfsroot : nat.

(** The node at the top of a stack of mounts. *)
Fixpoint top_loop (fuel : nat) (w : world F) (x : nat) : option nat :=
  match fuel with
  | O => None
  | S fuel' =>
      n ← vnodes w !! x;
      match vfsmounted n with
      | None => Some x
      | Some v => u ← vfss w !! v; r ← root u; top_loop fuel' w r
      end
  end.

Definition top (w : world F) (x : nat) : option nat := top_loop (S (size (vfss w))) w x.

(** The directory in which a component is looked up from [cur]. *)
Definition up (w : world F) (cur : nat) (component : name_t) : option nat :=
  if bool_decide (component = dotdot) then
    t ← top w vfsroot;
    if bool_decide (t = cur) then None
    else n ← vnodes w !! cur; if has (flags n) V_FLAGS_ROOT then lowestnodeinmp cur w else Some cur
  else Some cur.

(** One component without links: the directory searched and the node found,
    through the mounts on it. *)
Definition finds (w : world F) (cur : nat) (component : name_t) (dir n' : nat) : Prop :=
  exists n c d,
    vnodes w !! cur = Some c /\ type c = V_TYPE_DIR /\ up w cur component = Some dir /\
    vnodes w !! dir = Some d /\ type d = V_TYPE_DIR /\ grants cred (fs w) dir V_TYPE_DIR V_ACCESS_SEARCH = Some 0 /\
    entry (fs w) dir component = Some (Some n) /\ (component = dotdot -> n <> dir) /\ top w n = Some n'.

Definition is_link (w : world F) (x : nat) : Prop := exists n, vnodes w !! x = Some n /\ type n = V_TYPE_LINK.

(** Walking from a directory by components, at a nesting of links; the last
    index counts the allocations. *)
Inductive walk (w : world F) : bool -> nat -> nat -> list name_t -> nat -> nat -> Prop :=
| walk_done nolink level cur : walk w nolink level cur [] cur 0
| walk_top nolink level cur rest r k c :
    top w vfsroot = Some cur -> vnodes w !! cur = Some c -> type c = V_TYPE_DIR ->
    walk w nolink level cur rest r k -> walk w nolink level cur (dotdot :: rest) r k
| walk_node nolink level cur component rest dir n r k :
    finds w cur component dir n -> (~ is_link w n \/ nolink = true /\ rest = []) ->
    walk w nolink level n rest r k -> walk w nolink level cur (component :: rest) r k
| walk_link nolink level cur component rest dir n p s x r k1 k2 :
    finds w cur component dir n -> is_link w n -> (nolink = false \/ rest <> []) ->
    target (fs w) n = Some p -> p <> [] -> (length p <= 512)%nat -> (level <= 64)%nat ->
    top w (if bool_decide (head p = Some slash) then default vfsroot proc_root else dir) = Some s ->
    walk w false (S level) s (components p) x k1 ->
    walk w nolink level x rest r k2 ->
    walk w nolink level cur (component :: rest) r (S (S (k1 + k2))).

(** No lock is held and no node is about to be freed. *)
Definition calm (w : world F) : Prop := forall x n, vnodes w !! x = Some n -> lock n = 1 /\ 1 <= refcount n.

Definition zero : nat -> Z := fun _ => 0.

(** [w] with the node [x] held once more and locked, and other holds [r]. *)
Definition at_node (x : nat) (r : nat -> Z) (m : list (option nat)) (w : world F) : world F := adj (add x 1 r) (add x (-1) zero) m w.

Lemma top_live w x r : top w x = Some r -> is_Some (vnodes w !! x) /\ is_Some (vnodes w !! r).
Proof.
  unfold top. generalize (S (size (vfss w))). intros f. revert x. induction f as [|f IH]; intros x H; [done|].
  cbn in H. destruct (vnodes w !! x) as [n|] eqn:E; [|done]. cbn in H. split; [done|].
  destruct (vfsmounted n); [|by simplify_eq; rewrite E].
  destruct (vfss w !! _) as [u|]; [|done]. cbn in H. destruct (root u); [|done]. by apply IH in H as [_ H].
Qed.

Lemma highest_adj r l m (w : world F) x t : top w x = Some t -> highestnodeinmp x (adj r l m w) = Some (0, t, adj r l m w).
Proof.
  unfold top, highestnodeinmp. change (vfss (adj r l m w)) with (vfss w). generalize (S (size (vfss w))). intros f. revert x.
  induction f as [|f IH]; intros x H; [done|]. cbn [top_loop highest_loop] in *.
  rewrite adj_vnode. destruct (vnodes w !! x) as [n|]; [|done]. cbn in *.
  destruct (vfsmounted n) as [v|]; [|by simplify_eq]. destruct (vfss w !! v) as [u|] eqn:Ev; [|done]. cbn in H.
  destruct (root u) as [y|] eqn:Er; [|done]. cbn in H.
  rewrite (root_made (adj r l m w) v u y Ev Er). cbn. by apply IH.
Qed.

Lemma lowest_adj r l m (w : world F) x : lowestnodeinmp x (adj r l m w) = lowestnodeinmp x w.
Proof.
  unfold lowestnodeinmp. change (vfss (adj r l m w)) with (vfss w). generalize (S (size (vfss w))). intros f. revert x.
  induction f as [|f IH]; intros x; [done|]. cbn [lowest_loop].
  rewrite adj_vnode. destruct (vnodes w !! x) as [n|]; [|done]. cbn [fmap option_fmap option_map mbind option_bind bump flags vfs].
  destruct (has (flags n) V_FLAGS_ROOT); [|done]. change (vfss (adj r l m w)) with (vfss w). destruct (vfss w !! vfs n) as [u|]; [|done]. cbn.
  destruct (nodecovered u); [|done]. apply IH.
Qed.
Ltac solve_counts := try done; unfold add, zero; repeat case_decide; subst; try congruence; lia.
Ltac solve_adj := apply adj_ext; intros ?; unfold add, zero; repeat case_decide; subst; try congruence; lia.

Abbreviation deref_t := (nat -> name_t -> Z -> world F -> option (Z * option nat * world F)).

(** Going up from a node: the walk arrives in the directory of [up]. *)
Lemma go_up_at w cur component dir r m :
  calm w -> (forall x, 0 <= r x) -> is_Some (vnodes w !! cur) -> is_Some (vnodes w !! dir) -> up w cur component = Some dir ->
  go_up vfsroot component cur (at_node cur r m w) = Some (false, dir, at_node dir r m w).
Proof.
  intros Hcalm Hr [c Hc] [d Hd] Hup. unfold go_up, up in *. unfold at_node in *.
  destruct (bool_decide (component = dotdot)); [|by simplify_eq]. cbn [negb].
  destruct (top w vfsroot) as [t|] eqn:Et; [|done]. rewrite (highest_adj _ _ _ _ _ _ Et). cbn in Hup |- *.
  destruct (bool_decide (t = cur)); [done|]. rewrite adj_vnode, Hc. rewrite Hc in Hup. cbn in Hup |- *.
  destruct (has (flags c) V_FLAGS_ROOT); [|by simplify_eq]. rewrite lowest_adj, Hup. cbn.
  case_bool_decide; [by subst|].
  rewrite hold_adj by done. cbn [mbind option_bind]. rewrite unlock_adj by done. cbn [mbind option_bind].
  destruct (Hcalm _ _ Hc), (Hcalm _ _ Hd). pose proof (Hr cur).
  erewrite release_adj by solve_counts. cbn [mbind option_bind].
  erewrite lock_adj by solve_counts. cbn [mbind option_bind].
  do 2 f_equal. solve_adj.
Qed.

(** Crossing the mounts on a node that is held and locked. *)
Lemma cross_mount w x n r r' l m :
  calm w -> top w x = Some n -> (forall y, 0 <= r y) -> (forall y, r' y = add x 1 r y) -> (forall y, l y = add x (-1) zero y) ->
  (if bool_decide (n = x) then Some (adj r' l m w)
   else w ← VOP_HOLD n (adj r' l m w); w ← VOP_UNLOCK x w; w ← VOP_RELEASE x w; VOP_LOCK n w) = Some (at_node n r m w).
Proof.
  intros Hcalm Ht Hr Hr' Hl. rewrite (adj_ext r' l _ _ m w Hr' Hl). destruct (top_live _ _ _ Ht) as [[xn Hx] [yn Hy]].
  destruct (Hcalm _ _ Hx), (Hcalm _ _ Hy). pose proof (Hr x). case_bool_decide as Hnx; [by subst|].
  rewrite hold_adj by done. cbn [mbind option_bind]. rewrite unlock_adj by done. cbn [mbind option_bind].
  erewrite release_adj by solve_counts. cbn [mbind option_bind]. erewrite lock_adj by solve_counts.
  f_equal. unfold at_node. solve_adj.
Qed.

(** A component found: the step goes on with its node held and locked and the
    directory held. *)
Lemma comp_step_found (deref : deref_t) lf islast w cur component dir n r m :
  calm w -> (forall x, 0 <= r x) -> finds w cur component dir n ->
  comp_step cred proc_root vfsroot deref lf islast component dir (at_node dir r m w) =
    (rn ← vnodes w !! n;
     '(e, y, w') ← (if (type rn =? V_TYPE_LINK) && (negb islast || negb (has lf VFS_LOOKUP_NOLINK))
                    then follow_link proc_root vfsroot deref lf dir n (at_node n (add dir 1 r) m w)
                    else Some (0, n, at_node n (add dir 1 r) m w));
     if negb (e =? 0) then Some (e, dir, w') else w' ← VOP_RELEASE dir w'; Some (0, y, w')).
Proof.
  intros Hcalm Hr (x & c & d & Hc & Hct & Hup & Hd & Hdt & Hg & He & Hne & Ht). unfold comp_step, at_node.
  assert (Hdv : vnodes (adj (add dir 1 r) (add dir (-1) zero) m w) !! dir = Some (bump (r dir + 1) (-1) d)).
  { rewrite adj_vnode, Hd, !add_eq. done. }
  rewrite (access_local _ _ _ _ _ Hdv). change (fs (adj (add dir 1 r) (add dir (-1) zero) m w)) with (fs w). cbn [bump type]. rewrite Hdt, Hg. cbn [mbind option_bind Z.eqb negb].
  rewrite (lookup_found _ _ _ _ _ Hdv Hdt He). destruct (top_live _ _ _ Ht) as [[xn Hx] [yn Hy]].
  destruct (Hcalm _ _ Hx), (Hcalm _ _ Hd), (Hcalm _ _ Hy). pose proof (Hr x). pose proof (Hr dir).
  rewrite hold_adj by done. cbn [mbind option_bind].
  destruct (decide (component = dotdot)) as [Hb|Hb]; [pose proof (Hne Hb)|]; destruct (decide (x = dir)) as [Hxd|Hxd]; try done.
  1: rewrite (bool_decide_true (component = dotdot)), (bool_decide_false (x = dir)) by auto.
  2: rewrite (bool_decide_false (component = dotdot)), (bool_decide_true (x = dir)) by auto.
  3: rewrite (bool_decide_false (component = dotdot)), (bool_decide_false (x = dir)) by auto.
  all: cbn [mbind option_bind]; rewrite ?unlock_adj by done; cbn [mbind option_bind].
  all: try (erewrite lock_adj by solve_counts).
  all: cbn [mbind option_bind Z.eqb negb]; first [rewrite (bool_decide_false (dir = x)) by auto|rewrite (bool_decide_true (dir = x)) by auto].
  all: cbn [mbind option_bind negb andb]; rewrite ?unlock_adj by done; cbn [mbind option_bind].
  all: rewrite (highest_adj _ _ _ _ _ _ Ht); cbn [mbind option_bind Z.eqb negb].
  all: rewrite (cross_mount w x n (add dir 1 r)) by (try done; intros y; try pose proof (Hr y); unfold add, zero; repeat case_decide; subst; try congruence; lia).
  all: cbn [mbind option_bind]; unfold at_node; rewrite adj_vnode, Hy; done.
Qed.
(** Following a link whose path resolves. *)
Lemma follow_link_at (deref : deref_t) lf w dir n a p x r m mm :
  calm w -> (forall y, 0 <= r y) -> is_Some (vnodes w !! dir) -> is_link w n -> target (fs w) n = Some p ->
  let start := if bool_decide (head p = Some slash) then default vfsroot proc_root else dir in
  is_Some (vnodes w !! start) ->
  (forall r', (forall y, 0 <= r' y) ->
     deref start p (if has lf VFS_LOOKUP_INTERNAL then lf + 1 else VFS_LOOKUP_INTERNAL) (adj r' zero m w)
     = Some (0, Some x, at_node x r' mm w)) ->
  follow_link proc_root vfsroot deref lf dir n (at_node n (add dir 1 r) (Some a :: m) w) = Some (0, x, at_node x (add dir 1 r) mm w).
Proof.
  intros Hcalm Hr [d Hd] (l & Hl & Hlt) Hp start [s Hs] Hderef. unfold follow_link, at_node in *.
  destruct (Hcalm _ _ Hl), (Hcalm _ _ Hd), (Hcalm _ _ Hs). pose proof (Hr n). pose proof (Hr dir). pose proof (Hr start).
  erewrite (readlink_found _ n) by (first [rewrite adj_vnode, Hl; done|exact Hlt|exact Hp|done]).
  cbn [mbind option_bind]. rewrite set_memory_adj, unlock_adj by done. cbn [mbind option_bind Z.eqb negb].
  fold start. set (r2 := add n 1 (add dir 1 r)).
  set (r3 := if bool_decide (head p = Some slash) then add start 1 r2 else r2).
  assert (Hr3 : forall y, 0 <= r3 y).
  { intros y. pose proof (Hr y). unfold r3, r2, add. destruct (bool_decide _); repeat case_decide; lia. }
  assert (Hheld : (if bool_decide (head p = Some slash) then VOP_HOLD start (adj r2 (add n 1 (add n (-1) zero)) m w)
                   else Some (adj r2 (add n 1 (add n (-1) zero)) m w)) = Some (adj r3 zero m w)).
  { unfold r3. destruct (bool_decide _); rewrite ?hold_adj by done; f_equal; solve_adj. }
  rewrite Hheld. cbn [mbind option_bind]. rewrite (Hderef r3 Hr3). cbn [mbind option_bind]. unfold at_node.
  assert (Hrel : (if bool_decide (head p = Some slash) then VOP_RELEASE start (adj (add x 1 r3) (add x (-1) zero) mm w)
                   else Some (adj (add x 1 r3) (add x (-1) zero) mm w)) = Some (adj (add x 1 r2) (add x (-1) zero) mm w)).
  { unfold r3. destruct (bool_decide _); [|done]. erewrite release_adj by (unfold r2; solve_counts). f_equal. solve_adj. }
  rewrite Hrel. cbn [mbind option_bind]. erewrite release_adj by (unfold r2; solve_counts). cbn [mbind option_bind].
  do 2 f_equal. unfold r2. solve_adj.
Qed.

(** The flags of a nested lookup. *)
Lemma nested_flags n :
  (n <= 65)%nat ->
  let lf := VFS_LOOKUP_INTERNAL + Z.of_nat n in
  has lf VFS_LOOKUP_INTERNAL = true /\ has lf VFS_LOOKUP_PARENT = false /\ has lf VFS_LOOKUP_NOLINK = false /\ Z.land lf 0xff = Z.of_nat n.
Proof.
  intros Hn. set (ok := fun n : nat => let lf := VFS_LOOKUP_INTERNAL + Z.of_nat n in
    has lf VFS_LOOKUP_INTERNAL && negb (has lf VFS_LOOKUP_PARENT) && negb (has lf VFS_LOOKUP_NOLINK) && (Z.land lf 0xff =? Z.of_nat n)).
  assert (H : forallb ok (seq 0 66) = true) by (vm_compute; reflexivity).
  rewrite forallb_forall in H. specialize (H n ltac:(apply in_seq; lia)). unfold ok in H.
  cbv zeta in *. rewrite !andb_true_iff, !negb_true_iff, Z.eqb_eq in H. by destruct H as [[[? ?] ?] ?].
Qed.

Definition level_flags (level : nat) (lf : Z) : Prop :=
  match level with
  | O => has lf VFS_LOOKUP_INTERNAL = false
  | S n => lf = VFS_LOOKUP_INTERNAL + Z.of_nat n
  end.

Lemma level_flags_pass level lf :
  (level <= 65)%nat -> level_flags level lf ->
  level_flags (S level) (if has lf VFS_LOOKUP_INTERNAL then lf + 1 else VFS_LOOKUP_INTERNAL).
Proof.
  intros Hl H. destruct level as [|n]; simpl in *; [by rewrite H|]. subst.
  destruct (nested_flags n) as [-> _]; lia.
Qed.

Lemma level_flags_go level lf :
  (level <= 65)%nat -> level_flags level lf -> has lf VFS_LOOKUP_INTERNAL && (Z.land lf 0xff >? MAXLINKDEPTH) = false.
Proof.
  intros Hl H. destruct level as [|n]; simpl in H; [by rewrite H|]. subst.
  destruct (nested_flags n) as (-> & _ & _ & ->); [lia|]. unfold MAXLINKDEPTH. simpl. cases_bool; lia.
Qed.

(** The walk over a buffer that starts with a component. *)
Lemma comp_loop_skip (deref : deref_t) lf want buf k cur w :
  comp_loop cred proc_root vfsroot deref lf want buf k cur w = comp_loop cred proc_root vfsroot deref lf want (drop k buf) 0 cur w.
Proof.
  revert k. induction buf as [|c buf IH]; intros k; destruct k; try done. cbn [comp_loop drop]. apply IH.
Qed.

Lemma comp_loop_first (deref : deref_t) lf want buf component rest :
  comps buf = component :: rest ->
  exists buf', comps buf' = rest /\ forall cur w,
    comp_loop cred proc_root vfsroot deref lf want buf 0 cur w =
      (cn ← vnodes w !! cur;
       if negb (type cn =? V_TYPE_DIR) then Some (ENOTDIR, cur, None, w)
       else if bool_decide (rest = []) && has lf VFS_LOOKUP_PARENT then passert want;; Some (0, cur, Some component, w)
       else
         '(skipped, cur, w) ← go_up vfsroot component cur w;
         if skipped : bool then comp_loop cred proc_root vfsroot deref lf want buf' 0 cur w
         else
           '(e, next, w) ← comp_step cred proc_root vfsroot deref lf (bool_decide (rest = [])) component cur w;
           if negb (e =? 0) then Some (e, cur, None, w)
           else comp_loop cred proc_root vfsroot deref lf want buf' 0 next w).
Proof.
  induction buf as [|c buf IH]; intros H; [done|]. destruct (decide (c = 0)) as [->|Hc].
  - rewrite comps_zero in H. destruct (IH H) as (buf' & ? & Hrun). exists buf'. split; [done|]. intros. apply Hrun.
  - rewrite comps_first in H by done. remember (strlen_at (c :: buf)) as n eqn:En. injection H as Hcomp Hrest. exists (drop n buf).
    split; [done|]. intros cur w. cbn [comp_loop]. rewrite <- En. rewrite (proj2 (Z.eqb_neq c 0)) by done.
    pose proof (comps_drop_strlen (c :: buf)) as Hdrop. rewrite <- En in Hdrop. rewrite only_slashes_comps, Hdrop. cbn [drop].
    rewrite Hrest, Hcomp. destruct (vnodes w !! cur) as [cn|]; [|done]. cbn [mbind option_bind].
    destruct (negb _); [done|]. destruct (_ && _); [done|]. destruct (go_up _ _ _ _) as [[[[] ?] ?]|]; cbn [mbind option_bind]; try done.
    + apply comp_loop_skip.
    + destruct (comp_step _ _ _ _ _ _ _ _ _) as [[[e ?] ?]|]; cbn [mbind option_bind]; [|done].
      destruct (negb (e =? 0)); [done|]. apply comp_loop_skip.
Qed.
(** The lookups of links nested in a walk. *)
Definition deref_of (fuel : nat) : deref_t :=
  fun s p f w => '(e, r, _, w) ← lookup_fuel cred proc_root vfsroot fuel s p false f w; Some (e, r, w).

Definition has_memory (k : nat) (m : list (option nat)) : Prop := Forall is_Some (take k m) /\ (k <= length m)%nat.

(** Which flags of the lookup fit a walk that leaves the components [tail]. *)
Definition tail_flags (nolink : bool) (tail : list name_t) (lf : Z) : Prop :=
  (tail = [] -> has lf VFS_LOOKUP_NOLINK = nolink /\ has lf VFS_LOOKUP_PARENT = false) /\ (tail <> [] -> nolink = false).

Lemma not_parent nolink rest tail lf : tail_flags nolink tail lf -> bool_decide (rest ++ tail = []) && has lf VFS_LOOKUP_PARENT = false.
Proof.
  intros [H _]. case_bool_decide as E; [|done]. apply app_nil in E as [_ ->]. by destruct (H eq_refl) as [_ ->].
Qed.

(** Whether a link is followed at a component. *)
Lemma follows nolink rest tail lf :
  tail_flags nolink tail lf ->
  negb (bool_decide (rest ++ tail = [])) || negb (has lf VFS_LOOKUP_NOLINK) = negb (nolink && bool_decide (rest = [])).
Proof.
  intros [H1 H2]. destruct tail as [|t tail].
  - destruct (H1 eq_refl) as [-> _]. rewrite app_nil_r. by destruct nolink, (bool_decide (rest = [])).
  - rewrite H2 by done. rewrite bool_decide_false by (by destruct rest). done.
Qed.

Lemma comp_loop_end (deref : deref_t) lf want buf cur w :
  comps buf = [] -> comp_loop cred proc_root vfsroot deref lf want buf 0 cur w = Some (0, cur, None, w).
Proof.
  intros H. induction buf as [|c buf IH]; [done|]. destruct (decide (c = 0)) as [->|Hc]; [by apply IH|].
  by rewrite comps_first in H.
Qed.

Lemma has_memory_S k m : has_memory (S k) m -> exists a m', m = Some a :: m' /\ has_memory k m'.
Proof.
  intros [H Hl]. destruct m as [|a m]; [simpl in Hl; lia|]. simpl in *. apply Forall_cons in H as [[b ->] H].
  exists b, m. split; [done|]. split; [done|lia].
Qed.

Lemma has_memory_le k k' m : (k <= k')%nat -> has_memory k' m -> has_memory k m.
Proof.
  intros Hk [H Hl]. split; [|lia]. replace (take k m) with (take k (take k' m)) by (rewrite take_take; f_equal; lia).
  by apply Forall_take.
Qed.

Lemma has_memory_add k1 k2 m : has_memory (k1 + k2) m -> has_memory k2 (drop k1 m).
Proof.
  intros [H Hl]. split; [|rewrite length_drop; lia]. rewrite take_drop_commute. by apply Forall_drop.
Qed.

(** Starting a lookup. *)
Lemma lookup_enter fuel level lf start s p want r a m w :
  (level <= 65)%nat -> level_flags level lf -> calm w -> p <> [] -> (length p <= 512)%nat -> top w start = Some s ->
  lookup_fuel cred proc_root vfsroot (S fuel) start p want lf (adj r zero (Some a :: m) w) =
    ('(e, cur, lastcomp, w) ← comp_loop cred proc_root vfsroot (deref_of fuel) lf want (split_slashes p) 0 s (at_node s r m w);
     if negb (e =? 0) then w ← VOP_UNLOCK cur w; w ← VOP_RELEASE cur w; Some (e, None, lastcomp, w)
     else Some (0, Some cur, lastcomp, w)).
Proof.
  intros Hlev Hlf Hcalm Hp Hlen Hs. cbn [lookup_fuel]. rewrite (level_flags_go level) by done. rewrite bool_decide_false by done.
  destruct (Z.gtb_spec (Z.of_nat (length p)) PATHNAME_MAX); [unfold PATHNAME_MAX in *; lia|].
  rewrite (highest_adj _ _ _ _ _ _ Hs). cbn [mbind option_bind Z.eqb negb].
  change (take_memory (adj r zero (Some a :: m) w)) with (Some a, adj r zero m w). cbv beta iota.
  rewrite bool_decide_false by done. destruct (top_live _ _ _ Hs) as [_ [n Hn]]. destruct (Hcalm _ _ Hn).
  rewrite hold_adj by done. cbn [mbind option_bind]. erewrite lock_adj by solve_counts. done.
Qed.

Lemma at_node_vnode cur r m w x :
  vnodes (at_node cur r m w) !! x = bump (add cur 1 r x) (add cur (-1) zero x) <$> vnodes w !! x.
Proof. apply adj_vnode. Qed.

(** The loop at a component that is found. *)
Lemma found_step (deref : deref_t) nolink lf want w cur component dir n rest tail buf rr m nn :
  calm w -> (forall x, 0 <= rr x) -> finds w cur component dir n -> vnodes w !! n = Some nn ->
  tail_flags nolink tail lf -> comps buf = (component :: rest) ++ tail ->
  exists buf', comps buf' = rest ++ tail /\
    comp_loop cred proc_root vfsroot deref lf want buf 0 cur (at_node cur rr m w) =
      ('(e, y, w') ←
         (if (type nn =? V_TYPE_LINK) && negb (nolink && bool_decide (rest = []))
          then follow_link proc_root vfsroot deref lf dir n (at_node n (add dir 1 rr) m w)
          else Some (0, n, at_node n (add dir 1 rr) m w));
       '(e, y, w') ← (if negb (e =? 0) then Some (e, dir, w') else w' ← VOP_RELEASE dir w'; Some (0, y, w'));
       if negb (e =? 0) then Some (e, dir, None, w') else comp_loop cred proc_root vfsroot deref lf want buf' 0 y w').
Proof.
  intros Hcalm Hrr Hf Hn Htail Hbuf. pose proof Hf as (x & c & d & Hc & Hct & Hup & Hd & _).
  destruct (comp_loop_first deref lf want buf component (rest ++ tail) Hbuf) as (buf1 & Hbuf1 & Hrun). exists buf1. split; [done|].
  rewrite Hrun, at_node_vnode, Hc. cbn [fmap option_fmap option_map mbind option_bind bump type].
  rewrite Hct, (not_parent _ _ _ _ Htail). cbn [Z.eqb negb V_TYPE_DIR Pos.eqb].
  rewrite (go_up_at w cur component dir) by done. cbn [mbind option_bind].
  rewrite (comp_step_found _ _ _ w cur component dir n) by done. rewrite Hn, (follows _ _ _ _ Htail). cbn [mbind option_bind].
  destruct (if _ : bool then _ else _) as [[[e y] w']|]; done.
Qed.

(** Leaving a directory whose entry was followed. *)
Lemma leave_dir w dir d n r m :
  calm w -> (forall x, 0 <= r x) -> vnodes w !! dir = Some d -> VOP_RELEASE dir (at_node n (add dir 1 r) m w) = Some (at_node n r m w).
Proof.
  intros Hcalm Hr Hd. destruct (Hcalm _ _ Hd). pose proof (Hr dir). unfold at_node.
  erewrite release_adj by solve_counts. f_equal. solve_adj.
Qed.

(** The walk carries over to the loop: it gets to the same node with only that
    node held and locked. *)
Lemma walk_loop w nolink level cur cs r k :
  calm w -> walk w nolink level cur cs r k ->
  forall fuel lf want buf tail rr m,
    (66 <= fuel + level)%nat -> (level <= 65)%nat -> level_flags level lf -> tail_flags nolink tail lf -> comps buf = cs ++ tail ->
    has_memory k m -> (forall x, 0 <= rr x) ->
    exists buf', comps buf' = tail /\
      comp_loop cred proc_root vfsroot (deref_of fuel) lf want buf 0 cur (at_node cur rr m w) =
      comp_loop cred proc_root vfsroot (deref_of fuel) lf want buf' 0 r (at_node r rr (drop k m) w).
Proof.
  intros Hcalm Hw. induction Hw as [nolink level cur|nolink level cur rest r k c Htop Hc Hct _ IH
    |nolink level cur component rest dir n r k Hf Hnl _ IH
    |nolink level cur component rest dir n p s x r k1 k2 Hf Hl Hnl Hp Hp0 Hlen Hlev Hs _ IH1 _ IH2];
    intros fuel lf want buf tail rr m Hfuel Hlevel Hlf Htail Hbuf Hm Hrr.
  - exists buf. done.
  - destruct (comp_loop_first (deref_of fuel) lf want buf dotdot (rest ++ tail) Hbuf) as (buf1 & Hbuf1 & Hrun).
    destruct (IH fuel lf want buf1 tail rr m) as (buf' & ? & Hrest); try done. exists buf'. split; [done|]. rewrite <- Hrest, Hrun.
    unfold at_node. rewrite adj_vnode, Hc. cbn [fmap option_fmap option_map mbind option_bind bump type].
    rewrite Hct, (not_parent _ _ _ _ Htail). cbn [Z.eqb negb V_TYPE_DIR Pos.eqb].
    unfold go_up. rewrite (bool_decide_true (dotdot = dotdot)) by reflexivity. cbn [negb]. rewrite (highest_adj _ _ _ _ _ _ Htop).
    cbn [mbind option_bind Z.eqb passert]. by rewrite (bool_decide_true (cur = cur)) by reflexivity.
  - pose proof Hf as (? & ? & d & _ & _ & _ & Hd & _ & _ & _ & _ & Ht). destruct (top_live _ _ _ Ht) as [_ [nn Hn]].
    destruct (found_step (deref_of fuel) nolink lf want w cur component dir n rest tail buf rr m nn) as (buf1 & Hbuf1 & Hrun); try done.
    destruct (IH fuel lf want buf1 tail rr m) as (buf' & ? & Hrest); try done. exists buf'. split; [done|]. rewrite <- Hrest, Hrun.
    destruct Hnl as [Hnl|[-> ->]].
    + destruct (Z.eqb_spec (type nn) V_TYPE_LINK); [by destruct Hnl; exists nn|]. cbn [andb mbind option_bind Z.eqb negb].
      rewrite (leave_dir w dir d n) by done. done.
    + rewrite bool_decide_true, andb_false_r by done. cbn [mbind option_bind Z.eqb negb]. rewrite (leave_dir w dir d n) by done. done.
  - pose proof Hf as (? & ? & d & _ & _ & _ & Hd & _ & _ & _ & _ & Ht). destruct Hl as (nn & Hn & Hnt).
    destruct (found_step (deref_of fuel) nolink lf want w cur component dir n rest tail buf rr m nn) as (buf1 & Hbuf1 & Hrun); try done.
    destruct (has_memory_S _ _ Hm) as (a & m1 & -> & Hm1). destruct (has_memory_S _ _ Hm1) as (b & m2 & -> & Hm2).
    destruct (IH2 fuel lf want buf1 tail rr (drop k1 m2)) as (buf' & ? & Hrest); try done; [by apply has_memory_add|].
    exists buf'. split; [done|]. cbn [drop]. rewrite <- drop_drop, <- Hrest, Hrun.
    rewrite Hnt. replace (nolink && bool_decide (rest = [])) with false by (destruct Hnl as [->|]; [done|by rewrite bool_decide_false, andb_false_r]).
    cbn [Z.eqb negb andb V_TYPE_LINK Pos.eqb].
    rewrite (follow_link_at _ _ w dir n a p x rr _ (drop k1 m2)); try done; [|by eexists|by apply top_live in Hs as [? _]|].
    + cbn [mbind option_bind Z.eqb negb]. rewrite (leave_dir w dir d x) by done. done.
    + intros r' Hr'. destruct fuel as [|fuel]; [lia|]. unfold deref_of at 1.
      rewrite (lookup_enter fuel (S level) _ _ s); try done; [|lia|by apply level_flags_pass; [lia|]].
      destruct (IH1 fuel (if has lf VFS_LOOKUP_INTERNAL then lf + 1 else VFS_LOOKUP_INTERNAL) false (split_slashes p) [] r' m2)
        as (b' & Hb' & Hrun'); try done; [lia|lia|by apply level_flags_pass; [lia|]| |by rewrite app_nil_r|by eapply has_memory_le; [|done]; lia|].
      { pose proof (level_flags_pass level lf ltac:(lia) Hlf) as Hpass. cbn in Hpass. rewrite Hpass.
        destruct (nested_flags level) as (_ & ? & ? & _); [lia|]. done. }
      rewrite Hrun', (comp_loop_end _ _ _ _ _ _ Hb'). done.
Qed.
(** [w] with [x] held once more and locked by the caller. *)
Definition held_locked (x : nat) (m : list (option nat)) (w : world F) (w' : world F) : Prop :=
  exists n, vnodes w !! x = Some n /\
    w' = set_vnode x (mk_vnode 0 (refcount n + 1) (flags n) (type n) (vfs n) (vfsmounted n)) (set_memory m w).

Lemma at_node_held_locked w x m : calm w -> is_Some (vnodes w !! x) -> held_locked x m w (at_node x zero m w).
Proof.
  intros Hcalm [n Hn]. exists n. split; [done|]. destruct (Hcalm _ _ Hn). unfold at_node.
  rewrite <- (adj_zero (set_memory m w)). cbn [memory set_memory].
  change (adj (fun _ => 0) (fun _ => 0) m (set_memory m w)) with (adj zero zero m w).
  rewrite <- (adj_set zero zero (add x 1 zero) (add x (-1) zero) m w x n Hn) by (intros; by apply add_ne).
  f_equal. rewrite !add_eq. unfold bump, zero. f_equal; lia.
Qed.

Lemma walk_live w nolink level cur cs r k :
  walk w nolink level cur cs r k -> is_Some (vnodes w !! cur) -> is_Some (vnodes w !! r).
Proof.
  intros H. induction H as [|nolink level cur rest r k c _ _ _ _ IH|nolink level cur component rest dir n r k Hf _ _ IH
    |nolink level cur component rest dir n p s x r k1 k2 _ _ _ _ _ _ _ Hs _ IH1 _ IH2]; intros Hc; try done; auto.
  - apply IH. by destruct Hf as (? & ? & ? & _ & _ & _ & _ & _ & _ & _ & _ & ?%top_live); destruct_and!.
  - apply top_live in Hs as [_ Hs]. auto.
Qed.

(** A lookup from a calm world arrives where the walk of its first components
    does, with the remaining ones to go. *)
Lemma vfs_lookup_walk w m start s path nolink lf want cs tail r k :
  calm w -> path <> [] -> (length path <= 512)%nat -> top w start = Some s -> has lf VFS_LOOKUP_INTERNAL = false ->
  components path = cs ++ tail -> tail_flags nolink tail lf -> walk w nolink 0 s cs r k -> has_memory (S k) m ->
  exists buf, comps buf = tail /\
    vfs_lookup cred proc_root vfsroot start path want lf (set_memory m w) =
      ('(e, cur, lastcomp, w) ← comp_loop cred proc_root vfsroot (deref_of 66) lf want buf 0 r (at_node r zero (drop (S k) m) w);
       if negb (e =? 0) then w ← VOP_UNLOCK cur w; w ← VOP_RELEASE cur w; Some (e, None, lastcomp, w)
       else Some (0, Some cur, lastcomp, w)).
Proof.
  intros Hcalm Hp Hlen Hs Hlf Hcs Htail Hw Hm. destruct (has_memory_S _ _ Hm) as (a & m' & -> & Hm1).
  destruct (walk_loop w nolink 0 s cs r k Hcalm Hw 66 lf want (split_slashes path) tail zero m') as (buf & Hbuf & Hrun); try done; [lia..|].
  exists buf. split; [done|]. unfold vfs_lookup. rewrite <- (adj_zero (set_memory (Some a :: m') w)) at 1.
  change (adj (fun _ => 0) (fun _ => 0) (memory (set_memory (Some a :: m') w)) (set_memory (Some a :: m') w)) with (adj zero zero (Some a :: m') w).
  rewrite (lookup_enter 66 0 _ _ s) by (try done; lia). rewrite Hrun. done.
Qed.

Lemma set_memory_id (w : world F) : set_memory (memory w) w = w.
Proof. by destruct w. Qed.

(** C36. Looking up a path that resolves, through mounts, [..], and up to 65
    nested links, returns the node it resolves to, held once more and locked,
    and leaves the references and locks of every other node as they were. *)
Theorem vfs_lookup_resolves w start s path nolink r k :
  calm w -> path <> [] -> (length path <= 512)%nat -> top w start = Some s ->
  walk w nolink 0 s (components path) r k -> has_memory (S k) (memory w) ->
  exists w', vfs_lookup cred proc_root vfsroot start path false (if nolink then VFS_LOOKUP_NOLINK else 0) w = Some (0, Some r, None, w') /\
    held_locked r (drop (S k) (memory w)) w w'.
Proof.
  intros Hcalm Hp Hlen Hs Hw Hm. exists (at_node r zero (drop (S k) (memory w)) w). split.
  - rewrite <- (set_memory_id w) at 1.
    destruct (vfs_lookup_walk w (memory w) start s path nolink (if nolink then VFS_LOOKUP_NOLINK else 0) false (components path) [] r k)
      as (buf & Hbuf & ->); try done; [by destruct nolink|by rewrite app_nil_r|split; by destruct nolink|].
    rewrite (comp_loop_end _ _ _ _ _ _ Hbuf). done.
  - apply at_node_held_locked; [done|]. apply (walk_live _ _ _ _ _ _ _ Hw). by apply top_live in Hs as [_ ?].
Qed.

(** Looking up the parent of a path returns the directory that its components
    but the last resolve to, held and locked, and that component. *)
Lemma vfs_lookup_parent w m start s path lf cs last r rn k :
  calm w -> path <> [] -> (length path <= 512)%nat -> top w start = Some s ->
  lf = VFS_LOOKUP_PARENT \/ lf = Z.lor VFS_LOOKUP_NOLINK VFS_LOOKUP_PARENT ->
  components path = cs ++ [last] -> walk w false 0 s cs r k -> vnodes w !! r = Some rn -> type rn = V_TYPE_DIR ->
  has_memory (S k) m ->
  vfs_lookup cred proc_root vfsroot start path true lf (set_memory m w) = Some (0, Some r, Some last, at_node r zero (drop (S k) m) w).
Proof.
  intros Hcalm Hp Hlen Hs Hlf Hcs Hw Hr Ht Hm.
  destruct (vfs_lookup_walk w m start s path false lf true cs [last] r k) as (buf & Hbuf & ->); try done; [by destruct Hlf as [->| ->]|].
  destruct (comp_loop_first (deref_of 66) lf true buf last [] Hbuf) as (buf' & _ & ->).
  rewrite at_node_vnode, Hr. cbn [fmap option_fmap option_map mbind option_bind bump type]. rewrite Ht.
  rewrite bool_decide_true by done. by destruct Hlf as [->| ->].
Qed.

(** When the last component of a path is not in its directory, the lookup
    fails with [ENOENT] and leaves every reference and lock as it was. *)
Theorem vfs_lookup_missing w start s path cs last r rn k :
  calm w -> path <> [] -> (length path <= 512)%nat -> top w start = Some s ->
  components path = cs ++ [last] -> last <> dotdot -> walk w false 0 s cs r k ->
  vnodes w !! r = Some rn -> type rn = V_TYPE_DIR -> grants cred (fs w) r V_TYPE_DIR V_ACCESS_SEARCH = Some 0 ->
  entry (fs w) r last = Some None -> has_memory (S k) (memory w) ->
  vfs_lookup cred proc_root vfsroot start path false 0 w = Some (ENOENT, None, None, set_memory (drop (S k) (memory w)) w).
Proof.
  intros Hcalm Hp Hlen Hs Hcs Hdd Hw Hr Ht Hg He Hm.
  rewrite <- (set_memory_id w) at 1. destruct (vfs_lookup_walk w (memory w) start s path false 0 false cs [last] r k) as (buf & Hbuf & ->); try done.
  destruct (comp_loop_first (deref_of 66) 0 false buf last [] Hbuf) as (buf' & _ & ->).
  assert (Hrv := at_node_vnode r zero (drop (S k) (memory w)) w r). rewrite Hr in Hrv.
  rewrite Hrv. cbn [fmap option_fmap option_map mbind option_bind bump type]. rewrite Ht. rewrite andb_false_r.
  cbn [Z.eqb negb V_TYPE_DIR Pos.eqb]. unfold go_up. rewrite (bool_decide_false (last = dotdot)) by done. cbn [negb mbind option_bind].
  unfold comp_step. rewrite (access_local _ _ _ _ _ Hrv). cbn [bump type]. rewrite Ht.
  change (fs (at_node r zero (drop (S k) (memory w)) w)) with (fs w). rewrite Hg. cbn [mbind option_bind Z.eqb negb].
  rewrite (lookup_absent _ _ _ _ Hrv Ht He). cbn [mbind option_bind Z.eqb negb ENOENT]. unfold at_node.
  rewrite unlock_adj by done. cbn [mbind option_bind]. destruct (Hcalm _ _ Hr).
  erewrite release_adj by solve_counts. cbn [mbind option_bind]. do 2 f_equal.
  rewrite <- (adj_zero (set_memory (drop (S k) (memory w)) w)). cbn [memory set_memory].
  transitivity (adj zero zero (drop (S k) (memory w)) w); [solve_adj|done].
Qed.
(** Two runs with the same steps. *)
Ltac same_binds :=
  repeat first
    [ reflexivity
    | apply option_bind_ext; [intros ?|]
    | match goal with |- (if ?b then _ else _) = _ => destruct b eqn:? end
    | match goal with |- (let '_ := ?p in _) = _ => destruct p as [? ?] end ].

Lemma comp_loop_deref (d1 d2 : deref_t) lf want buf :
  (forall s p w, d1 s p (if has lf VFS_LOOKUP_INTERNAL then lf + 1 else VFS_LOOKUP_INTERNAL) w
                 = d2 s p (if has lf VFS_LOOKUP_INTERNAL then lf + 1 else VFS_LOOKUP_INTERNAL) w) ->
  forall k cur w, comp_loop cred proc_root vfsroot d1 lf want buf k cur w = comp_loop cred proc_root vfsroot d2 lf want buf k cur w.
Proof.
  intros Hd. induction buf as [|c buf IH]; intros k cur w; [done|]. destruct k; cbn [comp_loop]; [|apply IH].
  unfold comp_step, follow_link. same_binds; first [apply IH|apply Hd].
Qed.

Lemma lookup_fuel_enough n : forall level f1 f2 start path want lf w,
  (level + n = 66)%nat -> (67 <= f1 + level)%nat -> (67 <= f2 + level)%nat -> level_flags level lf ->
  lookup_fuel cred proc_root vfsroot f1 start path want lf w = lookup_fuel cred proc_root vfsroot f2 start path want lf w.
Proof.
  induction n as [|n IH]; intros level f1 f2 start path want lf w Hl H1 H2 Hlf;
    (destruct f1 as [|f1]; [lia|]); (destruct f2 as [|f2]; [lia|]); cbn [lookup_fuel].
  - replace level with 66%nat in Hlf by lia. cbn in Hlf. subst. done.
  - destruct (_ && _); [done|]. destruct (bool_decide _); [done|]. destruct (_ >? _); [done|].
    destruct (highestnodeinmp start w) as [[[e cur] w1]|]; [|done]. cbn [mbind option_bind]. destruct (negb _); [done|].
    destruct (take_memory w1) as [b w2]. destruct (bool_decide _); [done|].
    destruct (VOP_HOLD cur w2) as [w3|]; [|done]. cbn [mbind option_bind].
    destruct (VOP_LOCK cur w3) as [w4|]; [|done]. cbn [mbind option_bind].
    erewrite comp_loop_deref; [reflexivity|]. intros s p w5. cbv beta.
    rewrite (IH (S level) f1 f2); try lia; [done|]. apply level_flags_pass; [lia|done].
Qed.

(** C37. The recursion of the lookup through links ends: 67 nested calls are
    enough for every path in every world, more make no difference. *)
Theorem vfs_lookup_terminates fuel start path want lf w :
  has lf VFS_LOOKUP_INTERNAL = false ->
  lookup_fuel cred proc_root vfsroot (67 + fuel) start path want lf w = vfs_lookup cred proc_root vfsroot start path want lf w.
Proof. intros H. apply (lookup_fuel_enough 66 0); simpl; try lia. done. Qed.
End resolution.
