(* ===== verification/Tmpfs.v ===== *)
(** * The memory file system ([fs/tmpfs.c], [include/kernel/tmpfs.h])

    The nodes of the mounted memory file systems as an instance of the
    operations [Vfs] works with.  A directory is the map its hash table
    implements; each insertion of a new name takes memory.  The private part of
    a node is kept at the address of its vnode.  Reference counts do not reach
    the bounds of their type. *)

From S2P Require Import Prelude Errno Vnode Auth Vfs.

(** ** Data *)

Definition dot : name_t := [46].

Record tmpfsnode_t := mk_tnode { attr : vattr_t; children : gmap name_t nat; link : name_t }.

Record tmpfs_t := mk_tmpfs { inodenumber : Z; id : Z }.

(** [now] is what [timekeeper_time] returns. *)
Record state := mk_state { tnodes : gmap nat tmpfsnode_t; supers : gmap nat tmpfs_t; currid : Z; now : timespec_t }.

Abbreviation W := (world state).

Definition with_attr (v : vattr_t) (t : tmpfsnode_t) : tmpfsnode_t := mk_tnode v (children t) (link t).
Definition with_children (v : gmap name_t nat) (t : tmpfsnode_t) : tmpfsnode_t := mk_tnode (attr t) v (link t).
Definition with_link (v : name_t) (t : tmpfsnode_t) : tmpfsnode_t := mk_tnode (attr t) (children t) v.

Definition attr_nlinks (v : Z) (a : vattr_t) : vattr_t :=
  mk_vattr (a_type a) (a_mode a) (a_uid a) (a_gid a) (a_fsid a) (a_inode a) v (a_size a) (a_fsblocksize a)
    (a_atime a) (a_mtime a) (a_ctime a) (a_rdevmajor a) (a_rdevminor a) (a_devmajor a) (a_devminor a) (a_blocksused a).
Definition attr_size (v : Z) (a : vattr_t) : vattr_t :=
  mk_vattr (a_type a) (a_mode a) (a_uid a) (a_gid a) (a_fsid a) (a_inode a) (a_nlinks a) v (a_fsblocksize a)
    (a_atime a) (a_mtime a) (a_ctime a) (a_rdevmajor a) (a_rdevminor a) (a_devmajor a) (a_devminor a) (a_blocksused a).
Definition attr_dev (minor blocks : Z) (a : vattr_t) : vattr_t :=
  mk_vattr (a_type a) (a_mode a) (a_uid a) (a_gid a) (a_fsid a) (a_inode a) (a_nlinks a) (a_size a) (a_fsblocksize a)
    (a_atime a) (a_mtime a) (a_ctime a) (a_rdevmajor a) (a_rdevminor a) 0 minor blocks.
Definition attr_inode (v : Z) (a : vattr_t) : vattr_t :=
  mk_vattr (a_type a) (a_mode a) (a_uid a) (a_gid a) (a_fsid a) v (a_nlinks a) (a_size a) (a_fsblocksize a)
    (a_atime a) (a_mtime a) (a_ctime a) (a_rdevmajor a) (a_rdevminor a) (a_devmajor a) (a_devminor a) (a_blocksused a).
Definition attr_times (t : timespec_t) (a : vattr_t) : vattr_t :=
  mk_vattr (a_type a) (a_mode a) (a_uid a) (a_gid a) (a_fsid a) (a_inode a) (a_nlinks a) (a_size a) (a_fsblocksize a)
    t t t (a_rdevmajor a) (a_rdevminor a) (a_devmajor a) (a_devminor a) (a_blocksused a).
Definition attr_mode (v : Z) (a : vattr_t) : vattr_t :=
  mk_vattr (a_type a) v (a_uid a) (a_gid a) (a_fsid a) (a_inode a) (a_nlinks a) (a_size a) (a_fsblocksize a)
    (a_atime a) (a_mtime a) (a_ctime a) (a_rdevmajor a) (a_rdevminor a) (a_devmajor a) (a_devminor a) (a_blocksused a).

Definition V_ATTR_ALL : Z :=
  Z.lor (Z.lor (Z.lor (Z.lor (Z.lor V_ATTR_MODE V_ATTR_UID) V_ATTR_GID) V_ATTR_ATIME) V_ATTR_MTIME) V_ATTR_CTIME.

Definition tnode (x : nat) (w : W) : option tmpfsnode_t := tnodes (fs w) !! x.
Definition set_tnode (x : nat) (t : tmpfsnode_t) (w : W) : W :=
  set_fs (mk_state (<[x := t]> (tnodes (fs w))) (supers (fs w)) (currid (fs w)) (now (fs w))) w.
Definition set_super (v : nat) (u : tmpfs_t) (w : W) : W :=
  set_fs (mk_state (tnodes (fs w)) (<[v := u]> (supers (fs w))) (currid (fs w)) (now (fs w))) w.
Definition set_currid (c : Z) (w : W) : W := set_fs (mk_state (tnodes (fs w)) (supers (fs w)) c (now (fs w))) w.

(** Giving the memory of a node back. *)
Definition drop_node (x : nat) (w : W) : W :=
  mk_world (delete x (vnodes w)) (vfss w) (vfslist w) (memory w)
    (mk_state (delete x (tnodes (fs w))) (supers (fs w)) (currid (fs w)) (now (fs w))).

(** [hashtable_set] on the table of a directory: only a new name needs memory. *)
Definition table_set (d : nat) (x : nat) (name : name_t) (w : W) : option (Z * W) :=
  t ← tnode d w;
  if bool_decide (is_Some (children t !! name)) then Some (0, set_tnode d (with_children (<[name := x]> (children t)) t) w)
  else
    let '(b, w) := take_memory w in
    if bool_decide (b = None) then Some (ENOMEM, w)
    else Some (0, set_tnode d (with_children (<[name := x]> (children t)) t) w).

(** ** Nodes *)

(** The memory of a node, and for a directory that of its table and of its dot
    entry. *)
Definition newnode (v : nat) (t : Z) (w : W) : option (option nat * W) :=
  let '(node, w) := take_memory w in
  match node with
  | None => Some (None, w)
  | Some x =>
      '(kids, w) ←
        (if t =? V_TYPE_DIR then
           let '(table, w) := take_memory w in
           if bool_decide (table = None) then Some (None, w)
           else
             let '(ent, w) := take_memory w in
             if bool_decide (ent = None) then Some (None, w) else Some (Some {[dot := x]}, w)
         else Some (Some ∅, w));
      match kids with
      | None => Some (None, w)
      | Some kids =>
          u ← supers (fs w) !! v;
          let i := u64 (inodenumber u + 1) in
          let w := set_super v (mk_tmpfs i (id u)) w in
          let w := set_tnode x (mk_tnode (attr_inode i (with_type t zero_attr)) kids []) w in
          Some (Some x, VOP_INIT x 0 t v w)
      end
  end.

(** [freenode], which drops the parent of a directory, whose last reference
    that may be; the nodes bound the chain. *)
Fixpoint freenode_fuel (fuel : nat) (x : nat) (w : W) : option W :=
  match fuel with
  | O => None
  | S fuel' =>
      n ← vnodes w !! x;
      passert (refcount n =? 0);;
      w ←
        (if type n =? V_TYPE_DIR then
           t ← tnode x w;
           passert (bool_decide (size (children t) = 2%nat));;
           p ← children t !! dotdot;
           pn ← vnodes w !! p;
           let w := set_vnode p (with_refcount (refcount pn - 1) pn) w in
           if refcount pn - 1 =? 0 then freenode_fuel fuel' p w else Some w
         else Some w);
      Some (drop_node x w)
  end.

(** The pages of a regular file that are given back here are those of the page
    cache. *)
Definition tmpfs_inactive (x : nat) (w : W) : option W := freenode_fuel (S (size (vnodes w))) x w.

Definition tmpfs_getattr (x : nat) (w : W) : option vattr_t :=
  n ← vnodes w !! x;
  t ← tnode x w;
  u ← supers (fs w) !! vfs n;
  Some (attr_dev (id u) (ROUND_UP (a_size (attr t)) PAGE_SIZE / PAGE_SIZE) (attr t)).

Definition tmpfs_setattr (x : nat) (new : vattr_t) (which : Z) (w : W) : option W :=
  t ← tnode x w; Some (set_tnode x (with_attr (assign_attr which new (attr t)) t) w).

Definition tmpfs_access (cred : option cred_t) (x : nat) (mode : Z) (w : W) : option Z :=
  n ← vnodes w !! x;
  t ← tnode x w;
  r ← auth_filesystem_check defaultauth_init cred (auth_filesystem_convertaccess mode) (type n) (attr t) None;
  Some (if r =? 0 then 0 else EACCES).

(** ** File systems *)

Definition tmpfs_mount (w : W) : option (Z * option nat * W) :=
  let '(b, w) := take_memory w in
  match b with
  | None => Some (ENOMEM, None, w)
  | Some v =>
      let c := currid (fs w) in
      let w := set_currid (u64 (c + 1)) w in
      Some (0, Some v, set_vfs v (mk_vfs None None) (set_super v (mk_tmpfs 0 c) w))
  end.

Definition tmpfs_root (v : nat) (w : W) : option (Z * option nat * W) :=
  u ← vfss w !! v;
  match root u with
  | Some r => Some (0, Some r, w)
  | None =>
      '(node, w) ← newnode v V_TYPE_DIR w;
      match node with
      | None => Some (ENOMEM, None, w)
      | Some x =>
          n ← vnodes w !! x;
          t ← tnode x w;
          let w := set_vfs v (mk_vfs (nodecovered u) (Some x)) w in
          let w := set_vnode x (mk_vnode (lock n) (refcount n) (Z.lor (flags n) V_FLAGS_ROOT) (type n) (vfs n) (vfsmounted n)) w in
          let w := set_tnode x (with_attr (attr_mode 0x1ed (attr t)) t) w in
          Some (0, Some x, w)
      end
  end.

(** ** Directories *)

Section operations.

(** [VOP_RELEASE] of a node of this file system. *)
Definition release (x : nat) (w : W) : option W :=
  n ← vnodes w !! x;
  let w := set_vnode x (with_refcount (refcount n - 1) n) w in
  if refcount n - 1 =? 0 then tmpfs_inactive x w else Some w.

Definition tmpfs_lookup (parent : nat) (name : name_t) (w : W) : option (Z * option nat * W) :=
  n ← vnodes w !! parent;
  if negb (type n =? V_TYPE_DIR) then Some (ENOTDIR, None, w)
  else
    t ← tnode parent w;
    match children t !! name with
    | None => Some (ENOENT, None, w)
    | Some child =>
        w ← VOP_HOLD child w;
        w ← (if bool_decide (name = dotdot) then VOP_UNLOCK parent w else Some w);
        w ← (if bool_decide (child = parent) then Some w else VOP_LOCK child w);
        Some (0, Some child, w)
    end.

Definition tmpfs_create (parent : nat) (name : name_t) (a : vattr_t) (ty : Z) (w : W) : option (Z * option nat * W) :=
  n ← vnodes w !! parent;
  if negb (type n =? V_TYPE_DIR) then Some (ENOTDIR, None, w)
  else
    t ← tnode parent w;
    if bool_decide (is_Some (children t !! name)) then Some (EEXIST, None, w)
    else
      '(node, w) ← newnode (vfs n) ty w;
      match node with
      | None => Some (ENOMEM, None, w)
      | Some x =>
          w ← tmpfs_setattr x (with_type ty (attr_size 0 (attr_times (now (fs w)) a))) V_ATTR_ALL w;
          t ← tnode x w;
          let w := set_tnode x (with_attr (attr_nlinks 1 (attr t)) t) w in
          '(e, w) ← (if ty =? V_TYPE_DIR then table_set x parent dotdot w else Some (0, w));
          if negb (e =? 0) then w ← release x w; Some (e, None, w)
          else
            '(e, w) ← table_set parent x name w;
            if negb (e =? 0) then w ← release x w; Some (e, None, w)
            else
              w ← (if ty =? V_TYPE_DIR then VOP_HOLD parent w else Some w);
              w ← VOP_HOLD x w;
              w ← VOP_LOCK x w;
              Some (0, Some x, w)
      end.

(** The test for an empty directory, which every name with a leading dot
    passes. *)
Definition looks_empty (t : tmpfsnode_t) : bool :=
  bool_decide (map_Forall (fun (k : name_t) (_ : nat) => take 1 k = dot) (children t)).

Definition tmpfs_unlink (d child : nat) (name : name_t) (w : W) : option (Z * W) :=
  n ← vnodes w !! d;
  if negb (type n =? V_TYPE_DIR) then Some (ENOTDIR, w)
  else if bool_decide (is_Some (vfsmounted n)) then Some (EBUSY, w)
  else
    t ← tnode d w;
    match children t !! name with
    | None => Some (ENOENT, w)
    | Some x =>
        passert (bool_decide (child = x));;
        xn ← vnodes w !! x;
        xt ← tnode x w;
        if (type xn =? V_TYPE_DIR) && negb (looks_empty xt) then Some (ENOTEMPTY, w)
        else
          let w := set_tnode d (with_children (delete name (children t)) t) w in
          xt ← tnode x w;
          let w := set_tnode x (with_attr (attr_nlinks (a_nlinks (attr xt) - 1) (attr xt)) xt) w in
          w ← release x w;
          Some (0, w)
    end.

Definition tmpfs_link (x d : nat) (name : name_t) (w : W) : option (Z * W) :=
  xn ← vnodes w !! x;
  dn ← vnodes w !! d;
  if negb (bool_decide (vfs xn = vfs dn)) then Some (EXDEV, w)
  else if negb (type dn =? V_TYPE_DIR) then Some (ENOTDIR, w)
  else if type xn =? V_TYPE_DIR then Some (EISDIR, w)
  else
    t ← tnode d w;
    if bool_decide (is_Some (children t !! name)) then Some (EEXIST, w)
    else
      '(e, w) ← table_set d x name w;
      if negb (e =? 0) then Some (e, w)
      else
        w ← VOP_HOLD x w;
        xt ← tnode x w;
        Some (0, set_tnode x (with_attr (attr_nlinks (a_nlinks (attr xt) + 1) (attr xt)) xt) w).

Definition tmpfs_rename (source sourcefile : nat) (oldname : name_t) (target : nat) (targetfile : option nat) (newname : name_t) (w : W)
    : option (Z * W) :=
  sn ← vnodes w !! source;
  tn ← vnodes w !! target;
  if negb (bool_decide (vfs sn = vfs tn)) then Some (EXDEV, w)
  else if negb (type sn =? V_TYPE_DIR) || negb (type tn =? V_TYPE_DIR) then Some (ENOTDIR, w)
  else
    st ← tnode source w;
    match children st !! oldname with
    | None => Some (ENOENT, w)
    | Some node =>
        passert (bool_decide (sourcefile = node));;
        tt ← tnode target w;
        let oldnode := children tt !! newname in
        passert (bool_decide (oldnode = targetfile));;
        nn ← vnodes w !! node;
        busy ← (match oldnode with Some o => on ← vnodes w !! o; Some (bool_decide (is_Some (vfsmounted on))) | None => Some false end);
        if bool_decide (is_Some (vfsmounted nn)) || busy then Some (EBUSY, w)
        else if bool_decide (source = target) && bool_decide (oldname = newname) then Some (0, w)
        else
          '(e, w) ← table_set target node newname w;
          if negb (e =? 0) then Some (e, w)
          else
            st ← tnode source w;
            passert (bool_decide (is_Some (children st !! oldname)));;
            let w := set_tnode source (with_children (delete oldname (children st)) st) w in
            w ← (match oldnode with Some o => release o w | None => Some w end);
            Some (0, w)
    end.

Definition tmpfs_symlink (d : nat) (name : name_t) (a : vattr_t) (path : name_t) (w : W) : option (Z * W) :=
  n ← vnodes w !! d;
  if negb (type n =? V_TYPE_DIR) then Some (ENOTDIR, w)
  else
    let '(pathbuf, w) := take_memory w in
    if bool_decide (pathbuf = None) then Some (ENOMEM, w)
    else
      '(e, linknode, w) ← tmpfs_create d name a V_TYPE_LINK w;
      if negb (e =? 0) then Some (e, w)
      else
        x ← linknode;
        t ← tnode x w;
        let w := set_tnode x (with_link path t) w in
        w ← VOP_UNLOCK x w;
        w ← release x w;
        Some (0, w).

Definition tmpfs_readlink (x : nat) (w : W) : option (Z * name_t * W) :=
  n ← vnodes w !! x;
  if negb (type n =? V_TYPE_LINK) then Some (EINVAL, [], w)
  else
    t ← tnode x w;
    let '(ret, w) := take_memory w in
    if bool_decide (ret = None) then Some (ENOMEM, [], w) else Some (0, link t, w).

(** Opening a node that stands for a device or a FIFO goes to another file
    system, which is not described here. *)
Definition tmpfs_open (x : nat) (fflags : Z) (w : W) : option (Z * nat * W) :=
  n ← vnodes w !! x;
  if type n =? V_TYPE_SOCKET then Some (ENXIO, x, w)
  else
    passert (negb ((type n =? V_TYPE_CHDEV) || (type n =? V_TYPE_BLKDEV) || (type n =? V_TYPE_FIFO)));;
    Some (0, x, w).

Definition tmpfs_close (x : nat) (fflags : Z) (w : W) : option (Z * W) := Some (0, w).

(** [sizes] is what the page cache is told to cut the file to. *)
Definition tmpfs_resize (x : nat) (newsize : Z) (w : W) : option (option Z * W) :=
  n ← vnodes w !! x;
  t ← tnode x w;
  if negb (newsize =? a_size (attr t)) && (type n =? V_TYPE_REGULAR)
  then Some (if a_size (attr t) >? newsize then Some newsize else None, set_tnode x (with_attr (attr_size newsize (attr t)) t) w)
  else Some (None, w).

(** ** Reading a directory *)

Record dent_t := mk_dent { d_ino : Z; d_off : Z; d_reclen : Z; d_type : Z; d_name : list Z }.

Definition dent_size : Z := 1048.

Definition vfs_getposixtype (t : Z) : Z :=
  if t =? V_TYPE_REGULAR then 8
  else if t =? V_TYPE_DIR then 4
  else if t =? V_TYPE_CHDEV then 2
  else if t =? V_TYPE_BLKDEV then 6
  else if t =? V_TYPE_FIFO then 1
  else if t =? V_TYPE_LINK then 10
  else if t =? V_TYPE_SOCKET then 12
  else 0.

(** The loop over the entries in the order of the table; the name is copied
    over the one in the buffer without a terminator. *)
Fixpoint getdents_loop (order : list (name_t * nat)) (count offset : nat) (current readcount : nat) (buffer : list dent_t) (w : W)
    : option (nat * list dent_t) :=
  match order with
  | [] => Some (readcount, buffer)
  | (key, value) :: rest =>
      if (current <? offset)%nat then getdents_loop rest count offset (S current) readcount buffer w
      else if (readcount =? count)%nat then Some (readcount, buffer)
      else
        old ← buffer !! readcount;
        n ← vnodes w !! value;
        t ← tnode value w;
        passert (bool_decide (length key <= length (d_name old))%nat);;
        let ent := mk_dent (a_inode (attr t)) (Z.of_nat offset) dent_size (vfs_getposixtype (type n)) (splice (d_name old) 0 key) in
        getdents_loop rest count offset current (S readcount) (<[readcount := ent]> buffer) w
  end.

Definition tmpfs_getdents (x : nat) (order : list (name_t * nat)) (buffer : list dent_t) (count offset : nat) (w : W)
    : option (Z * nat * list dent_t) :=
  n ← vnodes w !! x;
  if negb (type n =? V_TYPE_DIR) then Some (ENOTDIR, 0%nat, buffer)
  else '(c, b) ← getdents_loop order count offset 0 0 buffer w; Some (0, c, b).
End operations.

#[export] Instance tmpfs_vops : Vops state := {
  vop_lookup := tmpfs_lookup;
  vop_create := tmpfs_create;
  vop_open := tmpfs_open;
  vop_close := tmpfs_close;
  vop_access := tmpfs_access;
  vop_getattr := tmpfs_getattr;
  vop_unlink := tmpfs_unlink;
  vop_link := tmpfs_link;
  vop_symlink := tmpfs_symlink;
  vop_readlink := tmpfs_readlink;
  vop_rename := tmpfs_rename;
  vop_inactive := tmpfs_inactive;
  vfs_ops_mount := tmpfs_mount;
  vfs_ops_root := tmpfs_root
}.

(** ** The laws of path lookup *)

Definition tmpfs_grants (cred : option cred_t) (f : state) (x : nat) (ty mode : Z) : option Z :=
  t ← tnodes f !! x;
  r ← auth_filesystem_check defaultauth_init cred (auth_filesystem_convertaccess mode) ty (attr t) None;
  Some (if r =? 0 then 0 else EACCES).

#[export, refine] Instance tmpfs_laws : LookupLaws state := {
  entry f d name := t ← tnodes f !! d; Some (children t !! name);
  target f x := t ← tnodes f !! x; Some (link t);
  grants := tmpfs_grants
}.
Proof.
  - intros w d n name c Hd Ht He. simpl. unfold tmpfs_lookup. rewrite Hd. cbn [mbind option_bind]. rewrite Ht. simpl.
    unfold tnode. destruct (tnodes (fs w) !! d) as [t|]; [|done]. simpl in *. injection He as He. by rewrite He.
  - intros w d n name Hd Ht He. simpl. unfold tmpfs_lookup. rewrite Hd. cbn [mbind option_bind]. rewrite Ht. simpl.
    unfold tnode. destruct (tnodes (fs w) !! d) as [t|]; [|done]. simpl in *. injection He as He. by rewrite He.
  - intros w cred x n mode Hx. simpl. unfold tmpfs_access, tmpfs_grants, tnode. rewrite Hx. done.
  - intros w x n p a m Hx Ht Hp Hm. simpl. unfold tmpfs_readlink, tnode, take_memory. rewrite Hx. cbn [mbind option_bind].
    rewrite Ht. destruct (tnodes (fs w) !! x) as [t|]; [|done]. simpl in *. injection Hp as ->. rewrite Hm. done.
  - intros w v u r Hv Hr. simpl. unfold tmpfs_root. rewrite Hv. cbn [mbind option_bind]. by rewrite Hr.
Defined.

(** ** Directory entries *)

(** All entries of all directories. *)
Definition entries (w : W) : gmap (nat * name_t) nat := map_uncurry (children <$> tnodes (fs w)).

Lemma entries_lookup w d k : entries w !! (d, k) = (t ← tnode d w; children t !! k).
Proof.
  unfold entries, tnode. rewrite lookup_map_uncurry, lookup_fmap. by destruct (tnodes (fs w) !! d).
Qed.

Lemma entries_set d t kids w :
  tnode d w = Some t ->
  forall i j, entries (set_tnode d (with_children kids t) w) !! (i, j) = if decide (i = d) then kids !! j else entries w !! (i, j).
Proof.
  intros Hd i j. rewrite !entries_lookup. unfold tnode, set_tnode. cbn [fs set_fs tnodes]. case_decide as E.
  - subst. by rewrite lookup_insert_eq.
  - by rewrite lookup_insert_ne.
Qed.

Lemma entries_insert d t k x w :
  tnode d w = Some t -> entries (set_tnode d (with_children (<[k := x]> (children t)) t) w) = <[(d, k) := x]> (entries w).
Proof.
  intros Hd. apply map_eq. intros [i j]. rewrite (entries_set _ _ _ _ Hd). case_decide as E.
  - subst. destruct (decide (j = k)) as [->|].
    + by rewrite !lookup_insert_eq.
    + rewrite !lookup_insert_ne by congruence. by rewrite entries_lookup, Hd.
  - by rewrite lookup_insert_ne by congruence.
Qed.

Lemma entries_delete d t k w :
  tnode d w = Some t -> entries (set_tnode d (with_children (delete k (children t)) t) w) = delete (d, k) (entries w).
Proof.
  intros Hd. apply map_eq. intros [i j]. rewrite (entries_set _ _ _ _ Hd). case_decide as E.
  - subst. destruct (decide (j = k)) as [->|].
    + by rewrite !lookup_delete_eq.
    + rewrite !lookup_delete_ne by congruence. by rewrite entries_lookup, Hd.
  - by rewrite lookup_delete_ne by congruence.
Qed.

(** The references that entries hold on [x]: all but the dot entry. *)
Definition counts (x : nat) (e : (nat * name_t) * nat) : Prop := e.2 = x /\ e.1.2 <> dot.

Definition links (x : nat) (es : gmap (nat * name_t) nat) : Z := Z.of_nat (size (filter (counts x) es)).

Lemma links_nonneg x es : 0 <= links x es.
Proof. unfold links. lia. Qed.

Lemma links_insert y d k x es :
  es !! (d, k) = None -> k <> dot -> links y (<[(d, k) := x]> es) = links y es + if decide (y = x) then 1 else 0.
Proof.
  intros Hes Hk. unfold links. case_decide as E.
  - subst. rewrite map_filter_insert_True by done. rewrite map_size_insert_None; [lia|].
    apply map_lookup_filter_None. by left.
  - rewrite map_filter_insert_False by (unfold counts; simpl; intros []; congruence).
    rewrite delete_id by done. lia.
Qed.

Lemma links_insert_dot y d x es : es !! (d, dot) = None -> links y (<[(d, dot) := x]> es) = links y es.
Proof.
  intros Hes. unfold links. rewrite map_filter_insert_False by (by unfold counts; intros []). by rewrite delete_id.
Qed.

Lemma links_delete y d k x es :
  es !! (d, k) = Some x -> k <> dot -> links y (delete (d, k) es) = links y es - if decide (y = x) then 1 else 0.
Proof.
  intros Hes Hk. rewrite <- (insert_delete_id es (d, k) x) at 2 by done.
  rewrite links_insert by (done || apply lookup_delete_eq). lia.
Qed.

Lemma links_delete_dot y d x es : es !! (d, dot) = Some x -> links y (delete (d, dot) es) = links y es.
Proof.
  intros Hes. rewrite <- (insert_delete_id es (d, dot) x) at 2 by done.
  by rewrite links_insert_dot by apply lookup_delete_eq.
Qed.

Lemma links_pos x d k es : es !! (d, k) = Some x -> k <> dot -> 1 <= links x es.
Proof.
  intros Hes Hk. pose proof (links_delete x d k x es Hes Hk) as H. rewrite decide_True in H by done.
  pose proof (links_nonneg x (delete (d, k) es)). lia.
Qed.

(** ** The invariant *)

(** A name a user may give to a file here: one without a leading dot. *)
Definition plain (k : name_t) : Prop := k <> [] /\ head k <> Some 46.

#[global] Instance plain_dec k : Decision (plain k).
Proof. unfold plain. apply _. Defined.

(** The name space: the entries that users made. *)
Definition names (w : W) : gmap (nat * name_t) nat := filter (fun e => plain e.1.2) (entries w).

Definition named (x : nat) (es : gmap (nat * name_t) nat) : Prop := exists d k, es !! (d, k) = Some x /\ plain k.

Definition is_root (n : vnode_t) : bool := has (flags n) V_FLAGS_ROOT.

(** What the types promise: a directory has its dot entries and nothing else
    has entries, and a directory without a name has nothing but the dot
    entries. *)
Definition node_ok (es : gmap (nat * name_t) nat) (x : nat) (n : vnode_t) (t : tmpfsnode_t) : Prop :=
  if type n =? V_TYPE_DIR then
    children t !! dot = Some x /\
    (is_root n = false -> is_Some (children t !! dotdot) /\ (named x es \/ size (children t) = 2%nat))
  else children t = ∅.

(** [ext x] is the number of references to [x] from outside the directories. *)
Record inv (ext : nat -> Z) (w : W) : Prop := mk_inv {
  inv_dom x : is_Some (vnodes w !! x) <-> is_Some (tnode x w);
  inv_count x n : vnodes w !! x = Some n -> refcount n = links x (entries w) + ext x /\ 0 < refcount n;
  inv_dead x : vnodes w !! x = None -> links x (entries w) = 0 /\ ext x = 0;
  inv_ext x : 0 <= ext x;
  inv_node x n t : vnodes w !! x = Some n -> tnode x w = Some t -> node_ok (entries w) x n t;
  inv_keys d k x : entries w !! (d, k) = Some x -> k = dot \/ k = dotdot \/ plain k;
  inv_root x n : vnodes w !! x = Some n -> is_root n = true -> type n = V_TYPE_DIR /\ 1 <= ext x /\ ~ named x (entries w);
  inv_super x n : vnodes w !! x = Some n -> is_Some (supers (fs w) !! vfs n)
}.

Lemma plain_dots k : plain k -> k <> dot /\ k <> dotdot.
Proof. intros [_ H]. by split; intros ->. Qed.

Lemma dots_ne : dot <> dotdot.
Proof. done. Qed.

Lemma two_keys {A} (m : gmap name_t A) a b x y : m !! a = Some x -> m !! b = Some y -> a <> b -> size m = 2%nat -> m = <[a := x]> {[b := y]}.
Proof.
  intros Ha Hb Hab Hs. rewrite <- (insert_delete_id m a x Ha) at 1. f_equal.
  assert (Hb' : delete a m !! b = Some y) by by rewrite lookup_delete_ne.
  rewrite <- (insert_delete_id (delete a m) b y Hb'). rewrite <- insert_empty. f_equal. apply map_size_empty_inv.
  rewrite map_size_delete, Hb', map_size_delete, Ha. lia.
Qed.

Lemma named_insert y d k x es : es !! (d, k) = None -> named y es -> named y (<[(d, k) := x]> es).
Proof.
  intros Hn (d' & k' & He & Hp). exists d', k'. split; [|done]. rewrite lookup_insert_ne; [done|]. intros [= <- <-]. congruence.
Qed.

Lemma named_delete y d k x es : es !! (d, k) = Some x -> y <> x -> named y es -> named y (delete (d, k) es).
Proof.
  intros Hn Hy (d' & k' & He & Hp). exists d', k'. split; [|done]. rewrite lookup_delete_ne; [done|]. intros [= <- <-]. congruence.
Qed.

Lemma named_sub y es es' : es' ⊆ es -> named y es' -> named y es.
Proof. intros Hs (d & k & He & Hp). exists d, k. split; [|done]. by eapply lookup_weaken. Qed.

(** Worlds that differ in locks, attributes and memory only. *)
Definition same_shape (n n' : vnode_t) : Prop := refcount n' = refcount n /\ type n' = type n /\ flags n' = flags n /\ vfs n' = vfs n.

Definition similar (w w' : W) : Prop :=
  (forall x, option_relation same_shape (fun _ => False) (fun _ => False) (vnodes w !! x) (vnodes w' !! x)) /\
  children <$> tnodes (fs w') = children <$> tnodes (fs w) /\
  (forall v, is_Some (supers (fs w) !! v) -> is_Some (supers (fs w') !! v)).

Lemma similar_entries w w' : similar w w' -> entries w' = entries w.
Proof. intros (_ & H & _). unfold entries. by rewrite H. Qed.

Lemma similar_vnode w w' x n' : similar w w' -> vnodes w' !! x = Some n' -> exists n, vnodes w !! x = Some n /\ same_shape n n'.
Proof. intros (H & _). specialize (H x). intros E. rewrite E in H. destruct (vnodes w !! x) as [n|]; [|done]. by exists n. Qed.

Lemma similar_dead w w' x : similar w w' -> vnodes w' !! x = None -> vnodes w !! x = None.
Proof. intros (H & _). specialize (H x). intros E. rewrite E in H. by destruct (vnodes w !! x). Qed.

Lemma similar_tnode w w' x t' : similar w w' -> tnode x w' = Some t' -> exists t, tnode x w = Some t /\ children t' = children t.
Proof.
  intros (_ & H & _) E. unfold tnode in *. apply (f_equal (fun m => m !! x)) in H. rewrite !lookup_fmap, E in H.
  destruct (tnodes (fs w) !! x) as [t|]; simplify_eq/=. by exists t.
Qed.

Lemma similar_sym_vnode w w' x : similar w w' -> is_Some (vnodes w !! x) <-> is_Some (vnodes w' !! x).
Proof. intros (H & _). specialize (H x). destruct (vnodes w !! x), (vnodes w' !! x); try done. Qed.

Lemma similar_sym_tnode w w' x : similar w w' -> is_Some (tnode x w) <-> is_Some (tnode x w').
Proof.
  intros (_ & H & _). unfold tnode. apply (f_equal (fun m => m !! x)) in H. rewrite !lookup_fmap in H.
  destruct (tnodes (fs w) !! x), (tnodes (fs w') !! x); simplify_eq/=; try done.
Qed.

Lemma inv_similar ext w w' : similar w w' -> inv ext w -> inv ext w'.
Proof.
  intros Hs Hi. pose proof (similar_entries _ _ Hs) as He. split; rewrite ?He.
  - intros x. rewrite <- (similar_sym_vnode _ _ _ Hs), <- (similar_sym_tnode _ _ _ Hs). apply Hi.
  - intros x n' (n & Hn & -> & _)%(similar_vnode _ _ _ _ Hs). by apply Hi.
  - intros x ?%(similar_dead _ _ _ Hs). by apply Hi.
  - apply Hi.
  - intros x n' t' (n & Hn & _ & Ht & Hf & _)%(similar_vnode _ _ _ _ Hs) (t & Hx & Hc)%(similar_tnode _ _ _ _ Hs).
    pose proof (inv_node _ _ Hi x n t Hn Hx) as H. unfold node_ok, is_root in *. by rewrite Ht, Hf, Hc.
  - apply Hi.
  - intros x n' (n & Hn & _ & -> & Hf & _)%(similar_vnode _ _ _ _ Hs) Hr. apply (inv_root _ _ Hi x n Hn). unfold is_root in *. by rewrite <- Hf.
  - intros x n' (n & Hn & _ & _ & _ & ->)%(similar_vnode _ _ _ _ Hs). apply Hs. by eapply Hi.
Qed.

Lemma inv_ext_eq ext ext' w : (forall x, ext x = ext' x) -> inv ext w -> inv ext' w.
Proof.
  intros He Hi. split; intros; rewrite <- ?He; try by eapply Hi.
Qed.

(** A change of one reference count. *)
Lemma inv_refcount ext w x n d :
  inv ext w -> vnodes w !! x = Some n -> 0 < refcount n + d -> 0 <= ext x + d -> (is_root n = true -> 1 <= ext x + d) ->
  inv (add x d ext) (set_vnode x (with_refcount (refcount n + d) n) w).
Proof.
  intros Hi Hx Hp He Hr.
  assert (Hv : forall y m, vnodes (set_vnode x (with_refcount (refcount n + d) n) w) !! y = Some m ->
    exists m0, vnodes w !! y = Some m0 /\ type m = type m0 /\ flags m = flags m0 /\ vfs m = vfs m0 /\
      refcount m = refcount m0 + (add x d ext y - ext y) /\ (y = x -> m0 = n)).
  { intros y m. unfold set_vnode, add. cbn [vnodes]. intros [[<- <-]|[Hne Hm]]%lookup_insert_Some.
    - exists n. rewrite decide_True by done. split_and!; try done. simpl. lia.
    - exists m. rewrite decide_False by done. split_and!; try done; lia. }
  split; change (entries (set_vnode x (with_refcount (refcount n + d) n) w)) with (entries w);
    try change (tnode ?y (set_vnode x (with_refcount (refcount n + d) n) w)) with (tnode y w).
  - intros y. rewrite <- (inv_dom _ _ Hi y). unfold set_vnode. cbn [vnodes]. rewrite lookup_insert_is_Some'. naive_solver.
  - intros y m (m0 & Hm & _ & _ & _ & Hc & Hn)%Hv. destruct (inv_count _ _ Hi y m0 Hm). unfold add in *. case_decide; [|lia].
    rewrite Hn in * by done. lia.
  - intros y. unfold set_vnode. cbn [vnodes]. intros [Hm Hne]%lookup_insert_None. rewrite add_ne by done. by apply Hi.
  - intros y. pose proof (inv_ext _ _ Hi y). unfold add. case_decide; subst; lia.
  - intros y m t (m0 & Hm & Ht & Hf & _)%Hv Hty. pose proof (inv_node _ _ Hi y m0 t Hm Hty) as H.
    unfold node_ok, is_root in *. by rewrite Ht, Hf.
  - apply Hi.
  - intros y m (m0 & Hm & -> & Hf & _ & _ & Hn)%Hv Hroot. unfold is_root in *. rewrite Hf in Hroot.
    destruct (inv_root _ _ Hi y m0 Hm Hroot) as (? & ? & ?). split_and!; try done. unfold add. case_decide; [|lia].
    subst. rewrite Hn in Hroot by done. specialize (Hr Hroot). lia.
  - intros y m (m0 & Hm & _ & _ & -> & _)%Hv. by eapply Hi.
Qed.

Lemma tnode_set d t w x : tnode x (set_tnode d t w) = if decide (x = d) then Some t else tnode x w.
Proof.
  unfold tnode, set_tnode. cbn [fs set_fs tnodes]. case_decide; [subst; by rewrite lookup_insert_eq|by rewrite lookup_insert_ne].
Qed.

Lemma node_ok_named es es' x n t : (named x es -> named x es') -> node_ok es x n t -> node_ok es' x n t.
Proof. intros Hn. unfold node_ok. destruct (_ =? _); [|done]. intros [? H]. split; [done|]. naive_solver. Qed.

(** A directory that may get entries: it has a name or is a root. *)
Definition attached (d : nat) (w : W) : Prop :=
  exists n, vnodes w !! d = Some n /\ type n = V_TYPE_DIR /\ (is_root n = true \/ named d (entries w)).

(** A new entry takes over a reference from outside. *)
Lemma inv_insert ext w d t k x xn :
  inv ext w -> tnode d w = Some t -> attached d w -> entries w !! (d, k) = None -> plain k ->
  vnodes w !! x = Some xn -> is_root xn = false -> 1 <= ext x ->
  inv (add x (-1) ext) (set_tnode d (with_children (<[k := x]> (children t)) t) w).
Proof.
  intros Hi Hd (dn & Hdn & Hdt & Hatt) Hk Hp Hx Hxr He. destruct (plain_dots _ Hp) as [Hnd Hndd].
  pose proof (entries_insert d t k x w Hd) as Hes. split; rewrite ?Hes; try change (vnodes (set_tnode ?d ?t w)) with (vnodes w).
  - intros y. rewrite (inv_dom _ _ Hi y), tnode_set. case_decide; [|done]. subst. by rewrite Hd.
  - intros y n Hy. destruct (inv_count _ _ Hi y n Hy). rewrite links_insert by done. unfold add. case_decide; lia.
  - intros y Hy. rewrite links_insert, add_ne by (done || congruence). rewrite decide_False by congruence.
    pose proof (inv_dead _ _ Hi y Hy). lia.
  - intros y. pose proof (inv_ext _ _ Hi y). unfold add. case_decide; subst; lia.
  - intros y n ty Hy. rewrite tnode_set. case_decide as E.
    + intros [= <-]. subst. pose proof (inv_node _ _ Hi d n t Hy Hd) as H. unfold node_ok in *.
      assert (n = dn) as -> by congruence. rewrite Hdt in *. destruct H as [H1 H2]. cbn [Z.eqb V_TYPE_DIR Pos.eqb] in *.
      cbn [children with_children]. rewrite !lookup_insert_ne by done. split; [done|]. intros Hr. destruct (H2 Hr) as [? _].
      split; [done|]. left. apply named_insert; [done|]. destruct Hatt; [congruence|done].
    + intros Hty. apply (node_ok_named (entries w)); [by apply named_insert|]. by apply Hi.
  - intros d' k' y [[[= <- <-] <-]|[_ Hy]]%lookup_insert_Some; [auto|]. by eapply Hi.
  - intros y n Hy Hr. destruct (inv_root _ _ Hi y n Hy Hr) as (? & ? & Hn). assert (y <> x) by congruence.
    rewrite add_ne by done. split_and!; try done.
    intros (d' & k' & [[[= <- <-] <-]|[_ He']]%lookup_insert_Some & Hp'); [done|]. apply Hn. by exists d', k'.
  - intros y n Hy. by eapply Hi.
Qed.

Lemma node_ok_delete es d k x y n t t0 :
  node_ok es y n t0 -> children t = (if decide (y = d) then delete k (children t0) else children t0) ->
  es !! (d, k) = Some x -> plain k -> (y = d -> is_Some (children t0 !! k)) ->
  (y = x -> type n = V_TYPE_DIR -> named x (delete (d, k) es) \/ size (children t0) = 2%nat /\ x <> d) ->
  node_ok (delete (d, k) es) y n t.
Proof.
  intros H Hc Hk Hp Hyk Hx. destruct (plain_dots _ Hp) as [Hnd Hndd]. unfold node_ok in *. rewrite Hc.
  destruct (Z.eqb_spec (type n) V_TYPE_DIR) as [Hd|Hd]; [|case_decide; rewrite H; by rewrite ?delete_empty].
  destruct H as [H1 H2]. split; [case_decide; by rewrite ?lookup_delete_ne|]. intros Hr. destruct (H2 Hr) as [[p H3] H4].
  split; [case_decide; [rewrite lookup_delete_ne by done|]; by rewrite H3|].
  destruct (decide (y = x)) as [->|Hyx].
  - destruct (Hx eq_refl Hd) as [?|[? ?]]; [by left|]. right. by rewrite decide_False.
  - destruct H4 as [H4|H4]; [left; by eapply named_delete|]. right. case_decide as E; [|done].
    destruct (Hyk E) as [z Hz]. rewrite (two_keys _ _ _ _ _ H1 H3 dots_ne H4) in Hz.
    rewrite lookup_insert_ne, lookup_singleton_ne in Hz by done. done.
Qed.

(** An entry that goes leaves its reference to the outside. *)
Lemma inv_delete ext w d t k x xn xt :
  inv ext w -> tnode d w = Some t -> entries w !! (d, k) = Some x -> plain k ->
  vnodes w !! x = Some xn -> tnode x w = Some xt ->
  (type xn = V_TYPE_DIR -> named x (delete (d, k) (entries w)) \/ size (children xt) = 2%nat /\ x <> d) ->
  inv (add x 1 ext) (set_tnode d (with_children (delete k (children t)) t) w).
Proof.
  intros Hi Hd Hk Hp Hx Hxt Hlast. destruct (plain_dots _ Hp) as [Hnd Hndd].
  pose proof (entries_delete d t k w Hd) as Hes. split; rewrite ?Hes; try change (vnodes (set_tnode ?d ?t w)) with (vnodes w).
  - intros y. rewrite (inv_dom _ _ Hi y), tnode_set. case_decide; [|done]. subst. by rewrite Hd.
  - intros y n Hy. destruct (inv_count _ _ Hi y n Hy). rewrite (links_delete _ _ _ x) by done. unfold add. case_decide; lia.
  - intros y Hy. rewrite (links_delete _ _ _ x), add_ne by (done || congruence). rewrite decide_False by congruence.
    pose proof (inv_dead _ _ Hi y Hy). lia.
  - intros y. pose proof (inv_ext _ _ Hi y). unfold add. case_decide; subst; lia.
  - intros y n ty Hy Hty.
    assert (exists ty0, tnode y w = Some ty0 /\ children ty = (if decide (y = d) then delete k (children ty0) else children ty0))
      as (ty0 & Hty0 & Hkids).
    { rewrite tnode_set in Hty. case_decide; [|by exists ty]. simplify_eq. by exists t. }
    eapply node_ok_delete; [by eapply inv_node|done..| |].
    + intros ->. rewrite entries_lookup, Hty0 in Hk. by exists x.
    + intros -> Hdir. assert (xt = ty0) as <- by congruence. apply Hlast. congruence.
  - intros d' k' y [_ Hy]%lookup_delete_Some. by eapply Hi.
  - intros y n Hy Hr. destruct (inv_root _ _ Hi y n Hy Hr) as (? & ? & Hn). split_and!; try done.
    + unfold add. case_decide; lia.
    + intros Hn'. apply Hn. eapply named_sub, Hn'. apply delete_subseteq.
  - intros y n Hy. by eapply Hi.
Qed.

(** Adding a node: at a new address, with one reference. *)
Definition add_node (x : nat) (n : vnode_t) (t : tmpfsnode_t) (w : W) : W := set_vnode x n (set_tnode x t w).

Lemma inv_add_file ext w x n t :
  inv ext w -> vnodes w !! x = None -> refcount n = 1 -> type n <> V_TYPE_DIR -> is_root n = false -> children t = ∅ ->
  is_Some (supers (fs w) !! vfs n) -> inv (add x 1 ext) (add_node x n t w).
Proof.
  intros Hi Hx Hc Hty Hroot Hkids Hsup. assert (Htx : tnode x w = None).
  { destruct (tnode x w) eqn:E; [|done]. destruct (proj2 (inv_dom _ _ Hi x)) as [? ?]; [by rewrite E|congruence]. }
  assert (Hes : entries (add_node x n t w) = entries w).
  { apply map_eq. intros [i j]. rewrite !entries_lookup. change (tnode i (add_node x n t w)) with (tnode i (set_tnode x t w)).
    rewrite tnode_set. case_decide; [|done]. subst. rewrite Htx. simpl. by rewrite Hkids. }
  destruct (inv_dead _ _ Hi x Hx) as [Hl He].
  assert (Hv : forall y, vnodes (add_node x n t w) !! y = if decide (y = x) then Some n else vnodes w !! y).
  { intros y. unfold add_node, set_vnode. cbn [vnodes]. case_decide; [subst; by rewrite lookup_insert_eq|by rewrite lookup_insert_ne]. }
  split; rewrite ?Hes; intros y; rewrite ?Hv; try change (tnode y (add_node x n t w)) with (tnode y (set_tnode x t w)); rewrite ?tnode_set.
  - case_decide; [done|apply Hi].
  - intros m. unfold add. case_decide as E; [|by replace (ext y + 0) with (ext y) by lia; apply Hi]. intros [= <-]. subst. lia.
  - case_decide; [done|]. rewrite add_ne by done. by apply Hi.
  - pose proof (inv_ext _ _ Hi y). unfold add. case_decide; lia.
  - intros m ty. case_decide; [|by apply Hi]. intros [= <-] [= <-]. unfold node_ok. by rewrite (proj2 (Z.eqb_neq _ _) Hty).
  - apply Hi.
  - intros m. case_decide as E; [by intros [= <-]; congruence|]. rewrite add_ne by done. by apply Hi.
  - intros m. case_decide; [by intros [= <-]|by apply Hi].
Qed.

(** A directory comes with its dot entries, the second of which takes over a
    reference to the parent. *)
Lemma inv_add_dir ext w x n t p pn :
  inv ext w -> vnodes w !! x = None -> refcount n = 1 -> type n = V_TYPE_DIR -> is_root n = false ->
  children t = <[dotdot := p]> {[dot := x]} -> vnodes w !! p = Some pn -> 1 <= ext p -> (is_root pn = true -> 2 <= ext p) ->
  is_Some (supers (fs w) !! vfs n) -> inv (add x 1 (add p (-1) ext)) (add_node x n t w).
Proof.
  intros Hi Hx Hc Hty Hroot Hkids Hp Hpe Hpr Hsup. assert (Htx : tnode x w = None).
  { destruct (tnode x w) eqn:E; [|done]. destruct (proj2 (inv_dom _ _ Hi x)) as [? ?]; [by rewrite E|congruence]. }
  assert (Hnone : forall k, entries w !! (x, k) = None) by (intros k; by rewrite entries_lookup, Htx).
  assert (Hes : entries (add_node x n t w) = <[(x, dotdot) := p]> (<[(x, dot) := x]> (entries w))).
  { apply map_eq. intros [i j]. rewrite !entries_lookup. change (tnode i (add_node x n t w)) with (tnode i (set_tnode x t w)).
    rewrite tnode_set. case_decide as E; [|by rewrite !lookup_insert_ne, entries_lookup by congruence]. subst. simpl. rewrite Hkids.
    destruct (decide (j = dotdot)) as [->|]; [by rewrite !lookup_insert_eq|]. rewrite !(lookup_insert_ne _ _ j) by done.
    rewrite lookup_insert_ne by congruence. destruct (decide (j = dot)) as [->|]; [by rewrite lookup_insert_eq, lookup_singleton_eq|].
    rewrite lookup_singleton_ne, lookup_insert_ne by congruence. by rewrite Hnone. }
  destruct (inv_dead _ _ Hi x Hx) as [Hl He]. assert (x <> p) by congruence.
  assert (Hlk : forall y, links y (entries (add_node x n t w)) = links y (entries w) + if decide (y = p) then 1 else 0).
  { intros y. rewrite Hes, links_insert, links_insert_dot; try done. by rewrite lookup_insert_ne. }
  assert (Hnm : forall y, named y (entries (add_node x n t w)) <-> named y (entries w)).
  { intros y. rewrite Hes. split.
    - intros (d & k & Hdk & Hpl). destruct (plain_dots _ Hpl). rewrite !lookup_insert_ne in Hdk by congruence. by exists d, k.
    - intros. apply named_insert; [by rewrite lookup_insert_ne|]. by apply named_insert. }
  assert (Hv : forall y, vnodes (add_node x n t w) !! y = if decide (y = x) then Some n else vnodes w !! y).
  { intros y. unfold add_node, set_vnode. cbn [vnodes]. case_decide; [subst; by rewrite lookup_insert_eq|by rewrite lookup_insert_ne]. }
  assert (Hroots : forall y m, vnodes w !! y = Some m -> is_root m = true -> 1 <= add x 1 (add p (-1) ext) y).
  { intros y m Hm Hr. destruct (inv_root _ _ Hi y m Hm Hr) as (? & ? & ?). unfold add. repeat case_decide; subst; try congruence; try lia.
    assert (pn = m) as -> by congruence. specialize (Hpr Hr). lia. }
  split; intros y; rewrite ?Hlk, ?Hv; try change (tnode y (add_node x n t w)) with (tnode y (set_tnode x t w)); rewrite ?tnode_set.
  - case_decide; [done|apply Hi].
  - intros m. case_decide as E; [intros [= <-]; subst; unfold add; repeat case_decide; try congruence; lia|].
    intros Hm. destruct (inv_count _ _ Hi y m Hm). unfold add. repeat case_decide; try congruence; lia.
  - case_decide; [done|]. intros Hy. destruct (inv_dead _ _ Hi y Hy). unfold add. repeat case_decide; try congruence; lia.
  - pose proof (inv_ext _ _ Hi y). unfold add. repeat case_decide; subst; try congruence; lia.
  - intros m ty. case_decide as E.
    + intros [= <-] [= <-]. subst. unfold node_ok. rewrite Hty. cbn [Z.eqb V_TYPE_DIR Pos.eqb]. rewrite Hkids. split; [done|].
      intros _. split; [by rewrite lookup_insert_eq|]. right. by rewrite map_size_insert_None, map_size_singleton by by rewrite lookup_singleton_ne.
    + intros Hm Hty'. apply (node_ok_named (entries w)); [apply Hnm|]. by apply Hi.
  - intros k z. rewrite Hes. intros [[[= <- <-] <-]|[_ [[[= <- <-] <-]|[_ ?]]%lookup_insert_Some]]%lookup_insert_Some; [auto..|by eapply Hi].
  - intros m. case_decide as E; [by intros [= <-]; congruence|]. intros Hm Hr. rewrite Hnm.
    destruct (inv_root _ _ Hi y m Hm Hr) as (? & ? & ?). split_and!; try done. by eapply Hroots.
  - intros m. case_decide; [by intros [= <-]|by apply Hi].
Qed.

(** Giving a node back: nothing refers to it and it has at most its dot
    entries. *)
Lemma entries_drop w x i j : entries (drop_node x w) !! (i, j) = if decide (i = x) then None else entries w !! (i, j).
Proof.
  rewrite !entries_lookup. unfold tnode, drop_node. cbn [fs tnodes]. case_decide.
  - subst. by rewrite lookup_delete_eq.
  - by rewrite lookup_delete_ne.
Qed.

Lemma inv_drop ext ext' w x n t :
  inv ext w -> vnodes w !! x = Some n -> tnode x w = Some t -> is_root n = false ->
  (forall k y, children t !! k = Some y -> ~ plain k) -> ext' x = 0 -> links x (entries (drop_node x w)) = 0 ->
  (forall y, y <> x -> links y (entries (drop_node x w)) + ext' y = links y (entries w) + ext y /\ ext y <= ext' y) ->
  inv ext' (drop_node x w).
Proof.
  intros Hi Hx Ht Hroot Hkeys He' Hl' Hy.
  assert (Hnm : forall y, named y (entries (drop_node x w)) <-> named y (entries w)).
  { intros y. split; intros (d & k & Hdk & Hpl); exists d, k; (split; [|done]); rewrite entries_drop in *; case_decide as E; try done.
    subst. rewrite entries_lookup, Ht in Hdk. by destruct (Hkeys _ _ Hdk). }
  assert (Hv : forall y, vnodes (drop_node x w) !! y = if decide (y = x) then None else vnodes w !! y).
  { intros y. unfold drop_node. cbn [vnodes]. case_decide; [subst; by rewrite lookup_delete_eq|by rewrite lookup_delete_ne]. }
  assert (Htv : forall y, tnode y (drop_node x w) = if decide (y = x) then None else tnode y w).
  { intros y. unfold drop_node, tnode. cbn [fs tnodes]. case_decide; [subst; by rewrite lookup_delete_eq|by rewrite lookup_delete_ne]. }
  split; intros y; rewrite ?Hv, ?Htv.
  - case_decide; [by split; intros []|apply Hi].
  - intros m. case_decide as E; [done|]. intros Hm. destruct (inv_count _ _ Hi y m Hm), (Hy y E). lia.
  - case_decide as E; [by subst|]. intros Hm. destruct (inv_dead _ _ Hi y Hm), (Hy y E).
    pose proof (links_nonneg y (entries (drop_node x w))). lia.
  - destruct (decide (y = x)) as [->|E]; [lia|]. pose proof (inv_ext _ _ Hi y). destruct (Hy y E). lia.
  - intros m ty. case_decide as E; [done|]. intros Hm Hty. apply (node_ok_named (entries w)); [apply Hnm|]. by apply Hi.
  - intros k z. rewrite entries_drop. case_decide; [done|]. apply Hi.
  - intros m. case_decide as E; [done|]. intros Hm Hr. rewrite Hnm. destruct (inv_root _ _ Hi y m Hm Hr) as (? & ? & ?), (Hy y E).
    split_and!; try done. lia.
  - intros m. case_decide; [done|]. apply Hi.
Qed.

Lemma names_drop w x t :
  tnode x w = Some t -> (forall k y, children t !! k = Some y -> ~ plain k) -> names (drop_node x w) = names w.
Proof.
  intros Ht Hk. apply map_eq. intros [i j]. unfold names. apply option_eq. intros y.
  rewrite !map_lookup_filter_Some, entries_drop. case_decide as E; [|done]. subst. split; [by intros []|].
  rewrite entries_lookup, Ht. simpl. intros [Hy Hp]. by destruct (Hk _ _ Hy).
Qed.

(** A node nothing refers to any more that is freed at once. *)
Lemma inv_drop_file ext w x n :
  inv ext w -> vnodes w !! x = Some n -> refcount n = 1 -> 1 <= ext x -> type n <> V_TYPE_DIR ->
  inv (add x (-1) ext) (drop_node x w) /\ names (drop_node x w) = names w.
Proof.
  intros Hi Hx Hc He Hty. destruct (proj1 (inv_dom _ _ Hi x)) as [t Ht]; [by rewrite Hx|].
  pose proof (inv_node _ _ Hi x n t Hx Ht) as Hok. unfold node_ok in Hok. rewrite (proj2 (Z.eqb_neq _ _) Hty) in Hok.
  assert (Hes : entries (drop_node x w) = entries w).
  { apply map_eq. intros [i j]. rewrite entries_drop. case_decide; [|done]. subst. by rewrite entries_lookup, Ht; simpl; rewrite Hok. }
  destruct (inv_count _ _ Hi x n Hx). pose proof (links_nonneg x (entries w)). split; [|unfold names; by rewrite Hes].
  eapply inv_drop; try done; rewrite ?Hes.
  - destruct (is_root n) eqn:E; [|done]. destruct (inv_root _ _ Hi x n Hx E). congruence.
  - intros k y. by rewrite Hok.
  - rewrite add_eq. lia.
  - lia.
  - intros y Hne. rewrite add_ne by done. lia.
Qed.

(** A directory that goes leaves its reference to the parent to be dropped. *)
Lemma inv_drop_dir ext w x n :
  inv ext w -> vnodes w !! x = Some n -> refcount n = 1 -> 1 <= ext x -> type n = V_TYPE_DIR -> is_root n = false ->
  exists t p, tnode x w = Some t /\ size (children t) = 2%nat /\ children t !! dotdot = Some p /\ p <> x /\
    inv (add p 1 (add x (-1) ext)) (drop_node x w) /\ names (drop_node x w) = names w.
Proof.
  intros Hi Hx Hc He Hty Hroot. destruct (proj1 (inv_dom _ _ Hi x)) as [t Ht]; [by rewrite Hx|].
  pose proof (inv_node _ _ Hi x n t Hx Ht) as Hok. unfold node_ok in Hok. rewrite Hty in Hok. cbn [Z.eqb V_TYPE_DIR Pos.eqb] in Hok.
  destruct Hok as [Hdot H]. destruct (H Hroot) as [[p Hp] Hsz]. clear H.
  destruct (inv_count _ _ Hi x n Hx) as [Hcnt _]. pose proof (links_nonneg x (entries w)) as Hnn.
  assert (Hsz2 : size (children t) = 2%nat).
  { destruct Hsz as [(d & k & Hdk & Hpl)|]; [|done]. destruct (plain_dots _ Hpl) as [Hnd _]. pose proof (links_pos x d k _ Hdk Hnd). lia. }
  assert (Hep : entries w !! (x, dotdot) = Some p) by (by rewrite entries_lookup, Ht).
  assert (Hed : entries w !! (x, dot) = Some x) by (by rewrite entries_lookup, Ht).
  assert (Hpx : p <> x) by (intros ->; pose proof (links_pos x x dotdot _ Hep ltac:(done)); lia).
  exists t, p. do 4 (split; [done|]). pose proof (two_keys _ _ _ _ _ Hp Hdot (not_eq_sym dots_ne) Hsz2) as Hkids.
  assert (Hes : entries (drop_node x w) = delete (x, dotdot) (delete (x, dot) (entries w))).
  { apply map_eq. intros [i j]. rewrite entries_drop. case_decide as E; [|by rewrite !lookup_delete_ne by congruence]. subst i.
    destruct (decide (j = dotdot)) as [->|]; [by rewrite lookup_delete_eq|]. rewrite lookup_delete_ne by congruence.
    destruct (decide (j = dot)) as [->|]; [by rewrite lookup_delete_eq|]. rewrite lookup_delete_ne by congruence.
    rewrite entries_lookup, Ht. simpl. by rewrite Hkids, lookup_insert_ne, lookup_singleton_ne by done. }
  assert (Hlk : forall y, links y (entries (drop_node x w)) = links y (entries w) - if decide (y = p) then 1 else 0).
  { intros y. rewrite Hes, (links_delete _ _ _ p), (links_delete_dot _ _ x); try done. by rewrite lookup_delete_ne. }
  assert (Hpl : forall k y, children t !! k = Some y -> ~ plain k).
  { intros k y Hk Hpl. destruct (plain_dots _ Hpl). rewrite Hkids, lookup_insert_ne, lookup_singleton_ne in Hk by done. done. }
  split; [|by eapply names_drop]. eapply inv_drop; try done.
  - rewrite add_ne, add_eq by done. lia.
  - rewrite Hlk, decide_False by done. lia.
  - intros y Hne. rewrite Hlk. unfold add. rewrite (decide_False (P := y = x)) by done. case_decide; lia.
Qed.

(** ** Releasing *)

Lemma add_node_vnode x n t w y : y <> x -> vnodes (add_node x n t w) !! y = vnodes w !! y.
Proof. intros. unfold add_node, set_vnode. cbn [vnodes]. by rewrite lookup_insert_ne. Qed.

Lemma add_node_tnode x n t w y : y <> x -> tnode y (add_node x n t w) = tnode y w.
Proof. intros. change (tnode y (add_node x n t w)) with (tnode y (set_tnode x t w)). by rewrite tnode_set, decide_False. Qed.

Lemma add_node_set x n t w y m : y <> x -> set_vnode y m (add_node x n t w) = add_node x n t (set_vnode y m w).
Proof. intros. unfold add_node, set_vnode. f_equal. cbn [vnodes set_tnode set_fs]. by rewrite insert_insert_ne. Qed.

Lemma add_node_drop x n t w y : y <> x -> drop_node y (add_node x n t w) = add_node x n t (drop_node y w).
Proof.
  intros. unfold add_node, drop_node, set_vnode, set_tnode, set_fs. cbn. by rewrite !delete_insert_ne by done.
Qed.

(** Freeing the parents of a node does not look at a node that nothing refers
    to. *)
Lemma freenode_frame f x n t : forall p w w',
  freenode_fuel f p w = Some w' -> vnodes w !! x = None ->
  freenode_fuel f p (add_node x n t w) = Some (add_node x n t w') /\ vnodes w' !! x = None /\ (tnode x w = None -> tnode x w' = None).
Proof.
  induction f as [|f IH]; intros p w w' H Hx; [done|]. cbn [freenode_fuel] in *.
  apply bind_Some in H as (pn & Hp & H). apply bind_Some in H as ([] & Hz & H). apply bind_Some in H as (w1 & Hw1 & [= <-]).
  assert (Hpx : p <> x) by congruence. rewrite add_node_vnode, Hp by done. cbn [mbind option_bind]. rewrite Hz. cbn [mbind option_bind].
  assert (Hdrop : vnodes w1 !! x = None -> vnodes (drop_node p w1) !! x = None).
  { intros E. unfold drop_node. cbn [vnodes]. by rewrite lookup_delete_ne. }
  assert (Hdropt : tnode x w1 = None -> tnode x (drop_node p w1) = None).
  { intros E. unfold drop_node, tnode. cbn [fs tnodes]. by rewrite lookup_delete_ne. }
  destruct (type pn =? V_TYPE_DIR); [|simplify_eq; cbn [mbind option_bind]; rewrite add_node_drop by done; by auto].
  rewrite add_node_tnode by done. apply bind_Some in Hw1 as (pt & Hpt & Hw1). rewrite Hpt. cbn [mbind option_bind].
  apply bind_Some in Hw1 as ([] & Hs & Hw1). rewrite Hs. cbn [mbind option_bind].
  apply bind_Some in Hw1 as (q & Hq & Hw1). rewrite Hq. cbn [mbind option_bind].
  apply bind_Some in Hw1 as (qn & Hqn & Hw1). assert (Hqx : q <> x) by congruence.
  rewrite add_node_vnode, Hqn by done. cbn [mbind option_bind]. rewrite add_node_set by done.
  destruct (_ =? 0) in Hw1 |- *.
  - destruct (IH _ _ _ Hw1) as (-> & ? & ?); [unfold set_vnode; cbn [vnodes]; by rewrite lookup_insert_ne|].
    cbn [mbind option_bind]. rewrite add_node_drop by done. auto.
  - simplify_eq. cbn [mbind option_bind]. rewrite add_node_drop by done. split_and!; [done| |auto].
    apply Hdrop. unfold set_vnode. cbn [vnodes]. by rewrite lookup_insert_ne.
Qed.

Lemma drop_add_node x n t w : vnodes w !! x = None -> tnode x w = None -> drop_node x (add_node x n t w) = w.
Proof.
  intros Hv Ht. unfold drop_node, add_node, set_vnode, set_tnode, set_fs. cbn. rewrite !delete_insert_id by done.
  destruct w as [? ? ? ? []]. done.
Qed.

Lemma set_add_drop x n t w : vnodes w !! x <> None -> tnode x w = Some t -> set_vnode x n w = add_node x n t (drop_node x w).
Proof.
  intros Hv Ht. unfold drop_node, add_node, set_vnode, set_tnode, set_fs, tnode in *. cbn. rewrite !insert_delete_eq.
  rewrite (insert_id (tnodes (fs w))) by done. destruct w as [? ? ? ? []]. done.
Qed.

Lemma vnode_set_eq (w : W) x n : vnodes (set_vnode x n w) !! x = Some n.
Proof. unfold set_vnode. cbn [vnodes]. apply lookup_insert_eq. Qed.

(** Dropping a reference from outside always works: the node goes with its last
    reference, and so do the parents whose last reference that was. *)
Lemma release_ok m : forall ext w x n,
  (size (vnodes w) <= m)%nat -> inv ext w -> vnodes w !! x = Some n -> 1 <= ext x -> (is_root n = true -> 2 <= ext x) ->
  exists w', release x w = Some w' /\ inv (add x (-1) ext) w' /\ names w' = names w.
Proof.
  induction m as [|m IH]; intros ext w x n Hm Hi Hx He Hr.
  { apply Nat.le_0_r, map_size_empty_inv in Hm. rewrite Hm in Hx. done. }
  unfold release. rewrite Hx. cbn [mbind option_bind]. destruct (inv_count _ _ Hi x n Hx) as [Hc Hpos].
  pose proof (links_nonneg x (entries w)). destruct (Z.eqb_spec (refcount n - 1) 0) as [Hz|Hz].
  2:{ eexists. split; [done|]. split; [|done]. replace (refcount n - 1) with (refcount n + -1) by lia. apply inv_refcount; try done; try lia.
      intros E. specialize (Hr E). lia. }
  assert (Hroot : is_root n = false) by (destruct (is_root n); [specialize (Hr eq_refl); lia|done]).
  destruct (proj1 (inv_dom _ _ Hi x)) as [t Ht]; [by rewrite Hx|].
  unfold tmpfs_inactive. cbn [freenode_fuel]. rewrite vnode_set_eq. cbn [mbind option_bind].
  cbn [refcount with_refcount type]. rewrite (proj2 (Z.eqb_eq _ _) Hz). cbn [passert mbind option_bind].
  destruct (Z.eqb_spec (type n) V_TYPE_DIR) as [Hd|Hd].
  2:{ cbn [mbind option_bind]. eexists. split; [done|].
      replace (drop_node x (set_vnode x (with_refcount (refcount n - 1) n) w)) with (drop_node x w).
      - by eapply inv_drop_file; [..|done|done]; try done; lia.
      - unfold drop_node, set_vnode. cbn. by rewrite delete_insert_eq. }
  destruct (inv_drop_dir ext w x n) as (t' & p & Ht' & Hsz & Hp & Hpx & Hi0 & Hnames); try done; [lia|]. assert (t' = t) as -> by congruence.
  change (tnode x (set_vnode x (with_refcount (refcount n - 1) n) w)) with (tnode x w). rewrite Ht. cbn [mbind option_bind].
  rewrite bool_decide_true by done. cbn [passert mbind option_bind]. rewrite Hp. cbn [mbind option_bind].
  set (n0 := with_refcount (refcount n - 1) n). set (w0 := drop_node x w) in *.
  assert (Hw1 : set_vnode x n0 w = add_node x n0 t w0) by (apply set_add_drop; [by rewrite Hx|done]).
  destruct (vnodes w0 !! p) as [pn|] eqn:Hpn.
  2:{ destruct (inv_dead _ _ Hi0 p Hpn) as [_ E]. rewrite add_eq, add_ne in E by done. pose proof (inv_ext _ _ Hi p). lia. }
  assert (Hsize : size (vnodes w) = S (size (vnodes w0))).
  { unfold w0, drop_node. cbn [vnodes]. rewrite map_size_delete, Hx. assert (size (vnodes w) <> 0%nat); [|lia].
    intros E%map_size_empty_inv. by rewrite E in Hx. }
  destruct (IH (add p 1 (add x (-1) ext)) w0 p pn) as (w0' & Hrel & Hi0' & Hnames'); try done; [lia| | |].
  { pose proof (inv_ext _ _ Hi p). rewrite add_eq, add_ne by done. lia. }
  { intros E. destruct (inv_root _ _ Hi0 p pn Hpn E) as (_ & ? & _). unfold w0, drop_node in Hpn. cbn [vnodes] in Hpn.
    rewrite lookup_delete_ne in Hpn by done. destruct (inv_root _ _ Hi p pn Hpn E) as (_ & ? & _). rewrite add_eq, add_ne by done. lia. }
  exists w0'. split.
  - unfold release in Hrel. rewrite Hpn in Hrel. cbn [mbind option_bind] in Hrel.
    rewrite Hw1, add_node_vnode, Hpn by done. cbn [mbind option_bind]. rewrite add_node_set by done.
    assert (Hx0 : vnodes w0 !! x = None) by (unfold w0, drop_node; cbn [vnodes]; apply lookup_delete_eq).
    assert (Ht0 : tnode x w0 = None) by (unfold w0, drop_node, tnode; cbn [fs tnodes]; apply lookup_delete_eq).
    assert (Hx1 : vnodes (set_vnode p (with_refcount (refcount pn - 1) pn) w0) !! x = None).
    { unfold set_vnode. cbn [vnodes]. by rewrite lookup_insert_ne. }
    replace (size (vnodes (add_node x n0 t w0))) with (S (size (vnodes (set_vnode p (with_refcount (refcount pn - 1) pn) w0)))).
    2:{ rewrite <- Hw1. unfold set_vnode. cbn [vnodes]. rewrite !map_size_insert_Some by done. lia. }
    destruct (_ =? 0) in Hrel |- *.
    + destruct (freenode_frame _ x n0 t _ _ _ Hrel Hx1) as (-> & ? & ?). cbn [mbind option_bind]. rewrite drop_add_node by auto. done.
    + simplify_eq. cbn [mbind option_bind]. by rewrite drop_add_node.
  - split; [|congruence]. eapply inv_ext_eq; [|done]. intros y. unfold add. repeat case_decide; lia.
Qed.

(** ** Operations on the name space *)

Lemma names_lookup w d k : plain k -> names w !! (d, k) = entries w !! (d, k).
Proof.
  intros Hp. unfold names. apply option_eq. intros x. rewrite map_lookup_filter_Some. simpl. tauto.
Qed.

Lemma names_insert d t k x w :
  tnode d w = Some t -> plain k -> names (set_tnode d (with_children (<[k := x]> (children t)) t) w) = <[(d, k) := x]> (names w).
Proof. intros Hd Hp. unfold names. rewrite entries_insert by done. by rewrite map_filter_insert_True. Qed.

Lemma names_delete d t k w :
  tnode d w = Some t -> names (set_tnode d (with_children (delete k (children t)) t) w) = delete (d, k) (names w).
Proof. intros Hd. unfold names. rewrite entries_delete by done. by rewrite map_filter_delete. Qed.

Lemma names_similar w w' : similar w w' -> names w' = names w.
Proof. intros H. unfold names. by rewrite (similar_entries _ _ H). Qed.

(** The node a creation makes, when there is memory for it and for its entry. *)
Definition made (ty : Z) (m : list (option nat)) : option nat :=
  match m with
  | Some x :: m' =>
      if ty =? V_TYPE_DIR then Some x
      else match m' with Some _ :: _ => Some x | _ => None end
  | _ => None
  end.

(** The allocation [i] from now does not return the address of a node in use. *)
Definition fresh_at (i : nat) (w : W) : Prop := forall x, memory w !! i = Some (Some x) -> vnodes w !! x = None.

Lemma similar_refl w : similar w w.
Proof. split_and!; try done. intros x. by destruct (vnodes w !! x). Qed.

Lemma similar_trans w1 w2 w3 : similar w1 w2 -> similar w2 w3 -> similar w1 w3.
Proof.
  intros (H1 & H2 & H3) (H4 & H5 & H6). split_and!; [|congruence|auto]. intros x. specialize (H1 x). specialize (H4 x).
  destruct (vnodes w1 !! x), (vnodes w2 !! x), (vnodes w3 !! x); try done. simpl in *. unfold same_shape in *.
  destruct_and!. split_and!; congruence.
Qed.

Lemma similar_memory w m : similar w (set_memory m w).
Proof. exact (similar_refl w). Qed.

Lemma similar_attr w x t a : tnode x w = Some t -> similar w (set_tnode x (with_attr a t) w).
Proof.
  intros Ht. split_and!; [apply (similar_refl w)| |done]. cbn. rewrite fmap_insert. cbn. apply insert_id.
  rewrite lookup_fmap. unfold tnode in Ht. by rewrite Ht.
Qed.

Lemma similar_link w x t p : tnode x w = Some t -> similar w (set_tnode x (with_link p t) w).
Proof.
  intros Ht. split_and!; [apply (similar_refl w)| |done]. cbn. rewrite fmap_insert. cbn. apply insert_id.
  rewrite lookup_fmap. unfold tnode in Ht. by rewrite Ht.
Qed.

Lemma similar_lock w x n l : vnodes w !! x = Some n -> similar w (set_vnode x (with_lock l n) w).
Proof.
  intros Hx. split_and!; try done. intros y. unfold set_vnode. cbn [vnodes]. destruct (decide (y = x)) as [->|].
  - rewrite lookup_insert_eq, Hx. done.
  - rewrite lookup_insert_ne by done. by destruct (vnodes w !! y).
Qed.

Lemma similar_super w v u : similar w (set_super v u w).
Proof.
  split_and!; try done; [apply (similar_refl w)|]. intros v'. cbn. intros H. rewrite lookup_insert_is_Some'. by right.
Qed.

Lemma hold_ok ext w x n :
  inv ext w -> vnodes w !! x = Some n -> exists w', VOP_HOLD x w = Some w' /\ inv (add x 1 ext) w' /\ names w' = names w.
Proof.
  intros Hi Hx. unfold VOP_HOLD. rewrite Hx. eexists. split; [done|]. split; [|done].
  destruct (inv_count _ _ Hi x n Hx). pose proof (inv_ext _ _ Hi x). apply inv_refcount; try done; try lia.
Qed.

Lemma hold_lock_ok ext w x n :
  inv ext w -> vnodes w !! x = Some n -> 0 < lock n ->
  exists w1 w2, VOP_HOLD x w = Some w1 /\ VOP_LOCK x w1 = Some w2 /\ inv (add x 1 ext) w1 /\ inv (add x 1 ext) w2 /\
    names w1 = names w /\ names w2 = names w.
Proof.
  intros Hi Hx Hl. destruct (hold_ok ext w x n Hi Hx) as (w1 & Hw1 & Hi1 & Hn1). exists w1.
  unfold VOP_HOLD in Hw1. rewrite Hx in Hw1. cbn in Hw1. injection Hw1 as <-. unfold VOP_HOLD, VOP_LOCK. rewrite Hx, vnode_set_eq.
  cbn [mbind option_bind lock with_refcount]. rewrite (proj2 (Z.ltb_lt _ _) Hl). cbn [passert mbind option_bind]. eexists.
  pose proof (similar_lock _ x _ (lock n - 1) (vnode_set_eq w x (with_refcount (refcount n + 1) n))) as Hs.
  do 2 (split; [done|]). split; [done|]. split; [by eapply inv_similar|]. split; [done|]. by rewrite (names_similar _ _ Hs).
Qed.

Lemma tmpfs_lookup_ok ext w d dn k :
  inv ext w -> vnodes w !! d = Some dn -> type dn = V_TYPE_DIR -> plain k ->
  (forall c n, names w !! (d, k) = Some c -> vnodes w !! c = Some n -> 0 < lock n) ->
  exists e c w', tmpfs_lookup d k w = Some (e, c, w') /\ names w' = names w /\
    match names w !! (d, k) with
    | Some x => e = 0 /\ c = Some x /\ inv (add x 1 ext) w'
    | None => e = ENOENT /\ c = None /\ inv ext w'
    end.
Proof.
  intros Hi Hd Hty Hp Hlock. destruct (plain_dots _ Hp) as [_ Hdd]. unfold tmpfs_lookup. rewrite Hd. cbn [mbind option_bind].
  rewrite Hty. cbn [Z.eqb negb V_TYPE_DIR Pos.eqb]. destruct (proj1 (inv_dom _ _ Hi d)) as [t Ht]; [by rewrite Hd|].
  rewrite Ht. cbn [mbind option_bind]. rewrite names_lookup, entries_lookup, Ht in * by done. cbn [mbind option_bind] in *.
  destruct (children t !! k) as [c|] eqn:Hc; [|by eexists _, _, _].
  assert (He : entries w !! (d, k) = Some c) by (by rewrite entries_lookup, Ht).
  destruct (plain_dots _ Hp) as [Hnd _]. pose proof (links_pos c d k _ He Hnd).
  destruct (vnodes w !! c) as [cn|] eqn:Hcn; [|destruct (inv_dead _ _ Hi c Hcn); lia].
  specialize (Hlock c cn eq_refl Hcn). destruct (hold_lock_ok ext w c cn Hi Hcn Hlock) as (w1 & w2 & Hw1 & Hw2 & Hi1 & Hi2 & Hn1 & Hn2).
  rewrite Hw1. cbn [mbind option_bind]. rewrite (bool_decide_false (k = dotdot)) by done. cbn [mbind option_bind].
  case_bool_decide; cbn [mbind option_bind]; [by eexists _, _, _|]. rewrite Hw2. by eexists _, _, _.
Qed.

(** *** Creation *)

Definition new_vnode (ty : Z) (v : nat) : vnode_t := mk_vnode 1 1 0 ty v None.

Lemma newnode_file v u ty x m w :
  ty <> V_TYPE_DIR -> memory w = Some x :: m -> supers (fs w) !! v = Some u ->
  exists a u', newnode v ty w = Some (Some x, add_node x (new_vnode ty v) (mk_tnode a ∅ []) (set_super v u' (set_memory m w))).
Proof.
  intros Hty Hm Hu. unfold newnode, take_memory. rewrite Hm. rewrite (proj2 (Z.eqb_neq _ _) Hty). cbn. rewrite Hu. cbn. by eexists _, _.
Qed.

Lemma newnode_dir v u x b c m w :
  memory w = Some x :: Some b :: Some c :: m -> supers (fs w) !! v = Some u ->
  exists a u', newnode v V_TYPE_DIR w =
    Some (Some x, add_node x (new_vnode V_TYPE_DIR v) (mk_tnode a {[dot := x]} []) (set_super v u' (set_memory m w))).
Proof.
  intros Hm Hu. unfold newnode, take_memory. rewrite Hm. cbn. rewrite Hu. cbn. by eexists _, _.
Qed.

Lemma set_tnode_add_node x n t t' w : set_tnode x t' (add_node x n t w) = add_node x n t' w.
Proof. unfold add_node, set_vnode, set_tnode, set_fs. cbn. by rewrite insert_insert_eq. Qed.

Lemma tnode_add_node x n t w : tnode x (add_node x n t w) = Some t.
Proof. change (tnode x (add_node x n t w)) with (tnode x (set_tnode x t w)). by rewrite tnode_set, decide_True. Qed.

Lemma vnode_add_node x n t w : vnodes (add_node x n t w) !! x = Some n.
Proof. apply vnode_set_eq. Qed.

Lemma table_set_new d x k t b m w :
  tnode d w = Some t -> children t !! k = None -> memory w = b :: m ->
  table_set d x k w = Some (if b is Some _ then (0, set_tnode d (with_children (<[k := x]> (children t)) t) (set_memory m w)) else (ENOMEM, set_memory m w)).
Proof.
  intros Ht Hk Hm. unfold table_set, take_memory. rewrite Ht. cbn [mbind option_bind]. rewrite Hk, bool_decide_false by (by intros []).
  rewrite Hm. by destruct b.
Qed.

Lemma table_set_full d x k t w :
  tnode d w = Some t -> children t !! k = None -> memory w = [] -> table_set d x k w = Some (ENOMEM, w).
Proof.
  intros Ht Hk Hm. unfold table_set, take_memory. rewrite Ht. cbn [mbind option_bind]. rewrite Hk, bool_decide_false by (by intros []).
  by rewrite Hm.
Qed.

Lemma setattr_add_node x n t new which w :
  tmpfs_setattr x new which (add_node x n t w) = Some (add_node x n (with_attr (assign_attr which new (attr t)) t) w).
Proof. unfold tmpfs_setattr. rewrite tnode_add_node. cbn [mbind option_bind]. by rewrite set_tnode_add_node. Qed.

(** The other nodes keep their locks and lose no reference. *)
Definition keeps (x : nat) (w w' : W) : Prop :=
  forall y, y <> x ->
    match vnodes w !! y with
    | Some n => exists n', vnodes w' !! y = Some n' /\ lock n' = lock n /\ refcount n <= refcount n' /\ flags n' = flags n
    | None => vnodes w' !! y = None
    end.

(** What creating [k] in [d] does, given what a lookup would find there. *)
Definition create_result (ext : nat -> Z) (w : W) (d : nat) (k : name_t) (ty : Z) (m : list (option nat)) (e : Z) (r : option nat) (w' : W) : Prop :=
  match names w !! (d, k) with
  | Some _ => e = EEXIST /\ r = None /\ inv ext w' /\ names w' = names w
  | None =>
      match made ty m with
      | Some x => e = 0 /\ r = Some x /\ inv (add x 1 ext) w' /\ names w' = <[(d, k) := x]> (names w) /\
          (exists n, vnodes w' !! x = Some n /\ is_root n = false /\ lock n = 0 /\ refcount n = 2 /\ type n = ty) /\ keeps x w w'
      | None => e = ENOMEM /\ r = None /\ inv ext w' /\ names w' = names w
      end
  end.

(** The end of a creation: the entry is there and the caller gets the node. *)
Lemma create_finish ext w x n :
  inv ext w -> vnodes w !! x = Some n -> lock n = 1 -> is_root n = false ->
  exists w', (w ← VOP_HOLD x w; w ← VOP_LOCK x w; Some (0, Some x, w)) = Some (0, Some x, w') /\ inv (add x 1 ext) w' /\
    names w' = names w /\ vnodes w' = <[x := with_lock 0 (with_refcount (refcount n + 1) n)]> (vnodes w).
Proof.
  intros Hi Hx Hl Hr. destruct (hold_lock_ok ext w x n Hi Hx ltac:(lia)) as (w1 & w2 & Hw1 & Hw2 & _ & Hi2 & _ & Hn2).
  rewrite Hw1. cbn [mbind option_bind]. rewrite Hw2. exists w2. split_and!; try done.
  unfold VOP_HOLD in Hw1. rewrite Hx in Hw1. cbn in Hw1. injection Hw1 as <-. unfold VOP_LOCK in Hw2. rewrite vnode_set_eq in Hw2.
  cbn [mbind option_bind lock with_refcount] in Hw2. rewrite Hl in Hw2. cbn in Hw2. injection Hw2 as <-.
  unfold set_vnode. cbn [vnodes]. by rewrite insert_insert_eq.
Qed.

Lemma attached_similar w w' d : similar w w' -> attached d w -> attached d w'.
Proof.
  intros Hs (n & Hn & Ht & Ha). pose proof (similar_entries _ _ Hs) as He. destruct Hs as (Hv & _ & _). specialize (Hv d). rewrite Hn in Hv.
  destruct (vnodes w' !! d) as [n'|] eqn:E; [|done]. destruct Hv as (_ & Ht' & Hf & _). exists n'. split_and!; [done|congruence|].
  unfold is_root in *. rewrite Hf, He. done.
Qed.

Lemma names_add_node x n t w :
  tnode x w = None -> (forall k y, children t !! k = Some y -> ~ plain k) -> names (add_node x n t w) = names w.
Proof.
  intros Ht Hk. apply map_eq. intros [i j]. apply option_eq. intros y. unfold names. rewrite !map_lookup_filter_Some, !entries_lookup.
  destruct (decide (i = x)) as [->|]; [|by rewrite add_node_tnode]. rewrite tnode_add_node, Ht. split; [|by intros []].
  intros [Hy Hp]. by destruct (Hk _ _ Hy).
Qed.

Lemma named_names x w w' : names w' = names w -> named x (entries w) -> named x (entries w').
Proof.
  intros Hn (d & k & Hdk & Hp). exists d, k. split; [|done]. rewrite <- names_lookup in * by done. congruence.
Qed.

Lemma attached_add_node d x n t w : d <> x -> names (add_node x n t w) = names w -> attached d w -> attached d (add_node x n t w).
Proof.
  intros Hne Hn (dn & Hd & Ht & Ha). exists dn. rewrite add_node_vnode by done. split_and!; try done.
  destruct Ha; [by left|right]. by eapply named_names.
Qed.

Lemma dead_tnode ext w x : inv ext w -> vnodes w !! x = None -> tnode x w = None.
Proof.
  intros Hi Hx. destruct (tnode x w) as [t|] eqn:E; [|done]. destruct (proj2 (inv_dom _ _ Hi x)) as [? ?]; [by rewrite E|congruence].
Qed.

(** Giving a file back that got no entry. *)
Lemma create_undo ext w x n :
  inv (add x 1 ext) w -> vnodes w !! x = Some n -> is_root n = false -> 0 <= ext x ->
  exists w', release x w = Some w' /\ inv ext w' /\ names w' = names w.
Proof.
  intros Hi Hx Hr He. destruct (release_ok _ _ _ x n (le_n _) Hi Hx) as (w' & Hrel & Hi' & Hn'); [rewrite add_eq; lia|congruence|].
  exists w'. split_and!; try done. eapply inv_ext_eq; [|done]. intros y. unfold add. repeat case_decide; lia.
Qed.

(** Entering a new node in its directory. *)
Lemma create_enter ext w d t k x n :
  inv (add x 1 ext) w -> tnode d w = Some t -> attached d w -> children t !! k = None -> plain k -> vnodes w !! x = Some n ->
  lock n = 1 -> is_root n = false -> 0 <= ext x ->
  exists w', (w ← VOP_HOLD x (set_tnode d (with_children (<[k := x]> (children t)) t) w); w ← VOP_LOCK x w; Some (0, Some x, w))
    = Some (0, Some x, w') /\ inv (add x 1 ext) w' /\ names w' = <[(d, k) := x]> (names w) /\
    vnodes w' = <[x := with_lock 0 (with_refcount (refcount n + 1) n)]> (vnodes w).
Proof.
  intros Hi Ht Hatt Hk Hp Hx Hl Hr He. assert (Hes : entries w !! (d, k) = None) by (by rewrite entries_lookup, Ht).
  pose proof (inv_insert _ _ d t k x n Hi Ht Hatt Hes Hp Hx Hr ltac:(rewrite add_eq; lia)) as Hi2.
  destruct (create_finish _ _ x n Hi2 Hx Hl Hr) as (w' & Hrun & Hi' & Hn' & Hv'). exists w'. split_and!; try done.
  - eapply inv_ext_eq; [|done]. intros y. unfold add. repeat case_decide; lia.
  - by rewrite Hn', names_insert.
Qed.

(** The node of a creation before it is entered anywhere. *)
Lemma create_file_ok ext w d k a ty :
  inv ext w -> attached d w -> plain k -> ty <> V_TYPE_DIR -> fresh_at 0 w ->
  exists e r w', tmpfs_create d k a ty w = Some (e, r, w') /\ create_result ext w d k ty (memory w) e r w'.
Proof.
  intros Hi Hatt Hp Hty Hfr. pose proof Hatt as (dn & Hd & Hdt & Ha). unfold create_result, tmpfs_create.
  destruct (proj1 (inv_dom _ _ Hi d)) as [t Ht]; [by rewrite Hd|].
  rewrite Hd. cbn [mbind option_bind]. rewrite Hdt, Ht. cbn [mbind option_bind Z.eqb negb V_TYPE_DIR Pos.eqb].
  rewrite names_lookup, entries_lookup, Ht by done. cbn [mbind option_bind]. destruct (children t !! k) as [c|] eqn:Hk.
  { rewrite bool_decide_true by done. by eexists _, _, _. }
  rewrite bool_decide_false by (by intros []). unfold made. rewrite (proj2 (Z.eqb_neq _ _) Hty).
  destruct (inv_super _ _ Hi d dn Hd) as [u Hu]. destruct (memory w) as [|[x|] m] eqn:Em.
  { unfold newnode, take_memory. rewrite Em. by eexists _, _, _. }
  2:{ unfold newnode, take_memory. rewrite Em. eexists _, _, _. split; [done|]. split_and!; try done.
      by apply (inv_similar _ w); [apply similar_memory|]. }
  destruct (newnode_file (vfs dn) u ty x m w Hty Em Hu) as (a0 & u' & ->). cbn [mbind option_bind].
  set (w0 := set_super (vfs dn) u' (set_memory m w)).
  assert (Hx : vnodes w !! x = None) by (apply Hfr; by rewrite Em). assert (Hdx : d <> x) by congruence.
  assert (Hs0 : similar w w0) by (eapply similar_trans; [apply similar_memory|apply similar_super]).
  rewrite setattr_add_node. cbn [mbind option_bind]. rewrite tnode_add_node. cbn [mbind option_bind]. rewrite set_tnode_add_node.
  cbn [mbind option_bind Z.eqb negb]. match goal with |- context [add_node x _ ?t1 w0] => set (t1' := t1) end.
  assert (Hkids : children t1' = ∅) by done. clearbody t1'. set (n1 := new_vnode ty (vfs dn)). set (w1 := add_node x n1 t1' w0).
  assert (Hi1 : inv (add x 1 ext) w1).
  { apply inv_add_file; try done; [by eapply inv_similar|]. cbn. by rewrite lookup_insert_eq. }
  assert (Hn1 : names w1 = names w).
  { rewrite <- (names_similar _ _ Hs0). apply names_add_node; [exact (dead_tnode _ _ _ Hi Hx)|]. intros. by rewrite Hkids in *. }
  assert (Ht1 : tnode d w1 = Some t) by (unfold w1; by rewrite add_node_tnode).
  assert (Hx1 : vnodes w1 !! x = Some n1) by apply vnode_add_node. destruct (inv_dead _ _ Hi x Hx) as [_ Hex].
  destruct m as [|[b|] m].
  - rewrite (table_set_full d x k t w1) by done. cbn [mbind option_bind Z.eqb negb ENOMEM].
    destruct (create_undo ext w1 x n1) as (w' & -> & ? & ?); try done; [lia|]. eexists _, _, _. split; [done|]. by rewrite <- Hn1.
  - rewrite (table_set_new d x k t (Some b) m w1) by done. cbn [mbind option_bind Z.eqb negb].
    destruct (create_enter ext (set_memory m w1) d t k x n1) as (w' & -> & ? & Hn' & Hvn); try done; try lia.
    + by eapply inv_similar; [apply similar_memory|].
    + apply (attached_similar w1); [apply similar_memory|]. apply attached_add_node; [done| |by eapply attached_similar].
      rewrite <- (names_similar _ _ Hs0) in Hn1. done.
    + eexists _, _, _. split; [done|]. split_and!; try done; [rewrite Hn'; by rewrite <- Hn1| |].
      * rewrite Hvn, lookup_insert_eq. by eexists.
      * intros y Hne. rewrite Hvn, lookup_insert_ne by done. cbn [vnodes set_memory]. unfold w1. rewrite add_node_vnode by done.
        change (vnodes w0) with (vnodes w). destruct (vnodes w !! y); [by eexists|done].
  - rewrite (table_set_new d x k t None m w1) by done. cbn [mbind option_bind Z.eqb negb ENOMEM].
    destruct (create_undo ext (set_memory m w1) x n1) as (w' & -> & ? & Hn'); try done; try lia.
    + by eapply inv_similar; [apply similar_memory|].
    + eexists _, _, _. split; [done|]. split_and!; try done. rewrite Hn'. done.
Qed.

Lemma attached_hold d n r w : vnodes w !! d = Some n -> attached d w -> attached d (set_vnode d (with_refcount r n) w).
Proof.
  intros Hd (n' & Hn' & Ht & Ha). assert (n' = n) as -> by congruence. eexists. split; [apply vnode_set_eq|]. done.
Qed.

(** The dot entries of a new directory. *)
Lemma create_dots ext w d dn x n t :
  inv ext w -> vnodes w !! d = Some dn -> vnodes w !! x = None -> refcount n = 1 -> type n = V_TYPE_DIR -> is_root n = false ->
  children t = <[dotdot := d]> {[dot := x]} -> is_Some (supers (fs w) !! vfs n) ->
  inv (add x 1 ext) (add_node x n t (set_vnode d (with_refcount (refcount dn + 1) dn) w)) /\
  names (add_node x n t (set_vnode d (with_refcount (refcount dn + 1) dn) w)) = names w.
Proof.
  intros Hi Hd Hx Hc Hty Hr Hkids Hs. destruct (hold_ok ext w d dn Hi Hd) as (w1 & Hw1 & Hi1 & Hn1).
  unfold VOP_HOLD in Hw1. rewrite Hd in Hw1. cbn in Hw1. injection Hw1 as <-. assert (Hdx : d <> x) by congruence. split.
  - apply (inv_ext_eq (add x 1 (add d (-1) (add d 1 ext)))); [intros y; unfold add; repeat case_decide; lia|].
    pose proof (inv_ext _ _ Hi d). eapply inv_add_dir; [exact Hi1| |done..|exact Hkids|apply vnode_set_eq|rewrite add_eq; lia| |exact Hs].
    + unfold set_vnode. cbn [vnodes]. by rewrite lookup_insert_ne.
    + intros Hroot. destruct (inv_root _ _ Hi d dn Hd Hroot) as (_ & ? & _). rewrite add_eq. lia.
  - apply (names_add_node x n t (set_vnode d (with_refcount (refcount dn + 1) dn) w)).
    + exact (dead_tnode _ _ _ Hi Hx).
    + intros k y Hk Hp. destruct (plain_dots _ Hp). rewrite Hkids, lookup_insert_ne, lookup_singleton_ne in Hk by done. done.
Qed.

Lemma create_dir_ok ext w d k a :
  inv ext w -> attached d w -> plain k -> has_memory 5 (memory w) -> fresh_at 0 w ->
  exists e r w', tmpfs_create d k a V_TYPE_DIR w = Some (e, r, w') /\ create_result ext w d k V_TYPE_DIR (memory w) e r w'.
Proof.
  intros Hi Hatt Hp Hm Hfr. pose proof Hatt as (dn & Hd & Hdt & Ha). unfold create_result, tmpfs_create.
  destruct (proj1 (inv_dom _ _ Hi d)) as [t Ht]; [by rewrite Hd|].
  rewrite Hd. cbn [mbind option_bind]. rewrite Hdt, Ht. cbn [mbind option_bind Z.eqb negb V_TYPE_DIR Pos.eqb].
  rewrite names_lookup, entries_lookup, Ht by done. cbn [mbind option_bind]. destruct (children t !! k) as [c|] eqn:Hk.
  { rewrite bool_decide_true by done. by eexists _, _, _. }
  rewrite bool_decide_false by (by intros []). destruct (inv_super _ _ Hi d dn Hd) as [u Hu].
  destruct (has_memory_S _ _ Hm) as (x & m1 & Em & Hm1). destruct (has_memory_S _ _ Hm1) as (b1 & m2 & -> & Hm2).
  destruct (has_memory_S _ _ Hm2) as (b2 & m3 & -> & Hm3). destruct (has_memory_S _ _ Hm3) as (b3 & m4 & -> & Hm4).
  destruct (has_memory_S _ _ Hm4) as (b4 & m5 & -> & _). clear Hm Hm1 Hm2 Hm3 Hm4. rewrite Em. cbn [made Z.eqb V_TYPE_DIR Pos.eqb].
  change 1 with V_TYPE_DIR. destruct (newnode_dir (vfs dn) u x b1 b2 (Some b3 :: Some b4 :: m5) w Em Hu) as (a0 & u' & ->). cbn [mbind option_bind].
  assert (Hx : vnodes w !! x = None) by (apply Hfr; by rewrite Em). assert (Hdx : d <> x) by congruence.
  rewrite setattr_add_node. cbn [mbind option_bind]. rewrite tnode_add_node. cbn [mbind option_bind]. rewrite set_tnode_add_node.
  set (w0 := set_super (vfs dn) u' (set_memory (Some b3 :: Some b4 :: m5) w)). set (n1 := new_vnode V_TYPE_DIR (vfs dn)).
  match goal with |- context [add_node x n1 ?t1 w0] => set (t1' := t1) end. assert (Hkids : children t1' = {[dot := x]}) by done. clearbody t1'.
  rewrite (table_set_new x d dotdot t1' (Some b3) (Some b4 :: m5)); [|apply tnode_add_node|by rewrite Hkids, lookup_singleton_ne|done].
  cbn [mbind option_bind Z.eqb negb]. rewrite Hkids.
  change (set_memory (Some b4 :: m5) (add_node x n1 t1' w0)) with (add_node x n1 t1' (set_memory (Some b4 :: m5) w0)). rewrite set_tnode_add_node.
  set (t2 := with_children (<[dotdot := d]> {[dot := x]}) t1').
  rewrite (table_set_new d x k t (Some b4) m5); [|rewrite add_node_tnode by done; exact Ht|done|done]. cbn [mbind option_bind Z.eqb negb].
  change (add x V_TYPE_DIR ext) with (add x 1 ext). set (w5 := set_memory m5 w0).
  assert (Hs5 : similar w w5) by (eapply similar_trans; [|apply similar_memory]; eapply similar_trans; [apply similar_memory|apply similar_super]).
  destruct (create_dots ext w5 d dn x n1 t2) as [Hi2 Hn2]; try done; [by eapply inv_similar|cbn; by rewrite lookup_insert_eq|].
  rewrite (names_similar _ _ Hs5) in Hn2. destruct (inv_dead _ _ Hi x Hx) as [_ Hex].
  set (w6 := add_node x n1 t2 (set_vnode d (with_refcount (refcount dn + 1) dn) w5)) in *.
  assert (Hrun : VOP_HOLD d (set_tnode d (with_children (<[k := x]> (children t)) t) (set_memory m5 (add_node x n1 t2 (set_memory (Some b4 :: m5) w0))))
                 = Some (set_tnode d (with_children (<[k := x]> (children t)) t) w6)).
  { unfold VOP_HOLD. cbn [vnodes set_tnode set_fs set_memory]. rewrite add_node_vnode by done. cbn [vnodes w0 set_super set_fs set_memory]. rewrite Hd.
    cbn [mbind option_bind]. f_equal. unfold w6. rewrite <- add_node_set by done. done. }
  rewrite Hrun. cbn [mbind option_bind]. destruct (create_enter ext w6 d t k x n1) as (w' & -> & ? & Hn' & Hvn); try done; try lia.
  - unfold w6. by rewrite add_node_tnode.
  - apply attached_add_node; [done| |by apply attached_hold, (attached_similar w)].
    change (names w6 = names w5). by rewrite (names_similar _ _ Hs5).
  - apply vnode_add_node.
  - eexists _, _, _. split; [done|]. split_and!; try done; [by rewrite Hn', Hn2| |].
    + rewrite Hvn, lookup_insert_eq. by eexists.
    + intros y Hne. rewrite Hvn, lookup_insert_ne by done. unfold w6. rewrite add_node_vnode by done.
      destruct (decide (y = d)) as [->|].
      * rewrite vnode_set_eq, Hd. eexists. split; [done|]. cbn. lia.
      * unfold set_vnode. cbn [vnodes]. rewrite lookup_insert_ne by done. change (vnodes w5) with (vnodes w).
        destruct (vnodes w !! y); [by eexists|done].
Qed.

(** *** Removal *)

(** A directory with entries of its own. *)
Definition populated (x : nat) (ns : gmap (nat * name_t) nat) : bool := negb (bool_decide (map_Forall (fun e (_ : nat) => e.1 <> x) ns)).

Lemma populated_true x k y ns : ns !! (x, k) = Some y -> populated x ns = true.
Proof.
  intros H. unfold populated. rewrite bool_decide_false; [done|]. intros Hf. by apply (Hf _ _ H).
Qed.

Lemma looks_empty_populated ext w x t : inv ext w -> tnode x w = Some t -> looks_empty t = negb (populated x (names w)).
Proof.
  intros Hi Ht. unfold looks_empty, populated. rewrite negb_involutive. apply bool_decide_ext. split.
  - intros H [i k] y [Hy Hp]%map_lookup_filter_Some. simpl in *. intros ->. rewrite entries_lookup, Ht in Hy. cbn in Hy.
    specialize (H _ _ Hy). destruct Hp as [_ Hp]. destruct k; [done|]. simpl in H. injection H as ->. done.
  - intros H k y Hy. assert (He : entries w !! (x, k) = Some y) by (by rewrite entries_lookup, Ht).
    destruct (inv_keys _ _ Hi _ _ _ He) as [->|[->|Hp]]; [done..|]. rewrite <- names_lookup in He by done. by destruct (H _ _ He).
Qed.

Lemma empty_size ext w x n t :
  inv ext w -> vnodes w !! x = Some n -> tnode x w = Some t -> type n = V_TYPE_DIR -> is_root n = false ->
  populated x (names w) = false -> size (children t) = 2%nat.
Proof.
  intros Hi Hx Ht Hty Hr Hp. pose proof (inv_node _ _ Hi x n t Hx Ht) as H. unfold node_ok in H. rewrite Hty in H. cbn in H.
  destruct H as [Hdot H]. destruct (H Hr) as [[p Hdd] _].
  assert (children t = <[dot := x]> {[dotdot := p]}) as ->; [|by rewrite map_size_insert_None, map_size_singleton by by rewrite lookup_singleton_ne].
  apply map_eq. intros k. destruct (decide (k = dot)) as [->|]; [by rewrite lookup_insert_eq|]. rewrite lookup_insert_ne by done.
  destruct (decide (k = dotdot)) as [->|]; [by rewrite lookup_singleton_eq|]. rewrite lookup_singleton_ne by done.
  destruct (children t !! k) as [y|] eqn:E; [|done]. assert (He : entries w !! (x, k) = Some y) by (by rewrite entries_lookup, Ht).
  destruct (inv_keys _ _ Hi _ _ _ He) as [?|[?|Hpl]]; [done..|]. rewrite <- names_lookup in He by done.
  by rewrite (populated_true _ _ _ _ He) in Hp.
Qed.

Lemma named_live ext w d k x :
  inv ext w -> plain k -> names w !! (d, k) = Some x ->
  exists n t, vnodes w !! x = Some n /\ tnode x w = Some t /\ is_root n = false /\ entries w !! (d, k) = Some x.
Proof.
  intros Hi Hp Hk. rewrite names_lookup in Hk by done. destruct (plain_dots _ Hp) as [Hnd _]. pose proof (links_pos x d k _ Hk Hnd).
  destruct (vnodes w !! x) as [n|] eqn:Hn; [|destruct (inv_dead _ _ Hi x Hn); lia].
  destruct (proj1 (inv_dom _ _ Hi x)) as [t Ht]; [by rewrite Hn|]. exists n, t. split_and!; try done.
  destruct (is_root n) eqn:E; [|done]. destruct (inv_root _ _ Hi x n Hn E) as (_ & _ & Hnn). destruct Hnn. by exists d, k.
Qed.

Lemma tmpfs_unlink_ok ext w d dn c k :
  inv ext w -> vnodes w !! d = Some dn -> type dn = V_TYPE_DIR -> vfsmounted dn = None -> plain k ->
  (forall x, names w !! (d, k) = Some x -> x = c) ->
  exists e w', tmpfs_unlink d c k w = Some (e, w') /\ inv ext w' /\
    match names w !! (d, k) with
    | None => e = ENOENT /\ names w' = names w
    | Some x =>
        if bool_decide (type <$> vnodes w !! x = Some V_TYPE_DIR) && populated x (names w) then e = ENOTEMPTY /\ names w' = names w
        else e = 0 /\ names w' = delete (d, k) (names w)
    end.
Proof.
  intros Hi Hd Hdt Hmp Hp Hc. unfold tmpfs_unlink. rewrite Hd. cbn [mbind option_bind]. rewrite Hdt, Hmp. cbn [Z.eqb negb V_TYPE_DIR Pos.eqb].
  rewrite bool_decide_false by (by intros []). destruct (proj1 (inv_dom _ _ Hi d)) as [t Ht]; [by rewrite Hd|]. rewrite Ht. cbn [mbind option_bind].
  assert (Hkk : children t !! k = names w !! (d, k)) by (rewrite names_lookup, entries_lookup, Ht by done; done). rewrite Hkk.
  destruct (names w !! (d, k)) as [x|] eqn:Hk; [|by eexists _, _]. assert (c = x) as -> by (symmetry; by apply Hc). rewrite bool_decide_true by done. cbn [passert mbind option_bind].
  destruct (named_live _ _ _ _ _ Hi Hp Hk) as (xn & xt & Hx & Hxt & Hxr & He). rewrite Hx, Hxt. cbn [mbind option_bind fmap option_fmap option_map].
  rewrite (looks_empty_populated _ _ _ _ Hi Hxt), negb_involutive.
  replace (bool_decide (Some (type xn) = Some V_TYPE_DIR)) with (type xn =? V_TYPE_DIR).
  2:{ destruct (Z.eqb_spec (type xn) V_TYPE_DIR); [by rewrite bool_decide_true by congruence|by rewrite bool_decide_false by congruence]. }
  destruct ((type xn =? V_TYPE_DIR) && populated x (names w)) eqn:Epop; [by eexists _, _|].
  assert (Hxd : x <> d).
  { intros ->. assert (xn = dn) as -> by congruence. rewrite Hdt in Epop. cbn in Epop. by rewrite (populated_true _ _ _ _ Hk) in Epop. }
  rewrite tnode_set, decide_False, Hxt by done. cbn [mbind option_bind].
  set (w1 := set_tnode d (with_children (delete k (children t)) t) w).
  assert (Hi1 : inv (add x 1 ext) w1).
  { eapply inv_delete; try done. intros Hty. right. split; [|done]. eapply empty_size; try done. rewrite Hty in Epop. done. }
  assert (Hxt1 : tnode x w1 = Some xt) by (unfold w1; by rewrite tnode_set, decide_False).
  set (w2 := set_tnode x _ w1). assert (Hs : similar w1 w2) by by apply similar_attr.
  destruct (create_undo ext w2 x xn) as (w' & -> & Hi' & Hn'); [by eapply inv_similar|done|done|apply Hi|].
  exists 0, w'. cbn [mbind option_bind]. split_and!; try done. rewrite Hn', (names_similar _ _ Hs). unfold w1. by rewrite names_delete.
Qed.

(** *** Links *)

Lemma inv_not_root ext w x n : inv ext w -> vnodes w !! x = Some n -> type n <> V_TYPE_DIR -> is_root n = false.
Proof. intros Hi Hx Ht. destruct (is_root n) eqn:E; [|done]. by destruct (inv_root _ _ Hi x n Hx E). Qed.

Lemma tmpfs_link_ok ext w x xn d dn k :
  inv ext w -> vnodes w !! x = Some xn -> type xn <> V_TYPE_DIR -> attached d w -> vnodes w !! d = Some dn -> vfs xn = vfs dn -> plain k ->
  exists e w', tmpfs_link x d k w = Some (e, w') /\ inv ext w' /\
    match names w !! (d, k), memory w with
    | Some _, _ => e = EEXIST /\ names w' = names w
    | None, Some _ :: _ => e = 0 /\ names w' = <[(d, k) := x]> (names w)
    | None, _ => e = ENOMEM /\ names w' = names w
    end.
Proof.
  intros Hi Hx Hxt Hatt Hd Hv Hp. pose proof Hatt as (dn' & Hd' & Hdt & _). assert (dn' = dn) as -> by congruence.
  destruct (proj1 (inv_dom _ _ Hi d)) as [t Ht]; [by rewrite Hd|]. destruct (proj1 (inv_dom _ _ Hi x)) as [xt Hxtn]; [by rewrite Hx|].
  unfold tmpfs_link. rewrite Hx, Hd. cbn [mbind option_bind]. rewrite bool_decide_true by done. rewrite Hdt, Ht.
  rewrite (proj2 (Z.eqb_neq _ _) Hxt). cbn [negb Z.eqb V_TYPE_DIR Pos.eqb mbind option_bind].
  assert (Hkk : children t !! k = names w !! (d, k)) by (rewrite names_lookup, entries_lookup, Ht by done; done). rewrite Hkk.
  destruct (names w !! (d, k)) as [y|] eqn:Hk; [rewrite bool_decide_true by done; by eexists _, _|]. rewrite bool_decide_false by (by intros []).
  destruct (memory w) as [|[b|] m] eqn:Em.
  { rewrite (table_set_full d x k t w) by done. by eexists _, _. }
  2:{ rewrite (table_set_new d x k t None m w) by done. eexists _, _. split; [done|]. split; [|done]. by eapply inv_similar; [apply similar_memory|]. }
  rewrite (table_set_new d x k t (Some b) m w) by done. cbn [mbind option_bind Z.eqb negb]. unfold VOP_HOLD. cbn [vnodes set_tnode set_fs set_memory].
  rewrite Hx. cbn [mbind option_bind]. pose proof (inv_not_root _ _ _ _ Hi Hx Hxt) as Hxr.
  assert (Hi0 : inv ext (set_memory m w)) by (by eapply inv_similar; [apply similar_memory|]).
  destruct (hold_ok ext (set_memory m w) x xn Hi0 Hx) as (w1 & Hw1 & Hi1 & Hn1). unfold VOP_HOLD in Hw1. cbn [vnodes set_memory] in Hw1.
  rewrite Hx in Hw1. cbn [mbind option_bind] in Hw1. injection Hw1 as Hw1. pose proof (inv_ext _ _ Hi x).
  assert (Hd1 : attached d w1).
  { subst w1. destruct (decide (d = x)) as [->|]; [congruence|]. destruct Hatt as (dn0 & Hn & Hnt & Hna). exists dn0.
    unfold set_vnode. cbn [vnodes set_memory]. rewrite lookup_insert_ne by done. done. }
  assert (Ht1 : tnode d w1 = Some t) by (by subst w1).
  assert (Hi2 : inv ext (set_tnode d (with_children (<[k := x]> (children t)) t) w1)).
  { eapply inv_ext_eq; [|eapply (inv_insert _ w1 d t k x (with_refcount (refcount xn + 1) xn)); try done].
    - intros y. unfold add. repeat case_decide; lia.
    - by rewrite entries_lookup, Ht1; simpl; rewrite Hkk.
    - subst w1. apply vnode_set_eq.
    - rewrite add_eq. lia. }
  set (w2 := set_tnode d (with_children (<[k := x]> (children t)) t) w1) in *.
  change (set_vnode x (with_refcount (refcount xn + 1) xn) (set_tnode d (with_children (<[k := x]> (children t)) t) (set_memory m w)))
    with (set_tnode d (with_children (<[k := x]> (children t)) t) (set_vnode x (with_refcount (refcount xn + 1) xn) (set_memory m w))).
  rewrite Hw1. fold w2. destruct (tnode x w2) as [xt2|] eqn:Ext2.
  2:{ unfold w2 in Ext2. rewrite tnode_set in Ext2. case_decide; [done|]. subst w1. change (tnode x w = None) in Ext2. congruence. }
  cbn [mbind option_bind]. eexists _, _. split; [done|].
  assert (Hs : similar w2 (set_tnode x (with_attr (attr_nlinks (a_nlinks (attr xt2) + 1) (attr xt2)) xt2) w2)) by by apply similar_attr.
  split; [by eapply inv_similar|]. split; [done|]. rewrite (names_similar _ _ Hs). unfold w2. rewrite names_insert by done. by rewrite Hn1.
Qed.

Lemma tmpfs_symlink_ok ext w d k a path :
  inv ext w -> attached d w -> plain k -> fresh_at 1 w ->
  exists e w', tmpfs_symlink d k a path w = Some (e, w') /\ inv ext w' /\
    match memory w with
    | Some _ :: m =>
        match names w !! (d, k), made V_TYPE_LINK m with
        | Some _, _ => e = EEXIST /\ names w' = names w
        | None, Some x => e = 0 /\ names w' = <[(d, k) := x]> (names w)
        | None, None => e = ENOMEM /\ names w' = names w
        end
    | _ => e = ENOMEM /\ names w' = names w
    end.
Proof.
  intros Hi Hatt Hp Hfr. pose proof Hatt as (dn & Hd & Hdt & _). unfold tmpfs_symlink, take_memory. rewrite Hd. cbn [mbind option_bind].
  rewrite Hdt. cbn [Z.eqb negb V_TYPE_DIR Pos.eqb]. destruct (memory w) as [|[b|] m] eqn:Em; [by eexists _, _| |].
  2:{ rewrite bool_decide_true by done. eexists _, _. split; [done|]. split; [|done]. by eapply inv_similar; [apply similar_memory|]. }
  rewrite bool_decide_false by done. assert (Hi0 : inv ext (set_memory m w)) by (by eapply inv_similar; [apply similar_memory|]).
  assert (Hfr0 : fresh_at 0 (set_memory m w)) by (intros x Hx; apply Hfr; by rewrite Em).
  assert (Hatt0 : attached d (set_memory m w)) by (by eapply attached_similar; [apply similar_memory|]).
  destruct (create_file_ok ext (set_memory m w) d k a V_TYPE_LINK Hi0 Hatt0 Hp ltac:(done) Hfr0) as (e & r & w1 & Hrun & Hres).
  rewrite Hrun. cbn [mbind option_bind]. unfold create_result in Hres. change (names (set_memory m w)) with (names w) in Hres.
  change (memory (set_memory m w)) with m in Hres. destruct (names w !! (d, k)) as [y|].
  { destruct Hres as (-> & -> & ? & ?). by eexists _, _. }
  destruct (made V_TYPE_LINK m) as [x|]; [|destruct Hres as (-> & -> & ? & ?); by eexists _, _].
  destruct Hres as (-> & -> & Hi1 & Hn1 & (n & Hx & Hxr & _) & _). cbn [Z.eqb negb mbind option_bind].
  destruct (proj1 (inv_dom _ _ Hi1 x)) as [t Ht]; [by rewrite Hx|]. rewrite Ht. cbn [mbind option_bind]. unfold VOP_UNLOCK. cbn [vnodes set_tnode set_fs].
  rewrite Hx. cbn [mbind option_bind]. pose proof (similar_link w1 x t path Ht) as Hs1.
  pose proof (similar_lock (set_tnode x (with_link path t) w1) x n (lock n + 1) Hx) as Hs2. pose proof (similar_trans _ _ _ Hs1 Hs2) as Hs.
  destruct (create_undo ext (set_vnode x (with_lock (lock n + 1) n) (set_tnode x (with_link path t) w1)) x (with_lock (lock n + 1) n))
    as (w' & -> & Hi' & Hn'); [by eapply inv_similar|apply vnode_set_eq|done|apply Hi|].
  exists 0, w'. cbn [mbind option_bind]. split_and!; try done. by rewrite Hn', (names_similar _ _ Hs), Hn1.
Qed.

(** *** Renaming *)

Lemma set_tnode_twice d t1 t2 w : set_tnode d t2 (set_tnode d t1 w) = set_tnode d t2 w.
Proof. unfold set_tnode, set_fs. cbn. by rewrite insert_insert_eq. Qed.

(** Entering [x] under a name that may be taken by a file. *)
Lemma enter_ok ext w d t k x xn :
  inv ext w -> tnode d w = Some t -> attached d w -> plain k -> vnodes w !! x = Some xn -> is_root xn = false -> 1 <= ext x ->
  (forall y, children t !! k = Some y -> type <$> vnodes w !! y <> Some V_TYPE_DIR) ->
  inv (add x (-1) (match children t !! k with Some y => add y 1 ext | None => ext end)) (set_tnode d (with_children (<[k := x]> (children t)) t) w).
Proof.
  intros Hi Ht Hatt Hp Hx Hxr He Hold. destruct (children t !! k) as [y|] eqn:Hk.
  2:{ eapply inv_insert; try done. by rewrite entries_lookup, Ht. }
  assert (Hes : entries w !! (d, k) = Some y) by (by rewrite entries_lookup, Ht).
  assert (Hny : names w !! (d, k) = Some y) by (by rewrite names_lookup).
  destruct (named_live _ _ _ _ _ Hi Hp Hny) as (yn & yt & Hy & Hyt & _ & _). specialize (Hold y eq_refl). rewrite Hy in Hold.
  assert (Hi0 : inv (add y 1 ext) (set_tnode d (with_children (delete k (children t)) t) w)).
  { eapply inv_delete; try done. intros E. destruct Hold. cbn. by rewrite E. }
  set (w0 := set_tnode d (with_children (delete k (children t)) t) w) in *.
  assert (Ht0 : tnode d w0 = Some (with_children (delete k (children t)) t)) by (unfold w0; by rewrite tnode_set, decide_True).
  assert (Hatt0 : attached d w0).
  { destruct Hatt as (dn & Hd & Hdt & Ha). exists dn. split_and!; try done. destruct Ha as [|Ha]; [by left|right].
    unfold w0. rewrite entries_delete by done. eapply named_delete; [done| |done]. intros ->. assert (yn = dn) as -> by congruence.
    destruct Hold. cbn. by rewrite Hdt. }
  set (t0 := with_children (delete k (children t)) t) in *.
  replace (set_tnode d (with_children (<[k := x]> (children t)) t) w) with (set_tnode d (with_children (<[k := x]> (children t0)) t0) w0).
  2:{ unfold w0. rewrite set_tnode_twice. unfold t0, with_children. cbn [children attr link]. by rewrite insert_delete_eq. }
  eapply inv_insert; try done.
  - rewrite entries_lookup, Ht0. cbn. apply lookup_delete_eq.
  - unfold add. case_decide; lia.
Qed.

(** Moving the entry of [x]. *)
Lemma move_ok ext w s o d t k x :
  inv ext w -> tnode d w = Some t -> attached d w -> plain k -> plain o -> names w !! (s, o) = Some x -> (s, o) <> (d, k) -> 1 <= ext x ->
  (forall y, children t !! k = Some y -> type <$> vnodes w !! y <> Some V_TYPE_DIR) ->
  exists st, tnode s (set_tnode d (with_children (<[k := x]> (children t)) t) w) = Some st /\ children st !! o = Some x /\
    let w2 := set_tnode s (with_children (delete o (children st)) st) (set_tnode d (with_children (<[k := x]> (children t)) t) w) in
    inv (match children t !! k with Some y => add y 1 ext | None => ext end) w2 /\
    names w2 = <[(d, k) := x]> (delete (s, o) (names w)).
Proof.
  intros Hi Ht Hatt Hpk Hpo Hso Hne He Hold. destruct (named_live _ _ _ _ _ Hi Hpo Hso) as (xn & xt & Hx & Hxt & Hxr & Hes).
  pose proof (enter_ok ext w d t k x xn Hi Ht Hatt Hpk Hx Hxr He Hold) as Hi1.
  pose proof (entries_insert d t k x w Ht) as Hes1. pose proof (names_insert d t k x w Ht Hpk) as Hn1.
  set (w1 := set_tnode d (with_children (<[k := x]> (children t)) t) w) in *.
  assert (Heso : entries w1 !! (s, o) = Some x) by (by rewrite Hes1, lookup_insert_ne).
  rewrite entries_lookup in Heso. destruct (tnode s w1) as [st|] eqn:Hst; [|done]. cbn in Heso. exists st. split_and!; try done. cbn zeta.
  assert (Hes2 : entries w1 !! (s, o) = Some x) by (by rewrite entries_lookup, Hst). split.
  - destruct (proj1 (inv_dom _ _ Hi1 x)) as [xt1 Hxt1]; [by eexists|].
    eapply inv_ext_eq; [|eapply (inv_delete _ w1 s st o x xn xt1); try done].
    + intros y. unfold add. repeat case_decide; lia.
    + intros _. left. exists d, k. split; [|done]. by rewrite lookup_delete_ne, Hes1, lookup_insert_eq.
  - rewrite names_delete, Hn1 by done. by rewrite delete_insert_ne.
Qed.

Lemma tmpfs_rename_ok ext w s sn o src d dn k dst :
  inv ext w -> vnodes w !! s = Some sn -> type sn = V_TYPE_DIR -> attached d w -> vnodes w !! d = Some dn -> vfs sn = vfs dn ->
  plain o -> plain k -> (forall x, names w !! (s, o) = Some x -> x = src /\ 1 <= ext x) -> names w !! (d, k) = dst ->
  (forall y n, Some y = dst -> vnodes w !! y = Some n -> type n <> V_TYPE_DIR) ->
  (forall y n, y = src \/ Some y = dst -> vnodes w !! y = Some n -> vfsmounted n = None) ->
  exists e w', tmpfs_rename s src o d dst k w = Some (e, w') /\ inv ext w' /\
    match names w !! (s, o) with
    | None => e = ENOENT /\ names w' = names w
    | Some x =>
        if bool_decide ((s, o) = (d, k)) then e = 0 /\ names w' = names w
        else match dst, memory w with
             | None, ([] | None :: _) => e = ENOMEM /\ names w' = names w
             | _, _ => e = 0 /\ names w' = <[(d, k) := x]> (delete (s, o) (names w))
             end
    end.
Proof.
  intros Hi Hs Hst Hatt Hd Hv Hpo Hpk Hsrc Hdst Hfile Hmp. pose proof Hatt as (dn' & Hd' & Hdt & _). assert (dn' = dn) as -> by congruence.
  destruct (proj1 (inv_dom _ _ Hi s)) as [stn Hstn]; [by rewrite Hs|]. destruct (proj1 (inv_dom _ _ Hi d)) as [dt Hdtn]; [by rewrite Hd|].
  unfold tmpfs_rename. rewrite Hs, Hd. cbn [mbind option_bind]. rewrite bool_decide_true by done. rewrite Hst, Hdt. cbn [negb Z.eqb V_TYPE_DIR Pos.eqb orb].
  rewrite Hstn. cbn [mbind option_bind].
  assert (Hso : children stn !! o = names w !! (s, o)) by (rewrite names_lookup, entries_lookup, Hstn by done; done). rewrite Hso.
  destruct (names w !! (s, o)) as [x|] eqn:Hx; [|by eexists _, _]. destruct (Hsrc x eq_refl) as [<- Hex]. rewrite (bool_decide_true (x = x)) by done.
  cbn [passert mbind option_bind]. rewrite Hdtn. cbn [mbind option_bind].
  assert (Hdk : children dt !! k = dst) by (rewrite <- Hdst, names_lookup, entries_lookup, Hdtn by done; done). rewrite Hdk, (bool_decide_true (dst = dst)) by done.
  cbn [passert mbind option_bind]. destruct (named_live _ _ _ _ _ Hi Hpo Hx) as (xn & xt & Hxv & Hxt & Hxr & Hes). rewrite Hxv. cbn [mbind option_bind].
  rewrite (Hmp x xn) by auto. rewrite bool_decide_false by (by intros []). cbn [orb].
  assert (Hbusy : (match dst with Some y => on ← vnodes w !! y; Some (bool_decide (is_Some (vfsmounted on))) | None => Some false end) = Some false).
  { destruct dst as [y|]; [|done]. destruct (named_live _ _ _ _ _ Hi Hpk Hdst) as (yn & _ & Hy & _). rewrite Hy. cbn.
    rewrite (Hmp y yn) by auto. by rewrite bool_decide_false by (by intros []). }
  rewrite Hbusy. cbn [mbind option_bind].
  replace (bool_decide (s = d) && bool_decide (o = k)) with (bool_decide ((s, o) = (d, k))) by (repeat case_bool_decide; naive_solver).
  case_bool_decide as Hne; [by eexists _, _|].
  assert (Hold : forall y, children dt !! k = Some y -> type <$> vnodes w !! y <> Some V_TYPE_DIR).
  { intros y Hy. destruct (vnodes w !! y) as [yn|] eqn:E; [|done]. cbn. intros [= E']. by apply (Hfile y yn); [congruence|..]. }
  assert (Hmove : forall m', exists w', 
    (st ← tnode s (set_tnode d (with_children (<[k := x]> (children dt)) dt) (set_memory m' w));
     passert (bool_decide (is_Some (children st !! o)));;
     let w2 := set_tnode s (with_children (delete o (children st)) st) (set_tnode d (with_children (<[k := x]> (children dt)) dt) (set_memory m' w)) in
     w3 ← (match dst with Some y => release y w2 | None => Some w2 end);
     Some (0, w3)) = Some (0, w') /\ inv ext w' /\ names w' = <[(d, k) := x]> (delete (s, o) (names w))).
  { intros m'. destruct (move_ok ext (set_memory m' w) s o d dt k x) as (st & Hst' & Hsto & Hi2 & Hn2); try done.
    - by eapply inv_similar; [apply similar_memory|].
    - rewrite Hst'. cbn [mbind option_bind]. rewrite Hsto, bool_decide_true by done. cbn [passert mbind option_bind]. rewrite Hdk in Hi2.
      destruct dst as [y|]; [|cbn [mbind option_bind]; by eexists].
      destruct (named_live _ _ _ _ _ Hi Hpk Hdst) as (yn & yt & Hy & _ & Hyr & _).
      destruct (create_undo ext _ y yn Hi2 Hy Hyr ltac:(apply Hi)) as (w' & -> & ? & Hn'). exists w'. split_and!; try done. by rewrite Hn', Hn2. }
  destruct dst as [y|].
  - unfold table_set. rewrite Hdtn. cbn [mbind option_bind]. rewrite Hdk, bool_decide_true by done. cbn [mbind option_bind Z.eqb negb].
    destruct (Hmove (memory w)) as (w' & Hrun & ? & ?). replace (set_memory (memory w) w) with w in Hrun by (by destruct w).
    exists 0, w'. split; [exact Hrun|done].
  - destruct (memory w) as [|[b|] m] eqn:Em.
    + rewrite (table_set_full d x k dt w) by done. by eexists _, _.
    + rewrite (table_set_new d x k dt (Some b) m w) by done. cbn [mbind option_bind Z.eqb negb]. destruct (Hmove m) as (w' & Hrun & ? & ?).
      exists 0, w'. split; [exact Hrun|done].
    + rewrite (table_set_new d x k dt None m w) by done. eexists _, _. split; [done|]. split; [|done].
      by eapply inv_similar; [apply similar_memory|].
Qed.

(** ** Runs *)

Inductive op :=
  | Lookup (d : nat) (k : name_t)
  | Hold (x : nat)
  | Release (x : nat)
  | Create (d : nat) (k : name_t) (a : vattr_t) (ty : Z)
  | Unlink (d c : nat) (k : name_t)
  | Link (x d : nat) (k : name_t)
  | Symlink (d : nat) (k : name_t) (a : vattr_t) (path : name_t)
  | Rename (s src : nat) (o : name_t) (d : nat) (dst : option nat) (k : name_t)
  | Setattr (x : nat) (new : vattr_t) (which : Z)
  | Resize (x : nat) (newsize : Z).

Definition plain_result (r : option (Z * W)) : option (Z * option nat * W) := '(e, w) ← r; Some (e, None, w).

Definition exec (o : op) (w : W) : option (Z * option nat * W) :=
  match o with
  | Lookup d k => tmpfs_lookup d k w
  | Hold x => w ← VOP_HOLD x w; Some (0, None, w)
  | Release x => w ← VOP_RELEASE x w; Some (0, None, w)
  | Create d k a ty => tmpfs_create d k a ty w
  | Unlink d c k => plain_result (tmpfs_unlink d c k w)
  | Link x d k => plain_result (tmpfs_link x d k w)
  | Symlink d k a path => plain_result (tmpfs_symlink d k a path w)
  | Rename s src o d dst k => plain_result (tmpfs_rename s src o d dst k w)
  | Setattr x new which => w ← tmpfs_setattr x new which w; Some (0, None, w)
  | Resize x newsize => '(_, w) ← tmpfs_resize x newsize w; Some (0, None, w)
  end.

(** What the operation does to the name space: its result, the node it returns
    and the names that are left. *)
Definition spec (o : op) (w : W) : Z * option nat * gmap (nat * name_t) nat :=
  let ns := names w in
  match o with
  | Lookup d k => match ns !! (d, k) with Some x => (0, Some x, ns) | None => (ENOENT, None, ns) end
  | Create d k a ty =>
      match ns !! (d, k), made ty (memory w) with
      | Some _, _ => (EEXIST, None, ns)
      | None, Some x => (0, Some x, <[(d, k) := x]> ns)
      | None, None => (ENOMEM, None, ns)
      end
  | Unlink d c k =>
      match ns !! (d, k) with
      | None => (ENOENT, None, ns)
      | Some x =>
          if bool_decide (type <$> vnodes w !! x = Some V_TYPE_DIR) && populated x ns then (ENOTEMPTY, None, ns)
          else (0, None, delete (d, k) ns)
      end
  | Link x d k =>
      match ns !! (d, k), memory w with
      | Some _, _ => (EEXIST, None, ns)
      | None, Some _ :: _ => (0, None, <[(d, k) := x]> ns)
      | None, _ => (ENOMEM, None, ns)
      end
  | Symlink d k a path =>
      match memory w with
      | Some _ :: m =>
          match ns !! (d, k), made V_TYPE_LINK m with
          | Some _, _ => (EEXIST, None, ns)
          | None, Some x => (0, None, <[(d, k) := x]> ns)
          | None, None => (ENOMEM, None, ns)
          end
      | _ => (ENOMEM, None, ns)
      end
  | Rename s src o d dst k =>
      match ns !! (s, o) with
      | None => (ENOENT, None, ns)
      | Some x =>
          if bool_decide ((s, o) = (d, k)) then (0, None, ns)
          else match dst, memory w with
               | None, ([] | None :: _) => (ENOMEM, None, ns)
               | _, _ => (0, None, <[(d, k) := x]> (delete (s, o) ns))
               end
      end
  | Hold _ | Release _ | Setattr _ _ _ | Resize _ _ => (0, None, ns)
  end.

(** The references from outside after an operation. *)
Definition after (o : op) (r : option nat) (ext : nat -> Z) : nat -> Z :=
  match o, r with
  | Lookup _ _, Some x | Create _ _ _ _, Some x => add x 1 ext
  | Hold x, _ => add x 1 ext
  | Release x, _ => add x (-1) ext
  | _, _ => ext
  end.

(** The use of the operations: names have no leading dot, entries are made only
    in directories that have a name, a directory is made with memory at hand,
    only files are replaced, a reference is dropped by who has it, and the
    locks of nodes that are looked up are free. *)
Definition legal (ext : nat -> Z) (w : W) (o : op) : Prop :=
  match o with
  | Lookup d k => plain k /\ (exists n, vnodes w !! d = Some n /\ type n = V_TYPE_DIR) /\
      (forall c n, names w !! (d, k) = Some c -> vnodes w !! c = Some n -> 0 < lock n)
  | Hold x => is_Some (vnodes w !! x)
  | Release x => exists n, vnodes w !! x = Some n /\ 1 <= ext x /\ (is_root n = true -> 2 <= ext x)
  | Create d k a ty => plain k /\ attached d w /\ fresh_at 0 w /\ (ty = V_TYPE_DIR -> has_memory 5 (memory w))
  | Unlink d c k => plain k /\ (forall x, names w !! (d, k) = Some x -> x = c) /\
      (exists n, vnodes w !! d = Some n /\ type n = V_TYPE_DIR /\ vfsmounted n = None)
  | Link x d k => plain k /\ attached d w /\
      (exists xn dn, vnodes w !! x = Some xn /\ vnodes w !! d = Some dn /\ vfs xn = vfs dn /\ type xn <> V_TYPE_DIR)
  | Symlink d k a path => plain k /\ attached d w /\ fresh_at 1 w
  | Rename s src o d dst k => plain o /\ plain k /\ attached d w /\
      (exists sn dn, vnodes w !! s = Some sn /\ vnodes w !! d = Some dn /\ vfs sn = vfs dn /\ type sn = V_TYPE_DIR) /\
      (forall x, names w !! (s, o) = Some x -> x = src /\ 1 <= ext x) /\ names w !! (d, k) = dst /\
      (forall y n, Some y = dst -> vnodes w !! y = Some n -> type n <> V_TYPE_DIR) /\
      (forall y n, y = src \/ Some y = dst -> vnodes w !! y = Some n -> vfsmounted n = None)
  | Setattr x _ _ | Resize x _ => is_Some (vnodes w !! x)
  end.

Fixpoint run (os : list op) (w : W) : option W :=
  match os with
  | [] => Some w
  | o :: os => '(_, _, w) ← exec o w; run os w
  end.

Fixpoint legal_run (ext : nat -> Z) (w : W) (os : list op) : Prop :=
  match os with
  | [] => True
  | o :: os => legal ext w o /\ forall e r w', exec o w = Some (e, r, w') -> legal_run (after o r ext) w' os
  end.

Lemma tmpfs_exec_ok ext w o :
  inv ext w -> legal ext w o ->
  exists e r w', exec o w = Some (e, r, w') /\ (e, r, names w') = spec o w /\ inv (after o r ext) w'.
Proof.
  intros Hi Hl. destruct o as [d k|x|x|d k a ty|d c k|x d k|d k a path|s src o d dst k|x new which|x newsize]; cbn [legal exec spec after] in *.
  - destruct Hl as (Hp & (n & Hd & Ht) & Hlk). destruct (tmpfs_lookup_ok ext w d n k) as (e & c & w' & -> & Hn & Hres); try done.
    exists e, c, w'. split; [done|]. rewrite Hn. destruct (names w !! (d, k)); destruct Hres as (-> & -> & ?); done.
  - destruct Hl as [n Hx]. destruct (hold_ok ext w x n Hi Hx) as (w' & -> & ? & Hn). eexists _, _, _. split; [done|]. by rewrite Hn.
  - destruct Hl as (n & Hx & He & Hr). destruct (release_ok _ ext w x n (le_n _) Hi Hx He Hr) as (w' & Hrel & ? & Hn).
    change (VOP_RELEASE x w) with (release x w). rewrite Hrel. eexists _, _, _. split; [done|]. by rewrite Hn.
  - destruct Hl as (Hp & Hatt & Hf & Hm).
    assert (exists e r w', tmpfs_create d k a ty w = Some (e, r, w') /\ create_result ext w d k ty (memory w) e r w') as (e & r & w' & -> & Hres).
    { destruct (decide (ty = V_TYPE_DIR)) as [->|]; [apply create_dir_ok; auto|by apply create_file_ok]. }
    exists e, r, w'. split; [done|]. unfold create_result in Hres.
    destruct (names w !! (d, k)), (made ty (memory w)); destruct Hres as (-> & -> & ? & Hn); rewrite ?Hn; try done. by destruct Hn as [-> _].
  - destruct Hl as (Hp & Hc & (n & Hd & Ht & Hmp)). destruct (tmpfs_unlink_ok ext w d n c k) as (e & w' & -> & ? & Hres); try done.
    exists e, None, w'. split; [done|]. split; [|done]. destruct (names w !! (d, k)); [destruct (_ && _)|]; destruct Hres as [-> ->]; done.
  - destruct Hl as (Hp & Hatt & xn & dn & Hx & Hd & Hv & Ht). destruct (tmpfs_link_ok ext w x xn d dn k) as (e & w' & -> & ? & Hres); try done.
    exists e, None, w'. split; [done|]. split; [|done]. destruct (names w !! (d, k)), (memory w) as [|[] ?]; destruct Hres as [-> ->]; done.
  - destruct Hl as (Hp & Hatt & Hf). destruct (tmpfs_symlink_ok ext w d k a path) as (e & w' & -> & ? & Hres); try done.
    exists e, None, w'. split; [done|]. split; [|done].
    destruct (memory w) as [|[] m]; [|destruct (names w !! (d, k)), (made V_TYPE_LINK m)|]; destruct Hres as [-> ->]; done.
  - destruct Hl as (Hpo & Hpk & Hatt & (sn & dn & Hs & Hd & Hv & Ht) & Hsrc & Hdst & Hfile & Hmp).
    destruct (tmpfs_rename_ok ext w s sn o src d dn k dst) as (e & w' & -> & ? & Hres); try done.
    exists e, None, w'. split; [done|]. split; [|done].
    destruct (names w !! (s, o)); [destruct (bool_decide _); [|destruct dst, (memory w) as [|[] ?]]|]; destruct Hres as [-> ->]; done.
  - destruct (proj1 (inv_dom _ _ Hi x) Hl) as [t Ht]. unfold tmpfs_setattr. rewrite Ht. cbn [mbind option_bind]. eexists _, _, _. split; [done|].
    pose proof (similar_attr w x t (assign_attr which new (attr t)) Ht) as Hs. rewrite (names_similar _ _ Hs). split; [done|]. by eapply inv_similar.
  - destruct (proj1 (inv_dom _ _ Hi x) Hl) as [t Ht]. destruct Hl as [n Hx]. unfold tmpfs_resize. rewrite Hx, Ht. cbn [mbind option_bind].
    destruct (_ && _); eexists _, _, _; (split; [done|]); [|done].
    pose proof (similar_attr w x t (attr_size newsize (attr t)) Ht) as Hs. rewrite (names_similar _ _ Hs). split; [done|]. by eapply inv_similar.
Qed.

Lemma run_ok os : forall ext w, inv ext w -> legal_run ext w os -> exists ext' w', run os w = Some w' /\ inv ext' w'.
Proof.
  induction os as [|o os IH]; intros ext w Hi Hl; [by exists ext, w|]. destruct Hl as [Hl Hrest].
  destruct (tmpfs_exec_ok ext w o Hi Hl) as (e & r & w' & Hex & _ & Hi'). cbn [run]. rewrite Hex. cbn [mbind option_bind].
  by apply (IH (after o r ext)); [|eapply Hrest].
Qed.

(** ** Mounting *)

Definition empty_world (m : list (option nat)) (t : timespec_t) : W := mk_world ∅ ∅ [] m (mk_state ∅ ∅ 1 t).

(** A file system with its root. *)
Definition mounted (m : list (option nat)) (t : timespec_t) : option W :=
  '(_, v, w) ← tmpfs_mount (empty_world m t);
  v ← v;
  '(_, _, w) ← tmpfs_root v w;
  Some w.

Lemma mounted_ok v r b c m t :
  exists w, mounted (Some v :: Some r :: Some b :: Some c :: m) t = Some w /\ inv (add r 1 zero) w /\ names w = ∅ /\ attached r w /\ memory w = m.
Proof.
  set (w1 := set_vfs v (mk_vfs None None) (set_super v (mk_tmpfs 0 1) (set_currid 2 (empty_world (Some r :: Some b :: Some c :: m) t)))).
  unfold mounted. change (tmpfs_mount _) with (Some (0, Some v, w1)). cbn [mbind option_bind]. unfold tmpfs_root.
  assert (Hu : vfss w1 !! v = Some (mk_vfs None None)) by apply lookup_insert_eq.
  assert (Hsup : supers (fs w1) !! v = Some (mk_tmpfs 0 1)) by apply lookup_insert_eq. rewrite Hu. cbn [mbind option_bind root].
  destruct (newnode_dir v _ r b c m w1 eq_refl Hsup) as (a0 & u' & ->). cbn [mbind option_bind].
  rewrite vnode_add_node, tnode_add_node. cbn [mbind option_bind]. eexists. split; [done|]. set (w := set_tnode _ _ _).
  assert (Hv : vnodes w = {[r := mk_vnode 1 1 1 V_TYPE_DIR v None]}) by (unfold w; cbn -[insert]; by rewrite insert_insert_eq, insert_empty).
  assert (Ht : exists a, tnodes (fs w) = {[r := mk_tnode a {[dot := r]} []]}).
  { unfold w. cbn -[insert]. rewrite insert_insert_eq, insert_empty. by eexists. }
  destruct Ht as [a Ht]. assert (Hs : is_Some (supers (fs w) !! v)) by (unfold w; cbn -[insert lookup]; by rewrite lookup_insert_eq).
  assert (Hm : memory w = m) by done. clearbody w.
  assert (Hes : forall i j, entries w !! (i, j) = if decide (i = r /\ j = dot) then Some r else None).
  { intros i j. rewrite entries_lookup. unfold tnode. rewrite Ht. destruct (decide (i = r)) as [->|].
    - rewrite lookup_singleton_eq. cbn [mbind option_bind children]. destruct (decide (j = dot)) as [->|].
      + by rewrite lookup_singleton_eq, decide_True.
      + rewrite lookup_singleton_ne, decide_False by naive_solver. done.
    - rewrite lookup_singleton_ne, decide_False by naive_solver. done. }
  assert (Hlk : forall y, links y (entries w) = 0).
  { intros y. unfold links. replace (filter (counts y) (entries w)) with (∅ : gmap (nat * name_t) nat); [done|]. symmetry.
    apply map_eq. intros [i j]. rewrite lookup_empty. apply map_lookup_filter_None. right. intros z. rewrite Hes. case_decide as E; [|done].
    intros _ [_ Hne]. simpl in Hne. naive_solver. }
  assert (Hnm : names w = ∅).
  { apply map_eq. intros [i j]. rewrite lookup_empty. apply map_lookup_filter_None. right. intros z. rewrite Hes. case_decide as E; [|done].
    intros _ [_ Hne]. destruct E as [_ ->]. done. }
  assert (Hno : forall y, ~ named y (entries w)).
  { intros y (d & k & Hdk & Hp). rewrite <- names_lookup, Hnm in Hdk by done. done. }
  split_and!; try done.
  - split; unfold tnode; rewrite ?Hv, ?Ht; intros y; rewrite ?Hlk.
    + rewrite !lookup_singleton_is_Some. done.
    + intros n [<- <-]%lookup_singleton_Some. rewrite add_eq. done.
    + intros Hy%lookup_singleton_None. by rewrite add_ne.
    + unfold add, zero. case_decide; lia.
    + intros n t' [<- <-]%lookup_singleton_Some [_ <-]%lookup_singleton_Some. unfold node_ok. cbn [Z.eqb type V_TYPE_DIR Pos.eqb children]. split; [|done]. apply lookup_singleton_eq.
    + intros k x. rewrite Hes. case_decide as E; [|done]. intros _. left. tauto.
    + intros n [<- <-]%lookup_singleton_Some _. rewrite add_eq. split_and!; [done|done|apply Hno].
    + intros n [<- <-]%lookup_singleton_Some. done.
  - eexists. rewrite Hv, lookup_singleton_eq. split; [done|]. split; [done|]. by left.
Qed.

(** ** Creating a file by its path *)

Section paths.
Variable cred : option cred_t.
Variable proc_root : option nat.
Variable vfsroot : nat.

(** The parent as a lookup returns it. *)
Lemma parent_held ext w d dn m :
  calm w -> inv ext w -> vnodes w !! d = Some dn ->
  inv (add d 1 ext) (at_node d zero m w) /\ names (at_node d zero m w) = names w /\
  vnodes (at_node d zero m w) = <[d := with_lock 0 (with_refcount (refcount dn + 1) dn)]> (vnodes w).
Proof.
  intros Hcalm Hi Hd. destruct (Hcalm _ _ Hd) as [Hl _].
  assert (Hi0 : inv ext (set_memory m w)) by (by eapply inv_similar; [apply similar_memory|]).
  destruct (hold_lock_ok ext (set_memory m w) d dn Hi0 Hd ltac:(lia)) as (w1 & w2 & Hw1 & Hw2 & _ & Hi2 & _ & Hn2).
  assert (Hat : w2 = at_node d zero m w).
  { replace (set_memory m w) with (adj zero zero m w) in Hw1 by apply (adj_zero (set_memory m w)).
    rewrite hold_adj in Hw1 by done. injection Hw1 as <-. erewrite lock_adj in Hw2; [|done|unfold zero; lia]. injection Hw2 as <-. done. }
  subst w2. split_and!; try done. apply map_eq. intros y. unfold at_node. rewrite adj_vnode. destruct (decide (y = d)) as [->|].
  - rewrite lookup_insert_eq, Hd. cbn. rewrite !add_eq. unfold bump, with_lock, with_refcount, zero. cbn. do 2 f_equal. lia.
  - rewrite lookup_insert_ne by done. rewrite !add_ne by done. destruct (vnodes w !! y) as [[]|]; [|done]. cbn. unfold bump, zero. cbn.
    do 2 f_equal; lia.
Qed.

(** Dropping a reference that is not the last. *)
Lemma release_some ext w x n :
  inv ext w -> vnodes w !! x = Some n -> 1 < refcount n -> 1 <= ext x -> (is_root n = true -> 2 <= ext x) ->
  VOP_RELEASE x w = Some (set_vnode x (with_refcount (refcount n - 1) n) w) /\
  inv (add x (-1) ext) (set_vnode x (with_refcount (refcount n - 1) n) w).
Proof.
  intros Hi Hx Hc He Hr. unfold VOP_RELEASE. rewrite Hx. cbn [mbind option_bind]. destruct (Z.eqb_spec (refcount n - 1) 0); [lia|].
  split; [done|]. replace (refcount n - 1) with (refcount n + -1) by lia. apply inv_refcount; try done; try lia. intros E. specialize (Hr E). lia.
Qed.

Lemma unlock_run (w : W) x n : vnodes w !! x = Some n -> VOP_UNLOCK x w = Some (set_vnode x (with_lock (lock n + 1) n) w).
Proof. intros Hx. unfold VOP_UNLOCK. by rewrite Hx. Qed.

(** The end of [vfs_create]: the new node and its parent are let go. *)
Lemma let_go ext w x xn d dn :
  inv (add x 1 (add d 1 ext)) w -> x <> d -> vnodes w !! x = Some xn -> lock xn = 0 -> refcount xn = 2 -> is_root xn = false ->
  vnodes w !! d = Some dn -> lock dn = 0 -> 1 < refcount dn -> (forall y n, y <> x -> y <> d -> vnodes w !! y = Some n -> lock n = 1) ->
  (is_root dn = true -> 1 <= ext d) -> 0 <= ext d -> 0 <= ext x ->
  exists w', (w ← VOP_RELEASE d w; w ← (w ← VOP_UNLOCK x w; VOP_RELEASE x w); VOP_UNLOCK d w) = Some w' /\ inv ext w' /\ calm w' /\
    names w' = names w /\ type <$> vnodes w' !! x = Some (type xn).
Proof.
  intros Hi Hne Hx Hxl Hxc Hxr Hd Hdl Hdc Hother Hdr Hed Hex.
  destruct (release_some _ w d dn Hi Hd Hdc) as [-> Hi1]; [rewrite add_ne, add_eq by done; lia|rewrite add_ne, add_eq by done; intros E; specialize (Hdr E); lia|].
  cbn [mbind option_bind]. set (w1 := set_vnode d (with_refcount (refcount dn - 1) dn) w) in *.
  assert (Hx1 : vnodes w1 !! x = Some xn) by (unfold w1, set_vnode; cbn [vnodes]; by rewrite lookup_insert_ne).
  rewrite (unlock_run w1 x xn Hx1). cbn [mbind option_bind]. set (xn1 := with_lock (lock xn + 1) xn). set (w2 := set_vnode x xn1 w1).
  assert (Hs2 : similar w1 w2) by by apply similar_lock. assert (Hi2 : inv (add d (-1) (add x 1 (add d 1 ext))) w2) by by eapply inv_similar.
  destruct (release_some _ w2 x xn1 Hi2 (vnode_set_eq _ _ _)) as [-> Hi3]; [cbn; lia| |intros E; change (is_root xn = true) in E; congruence|].
  { rewrite add_ne, add_eq, add_ne by done. lia. }
  cbn [mbind option_bind]. set (xn2 := with_refcount (refcount xn1 - 1) xn1) in *. set (w3 := set_vnode x xn2 w2) in *.
  assert (Hd3 : vnodes w3 !! d = Some (with_refcount (refcount dn - 1) dn)).
  { unfold w3, w2, w1, set_vnode. cbn [vnodes]. rewrite !lookup_insert_ne, lookup_insert_eq by done. done. }
  rewrite (unlock_run w3 d _ Hd3). eexists. split; [done|].
  pose proof (similar_lock w3 d _ (lock (with_refcount (refcount dn - 1) dn) + 1) Hd3) as Hs4. set (w4 := set_vnode d _ w3) in *.
  assert (Hi4 : inv ext w4).
  { eapply inv_similar; [exact Hs4|]. eapply inv_ext_eq; [|exact Hi3]. intros y. unfold add. repeat case_decide; lia. }
  split_and!; [done| |done|].
  - intros y n Hy. split; [|pose proof (inv_count _ _ Hi4 y n Hy); lia]. revert Hy. unfold w4, w3, w2, w1, set_vnode. cbn [vnodes].
    intros [[<- <-]|[Hyd [[<- <-]|[Hyx [[<- <-]|[_ [[<- <-]|[_ Hy]]%lookup_insert_Some]]%lookup_insert_Some]]%lookup_insert_Some]]%lookup_insert_Some;
      cbn; try lia; try done. by eapply Hother.
  - unfold w4, w3, set_vnode. cbn [vnodes]. rewrite lookup_insert_ne, lookup_insert_eq by done. done.
Qed.

(** C38. Creating a file or directory by a path whose directory resolves and has
    no such name adds exactly that name, leaves every lock free and every
    reference accounted for. *)
Theorem vfs_create_makes ext w start s path cs last d k a ty x :
  calm w -> inv ext w -> path <> [] -> (length path <= 512)%nat -> top w start = Some s -> components path = cs ++ [last] -> plain last ->
  walk cred proc_root vfsroot w false 0 s cs d k -> attached d w -> tmpfs_grants cred (fs w) d V_TYPE_DIR V_ACCESS_WRITE = Some 0 ->
  names w !! (d, last) = None -> has_memory (S (S k)) (memory w) -> made ty (drop (S (S k)) (memory w)) = Some x -> vnodes w !! x = None ->
  (ty = V_TYPE_DIR -> has_memory 5 (drop (S (S k)) (memory w))) ->
  exists w', vfs_create cred proc_root vfsroot start path a ty false w = Some (0, None, w') /\ calm w' /\ inv ext w' /\
    names w' = <[(d, last) := x]> (names w) /\ type <$> vnodes w' !! x = Some ty.
Proof.
  intros Hcalm Hi Hp Hlen Hs Hcs Hpl Hw Hatt Hg Hno Hm Hx Hxn Hdm. pose proof Hatt as (dn & Hd & Hdt & _). destruct (Hcalm _ _ Hd) as [Hdl Hdc].
  destruct (has_memory_S _ _ Hm) as (c & m & Em & Hm1). rewrite Em in Hx, Hdm. cbn [drop] in Hx, Hdm. unfold vfs_create, take_memory. rewrite Em.
  rewrite bool_decide_true by done. rewrite (vfs_lookup_parent _ _ _ w m start s path _ cs last d dn k) by auto. cbn [mbind option_bind Z.eqb negb].
  destruct (parent_held ext w d dn (drop (S k) m) Hcalm Hi Hd) as (Hi1 & Hn1 & Hv1). set (w1 := at_node d zero (drop (S k) m) w) in *.
  assert (Hd1 : vnodes w1 !! d = Some (with_lock 0 (with_refcount (refcount dn + 1) dn))) by (by rewrite Hv1, lookup_insert_eq).
  rewrite (access_local w1 _ _ _ _ Hd1). cbn [type with_lock with_refcount grants tmpfs_laws]. change (fs w1) with (fs w). rewrite Hdt, Hg.
  cbn [mbind option_bind Z.eqb negb].
  assert (exists w2, tmpfs_create d last a ty w1 = Some (0, Some x, w2) /\ create_result (add d 1 ext) w1 d last ty (drop (S k) m) 0 (Some x) w2)
    as (w2 & Hcr & Hres).
  { assert (Hatt1 : attached d w1).
    { exists (with_lock 0 (with_refcount (refcount dn + 1) dn)). split_and!; try done. destruct Hatt as (dn' & Hd' & _ & Ha).
      assert (dn' = dn) as -> by congruence. destruct Ha; [by left|right]. by eapply named_names. }
    assert (Hf : fresh_at 0 w1).
    { intros y Hy. change (drop (S k) m !! 0%nat = Some (Some y)) in Hy. destruct (drop (S k) m) as [|[z|] ?]; try done. cbn in Hy. simplify_eq.
      assert (y = x) as -> by (unfold made in Hx; repeat case_match; congruence). rewrite Hv1, lookup_insert_ne by congruence. done. }
    assert (exists e r w2, tmpfs_create d last a ty w1 = Some (e, r, w2) /\ create_result (add d 1 ext) w1 d last ty (drop (S k) m) e r w2)
      as (e & r & w2 & Hcr & Hres).
    { destruct (decide (ty = V_TYPE_DIR)) as [->|]; [apply create_dir_ok; auto|by apply create_file_ok]. }
    exists w2. unfold create_result in *. rewrite Hn1, Hno, Hx in *. destruct Hres as (-> & -> & Hres). done. }
  cbn [vop_create tmpfs_vops]. rewrite Hcr. cbn [mbind option_bind Z.eqb negb]. unfold create_result in Hres. rewrite Hn1, Hno, Hx in Hres.
  destruct Hres as (_ & _ & Hi2 & Hn2 & (xn & Hxv & Hxr & Hxl & Hxc & Hxt) & Hk). assert (Hxd : x <> d) by congruence.
  pose proof (Hk d (not_eq_sym Hxd)) as Hkd. rewrite Hd1 in Hkd. destruct Hkd as (dn2 & Hd2 & Hdl2 & Hdc2 & Hdf2). cbn [lock refcount flags with_lock with_refcount] in Hdl2, Hdc2, Hdf2.
  pose proof (inv_ext _ _ Hi d). pose proof (inv_ext _ _ Hi x). destruct (let_go ext w2 x xn d dn2) as (w' & Hrun & Hi' & Hcalm' & Hn' & Ht'); try done; try lia.
  - intros y n Hyx Hyd Hy. specialize (Hk y Hyx). rewrite Hv1, lookup_insert_ne in Hk by done.
    destruct (vnodes w !! y) as [n1|] eqn:E1; [|congruence]. destruct Hk as (n2 & Hy2 & Hl2 & _). apply Hcalm in E1 as [? _]. congruence.
  - intros Hr. unfold is_root in Hr. rewrite Hdf2 in Hr. by destruct (inv_root _ _ Hi d dn Hd Hr) as (_ & ? & _).
  - exists w'. apply bind_Some in Hrun as (w3 & -> & Hrun). cbn [mbind option_bind]. apply bind_Some in Hrun as (w4 & Hw4 & Hw5). cbv beta in *.
    rewrite Hw4. cbn [mbind option_bind]. rewrite Hw5. cbn [mbind option_bind]. split_and!; try done; congruence.
Qed.
End paths.

(** ** Properties *)

(** C34. From a new file system on, every sequence of lookups, creations, links,
    renames, removals and releases that follows the rules of use completes, and
    the nodes stay well formed: exactly the directories have entries, among
    them their dot entries, every entry names a live node, every reference is
    counted, and a directory without a name is empty. *)
Theorem tmpfs_run_safe v r b c m t w os :
  mounted (Some v :: Some r :: Some b :: Some c :: m) t = Some w -> legal_run (add r 1 zero) w os ->
  exists ext' w', run os w = Some w' /\ inv ext' w'.
Proof.
  intros Hw Hl. destruct (mounted_ok v r b c m t) as (w0 & Hw0 & Hi & _). assert (w0 = w) as -> by congruence. by eapply run_ok.
Qed.


(** ** Instances *)

Definition sample_time : timespec_t := mk_timespec 0 0.
Definition sample_memory : list (option nat) := Some <$> seq 1 60.
Definition sample_world : W := default (empty_world [] sample_time) (mounted sample_memory sample_time).

(** The root, node 2, gets a directory [a], node 5, with a file [b], node 10,
    that is removed again. *)
Definition sample_run : list op :=
  [Create 2 [97] zero_attr V_TYPE_DIR; Create 5 [98] zero_attr V_TYPE_REGULAR; Unlink 5 10 [98]; Release 10].

Lemma plain_a c : (c =? 46) = false -> plain [c].
Proof. intros H. split; [done|]. intros [= ->]. done. Qed.

Lemma sample_legal : legal_run (add 2 1 zero) sample_world sample_run.
Proof.
  split.
  { split_and!; [by apply plain_a| | |].
    - eexists. split; [vm_compute; reflexivity|]. split; [done|]. left. done.
    - intros x Hx. vm_compute in Hx. injection Hx as <-. vm_compute. done.
    - intros _. split; [|vm_compute; lia]. vm_compute. repeat constructor; by eexists. }
  intros e1 r1 w1 H1. vm_compute in H1. injection H1 as <- <- <-. split.
  { split_and!; [by apply plain_a| | |done].
    - eexists. split; [vm_compute; reflexivity|]. split; [done|]. right. exists 2%nat, [97]. split; [vm_compute; reflexivity|by apply plain_a].
    - intros x Hx. vm_compute in Hx. injection Hx as <-. vm_compute. done. }
  intros e2 r2 w2 H2. vm_compute in H2. injection H2 as <- <- <-. split.
  { split_and!; [by apply plain_a| |].
    - intros x Hx. vm_compute in Hx. congruence.
    - eexists. split; [vm_compute; reflexivity|]. done. }
  intros e3 r3 w3 H3. vm_compute in H3. injection H3 as <- <- <-. split; [|done]. eexists. split; [vm_compute; reflexivity|].
  split; [vm_compute; done|]. done.
Qed.

Lemma tmpfs_run_safe_witness :
  legal_run (add 2 1 zero) sample_world sample_run /\ exists ext' w', run sample_run sample_world = Some w' /\ inv ext' w'.
Proof.
  split; [apply sample_legal|].
  apply (tmpfs_run_safe 1 2 3 4 (Some <$> seq 5 56) sample_time); [vm_compute; reflexivity|apply sample_legal].
Defined.

Lemma sample_inv : inv (add 2 1 zero) sample_world.
Proof.
  destruct (mounted_ok 1 2 3 4 (Some <$> seq 5 56) sample_time) as (w & Hw & Hi & _).
  replace sample_world with w; [done|]. unfold sample_world. change sample_memory with (Some 1%nat :: Some 2%nat :: Some 3%nat :: Some 4%nat :: (Some <$> seq 5 56)).
  by rewrite Hw.
Qed.


(** The result of an operation on a path in a world that allows it. *)
Definition created (path : name_t) (ty : Z) (w : W) : W :=
  match vfs_create None (Some 2%nat) 2%nat 2%nat path zero_attr ty false w with Some (_, _, w') => w' | None => w end.
Definition linked (dest path : name_t) (w : W) : W :=
  match vfs_link None (Some 2%nat) 2%nat 2%nat dest 2%nat path V_TYPE_LINK zero_attr w with Some (_, w') => w' | None => w end.

(** [/a] is a directory with a file [b] and a link [c] to it, [/d] a link to
    nothing. *)
Definition tree_world : W :=
  linked [101] [47; 100] (linked [98] [47; 97; 47; 99] (created [47; 97; 47; 98] V_TYPE_REGULAR (created [47; 97] V_TYPE_DIR sample_world))).

Lemma tree_calm : calm tree_world.
Proof.
  assert (H : map_Forall (fun _ n => lock n = 1 /\ 1 <= refcount n) (vnodes tree_world)); [|exact H].
  apply (bool_decide_unpack _). vm_compute. exact I.
Qed.

(** The lookup of [/a/../a/c] goes up through the root and follows the link. *)
Lemma tree_finds_a cred : cred = None -> finds cred 2 tree_world 2 [97] 2 7.
Proof. intros ->. eexists _, _, _. split_and!; try (vm_compute; reflexivity). done. Qed.

Lemma tree_finds_up cred : cred = None -> finds cred 2 tree_world 7 dotdot 7 2.
Proof. intros ->. eexists _, _, _. split_and!; try (vm_compute; reflexivity). done. Qed.

Lemma tree_finds_b cred : cred = None -> finds cred 2 tree_world 7 [98] 7 14.
Proof. intros ->. eexists _, _, _. split_and!; try (vm_compute; reflexivity). done. Qed.

Lemma tree_finds_c cred : cred = None -> finds cred 2 tree_world 7 [99] 7 19.
Proof. intros ->. eexists _, _, _. split_and!; try (vm_compute; reflexivity). done. Qed.

Ltac no_link := left; intros (n & Hn & Ht); vm_compute in Hn; injection Hn as <-; discriminate Ht.

Lemma tree_walk : walk None (Some 2%nat) 2 tree_world false 0 2 (components [47; 97; 47; 46; 46; 47; 97; 47; 99]) 14 2.
Proof.
  change (components _) with [[97]; dotdot; [97]; [99]].
  eapply walk_node; [by apply tree_finds_a|no_link|]. eapply walk_node; [by apply tree_finds_up|no_link|].
  eapply walk_node; [by apply tree_finds_a|no_link|].
  eapply (walk_link _ _ _ _ _ _ _ _ _ _ _ [98] 7%nat 14%nat _ 0 0);
    [by apply tree_finds_c|by eexists|by left|vm_compute; reflexivity|done|simpl; lia|lia|vm_compute; reflexivity| |apply walk_done].
  change (components [98]) with [[98]]. eapply walk_node; [by apply tree_finds_b|no_link|apply walk_done].
Qed.

Lemma vfs_lookup_resolves_witness :
  exists w', vfs_lookup None (Some 2%nat) 2 2 [47; 97; 47; 46; 46; 47; 97; 47; 99] false 0 tree_world = Some (0, Some 14%nat, None, w') /\
    held_locked 14 (drop 3 (memory tree_world)) tree_world w'.
Proof.
  apply (vfs_lookup_resolves None (Some 2%nat) 2 tree_world 2 2 [47; 97; 47; 46; 46; 47; 97; 47; 99] false 14 2);
    [apply tree_calm|done|simpl; lia|vm_compute; reflexivity|apply tree_walk|].
  split; [vm_compute; repeat constructor; by eexists|vm_compute; lia].
Defined.

Lemma vfs_lookup_missing_witness :
  vfs_lookup None (Some 2%nat) 2 2 [47; 97; 47; 122] false 0 tree_world = Some (ENOENT, None, None, set_memory (drop 1 (memory tree_world)) tree_world).
Proof.
  eapply (vfs_lookup_missing None (Some 2%nat) 2 tree_world 2 2 [47; 97; 47; 122] [[97]] [122] 7 _ 0);
    [apply tree_calm|done|simpl; lia|vm_compute; reflexivity|reflexivity|done| |vm_compute; reflexivity|reflexivity|vm_compute; reflexivity
    |vm_compute; reflexivity|].
  - eapply walk_node; [by apply tree_finds_a|no_link|apply walk_done].
  - split; [vm_compute; repeat constructor; by eexists|vm_compute; lia].
Defined.

Lemma vfs_lookup_terminates_witness :
  lookup_fuel None (Some 2%nat) 2 167 2 [47; 100] false VFS_LOOKUP_NOLINK tree_world = vfs_lookup None (Some 2%nat) 2 2 [47; 100] false VFS_LOOKUP_NOLINK tree_world.
Proof. apply (vfs_lookup_terminates None (Some 2%nat) 2 100). reflexivity. Defined.

(** A file made in the root of a new file system. *)
Lemma vfs_create_makes_witness :
  exists w', vfs_create None (Some 2%nat) 2 2 [47; 97] zero_attr V_TYPE_REGULAR false sample_world = Some (0, None, w') /\ calm w' /\
    inv (add 2 1 zero) w' /\ names w' = <[(2%nat, [97]) := 7%nat]> (names sample_world) /\ type <$> vnodes w' !! 7%nat = Some V_TYPE_REGULAR.
Proof.
  apply (vfs_create_makes None (Some 2%nat) 2 (add 2 1 zero) sample_world 2 2 [47; 97] [] [97] 2 0).
  - assert (H : map_Forall (fun _ n => lock n = 1 /\ 1 <= refcount n) (vnodes sample_world)); [|exact H].
    apply (bool_decide_unpack _). vm_compute. exact I.
  - apply sample_inv.
  - done.
  - simpl. lia.
  - vm_compute. reflexivity.
  - reflexivity.
  - by apply plain_a.
  - apply walk_done.
  - eexists. split; [vm_compute; reflexivity|]. split; [done|]. left. done.
  - vm_compute. reflexivity.
  - vm_compute. reflexivity.
  - split; [vm_compute; repeat constructor; by eexists|vm_compute; lia].
  - vm_compute. reflexivity.
  - vm_compute. reflexivity.
  - done.
Defined.

(** When a link leads nowhere, the lookup fails and releases the lock of the
    directory of the link twice, after which two threads can hold it. *)
Theorem vfs_dangling_link_unlocks :
  exists w w1 w2, vfs_lookup None (Some 2%nat) 2 2 [47; 100] false 0 tree_world = Some (ENOENT, None, None, w) /\
    VOP_LOCK 2 w = Some w1 /\ VOP_LOCK 2 w1 = Some w2.
Proof. eexists _, _, _. split_and!; vm_compute; reflexivity. Qed.

(** A directory that holds only names with a leading dot can be removed, and
    the system stops when it is freed. *)
Theorem tmpfs_dotfile_panics :
  exists w, run [Create 2 [97] zero_attr V_TYPE_DIR; Create 5 [46; 98] zero_attr V_TYPE_REGULAR; Unlink 2 5 [97]] sample_world = Some w /\
    names w !! (2%nat, [97]) = None /\ run [Release 5] w = None.
Proof. eexists. split_and!; vm_compute; reflexivity. Qed.

(** A file can be made in a directory that was removed while it is in use, and
    the system stops when the directory is freed. *)
Theorem tmpfs_removed_dir_panics :
  exists w, run [Create 2 [97] zero_attr V_TYPE_DIR; Unlink 2 5 [97]; Create 5 [98] zero_attr V_TYPE_REGULAR] sample_world = Some w /\
    run [Release 5] w = None.
Proof. eexists. split_and!; vm_compute; reflexivity. Qed.

(** Without the right to write, creating a file releases the lock of the
    directory twice. *)
Theorem vfs_create_denied_unlocks :
  exists w w1 w2,
    vfs_create (Some (mk_cred 1 1 1 1 1 1)) (Some 2%nat) 2 2 [47; 97] zero_attr V_TYPE_REGULAR false sample_world = Some (EACCES, None, w) /\
    VOP_LOCK 2 w = Some w1 /\ VOP_LOCK 2 w1 = Some w2.
Proof. eexists _, _, _. split_and!; vm_compute; reflexivity. Qed.
