(* ===== verification/Mmu.v ===== *)
(** * Page tables ([arch/x86-64/mmu.c], [arch/mmu.h])

    A page table is a tree of four levels of pages of 512 entries.  Physical
    memory maps the address of a page to its 512 words; the higher half direct
    map through which the kernel reads and writes tables is the identity here.
    The pages of the tables come from [pmm.c] through the interface [Frames]. *)

From S2P Require Import Prelude Errno DList Pmm.

Definition ADDRMASK : Z := 0x7ffffffffffff000.
Definition PTMASK : Z := 0x1ff000.
Definition PDMASK : Z := 0x3fe00000.
Definition PDPTMASK : Z := 0x7fc0000000.
Definition PML4MASK : Z := 0xff8000000000.

Definition ARCH_MMU_FLAGS_READ : Z := 1.
Definition ARCH_MMU_FLAGS_WRITE : Z := 2.
Definition ARCH_MMU_FLAGS_USER : Z := 4.
Definition ARCH_MMU_FLAGS_NOEXEC : Z := 2 ^ 63.
Definition ARCH_MMU_FLAGS_DIRTY : Z := 2 ^ 6.

Definition INTERMEDIATE_FLAGS : Z := Z.lor (Z.lor ARCH_MMU_FLAGS_WRITE ARCH_MMU_FLAGS_READ) ARCH_MMU_FLAGS_USER.

Definition FLAGS_MASK : Z :=
  Z.lor (Z.lor (Z.lor ARCH_MMU_FLAGS_WRITE ARCH_MMU_FLAGS_READ) ARCH_MMU_FLAGS_NOEXEC) ARCH_MMU_FLAGS_USER.

Definition DEPTH_PDPT : Z := 1.
Definition DEPTH_PD : Z := 2.
Definition DEPTH_PT : Z := 3.

(** What the tables ask of the page allocator: operations and, in
    [FramesLaws], what they do to the reference counts. *)
Class Frames (P : Type) := {
  allocpage : P -> option (option Z * P);
  release : Z -> P -> option P;
  hold : Z -> P -> option P;
  refs : P -> Z -> Z
}.

(** The address of a page of memory. *)
Definition page_address (a : Z) : Prop := 0 < a < 2 ^ 63 /\ a mod PAGE_SIZE = 0.

Class FramesLaws (P : Type) `{!Frames P} := {
  frames_ok : P -> Prop;
  refs_range : forall p a, frames_ok p -> 0 <= refs p a < 2 ^ 64;
  allocpage_ok : forall p, frames_ok p -> exists r p', allocpage p = Some (r, p') /\ frames_ok p' /\
    match r with
    | None => forall a, refs p' a = refs p a
    | Some n => page_address n /\ refs p n = 0 /\
        forall a, a mod PAGE_SIZE = 0 -> refs p' a = if bool_decide (a = n) then 1 else refs p a
    end;
  release_ok : forall p a, frames_ok p -> page_address a -> 0 < refs p a ->
    exists p', release a p = Some p' /\ frames_ok p' /\
      forall b, b mod PAGE_SIZE = 0 -> refs p' b = if bool_decide (b = a) then refs p a - 1 else refs p b;
  hold_ok : forall p a, frames_ok p -> page_address a -> 0 < refs p a < 2 ^ 64 - 1 ->
    exists p', hold a p = Some p' /\ frames_ok p' /\
      forall b, b mod PAGE_SIZE = 0 -> refs p' b = if bool_decide (b = a) then refs p a + 1 else refs p b
}.

(** A page after [memset] with zeros. *)
Definition zeroed : list Z := replicate 512 0.

(** [template] is the address of the page that new tables are copied from. *)
Record mmu (P : Type) := mk_mmu { mem : gmap Z (list Z); frames : P; template : Z }.
Arguments mk_mmu {P} _ _ _.
Arguments mem {P} _.
Arguments frames {P} _.
Arguments template {P} _.

(** Entry [i] of the table at [t], and its update. *)
Definition rd (m : gmap Z (list Z)) (t : Z) (i : nat) : option Z := es ← m !! t; es !! i.

Definition wr (m : gmap Z (list Z)) (t : Z) (i : nat) (e : Z) : option (gmap Z (list Z)) :=
  es ← m !! t;
  _ ← passert (i <? length es)%nat;
  Some (<[t := <[i := e]> es]> m).

Definition next (entry : Z) : option Z := if entry =? 0 then None else Some (Z.land entry ADDRMASK).

Definition ptoffset (v : Z) : nat := Z.to_nat (Z.shiftr (Z.land v PTMASK) 12).
Definition pdoffset (v : Z) : nat := Z.to_nat (Z.shiftr (Z.land v PDMASK) 21).
Definition pdptoffset (v : Z) : nat := Z.to_nat (Z.shiftr (Z.land v PDPTMASK) 30).
Definition pml4offset (v : Z) : nat := Z.to_nat (Z.shiftr (Z.land v PML4MASK) 39).

(** The place of the entry of a page: table and index, if there is a table. *)
Definition get_page (m : gmap Z (list Z)) (top v : Z) : option (option (Z * nat)) :=
  e4 ← rd m top (pml4offset v);
  match next e4 with
  | None => Some None
  | Some pdpt =>
      e3 ← rd m pdpt (pdptoffset v);
      match next e3 with
      | None => Some None
      | Some pd =>
          e2 ← rd m pd (pdoffset v);
          match next e2 with
          | None => Some None
          | Some pt => Some (Some (pt, ptoffset v))
          end
      end
  end.

Section ops.
Context {P : Type} `{!Frames P}.
Implicit Types (w : mmu P) (m : gmap Z (list Z)).

(** The table that entry [i] of [t] leads to, allocated and cleared when there
    is none; no table when memory is exhausted. *)
Definition next_alloc (t : Z) (i : nat) w : option (option Z * mmu P) :=
  e ← rd (mem w) t i;
  match next e with
  | Some t' => Some (Some t', w)
  | None =>
      '(r, p) ← allocpage (frames w);
      match r with
      | None => Some (None, mk_mmu (mem w) p (template w))
      | Some a =>
          m ← wr (mem w) t i (Z.lor a INTERMEDIATE_FLAGS);
          Some (Some a, mk_mmu (<[a := zeroed]> m) p (template w))
      end
  end.

Definition put (t : Z) (i : nat) (e : Z) w : option (bool * mmu P) :=
  m ← wr (mem w) t i e; Some (true, mk_mmu m (frames w) (template w)).

Definition add_page (top v entry depth : Z) w : option (bool * mmu P) :=
  if depth =? DEPTH_PDPT then put top (pml4offset v) entry w
  else
    '(r, w) ← next_alloc top (pml4offset v) w;
    match r with
    | None => Some (false, w)
    | Some pdpt =>
        if depth =? DEPTH_PD then put pdpt (pdptoffset v) entry w
        else
          '(r, w) ← next_alloc pdpt (pdptoffset v) w;
          match r with
          | None => Some (false, w)
          | Some pd =>
              if depth =? DEPTH_PT then put pd (pdoffset v) entry w
              else
                '(r, w) ← next_alloc pd (pdoffset v) w;
                match r with
                | None => Some (false, w)
                | Some pt => put pt (ptoffset v) entry w
                end
          end
    end.

Definition arch_mmu_map (table paddr v flags : Z) w : option (bool * mmu P) :=
  add_page table v (Z.lor (Z.land paddr ADDRMASK) flags) 0 w.

(** A write through the pointer [get_page] returned. *)
Definition set_entry (table v : Z) (g : Z -> Z) w : option (mmu P) :=
  r ← get_page (mem w) table v;
  match r with
  | None => Some w
  | Some (t, i) =>
      e ← rd (mem w) t i;
      m ← wr (mem w) t i (g e);
      Some (mk_mmu m (frames w) (template w))
  end.

Definition arch_mmu_unmap (table v : Z) w : option (mmu P) := set_entry table v (fun _ => 0) w.

Definition arch_mmu_remap (table paddr v flags : Z) w : option (mmu P) :=
  set_entry table v (fun e => Z.lor (Z.land (if paddr =? 0 then e else paddr) ADDRMASK) flags) w.

(** The entry of a page, if there is a table for it. *)
Definition entry_of (table v : Z) w : option (option Z) :=
  r ← get_page (mem w) table v;
  match r with
  | None => Some None
  | Some (t, i) => e ← rd (mem w) t i; Some (Some e)
  end.

Definition arch_mmu_getphysical (table v : Z) w : option Z :=
  r ← entry_of table v w; Some (match r with None => 0 | Some e => Z.land e ADDRMASK end).

Definition arch_mmu_ispresent (table v : Z) w : option bool :=
  r ← entry_of table v w; Some (match r with None => false | Some e => negb (e =? 0) end).

Definition arch_mmu_iswritable (table v : Z) w : option bool :=
  r ← entry_of table v w; Some (match r with None => false | Some e => has e ARCH_MMU_FLAGS_WRITE end).

Definition arch_mmu_isdirty (table v : Z) w : option bool :=
  r ← entry_of table v w; Some (match r with None => false | Some e => has e ARCH_MMU_FLAGS_DIRTY end).

Definition arch_mmu_getflags (table v : Z) w : option (option Z) :=
  r ← entry_of table v w; Some (match r with None => None | Some e => Some (Z.land e FLAGS_MASK) end).

Definition arch_mmu_newtable w : option (option Z * mmu P) :=
  '(r, p) ← allocpage (frames w);
  match r with
  | None => Some (None, mk_mmu (mem w) p (template w))
  | Some t =>
      es ← mem w !! template w;
      Some (Some t, mk_mmu (<[t := es]> (mem w)) p (template w))
  end.

(** Tables are only read while they are destroyed; [depth] is the number of
    levels below this one. *)
Fixpoint destroy_entries (below : Z -> P -> option P) (es : list Z) (p : P) : option P :=
  match es with
  | [] => Some p
  | e :: es' =>
      let addr := Z.land e ADDRMASK in
      if addr =? 0 then destroy_entries below es' p
      else p ← below addr p; p ← release addr p; destroy_entries below es' p
  end.

Fixpoint destroy m (depth : nat) (table : Z) (p : P) : option P :=
  es ← m !! table;
  destroy_entries (match depth with O => fun _ p => Some p | S d => destroy m d end)
    (take (if (depth =? 3)%nat then 256 else 512) es) p.

Definition arch_mmu_destroytable (table : Z) w : option (mmu P) :=
  p ← destroy (mem w) 3 table (frames w);
  p ← release table p;
  Some (mk_mmu (mem w) p (template w)).

End ops.

(** ** Entries *)

Lemma zeroed_length : length zeroed = 512%nat.
Proof. apply length_replicate. Qed.

Lemma zeroed_lookup i e : zeroed !! i = Some e -> e = 0.
Proof. by intros [-> _]%lookup_replicate_1. Qed.

Lemma zeroed_lt i : (i < 512)%nat -> zeroed !! i = Some 0.
Proof. intros. by apply lookup_replicate_2. Qed.

#[global] Opaque zeroed.

Lemma land_addr a : page_address a -> Z.land a ADDRMASK = a.
Proof.
  intros [R M]. unfold PAGE_SIZE in M. apply Z.mod_divide in M as [q ->]; [|lia].
  change 4096 with (2 ^ 12) in *. rewrite <- Z.shiftl_mul_pow2 by lia.
  change ADDRMASK with (Z.shiftl (Z.ones 51) 12). rewrite <- Z.shiftl_land.
  rewrite Z.land_ones by lia. rewrite Z.mod_small; [done|]. lia.
Qed.

Lemma lor_table a : page_address a -> next (Z.lor a INTERMEDIATE_FLAGS) = Some a.
Proof.
  intros A. unfold next. destruct (Z.eqb_spec (Z.lor a INTERMEDIATE_FLAGS) 0) as [E|_].
  - apply Z.lor_eq_0_iff in E as [-> _]. destruct A. lia.
  - rewrite Z.land_lor_distr_l, (land_addr a) by done. change (Z.land INTERMEDIATE_FLAGS ADDRMASK) with 0.
    by rewrite Z.lor_0_r.
Qed.

Lemma offset_lt v k n : 0 <= k -> (Z.to_nat (Z.shiftr (Z.land v (Z.shiftl (Z.ones 9) k)) n) < 512)%nat \/ n <> k.
Proof.
  intros Hk. destruct (decide (n = k)) as [->|]; [left|by right].
  rewrite Z.shiftr_land, Z.shiftr_shiftl_l, Z.sub_diag, Z.shiftl_0_r, Z.land_ones by lia.
  pose proof (Z.mod_pos_bound (Z.shiftr v k) (2 ^ 9)). lia.
Qed.

(** The four indices of an address. *)
Definition path (v : Z) : list nat := [pml4offset v; pdptoffset v; pdoffset v; ptoffset v].

Lemma path_lt v i : i ∈ path v -> (i < 512)%nat.
Proof.
  unfold path. rewrite !elem_of_cons, elem_of_nil.
  assert (H : forall k, 0 <= k -> (Z.to_nat (Z.shiftr (Z.land v (Z.shiftl (Z.ones 9) k)) k) < 512)%nat)
    by (intros k Hk; by destruct (offset_lt v k k Hk)).
  intros [->|[->|[->|[->|[]]]]]; [apply (H 39)|apply (H 30)|apply (H 21)|apply (H 12)]; lia.
Qed.

Lemma offset_div v k : 0 <= k -> Z.shiftr (Z.land v (Z.shiftl (Z.ones 9) k)) k = (v / 2 ^ k) mod 512.
Proof.
  intros Hk. rewrite Z.shiftr_land, Z.shiftr_shiftl_l, Z.sub_diag, Z.shiftl_0_r, Z.land_ones by lia.
  by rewrite Z.shiftr_div_pow2.
Qed.

(** Below the kernel's half, an address is its path. *)
Lemma path_inj v v' : 0 <= v < 2 ^ 47 -> 0 <= v' < 2 ^ 47 -> v mod PAGE_SIZE = 0 -> v' mod PAGE_SIZE = 0 ->
  path v = path v' -> v = v'.
Proof.
  assert (D : forall v, 0 <= v -> v mod PAGE_SIZE = 0 -> exists a b c i, path v = [Z.to_nat a; Z.to_nat b; Z.to_nat c; Z.to_nat i] /\
    0 <= a < 512 /\ 0 <= b < 512 /\ 0 <= c < 512 /\ 0 <= i < 512 /\
    v = 4096 * (i + 512 * (c + 512 * (b + 512 * (a + 512 * (v / 2 ^ 48)))))).
  { intros u Hu Mu. exists ((u / 2 ^ 39) mod 512), ((u / 2 ^ 30) mod 512), ((u / 2 ^ 21) mod 512), ((u / 2 ^ 12) mod 512).
    split; [unfold path, pml4offset, pdptoffset, pdoffset, ptoffset; rewrite <- !offset_div by lia; done|].
    pose proof (Z.mod_pos_bound (u / 2 ^ 39) 512). pose proof (Z.mod_pos_bound (u / 2 ^ 30) 512).
    pose proof (Z.mod_pos_bound (u / 2 ^ 21) 512). pose proof (Z.mod_pos_bound (u / 2 ^ 12) 512).
    split_and!; try lia. pose proof (Z.div_mod u 4096 ltac:(lia)) as E0. unfold PAGE_SIZE in Mu.
    pose proof (Z.div_mod (u / 2 ^ 12) 512 ltac:(lia)) as E1. rewrite Z.div_div in E1 by lia.
    pose proof (Z.div_mod (u / 2 ^ 21) 512 ltac:(lia)) as E2. rewrite Z.div_div in E2 by lia.
    pose proof (Z.div_mod (u / 2 ^ 30) 512 ltac:(lia)) as E3. rewrite Z.div_div in E3 by lia.
    pose proof (Z.div_mod (u / 2 ^ 39) 512 ltac:(lia)) as E4. rewrite Z.div_div in E4 by lia.
    change (2 ^ 12 * 512) with (2 ^ 21) in E1. change (2 ^ 21 * 512) with (2 ^ 30) in E2.
    change (2 ^ 30 * 512) with (2 ^ 39) in E3. change (2 ^ 39 * 512) with (2 ^ 48) in E4. change (2 ^ 12) with 4096 in *. lia. }
  intros Hv Hv' M M' E. destruct (D v) as (a & b & c & i & P1 & ? & ? & ? & ? & E1); [lia|done|].
  destruct (D v') as (a' & b' & c' & i' & P2 & ? & ? & ? & ? & E2); [lia|done|].
  assert (v / 2 ^ 48 = 0) as Z1 by (apply Z.div_small; lia). assert (v' / 2 ^ 48 = 0) as Z2 by (apply Z.div_small; lia).
  rewrite P1, P2 in E. injection E as Ea Eb Ec Ei. apply Z2Nat.inj in Ea, Eb, Ec, Ei; try lia.
Qed.

Lemma path_user v : 0 <= v < 2 ^ 47 -> (pml4offset v < 256)%nat.
Proof.
  intros Hv. unfold pml4offset. assert (E : Z.shiftr (Z.land v PML4MASK) 39 = (v / 2 ^ 39) mod 512) by (apply (offset_div v 39); lia).
  rewrite E. assert (0 <= v / 2 ^ 39 < 256) by (split; [apply Z.div_pos; lia|apply Z.div_lt_upper_bound; lia]).
  rewrite Z.mod_small by lia. lia.
Qed.

#[global] Opaque ptoffset pdoffset pdptoffset pml4offset.

(** ** Walking down the tree *)

Fixpoint walk (m : gmap Z (list Z)) (t : Z) (ks : list nat) : option (option (Z * nat)) :=
  match ks with
  | [] => None
  | i :: ks' =>
      match ks' with
      | [] => Some (Some (t, i))
      | _ => e ← rd m t i; match next e with None => Some None | Some t' => walk m t' ks' end
      end
  end.

Lemma get_page_walk m t v : get_page m t v = walk m t (path v).
Proof. done. Qed.

(** The entry found along a path; [0] where there is no table. *)
Definition reach (m : gmap Z (list Z)) (t : Z) (ks : list nat) : Z :=
  match walk m t ks with Some (Some (t', i)) => default 0 (rd m t' i) | _ => 0 end.

(** Entry of the page of [v] in the table [r]: what the processor sees. *)
Definition translate {P} (w : mmu P) (r v : Z) : Z := reach (mem w) r (path v).

(** ** The invariant

    [G] says, for every page that serves as a table, whose it is (a top table,
    or nobody's in particular for the kernel's half) and by which indices it
    is reached. *)
Definition owner (r : Z) (ks : list nat) : option Z :=
  match ks with i :: _ => if (i <? 256)%nat then Some r else None | [] => Some r end.

(** Label of the table below index [i] of a table labelled [x]. *)
Definition child (t : Z) (x : option Z * list nat) (i : nat) : option Z * list nat :=
  match x with (o, []) => (owner t [i], [i]) | (o, ks) => (o, ks ++ [i]) end.

(** [bt] says that the kernel's half of the template is complete, as it is
    once [arch_mmu_init] has run its first loop; tables are only created then. *)
Section inv.
Context {P : Type} `{!Frames P, !FramesLaws P} {bt : bool}.
Implicit Types (w : mmu P) (m : gmap Z (list Z)) (G : gmap Z (option Z * list nat)).

Record node_ok m G (t : Z) (x : option Z * list nat) : Prop := {
  n_addr : page_address t;
  n_len : (length x.2 <= 3)%nat;
  n_page : exists es, m !! t = Some es /\ length es = 512%nat;
  n_root : x.2 = [] -> x.1 = Some t;
  n_next : forall i e, (length x.2 < 3)%nat -> rd m t i = Some e -> e <> 0 ->
    exists t', next e = Some t' /\ G !! t' = Some (child t x i)
}.

(** Some entry leads to the table [u]. *)
Definition has_parent m G (u : Z) (y : option Z * list nat) : Prop :=
  exists t x i e, G !! t = Some x /\ (length x.2 < 3)%nat /\ (i < 512)%nat /\ y = child t x i /\
    rd m t i = Some e /\ e <> 0 /\ next e = Some u.

Record mmu_ok w G : Prop := {
  m_frames : frames_ok (frames w);
  m_node : forall t x, G !! t = Some x -> node_ok (mem w) G t x;
  m_ref : forall t x, G !! t = Some x -> refs (frames w) t = 1;
  m_template : G !! template w = Some (Some (template w), []);
  m_low : forall i, (i < 256)%nat -> rd (mem w) (template w) i = Some 0;
  m_kernel : forall r i, G !! r = Some (Some r, []) -> (256 <= i < 512)%nat ->
    rd (mem w) r i = rd (mem w) (template w) i /\ (bt = true -> rd (mem w) r i <> Some 0);
  m_boot : bt = false -> forall r, G !! r = Some (Some r, []) -> r = template w;
  m_parent : forall u y, G !! u = Some y -> y.2 <> [] -> has_parent (mem w) G u y
}.

Lemma unused_table w G a : mmu_ok w G -> refs (frames w) a = 0 -> G !! a = None.
Proof. intros O Ra. destruct (G !! a) as [y|] eqn:Ga; [|done]. pose proof (m_ref _ _ O _ _ Ga). lia. Qed.

Lemma node_rd m G t x i : node_ok m G t x -> (i < 512)%nat -> exists e, rd m t i = Some e.
Proof.
  intros N Hi. destruct (n_page _ _ _ _ N) as (es & E & L). unfold rd. rewrite E. cbn [mbind option_bind].
  apply lookup_lt_is_Some. lia.
Qed.

(** A walk from a table labelled [x] ends at a missing table or in one whose
    label is [x] followed by the path. *)
Definition descend (t : Z) (x : option Z * list nat) (ks : list nat) : option Z * list nat :=
  match ks with
  | [] => x
  | i :: ks' => ((child t x i).1, (child t x i).2 ++ ks')
  end.

Lemma walk_ok m G ks : forall t x,
  (forall t x, G !! t = Some x -> node_ok m G t x) -> G !! t = Some x -> ks <> [] ->
  (length x.2 + length ks = 4)%nat -> (forall i, i ∈ ks -> (i < 512)%nat) ->
  walk m t ks = Some None \/
  exists t' i e, walk m t ks = Some (Some (t', i)) /\ last ks = Some i /\
    G !! t' = Some (descend t x (removelast ks)) /\ rd m t' i = Some e.
Proof.
  induction ks as [|i ks IH]; intros t x N Gt Ne L B; [done|].
  destruct (node_rd _ _ _ _ i (N _ _ Gt)) as [e E]; [by apply B, list_elem_of_here|].
  destruct ks as [|j ks].
  - right. exists t, i, e. split_and!; done.
  - change (walk m t (i :: j :: ks)) with
      (e ← rd m t i; match next e with None => Some None | Some t' => walk m t' (j :: ks) end).
    rewrite E. cbn [mbind option_bind]. destruct (decide (e = 0)) as [->|Ne0]; [by left|].
    destruct (n_next _ _ _ _ (N _ _ Gt) i e) as (t' & Nx & G'); [simpl in L; lia|done|done|].
    rewrite Nx. destruct (IH t' (child t x i)) as [H|(u & k & f & W & La & Gu & R)]; try done.
    + destruct x as [o [|a js]]; simpl in *; rewrite ?length_app; simpl in *; lia.
    + intros k Hk. apply B. by apply elem_of_cons; right.
    + by left.
    + right. exists u, k, f. split_and!; [done|done| |done]. rewrite Gu. f_equal.
      change (removelast (i :: j :: ks)) with (i :: removelast (j :: ks)).
      destruct x as [o [|a js]]; cbn [child descend]; destruct (removelast (j :: ks)); simpl; rewrite ?app_nil_r; try done;
        by rewrite <- ?app_assoc.
Qed.

(** ** Writing one entry *)

Lemma wr_ok m t i e es :
  m !! t = Some es -> (i < length es)%nat ->
  wr m t i e = Some (<[t := <[i := e]> es]> m) /\
  forall u k, rd (<[t := <[i := e]> es]> m) u k = if bool_decide (u = t /\ k = i) then Some e else rd m u k.
Proof.
  intros E L. unfold wr, rd. rewrite E. cbn [mbind option_bind]. split.
  - destruct (Nat.ltb_spec i (length es)); [done|lia].
  - intros u k. destruct (decide (u = t)) as [->|Ne].
    + rewrite lookup_insert_eq. cbn [mbind option_bind]. destruct (decide (k = i)) as [->|Nk].
      * rewrite bool_decide_true by done. by apply list_lookup_insert_eq.
      * rewrite bool_decide_false by tauto. rewrite list_lookup_insert_ne by done. by rewrite E.
    + rewrite bool_decide_false by tauto. by rewrite lookup_insert_ne.
Qed.

Lemma rd_insert_ne m a es u k : u <> a -> rd (<[a := es]> m) u k = rd m u k.
Proof. intros Ne. unfold rd. by rewrite lookup_insert_ne. Qed.

(** Walks read no table of the last level. *)
Lemma walk_same m m' G ks : forall t x,
  (forall t x, G !! t = Some x -> node_ok m G t x) -> G !! t = Some x ->
  (length x.2 + length ks = 4)%nat ->
  (forall t x i, G !! t = Some x -> (length x.2 < 3)%nat -> rd m' t i = rd m t i) ->
  walk m' t ks = walk m t ks.
Proof.
  induction ks as [|i ks IH]; intros t x N Gt L S; [done|]. destruct ks as [|j ks]; [done|].
  change (walk ?m t (i :: j :: ks)) with
    (e ← rd m t i; match next e with None => Some None | Some t' => walk m t' (j :: ks) end).
  rewrite (S t x) by (simpl in *; (done || lia)). destruct (rd m t i) as [e|] eqn:E; [|done]. cbn [mbind option_bind].
  destruct (decide (e = 0)) as [->|Ne0]; [done|].
  destruct (n_next _ _ _ _ (N _ _ Gt) i e) as (t' & Nx & G'); [simpl in L; lia|done|done|].
  rewrite Nx. apply (IH t' (child t x i)); try done.
  destruct x as [o [|a js]]; simpl in *; rewrite ?length_app; simpl in *; lia.
Qed.

Lemma reach_zero m a ks : m !! a = Some zeroed -> reach m a ks = 0.
Proof.
  intros E. assert (Z : forall i, rd m a i = Some 0 \/ rd m a i = None).
  { intros i. unfold rd. rewrite E. cbn [mbind option_bind]. destruct (decide (i < 512)%nat).
    - left. by apply zeroed_lt.
    - right. apply lookup_ge_None. rewrite zeroed_length. lia. }
  unfold reach. destruct ks as [|i ks]; [done|].
  destruct ks as [|j ks]; simpl; destruct (Z i) as [-> | ->]; done.
Qed.

(** A new, empty table changes nothing that can be reached. *)
Lemma reach_grow m m' G t x i a ks : forall u y,
  (forall t x, G !! t = Some x -> node_ok m G t x) -> G !! u = Some y -> ks <> [] ->
  (length y.2 + length ks = 4)%nat ->
  G !! t = Some x -> (length x.2 < 3)%nat -> rd m t i = Some 0 -> page_address a ->
  m' !! a = Some zeroed ->
  (forall u k, is_Some (G !! u) -> rd m' u k = if bool_decide (u = t /\ k = i) then Some (Z.lor a INTERMEDIATE_FLAGS) else rd m u k) ->
  reach m' u ks = reach m u ks.
Proof.
  induction ks as [|k ks IH]; intros u y N Gu Ne L Gt Lx R0 A E S; [done|]. destruct ks as [|j ks].
  - unfold reach. cbn [walk]. rewrite (S u k) by done.
    rewrite bool_decide_false; [done|]. intros [-> _]. rewrite Gu in Gt. injection Gt as ->. simpl in L. lia.
  - assert (St : forall m, reach m u (k :: j :: ks) =
      match rd m u k with Some e => match next e with Some t' => reach m t' (j :: ks) | None => 0 end | None => 0 end).
    { intros m0. unfold reach. change (walk m0 u (k :: j :: ks)) with
        (e ← rd m0 u k; match next e with None => Some None | Some t' => walk m0 t' (j :: ks) end).
      destruct (rd m0 u k) as [e|]; [|done]. cbn [mbind option_bind]. by destruct (next e). }
    rewrite !St, (S u k) by done. destruct (decide (u = t /\ k = i)) as [[-> ->]|Nu].
    + rewrite bool_decide_true by done. rewrite lor_table, R0 by done. by apply reach_zero.
    + rewrite bool_decide_false by done. destruct (rd m u k) as [e|] eqn:Ek; [|done].
      destruct (decide (e = 0)) as [->|Ne0]; [done|].
      destruct (n_next _ _ _ _ (N _ _ Gu) k e) as (t' & Nx & G'); [simpl in L; lia|done|done|].
      rewrite Nx. apply (IH t' (child u y k)); try done.
      destruct y as [o [|b js]]; simpl in *; rewrite ?length_app; simpl in *; lia.
Qed.

(** ** Growing the tree *)

Record grows w G w' G' : Prop := {
  g_sub : G ⊆ G';
  g_roots : forall t y, G' !! t = Some y -> y.2 = [] -> G !! t = Some y;
  g_template : template w' = template w;
  g_rd : forall t i e, is_Some (G !! t) -> rd (mem w) t i = Some e -> e <> 0 -> rd (mem w') t i = Some e;
  g_view : forall r v, G !! r = Some (Some r, []) -> translate w' r v = translate w r v;
  g_refs : forall a, a mod PAGE_SIZE = 0 -> 0 < refs (frames w) a -> refs (frames w') a = refs (frames w) a;
  g_mem : forall a, G' !! a = None -> mem w' !! a = mem w !! a;
  g_fresh : forall a, a mod PAGE_SIZE = 0 -> G !! a = None -> is_Some (G' !! a) -> refs (frames w) a <= 0
}.

Lemma grows_refl w G : grows w G w G.
Proof. split; try done. intros a _ -> [? ?]. done. Qed.

Lemma grows_trans w1 G1 w2 G2 w3 G3 : grows w1 G1 w2 G2 -> grows w2 G2 w3 G3 -> grows w1 G1 w3 G3.
Proof.
  intros A B. split.
  - transitivity G2; [apply A|apply B].
  - intros t y H E. apply A; [|done]. by apply B.
  - rewrite (g_template _ _ _ _ B). apply A.
  - intros t i e [y Gt] R Ne. apply (g_rd _ _ _ _ B); [|by apply (g_rd _ _ _ _ A)|done].
    exists y. by eapply lookup_weaken, A.
  - intros r v R. rewrite (g_view _ _ _ _ B), (g_view _ _ _ _ A); [done..|]. by eapply lookup_weaken, A.
  - intros a M Ra. rewrite (g_refs _ _ _ _ B), (g_refs _ _ _ _ A) by (rewrite ?(g_refs _ _ _ _ A); done). done.
  - intros a Ha. rewrite (g_mem _ _ _ _ B) by done. apply (g_mem _ _ _ _ A). destruct (G2 !! a) eqn:E2; [|done].
    rewrite (lookup_weaken _ _ _ _ E2 (g_sub _ _ _ _ B)) in Ha. done.
  - intros a M N1 H3. destruct (G2 !! a) as [x|] eqn:E2; [apply (g_fresh _ _ _ _ A a M N1); eauto|].
    pose proof (g_fresh _ _ _ _ B a M E2 H3) as Z2. destruct (Z.lt_ge_cases 0 (refs (frames w1) a)) as [Hp|]; [|lia].
    rewrite (g_refs _ _ _ _ A a M Hp) in Z2. lia.
Qed.

Lemma child_length t x i : (length (child t x i).2 = S (length x.2))%nat.
Proof. destruct x as [o [|a js]]; simpl; rewrite ?length_app; simpl; lia. Qed.

Lemma grow_node m G t x i a es u y :
  (forall t x, G !! t = Some x -> node_ok m G t x) -> G !! t = Some x -> (length x.2 < 3)%nat ->
  m !! t = Some es -> (i < length es)%nat -> page_address a -> G !! a = None -> rd m t i = Some 0 ->
  <[a := child t x i]> G !! u = Some y ->
  node_ok (<[a := zeroed]> (<[t := <[i := Z.lor a INTERMEDIATE_FLAGS]> es]> m)) (<[a := child t x i]> G) u y.
Proof.
  intros N Gt Lx E Li A Ga R0 Gu. destruct (decide (u = a)) as [->|Ne].
  - rewrite lookup_insert_eq in Gu. injection Gu as <-. pose proof (child_length t x i). split.
    + done.
    + lia.
    + rewrite lookup_insert_eq. exists zeroed. by rewrite zeroed_length.
    + intros H'. rewrite H' in H. done.
    + intros k e _. unfold rd. rewrite lookup_insert_eq. cbn [mbind option_bind].
      by intros ->%zeroed_lookup.
  - rewrite lookup_insert_ne in Gu by done. destruct (N _ _ Gu) as [Na Nl (es' & E' & L') Nr Nn]. split; [done|done| |done|].
    + rewrite lookup_insert_ne by done. destruct (decide (u = t)) as [->|Nt].
      * rewrite lookup_insert_eq. eexists. split; [done|]. rewrite length_insert. congruence.
      * rewrite lookup_insert_ne by done. eauto.
    + intros k e Ly. rewrite rd_insert_ne by done. destruct (wr_ok m t i (Z.lor a INTERMEDIATE_FLAGS) es E Li) as [_ ->].
      case_bool_decide as Q; [destruct Q as [-> ->]|].
      * intros [= <-] _. exists a. split; [by apply lor_table|]. rewrite Gu in Gt. injection Gt as ->. apply lookup_insert_eq.
      * intros R Ne0. destruct (Nn k e Ly R Ne0) as (t' & Nx & G'). exists t'. split; [done|].
        rewrite lookup_insert_ne; [done|]. congruence.
Qed.

(** The new table [a] below entry [i] of the table [t]. *)
Section grow.
Context (w : mmu P) (G : gmap Z (option Z * list nat)) (t : Z) (x : option Z * list nat) (i : nat).
Context (a : Z) (p : P) (es : list Z).
Context (O : mmu_ok w G) (Gt : G !! t = Some x) (Lx : (length x.2 < 3)%nat) (Hi : (i < 512)%nat).
Context (Hr : x.2 = [] -> t <> template w \/ (256 <= i)%nat) (R0 : rd (mem w) t i = Some 0).
Context (A : page_address a) (Ra : refs (frames w) a = 0) (Fo : frames_ok p).
Context (Fr : forall b, b mod PAGE_SIZE = 0 -> refs p b = if bool_decide (b = a) then 1 else refs (frames w) b).
Context (Es : mem w !! t = Some es) (L : length es = 512%nat).
Let w' : mmu P :=
  mk_mmu (<[a := zeroed]> (<[t := <[i := Z.lor a INTERMEDIATE_FLAGS]> es]> (mem w))) p (template w).

Lemma grow_fresh : G !! a = None.
Proof. by apply (unused_table w). Qed.

Lemma grow_rd u k : is_Some (G !! u) ->
  rd (mem w') u k = if bool_decide (u = t /\ k = i) then Some (Z.lor a INTERMEDIATE_FLAGS) else rd (mem w) u k.
Proof.
  intros Hu. unfold w'. simpl. rewrite rd_insert_ne by (intros ->; rewrite grow_fresh in Hu; by destruct Hu).
  apply wr_ok; [done|lia].
Qed.

Lemma grow_low : bt = true -> x.2 = [] -> (i < 256)%nat.
Proof.
  intros Bt Hx. destruct (decide (i < 256)%nat); [done|]. assert (x = (Some t, [])) as Ex.
  { pose proof (n_root _ _ _ _ (m_node _ _ O _ _ Gt)) as N. destruct x as [o js]. simpl in *. subst js. by rewrite N. }
  rewrite Ex in Gt. destruct (m_kernel _ _ O t i Gt) as [_ K]; [lia|]. by apply K in Bt.
Qed.

Lemma grow_root u y : <[a := child t x i]> G !! u = Some y -> y.2 = [] -> G !! u = Some y.
Proof.
  intros Hu Ey. rewrite lookup_insert_ne in Hu; [done|]. intros <-. rewrite lookup_insert_eq in Hu.
  injection Hu as <-. pose proof (child_length t x i) as Cl. by rewrite Ey in Cl.
Qed.

Lemma grow_parent u y : <[a := child t x i]> G !! u = Some y -> y.2 <> [] ->
  has_parent (mem w') (<[a := child t x i]> G) u y.
Proof.
  intros Hu Ny. pose proof grow_fresh as Ga. assert (Sub : forall q z, G !! q = Some z -> <[a := child t x i]> G !! q = Some z).
  { intros q z Hq. rewrite lookup_insert_ne; [done|]. intros E. rewrite E in Ga. congruence. }
  destruct (decide (u = a)) as [->|Ne].
  - rewrite lookup_insert_eq in Hu. injection Hu as <-. exists t, x, i, (Z.lor a INTERMEDIATE_FLAGS).
    split_and!; [by apply Sub|done|done|done| | |by apply lor_table].
    + rewrite grow_rd by eauto. by rewrite bool_decide_true.
    + intros Z0. pose proof (lor_table a A) as Q. by rewrite Z0 in Q.
  - rewrite lookup_insert_ne in Hu by done.
    destruct (m_parent _ _ O u y Hu Ny) as (q & z & k & e & Gq & Lq & Hk & Ey & Rq & Ne0 & Nx).
    exists q, z, k, e. split_and!; [by apply Sub|done|done|done| |done|done].
    rewrite grow_rd by eauto. rewrite bool_decide_false; [done|]. intros [-> ->]. congruence.
Qed.

Lemma grow_mmu_ok : mmu_ok w' (<[a := child t x i]> G).
Proof.
  pose proof grow_fresh as Ga. assert (Tm : is_Some (G !! template w)) by (rewrite (m_template _ _ O); eauto). split.
  - done.
  - intros u y Hu. unfold w'. apply grow_node; try done; [apply O|lia].
  - intros u y Hu. simpl. destruct (decide (u = a)) as [->|Ne].
    + rewrite Fr by apply A. by rewrite bool_decide_true.
    + rewrite lookup_insert_ne in Hu by done. rewrite Fr by apply (m_node _ _ O _ _ Hu).
      rewrite bool_decide_false by done. by eapply O.
  - simpl. rewrite lookup_insert_ne; [apply O|]. intros Ea. rewrite <- Ea, Ga in Tm. by destruct Tm.
  - intros k Hk. change (template w') with (template w). rewrite grow_rd by done.
    rewrite bool_decide_false; [by apply O|]. intros [Et ->].
    pose proof Gt as Gt'. rewrite <- Et, (m_template _ _ O) in Gt'. injection Gt' as Ex. rewrite <- Ex in Hr.
    destruct (Hr eq_refl); [by symmetry in Et|lia].
  - intros q k Hq Hk. apply grow_root in Hq; [|done]. change (template w') with (template w).
    destruct (decide (bt = true)) as [Bt|Bt%not_true_is_false].
    + assert (Nk : forall q, G !! q = Some (Some q, []) -> ~ (q = t /\ k = i)).
      { intros q' Hq' [-> ->]. pose proof (grow_low Bt) as Hl. rewrite Hq' in Gt. injection Gt as Ex.
        rewrite <- Ex in Hl. specialize (Hl eq_refl). lia. }
      rewrite !grow_rd by eauto. rewrite !bool_decide_false by (apply Nk; first [done|apply O]). by apply O.
    + rewrite (m_boot _ _ O Bt q Hq). split; [done|congruence].
  - intros Bt q Hq. apply grow_root in Hq; [|done]. by apply (m_boot _ _ O Bt).
  - apply grow_parent.
Qed.

Lemma grow_grows : grows w G w' (<[a := child t x i]> G).
Proof.
  split.
  - apply insert_subseteq, grow_fresh.
  - apply grow_root.
  - done.
  - intros u k f Hu R Ne. rewrite grow_rd by done. case_bool_decide as Q; [|done]. destruct Q as [-> ->]. congruence.
  - intros q v Hq. unfold translate. eapply (reach_grow _ _ G t x i a); try done; [apply O|by apply lookup_insert_eq|].
    apply grow_rd.
  - intros b M Rb. simpl. rewrite Fr by done. rewrite bool_decide_false; [done|]. intros ->. lia.
  - intros b Hb. apply lookup_insert_None in Hb as [Hb Na]. simpl. rewrite !lookup_insert_ne by congruence. done.
  - intros b M Nb [y Hy]. destruct (decide (b = a)) as [->|Ne]; [lia|]. rewrite lookup_insert_ne in Hy by done. congruence.
Qed.
End grow.

Lemma next_alloc_ok w G t x i :
  mmu_ok w G -> G !! t = Some x -> (length x.2 < 3)%nat -> (i < 512)%nat ->
  (x.2 = [] -> t <> template w \/ (256 <= i)%nat) ->
  exists r w' G', next_alloc t i w = Some (r, w') /\ mmu_ok w' G' /\ grows w G w' G' /\
    match r with
    | None => True
    | Some t' => G' !! t' = Some (child t x i) /\ exists e, rd (mem w') t i = Some e /\ e <> 0 /\ next e = Some t'
    end.
Proof.
  intros O Gt Lx Hi Hr. pose proof (m_node _ _ O _ _ Gt) as N. destruct (node_rd _ _ _ _ i N Hi) as [e E].
  unfold next_alloc. rewrite E. cbn [mbind option_bind]. destruct (decide (e = 0)) as [->|Ne0].
  2:{ destruct (n_next _ _ _ _ N i e) as (t' & Nx & G'); [done..|]. rewrite Nx. exists (Some t'), w, G.
      split_and!; [done|done|apply grows_refl|done|]. by exists e. }
  change (next 0) with (@None Z). cbn iota.
  destruct (allocpage_ok _ (m_frames _ _ O)) as (r & p & -> & Fo & Fr). cbn [mbind option_bind]. destruct r as [a|].
  2:{ eexists None, _, G. split_and!; [done| | |done].
      - destruct O. split; try done. intros u y Hu. simpl. rewrite Fr. eauto.
      - split; try done. intros a _ -> [? ?]. done. }
  destruct Fr as (A & Ra & Fr). destruct (n_page _ _ _ _ N) as (es & Es & L).
  destruct (wr_ok (mem w) t i (Z.lor a INTERMEDIATE_FLAGS) es Es) as [-> _]; [lia|]. cbn [mbind option_bind].
  eexists (Some a), _, (<[a := child t x i]> G).
  split_and!; [done|by apply grow_mmu_ok|by eapply grow_grows|apply lookup_insert_eq|].
  exists (Z.lor a INTERMEDIATE_FLAGS). split_and!; [|intros Z0; pose proof (lor_table a A) as Q; by rewrite Z0 in Q|by apply lor_table].
  erewrite grow_rd by eauto. by rewrite bool_decide_true.
Qed.

(** ** Leaves *)

(** Entries of one page: the same page of the same table, or of the half that
    all tables share. *)
Definition same_page (r v r' v' : Z) : bool :=
  bool_decide (path v' = path v) && (bool_decide (r' = r) || (256 <=? pml4offset v)%nat).

Lemma get_page_ok w G r v : mmu_ok w G -> G !! r = Some (Some r, []) ->
  get_page (mem w) r v = Some None \/
  exists t e, get_page (mem w) r v = Some (Some (t, ptoffset v)) /\ rd (mem w) t (ptoffset v) = Some e /\
    G !! t = Some (owner r (path v), [pml4offset v; pdptoffset v; pdoffset v]).
Proof.
  intros O R. rewrite get_page_walk.
  destruct (walk_ok (mem w) G (path v) r (Some r, [])) as [H|(t & i & e & W & La & Gt & E)]; try done.
  - apply O.
  - apply path_lt.
  - by left.
  - right. exists t, e. injection La as <-. split_and!; try done.
Qed.

Lemma get_page_kernel w G r r' v : mmu_ok w G -> G !! r = Some (Some r, []) -> G !! r' = Some (Some r', []) ->
  (256 <= pml4offset v)%nat -> get_page (mem w) r' v = get_page (mem w) r v.
Proof.
  intros O R R' K. assert (pml4offset v < 512)%nat by (apply (path_lt v), list_elem_of_here).
  unfold get_page. destruct (m_kernel _ _ O r (pml4offset v) R) as [-> _]; [lia|].
  destruct (m_kernel _ _ O r' (pml4offset v) R') as [-> _]; [lia|]. done.
Qed.

Lemma get_page_same w G r v r' v' t : mmu_ok w G -> G !! r = Some (Some r, []) -> G !! r' = Some (Some r', []) ->
  get_page (mem w) r v = Some (Some (t, ptoffset v)) ->
  bool_decide (get_page (mem w) r' v' = Some (Some (t, ptoffset v))) = same_page r v r' v'.
Proof.
  intros O R R' H. unfold same_page. destruct (decide (path v' = path v)) as [Ep|Np].
  - rewrite (bool_decide_true (path v' = path v)) by done. rewrite andb_true_l.
    assert (Eg : get_page (mem w) r' v' = get_page (mem w) r' v) by (by rewrite !get_page_walk, Ep). rewrite Eg.
    destruct (decide (r' = r)) as [->|Nr]; [by rewrite !bool_decide_true|].
    rewrite (bool_decide_false (r' = r)) by done. rewrite orb_false_l. destruct (Nat.leb_spec 256 (pml4offset v)) as [K|K].
    + rewrite (get_page_kernel w G r r' v) by done. by rewrite H, bool_decide_true.
    + apply bool_decide_eq_false. intros H'.
      destruct (get_page_ok w G r v O R) as [?|(t1 & e1 & W1 & _ & G1)]; [congruence|].
      destruct (get_page_ok w G r' v O R') as [?|(t2 & e2 & W2 & _ & G2)]; [congruence|].
      assert (t1 = t) as -> by congruence. assert (t2 = t) as -> by congruence. rewrite G1 in G2. apply (inj Some), (f_equal fst) in G2.
      unfold owner, path in G2. cbn [fst] in G2. destruct (Nat.ltb_spec (pml4offset v) 256); [congruence|lia].
  - rewrite (bool_decide_false (path v' = path v)) by done. apply bool_decide_eq_false. intros H'. destruct Np.
    destruct (get_page_ok w G r v O R) as [?|(t1 & e1 & W1 & _ & G1)]; [congruence|].
    destruct (get_page_ok w G r' v' O R') as [?|(t2 & e2 & W2 & _ & G2)]; [congruence|].
    unfold path. assert (t1 = t) as -> by congruence. assert (t2 = t) as -> by congruence. congruence.
Qed.

Lemma leaf_write w G r v t es e :
  mmu_ok w G -> G !! r = Some (Some r, []) -> get_page (mem w) r v = Some (Some (t, ptoffset v)) ->
  mem w !! t = Some es ->
  let w' := mk_mmu (<[t := <[ptoffset v := e]> es]> (mem w)) (frames w) (template w) in
  wr (mem w) t (ptoffset v) e = Some (mem w') /\ mmu_ok w' G /\
  forall r' v', G !! r' = Some (Some r', []) ->
    translate w' r' v' = if same_page r v r' v' then e else translate w r' v'.
Proof.
  intros O R H Es w'. destruct (get_page_ok w G r v O R) as [?|(t1 & e1 & W1 & E1 & G1)]; [congruence|].
  assert (t1 = t) as -> by congruence.
  destruct (n_page _ _ _ _ (m_node _ _ O _ _ G1)) as (es' & Es' & L). assert (es' = es) as -> by congruence.
  assert (B : (ptoffset v < 512)%nat) by (apply (path_lt v); unfold path; set_solver).
  destruct (wr_ok (mem w) t (ptoffset v) e es Es) as [W Rd]; [lia|].
  assert (Up : forall u x i, G !! u = Some x -> (length x.2 < 3)%nat -> rd (mem w') u i = rd (mem w) u i).
  { intros u x i Gu Lx. unfold w'. simpl. rewrite Rd, bool_decide_false; [done|]. intros [-> _].
    rewrite G1 in Gu. injection Gu as <-. simpl in Lx. lia. }
  assert (Ro : forall q, G !! q = Some (Some q, []) -> forall i, rd (mem w') q i = rd (mem w) q i)
    by (intros q Hq i; apply (Up q (Some q, [])); [done|simpl; lia]).
  split_and!; [done| |].
  - split; [apply O| |intros u x Gu; by eapply O|apply O| | |apply O|].
    + intros u x Gu. destruct (m_node _ _ O _ _ Gu) as [Na Nl (es' & Eu & Lu) Nr Nn]. split; [done|done| |done|].
      * unfold w'. simpl. destruct (decide (u = t)) as [->|Ne].
        { rewrite lookup_insert_eq. eexists. split; [done|]. rewrite length_insert. congruence. }
        { rewrite lookup_insert_ne by done. eauto. }
      * intros i e0 Lx. rewrite (Up u x) by done. by apply Nn.
    + intros i Hi. change (template w') with (template w). rewrite Ro by apply O. by apply O.
    + intros q i Hq Hi. change (template w') with (template w). rewrite !Ro by (done || apply O). by apply O.
    + intros u y Gu Ny. destruct (m_parent _ _ O u y Gu Ny) as (q & z & k & e0 & Gq & Lq & Hq & Ey & Rq & Nx).
      exists q, z, k, e0. split_and!; try done; [|apply Nx..]. by rewrite (Up q z).
  - intros r' v' R'. rewrite <- (get_page_same w G r v r' v' t) by done. unfold translate, reach.
    rewrite (walk_same (mem w) (mem w') G (path v') r' (Some r', [])) by (done || apply O). rewrite get_page_walk.
    destruct (walk (mem w) r' (path v')) as [[[u i]|]|] eqn:Wk; [|by rewrite bool_decide_false..].
    unfold w'. simpl. rewrite Rd. destruct (decide (u = t /\ i = ptoffset v)) as [[-> ->]|Ne].
    + by rewrite !bool_decide_true.
    + rewrite !bool_decide_false; [done| |done]. intros [=]. tauto.
Qed.

(** ** The operations *)

Lemma set_entry_ok w G r v g :
  mmu_ok w G -> G !! r = Some (Some r, []) ->
  exists w', set_entry r v g w = Some w' /\ mmu_ok w' G /\ frames w' = frames w /\ template w' = template w /\
    (forall a, G !! a = None -> mem w' !! a = mem w !! a) /\
    ((forall r' v', G !! r' = Some (Some r', []) ->
       translate w' r' v' = if same_page r v r' v' then g (translate w r v) else translate w r' v') \/
     (translate w r v = 0 /\ w' = w)).
Proof.
  intros O R. unfold set_entry. destruct (get_page_ok w G r v O R) as [H|(t & e & H & E & Gt)]; rewrite H; cbn [mbind option_bind].
  - exists w. split_and!; try done. right. split; [|done]. unfold translate, reach. by rewrite <- get_page_walk, H.
  - rewrite E. cbn [mbind option_bind]. pose proof E as E'. unfold rd in E'.
    destruct (mem w !! t) as [es|] eqn:Es; [|done]. destruct (leaf_write w G r v t es (g e) O R H Es) as (W & O' & V).
    rewrite W. cbn [mbind option_bind]. eexists. split_and!; [done|done|done|done| |].
    { intros a Ha. simpl. rewrite lookup_insert_ne by congruence. done. }
    left. intros r' v' R'.
    rewrite V by done. assert (translate w r v = e) as ->; [|done].
    unfold translate, reach. by rewrite <- get_page_walk, H, E.
Qed.

Lemma entry_of_ok w G r v :
  mmu_ok w G -> G !! r = Some (Some r, []) -> exists x, entry_of r v w = Some x /\ default 0 x = translate w r v.
Proof.
  intros O R. unfold entry_of, translate, reach. rewrite <- get_page_walk.
  destruct (get_page_ok w G r v O R) as [->|(t & e & -> & E & _)]; cbn [mbind option_bind]; [by exists None|].
  rewrite E. by exists (Some e).
Qed.

(** The readers give the fields of the entry. *)
Lemma readers_ok w G r v :
  mmu_ok w G -> G !! r = Some (Some r, []) ->
  arch_mmu_getphysical r v w = Some (Z.land (translate w r v) ADDRMASK) /\
  arch_mmu_ispresent r v w = Some (negb (translate w r v =? 0)) /\
  arch_mmu_iswritable r v w = Some (has (translate w r v) ARCH_MMU_FLAGS_WRITE) /\
  arch_mmu_isdirty r v w = Some (has (translate w r v) ARCH_MMU_FLAGS_DIRTY).
Proof.
  intros O R. destruct (entry_of_ok w G r v O R) as (x & E & <-).
  unfold arch_mmu_getphysical, arch_mmu_ispresent, arch_mmu_iswritable, arch_mmu_isdirty. rewrite E. by destruct x.
Qed.

Lemma add_page_ok w G r v entry :
  mmu_ok w G -> G !! r = Some (Some r, []) -> (r <> template w \/ (256 <= pml4offset v)%nat) ->
  exists b w' G', add_page r v entry 0 w = Some (b, w') /\ mmu_ok w' G' /\
    (forall q, G' !! q = Some (Some q, []) <-> G !! q = Some (Some q, [])) /\ template w' = template w /\
    (forall a, a mod PAGE_SIZE = 0 -> 0 < refs (frames w) a -> refs (frames w') a = refs (frames w) a) /\
    G ⊆ G' /\ (forall a, a mod PAGE_SIZE = 0 -> G !! a = None -> is_Some (G' !! a) -> refs (frames w) a <= 0) /\
    (forall a, G' !! a = None -> mem w' !! a = mem w !! a) /\
    forall r' v', G !! r' = Some (Some r', []) -> translate w' r' v' =
      if b && same_page r v r' v' then entry else translate w r' v'.
Proof.
  intros O R Hr. unfold add_page. cbn [Z.eqb DEPTH_PDPT].
  assert (B : forall i, i ∈ path v -> (i < 512)%nat) by apply path_lt.
  assert (Rt : forall w' G', grows w G w' G' -> forall q, G' !! q = Some (Some q, []) <-> G !! q = Some (Some q, [])).
  { intros w' G' S q. split; intros H; [by eapply (g_roots _ _ _ _ S)|]. eapply lookup_weaken; [done|apply S]. }
  destruct (next_alloc_ok w G r (Some r, []) (pml4offset v)) as (x1 & w1 & G1 & E1 & O1 & S1 & C1);
    [done|done|simpl; lia|apply B; unfold path; set_solver|by intros _|].
  rewrite E1. cbn [mbind option_bind]. destruct x1 as [t1|].
  2:{ exists false, w1, G1. split_and!; try done; [by eapply Rt|apply S1..]. }
  destruct C1 as (L1 & e1 & R1 & N1 & X1). change (0 =? DEPTH_PD) with false. cbn iota.
  destruct (next_alloc_ok w1 G1 t1 _ (pdptoffset v) O1 L1) as (x2 & w2 & G2 & E2 & O2 & S2 & C2);
    [simpl; lia|apply B; unfold path; set_solver|done|].
  rewrite E2. cbn [mbind option_bind]. pose proof (grows_trans _ _ _ _ _ _ S1 S2) as S12. destruct x2 as [t2|].
  2:{ exists false, w2, G2. split_and!; try done; [by eapply Rt|apply S12..]. }
  destruct C2 as (L2 & e2 & R2 & N2 & X2). change (0 =? DEPTH_PT) with false. cbn iota.
  destruct (next_alloc_ok w2 G2 t2 _ (pdoffset v) O2 L2) as (x3 & w3 & G3 & E3 & O3 & S3 & C3);
    [simpl; lia|apply B; unfold path; set_solver|done|].
  rewrite E3. cbn [mbind option_bind]. pose proof (grows_trans _ _ _ _ _ _ S12 S3) as S13. destruct x3 as [t3|].
  2:{ exists false, w3, G3. split_and!; try done; [by eapply Rt|apply S13..]. }
  destruct C3 as (L3 & e3 & R3 & N3 & X3).
  assert (Q : get_page (mem w3) r v = Some (Some (t3, ptoffset v))).
  { pose proof (grows_trans _ _ _ _ _ _ S2 S3) as S23.
    unfold get_page. rewrite (g_rd _ _ _ _ S23 r _ e1) by (done || (eexists; eapply lookup_weaken; [exact R|apply S1])).
    cbn [mbind option_bind]. rewrite X1. rewrite (g_rd _ _ _ _ S3 t1 _ e2) by (done || (eexists; eapply lookup_weaken; [exact L1|apply S2])).
    cbn [mbind option_bind]. rewrite X2, R3. cbn [mbind option_bind]. by rewrite X3. }
  destruct (n_page _ _ _ _ (m_node _ _ O3 _ _ L3)) as (es & Es & _).
  destruct (leaf_write w3 G3 r v t3 es entry O3) as (W & O4 & V); [by apply (Rt w3 G3)|done|done|].
  unfold put. rewrite W. cbn [mbind option_bind]. exists true. eexists _, G3.
  split_and!; [done|done|by apply (Rt w3 G3)|apply S13|apply S13|apply S13|apply S13| |].
  { intros a Ha. simpl. rewrite lookup_insert_ne by congruence. by apply S13. }
  intros r' v' R'. rewrite V by (by apply (Rt w3 G3)). simpl. by rewrite (g_view _ _ _ _ S13) by done.
Qed.

(** A new table has the kernel's half and nothing below it. *)
Section newtable.
Context (w : mmu P) (G : gmap Z (option Z * list nat)) (t : Z) (p : P) (es : list Z).
Context (O : mmu_ok w G) (A : page_address t) (Rt : refs (frames w) t = 0) (Fo : frames_ok p).
Context (Fr : forall b, b mod PAGE_SIZE = 0 -> refs p b = if bool_decide (b = t) then 1 else refs (frames w) b).
Context (Es : mem w !! template w = Some es) (L : length es = 512%nat) (Bt : bt = true).
Let w' : mmu P := mk_mmu (<[t := es]> (mem w)) p (template w).

Lemma new_fresh : G !! t = None.
Proof. by apply (unused_table w). Qed.

Lemma new_rd u i : is_Some (G !! u) -> rd (mem w') u i = rd (mem w) u i.
Proof. intros [x Gu]. apply rd_insert_ne. intros ->. rewrite new_fresh in Gu. done. Qed.

Lemma new_rd_top i : rd (mem w') t i = rd (mem w) (template w) i.
Proof. unfold w', rd. simpl. rewrite lookup_insert_eq, Es. done. Qed.

Lemma new_node u y : <[t := (Some t, [])]> G !! u = Some y -> node_ok (mem w') (<[t := (Some t, [])]> G) u y.
Proof.
  pose proof new_fresh as Gt. intros Gu. destruct (decide (u = t)) as [->|Ne].
  - rewrite lookup_insert_eq in Gu. injection Gu as <-. split; simpl; [done|lia| |done|].
    + exists es. by rewrite lookup_insert_eq.
    + intros i e _ Re Ne0. fold (mem w') in Re. change (<[t := es]> (mem w)) with (mem w') in Re. rewrite new_rd_top in Re.
      destruct (decide (i < 256)%nat) as [Hi|Hi]; [rewrite (m_low _ _ O) in Re by done; congruence|].
      destruct (n_next _ _ _ _ (m_node _ _ O _ _ (m_template _ _ O)) i e) as (q & Nx & Gq); [simpl; lia|done|done|].
      exists q. split; [done|]. rewrite lookup_insert_ne by congruence. rewrite Gq. unfold child, owner.
      destruct (Nat.ltb_spec i 256); [lia|done].
  - rewrite lookup_insert_ne in Gu by done. destruct (m_node _ _ O _ _ Gu) as [Na Nl Np Nr Nn]. split; [done|done| |done|].
    + unfold w'. simpl. by rewrite lookup_insert_ne.
    + intros i e Lx Re Ne0. rewrite new_rd in Re by eauto. destruct (Nn i e Lx Re Ne0) as (q & Nx & Gq).
      exists q. split; [done|]. rewrite lookup_insert_ne by congruence. done.
Qed.

Lemma new_mmu_ok : mmu_ok w' (<[t := (Some t, [])]> G).
Proof.
  pose proof new_fresh as Gt. assert (T : t <> template w) by (intros E; rewrite E, (m_template _ _ O) in Gt; done).
  assert (Tm : is_Some (G !! template w)) by (rewrite (m_template _ _ O); eauto). split.
  - done.
  - apply new_node.
  - intros u x Gu. simpl. destruct (decide (u = t)) as [->|Ne].
    + rewrite Fr by apply A. by rewrite bool_decide_true.
    + rewrite lookup_insert_ne in Gu by done. rewrite Fr by apply (m_node _ _ O _ _ Gu).
      rewrite bool_decide_false by done. by eapply O.
  - simpl. rewrite lookup_insert_ne by done. apply O.
  - intros i Hi. change (template w') with (template w). rewrite new_rd by done. by apply O.
  - intros q i Hq Hi. change (template w') with (template w). destruct (decide (q = t)) as [->|Ne].
    + rewrite new_rd_top, new_rd by done. split; [done|]. by apply (m_kernel _ _ O (template w)); [apply O|].
    + rewrite lookup_insert_ne in Hq by done. rewrite !new_rd by eauto. by apply O.
  - by rewrite Bt.
  - intros u y Gu Ny. destruct (decide (u = t)) as [->|Ne]; [rewrite lookup_insert_eq in Gu; by injection Gu as <-|].
    rewrite lookup_insert_ne in Gu by done.
    destruct (m_parent _ _ O u y Gu Ny) as (q & z & k & e & Gq & Lq & Hk & Ey & Rq & Nx).
    exists q, z, k, e. rewrite lookup_insert_ne by congruence. rewrite new_rd by eauto. split_and!; try done; apply Nx.
Qed.

Lemma new_view r v : G !! r = Some (Some r, []) -> translate w' r v = translate w r v.
Proof.
  intros R. assert (S : walk (mem w') r (path v) = walk (mem w) r (path v)).
  { apply (walk_same _ _ G _ _ (Some r, [])); try done; [apply O|]. intros u x i Gu _. apply new_rd. eauto. }
  unfold translate, reach. rewrite S. rewrite <- get_page_walk.
  destruct (get_page_ok w G r v O R) as [->|(u & e & -> & _ & Gu)]; [done|]. rewrite new_rd by eauto. done.
Qed.

Lemma new_view_top v : translate w' t v = if (pml4offset v <? 256)%nat then 0 else translate w (template w) v.
Proof.
  destruct (Nat.ltb_spec (pml4offset v) 256) as [K|K].
  - unfold translate, reach. rewrite <- get_page_walk. unfold get_page. rewrite new_rd_top, (m_low _ _ O) by done. done.
  - rewrite <- new_view by apply O. unfold translate, reach. rewrite <- !get_page_walk.
    rewrite (get_page_kernel w' (<[t := (Some t, [])]> G) (template w) t v); try done.
    + apply new_mmu_ok.
    + apply (m_template _ _ new_mmu_ok).
    + apply lookup_insert_eq.
Qed.
End newtable.

Lemma newtable_ok w G : mmu_ok w G -> bt = true ->
  exists r w' G', arch_mmu_newtable w = Some (r, w') /\ mmu_ok w' G' /\ template w' = template w /\
    (forall q, G !! q = Some (Some q, []) -> forall v, translate w' q v = translate w q v) /\
    (forall a, a mod PAGE_SIZE = 0 -> 0 < refs (frames w) a -> refs (frames w') a = refs (frames w) a) /\
    (forall a, G' !! a = None -> mem w' !! a = mem w !! a) /\
    match r with
    | None => G' = G /\ mem w' = mem w
    | Some t => refs (frames w) t = 0 /\ G' = <[t := (Some t, [])]> G /\
        forall v, translate w' t v = if (pml4offset v <? 256)%nat then 0 else translate w (template w) v
    end.
Proof.
  intros O Bt. unfold arch_mmu_newtable.
  destruct (allocpage_ok _ (m_frames _ _ O)) as (r & p & -> & Fo & Fr). cbn [mbind option_bind]. destruct r as [t|].
  - destruct Fr as (A & Ra & Fr). destruct (n_page _ _ _ _ (m_node _ _ O _ _ (m_template _ _ O))) as (es & Es & L).
    rewrite Es. cbn [mbind option_bind]. eexists (Some t), _, _. split_and!; [done|by apply new_mmu_ok|done| | | |done|done|].
    + intros q R v. by eapply new_view.
    + intros a M Rf. simpl. rewrite Fr by done. rewrite bool_decide_false; [done|]. intros ->. lia.
    + intros a [_ Na]%lookup_insert_None. simpl. by rewrite lookup_insert_ne.
    + intros v. by apply (new_view_top w G t p es).
  - eexists None, _, G. split_and!; try done.
    destruct O. split; try done. intros u y Hu. simpl. rewrite Fr. eauto.
Qed.

(** ** Destruction *)

(** The pages that [destroy] releases, in order. *)
Definition chunk (sub : Z -> list Z) (e : Z) : list Z :=
  if Z.land e ADDRMASK =? 0 then [] else sub (Z.land e ADDRMASK) ++ [Z.land e ADDRMASK].

Fixpoint below m (depth : nat) (table : Z) : list Z :=
  match m !! table with
  | None => []
  | Some es => mjoin (chunk (match depth with O => fun _ => [] | S d => below m d end) <$>
                        take (if (depth =? 3)%nat then 256 else 512) es)
  end.

Fixpoint release_all (l : list Z) (p : P) : option P :=
  match l with [] => Some p | a :: l' => p' ← release a p; release_all l' p' end.

Lemma release_all_app l l' p : release_all (l ++ l') p = p' ← release_all l p; release_all l' p'.
Proof.
  revert p. induction l as [|a l IH]; intros p; [done|]. cbn [app release_all].
  destruct (release a p); cbn [mbind option_bind]; [apply IH|done].
Qed.

Lemma destroy_entries_chunks sub bl es p :
  (forall e a p, e ∈ es -> a = Z.land e ADDRMASK -> a <> 0 -> sub a p = release_all (bl a) p) ->
  destroy_entries sub es p = release_all (mjoin (chunk bl <$> es)) p.
Proof.
  revert p. induction es as [|e es IH]; intros p H; [done|]. cbn [destroy_entries fmap list_fmap mjoin list_join].
  assert (H' : forall e a p, e ∈ es -> a = Z.land e ADDRMASK -> a <> 0 -> sub a p = release_all (bl a) p)
    by (intros e' a q He'; apply H; by apply elem_of_cons; right).
  unfold chunk at 1. destruct (Z.eqb_spec (Z.land e ADDRMASK) 0) as [|Ne]; [by apply IH|].
  rewrite (H e _ p (list_elem_of_here e es) eq_refl Ne), <- app_assoc, release_all_app.
  destruct (release_all (bl (Z.land e ADDRMASK)) p) as [q|]; [|done]. cbn [mbind option_bind app release_all].
  destruct (release (Z.land e ADDRMASK) q); cbn [mbind option_bind]; [by apply IH|done].
Qed.

Lemma next_land e t : next e = Some t -> Z.land e ADDRMASK = t.
Proof. unfold next. case_match; congruence. Qed.

Lemma rd_es m t es i e : m !! t = Some es -> es !! i = Some e -> rd m t i = Some e.
Proof. intros E L. unfold rd. by rewrite E. Qed.

(** The part of the tree below a table of [r], with [d] levels to go. *)
Section destroy.
Context (w : mmu P) (G : gmap Z (option Z * list nat)) (r : Z).
Context (O : mmu_ok w G) (R : G !! r = Some (Some r, [])).
Context (Z0 : forall t js i e, G !! t = Some (Some r, js) -> length js = 3%nat -> rd (mem w) t i = Some e ->
  Z.land e ADDRMASK = 0).

(** Labels below [x]. *)
Definition under (js : list nat) (u : Z) : Prop := exists i ks, G !! u = Some (Some r, js ++ i :: ks).

Lemma entry_child d t js es e :
  G !! t = Some (Some r, js) -> (length js + d = 3)%nat -> mem w !! t = Some es ->
  forall i, take (if (d =? 3)%nat then 256 else 512) es !! i = Some e -> Z.land e ADDRMASK <> 0 ->
  G !! Z.land e ADDRMASK = Some (Some r, js ++ [i]) /\ (0 < d)%nat.
Proof.
  intros Gt Ld Es i Hi Ne. apply lookup_take_Some in Hi as [Hi Hb]. pose proof (rd_es _ _ _ _ _ Es Hi) as Re.
  assert (Ne0 : e <> 0) by (intros ->; by rewrite Z.land_0_l in Ne). destruct d as [|d].
  - by rewrite (Z0 t js i e Gt) in Ne by (lia || done).
  - destruct (n_next _ _ _ _ (m_node _ _ O _ _ Gt) i e) as (q & Nx & Gq); [simpl; lia|done|done|].
    apply next_land in Nx. subst q. split; [|lia]. rewrite Gq. destruct js as [|j js]; [|done].
    assert (t = r) as -> by (pose proof (n_root _ _ _ _ (m_node _ _ O _ _ Gt) eq_refl) as N; simpl in N; congruence).
    simpl in Ld. assert (d = 2)%nat as -> by lia. simpl in Hb. simpl. unfold owner.
    destruct (Nat.ltb_spec i 256); [done|lia].
Qed.

Lemma destroy_below d t js p :
  G !! t = Some (Some r, js) -> (length js + d = 3)%nat -> destroy (mem w) d t p = release_all (below (mem w) d t) p.
Proof.
  revert t js p. induction d as [|d IH]; intros t js p Gt Ld;
    destruct (n_page _ _ _ _ (m_node _ _ O _ _ Gt)) as (es & Es & _); cbn [destroy below]; rewrite Es; cbn [mbind option_bind];
    apply destroy_entries_chunks; [done|].
  intros e a q (i & Hi)%list_elem_of_lookup -> Na.
  destruct (entry_child (S d) t js es e Gt Ld Es i Hi Na) as [Gc _].
  apply (IH _ _ _ Gc). rewrite length_app. simpl. lia.
Qed.

Lemma NoDup_mjoin (ls : list (list Z)) :
  (forall l, l ∈ ls -> NoDup l) ->
  (forall i j l l' u, ls !! i = Some l -> ls !! j = Some l' -> u ∈ l -> u ∈ l' -> i = j) -> NoDup (mjoin ls).
Proof.
  induction ls as [|l ls IH]; intros N D; [constructor|]. cbn [mjoin list_join]. apply NoDup_app. split_and!.
  - apply N, list_elem_of_here.
  - intros u Hu (l' & Hl & (j & Hj)%list_elem_of_lookup)%list_elem_of_join.
    discriminate (D 0%nat (S j) l l' u eq_refl Hj Hu Hl).
  - apply IH; [intros l' Hl; apply N; by apply elem_of_cons; right|].
    intros i j l1 l2 u H1 H2 U1 U2. by apply (inj S), (D (S i) (S j) l1 l2 u).
Qed.

Lemma below_under d : forall t js, G !! t = Some (Some r, js) -> (length js + d = 3)%nat ->
  NoDup (below (mem w) d t) /\ forall u, u ∈ below (mem w) d t -> under js u.
Proof.
  induction d as [|d IH]; intros t js Gt Ld;
    destruct (n_page _ _ _ _ (m_node _ _ O _ _ Gt)) as (es & Es & _); cbn [below]; rewrite Es.
  - replace (mjoin _) with (@nil Z); [by split; [constructor|intros u ?%not_elem_of_nil]|].
    symmetry. apply elem_of_nil_inv. intros u (l & Hu & (e & -> & He)%list_elem_of_fmap)%list_elem_of_join.
    unfold chunk in Hu. destruct (Z.eqb_spec (Z.land e ADDRMASK) 0) as [|Ne]; [by apply not_elem_of_nil in Hu|].
    apply list_elem_of_lookup in He as (i & Hi). destruct (entry_child 0 t js es e Gt Ld Es i Hi Ne). lia.
  - set (n := if (S d =? 3)%nat then 256%nat else 512%nat). assert (C : forall i e, take n es !! i = Some e ->
      NoDup (chunk (below (mem w) d) e) /\ forall u, u ∈ chunk (below (mem w) d) e ->
        exists ks, G !! u = Some (Some r, js ++ i :: ks)).
    { intros i e Hi. unfold chunk. destruct (Z.eqb_spec (Z.land e ADDRMASK) 0) as [|Ne];
        [split; [constructor|intros u Hu; by apply not_elem_of_nil in Hu]|].
      destruct (entry_child (S d) t js es e Gt Ld Es i Hi Ne) as [Gc _].
      destruct (IH _ _ Gc) as [ND U]; [rewrite length_app; simpl; lia|]. split.
      - apply NoDup_app. split_and!; [done| |apply NoDup_singleton]. intros u Hu ->%list_elem_of_singleton.
        destruct (U _ Hu) as (j & ks & Gu). rewrite Gc in Gu. injection Gu as Gu.
        apply (f_equal length) in Gu. rewrite !length_app in Gu. simpl in Gu. lia.
      - intros u [Hu| ->%list_elem_of_singleton]%elem_of_app; [|by exists []].
        destruct (U _ Hu) as (j & ks & Gu). exists (j :: ks). by rewrite <- app_assoc in Gu. }
    split.
    + apply NoDup_mjoin.
      * intros l (e & -> & (i & Hi)%list_elem_of_lookup)%list_elem_of_fmap. by eapply C.
      * intros i j l l' u H1 H2 U1 U2. rewrite list_lookup_fmap in H1, H2.
        apply fmap_Some in H1 as (e1 & H1 & ->). apply fmap_Some in H2 as (e2 & H2 & ->).
        destruct (C _ _ H1) as [_ C1], (C _ _ H2) as [_ C2]. destruct (C1 _ U1) as [ks1 G1], (C2 _ U2) as [ks2 G2].
        rewrite G1 in G2. injection G2 as G2. by apply app_inv_head in G2; injection G2 as G2.
    + intros u (l & Hu & (e & -> & (i & Hi)%list_elem_of_lookup)%list_elem_of_fmap)%list_elem_of_join.
      destruct (C _ _ Hi) as [_ U]. destruct (U _ Hu) as [ks Gu]. by exists i, ks.
Qed.

Lemma below_step d t js u i e :
  G !! t = Some (Some r, js) -> (length js + S d = 3)%nat -> rd (mem w) t i = Some e -> e <> 0 -> next e = Some u ->
  (js = [] -> (i < 256)%nat) -> page_address u ->
  u ∈ below (mem w) (S d) t /\ forall a, a ∈ below (mem w) d u -> a ∈ below (mem w) (S d) t.
Proof.
  intros Gt Ld Re Ne Nx Hi A. destruct (n_page _ _ _ _ (m_node _ _ O _ _ Gt)) as (es & Es & L).
  assert (Ei : es !! i = Some e) by (unfold rd in Re; rewrite Es in Re; done).
  assert (In : e ∈ take (if (S d =? 3)%nat then 256%nat else 512%nat) es).
  { apply list_elem_of_lookup. exists i. rewrite lookup_take_Some. split; [done|].
    apply lookup_lt_Some in Ei. destruct (Nat.eqb_spec (S d) 3); [|lia]. apply Hi. destruct js; [done|simpl in Ld; lia]. }
  apply next_land in Nx. assert (Ch : chunk (below (mem w) d) e = below (mem w) d u ++ [u]).
  { unfold chunk. rewrite Nx. destruct (Z.eqb_spec u 0); [destruct A; lia|done]. }
  assert (Su : forall a, a ∈ below (mem w) d u ++ [u] -> a ∈ below (mem w) (S d) t).
  { intros a Ha. cbn [below]. rewrite Es. apply list_elem_of_join. exists (below (mem w) d u ++ [u]). split; [done|].
    rewrite <- Ch. by apply list_elem_of_fmap_2. }
  split; [apply Su|intros a Ha; apply Su]; apply elem_of_app; [right|by left]. by apply list_elem_of_singleton.
Qed.

Lemma below_all n : forall u js, length js = n -> (n <= 3)%nat -> G !! u = Some (Some r, js) ->
  (js <> [] -> u ∈ below (mem w) 3 r) /\ forall a, a ∈ below (mem w) (3 - n) u -> a ∈ below (mem w) 3 r.
Proof.
  induction n as [|n IH]; intros u js Ln Hn Gu.
  - destruct js; [|done]. pose proof (n_root _ _ _ _ (m_node _ _ O _ _ Gu) eq_refl) as N. simpl in N.
    assert (u = r) as -> by congruence. done.
  - destruct (m_parent _ _ O _ _ Gu) as (t & x & i & e & Gt & Lt & Hi & Ec & Re & Ne & Nx); [by destruct js|].
    assert (Hx : x = (Some r, x.2) /\ js = x.2 ++ [i] /\ (x.2 = [] -> (i < 256)%nat)).
    { pose proof (n_root _ _ _ _ (m_node _ _ O _ _ Gt)) as N. destruct x as [o [|j ks]]; simpl in *.
      - unfold owner in Ec. destruct (Nat.ltb_spec i 256); [|congruence]. rewrite N by done. split_and!; congruence.
      - split_and!; congruence. }
    destruct Hx as (Hx & -> & Hl). rewrite Hx in Gt. rewrite length_app in Ln. simpl in Ln.
    destruct (IH t x.2) as [I1 I2]; [lia|lia|done|].
    destruct (below_step (3 - S n) t x.2 u i e) as [B1 B2]; try done; [lia|apply (n_addr _ _ _ _ (m_node _ _ O _ _ Gu))|].
    replace (S (3 - S n)) with (3 - n)%nat in * by lia. split; [intros _; by apply I2|]. intros a Ha. by apply I2, B2.
Qed.

Lemma below_iff u : u ∈ below (mem w) 3 r <-> exists js, js <> [] /\ G !! u = Some (Some r, js).
Proof.
  split.
  - intros Hu. destruct (below_under 3 r [] R eq_refl) as [_ U]. destruct (U u Hu) as (i & ks & Gu). by exists (i :: ks).
  - intros (js & Nj & Gu). destruct (below_all (length js) u js) as [B _]; [done| |done|by apply B].
    apply (n_len _ _ _ _ (m_node _ _ O _ _ Gu)).
Qed.
End destroy.

Lemma release_all_ok l p :
  frames_ok p -> NoDup l -> (forall a, a ∈ l -> page_address a /\ refs p a = 1) ->
  exists p', release_all l p = Some p' /\ frames_ok p' /\
    forall b, b mod PAGE_SIZE = 0 -> refs p' b = if bool_decide (b ∈ l) then 0 else refs p b.
Proof.
  revert p. induction l as [|a l IH]; intros p F ND H.
  - exists p. split_and!; [done|done|]. intros b _. rewrite bool_decide_false; [done|]. apply not_elem_of_nil.
  - apply NoDup_cons in ND as [Na ND]. destruct (H a (list_elem_of_here a l)) as [A Ra]. cbn [release_all].
    destruct (release_ok p a F A) as (p1 & -> & F1 & R1); [lia|]. cbn [mbind option_bind].
    destruct (IH p1 F1 ND) as (p' & -> & F' & R').
    + intros b Hb. destruct (H b) as [B Rb]; [by apply elem_of_cons; right|]. split; [done|].
      rewrite R1 by apply B. rewrite bool_decide_false; [done|]. by intros ->.
    + exists p'. split_and!; [done|done|]. intros b M. rewrite R', R1 by done.
      destruct (decide (b = a)) as [->|Ne].
      * rewrite (bool_decide_false (a ∈ l)), !bool_decide_true by (done || apply list_elem_of_here). lia.
      * rewrite (bool_decide_false (b = a)) by done. do 2 case_bool_decide; set_solver.
Qed.

(** No page is mapped below the table any more. *)
Fixpoint cleared m (depth : nat) (table : Z) : bool :=
  match m !! table with
  | None => false
  | Some es => forallb (fun e => (Z.land e ADDRMASK =? 0) ||
      match depth with O => false | S d => cleared m d (Z.land e ADDRMASK) end) (take (if (depth =? 3)%nat then 256 else 512) es)
  end.

Lemma cleared_entry m d t i e :
  cleared m d t = true -> rd m t i = Some e -> (d = 3 -> i < 256)%nat -> (i < 512)%nat -> Z.land e ADDRMASK <> 0 ->
  exists d', d = S d' /\ cleared m d' (Z.land e ADDRMASK) = true.
Proof.
  intros C Re Hi Hi' Ne. unfold rd in Re.
  assert (C' : exists es, m !! t = Some es /\ forallb (fun e => (Z.land e ADDRMASK =? 0) ||
      match d with O => false | S d => cleared m d (Z.land e ADDRMASK) end) (take (if (d =? 3)%nat then 256 else 512) es) = true).
  { destruct d; cbn [cleared] in C; destruct (m !! t) as [es|]; eauto; done. }
  destruct C' as (es & Es & F). rewrite Es in Re. rewrite forallb_forall in F. specialize (F e).
  assert (In : List.In e (take (if (d =? 3)%nat then 256%nat else 512%nat) es)).
  { apply list_elem_of_In, list_elem_of_lookup. exists i. rewrite lookup_take_Some. split; [done|].
    destruct (Nat.eqb_spec d 3); [by apply Hi|done]. }
  specialize (F In). destruct (Z.eqb_spec (Z.land e ADDRMASK) 0) as [|_]; [done|]. destruct d as [|d]; [done|]. by exists d.
Qed.

Lemma cleared_label w G r n : forall t js, mmu_ok w G -> cleared (mem w) 3 r = true ->
  G !! t = Some (Some r, js) -> length js = n -> (n <= 3)%nat -> cleared (mem w) (3 - n) t = true.
Proof.
  induction n as [|n IH]; intros t js O C Gt Ln Hn.
  - destruct js; [|done]. pose proof (n_root _ _ _ _ (m_node _ _ O _ _ Gt) eq_refl) as N. simpl in N. by injection N as ->.
  - destruct (m_parent _ _ O _ _ Gt) as (q & x & i & e & Gq & Lq & Hi & Ec & Re & Ne & Nx); [by destruct js|].
    assert (Hx : x = (Some r, x.2) /\ js = x.2 ++ [i] /\ (x.2 = [] -> (i < 256)%nat)).
    { pose proof (n_root _ _ _ _ (m_node _ _ O _ _ Gq)) as N. destruct x as [o [|j ks]]; simpl in *.
      - unfold owner in Ec. destruct (Nat.ltb_spec i 256); [|congruence]. rewrite N by done. split_and!; congruence.
      - split_and!; congruence. }
    destruct Hx as (Hx & -> & Hl). rewrite Hx in Gq. rewrite length_app in Ln. simpl in Ln. apply next_land in Nx.
    destruct (cleared_entry (mem w) (3 - n) q i e) as (d' & Ed & C'); try done.
    + apply (IH q x.2); try done; lia.
    + intros E. apply Hl. destruct x.2; [done|simpl in Ln; lia].
    + rewrite Nx. pose proof (n_addr _ _ _ _ (m_node _ _ O _ _ Gt)) as [? _]. lia.
    + rewrite Nx in C'. by replace (3 - S n)%nat with d' by lia.
Qed.

Lemma leaves_clear w G r : mmu_ok w G -> cleared (mem w) 3 r = true ->
  forall t js i e, G !! t = Some (Some r, js) -> length js = 3%nat -> rd (mem w) t i = Some e -> Z.land e ADDRMASK = 0.
Proof.
  intros O C t js i e Gt L Re. destruct (decide (Z.land e ADDRMASK = 0)) as [|Ne]; [done|].
  destruct (cleared_entry (mem w) 0 t i e) as (d' & ? & _); try done.
  - by apply (cleared_label w G r 3 t js).
  - destruct (n_page _ _ _ _ (m_node _ _ O _ _ Gt)) as (es & Es & Le). unfold rd in Re. rewrite Es in Re.
    apply lookup_lt_Some in Re. lia.
Qed.

Definition without (r : Z) G : gmap Z (option Z * list nat) := filter (fun '(_, (o, _)) => o <> Some r) G.

Lemma without_lookup r G u o js : without r G !! u = Some (o, js) <-> G !! u = Some (o, js) /\ o <> Some r.
Proof. unfold without. rewrite map_lookup_filter_Some. done. Qed.

Lemma without_ok w G r p :
  mmu_ok w G -> G !! r = Some (Some r, []) -> r <> template w -> frames_ok p ->
  (forall t o js, G !! t = Some (o, js) -> o <> Some r -> refs p t = 1) ->
  mmu_ok (mk_mmu (mem w) p (template w)) (without r G).
Proof.
  intros O R Nt F Rf. split; simpl.
  - done.
  - intros t [o js] [Gt No]%without_lookup. destruct (m_node _ _ O _ _ Gt) as [Na Nl Np Nr Nn]. split; try done.
    intros i e Lx Re Ne. destruct (Nn i e Lx Re Ne) as (q & Nx & Gq). exists q. split; [done|].
    destruct (child t (o, js) i) as [o' js'] eqn:Ec. apply without_lookup. split; [done|].
    simpl in *. destruct js as [|j js]; [|congruence]. unfold owner in Ec. specialize (Nr eq_refl).
    destruct (i <? 256)%nat; injection Ec as <- <-; congruence.
  - intros t [o js] [Gt No]%without_lookup. by eapply Rf.
  - apply without_lookup. split; [apply O|congruence].
  - apply O.
  - intros q i [Gq _]%without_lookup. by apply O.
  - intros Bt q [Gq _]%without_lookup. by apply (m_boot _ _ O Bt).
  - intros u [o js] [Gu No]%without_lookup Ny. destruct (m_parent _ _ O _ _ Gu Ny) as (q & x & i & e & Gq & Lq & Hi & Ec & Re & Ne & Nx).
    destruct (decide (x.1 = Some r)) as [Ex|Ex].
    + pose proof (n_root _ _ _ _ (m_node _ _ O _ _ Gq)) as N. destruct x as [o' [|j js']]; simpl in *; [|congruence].
      rewrite N in Ex by done. injection Ex as ->. unfold owner in Ec. destruct (Nat.ltb_spec i 256); [congruence|].
      destruct (m_kernel _ _ O r i R) as [K _]; [lia|].
      exists (template w), (Some (template w), []), i, e. split_and!; try done; [| |congruence].
      * apply without_lookup. split; [apply O|congruence].
      * simpl. unfold owner. destruct (Nat.ltb_spec i 256); [lia|done].
    + exists q, x, i, e. split_and!; try done. destruct x as [o' js']. by apply without_lookup.
Qed.

Lemma destroytable_ok w G r :
  mmu_ok w G -> G !! r = Some (Some r, []) -> r <> template w -> cleared (mem w) 3 r = true ->
  exists p, arch_mmu_destroytable r w = Some (mk_mmu (mem w) p (template w)) /\
    mmu_ok (mk_mmu (mem w) p (template w)) (without r G) /\
    forall b, b mod PAGE_SIZE = 0 -> refs p b = if bool_decide (b = r \/ b ∈ below (mem w) 3 r) then 0 else refs (frames w) b.
Proof.
  intros O R Nt H. pose proof (leaves_clear w G r O H) as Z0. unfold arch_mmu_destroytable.
  rewrite (destroy_below w G r O Z0 3 r []) by done. destruct (below_under w G r O Z0 3 r [] R eq_refl) as [ND U].
  destruct (release_all_ok (below (mem w) 3 r) (frames w)) as (p1 & -> & F1 & R1); [apply O|done| |].
  { intros a (i & ks & Ga)%U. split; [apply (n_addr _ _ _ _ (m_node _ _ O _ _ Ga))|by eapply O]. }
  cbn [mbind option_bind]. pose proof (n_addr _ _ _ _ (m_node _ _ O _ _ R)) as Ar.
  assert (Nr : r ∉ below (mem w) 3 r) by (intros (i & ks & Gr)%U; rewrite R in Gr; done).
  destruct (release_ok p1 r F1 Ar) as (p & -> & F & R2).
  { rewrite R1 by apply Ar. rewrite bool_decide_false by done. rewrite (m_ref _ _ O _ _ R). lia. }
  cbn [mbind option_bind]. assert (Rp : forall b, b mod PAGE_SIZE = 0 ->
    refs p b = if bool_decide (b = r \/ b ∈ below (mem w) 3 r) then 0 else refs (frames w) b).
  { intros b M. rewrite R2 by done. destruct (decide (b = r)) as [->|Ne].
    - rewrite !bool_decide_true by auto. rewrite R1 by apply Ar. rewrite bool_decide_false by done.
      rewrite (m_ref _ _ O _ _ R). lia.
    - rewrite (bool_decide_false (b = r)) by done. rewrite R1 by done. do 2 case_bool_decide; tauto. }
  exists p. split_and!; [done| |done]. apply without_ok; try done. intros t o js Gt No.
  rewrite Rp by apply (n_addr _ _ _ _ (m_node _ _ O _ _ Gt)). rewrite bool_decide_false; [by eapply O|].
  intros [->|(i & ks & Gu)%U]; congruence.
Qed.

(** ** Pages that are not tables *)

Lemma mmu_ok_frames w G p : mmu_ok w G -> frames_ok p -> (forall t x, G !! t = Some x -> refs p t = 1) ->
  mmu_ok (mk_mmu (mem w) p (template w)) G.
Proof. intros [] F R. by split. Qed.

Lemma mmu_ok_page w G a es : mmu_ok w G -> G !! a = None ->
  mmu_ok (mk_mmu (<[a := es]> (mem w)) (frames w) (template w)) G /\
  forall r v, G !! r = Some (Some r, []) -> translate (mk_mmu (<[a := es]> (mem w)) (frames w) (template w)) r v = translate w r v.
Proof.
  intros O Na. set (w' := mk_mmu _ _ _).
  assert (Rd : forall t i, is_Some (G !! t) -> rd (mem w') t i = rd (mem w) t i).
  { intros t i [x Gt]. apply rd_insert_ne. congruence. }
  assert (Rt : is_Some (G !! template w)) by (rewrite (m_template _ _ O); eauto). split.
  - destruct O as [M1 M2 M3 M4 M5 M6 M7 M8]. split; try done.
    + intros t x Gt. destruct (M2 t x Gt) as [N1 N2 N3 N4 N5]. split; try done.
      * unfold w'. simpl. rewrite lookup_insert_ne by congruence. done.
      * intros i e Lx Re. rewrite Rd in Re by eauto. by apply N5.
    + intros i Hi. change (template w') with (template w). rewrite Rd by done. by apply M5.
    + intros r i R Hi. change (template w') with (template w). rewrite !Rd by eauto. by apply M6.
    + intros u y Gu Ny. destruct (M8 u y Gu Ny) as (q & z & k & e & Gq & Lq & Hk & Ey & Rq & Nx).
      exists q, z, k, e. rewrite Rd by eauto. split_and!; try done; apply Nx.
  - intros r v R. assert (S : walk (mem w') r (path v) = walk (mem w) r (path v)).
    { apply (walk_same _ _ G _ _ (Some r, [])); try done; [apply O|]. intros u x i Gu _. apply Rd. eauto. }
    unfold translate, reach. rewrite S, <- get_page_walk.
    destruct (get_page_ok w G r v O R) as [->|(u & e & -> & _ & Gu)]; [done|]. rewrite Rd by eauto. done.
Qed.

End inv.
Arguments mmu_ok {P _ _} bt w G.

(** ** Runs

    [live] is the set of tables in use besides the template. *)
Section run.
Context {P : Type} `{!Frames P, !FramesLaws P}.
Implicit Types (w : mmu P) (m : gmap Z (list Z)) (G : gmap Z (option Z * list nat)).

Definition mmu_inv w (live : gset Z) : Prop :=
  exists G, mmu_ok true w G /\ forall q, q ∈ live <-> G !! q = Some (Some q, []) /\ q <> template w.

Inductive mmu_op :=
  | NewTable
  | Map (r paddr v flags : Z)
  | Unmap (r v : Z)
  | Remap (r paddr v flags : Z)
  | DestroyTable (r : Z).

Definition mmu_exec (o : mmu_op) w : option (Z * mmu P) :=
  match o with
  | NewTable => '(t, w) ← arch_mmu_newtable w; Some (default 0 t, w)
  | Map r paddr v flags => '(b, w) ← arch_mmu_map r paddr v flags w; Some (Z.b2z b, w)
  | Unmap r v => w ← arch_mmu_unmap r v w; Some (0, w)
  | Remap r paddr v flags => w ← arch_mmu_remap r paddr v flags w; Some (0, w)
  | DestroyTable r => w ← arch_mmu_destroytable r w; Some (0, w)
  end.

(** Tables are in use; a page is present when it is remapped; the pages of a
    table are unmapped before it is destroyed. *)
Definition mmu_legal (o : mmu_op) (live : gset Z) w : bool :=
  match o with
  | NewTable => true
  | Map r _ _ _ | Unmap r _ => bool_decide (r ∈ live)
  | Remap r _ v _ => bool_decide (r ∈ live) && negb (translate w r v =? 0)
  | DestroyTable r => bool_decide (r ∈ live) && cleared (mem w) 3 r
  end.

Definition live_after (o : mmu_op) (res : Z) (live : gset Z) : gset Z :=
  match o with
  | NewTable => if res =? 0 then live else {[res]} ∪ live
  | DestroyTable r => live ∖ {[r]}
  | _ => live
  end.

(** What an operation does to the entries of every table in use, and to the
    references of pages that were in use. *)
Definition mmu_spec (o : mmu_op) (live : gset Z) w (res : Z) w' : Prop :=
  (match o with
  | NewTable => (res <> 0 -> (res ∉ live) /\
      (forall v, (pml4offset v < 256)%nat -> translate w' res v = 0) /\
      forall v q, (256 <= pml4offset v)%nat -> q ∈ live -> translate w' res v = translate w q v) /\
      forall q v, q ∈ live -> translate w' q v = translate w q v
  | Map r paddr v flags => forall q v', q ∈ live -> translate w' q v' =
      if (res =? 1) && same_page r v q v' then Z.lor (Z.land paddr ADDRMASK) flags else translate w q v'
  | Unmap r v => forall q v', q ∈ live -> translate w' q v' = if same_page r v q v' then 0 else translate w q v'
  | Remap r paddr v flags => forall q v', q ∈ live -> translate w' q v' =
      if same_page r v q v' then Z.lor (Z.land (if paddr =? 0 then translate w r v else paddr) ADDRMASK) flags
      else translate w q v'
  | DestroyTable r => (forall q v', q ∈ live -> q <> r -> translate w' q v' = translate w q v') /\
      forall b, b mod PAGE_SIZE = 0 -> refs (frames w') b =
        if bool_decide (b = r \/ b ∈ below (mem w) 3 r) then 0 else refs (frames w) b
  end) /\
  match o with
  | DestroyTable _ => True
  | _ => forall a, a mod PAGE_SIZE = 0 -> 0 < refs (frames w) a -> refs (frames w') a = refs (frames w) a
  end.

Fixpoint mmu_run (os : list mmu_op) w : option (list (Z * mmu P)) :=
  match os with
  | [] => Some []
  | o :: os' => '(r, w') ← mmu_exec o w; tr ← mmu_run os' w'; Some ((r, w') :: tr)
  end.

Fixpoint mmu_legal_run (os : list mmu_op) (live : gset Z) w : bool :=
  match os with
  | [] => true
  | o :: os' => mmu_legal o live w &&
      match mmu_exec o w with None => true | Some (r, w') => mmu_legal_run os' (live_after o r live) w' end
  end.

Fixpoint mmu_trace (os : list mmu_op) (live : gset Z) w (tr : list (Z * mmu P)) : Prop :=
  match os, tr with
  | [], [] => True
  | o :: os', (r, w') :: tr' => mmu_spec o live w r w' /\ mmu_trace os' (live_after o r live) w' tr'
  | _, _ => False
  end.

Lemma exec_new w live : mmu_inv w live ->
  exists r w', mmu_exec NewTable w = Some (r, w') /\ mmu_spec NewTable live w r w' /\ mmu_inv w' (live_after NewTable r live).
Proof.
  intros (G & O & L). cbn [mmu_exec]. destruct (newtable_ok w G O eq_refl) as (x & w' & G' & -> & O' & T & V & Rf & _ & X).
  cbn [mbind option_bind]. eexists _, _. split; [done|]. destruct x as [t|]; cbn [from_option id].
  - destruct X as (Rt & -> & Vt). pose proof (n_addr _ _ _ _ (m_node _ _ O' t _ (lookup_insert_eq _ _ _))) as [At _].
    assert (Gt : G !! t = None) by (by eapply unused_table).
    split; [split; [split|done]|].
    + intros _. split_and!.
      * rewrite L. intros [Q _]. congruence.
      * intros v Hv. rewrite Vt. destruct (Nat.ltb_spec (pml4offset v) 256); [done|lia].
      * intros v q Hv [Hq _]%L. rewrite Vt. destruct (Nat.ltb_spec (pml4offset v) 256); [lia|].
        unfold translate, reach. rewrite <- !get_page_walk. by rewrite (get_page_kernel w G q (template w)) by (done || apply O).
    + intros q v [Hq _]%L. by apply V.
    + exists (<[t := (Some t, [])]> G). split; [done|]. intros q. simpl. destruct (Z.eqb_spec t 0); [lia|].
      rewrite elem_of_union, elem_of_singleton, L, T. destruct (decide (q = t)) as [->|Ne].
      * rewrite lookup_insert_eq. split; [|tauto]. intros _. split; [done|]. intros E. rewrite E, (m_template _ _ O) in Gt. done.
      * rewrite lookup_insert_ne by done. tauto.
  - destruct X as [-> _]. split; [split; [split|]|].
    + done.
    + intros q v [Hq _]%L. by apply V.
    + done.
    + exists G. split; [done|]. intros q. simpl. by rewrite L, T.
Qed.

Lemma exec_destroy w live r : mmu_inv w live -> mmu_legal (DestroyTable r) live w = true ->
  exists w', mmu_exec (DestroyTable r) w = Some (0, w') /\ mmu_spec (DestroyTable r) live w 0 w' /\
    mmu_inv w' (live_after (DestroyTable r) 0 live).
Proof.
  intros (G & O & L) [Hr%bool_decide_eq_true C]%andb_prop. pose proof Hr as [Gr Nt]%L.
  destruct (destroytable_ok w G r O Gr Nt C) as (p & E & O' & Rf). cbn [mmu_exec]. rewrite E. cbn [mbind option_bind].
  eexists. split; [done|]. split; [split; [split; [done|exact Rf]|done]|].
  exists (without r G). split; [done|]. intros q. simpl. rewrite elem_of_difference, elem_of_singleton, without_lookup, L.
  split; [intros [[? ?] Ne]; split_and!; [done|by intros [= ->]|done]|intros [[? Ne] ?]; split_and!; [done|done|by intros ->]].
Qed.

Lemma mmu_exec_ok o w live : mmu_inv w live -> mmu_legal o live w = true ->
  exists r w', mmu_exec o w = Some (r, w') /\ mmu_spec o live w r w' /\ mmu_inv w' (live_after o r live).
Proof.
  intros I Lg. destruct o as [|r paddr v flags|r v|r paddr v flags|r]; [by apply exec_new| | | |].
  - destruct I as (G & O & L). apply bool_decide_eq_true in Lg. destruct (proj1 (L r) Lg) as [Gr Nt].
    destruct (add_page_ok w G r v (Z.lor (Z.land paddr ADDRMASK) flags) O Gr) as (b & w' & G' & E & O' & Ro & T & Rf & _ & _ & _ & V); [by left|].
    cbn [mmu_exec]. unfold arch_mmu_map. rewrite E. cbn [mbind option_bind]. eexists _, _. split; [done|]. split; [split; [|done]|].
    + intros q v' [Hq _]%L. rewrite V by done. by destruct b.
    + exists G'. split; [done|]. intros q. simpl. by rewrite L, Ro, T.
  - destruct I as (G & O & L). apply bool_decide_eq_true in Lg. destruct (proj1 (L r) Lg) as [Gr Nt].
    destruct (set_entry_ok w G r v (fun _ => 0) O Gr) as (w' & E & O' & F & T & _ & V).
    cbn [mmu_exec]. unfold arch_mmu_unmap. rewrite E. cbn [mbind option_bind]. eexists _, _. split; [done|]. split; [split|].
    + intros q v' [Hq _]%L. destruct V as [V|[V0 ->]]; [by apply V|]. destruct (same_page r v q v') eqn:S; [|done].
      unfold same_page in S. apply andb_prop in S as [Sp%bool_decide_eq_true Sr].
      rewrite <- V0. unfold translate, reach. rewrite Sp, <- !get_page_walk.
      apply orb_prop in Sr as [->%bool_decide_eq_true|K%Nat.leb_le]; [done|]. by rewrite (get_page_kernel w G r q v O).
    + intros a _ _. by rewrite F.
    + exists G. split; [done|]. intros q. simpl. by rewrite L, T.
  - destruct I as (G & O & L). apply andb_prop in Lg as [Lg%bool_decide_eq_true N0]. destruct (proj1 (L r) Lg) as [Gr Nt].
    destruct (set_entry_ok w G r v (fun e => Z.lor (Z.land (if paddr =? 0 then e else paddr) ADDRMASK) flags) O Gr) as (w' & E & O' & F & T & _ & V).
    cbn [mmu_exec]. unfold arch_mmu_remap. rewrite E. cbn [mbind option_bind]. eexists _, _. split; [done|]. split; [split|].
    + intros q v' [Hq _]%L. destruct V as [V|[V0 _]]; [by apply V|]. rewrite V0 in N0. done.
    + intros a _ _. by rewrite F.
    + exists G. split; [done|]. intros q. simpl. by rewrite L, T.
  - exists 0. by apply exec_destroy.
Qed.

(** C2. Page tables behave as maps from pages to entries: along every legal run
    of creating, mapping, unmapping, remapping and destroying, no table is ever
    dereferenced outside itself, each operation changes exactly the entry of
    the page it names (in all tables at once for the kernel's half, in one
    table for the user's half, in none when memory is exhausted), a new table
    has the kernel's entries and no user entry, and destroying a table returns
    exactly its own pages to the allocator and no other. *)
Theorem mmu_run_refines os w live :
  mmu_inv w live -> mmu_legal_run os live w = true ->
  exists tr, mmu_run os w = Some tr /\ mmu_trace os live w tr.
Proof.
  revert w live. induction os as [|o os IH]; intros w live I Lg; [by exists []|].
  cbn [mmu_legal_run] in Lg. apply andb_prop in Lg as [Lo Lr].
  destruct (mmu_exec_ok o w live I Lo) as (r & w' & E & S & I'). rewrite E in Lr.
  destruct (IH w' _ I' Lr) as (tr & Et & Tr). exists ((r, w') :: tr). cbn [mmu_run mmu_trace]. rewrite E. cbn [mbind option_bind].
  by rewrite Et.
Qed.

End run.

(** ** Start of the machine *)
Section init.
Context {P : Type} `{!Frames P}.

Definition mapped (e : limine_memmap_entry) : bool := match type e with OTHER_MEMORY => false | _ => true end.

(** The pages from [off] on of a range of [n] bytes. *)
Definition page_offsets (n : Z) : list Z := (fun k => PAGE_SIZE * Z.of_nat k) <$> seq 0 (Z.to_nat ((n + PAGE_SIZE - 1) / PAGE_SIZE)).

(** The second loop: the higher half direct map. *)
Definition hhdm_pages (hhdmbase : Z) (es : list limine_memmap_entry) : list (Z * Z) :=
  e ← filter (fun e => mapped e = true) es;
  (fun i => (u64 (base e + i + hhdmbase),
     Z.lor (Z.land (u64 (base e + i)) ADDRMASK) (Z.lor (Z.lor ARCH_MMU_FLAGS_READ ARCH_MMU_FLAGS_WRITE) ARCH_MMU_FLAGS_NOEXEC)))
    <$> page_offsets (length_ e).

Definition kernelflags : list Z :=
  [ARCH_MMU_FLAGS_READ; Z.lor (Z.lor ARCH_MMU_FLAGS_READ ARCH_MMU_FLAGS_WRITE) ARCH_MMU_FLAGS_NOEXEC;
   Z.lor ARCH_MMU_FLAGS_READ ARCH_MMU_FLAGS_NOEXEC].

(** The third loop: text, data and read only data of the kernel, [kerneladdr]
    being where the linker put them. *)
Definition kernel_pages (virtual_base physical_base : Z) (kerneladdr : list (Z * Z)) : list (Z * Z) :=
  '((start, end_), flags) ← zip kerneladdr kernelflags;
  (fun off => (u64 (start + off),
     Z.lor (Z.land (u64 (u64 (start - virtual_base + physical_base) + off)) ADDRMASK) flags)) <$> page_offsets (u64 (end_ - start)).

(** The first loop fills entries [i] to 511 of the template. *)
Fixpoint fill_template (n i : nat) (w : mmu P) : option (mmu P) :=
  match n with
  | O => Some w
  | S n' =>
      '(r, p) ← allocpage (frames w);
      entry ← r;
      m ← wr (<[entry := zeroed]> (mem w)) (template w) i (Z.lor entry INTERMEDIATE_FLAGS);
      fill_template n' (S i) (mk_mmu m p (template w))
  end.

Fixpoint add_pages (top : Z) (ps : list (Z * Z)) (w : mmu P) : option (mmu P) :=
  match ps with
  | [] => Some w
  | (v, entry) :: ps' =>
      '(b, w) ← add_page top v entry 0 w;
      _ ← passert b;
      add_pages top ps' w
  end.

Definition arch_mmu_init (hhdmbase virtual_base physical_base : Z) (kerneladdr : list (Z * Z))
    (es : list limine_memmap_entry) (p : P) : option (mmu P) :=
  '(r, p) ← allocpage p;
  template ← r;
  w ← fill_template 256 256 (mk_mmu {[template := zeroed]} p template);
  w ← add_pages template (hhdm_pages hhdmbase es) w;
  add_pages template (kernel_pages virtual_base physical_base kerneladdr) w.
End init.

Section init_ok.
Context {P : Type} `{!Frames P, !FramesLaws P}.
Implicit Types (w : mmu P) (G : gmap Z (option Z * list nat)).

Lemma template_start p t : frames_ok p -> page_address t -> refs p t = 1 ->
  mmu_ok false (mk_mmu {[t := zeroed]} p t) {[t := (Some t, [])]}.
Proof.
  intros F A R. assert (Z0 : forall i e, rd {[t := zeroed]} t i = Some e -> e = 0).
  { intros i e. unfold rd. rewrite lookup_singleton_eq. cbn [mbind option_bind]. by intros ->%zeroed_lookup. }
  split; simpl; [done| | |apply lookup_singleton_eq| | | |].
  - intros u x [<- <-]%lookup_singleton_Some. split; simpl; [done|lia| |done|].
    + exists zeroed. by rewrite lookup_singleton_eq, zeroed_length.
    + intros i e _ Re Ne. by apply Z0 in Re.
  - by intros u x [<- <-]%lookup_singleton_Some.
  - intros i Hi. unfold rd. rewrite lookup_singleton_eq. cbn [mbind option_bind]. apply zeroed_lt. lia.
  - by intros q i [<- _]%lookup_singleton_Some.
  - by intros _ q [<- _]%lookup_singleton_Some.
  - by intros u x [<- <-]%lookup_singleton_Some.
Qed.

Lemma boot_done w G : mmu_ok false w G -> (forall i, (256 <= i < 512)%nat -> rd (mem w) (template w) i <> Some 0) -> mmu_ok true w G.
Proof.
  intros O F. destruct O as [? ? ? ? ? Mk Mb ?]. split; try done. intros r i R Hi. destruct (Mk r i R Hi) as [K _].
  split; [done|]. intros _. rewrite K. by apply F.
Qed.

Lemma fill_template_ok n : forall i w G w', (i + n = 512)%nat -> (256 <= i)%nat -> mmu_ok false w G ->
  (forall j, (256 <= j < i)%nat -> rd (mem w) (template w) j <> Some 0) ->
  (forall j, (i <= j < 512)%nat -> rd (mem w) (template w) j = Some 0) ->
  (forall v, translate w (template w) v = 0) ->
  fill_template n i w = Some w' ->
  exists G', mmu_ok true w' G' /\ (forall q, G' !! q = Some (Some q, []) <-> G !! q = Some (Some q, [])) /\
    template w' = template w /\ forall v, translate w' (template w) v = 0.
Proof.
  induction n as [|n IH]; intros i w G w' Hn Hi O Hb Ha V E; cbn [fill_template] in E.
  - injection E as <-. exists G. split_and!; try done. apply boot_done; [done|]. intros j Hj. apply Hb. lia.
  - destruct (allocpage_ok _ (m_frames _ _ O)) as (r & p & Ea & Fo & Fr). rewrite Ea in E. cbn [mbind option_bind] in E.
    destruct r as [a|]; [|done]. destruct Fr as (A & Ra & Fr). cbn [mbind option_bind] in E.
    set (t := template w) in *. pose proof (m_template _ _ O) as Gt. fold t in Gt.
    destruct (n_page _ _ _ _ (m_node _ _ O _ _ Gt)) as (es & Es & L).
    assert (Ga : G !! a = None) by (by eapply unused_table). assert (Nta : t <> a) by congruence.
    destruct (wr_ok (<[a := zeroed]> (mem w)) t i (Z.lor a INTERMEDIATE_FLAGS) es) as [W _];
      [by rewrite lookup_insert_ne|lia|]. rewrite W in E. cbn [mbind option_bind] in E.
    rewrite insert_insert_ne in E by done.
    set (w1 := mk_mmu _ _ t) in E. change (mk_mmu _ p t) with w1 in E.
    assert (O1 : mmu_ok false w1 (<[a := child t (Some t, []) i]> G)).
    { apply grow_mmu_ok; first [done|lia|simpl; lia|intros _; by right|apply Ha; lia]. }
    assert (S1 : grows w G w1 (<[a := child t (Some t, []) i]> G)).
    { eapply grow_grows; first [done|simpl; lia|apply Ha; lia]. }
    assert (R1 : forall k, rd (mem w1) t k = if bool_decide (t = t /\ k = i) then Some (Z.lor a INTERMEDIATE_FLAGS) else rd (mem w) t k).
    { intros k. apply (grow_rd (bt := false) w G t (Some t, []) i a p es); first [done|simpl; lia|by exists (Some t, [])|apply Ha; lia]. }
    assert (Na0 : Z.lor a INTERMEDIATE_FLAGS <> 0) by (intros Q0; pose proof (lor_table a A) as Q; by rewrite Q0 in Q).
    destruct (IH (S i) w1 _ w' ltac:(lia) ltac:(lia) O1) as (G' & O' & Ro & T & V'); try done.
    + intros j Hj. change (template w1) with t. rewrite R1. case_bool_decide; [congruence|]. apply Hb. lia.
    + intros j Hj. change (template w1) with t. rewrite R1. rewrite bool_decide_false by lia. apply Ha. lia.
    + intros v. change (template w1) with t. rewrite (g_view _ _ _ _ S1) by done. apply V.
    + exists G'. split_and!; try done. intros q. rewrite Ro. split; intros Q; [by apply (g_roots _ _ _ _ S1)|].
      eapply lookup_weaken; [done|apply S1].
Qed.

(** The entry of [v] after the pages [ps] have been entered in order. *)
Definition last_entry (v : Z) (e : Z) (ps : list (Z * Z)) : Z :=
  foldl (fun e '(v', e') => if bool_decide (path v = path v') then e' else e) e ps.

Lemma add_pages_ok ps : forall w w', mmu_inv w ∅ -> Forall (fun '(v, _) => (256 <= pml4offset v)%nat) ps ->
  add_pages (template w) ps w = Some w' ->
  mmu_inv w' ∅ /\ template w' = template w /\
  forall v, translate w' (template w) v = last_entry v (translate w (template w) v) ps.
Proof.
  induction ps as [|[v e] ps IH]; intros w w' I K E; cbn [add_pages] in E; [by injection E as <-|].
  apply Forall_cons in K as [Kv K]. destruct I as (G & O & L).
  destruct (add_page_ok w G (template w) v e O) as (b & w1 & G1 & E1 & O1 & R1 & T1 & _ & _ & _ & _ & V1); [apply O|by right|].
  rewrite E1 in E. cbn [mbind option_bind] in E. destruct b; [|done]. cbn [passert mbind option_bind] in E.
  rewrite <- T1 in E. destruct (IH w1 w') as (I' & T' & V'); [|done|done|].
  - exists G1. split; [done|]. intros q. by rewrite L, R1, T1.
  - split_and!; [done|congruence|]. intros v'. rewrite <- T1, V', T1, V1 by apply O. cbn [last_entry foldl andb].
    f_equal. unfold same_page. rewrite (bool_decide_true (template w = template w)), andb_true_r by done. done.
Qed.

(** The tables that [arch_mmu_init] leaves satisfy the invariant and translate
    exactly the direct map and the kernel's image, when its addresses are in the
    kernel's half. *)
Lemma arch_mmu_init_ok hhdmbase vbase pbase ks es p w :
  frames_ok p -> arch_mmu_init hhdmbase vbase pbase ks es p = Some w ->
  Forall (fun '(v, _) => (256 <= pml4offset v)%nat) (hhdm_pages hhdmbase es ++ kernel_pages vbase pbase ks) ->
  mmu_inv w ∅ /\ forall v, translate w (template w) v =
    last_entry v 0 (hhdm_pages hhdmbase es ++ kernel_pages vbase pbase ks).
Proof.
  intros F E K. unfold arch_mmu_init in E. destruct (allocpage_ok _ F) as (r & p1 & Ea & Fo & Fr). rewrite Ea in E.
  cbn [mbind option_bind] in E. destruct r as [t|]; [|done]. destruct Fr as (A & Ra & Fr). cbn [mbind option_bind] in E.
  set (w0 := mk_mmu _ p1 t) in E. apply bind_Some in E as (w1 & E1 & E). apply bind_Some in E as (w2 & E2 & E3).
  apply Forall_app in K as [K1 K2].
  destruct (fill_template_ok 256 256 w0 {[t := (Some t, [])]} w1) as (G1 & O1 & R1 & T1 & V1); try done.
  - apply template_start; [done|done|]. rewrite Fr by apply A. by rewrite bool_decide_true.
  - intros j Hj. lia.
  - intros j Hj. unfold w0, rd. simpl. rewrite lookup_singleton_eq. cbn [mbind option_bind]. apply zeroed_lt. lia.
  - intros v. unfold translate. apply reach_zero. unfold w0. simpl. apply lookup_singleton_eq.
  - change (template w0) with t in *. assert (I1 : mmu_inv w1 ∅).
    { exists G1. split; [done|]. intros q. rewrite R1, T1. split; [intros []%not_elem_of_empty|]. intros [[<- _]%lookup_singleton_Some ?]. done. }
    rewrite <- T1 in E2. destruct (add_pages_ok _ w1 w2 I1 K1 E2) as (I2 & T2 & V2).
    rewrite <- T1, <- T2 in E3. destruct (add_pages_ok _ w2 w I2 K2 E3) as (I3 & T3 & V3).
    split; [done|]. intros v. rewrite T3, V3, T2, V2, T1, V1. unfold last_entry. by rewrite foldl_app.
Qed.
End init_ok.

(** ** The allocator of [pmm.c] as [Frames], when nobody interferes *)

#[export] Instance pmm_frames : Frames pmm_t := {
  allocpage s := pmm_allocpage [] PMM_SECTION_DEFAULT s;
  release := pmm_release;
  hold := pmm_hold;
  refs s a := match info s !! page_of a with Some (None, r, _) => r | _ => 0 end
}.

(** The page at address zero is never handed out, and pages that are held
    without a file behind them are not dirty. *)
Record pmm_frames_ok (s : pmm_t) : Prop := {
  pf_ok : exists ls, pmm_ok s ls /\ 0%nat ∉ mjoin ls;
  pf_top : forall q, is_Some (info s !! q) -> Z.of_nat q < 2 ^ 51;
  pf_clean : forall q r f, info s !! q = Some (None, r, f) -> 0 < r -> has f PAGE_FLAGS_DIRTY = false
}.

Lemma page_number_address p : (0 < p)%nat -> Z.of_nat p < 2 ^ 51 -> page_address (pmm_getpageaddress p).
Proof.
  intros H0 H. unfold page_address, pmm_getpageaddress, PAGE_SIZE. split; [lia|]. apply Z.mod_mul. lia.
Qed.

Lemma page_of_inj a b : 0 <= a -> a mod PAGE_SIZE = 0 -> 0 <= b -> b mod PAGE_SIZE = 0 -> page_of a = page_of b -> a = b.
Proof.
  unfold page_of, PAGE_SIZE. intros. pose proof (Z.div_mod a 4096). pose proof (Z.div_mod b 4096).
  assert (a / 4096 = b / 4096); [|lia]. apply Z2Nat.inj; [apply Z.div_pos; lia..|done].
Qed.

(** Changing the entry of one page in [info] changes the count of that page. *)
Lemma refs_insert s s' q r f b :
  (0 < q)%nat -> info s' = <[q := (None, r, f)]> (info s) -> 0 <= r ->
  refs s' b = if bool_decide (page_of b = q) then r else refs s b.
Proof.
  intros Hq E Hr. simpl. rewrite E. case_bool_decide as Q.
  - by rewrite Q, lookup_insert_eq.
  - by rewrite lookup_insert_ne.
Qed.

Lemma page_of_eq a b : page_address a -> b mod PAGE_SIZE = 0 -> page_of b = page_of a <-> b = a.
Proof.
  intros [A M] Mb. split; [|by intros ->]. intros E. destruct (decide (0 <= b)); [apply page_of_inj; lia|].
  exfalso. unfold page_of, PAGE_SIZE in *. assert (b / 4096 < 0) by (apply Z.div_lt_upper_bound; lia).
  assert (1 <= a / 4096) by (apply Z.div_le_lower_bound; [lia|]; pose proof (Z.div_mod a 4096); lia). lia.
Qed.

Lemma clean_insert s s' q r f :
  pmm_frames_ok s -> info s' = <[q := (None, r, f)]> (info s) -> (0 < r -> has f PAGE_FLAGS_DIRTY = false) ->
  forall q' r' f', info s' !! q' = Some (None, r', f') -> 0 < r' -> has f' PAGE_FLAGS_DIRTY = false.
Proof.
  intros F E H q' r' f' E' R'. rewrite E in E'. destruct (decide (q' = q)) as [->|Ne].
  - rewrite lookup_insert_eq in E'. injection E' as -> ->. auto.
  - rewrite lookup_insert_ne in E' by done. by eapply (pf_clean _ F).
Qed.

Lemma frames_insert s s' ls' q b r r' f f' :
  pmm_frames_ok s -> pmm_ok s' ls' -> 0%nat ∉ mjoin ls' -> info s !! q = Some (b, r, f) ->
  info s' = <[q := (None, r', f')]> (info s) -> (0 < r' -> has f' PAGE_FLAGS_DIRTY = false) -> pmm_frames_ok s'.
Proof.
  intros F Ok N0 Eq E H. split; [by exists ls'| |by eapply clean_insert].
  intros q' Hq'. apply (pf_top _ F). rewrite E in Hq'. destruct (decide (q' = q)) as [->|Ne]; [by rewrite Eq|].
  by rewrite lookup_insert_ne in Hq'.
Qed.

Lemma refs_page s a : pmm_frames_ok s -> page_address a -> 0 < refs s a ->
  exists r f, info s !! page_of a = Some (None, r, f) /\ refs s a = r /\ has f PAGE_FLAGS_DIRTY = false /\ (0 < page_of a)%nat.
Proof.
  intros F [A M] R. simpl in R |- *. destruct (info s !! page_of a) as [[[[b|] r] f]|] eqn:E; try lia.
  exists r, f. split_and!; [done|done|by eapply (pf_clean _ F)|]. unfold page_of, PAGE_SIZE in *.
  assert (1 <= a / 4096) by (apply Z.div_le_lower_bound; [lia|]; pose proof (Z.div_mod a 4096); lia). lia.
Qed.

#[export, refine] Instance pmm_laws : FramesLaws pmm_t := { frames_ok := pmm_frames_ok }.
Proof.
  - intros s a F. destruct (pf_ok _ F) as (ls & Ok & _). simpl.
    destruct (info s !! page_of a) as [[[[b|] r] f]|] eqn:E; try lia. by eapply (io_refcount _ _ (proj2 Ok)).
  - intros s F. destruct (pf_ok _ F) as (ls & Ok & N0).
    destruct (pmm_allocpage_alone PMM_SECTION_DEFAULT s ls Ok) as (r & s' & ls' & E & Ok' & Sub & X); [unfold PMM_SECTION_DEFAULT; lia|].
    exists r, s'. split; [done|]. destruct r as [a|]; [|by subst s'].
    destruct X as (p & b & f & -> & Hp & Ei & Ei').
    assert (Hp0 : (0 < p)%nat) by (destruct p; [done|lia]).
    assert (A : page_address (pmm_getpageaddress p)) by (apply page_number_address; [done|]; apply (pf_top _ F); eauto).
    split; [eapply frames_insert; [done|done|set_solver|done|done|done]|]. split_and!; [done| |].
    + simpl. rewrite page_of_address, Ei. by destruct b.
    + intros a Ma. rewrite (refs_insert s s' p 1 0 a) by (done || lia).
      apply (f_equal (fun b : bool => if b then _ else _)), bool_decide_ext.
      rewrite <- (page_of_eq _ a A Ma), page_of_address. done.
  - intros s a F A R. destruct (refs_page s a F A R) as (r & f & Ei & Er & Cl & Hp). rewrite Er in *.
    destruct (pf_ok _ F) as (ls & Ok & N0).
    destruct (pmm_release_ok s ls Ok a None r f Ei R (fun _ => Cl)) as (s' & ls' & E & Ok' & Ei' & Pm).
    exists s'. split; [done|]. split.
    + eapply frames_insert; [done|exact Ok'| |exact Ei|exact Ei'|].
      * rewrite Pm. case_match; [|done]. rewrite elem_of_app, list_elem_of_singleton. intros [Q|Q]; [lia|done].
      * intros H. destruct (Z.eqb_spec r 1); [lia|done].
    + intros b Mb. rewrite (refs_insert s s' _ _ _ b Hp Ei') by lia.
      apply (f_equal (fun b : bool => if b then _ else _)), bool_decide_ext, (page_of_eq a b A Mb).
  - intros s a F A [R Rm]. destruct (refs_page s a F A R) as (r & f & Ei & Er & Cl & Hp). rewrite Er in *.
    destruct (pf_ok _ F) as (ls & Ok & N0).
    destruct (internalhold_ok s ls Ok (page_of a) None r f Ei) as (s' & ls' & E & Ok' & Ei' & Sub); [by left|lia|].
    exists s'. split; [done|]. split.
    + eapply frames_insert; [done|exact Ok'| |exact Ei|exact Ei'|done]. set_solver.
    + intros b Mb. rewrite (refs_insert s s' _ _ _ b Hp Ei') by lia.
      apply (f_equal (fun b : bool => if b then _ else _)), bool_decide_ext, (page_of_eq a b A Mb).
Defined.

(** A pool of pages none of which is held. *)
Lemma placing_frames count s ls : placing count s ls -> count <= 2 ^ 51 -> 0%nat ∉ mjoin ls -> pmm_frames_ok s.
Proof.
  intros [Ok Pc Pz] Hc N0. assert (Dom : forall q, is_Some (info s !! q) -> Z.of_nat q < count).
  { intros q [[[b r] f] E]. destruct (info_inv _ _ _ _ _ E) as (pg & Ep & _). rewrite <- Pc. apply (co_dom _ _ (proj1 Ok)). eauto. }
  split; [by exists ls|intros q Hq; specialize (Dom q Hq); lia|]. intros q r f E R.
  destruct (decide (q ∈ mjoin ls)) as [(b & f' & _ & _ & E' & _)%(listed_info s ls Ok)|Nq]; [simplify_eq; lia|].
  rewrite Pz in E; [simplify_eq; lia|by apply Dom|done].
Qed.

(** ** Witnesses *)

(** 320 pages, of which 2 to 319 are free. *)
Definition boot_start : pmm_t :=
  mk_pmm (map_seq 0 (replicate 320 zero_page)) (replicate 6 None) (replicate 6 None) 0 (baseid <$> [0; 1; 2]%nat) 320
    0x1000000 0x1001000 0.

Definition boot_pmm : pmm_t := default boot_start (place_loop 318 2 boot_start).

Lemma boot_pmm_ok : pmm_frames_ok boot_pmm.
Proof.
  destruct (place_loop_ok 320 318 2 boot_start (replicate 6 [])) as (s & ls & E & Pl & Hl).
  - apply (placing_start 320 0x1000000 0x1001000 0); done.
  - done.
  - intros q _ Q. by apply not_elem_of_nil in Q.
  - unfold boot_pmm. rewrite E. apply (placing_frames 320 s ls); [done|lia|]. rewrite Hl.
    intros [Q|Q]; [lia|by apply not_elem_of_nil in Q].
Qed.

Definition boot_map : list limine_memmap_entry := [mk_memmap_entry 0x2000 0x3000 USABLE; mk_memmap_entry 0x9000 0x1000 OTHER_MEMORY].

Definition boot_kernel : list (Z * Z) :=
  [(0xffffffff80000000, 0xffffffff80002000); (0xffffffff80002000, 0xffffffff80003000); (0xffffffff80003000, 0xffffffff80003800)].

Definition boot_mmu : mmu pmm_t :=
  default (mk_mmu ∅ boot_pmm 0) (arch_mmu_init 0xffff800000000000 0xffffffff80000000 0x100000 boot_kernel boot_map boot_pmm).

Lemma boot_mmu_ok : mmu_inv boot_mmu ∅.
Proof.
  destruct (arch_mmu_init 0xffff800000000000 0xffffffff80000000 0x100000 boot_kernel boot_map boot_pmm) as [w|] eqn:E.
  - unfold boot_mmu. rewrite E. eapply arch_mmu_init_ok; [exact boot_pmm_ok|exact E|].
    apply (bool_decide_unpack _). vm_compute. exact I.
  - assert (Q : bool_decide (is_Some (arch_mmu_init 0xffff800000000000 0xffffffff80000000 0x100000 boot_kernel boot_map boot_pmm)) = true)
      by (vm_compute; reflexivity). rewrite E in Q. done.
Qed.

(** Two tables; a user page in the first, protected and then unmapped; a kernel
    page; the end of the first table. *)
Definition boot_ops : list mmu_op :=
  [ NewTable; NewTable; Map 0x3a000 0x5000 0x400000 7; Map 0x3a000 0x6000 0xffff900000000000 3; Remap 0x3a000 0 0x400000 5;
    Unmap 0x3a000 0x400000; DestroyTable 0x3a000 ].

Lemma mmu_run_refines_witness :
  mmu_legal_run boot_ops ∅ boot_mmu = true /\
  exists tr, mmu_run boot_ops boot_mmu = Some tr /\ fst <$> tr = [0x3a000; 0x39000; 1; 1; 0; 0; 0] /\
    (exists w, snd <$> last tr = Some w /\ translate w 0x39000 0xffff900000000000 = 0x6003 /\ refs (frames w) 0x3a000 = 0).
Proof.
  split; [vm_compute; reflexivity|].
  destruct (mmu_run_refines boot_ops boot_mmu ∅ boot_mmu_ok) as (tr & E & _); [vm_compute; reflexivity|].
  exists tr. split; [done|].
  assert (Q : (fun tr : list (Z * mmu pmm_t) => (fst <$> tr,
      (fun w => (translate w 0x39000 0xffff900000000000, refs (frames w) 0x3a000)) <$> (snd <$> last tr)))
      <$> mmu_run boot_ops boot_mmu = Some ([0x3a000; 0x39000; 1; 1; 0; 0; 0], Some (0x6003, 0))) by (vm_compute; reflexivity).
  rewrite E in Q. cbn [fmap option_fmap option_map] in Q. injection Q as Q1 Q2. split; [done|].
  destruct (last tr) as [[r w]|]; [|done]. cbn in Q2. injection Q2 as Q2 Q3. exists w. by split_and!.
Defined.
