(* ===== verification/Vmm.v ===== *)
(** * Virtual memory ([mm/vmm.c], [include/kernel/vmm.h])

    An address space is a chain of ranges; the records of the ranges are slots
    of pages that [vmm.c] takes from the page allocator itself.  The chain is
    modelled at pointer level, over a heap that maps the number of a slot to its
    record.  Page tables, physical pages and their contents are those of [Mmu];
    vnodes and the page cache are behind the interface [Files].  A section
    between [MUTEX_ACQUIRE] and [MUTEX_RELEASE] of a space's lock is one step. *)

From S2P Require Import Prelude Errno Vnode DList Pmm Mmu.

Definition VMM_FLAGS_PAGESIZE : Z := 1.
Definition VMM_FLAGS_ALLOCATE : Z := 2.
Definition VMM_FLAGS_PHYSICAL : Z := 4.
Definition VMM_FLAGS_FILE : Z := 8.
Definition VMM_FLAGS_EXACT : Z := 16.
Definition VMM_FLAGS_SHARED : Z := 32.
Definition VMM_FLAGS_REPLACE : Z := 64.
Definition VMM_FLAGS_CREDCHECK : Z := 128.

Definition VMM_PERMANENT_FLAGS_MASK : Z := Z.lor (Z.lor VMM_FLAGS_FILE VMM_FLAGS_SHARED) VMM_FLAGS_PHYSICAL.

Definition VMM_ACTION_READ : Z := 1.
Definition VMM_ACTION_WRITE : Z := 2.
Definition VMM_ACTION_EXEC : Z := 4.

Definition KERNELSPACE_START : Z := 0xffff800000000000.
Definition KERNELSPACE_END : Z := 0xffffffffffffffff.
Definition USERSPACE_START : Z := 0x1000.
Definition USERSPACE_END : Z := 0x800000000000.

Definition ERROR_PRESENT : Z := 1.
Definition ERROR_WRITE : Z := 2.
Definition ERROR_FETCH : Z := 16.

Definition ARCH_CONTEXT_ISUSER (cs : Z) : bool := cs =? 0x23.

Record vmmrange_t := mk_range {
  next : option nat;
  prev : option nat;
  start : Z;
  size_ : Z;
  flags : Z;
  mmuflags : Z;
  vnode : nat;
  offset : Z
}.

Definition RANGE_TOP (r : vmmrange_t) : Z := u64 (start r + size_ r).

#[export, refine] Instance range_linked : Linked vmmrange_t (Z * Z * Z * Z * nat * Z) := {
  lnext := next;
  lprev := prev;
  payload r := (start r, size_ r, flags r, mmuflags r, vnode r, offset r);
  with_next v r := mk_range v (prev r) (start r) (size_ r) (flags r) (mmuflags r) (vnode r) (offset r);
  with_prev v r := mk_range (next r) v (start r) (size_ r) (flags r) (mmuflags r) (vnode r) (offset r)
}.
Proof. all: done. Defined.

Definition with_size (z : Z) (r : vmmrange_t) : vmmrange_t :=
  mk_range (next r) (prev r) (start r) z (flags r) (mmuflags r) (vnode r) (offset r).

Definition with_mmuflags (f : Z) (r : vmmrange_t) : vmmrange_t :=
  mk_range (next r) (prev r) (start r) (size_ r) (flags r) f (vnode r) (offset r).

(** ** The slots of the ranges *)

(** [VMM_RANGES_PER_CACHE]: the header takes 48 bytes of the page and a range 64. *)
Definition VMM_RANGES_PER_CACHE : nat := 63.

Record vmmcacheheader_t := mk_header { freecount : Z; firstfree : nat }.

(** Slot [r] of the [c]th cache has the number [c * VMM_RANGES_PER_CACHE + r]. *)
Record pool := mk_pool { heap : gmap nat vmmrange_t; caches : list vmmcacheheader_t }.

Definition slot (c r : nat) : nat := (c * VMM_RANGES_PER_CACHE + r)%nat.

Definition empty_range : vmmrange_t := mk_range None None 0 0 0 0 0 0.

(** A new page of slots.  The fields [newcache] does not set are unspecified;
    they are zero here. *)
Fixpoint clear_slots (n base_ : nat) (h : gmap nat vmmrange_t) : gmap nat vmmrange_t :=
  match n with O => h | S n' => <[base_ := empty_range]> (clear_slots n' (S base_) h) end.

Section pool.
Context {P : Type} `{!Frames P}.

Definition newcache (pl : pool) (p : P) : option (bool * pool * P) :=
  '(r, p) ← allocpage p;
  match r with
  | None => Some (false, pl, p)
  | Some _ =>
      Some (true, mk_pool (clear_slots VMM_RANGES_PER_CACHE (slot (length (caches pl)) 0) (heap pl))
              (caches pl ++ [mk_header (Z.of_nat VMM_RANGES_PER_CACHE) 0]), p)
  end.

(** The first free slot of cache [c] from [i] on, [n] slots being left. *)
Fixpoint getentrynumber_loop (n c i : nat) (pl : pool) : option nat :=
  match n with
  | O => None
  | S n' =>
      r ← heap pl !! slot c i;
      if size_ r =? 0 then Some i else getentrynumber_loop n' c (S i) pl
  end.

Definition getentrynumber (c : nat) (h : vmmcacheheader_t) (pl : pool) : option nat :=
  getentrynumber_loop (VMM_RANGES_PER_CACHE - firstfree h) c (firstfree h) pl.

Fixpoint allocrange_loop (fuel c : nat) (pl : pool) (p : P) : option (option nat * pool * P) :=
  match fuel with
  | O => None
  | S fuel' =>
      match caches pl !! c with
      | None => Some (None, pl, p)
      | Some h =>
          if freecount h >? 0 then
            r ← getentrynumber c h pl;
            hp ← upd (slot c r) (with_size (u64 (-1))) (heap pl);
            Some (Some (slot c r), mk_pool hp (<[c := mk_header (u64 (freecount h - 1)) (S r)]> (caches pl)), p)
          else
            '(_, pl, p) ← (if (S c =? length (caches pl))%nat then newcache pl p else Some (false, pl, p));
            allocrange_loop fuel' (S c) pl p
      end
  end.

Definition allocrange (pl : pool) (p : P) : option (option nat * pool * P) :=
  allocrange_loop (S (S (length (caches pl)))) 0 pl p.
End pool.

Definition freerange (x : nat) (pl : pool) : option pool :=
  let c := (x / VMM_RANGES_PER_CACHE)%nat in
  let rangeoffset := (x mod VMM_RANGES_PER_CACHE)%nat in
  h ← caches pl !! c;
  hp ← upd x (with_size 0) (heap pl);
  Some (mk_pool hp (<[c := mk_header (u64 (freecount h + 1))
                        (if (rangeoffset <? firstfree h)%nat then rangeoffset else firstfree h)]> (caches pl))).

(** ** Vnodes and the page cache

    [cacheable] is [vfs_iscacheable]; [canwritevnode] is [VOP_ACCESS] for
    writing with the credentials of the caller; [vop_mmap] and [vop_munmap] map
    and unmap one page of a vnode that is not cached; [getpage] and [makedirty]
    are [vmmcache_getpage] and [vmmcache_makedirty].  Each stands for the call
    with the lock of the vnode around it. *)
Class Files (F P : Type) := {
  vop_hold : nat -> F -> option F;
  vop_release : nat -> F -> option F;
  cacheable : F -> nat -> bool;
  canwritevnode : F -> nat -> bool;
  vop_mmap : nat -> Z -> Z -> Z -> mmu P * F -> option (Z * (mmu P * F));
  vop_munmap : nat -> Z -> Z -> Z -> mmu P * F -> option (Z * (mmu P * F));
  getpage : nat -> Z -> mmu P * F -> option (Z * Z * (mmu P * F));
  makedirty : Z -> mmu P * F -> option (mmu P * F)
}.

Definition mmuflagstovnodeflags (m : Z) : Z :=
  Z.lor (Z.lor (if has m ARCH_MMU_FLAGS_READ then V_FFLAGS_READ else 0)
               (if has m ARCH_MMU_FLAGS_WRITE then V_FFLAGS_WRITE else 0))
        (if has m ARCH_MMU_FLAGS_NOEXEC then 0 else V_FFLAGS_EXEC).

Definition vnodeflagstommuflags (f : Z) : Z :=
  Z.lor (Z.lor (Z.lor ARCH_MMU_FLAGS_USER (if has f V_FFLAGS_READ then ARCH_MMU_FLAGS_READ else 0))
               (if has f V_FFLAGS_WRITE then ARCH_MMU_FLAGS_WRITE else 0))
        (if has f V_FFLAGS_EXEC then 0 else ARCH_MMU_FLAGS_NOEXEC).

(** A context: the chain of its space, and its page table. *)
Record vmmcontext_t := mk_ctx { ranges : option nat; pagetable : Z }.

(** [sigbus] counts the signals sent to the current thread. *)
Record vmm (F P : Type) := mk_vmm {
  slots : pool;
  kernelranges : option nat;
  contexts : gmap nat vmmcontext_t;
  current : nat;
  zeropage : Z;
  hw : mmu P;
  files : F;
  sigbus : nat
}.
Arguments mk_vmm {F P}.
Arguments slots {F P}.
Arguments kernelranges {F P}.
Arguments contexts {F P}.
Arguments current {F P}.
Arguments zeropage {F P}.
Arguments hw {F P}.
Arguments files {F P}.
Arguments sigbus {F P}.

Inductive space := KernelSpace | UserSpace (c : nat).

Definition space_start (sp : space) : Z := match sp with KernelSpace => KERNELSPACE_START | UserSpace _ => USERSPACE_START end.
Definition space_end (sp : space) : Z := match sp with KernelSpace => KERNELSPACE_END | UserSpace _ => USERSPACE_END end.

(** ** The chain of a space *)
Section chain.

(** [getrange]; the fuel bounds the length of the chain. *)
Fixpoint getrange (fuel : nat) (h : gmap nat vmmrange_t) (range : option nat) (addr : Z) : option (option nat) :=
  match fuel with
  | O => None
  | S fuel' =>
      match range with
      | None => Some None
      | Some x =>
          r ← h !! x;
          if (start r <=? addr) && (addr <? RANGE_TOP r) then Some (Some x) else getrange fuel' h (next r) addr
      end
  end.

(** The loop of [getfreerange] and what follows it; [NULL] is [0]. *)
Fixpoint getfreerange_loop (fuel : nat) (h : gmap nat vmmrange_t) (send : Z) (x : nat) (addr size : Z) : option Z :=
  match fuel with
  | O => None
  | S fuel' =>
      r ← h !! x;
      let addr := if addr <? RANGE_TOP r then RANGE_TOP r else addr in
      match next r with
      | Some y =>
          n ← h !! y;
          if (addr <? start n) && (u64 (start n - addr) >=? size) then Some addr
          else getfreerange_loop fuel' h send y addr size
      | None => Some (if negb (addr =? send) && (u64 (send - addr) >=? size) then addr else 0)
      end
  end.

Definition getfreerange (h : gmap nat vmmrange_t) (sp : space) (head : option nat) (addr len : Z) : option Z :=
  let addr := if addr =? 0 then space_start sp else addr in
  match head with
  | None => Some addr
  | Some x =>
      r ← h !! x;
      if negb (start r =? space_start sp) && (addr <? start r) && (u64 (start r - addr) >=? len) then Some addr
      else getfreerange_loop (S (size h)) h (space_end sp) x addr len
  end.
End chain.

Section insert.
Context {F P : Type} `{!Files F P}.

(** The walk of [insertrange] to the range after which the new one goes: the
    gap that holds its start, or the end of the chain. *)
Fixpoint insert_after (fuel : nat) (h : gmap nat vmmrange_t) (x : nat) (newstart : Z) : option nat :=
  match fuel with
  | O => None
  | S fuel' =>
      r ← h !! x;
      match next r with
      | None => Some x
      | Some y =>
          n ← h !! y;
          if (newstart >=? RANGE_TOP r) && (newstart <? start n) then Some x else insert_after fuel' h y newstart
      end
  end.

(** Linking the new range into the chain: head of the chain and heap. *)
Definition insert_link (head : option nat) (new : nat) (h : gmap nat vmmrange_t) : option (option nat * gmap nat vmmrange_t) :=
  match head with
  | None =>
      h ← upd new (fun r => with_prev None (with_next None r)) h;
      Some (Some new, h)
  | Some x =>
      r ← h !! x;
      nr ← h !! new;
      if RANGE_TOP nr <=? start r then
        h ← upd new (with_next (Some x)) h;
        h ← upd x (with_prev (Some new)) h;
        h ← upd new (with_prev None) h;
        Some (Some new, h)
      else
        y ← insert_after (S (size h)) h x (start nr);
        ry ← h !! y;
        h ← upd new (fun r => with_prev (Some y) (with_next (next ry) r)) h;
        h ← upd y (with_next (Some new)) h;
        Some (head, h)
  end.

(** May [a] and [b], in this order, become one range? *)
Definition joinable (a b : vmmrange_t) : bool :=
  (flags a =? flags b) && (mmuflags a =? mmuflags b) &&
  (negb (has (flags a) VMM_FLAGS_FILE) || ((vnode a =? vnode b)%nat && (u64 (offset a + size_ a) =? offset b))).

(** Joining the new range and the next; [newrangetop] was computed at the
    start. *)
Definition join_next (new : nat) (newrangetop : Z) (pl : pool) (f : F) : option (pool * F) :=
  nr ← heap pl !! new;
  match next nr with
  | None => Some (pl, f)
  | Some old =>
      o ← heap pl !! old;
      if (start o =? newrangetop) && joinable nr o then
        h ← upd new (fun r => with_next (next o) (with_size (u64 (size_ nr + size_ o)) r)) (heap pl);
        h ← set_prev (next o) (Some new) h;
        pl ← freerange old (mk_pool h (caches pl));
        f ← (if has (flags nr) VMM_FLAGS_FILE then vop_release (vnode nr) f else Some f);
        Some (pl, f)
      else Some (pl, f)
  end.

Definition join_prev (new : nat) (pl : pool) (f : F) : option (pool * F) :=
  nr ← heap pl !! new;
  match prev nr with
  | None => Some (pl, f)
  | Some old =>
      o ← heap pl !! old;
      if (RANGE_TOP o =? start nr) && joinable o nr then
        h ← upd old (fun r => with_next (next nr) (with_size (u64 (size_ o + size_ nr)) r)) (heap pl);
        h ← set_prev (next nr) (Some old) h;
        pl ← freerange new (mk_pool h (caches pl));
        f ← (if has (flags o) VMM_FLAGS_FILE then vop_release (vnode o) f else Some f);
        Some (pl, f)
      else Some (pl, f)
  end.

Definition insertrange (head : option nat) (new : nat) (pl : pool) (f : F) : option (option nat * pool * F) :=
  nr ← heap pl !! new;
  '(head', h) ← insert_link head new (heap pl);
  match head with
  | None => Some (head', mk_pool h (caches pl), f)
  | Some _ =>
      '(pl, f) ← join_next new (RANGE_TOP nr) (mk_pool h (caches pl)) f;
      '(pl, f) ← join_prev new pl f;
      Some (head', pl, f)
  end.
End insert.

(** ** Operations on the state *)
Section state.
Context {F P : Type} `{!Frames P, !Files F P}.
Implicit Types (s : vmm F P).

Definition set_slots (pl : pool) s : vmm F P :=
  mk_vmm pl (kernelranges s) (contexts s) (current s) (zeropage s) (hw s) (files s) (sigbus s).
Definition set_hw (w : mmu P) s : vmm F P :=
  mk_vmm (slots s) (kernelranges s) (contexts s) (current s) (zeropage s) w (files s) (sigbus s).
Definition set_files (f : F) s : vmm F P :=
  mk_vmm (slots s) (kernelranges s) (contexts s) (current s) (zeropage s) (hw s) f (sigbus s).
Definition set_world (wf : mmu P * F) s : vmm F P := set_files wf.2 (set_hw wf.1 s).
Definition set_frames (p : P) s : vmm F P := set_hw (mk_mmu (mem (hw s)) p (template (hw s))) s.
Definition send_sigbus s : vmm F P :=
  mk_vmm (slots s) (kernelranges s) (contexts s) (current s) (zeropage s) (hw s) (files s) (S (sigbus s)).
Definition set_contexts (cs : gmap nat vmmcontext_t) s : vmm F P :=
  mk_vmm (slots s) (kernelranges s) cs (current s) (zeropage s) (hw s) (files s) (sigbus s).
Definition set_current (c : nat) s : vmm F P :=
  mk_vmm (slots s) (kernelranges s) (contexts s) c (zeropage s) (hw s) (files s) (sigbus s).

(** The chain of a space. *)
Definition space_ranges (sp : space) s : option (option nat) :=
  match sp with KernelSpace => Some (kernelranges s) | UserSpace c => ranges <$> contexts s !! c end.

Definition set_ranges (sp : space) (hd : option nat) s : option (vmm F P) :=
  match sp with
  | KernelSpace => Some (mk_vmm (slots s) hd (contexts s) (current s) (zeropage s) (hw s) (files s) (sigbus s))
  | UserSpace c => x ← contexts s !! c; Some (set_contexts (<[c := mk_ctx hd (pagetable x)]> (contexts s)) s)
  end.

(** The page table of the current context. *)
Definition cur_table s : option Z := pagetable <$> contexts s !! current s.

Definition getspace (vaddr : Z) s : option space :=
  if (USERSPACE_START <=? vaddr) && (vaddr <? USERSPACE_END) then Some (UserSpace (current s))
  else if (KERNELSPACE_START <=? vaddr) && (vaddr <? KERNELSPACE_END) then Some KernelSpace
  else None.

Definition do_allocrange s : option (option nat * vmm F P) :=
  '(x, pl, p) ← allocrange (slots s) (frames (hw s)); Some (x, set_frames p (set_slots pl s)).

Definition do_freerange (x : nat) s : option (vmm F P) := pl ← freerange x (slots s); Some (set_slots pl s).

Definition do_insertrange (sp : space) (new : nat) s : option (vmm F P) :=
  hd ← space_ranges sp s;
  '(hd', pl, f) ← insertrange hd new (slots s) (files s);
  set_ranges sp hd' (set_files f (set_slots pl s)).

(** [pmm_release] and [pmm_hold]. *)
Definition do_release (a : Z) s : option (vmm F P) := p ← release a (frames (hw s)); Some (set_frames p s).
Definition do_hold (a : Z) s : option (vmm F P) := p ← hold a (frames (hw s)); Some (set_frames p s).

Definition do_unmap (v : Z) s : option (vmm F P) :=
  t ← cur_table s; w ← arch_mmu_unmap t v (hw s); Some (set_hw w s).

Definition do_remap (paddr v fl : Z) s : option (vmm F P) :=
  t ← cur_table s; w ← arch_mmu_remap t paddr v fl (hw s); Some (set_hw w s).

Definition do_map (paddr v fl : Z) s : option (bool * vmm F P) :=
  t ← cur_table s; '(b, w) ← arch_mmu_map t paddr v fl (hw s); Some (b, set_hw w s).

Definition do_makedirty (physical : Z) s : option (vmm F P) :=
  wf ← makedirty physical (hw s, files s); Some (set_world wf s).

(** [i += PAGE_SIZE] from [off] while [i < top]. *)
Definition page_count (n : Z) : nat := Z.to_nat ((n + PAGE_SIZE - 1) / PAGE_SIZE).

Fixpoint each_page (n : nat) (a : Z) (g : Z -> vmm F P -> option (vmm F P)) s : option (vmm F P) :=
  match n with O => Some s | S n' => s ← g a s; each_page n' (a + PAGE_SIZE) g s end.

Definition shared_flag (r : vmmrange_t) : Z := if has (flags r) VMM_FLAGS_SHARED then V_FFLAGS_SHARED else 0.

Definition destroy_page (r : vmmrange_t) (off : Z) s : option (vmm F P) :=
  t ← cur_table s;
  let vaddr := u64 (start r + off) in
  physical ← arch_mmu_getphysical t vaddr (hw s);
  if physical =? 0 then Some s
  else if has (flags r) VMM_FLAGS_FILE && (has (flags r) VMM_FLAGS_SHARED || negb (cacheable (P := P) (files s) (vnode r))) then
    if negb (cacheable (P := P) (files s) (vnode r)) then
      '(e, wf) ← vop_munmap (vnode r) vaddr (u64 (offset r + off))
                   (Z.lor (mmuflagstovnodeflags (mmuflags r)) (shared_flag r)) (hw s, files s);
      _ ← passert (e =? 0);
      Some (set_world wf s)
    else
      writable ← arch_mmu_iswritable t vaddr (hw s);
      s ← do_unmap vaddr s;
      s ← (if writable : bool then do_makedirty physical s else Some s);
      do_release physical s
  else
    s ← do_unmap vaddr s;
    if has (flags r) VMM_FLAGS_PHYSICAL then Some s else do_release physical s.

(** The range is read once: nothing in the loop changes its record. *)
Definition destroyrange (x : nat) (off size : Z) s : option (vmm F P) :=
  r ← heap (slots s) !! x;
  s ← each_page (page_count size) off (destroy_page r) s;
  if has (flags r) VMM_FLAGS_FILE && (size_ r =? size)
  then f ← vop_release (P := P) (vnode r) (files s); Some (set_files f s)
  else Some s.

(** [CHANGE_MASK_CHECK] for the four flags: those set now that will not be. *)
Definition change_mask (cur new : Z) : Z :=
  let one f := if negb (has new f) && has cur f then f else 0 in
  Z.lor (Z.lor (Z.lor (one ARCH_MMU_FLAGS_READ) (one ARCH_MMU_FLAGS_WRITE)) (one ARCH_MMU_FLAGS_USER)) (one ARCH_MMU_FLAGS_NOEXEC).

Definition change_page (r : vmmrange_t) (newflags base_ off : Z) s : option (vmm F P) :=
  t ← cur_table s;
  let address := u64 (base_ + off) in
  fl ← arch_mmu_getflags t address (hw s);
  match fl with
  | None => Some s
  | Some currentflags =>
      physical ← arch_mmu_getphysical t address (hw s);
      let mask := change_mask currentflags newflags in
      s ← (if has (flags r) VMM_FLAGS_FILE && has (flags r) VMM_FLAGS_SHARED && has mask ARCH_MMU_FLAGS_WRITE &&
              cacheable (P := P) (files s) (vnode r)
           then do_makedirty physical s else Some s);
      if mask =? 0 then Some s else do_remap physical address (Z.ldiff currentflags mask) s
  end.

Definition changemmurange (x : nat) (base_ size newflags : Z) s : option (vmm F P) :=
  r ← heap (slots s) !! x;
  each_page (page_count size) 0 (change_page r newflags base_) s.

(** ** [changemap]

    One turn of the loop, on the range [x]; [newrange] is the slot kept ready
    when protections change, and becomes [NULL] when none is left.  The result
    is an error that ends the loop, or [0]. *)

(** [canwritevnode] fails where the caller asked for the check. *)
Definition denied (r : vmmrange_t) (fl : Z) s : bool :=
  has fl VMM_FLAGS_CREDCHECK && has (flags r) VMM_FLAGS_SHARED && has (flags r) VMM_FLAGS_FILE &&
  negb (canwritevnode (P := P) (files s) (vnode r)).

Definition upd_range (x : nat) (g : vmmrange_t -> vmmrange_t) s : option (vmm F P) :=
  h ← upd x g (heap (slots s)); Some (set_slots (mk_pool h (caches (slots s))) s).

Definition do_vop_hold (v : nat) s : option (vmm F P) := f ← vop_hold (P := P) v (files s); Some (set_files f s).

(** The new range [[st, st + sz)] cut out of the range [x]: filled in,
    protected, inserted; then the next spare slot is allocated. *)
Definition put_newrange (sp : space) (x new : nat) (st sz off newmmuflags : Z) s : option (Z * option nat * vmm F P) :=
  r ← heap (slots s) !! x;
  s ← upd_range new (fun n => mk_range (next n) (prev n) st sz (flags r) newmmuflags (vnode n) (offset n)) s;
  s ← changemmurange x st sz newmmuflags s;
  s ← (if has (flags r) VMM_FLAGS_FILE then
         s ← upd_range new (fun n => mk_range (next n) (prev n) (start n) (size_ n) (flags n) (mmuflags n) (vnode r) off) s;
         do_vop_hold (vnode r) s
       else Some s);
  s ← do_insertrange sp new s;
  '(n, s) ← do_allocrange s;
  Some (match n with None => ENOMEM | Some _ => 0 end, n, s).

(** Completely changed. *)
Definition change_all (sp : space) (x : nat) (free : bool) (fl newmmuflags : Z) (newrange : option nat) s
    : option (Z * option nat * vmm F P) :=
  r ← heap (slots s) !! x;
  if free then
    s ← (match prev r with
         | Some y => upd_range y (with_next (next r)) s
         | None => set_ranges sp (next r) s
         end);
    s ← (match next r with Some y => upd_range y (with_prev (prev r)) s | None => Some s end);
    s ← destroyrange x 0 (size_ r) s;
    s ← do_freerange x s;
    Some (0, newrange, s)
  else if denied r fl s then Some (EACCES, newrange, s)
  else
    s ← changemmurange x (start r) (size_ r) newmmuflags s;
    s ← upd_range x (with_mmuflags newmmuflags) s;
    Some (0, newrange, s).

(** The change is inside the range, which is split.  When no slot is left for
    its upper part the copy goes through a null pointer. *)
Definition change_inside (sp : space) (x : nat) (address top size : Z) (free : bool) (fl newmmuflags : Z)
    (newrange : option nat) s : option (Z * option nat * vmm F P) :=
  r ← heap (slots s) !! x;
  if negb free && denied r fl s then Some (EACCES, newrange, s)
  else
    '(n, s) ← do_allocrange s;
    new ← n;
    s ← (if free then destroyrange x (u64 (address - start r)) size s else Some s);
    let rangesize := u64 (address - start r) in
    s ← upd_range new (fun _ => mk_range (next r) (Some x) top (u64 (RANGE_TOP r - top)) (flags r) (mmuflags r) (vnode r)
                                  (if has (flags r) VMM_FLAGS_FILE then u64 (offset r + rangesize + size) else offset r)) s;
    s ← upd_range x (with_size rangesize) s;
    s ← (match next r with Some y => upd_range y (with_prev (Some new)) s | None => Some s end);
    s ← upd_range x (with_next (Some new)) s;
    s ← (if has (flags r) VMM_FLAGS_FILE then do_vop_hold (vnode r) s else Some s);
    if free then Some (0, newrange, s)
    else nr ← newrange; put_newrange sp x nr address size (offset r) newmmuflags s.

(** The end of the change is inside the range. *)
Definition change_head (sp : space) (x : nat) (top : Z) (free : bool) (fl newmmuflags : Z)
    (newrange : option nat) s : option (Z * option nat * vmm F P) :=
  r ← heap (slots s) !! x;
  if negb free && denied r fl s then Some (EACCES, newrange, s)
  else
    let difference := u64 (top - start r) in
    s ← (if free then destroyrange x 0 difference s else Some s);
    let off := if has (flags r) VMM_FLAGS_FILE then u64 (offset r + difference) else offset r in
    s ← upd_range x (fun r => mk_range (next r) (prev r) (u64 (start r + difference)) (u64 (size_ r - difference))
                                (flags r) (mmuflags r) (vnode r) off) s;
    if free then Some (0, newrange, s)
    else nr ← newrange; put_newrange sp x nr (u64 (u64 (start r + difference) - difference)) difference (u64 (off - difference)) newmmuflags s.

(** The start of the change is inside the range. *)
Definition change_tail (sp : space) (x : nat) (address : Z) (free : bool) (fl newmmuflags : Z)
    (newrange : option nat) s : option (Z * option nat * vmm F P) :=
  r ← heap (slots s) !! x;
  if negb free && denied r fl s then Some (EACCES, newrange, s)
  else
    let difference := u64 (RANGE_TOP r - address) in
    let rangesize := u64 (size_ r - difference) in
    s ← upd_range x (with_size rangesize) s;
    if free then s ← destroyrange x rangesize difference s; Some (0, newrange, s)
    else nr ← newrange; put_newrange sp x nr (u64 (start r + rangesize)) difference (u64 (offset r + rangesize)) newmmuflags s.

Definition changemap_step (sp : space) (address top size : Z) (free : bool) (fl newmmuflags : Z) (x : nat)
    (newrange : option nat) s : option (Z * option nat * vmm F P) :=
  r ← heap (slots s) !! x;
  let rangetop := RANGE_TOP r in
  if (start r >=? address) && (rangetop <=? top) then change_all sp x free fl newmmuflags newrange s
  else if (address >? start r) && (top <? rangetop) then change_inside sp x address top size free fl newmmuflags newrange s
  else if (top >? start r) && (start r >=? address) then change_head sp x top free fl newmmuflags newrange s
  else if (address <? rangetop) && (rangetop <=? top) then change_tail sp x address free fl newmmuflags newrange s
  else Some (0, newrange, s).

Fixpoint changemap_loop (fuel : nat) (sp : space) (address top size : Z) (free : bool) (fl newmmuflags : Z)
    (range newrange : option nat) s : option (Z * option nat * vmm F P) :=
  match fuel with
  | O => None
  | S fuel' =>
      match range with
      | None => Some (0, newrange, s)
      | Some x =>
          r ← heap (slots s) !! x;
          if start r <? top then
            hd ← space_ranges sp s;
            _ ← passert (negb (bool_decide (hd = Some x)) || bool_decide (prev r = None));
            '(error, newrange, s) ← changemap_step sp address top size free fl newmmuflags x newrange s;
            if error =? 0 then changemap_loop fuel' sp address top size free fl newmmuflags (next r) newrange s
            else Some (error, newrange, s)
          else Some (0, newrange, s)
      end
  end.

(** [freerange(NULL)] writes through a null pointer. *)
Definition changemap (sp : space) (address len : Z) (free : bool) (fl newmmuflags : Z) s : option (Z * vmm F P) :=
  let top := u64 (address + len) in
  hd ← space_ranges sp s;
  if free then
    '(error, _, s) ← changemap_loop (S (size (heap (slots s)))) sp address top len true fl newmmuflags hd None s;
    Some (error, s)
  else
    '(n, s) ← do_allocrange s;
    match n with
    | None => Some (ENOMEM, s)
    | Some _ =>
        '(error, n, s) ← changemap_loop (S (size (heap (slots s)))) sp address top len false fl newmmuflags hd n s;
        nr ← n;
        s ← do_freerange nr s;
        Some (error, s)
    end.

(** ** The interface *)

(** The number of bytes a request is for. *)
Definition request_size (len fl : Z) : Z :=
  if has fl VMM_FLAGS_PAGESIZE then u64 (len * PAGE_SIZE) else ROUND_UP len PAGE_SIZE.

Definition vmm_changemmuflags (base_ len newflags fl : Z) s : option (Z * vmm F P) :=
  let base_ := ROUND_DOWN base_ PAGE_SIZE in
  let len := request_size len fl in
  if len =? 0 then Some (0, s)
  else match getspace base_ s with
       | None => Some (ENOMEM, s)
       | Some sp => changemap sp base_ len false fl newflags s
       end.

Definition vmm_unmap (addr len fl : Z) s : option (vmm F P) :=
  let addr := ROUND_DOWN addr PAGE_SIZE in
  let len := request_size len fl in
  if len =? 0 then Some s
  else match getspace addr s with
       | None => Some s
       | Some sp =>
           '(_, s) ← changemap sp addr len false fl 0 s;
           '(_, s) ← changemap sp addr len true fl 0 s;
           Some s
       end.

(** The last argument of [vmm_map]: nothing, a file and the offset in it, or a
    physical address. *)
Inductive private := NoPrivate | FileDesc (node : nat) (off : Z) | Physical (paddr : Z).

(** Mapping given pages; on failure every page of the request is unmapped. *)
Fixpoint map_physical (n : nat) (i paddr st mf : Z) (total : nat) s : option (bool * vmm F P) :=
  match n with
  | O => Some (true, s)
  | S n' =>
      '(b, s) ← do_map (u64 (paddr + i)) (u64 (st + i)) mf s;
      if b : bool then map_physical n' (i + PAGE_SIZE) paddr st mf total s
      else s ← each_page total 0 (fun j s => do_unmap (u64 (st + j)) s) s; Some (false, s)
  end.

(** The clean-up after a page could not be mapped looks at the page of index
    [i] once per page of the request. *)
Definition undo_page (st i _j : Z) s : option (vmm F P) :=
  let virt := u64 (st + i) in
  t ← cur_table s;
  physical ← arch_mmu_getphysical t virt (hw s);
  if physical =? 0 then Some s else s ← do_release physical s; do_unmap virt s.

Definition set_page (a : Z) (es : list Z) s : vmm F P :=
  set_hw (mk_mmu (<[a := es]> (mem (hw s))) (frames (hw s)) (template (hw s))) s.

Fixpoint map_allocate (n : nat) (i st mf : Z) (total : nat) s : option (bool * vmm F P) :=
  match n with
  | O => Some (true, s)
  | S n' =>
      '(r, p) ← allocpage (frames (hw s));
      let s := set_frames p s in
      match r with
      | None => Some (false, s)
      | Some allocated =>
          '(b, s) ← do_map allocated (u64 (st + i)) mf s;
          if b : bool then map_allocate n' (i + PAGE_SIZE) st mf total (set_page allocated zeroed s)
          else s ← each_page total 0 (undo_page st i) s; Some (false, s)
      end
  end.

(** Filling in the slot of the new range. *)
Definition fill_range (x : nat) (st len fl mf : Z) (pr : private) s : option (vmm F P) :=
  s ← upd_range x (fun r => mk_range (next r) (prev r) st len (Z.land VMM_PERMANENT_FLAGS_MASK fl) mf (vnode r) (offset r)) s;
  if has fl VMM_FLAGS_FILE then
    match pr with
    | FileDesc node off =>
        _ ← passert (off mod PAGE_SIZE =? 0);
        s ← upd_range x (fun r => mk_range (next r) (prev r) (start r) (size_ r) (flags r) (mmuflags r) node off) s;
        do_vop_hold node s
    | _ => None
    end
  else Some s.

Definition vmm_map (addr len fl mf : Z) (pr : private) s : option (Z * vmm F P) :=
  let addr := ROUND_DOWN (if addr =? 0 then KERNELSPACE_START else addr) PAGE_SIZE in
  let len := request_size len fl in
  if len =? 0 then Some (0, s)
  else match getspace addr s with
       | None => Some (0, s)
       | Some sp =>
           hd ← space_ranges sp s;
           st ← getfreerange (heap (slots s)) sp hd addr len;
           if (has fl VMM_FLAGS_EXACT && negb (st =? addr)) || (st =? 0) then Some (0, s)
           else
             '(x, s) ← do_allocrange s;
             match x with
             | None => Some (0, s)
             | Some range =>
                 s ← (if has fl VMM_FLAGS_REPLACE then
                        _ ← passert (negb (has fl (Z.lor VMM_FLAGS_ALLOCATE VMM_FLAGS_PHYSICAL)));
                        s ← upd_range range (fun r => mk_range (next r) (prev r) addr len (Z.land VMM_PERMANENT_FLAGS_MASK fl) mf (vnode r) (offset r)) s;
                        '(_, s) ← changemap sp addr len false fl 0 s;
                        '(_, s) ← changemap sp addr len true fl 0 s;
                        Some s
                      else Some s);
                 let retaddr := if has fl VMM_FLAGS_REPLACE then addr else st in
                 s ← fill_range range retaddr len fl mf pr s;
                 '(b, s) ← (if has fl VMM_FLAGS_PHYSICAL then
                              map_physical (page_count len) 0 (match pr with Physical a => a | _ => 0 end) st mf (page_count len) s
                            else if has fl VMM_FLAGS_ALLOCATE then map_allocate (page_count len) 0 st mf (page_count len) s
                            else Some (true, s));
                 if b : bool then s ← do_insertrange sp range s; Some (retaddr, s)
                 else Some (0, s)
             end
       end.

(** The permission the faulting access lacks. *)
Definition invalidactions (mf : Z) : Z :=
  Z.lor (Z.lor (if has mf ARCH_MMU_FLAGS_READ then 0 else VMM_ACTION_READ)
               (if has mf ARCH_MMU_FLAGS_WRITE then 0 else VMM_ACTION_WRITE))
        (if has mf ARCH_MMU_FLAGS_NOEXEC then VMM_ACTION_EXEC else 0).

(** The page is not in the page table. *)
Definition fault_absent (r : vmmrange_t) (addr : Z) s : option (bool * vmm F P) :=
  let readonly := Z.ldiff (mmuflags r) ARCH_MMU_FLAGS_WRITE in
  if has (flags r) VMM_FLAGS_FILE then
    let off := u64 (offset r + u64 (addr - start r)) in
    if negb (cacheable (P := P) (files s) (vnode r)) then
      '(e, wf) ← vop_mmap (vnode r) addr off (Z.lor (mmuflagstovnodeflags (mmuflags r)) (shared_flag r)) (hw s, files s);
      _ ← passert (e =? 0);
      Some (true, set_world wf s)
    else
      '(e, page, wf) ← getpage (vnode r) off (hw s, files s);
      let s := set_world wf s in
      if (e =? ENXIO) || (e =? ENOMEM) then Some (true, send_sigbus s)
      else if negb (e =? 0) then Some (false, s)
      else
        '(b, s) ← do_map page addr readonly s;
        if b : bool then Some (true, s)
        else s ← do_release page s; Some (true, send_sigbus s)
  else
    '(b, s) ← do_map (zeropage s) addr readonly s;
    if b : bool then s ← do_hold (zeropage s) s; Some (true, s) else Some (true, send_sigbus s).

(** The page is there but may not be written. *)
Definition fault_readonly (r : vmmrange_t) (addr : Z) s : option (bool * vmm F P) :=
  t ← cur_table s;
  oldphys ← arch_mmu_getphysical t addr (hw s);
  if (has (flags r) VMM_FLAGS_FILE && has (flags r) VMM_FLAGS_SHARED) ||
     (negb (has (flags r) VMM_FLAGS_FILE) && (refs (frames (hw s)) oldphys =? 1)) then
    s ← do_remap oldphys addr (mmuflags r) s;
    s ← (if has (flags r) VMM_FLAGS_FILE && cacheable (P := P) (files s) (vnode r) then do_makedirty oldphys s else Some s);
    Some (true, s)
  else
    '(n, p) ← allocpage (frames (hw s));
    let s := set_frames p s in
    match n with
    | None => Some (true, send_sigbus s)
    | Some newphys =>
        es ← mem (hw s) !! oldphys;
        s ← do_remap newphys addr (mmuflags r) (set_page newphys es s);
        s ← (if negb (has (flags r) VMM_FLAGS_FILE) || cacheable (P := P) (files s) (vnode r) then do_release oldphys s else Some s);
        Some (true, s)
    end.

Definition vmm_pagefault (addr : Z) (user : bool) (actions : Z) s : option (bool * vmm F P) :=
  if negb user && (addr >? USERSPACE_END) then Some (false, s)
  else
    let addr := ROUND_DOWN addr PAGE_SIZE in
    match getspace addr s with
    | None => Some (false, s)
    | Some sp =>
        if match sp with KernelSpace => user | UserSpace _ => false end then Some (false, s)
        else
          hd ← space_ranges sp s;
          x ← getrange (S (size (heap (slots s)))) (heap (slots s)) hd addr;
          match x with
          | None => Some (false, s)
          | Some range =>
              r ← heap (slots s) !! range;
              if has (invalidactions (mmuflags r)) actions then Some (false, s)
              else
                t ← cur_table s;
                present ← arch_mmu_ispresent t addr (hw s);
                writable ← arch_mmu_iswritable t addr (hw s);
                if negb present then fault_absent r addr s
                else if negb writable then fault_readonly r addr s
                else Some (true, s)
          end
    end.

(** ** The trap

    The access that the processor reports, and what becomes of the interrupted
    code: it goes on, its copy from or to user memory fails, or the thread gets
    [SIGSEGV].  A fault of the kernel's own is a panic. *)
Inductive trap := Resume | CopyFault (error : Z) | Segv.

Definition fault_actions (error : Z) : Z :=
  Z.lor (Z.lor (if has error ERROR_PRESENT then VMM_ACTION_READ else 0) (if has error ERROR_WRITE then VMM_ACTION_WRITE else 0))
        (if has error ERROR_FETCH then VMM_ACTION_EXEC else 0).

Definition pfisr (error cr2 cs : Z) (usercopyctx : bool) s : option (trap * vmm F P) :=
  '(b, s) ← vmm_pagefault cr2 (negb (cs =? 8)) (fault_actions error) s;
  if b : bool then Some (Resume, s)
  else if usercopyctx then Some (CopyFault EFAULT, s)
  else if ARCH_CONTEXT_ISUSER cs then Some (Segv, s)
  else None.

Definition gpfisr (cs : Z) (usercopyctx : bool) : option trap :=
  if usercopyctx then Some (CopyFault EFAULT)
  else if ARCH_CONTEXT_ISUSER cs then Some Segv
  else None.

Definition vmm_getphysical (addr : Z) (hold_ : bool) s : option (Z * vmm F P) :=
  let addr := ROUND_DOWN addr PAGE_SIZE in
  match getspace addr s with
  | None => Some (0, s)
  | Some _ =>
      t ← cur_table s;
      physical ← arch_mmu_getphysical t addr (hw s);
      s ← (if hold_ then do_hold physical s else Some s);
      Some (physical + (addr - ROUND_DOWN addr PAGE_SIZE), s)
  end.

(** ** Contexts

    [obj] is what [slab_allocate] returned, an object the constructor made
    empty. *)
Definition vmm_newcontext (obj : option nat) s : option (option nat * vmm F P) :=
  match obj with
  | None => Some (None, s)
  | Some c =>
      '(t, w) ← arch_mmu_newtable (hw s);
      let s := set_hw w s in
      match t with
      | None => Some (None, s)
      | Some table => Some (Some c, set_contexts (<[c := mk_ctx None table]> (contexts s)) s)
      end
  end.

Definition vmm_switchcontext (c : nat) s : vmm F P := set_current c s.

(** The object goes back to its cache. *)
Definition vmm_destroycontext (c : nat) s : option (vmm F P) :=
  let old := current s in
  s ← vmm_unmap USERSPACE_START (USERSPACE_END - USERSPACE_START) 0 (vmm_switchcontext c s);
  let s := vmm_switchcontext old s in
  x ← contexts s !! c;
  w ← arch_mmu_destroytable (pagetable x) (hw s);
  Some (set_contexts (delete c (contexts s)) (set_hw w s)).

(** The pages of one range: mapped read only in both tables.  [true] when all
    could be mapped. *)
Fixpoint fork_pages (n : nat) (off : Z) (st mf oldtable newtable : Z) s : option (bool * vmm F P) :=
  match n with
  | O => Some (true, s)
  | S n' =>
      let vaddr := u64 (st + off) in
      let readonly := Z.ldiff mf ARCH_MMU_FLAGS_WRITE in
      phys ← arch_mmu_getphysical oldtable vaddr (hw s);
      if phys =? 0 then fork_pages n' (off + PAGE_SIZE) st mf oldtable newtable s
      else
        '(b, w) ← arch_mmu_map newtable phys vaddr readonly (hw s);
        let s := set_hw w s in
        if b : bool then
          s ← do_hold phys s;
          w ← arch_mmu_remap oldtable phys vaddr readonly (hw s);
          fork_pages n' (off + PAGE_SIZE) st mf oldtable newtable (set_hw w s)
        else Some (false, s)
  end.

(** One range: its copy is inserted in the new space, then the pages are
    copied, as many as the record of the copy says. *)
Definition fork_range (c : nat) (oldtable newtable : Z) (x : nat) s : option (bool * vmm F P) :=
  '(n, s) ← do_allocrange s;
  match n with
  | None => Some (false, s)
  | Some newrange =>
      r ← heap (slots s) !! x;
      s ← upd_range newrange (fun _ => r) s;
      s ← do_insertrange (UserSpace c) newrange s;
      r ← heap (slots s) !! x;
      s ← (if has (flags r) VMM_FLAGS_FILE then do_vop_hold (vnode r) s else Some s);
      nr ← heap (slots s) !! newrange;
      fork_pages (page_count (size_ nr)) 0 (start nr) (mmuflags nr) oldtable newtable s
  end.

Fixpoint fork_loop (fuel : nat) (c : nat) (oldtable newtable : Z) (range : option nat) s : option (bool * vmm F P) :=
  match fuel with
  | O => None
  | S fuel' =>
      match range with
      | None => Some (true, s)
      | Some x =>
          '(b, s) ← fork_range c oldtable newtable x s;
          if b : bool then r ← heap (slots s) !! x; fork_loop fuel' c oldtable newtable (next r) s
          else Some (false, s)
      end
  end.

Definition vmm_fork (obj : option nat) (old : nat) s : option (option nat * vmm F P) :=
  '(n, s) ← vmm_newcontext obj s;
  match n with
  | None => Some (None, s)
  | Some c =>
      o ← contexts s !! old;
      x ← contexts s !! c;
      '(b, s) ← fork_loop (S (size (heap (slots s)))) c (pagetable o) (pagetable x) (ranges o) s;
      if b : bool then Some (Some c, s)
      else s ← vmm_destroycontext c s; Some (None, s)
  end.

(** ** Start

    The context of the kernel is number 0. *)
Fixpoint map_all (l : list (Z * Z * Z)) s : option (vmm F P) :=
  match l with
  | [] => Some s
  | (addr, len, mf) :: l' => '(r, s) ← vmm_map addr len VMM_FLAGS_EXACT mf NoPrivate s; _ ← passert (negb (r =? 0)); map_all l' s
  end.

Definition init_ranges (hhdmbase : Z) (text rodata data : Z * Z) (es : list limine_memmap_entry) : list (Z * Z * Z) :=
  let rwnx := Z.lor (Z.lor ARCH_MMU_FLAGS_READ ARCH_MMU_FLAGS_WRITE) ARCH_MMU_FLAGS_NOEXEC in
  ((fun e => (u64 (base e + hhdmbase), length_ e, rwnx)) <$> filter (fun e => mapped e = true) es) ++
  [ (text.1, u64 (text.2 - text.1), ARCH_MMU_FLAGS_READ);
    (rodata.1, u64 (rodata.2 - rodata.1), Z.lor ARCH_MMU_FLAGS_READ ARCH_MMU_FLAGS_NOEXEC);
    (data.1, u64 (data.2 - data.1), rwnx) ].

(** The page of zeros is cleared without looking whether there was one. *)
Definition vmm_init (hhdmbase : Z) (text rodata data : Z * Z) (es : list limine_memmap_entry) (w : mmu P) (f : F) : option (vmm F P) :=
  '(b, pl, p) ← newcache (mk_pool ∅ []) (frames w);
  '(t, w) ← arch_mmu_newtable (mk_mmu (mem w) p (template w));
  _ ← passert b;
  table ← t;
  let s := mk_vmm pl None {[0%nat := mk_ctx None table]} 0 0 w f 0 in
  s ← map_all (init_ranges hhdmbase text rodata data es) (vmm_switchcontext 0 s);
  '(_, s) ← vmm_map hhdmbase PAGE_SIZE VMM_FLAGS_EXACT ARCH_MMU_FLAGS_NOEXEC NoPrivate s;
  '(z, p) ← allocpage (frames (hw s));
  zero ← z;
  let s := set_page zero zeroed (set_frames p s) in
  Some (mk_vmm (slots s) (kernelranges s) (contexts s) (current s) zero (hw s) (files s) (sigbus s)).
End state.

(** ** Slots: invariant *)

Fixpoint countb {A} (f : A -> bool) (l : list A) : nat :=
  match l with [] => 0 | x :: l' => (if f x then 1 else 0) + countb f l' end%nat.

Lemma countb_ext {A} (f g : A -> bool) l : (forall x, x ∈ l -> f x = g x) -> countb f l = countb g l.
Proof.
  induction l as [|x l IH]; intros H; [done|]. simpl. rewrite (H x (list_elem_of_here x l)), IH; [done|].
  intros y Hy. apply H. by apply elem_of_cons; right.
Qed.

Lemma countb_change {A} (f g : A -> bool) l x :
  NoDup l -> x ∈ l -> (forall y, y <> x -> f y = g y) -> f x = true -> g x = false -> countb f l = S (countb g l).
Proof.
  induction l as [|y l IH]; intros ND Hx H Fx Gx; [by apply not_elem_of_nil in Hx|].
  apply NoDup_cons in ND as [Ny ND]. simpl. apply elem_of_cons in Hx as [<-|Hx].
  - rewrite Fx, Gx. simpl. f_equal. apply countb_ext. intros z Hz. apply H. by intros ->.
  - assert (y <> x) by (by intros ->). rewrite (H y) by done. rewrite IH by done. lia.
Qed.

Lemma countb_pos {A} (f : A -> bool) l : (0 < countb f l)%nat -> exists x, x ∈ l /\ f x = true.
Proof.
  induction l as [|y l IH]; simpl; [lia|]. destruct (f y) eqn:Fy; [exists y; split; [apply list_elem_of_here|done]|].
  intros (x & Hx & Fx)%IH. exists x. split; [by apply elem_of_cons; right|done].
Qed.

Lemma countb_none {A} (f : A -> bool) l x : countb f l = O -> x ∈ l -> f x = false.
Proof.
  induction l as [|y l IH]; simpl; intros H Hx; [by apply not_elem_of_nil in Hx|]. apply elem_of_cons in Hx as [->|Hx]; [by destruct (f y)|].
  apply IH; [lia|done].
Qed.

Lemma countb_all {A} (f : A -> bool) l : (forall x, x ∈ l -> f x = true) -> countb f l = length l.
Proof.
  induction l as [|y l IH]; intros H; [done|]. simpl. rewrite (H y (list_elem_of_here y l)), IH; [done|].
  intros x Hx. apply H. by apply elem_of_cons; right.
Qed.

Definition free_slot (h : gmap nat vmmrange_t) (c r : nat) : bool :=
  match h !! slot c r with Some x => size_ x =? 0 | None => false end.

Definition free_slots (h : gmap nat vmmrange_t) (c : nat) : nat := countb (free_slot h c) (seq 0 VMM_RANGES_PER_CACHE).

Record header_ok (h : gmap nat vmmrange_t) (c : nat) (hd : vmmcacheheader_t) : Prop := {
  ho_first : (firstfree hd <= VMM_RANGES_PER_CACHE)%nat;
  ho_count : freecount hd = Z.of_nat (free_slots h c);
  ho_taken : forall r, (r < firstfree hd)%nat -> free_slot h c r = false
}.

Record pool_ok (pl : pool) : Prop := {
  po_dom : forall x, is_Some (heap pl !! x) <-> (x < length (caches pl) * VMM_RANGES_PER_CACHE)%nat;
  po_caches : forall c hd, caches pl !! c = Some hd -> header_ok (heap pl) c hd
}.

Lemma range_slot_inj c r c' r' : (r < 63)%nat -> (r' < 63)%nat -> slot c r = slot c' r' -> c = c' /\ r = r'.
Proof. unfold slot, VMM_RANGES_PER_CACHE. lia. Qed.

Lemma slot_div c r : (r < 63)%nat -> (slot c r / VMM_RANGES_PER_CACHE = c /\ slot c r mod VMM_RANGES_PER_CACHE = r)%nat.
Proof.
  intros Hr. unfold slot, VMM_RANGES_PER_CACHE.
  split; symmetry; [apply (Nat.div_unique _ 63 c r)|apply (Nat.mod_unique _ 63 c r)]; lia.
Qed.

Lemma slot_split x : exists c r, (r < 63)%nat /\ x = slot c r.
Proof.
  exists (x / 63)%nat, (x mod 63)%nat. split; [apply Nat.mod_upper_bound; lia|].
  unfold slot, VMM_RANGES_PER_CACHE. pose proof (Nat.div_mod_eq x 63). lia.
Qed.

Lemma free_slots_le h c : (free_slots h c <= 63)%nat.
Proof.
  unfold free_slots. change 63%nat with (length (seq 0 VMM_RANGES_PER_CACHE)). generalize (seq 0 VMM_RANGES_PER_CACHE).
  intros l. induction l as [|x l IH]; simpl; [lia|]. destruct (free_slot h c x); lia.
Qed.

(** Changing one slot. *)
Lemma free_slot_insert h c r c' r' n :
  (r < 63)%nat -> (r' < 63)%nat ->
  free_slot (<[slot c r := n]> h) c' r' = if bool_decide (c = c' /\ r = r') then size_ n =? 0 else free_slot h c' r'.
Proof.
  intros Hr Hr'. unfold free_slot. case_bool_decide as Q.
  - destruct Q as [-> ->]. by rewrite lookup_insert_eq.
  - rewrite lookup_insert_ne; [done|]. intros E%range_slot_inj; [tauto|done|done].
Qed.

Lemma in_slots r : r ∈ seq 0 VMM_RANGES_PER_CACHE <-> (r < 63)%nat.
Proof. rewrite elem_of_seq. unfold VMM_RANGES_PER_CACHE. lia. Qed.

Lemma free_slots_ne h c r c' n : (r < 63)%nat -> c <> c' -> free_slots (<[slot c r := n]> h) c' = free_slots h c'.
Proof.
  intros Hr Ne. apply countb_ext. intros r' Hr'%in_slots. rewrite free_slot_insert by done. by rewrite bool_decide_false by tauto.
Qed.

Lemma free_slots_take h c r n : (r < 63)%nat -> free_slot h c r = true -> size_ n <> 0 ->
  free_slots h c = S (free_slots (<[slot c r := n]> h) c).
Proof.
  intros Hr F N. apply (countb_change _ _ _ r); [apply NoDup_seq|by apply in_slots| |done|].
  - intros r' Ne. unfold free_slot. destruct (decide (slot c r = slot c r')) as [E|E]; [unfold slot in E; lia|].
    by rewrite lookup_insert_ne.
  - rewrite free_slot_insert, bool_decide_true by done. by apply Z.eqb_neq.
Qed.

Lemma free_slots_give h c r n : (r < 63)%nat -> free_slot h c r = false -> size_ n = 0 ->
  free_slots (<[slot c r := n]> h) c = S (free_slots h c).
Proof.
  intros Hr Fr N. apply (countb_change _ _ _ r); [apply NoDup_seq|by apply in_slots| | |done].
  - intros r' Ne. unfold free_slot. destruct (decide (slot c r = slot c r')) as [E|E]; [unfold slot in E; lia|].
    by rewrite lookup_insert_ne.
  - rewrite free_slot_insert, bool_decide_true by done. by rewrite N.
Qed.

(** Changing a range that is and stays in use. *)
Lemma pool_set pl x r r' : pool_ok pl -> heap pl !! x = Some r -> size_ r <> 0 -> size_ r' <> 0 ->
  pool_ok (mk_pool (<[x := r']> (heap pl)) (caches pl)).
Proof.
  intros O E N N'. assert (S : forall c k, free_slot (<[x := r']> (heap pl)) c k = free_slot (heap pl) c k).
  { intros c k. unfold free_slot. destruct (decide (slot c k = x)) as [->|Ne].
    - rewrite lookup_insert_eq, E. by rewrite (proj2 (Z.eqb_neq _ _) N), (proj2 (Z.eqb_neq _ _) N').
    - by rewrite lookup_insert_ne. }
  split; simpl.
  - intros y. rewrite <- (po_dom _ O). destruct (decide (y = x)) as [->|Ne]; [by rewrite lookup_insert_eq, E|].
    by rewrite lookup_insert_ne.
  - intros c hd Hc. destruct (po_caches _ O c hd Hc) as [H1 H2 H3]. split; [done| |].
    + rewrite H2. f_equal. apply countb_ext. intros k _. by rewrite S.
    + intros k Hk. rewrite S. by apply H3.
Qed.

Lemma getentrynumber_ok pl c hd : pool_ok pl -> caches pl !! c = Some hd -> 0 < freecount hd ->
  exists r, getentrynumber c hd pl = Some r /\ (r < 63)%nat /\ free_slot (heap pl) c r = true /\
    forall k, (k < r)%nat -> free_slot (heap pl) c k = false.
Proof.
  intros O Hc Hf. destruct (po_caches _ O c hd Hc) as [H1 H2 H3].
  assert (L : forall k, (k < 63)%nat -> is_Some (heap pl !! slot c k)).
  { intros k Hk. apply (po_dom _ O). apply lookup_lt_Some in Hc. unfold slot, VMM_RANGES_PER_CACHE. nia. }
  assert (E : exists k, (k < 63)%nat /\ free_slot (heap pl) c k = true).
  { destruct (countb_pos (free_slot (heap pl) c) (seq 0 VMM_RANGES_PER_CACHE)) as (k & Hk%in_slots & Fk); [|eauto].
    fold (free_slots (heap pl) c). lia. }
  unfold getentrynumber. assert (G : forall n i, (n + i = 63)%nat -> (forall k, (k < i)%nat -> free_slot (heap pl) c k = false) ->
    exists r, getentrynumber_loop n c i pl = Some r /\ (r < 63)%nat /\ free_slot (heap pl) c r = true /\
      forall k, (k < r)%nat -> free_slot (heap pl) c k = false).
  { induction n as [|n IH]; intros i Hn Hi.
    - destruct E as (k & Hk & Fk). rewrite Hi in Fk by lia. done.
    - cbn [getentrynumber_loop]. destruct (L i) as [x Ex]; [lia|]. rewrite Ex. cbn [mbind option_bind].
      assert (Fi : free_slot (heap pl) c i = (size_ x =? 0)) by (unfold free_slot; by rewrite Ex).
      destruct (size_ x =? 0); [exists i; split_and!; [done|lia|done|done]|].
      apply IH; [lia|]. intros k Hk. destruct (decide (k = i)) as [->|]; [done|]. apply Hi. lia. }
  apply G; [unfold VMM_RANGES_PER_CACHE in *; lia|done].
Qed.

(** The ranges in use. *)
Definition used (pl : pool) (x : nat) : Prop := exists r, heap pl !! x = Some r /\ size_ r <> 0.

Lemma free_slot_used pl c k : free_slot (heap pl) c k = true -> ~ used pl (slot c k).
Proof. unfold free_slot, used. intros H (r & E & N). rewrite E in H. apply Z.eqb_eq in H. done. Qed.

Definition keeps (pl pl' : pool) : Prop := forall x r, heap pl !! x = Some r -> size_ r <> 0 -> heap pl' !! x = Some r.

Lemma clear_slots_lookup n : forall b (h : gmap nat vmmrange_t) x,
  clear_slots n b h !! x = if bool_decide (b <= x < b + n)%nat then Some empty_range else h !! x.
Proof.
  induction n as [|n IH]; intros b h x; cbn [clear_slots]; [by rewrite bool_decide_false by lia|].
  destruct (decide (x = b)) as [->|Ne]; [by rewrite lookup_insert_eq, bool_decide_true by lia|].
  rewrite lookup_insert_ne, IH by done. do 2 case_bool_decide; try done; lia.
Qed.

Arguments clear_slots : simpl never.

Section pool_ops.
Context {P : Type} `{!Frames P, !FramesLaws P}.

(** References that were held stay as they are. *)
Definition keeps_refs (p p' : P) : Prop := forall a, a mod PAGE_SIZE = 0 -> 0 < refs p a -> refs p' a = refs p a.

Lemma newcache_ok pl (p : P) : pool_ok pl -> frames_ok p ->
  exists b pl' p', newcache pl p = Some (b, pl', p') /\ pool_ok pl' /\ frames_ok p' /\ keeps_refs p p' /\ keeps pl pl' /\
    (forall x, used pl' x -> used pl x) /\
    if b then exists hd, caches pl' = caches pl ++ [hd] /\ 0 < freecount hd else pl' = pl /\ allocpage p = Some (None, p').
Proof.
  intros O F. unfold newcache. destruct (allocpage_ok p F) as (r & p' & Ea & F' & R). rewrite Ea. cbn [mbind option_bind].
  destruct r as [a|].
  2:{ exists false, pl, p'. split_and!; try done; [intros b _ _; apply R|by intros x r]. }
  set (n := length (caches pl)).
  assert (Lk : forall x, clear_slots VMM_RANGES_PER_CACHE (slot n 0) (heap pl) !! x =
    if bool_decide (slot n 0 <= x < slot (S n) 0)%nat then Some empty_range else heap pl !! x).
  { intros x. rewrite clear_slots_lookup. do 2 case_bool_decide; try done; unfold slot, VMM_RANGES_PER_CACHE in *; lia. }
  assert (Old : forall x, is_Some (heap pl !! x) -> (x < slot n 0)%nat)
    by (intros x Hx%(po_dom _ O); unfold slot; fold n in Hx; lia).
  eexists true, _, p'. split; [done|]. split_and!; [| done | | | |by eexists].
  - split; simpl.
    + intros x. rewrite Lk, length_app. simpl. fold n. case_bool_decide as Q.
      * unfold slot, VMM_RANGES_PER_CACHE in *. split; [lia|done].
      * rewrite (po_dom _ O). fold n. unfold slot, VMM_RANGES_PER_CACHE in *. lia.
    + intros c hd Hc. apply lookup_app_Some in Hc as [Hc|[Hl Hc]].
      * destruct (po_caches _ O c hd Hc) as [H1 H2 H3]. apply lookup_lt_Some in Hc. fold n in Hc.
        assert (S : forall k, (k < 63)%nat -> free_slot (clear_slots VMM_RANGES_PER_CACHE (slot n 0) (heap pl)) c k = free_slot (heap pl) c k).
        { intros k Hk. unfold free_slot. rewrite Lk, bool_decide_false; [done|]. unfold slot, VMM_RANGES_PER_CACHE. nia. }
        split; [done| |].
        -- rewrite H2. f_equal. symmetry. apply countb_ext. intros k Hk%in_slots. by apply S.
        -- intros k Hk. rewrite S; [by apply H3|]. unfold VMM_RANGES_PER_CACHE in H1. lia.
      * fold n in Hl, Hc. destruct (c - n)%nat eqn:Ec; [|done]. injection Hc as <-. assert (c = n) as -> by lia.
        split; simpl; [lia| |lia]. f_equal. symmetry. etransitivity; [apply countb_all|by rewrite length_seq].
        intros k Hk%in_slots. unfold free_slot. rewrite Lk, bool_decide_true; [done|]. unfold slot, VMM_RANGES_PER_CACHE. lia.
  - intros b M Rb. destruct R as (_ & R0 & R). rewrite R by done. rewrite bool_decide_false; [done|]. intros ->. lia.
  - intros x r E _. simpl. rewrite Lk, bool_decide_false; [done|]. specialize (Old x ltac:(eauto)). lia.
  - intros x (r & E & N). simpl in E. rewrite Lk in E. case_bool_decide; [by injection E as <-|]. by exists r.
Qed.
Lemma keeps_trans pl1 pl2 pl3 : keeps pl1 pl2 -> keeps pl2 pl3 -> keeps pl1 pl3.
Proof. intros A B x r E N. apply B; [by apply A|done]. Qed.

Lemma keeps_refs_trans (p1 p2 p3 : P) : keeps_refs p1 p2 -> keeps_refs p2 p3 -> keeps_refs p1 p3.
Proof. intros A B a M R. rewrite B, A; try done. by rewrite A. Qed.

(** Taking a slot of a cache that has one. *)
Lemma take_slot pl c hd r n : pool_ok pl -> caches pl !! c = Some hd -> (r < 63)%nat -> free_slot (heap pl) c r = true ->
  (forall k, (k < r)%nat -> free_slot (heap pl) c k = false) -> size_ n <> 0 ->
  pool_ok (mk_pool (<[slot c r := n]> (heap pl)) (<[c := mk_header (u64 (freecount hd - 1)) (S r)]> (caches pl))).
Proof.
  intros O Hc Hr Fr Lo N. pose proof (lookup_lt_Some _ _ _ Hc) as Lc. split; simpl.
  - intros x. rewrite length_insert, <- (po_dom _ O). destruct (decide (x = slot c r)) as [->|Ne]; [|by rewrite lookup_insert_ne].
    rewrite lookup_insert_eq. split; [|done]. intros _. unfold free_slot in Fr. by destruct (heap pl !! slot c r).
  - intros c' hd' Hc'. destruct (decide (c' = c)) as [->|Ne].
    + rewrite list_lookup_insert_eq in Hc' by done. injection Hc' as <-. destruct (po_caches _ O c hd Hc) as [H1 H2 H3].
      pose proof (free_slots_take _ _ _ n Hr Fr N) as T. pose proof (free_slots_le (heap pl) c). split; simpl.
      * unfold VMM_RANGES_PER_CACHE. lia.
      * rewrite u64_id by (unfold is_u64; lia). lia.
      * intros k Hk. rewrite free_slot_insert by lia. case_bool_decide as Q; [by apply Z.eqb_neq|]. apply Lo. lia.
    + rewrite list_lookup_insert_ne in Hc' by done. destruct (po_caches _ O c' hd' Hc') as [H1 H2 H3]. split; [done| |].
      * rewrite H2. by rewrite free_slots_ne by done.
      * intros k Hk. rewrite free_slot_insert by (unfold VMM_RANGES_PER_CACHE in H1; lia).
        rewrite bool_decide_false by (intros [? _]; congruence). by apply H3.
Qed.

(** Every slot is in use and there is no page for more. *)
Definition no_slot (pl : pool) (p : P) : Prop :=
  (forall x r, heap pl !! x = Some r -> size_ r <> 0) /\ (caches pl <> [] -> exists p', allocpage p = Some (None, p')).

(** A cache without free slots. *)
Lemma full_cache pl c hd x r : pool_ok pl -> caches pl !! c = Some hd -> freecount hd <= 0 -> heap pl !! x = Some r ->
  (slot c 0 <= x < slot (S c) 0)%nat -> size_ r <> 0.
Proof.
  intros O Hc Hf Ex Hx E0. destruct (po_caches _ O c hd Hc) as [H1 H2 H3].
  assert (Fk : free_slot (heap pl) c (x - slot c 0) = false).
  { apply (countb_none _ (seq 0 VMM_RANGES_PER_CACHE)); [unfold free_slots in H2; lia|]. apply in_slots. unfold slot, VMM_RANGES_PER_CACHE in *. lia. }
  unfold free_slot in Fk. replace (slot c (x - slot c 0)) with x in Fk by (unfold slot in *; lia). rewrite Ex in Fk. by apply Z.eqb_neq in Fk.
Qed.

Lemma allocrange_ok pl (p : P) : pool_ok pl -> frames_ok p ->
  exists o pl' p', allocrange pl p = Some (o, pl', p') /\ pool_ok pl' /\ frames_ok p' /\ keeps_refs p p' /\ keeps pl pl' /\
    match o with
    | None => no_slot pl p /\ forall x, used pl' x -> used pl x
    | Some x => ~ used pl x /\ (exists r, heap pl' !! x = Some r /\ size_ r = 2 ^ 64 - 1) /\
        forall y, used pl' y -> y = x \/ used pl y
    end.
Proof.
  intros O0 F0. unfold allocrange.
  assert (G : forall fuel c pl1 p1, pool_ok pl1 -> frames_ok p1 -> (c <= length (caches pl1))%nat ->
    ((length (caches pl1) - c + 1 < fuel)%nat \/ (0 < fuel)%nat /\ exists hd, caches pl1 !! c = Some hd /\ 0 < freecount hd) ->
    exists o pl' p', allocrange_loop fuel c pl1 p1 = Some (o, pl', p') /\ pool_ok pl' /\ frames_ok p' /\
      keeps_refs p1 p' /\ keeps pl1 pl' /\
      match o with
      | None => ((forall x r, heap pl1 !! x = Some r -> (slot c 0 <= x)%nat -> size_ r <> 0) /\
                 ((c < length (caches pl1))%nat -> exists p2, allocpage p1 = Some (None, p2)) /\
                 ~ (exists hd, caches pl1 !! c = Some hd /\ 0 < freecount hd)) /\ forall x, used pl' x -> used pl1 x
      | Some x => ~ used pl1 x /\ (exists r, heap pl' !! x = Some r /\ size_ r = 2 ^ 64 - 1) /\
          forall y, used pl' y -> y = x \/ used pl1 y
      end).
  { induction fuel as [|fuel IH]; intros c pl1 p1 O F Hc Hf; [destruct Hf as [|[]]; lia|]. cbn [allocrange_loop].
    destruct (caches pl1 !! c) as [hd|] eqn:Ec.
    2:{ exists None, pl1, p1. apply lookup_ge_None in Ec as Lc. split_and!; try done; [by intros x r| |lia|by intros (? & ? & _)].
        intros x r Ex Hx. assert (Sx : is_Some (heap pl1 !! x)) by eauto. apply (po_dom _ O) in Sx. unfold slot, VMM_RANGES_PER_CACHE in *. nia. }
    pose proof (lookup_lt_Some _ _ _ Ec) as Lc. rewrite Z.gtb_ltb. destruct (Z.ltb_spec 0 (freecount hd)) as [Hfc|Hfc].
    - destruct (getentrynumber_ok pl1 c hd O Ec Hfc) as (r & -> & Hr & Fr & Lo). cbn [mbind option_bind].
      pose proof (free_slot_used pl1 c r Fr) as Nu. unfold upd. unfold free_slot in Fr.
      destruct (heap pl1 !! slot c r) as [n|] eqn:En; [|done]. cbn [mbind option_bind].
      eexists (Some (slot c r)), _, p1. split; [done|]. split_and!; try done.
      + apply take_slot; try done. unfold free_slot. by rewrite En.
      + intros x m Ex Nx. simpl. rewrite lookup_insert_ne; [done|]. intros <-. apply Nu. by exists m.
      + eexists. simpl. by rewrite lookup_insert_eq.
      + intros y (m & Ey & Ny). simpl in Ey. destruct (decide (y = slot c r)) as [->|Ne]; [by left|right].
        rewrite lookup_insert_ne in Ey by done. by exists m.
    - destruct Hf as [Hf|(_ & hd' & ? & ?)]; [|simplify_eq; lia].
      assert (Here : forall x r, heap pl1 !! x = Some r -> (slot c 0 <= x)%nat -> (slot (S c) 0 <= x)%nat \/ size_ r <> 0).
      { intros x r Ex Hx. destruct (decide (slot (S c) 0 <= x)%nat); [by left|right]. apply (full_cache pl1 c hd x r); (done || lia). }
      assert (Nh : ~ (exists hd', Some hd = Some hd' /\ 0 < freecount hd')) by (intros (hd' & [= <-] & ?); lia).
      destruct (Nat.eqb_spec (S c) (length (caches pl1))) as [El|Nl].
      + destruct (newcache_ok pl1 p1 O F) as (b & pl2 & p2 & -> & O2 & F2 & R2 & K2 & U2 & B2). cbn [mbind option_bind].
        destruct (IH (S c) pl2 p2 O2 F2) as (o & pl' & p' & -> & O' & F' & R' & K' & X).
        { destruct b; [|destruct B2; subst; lia]. destruct B2 as (hd2 & -> & _). rewrite length_app. simpl. lia. }
        { destruct b; [right|left; destruct B2; subst; lia]. destruct B2 as (hd2 & -> & Hf2). split; [lia|]. exists hd2.
          rewrite El, lookup_app_r, Nat.sub_diag by lia. done. }
        exists o, pl', p'. split_and!; try done; [by eapply keeps_refs_trans|by eapply keeps_trans|]. destruct o as [x|].
        * destruct X as (X1 & X2 & X3). split_and!; [|done|].
          -- intros (r & Er & Nr). apply X1. exists r. split; [by apply K2|done].
          -- intros y [->|Hy]%X3; [by left|right; by apply U2].
        * destruct X as [(X1 & _ & X3) X4]. split; [|by intros y Hy; apply U2, X4]. destruct b.
          -- destruct B2 as (hd2 & E2 & Hf2). destruct X3. exists hd2. rewrite E2, El, lookup_app_r, Nat.sub_diag by lia. done.
          -- destruct B2 as [-> Ea]. split; [|split; [intros _; by exists p2|done]]. intros x r Ex Hx. destruct (Here x r Ex Hx); [by apply (X1 x r)|done].
      + cbn [mbind option_bind]. destruct (IH (S c) pl1 p1 O F ltac:(lia) ltac:(left; lia)) as (o & pl' & p' & -> & O' & F' & R' & K' & X).
        exists o, pl', p'. split_and!; try done. destruct o as [x|]; [done|]. destruct X as [(X1 & X2 & _) X4]. split; [|done].
        split; [|split; [intros _; apply X2; lia|done]]. intros x r Ex Hx. destruct (Here x r Ex Hx); [by apply (X1 x r)|done]. }
  destruct (G (S (S (length (caches pl)))) 0%nat pl p O0 F0 ltac:(lia) ltac:(left; lia)) as (o & pl' & p' & E & O' & F' & R' & K' & X).
  exists o, pl', p'. split_and!; try done. destruct o as [x|]; [done|]. destruct X as [(X1 & X2 & _) X4]. split; [|done]. split.
  - intros x r Ex. apply (X1 x r Ex). unfold slot. lia.
  - intros Nc. apply X2. destruct (caches pl); [done|simpl; lia].
Qed.

Lemma freerange_ok pl x r : pool_ok pl -> heap pl !! x = Some r -> size_ r <> 0 ->
  exists pl', freerange x pl = Some pl' /\ pool_ok pl' /\ heap pl' = <[x := with_size 0 r]> (heap pl).
Proof.
  intros O E N. destruct (slot_split x) as (c & k & Hk & ->). unfold freerange.
  destruct (slot_div c k Hk) as [-> ->]. assert (Lc : (c < length (caches pl))%nat).
  { assert (Hx : is_Some (heap pl !! slot c k)) by eauto. apply (po_dom _ O) in Hx. unfold slot, VMM_RANGES_PER_CACHE in Hx. nia. }
  destruct (lookup_lt_is_Some_2 _ _ Lc) as [hd Hc]. rewrite Hc. unfold upd. rewrite E. cbn [mbind option_bind].
  eexists. split; [done|]. split; [|done]. assert (Fk : free_slot (heap pl) c k = false)
    by (unfold free_slot; rewrite E; by apply Z.eqb_neq).
  destruct (po_caches _ O c hd Hc) as [H1 H2 H3]. pose proof (free_slots_give _ _ _ (with_size 0 r) Hk Fk eq_refl) as T.
  pose proof (free_slots_le (<[slot c k := with_size 0 r]> (heap pl)) c). split; cbn [heap caches].
  - intros y. rewrite length_insert, <- (po_dom _ O). destruct (decide (y = slot c k)) as [->|Ne]; [by rewrite lookup_insert_eq, E|].
    by rewrite lookup_insert_ne.
  - intros c' hd' Hc'. destruct (decide (c' = c)) as [->|Ne].
    + rewrite list_lookup_insert_eq in Hc' by done. injection Hc' as <-. split; cbn [firstfree freecount].
      * case_match; unfold VMM_RANGES_PER_CACHE in *; lia.
      * rewrite u64_id by (unfold is_u64; lia). lia.
      * intros j Hj. destruct (Nat.ltb_spec k (firstfree hd)); unfold VMM_RANGES_PER_CACHE in H1; rewrite free_slot_insert by lia;
          (rewrite bool_decide_false by lia); apply H3; lia.
    + rewrite list_lookup_insert_ne in Hc' by done. destruct (po_caches _ O c' hd' Hc') as [J1 J2 J3]. split; [done| |].
      * rewrite J2. by rewrite free_slots_ne by done.
      * intros j Hj. rewrite free_slot_insert by (unfold VMM_RANGES_PER_CACHE in J1; lia).
        rewrite bool_decide_false by (intros [? _]; congruence). by apply J3.
Qed.
End pool_ops.
