(* ===== verification/Ranges.v ===== *)
(** * Address spaces as chains of ranges ([mm/vmm.c])

    What the chain of a space says about addresses, and how [getrange],
    [getfreerange] and [insertrange] read and change it.  Only the forward
    links matter here: [insertrange] does not keep the backward ones. *)

From S2P Require Import Prelude Errno Vnode DList Pmm Mmu Vmm.

(** A range apart from its links. *)
Definition bare (r : vmmrange_t) : vmmrange_t :=
  mk_range None None (start r) (size_ r) (flags r) (mmuflags r) (vnode r) (offset r).

Lemma bare_size r : size_ (bare r) = size_ r.
Proof. done. Qed.

(** The chain from [hd] runs through the slots and ranges [xs]. *)
Fixpoint chain (h : gmap nat vmmrange_t) (hd : option nat) (xs : list (nat * vmmrange_t)) : Prop :=
  match xs with
  | [] => hd = None
  | (x, b) :: xs' => hd = Some x /\ exists r, h !! x = Some r /\ bare r = b /\ chain h (next r) xs'
  end.

(** Ascending, without overlap, between [lo] and [hi]. *)
Fixpoint ordered (lo hi : Z) (bs : list vmmrange_t) : Prop :=
  match bs with
  | [] => lo <= hi
  | b :: bs' => lo <= start b /\ 0 < size_ b /\ ordered (start b + size_ b) hi bs'
  end.

(** What an address of a range is: flags, protection, and for a file the vnode
    and the offset in it. *)
Definition attr (b : vmmrange_t) (a : Z) : Z * Z * option (nat * Z) :=
  (flags b, mmuflags b, if has (flags b) VMM_FLAGS_FILE then Some (vnode b, u64 (offset b + (a - start b))) else None).

Definition inside (b : vmmrange_t) (a : Z) : bool := (start b <=? a) && (a <? start b + size_ b).

Fixpoint cover (bs : list vmmrange_t) (a : Z) : option (Z * Z * option (nat * Z)) :=
  match bs with
  | [] => None
  | b :: bs' => if inside b a then Some (attr b a) else cover bs' a
  end.

Lemma ordered_le lo hi bs : ordered lo hi bs -> lo <= hi.
Proof. revert lo. induction bs as [|b bs IH]; intros lo; simpl; [done|]. intros (? & ? & H%IH). lia. Qed.

Lemma ordered_weaken lo lo' hi bs : ordered lo hi bs -> lo' <= lo -> ordered lo' hi bs.
Proof. destruct bs as [|b bs]; simpl; intros; [lia|]. naive_solver lia. Qed.

Lemma ordered_app lo hi bs1 bs2 :
  ordered lo hi (bs1 ++ bs2) <-> exists m, ordered lo m bs1 /\ ordered m hi bs2 /\ lo <= m.
Proof.
  revert lo. induction bs1 as [|b bs IH]; intros lo; simpl.
  - split; [intros H; exists lo; split_and!; [lia|done|lia]|]. intros (m & ? & H & ?). by eapply ordered_weaken.
  - rewrite IH. split.
    + intros (? & ? & m & ? & ? & ?). exists m. split_and!; try done; lia.
    + intros (m & (? & ? & O) & ? & ?). pose proof (ordered_le _ _ _ O). split_and!; try done. exists m. done.
Qed.

Lemma ordered_elem lo hi bs b : ordered lo hi bs -> b ∈ bs -> 0 < size_ b.
Proof.
  intros O Hb. apply list_elem_of_split in Hb as (l1 & l2 & ->). apply ordered_app in O as (m & _ & (_ & Hz & _) & _). done.
Qed.

Lemma inside_spec b a : inside b a = true <-> start b <= a < start b + size_ b.
Proof. unfold inside. rewrite andb_true_iff, Z.leb_le, Z.ltb_lt. done. Qed.

Lemma cover_below lo hi bs a : ordered lo hi bs -> a < lo -> cover bs a = None.
Proof.
  revert lo. induction bs as [|b bs IH]; intros lo O Ha; [done|]. destruct O as (? & ? & O). simpl.
  destruct (inside b a) eqn:I; [apply inside_spec in I; lia|]. apply (IH _ O). lia.
Qed.

Lemma cover_above lo hi bs a : ordered lo hi bs -> hi <= a -> cover bs a = None.
Proof.
  revert lo. induction bs as [|b bs IH]; intros lo O Ha; [done|]. destruct O as (? & ? & O). simpl.
  pose proof (ordered_le _ _ _ O). destruct (inside b a) eqn:I; [apply inside_spec in I; lia|]. by apply (IH _ O).
Qed.

Lemma cover_app bs1 bs2 a : cover (bs1 ++ bs2) a = match cover bs1 a with Some x => Some x | None => cover bs2 a end.
Proof. induction bs1 as [|b bs IH]; simpl; [done|]. by destruct (inside b a). Qed.

(** ** Chains *)

Lemma chain_lookup h hd xs x b : chain h hd xs -> (x, b) ∈ xs -> exists r, h !! x = Some r /\ bare r = b.
Proof.
  revert hd. induction xs as [|[y c] xs IH]; intros hd C Hx; [by apply not_elem_of_nil in Hx|].
  destruct C as (_ & r & E & B & C). apply elem_of_cons in Hx as [[= -> ->]|Hx]; eauto.
Qed.

Lemma chain_ext h h' hd xs :
  (forall x r, x ∈ xs.*1 -> h !! x = Some r -> exists r', h' !! x = Some r' /\ bare r' = bare r /\ next r' = next r) ->
  chain h hd xs -> chain h' hd xs.
Proof.
  revert hd. induction xs as [|[x b] xs IH]; intros hd S C; [done|]. destruct C as (-> & r & E & B & C). split; [done|].
  destruct (S x r) as (r' & E' & B' & N'); [apply list_elem_of_here|done|]. exists r'. split_and!; [done|congruence|].
  rewrite N'. apply IH; [|done]. intros y q Hy. apply S. by apply elem_of_cons; right.
Qed.

(** The chain up to a slot, left open. *)
Fixpoint upto (h : gmap nat vmmrange_t) (hd : option nat) (xs : list (nat * vmmrange_t)) (y : nat) : Prop :=
  match xs with
  | [] => hd = Some y
  | (x, b) :: xs' => hd = Some x /\ exists r, h !! x = Some r /\ bare r = b /\ upto h (next r) xs' y
  end.

Lemma chain_split h hd xs1 y b xs2 :
  chain h hd (xs1 ++ (y, b) :: xs2) <-> upto h hd xs1 y /\ exists r, h !! y = Some r /\ bare r = b /\ chain h (next r) xs2.
Proof.
  revert hd. induction xs1 as [|[x c] xs IH]; intros hd; simpl; [done|]. setoid_rewrite IH. naive_solver.
Qed.

Lemma upto_ext h h' hd xs y :
  (forall x r, x ∈ xs.*1 -> h !! x = Some r -> exists r', h' !! x = Some r' /\ bare r' = bare r /\ next r' = next r) ->
  upto h hd xs y -> upto h' hd xs y.
Proof.
  revert hd. induction xs as [|[x b] xs IH]; intros hd S C; [done|]. destruct C as (-> & r & E & B & C). split; [done|].
  destruct (S x r) as (r' & E' & B' & N'); [apply list_elem_of_here|done|]. exists r'. split_and!; [done|congruence|].
  rewrite N'. apply IH; [|done]. intros z q Hz. apply S. by apply elem_of_cons; right.
Qed.

Lemma chain_distinct h hd xs lo hi : chain h hd xs -> ordered lo hi xs.*2 -> NoDup xs.*1.
Proof.
  revert hd lo. induction xs as [|[x b] xs IH]; intros hd lo C O; [constructor|].
  destruct C as (_ & r & E & B & C). destruct O as (? & ? & O). simpl in *. apply NoDup_cons. split; [|by eapply IH].
  intros ([y c] & Ey & Hy)%list_elem_of_fmap. simpl in Ey. subst y. destruct (chain_lookup _ _ _ _ _ C Hy) as (r' & E' & B').
  assert (c = b) as -> by congruence. clear -O Hy H0. apply list_elem_of_split in Hy as (l1 & l2 & ->).
  rewrite fmap_app in O. apply ordered_app in O as (m & O1 & (? & _) & ?). pose proof (ordered_le _ _ _ O1). simpl in *. lia.
Qed.

Lemma chain_size h hd xs lo hi : chain h hd xs -> ordered lo hi xs.*2 -> (length xs <= size h)%nat.
Proof.
  intros C O. rewrite <- (length_fmap fst). apply nodup_live_size; [by eapply chain_distinct|].
  intros x ([y b] & -> & Hx)%list_elem_of_fmap. destruct (chain_lookup _ _ _ _ _ C Hx) as (r & E & _). eauto.
Qed.

Lemma range_top r lo hi bs : ordered lo hi (bare r :: bs) -> 0 <= lo -> hi < 2 ^ 64 -> RANGE_TOP r = start r + size_ r.
Proof.
  intros (? & ? & O) ? ?. simpl in *. pose proof (ordered_le _ _ _ O). unfold RANGE_TOP. apply u64_id. unfold is_u64. lia.
Qed.

(** ** Finding *)

Lemma getrange_ok h a lo hi : 0 <= lo -> hi < 2 ^ 64 -> forall fuel xs hd,
  chain h hd xs -> ordered lo hi xs.*2 -> (length xs < fuel)%nat ->
  exists o, getrange fuel h hd a = Some o /\
    match o with
    | None => cover xs.*2 a = None
    | Some x => exists r, h !! x = Some r /\ (x, bare r) ∈ xs /\ start r <= a < start r + size_ r /\ cover xs.*2 a = Some (attr r a)
    end.
Proof.
  intros Hlo Hhi. induction fuel as [|fuel IH]; intros xs hd C O L; [lia|]. cbn [getrange].
  destruct xs as [|[x b] xs]; simpl in C; [subst hd; by exists None|].
  destruct C as (-> & r & E & <- & C). rewrite E. cbn [mbind option_bind]. rewrite (range_top r lo hi xs.*2) by done.
  change ((start r <=? a) && (a <? start r + size_ r)) with (inside (bare r) a). simpl.
  destruct (inside (bare r) a) eqn:I.
  - exists (Some x). split; [done|]. apply inside_spec in I. simpl in I. exists r.
    split_and!; [done|apply list_elem_of_here|lia|lia|done].
  - destruct O as (? & ? & O). simpl in *.
    destruct (IH xs (next r) C) as (o & Eo & S); [eapply ordered_weaken; [exact O|lia]|lia|].
    exists o. split; [done|]. destruct o as [y|]; [|done]. destruct S as (q & ? & ? & ? & ?). exists q. split_and!; try done; [|lia|lia].
    by apply elem_of_cons; right.
Qed.

(** [len] bytes from [v] on are free and below [hi]. *)
Definition gap (bs : list vmmrange_t) (hi v len : Z) : Prop :=
  v + len <= hi /\ forall a, v <= a < v + len -> cover bs a = None.

Lemma gap_overlap bs1 b bs2 lo hi v len :
  0 < len -> ordered lo hi (bs1 ++ b :: bs2) -> v < start b + size_ b -> start b < v + len -> ~ gap (bs1 ++ b :: bs2) hi v len.
Proof.
  intros Hl O H1 H2 [_ G]. apply ordered_app in O as (m & O1 & (? & ? & O2) & ?).
  specialize (G (Z.max v (start b)) ltac:(lia)). rewrite cover_app in G.
  destruct (cover bs1 _); [done|]. simpl in G. assert (I : inside b (Z.max v (start b)) = true) by (apply inside_spec; lia).
  by rewrite I in G.
Qed.

Lemma getfreerange_loop_ok h lo hi len : 0 <= lo -> hi < 2 ^ 64 -> 0 < len -> forall fuel bs0 x b xs addr,
  chain h (Some x) ((x, b) :: xs) -> ordered lo hi (bs0 ++ b :: xs.*2) -> 0 < addr <= hi -> (length xs < fuel)%nat ->
  exists v, getfreerange_loop fuel h hi x addr len = Some v /\
    (v <> 0 -> addr <= v /\ start b + size_ b <= v /\ gap (bs0 ++ b :: xs.*2) hi v len) /\
    forall v', addr <= v' -> (v = 0 \/ v' < v) -> start b < v' + len -> ~ gap (bs0 ++ b :: xs.*2) hi v' len.
Proof.
  intros Hlo Hhi Hlen. induction fuel as [|fuel IH]; intros bs0 x b xs addr C O Ha L; [lia|]. cbn [getfreerange_loop].
  destruct C as (_ & r & E & <- & C). rewrite E. cbn [mbind option_bind].
  pose proof O as O'. apply ordered_app in O' as (m & O1 & Ob & Hm). rewrite (range_top r m hi xs.*2) by (done || lia).
  destruct Ob as (? & ? & O2). simpl in *. pose proof (ordered_le _ _ _ O2) as Ot.
  set (addr' := if addr <? start r + size_ r then start r + size_ r else addr).
  assert (A' : addr <= addr' /\ start r + size_ r <= addr' <= hi) by (unfold addr'; destruct (Z.ltb_spec addr (start r + size_ r)); lia).
  assert (Low : forall v', addr <= v' -> v' < addr' -> start r < v' + len -> ~ gap (bs0 ++ bare r :: xs.*2) hi v' len).
  { intros v' Hv Hv' Hs. apply (gap_overlap _ _ _ lo); [done|done| |done]. simpl.
    unfold addr' in Hv'. destruct (Z.ltb_spec addr (start r + size_ r)); lia. }
  assert (Free : forall top, ordered top hi xs.*2 -> addr' + len <= top -> gap (bs0 ++ bare r :: xs.*2) hi addr' len).
  { intros top Ht Hl. pose proof (ordered_le _ _ _ Ht). split; [lia|]. intros a Ha'. rewrite cover_app.
    rewrite (cover_above lo m) by (done || lia). simpl. destruct (inside (bare r) a) eqn:I; [apply inside_spec in I; simpl in I; lia|].
    apply (cover_below top hi); [done|lia]. }
  destruct (next r) as [y|] eqn:Nx.
  - destruct xs as [|[y' bn] xs]; [done|]. destruct C as ([= <-] & rn & En & <- & C). rewrite En. cbn [mbind option_bind].
    destruct O2 as (Hn & Hs & O2). simpl in Hn, Hs, O2. rewrite Z.geb_leb.
    destruct (Z.ltb_spec addr' (start rn)) as [Hlt|Hge]; [rewrite (u64_id (start rn - addr')) by (unfold is_u64; pose proof (ordered_le _ _ _ O2); lia);
      destruct (Z.leb_spec len (start rn - addr')) as [Hfit|Hno]|]; cbn [andb].
    + exists addr'. split_and!; [done| |].
      * intros _. split_and!; [lia|lia|]. apply (Free (start rn)); [|lia]. simpl. split_and!; [lia|done|done].
      * intros v' Hv [Hv'|Hv'] Hs'; [lia|by apply Low].
    + destruct (IH (bs0 ++ [bare r]) y (bare rn) xs addr') as (v & Ev & S1 & S2); [by split; [|exists rn]|by rewrite <- app_assoc|lia|simpl in L; lia|].
      rewrite <- app_assoc in S1, S2. exists v. split_and!; [done| |].
      * intros Hv. destruct (S1 Hv) as (? & ? & ?). simpl in *. split_and!; [lia|lia|done].
      * intros v' Hv Hv' Hs'. destruct (Z.lt_ge_cases v' addr'); [by apply Low|]. apply S2; [done|done|]. simpl. lia.
    + destruct (IH (bs0 ++ [bare r]) y (bare rn) xs addr') as (v & Ev & S1 & S2); [by split; [|exists rn]|by rewrite <- app_assoc|lia|simpl in L; lia|].
      rewrite <- app_assoc in S1, S2. exists v. split_and!; [done| |].
      * intros Hv. destruct (S1 Hv) as (? & ? & ?). simpl in *. split_and!; [lia|lia|done].
      * intros v' Hv Hv' Hs'. destruct (Z.lt_ge_cases v' addr'); [by apply Low|]. apply S2; [done|done|]. simpl. lia.
  - destruct xs as [|[y' bn] xs]; [|by destruct C]. eexists. split; [done|]. rewrite Z.geb_leb.
    rewrite (u64_id (hi - addr')) by (unfold is_u64; lia).
    destruct (Z.eqb_spec addr' hi) as [Eh|Nh], (Z.leb_spec len (hi - addr')) as [Hfit|Hno]; cbn [negb andb];
      (split; [intros Hv; try lia|intros v' Hv Hv' Hs']).
    1,2,5: destruct (Z.lt_ge_cases v' addr'); [by apply Low|intros [? _]; lia].
    + split_and!; [lia|lia|]. apply (Free hi); [simpl; lia|lia].
    + destruct Hv' as [?|?]; [lia|]. by apply Low.
Qed.

(** Where there are ranges already, [getfreerange] returns the lowest
    address at or above the hint from which the whole length is free and inside
    the space, and [NULL] only when there is no such address. *)
Lemma getfreerange_first_fit h sp hd xs addr len :
  chain h hd xs -> ordered (space_start sp) (space_end sp) xs.*2 -> xs <> [] ->
  space_start sp <= addr < space_end sp -> 0 < len ->
  exists v, getfreerange h sp hd addr len = Some v /\
    (v <> 0 -> addr <= v /\ gap xs.*2 (space_end sp) v len) /\
    forall v', addr <= v' -> (v = 0 \/ v' < v) -> ~ gap xs.*2 (space_end sp) v' len.
Proof.
  intros C O Ne Ha Hl. assert (B : 0 < space_start sp /\ space_end sp < 2 ^ 64) by (destruct sp; done).
  destruct xs as [|[x b] xs]; [done|]. pose proof (chain_size _ _ _ _ _ C O) as Sz. pose proof C as (-> & r & E & <- & C').
  unfold getfreerange. destruct (Z.eqb_spec addr 0) as [|_]; [lia|]. rewrite E. cbn [mbind option_bind].
  pose proof O as (Hs & Hz & O'). simpl in Hs, Hz, O'. pose proof (ordered_le _ _ _ O') as Ot. rewrite Z.geb_leb.
  destruct (getfreerange_loop_ok h (space_start sp) (space_end sp) len ltac:(lia) ltac:(lia) Hl (S (size h)) [] x (bare r) xs addr)
    as (v & Ev & S1 & S2); [done|done|lia|simpl in Sz; lia|].
  destruct (Z.eqb_spec (start r) (space_start sp)) as [Es|Ns]; cbn [negb andb].
  - exists v. split_and!; [done|intros Hv; split; by apply S1|]. intros v' Hv Hv'. apply S2; [done|done|]. simpl. lia.
  - destruct (Z.ltb_spec addr (start r)) as [Hlt|Hge]; cbn [andb].
    + rewrite (u64_id (start r - addr)) by (unfold is_u64; lia). destruct (Z.leb_spec len (start r - addr)).
      * exists addr. split_and!; [done| |intros v' ? [?|?]; lia]. intros _. split; [lia|]. split; [lia|].
        intros a Ha'. apply (cover_below (start r) (space_end sp)); [|lia]. simpl. split_and!; [lia|done|done].
      * exists v. split_and!; [done|intros Hv; split; by apply S1|]. intros v' Hv Hv'. apply S2; [done|done|]. simpl. lia.
    + exists v. split_and!; [done|intros Hv; split; by apply S1|]. intros v' Hv Hv'. apply S2; [done|done|]. simpl. lia.
Qed.

(** ** Inserting *)

Lemma gap_sides lo hi bs v len b : ordered lo hi bs -> gap bs hi v len -> 0 < len -> b ∈ bs ->
  start b + size_ b <= v \/ v + len <= start b.
Proof.
  intros O G Hl Hb. apply list_elem_of_split in Hb as (bs1 & bs2 & ->).
  destruct (Z.lt_ge_cases v (start b + size_ b)); [|by left; lia].
  destruct (Z.lt_ge_cases (start b) (v + len)); [|by right; lia]. exfalso. by eapply gap_overlap.
Qed.

Lemma insert_after_ok h lo hi ns ne : 0 <= lo -> hi < 2 ^ 64 -> ns < ne -> forall fuel x b xs,
  chain h (Some x) ((x, b) :: xs) -> ordered lo hi (b :: xs.*2) -> start b + size_ b <= ns ->
  (forall c, c ∈ xs.*2 -> start c + size_ c <= ns \/ ne <= start c) -> (length xs < fuel)%nat ->
  exists l1 y c l2, (x, b) :: xs = l1 ++ (y, c) :: l2 /\ insert_after fuel h x ns = Some y /\ start c + size_ c <= ns /\
    match l2 with [] => True | (_, e) :: _ => ne <= start e end.
Proof.
  intros Hlo Hhi Hn. induction fuel as [|fuel IH]; intros x b xs C O Hb D L; [lia|]. cbn [insert_after].
  destruct C as (_ & r & E & <- & C). rewrite E. cbn [mbind option_bind]. pose proof (range_top r lo hi xs.*2 O Hlo Hhi) as Rt.
  destruct xs as [|[y c] xs].
  - simpl in C. rewrite C. by exists [], x, (bare r), [].
  - destruct C as (-> & rn & En & <- & C). rewrite En. cbn [mbind option_bind]. rewrite Rt, Z.geb_leb.
    simpl in Hb. destruct (Z.leb_spec (start r + size_ r) ns) as [_|?]; [|lia]. cbn [andb].
    destruct (Z.ltb_spec ns (start rn)) as [Hlt|Hge].
    + exists [], x, (bare r), ((y, bare rn) :: xs). split_and!; [done|done|done|]. simpl.
      destruct (D (bare rn)) as [Q|Q]; [apply list_elem_of_here| |done].
      destruct O as (_ & ? & ? & ? & O). pose proof (ordered_le _ _ _ O). simpl in *. lia.
    + destruct (IH y (bare rn) xs) as (l1 & z & e & l2 & El & Ei & S1 & S2).
      * split; [done|]. by exists rn.
      * destruct O as (? & ? & O). eapply ordered_weaken; [exact O|]. simpl in *. lia.
      * destruct (D (bare rn)) as [Q|Q]; [apply list_elem_of_here|done|]. simpl in *. lia.
      * intros d Hd. apply D. by apply elem_of_cons; right.
      * simpl in L. lia.
      * exists ((x, bare r) :: l1), z, e, l2. split_and!; try done. simpl. by rewrite El.
Qed.

(** Links change, the rest does not. *)
Definition relinked (h h' : gmap nat vmmrange_t) : Prop := forall x, bare <$> h' !! x = bare <$> h !! x.

Lemma relinked_lookup h h' x r : relinked h h' -> h !! x = Some r -> exists r', h' !! x = Some r' /\ bare r' = bare r.
Proof. intros R E. specialize (R x). rewrite E in R. destruct (h' !! x) as [r'|]; [|done]. apply (inj Some) in R. eauto. Qed.

Lemma relinked_upd h x (g : vmmrange_t -> vmmrange_t) r : (forall r, bare (g r) = bare r) -> h !! x = Some r ->
  relinked h (<[x := g r]> h).
Proof.
  intros Hg E y. destruct (decide (y = x)) as [->|Ne]; [|by rewrite lookup_insert_ne].
  rewrite lookup_insert_eq, E. simpl. by rewrite Hg.
Qed.

Lemma relinked_trans h1 h2 h3 : relinked h1 h2 -> relinked h2 h3 -> relinked h1 h3.
Proof. intros A B x. by rewrite (B x). Qed.

Lemma pool_relinked h h' cs : relinked h h' -> pool_ok (mk_pool h cs) -> pool_ok (mk_pool h' cs).
Proof.
  intros R O. assert (S : forall c k, free_slot h' c k = free_slot h c k).
  { intros c k. unfold free_slot. specialize (R (slot c k)).
    destruct (h' !! slot c k) as [r'|], (h !! slot c k) as [r|]; try done. apply (inj Some) in R.
    by rewrite <- (bare_size r'), R. }
  split; cbn [heap caches].
  - intros x. rewrite <- (po_dom _ O). cbn [heap]. specialize (R x). destruct (h' !! x), (h !! x); try done.
  - intros c hd Hc. destruct (po_caches _ O c hd Hc) as [H1 H2 H3]. cbn [heap] in *. split; [done| |].
    + rewrite H2. f_equal. apply countb_ext. intros k _. by rewrite S.
    + intros k Hk. rewrite S. by apply H3.
Qed.

Lemma chain_cons h x r b xs : h !! x = Some r -> bare r = b -> chain h (next r) xs -> chain h (Some x) ((x, b) :: xs).
Proof. intros E B C. split; [done|]. by exists r. Qed.

(** What linking the range [new] into the chain through [xs] gives. *)
Definition linked (h : gmap nat vmmrange_t) (new : nat) (nr : vmmrange_t) (xs : list (nat * vmmrange_t)) (lo hi : Z)
    (hd' : option nat) (h' : gmap nat vmmrange_t) : Prop :=
  exists l1 l2 r', xs = l1 ++ l2 /\
    chain h' hd' (l1 ++ (new, bare nr) :: l2) /\ ordered lo hi (l1 ++ (new, bare nr) :: l2).*2 /\
    relinked h h' /\ h' !! new = Some r' /\ prev r' = fst <$> last l1 /\
    forall y, y ∉ new :: xs.*1 -> h' !! y = h !! y.

Section link.
Context (h : gmap nat vmmrange_t) (new : nat) (nr : vmmrange_t) (lo hi : Z).
Context (En : h !! new = Some nr) (Hz : 0 < size_ nr) (Hl : lo <= start nr).

Lemma link_first x r xs :
  chain h (Some x) ((x, bare r) :: xs) -> ordered lo hi (bare r :: xs.*2) -> h !! x = Some r ->
  new ∉ x :: xs.*1 -> start nr + size_ nr <= start r ->
  linked h new nr ((x, bare r) :: xs) lo hi (Some new)
    (<[new := with_prev None (with_next (Some x) nr)]> (<[x := with_prev (Some new) r]> (<[new := with_next (Some x) nr]> h))).
Proof.
  intros C O E Nin Hb. pose proof (chain_distinct _ _ _ _ _ C O) as ND. apply NoDup_cons in ND as [Nx _].
  apply not_elem_of_cons in Nin as [Ne Nin]. destruct C as (_ & r0 & E0 & _ & C). assert (r0 = r) as -> by congruence.
  eexists [], _, _. split; [done|]. split_and!; [| | |by rewrite lookup_insert_eq|done|].
  - eapply chain_cons; [apply lookup_insert_eq|done|].
    eapply (chain_cons _ x (with_prev (Some new) r)); [by rewrite lookup_insert_ne, lookup_insert_eq|done|].
    eapply chain_ext; [|exact C]. intros y q Hy Eq. exists q. rewrite !lookup_insert_ne by (intros <-; done). done.
  - destruct O as (? & ? & O). simpl in *. split_and!; try done; lia.
  - eapply relinked_trans; [by apply (relinked_upd h new (with_next (Some x)))|].
    eapply relinked_trans; [by apply (relinked_upd _ x (with_prev (Some new)) r); [|rewrite lookup_insert_ne]|].
    eapply (relinked_upd _ new (with_prev None)); [done|]. by rewrite lookup_insert_ne, lookup_insert_eq.
  - intros y Hy. rewrite !lookup_insert_ne; [done|..]; intros <-; apply Hy; set_solver.
Qed.

Lemma link_middle hd l1 y ry l2 :
  chain h hd (l1 ++ (y, bare ry) :: l2) -> ordered lo hi (l1 ++ (y, bare ry) :: l2).*2 -> h !! y = Some ry ->
  new ∉ (l1 ++ (y, bare ry) :: l2).*1 -> start ry + size_ ry <= start nr -> start nr + size_ nr <= hi ->
  match l2 with [] => True | (_, e) :: _ => start nr + size_ nr <= start e end ->
  linked h new nr (l1 ++ (y, bare ry) :: l2) lo hi hd
    (<[y := with_next (Some new) ry]> (<[new := with_prev (Some y) (with_next (next ry) nr)]> h)).
Proof.
  intros C O Ey Nin Hy Hh Hn. pose proof (chain_distinct _ _ _ _ _ C O) as ND. apply chain_split in C as (Up & r0 & E0 & _ & C).
  assert (r0 = ry) as -> by congruence. rewrite fmap_app in ND, Nin. simpl in ND, Nin. apply NoDup_app in ND as (_ & ND1 & ND2).
  apply NoDup_cons in ND2 as [ND2 _]. assert (Ne : new <> y) by set_solver.
  eexists (l1 ++ [(y, bare ry)]), l2, _. split; [by rewrite <- app_assoc|]. rewrite <- app_assoc. cbn [app]. split_and!.
  - apply chain_split. split.
    + eapply upto_ext; [|exact Up]. intros z q Hz' Eq. exists q.
      rewrite !lookup_insert_ne; [done|intros <-; set_solver|intros <-; eapply ND1; [exact Hz'|apply list_elem_of_here]].
    + eexists. rewrite lookup_insert_eq. split; [done|]. split; [done|].
      eapply chain_cons; [by rewrite lookup_insert_ne, lookup_insert_eq|done|].
      eapply chain_ext; [|exact C]. intros z q Hz' Eq. exists q. rewrite !lookup_insert_ne; [done|..]; intros <-; set_solver.
  - rewrite fmap_app in O |- *. apply ordered_app in O as (m & O1 & (O2 & O3 & O4) & Hm). apply ordered_app.
    exists m. split; [done|split; [|done]]. simpl in *. split_and!; try done.
    destruct l2 as [|[z e] l2]; simpl in *; [done|]. destruct O4 as (? & ? & O4). done.
  - eapply relinked_trans; [by apply (relinked_upd h new (fun r => with_prev (Some y) (with_next (next ry) r)))|].
    apply (relinked_upd _ y (with_next (Some new)) ry); [done|]. by rewrite lookup_insert_ne.
  - by rewrite lookup_insert_ne, lookup_insert_eq.
  - simpl. by rewrite last_snoc.
  - intros z Hz'. rewrite fmap_app in Hz'. rewrite !lookup_insert_ne; [done|..]; intros <-; apply Hz'; set_solver.
Qed.
End link.

(** The new range is linked between the ranges below and above it. *)
Lemma insert_link_ok h hd new nr xs lo hi :
  chain h hd xs -> ordered lo hi xs.*2 -> 0 <= lo -> hi < 2 ^ 64 -> h !! new = Some nr -> new ∉ xs.*1 ->
  0 < size_ nr -> lo <= start nr -> gap xs.*2 hi (start nr) (size_ nr) ->
  exists hd' h', insert_link hd new h = Some (hd', h') /\ linked h new nr xs lo hi hd' h'.
Proof.
  intros C O Hlo Hhi En Nin Hz Hl G. destruct xs as [|[x b] xs].
  - simpl in C. subst hd. unfold insert_link, upd. rewrite En. cbn [mbind option_bind].
    eexists _, _. split; [done|]. eexists [], [], _. split; [done|]. split_and!; [| | |by rewrite lookup_insert_eq|done|].
    + eapply chain_cons; [apply lookup_insert_eq|done|done].
    + destruct G as [G _]. done.
    + by apply (relinked_upd _ _ (fun r => with_prev None (with_next None r))).
    + intros y Hy. rewrite lookup_insert_ne; [done|]. intros <-. apply Hy, list_elem_of_here.
  - pose proof C as (-> & r & E & <- & C'). unfold insert_link. rewrite E, En. cbn [mbind option_bind].
    assert (Nx : new <> x) by (intros ->; apply Nin, list_elem_of_here).
    assert (Rn : RANGE_TOP nr = start nr + size_ nr)
      by (unfold RANGE_TOP; apply u64_id; unfold is_u64; destruct G; lia). rewrite Rn.
    destruct (Z.leb_spec (start nr + size_ nr) (start r)) as [Hb|Hb].
    + unfold upd. rewrite En. cbn [mbind option_bind]. rewrite lookup_insert_ne by done. rewrite E. cbn [mbind option_bind].
      rewrite lookup_insert_ne, lookup_insert_eq by done. cbn [mbind option_bind].
      eexists _, _. split; [done|]. by apply link_first.
    + assert (D : forall c, c ∈ bare r :: xs.*2 -> start c + size_ c <= start nr \/ start nr + size_ nr <= start c)
        by (intros c Hc; by apply (gap_sides lo hi (bare r :: xs.*2))).
      pose proof (chain_size _ _ _ _ _ C O) as Sz.
      destruct (insert_after_ok h lo hi (start nr) (start nr + size_ nr) Hlo Hhi ltac:(lia) (S (size h)) x (bare r) xs)
        as (l1 & y & c & l2 & El & Ey & Hc & Hn); [done|done| | |simpl in Sz; lia|].
      { destruct (D (bare r) (list_elem_of_here _ _)); simpl in *; lia. }
      { intros c Hc. apply D. by apply elem_of_cons; right. }
      rewrite Ey. cbn [mbind option_bind]. pose proof C as C2. rewrite El in C2. apply chain_split in C2 as (_ & ry & Ery & <- & _).
      assert (Ny : new <> y).
      { intros ->. apply Nin. rewrite El, fmap_app. set_solver. }
      rewrite Ery. cbn [mbind option_bind]. unfold upd. rewrite En. cbn [mbind option_bind].
      rewrite lookup_insert_ne, Ery by done. cbn [mbind option_bind].
      eexists _, _. split; [done|]. rewrite El in *. apply link_middle; try done. by destruct G.
Qed.

(** ** Joining two ranges that touch *)

Definition joined (a b : vmmrange_t) : vmmrange_t :=
  mk_range None None (start a) (size_ a + size_ b) (flags a) (mmuflags a) (vnode a) (offset a).

Lemma joinable_attr a b x : joinable a b = true -> start b = start a + size_ a -> attr b x = attr (joined a b) x.
Proof.
  unfold joinable, attr. rewrite !andb_true_iff, !Z.eqb_eq, orb_true_iff, negb_true_iff, andb_true_iff, Nat.eqb_eq, Z.eqb_eq.
  intros [[Ef Em] J] Es. simpl. rewrite <- Ef, <- Em. f_equal. destruct J as [->|[<- <-]]; [done|].
  case_match; [|done]. do 2 f_equal. rewrite u64_add_l. f_equal. lia.
Qed.

Lemma cover_join bs1 a b bs2 x : joinable a b = true -> start b = start a + size_ a -> 0 < size_ a -> 0 < size_ b ->
  cover (bs1 ++ joined a b :: bs2) x = cover (bs1 ++ a :: b :: bs2) x.
Proof.
  intros J Es Ha Hb. rewrite !cover_app. destruct (cover bs1 x); [done|]. simpl.
  destruct (inside a x) eqn:Ia.
  - assert (inside (joined a b) x = true) as -> by (apply inside_spec in Ia; apply inside_spec; simpl; lia). done.
  - destruct (inside b x) eqn:Ib.
    + assert (inside (joined a b) x = true) as -> by (apply inside_spec in Ib; apply inside_spec; simpl; lia).
      by rewrite (joinable_attr a b).
    + destruct (inside (joined a b) x) eqn:Ij; [|done]. exfalso. apply inside_spec in Ij. simpl in Ij.
      destruct (Z.lt_ge_cases x (start b)).
      * assert (inside a x = true) by (apply inside_spec; lia). congruence.
      * assert (inside b x = true) by (apply inside_spec; lia). congruence.
Qed.

Lemma joinable_bare a b : joinable (bare a) (bare b) = joinable a b.
Proof. done. Qed.

(** A slot that was given back. *)
Definition freed (pl : pool) (x : nat) : Prop := exists r, heap pl !! x = Some r /\ size_ r = 0.

Lemma freed_unused pl x : freed pl x -> ~ used pl x.
Proof. intros (r & E & Z0) (r' & E' & N). congruence. Qed.

Section merge.
Context (pl : pool) (hd : option nat) (l1 l2 : list (nat * vmmrange_t)) (x y : nat) (rx ry : vmmrange_t) (lo hi : Z).
Context (Po : pool_ok pl) (C : chain (heap pl) hd (l1 ++ (x, bare rx) :: (y, bare ry) :: l2)).
Context (O : ordered lo hi (l1 ++ (x, bare rx) :: (y, bare ry) :: l2).*2) (Hlo : 0 <= lo) (Hhi : hi < 2 ^ 64).
Context (Ex : heap pl !! x = Some rx) (Ey : heap pl !! y = Some ry) (Es : start ry = start rx + size_ rx).

Let rx' := with_next (next ry) (with_size (u64 (size_ rx + size_ ry)) rx).

Lemma merge_facts : 0 < size_ rx /\ 0 < size_ ry /\ u64 (size_ rx + size_ ry) = size_ rx + size_ ry /\ next rx = Some y /\
  chain (heap pl) (next ry) l2 /\ upto (heap pl) hd l1 x /\ x <> y /\ (x ∉ l2.*1) /\ (y ∉ l2.*1) /\ (x ∉ l1.*1) /\ (y ∉ l1.*1) /\
  forall z, z ∈ l1.*1 -> z ∉ l2.*1.
Proof.
  pose proof (chain_distinct _ _ _ _ _ C O) as ND. pose proof C as C'. apply chain_split in C' as (Up & r0 & E0 & _ & C').
  assert (r0 = rx) as -> by congruence. destruct C' as (Nx & r1 & E1 & _ & C'). assert (r1 = ry) as -> by congruence.
  pose proof O as O'. rewrite fmap_app in O'. apply ordered_app in O' as (m & O1 & (O2 & O3 & O4 & O5 & O6) & Hm).
  pose proof (ordered_le _ _ _ O6). simpl in *. rewrite fmap_app in ND. simpl in ND. apply NoDup_app in ND as (_ & D1 & D2).
  apply NoDup_cons in D2 as [D2 D3]. apply NoDup_cons in D3 as [D3 _]. rewrite not_elem_of_cons in D2. destruct D2 as [D2 D4].
  split_and!; try done.
  - apply u64_id. unfold is_u64. lia.
  - intros Q. apply (D1 x Q), list_elem_of_here.
  - intros Q. apply (D1 y Q). set_solver.
  - intros z Hz Hz'. apply (D1 z Hz). set_solver.
Qed.

Lemma merge_prev : exists h2, set_prev (next ry) (Some x) (<[x := rx']> (heap pl)) = Some h2 /\
  relinked (<[x := rx']> (heap pl)) h2 /\ h2 !! x = Some rx' /\
  (forall z, z ∉ l2.*1 -> h2 !! z = (<[x := rx']> (heap pl)) !! z) /\ chain h2 (next ry) l2.
Proof.
  destruct merge_facts as (_ & _ & _ & _ & C2 & _ & Nxy & Nx & Ny & _).
  assert (C2' : chain (<[x := rx']> (heap pl)) (next ry) l2).
  { eapply chain_ext; [|exact C2]. intros z q Hz Eq. exists q. rewrite lookup_insert_ne; [done|]. intros <-. done. }
  destruct l2 as [|[z b] l2'] eqn:El.
  - simpl in C2'. rewrite C2' in *. cbn [set_prev]. eexists. split; [done|].
    split; [done|]. split; [apply lookup_insert_eq|]. split; [done|]. done.
  - pose proof C2' as (Nz & rz & Ez & Bz & C3). rewrite Nz. cbn [set_prev]. unfold upd. rewrite Ez. cbn [mbind option_bind].
    eexists. split; [done|]. split; [by apply (relinked_upd _ z (with_prev (Some x)) rz)|]. assert (z <> x) by set_solver.
    split; [by rewrite lookup_insert_ne, lookup_insert_eq|]. split.
    + intros w Hw. rewrite lookup_insert_ne; [done|]. set_solver.
    + rewrite <- Nz. eapply chain_ext; [|exact C2']. intros w q Hw Eq. destruct (decide (w = z)) as [->|Ne].
      * exists (with_prev (Some x) rz). rewrite lookup_insert_eq. rewrite Ez in Eq. by injection Eq as <-.
      * exists q. by rewrite lookup_insert_ne.
Qed.

Lemma merge_ok : exists h2 pl', set_prev (next ry) (Some x) (<[x := rx']> (heap pl)) = Some h2 /\
  freerange y (mk_pool h2 (caches pl)) = Some pl' /\ pool_ok pl' /\
  chain (heap pl') hd (l1 ++ (x, joined rx ry) :: l2) /\ ordered lo hi (l1 ++ (x, joined rx ry) :: l2).*2 /\
  heap pl' !! x = Some rx' /\ freed pl' y /\
  forall z, z ≠ x -> z ≠ y -> z ∉ l2.*1 -> heap pl' !! z = heap pl !! z.
Proof.
  destruct merge_facts as (Zx & Zy & Us & Nx & C2 & Up & Nxy & Nx2 & Ny2 & Nx1 & Ny1 & D12).
  destruct merge_prev as (h2 & E2 & R2 & X2 & F2 & C3). exists h2.
  assert (Sx : size_ rx' = size_ rx + size_ ry) by (unfold rx'; simpl; done).
  assert (Po2 : pool_ok (mk_pool h2 (caches pl))).
  { eapply pool_relinked; [exact R2|]. apply (pool_set pl x rx rx'); [done|done|lia|lia]. }
  assert (Y2 : h2 !! y = Some ry) by (by rewrite F2, lookup_insert_ne by done).
  destruct (freerange_ok (mk_pool h2 (caches pl)) y ry Po2 Y2 ltac:(lia)) as (pl' & Ef & Po' & Eh). cbn [heap] in Eh.
  exists pl'. split; [done|]. split; [done|]. split; [done|]. rewrite Eh. split; [|split; [|split; [|split]]].
  - apply chain_split. split.
    + eapply upto_ext; [|exact Up]. intros z q Hz Eq. exists q.
      rewrite lookup_insert_ne by (intros <-; done). rewrite F2 by auto. rewrite lookup_insert_ne by (intros <-; done). done.
    + exists rx'. rewrite lookup_insert_ne by done. split; [done|]. split; [unfold joined, bare, rx'; simpl; by rewrite Us|].
      eapply chain_ext; [|exact C3]. intros z q Hz Eq. exists q. rewrite lookup_insert_ne; [done|]. intros <-. done.
  - rewrite fmap_app in O |- *. apply ordered_app in O as (m & O1 & (O2 & O3 & O4 & O5 & O6) & Hm). apply ordered_app. exists m.
    split; [done|]. split; [|done]. simpl in *. split_and!; [done|lia|]. eapply ordered_weaken; [exact O6|lia].
  - by rewrite lookup_insert_ne.
  - exists (with_size 0 ry). by rewrite Eh, lookup_insert_eq.
  - intros z Zx' Zy' Hz. rewrite lookup_insert_ne by done. rewrite F2 by done. by rewrite lookup_insert_ne.
Qed.
End merge.

(** ** References to vnodes

    Each range of a file holds one reference to the vnode. *)
Class FilesLaws (F P : Type) `{!Files F P} := {
  holds : F -> nat -> Z;
  vop_hold_ok : forall v f, exists f', vop_hold (P := P) v f = Some f' /\
    forall u, holds f' u = holds f u + (if (u =? v)%nat then 1 else 0);
  vop_release_ok : forall v f, 0 < holds f v -> exists f', vop_release (P := P) v f = Some f' /\
    forall u, holds f' u = holds f u - (if (u =? v)%nat then 1 else 0)
}.

Definition maps_file (v : nat) (b : vmmrange_t) : bool := has (flags b) VMM_FLAGS_FILE && (v =? vnode b)%nat.

Definition file_count (bs : list vmmrange_t) (v : nat) : Z := Z.of_nat (countb (maps_file v) bs).

Lemma countb_app {A} (g : A -> bool) l1 l2 : countb g (l1 ++ l2) = (countb g l1 + countb g l2)%nat.
Proof. induction l1 as [|x l IH]; simpl; [done|]. rewrite IH. lia. Qed.

Lemma file_count_join bs1 a b bs2 v : joinable a b = true ->
  file_count (bs1 ++ joined a b :: bs2) v = file_count (bs1 ++ a :: b :: bs2) v - (if maps_file v a then 1 else 0).
Proof.
  intros J. unfold file_count. rewrite !countb_app. cbn [countb].
  assert (maps_file v (joined a b) = maps_file v a) as -> by done.
  assert (maps_file v b = maps_file v a) as ->.
  { unfold joinable in J. rewrite !andb_true_iff, !Z.eqb_eq, orb_true_iff, negb_true_iff, andb_true_iff, Nat.eqb_eq in J.
    destruct J as [[Ef _] J]. unfold maps_file. rewrite <- Ef. destruct J as [->|[<- _]]; done. }
  destruct (maps_file v a); lia.
Qed.

Section insert_ok.
Context {F P : Type} `{!Files F P, !FilesLaws F P}.
Implicit Types (f : F) (pl : pool).

(** References in excess of the ranges of a chain. *)
Definition spare f (bs : list vmmrange_t) (v : nat) : Z := holds (P := P) f v - file_count bs v.

Lemma release_range r f bs1 bs2 :
  (forall v, 0 <= spare f (bs1 ++ bare r :: bs2) v) ->
  exists f', (if has (flags r) VMM_FLAGS_FILE then vop_release (P := P) (vnode r) f else Some f) = Some f' /\
    forall v, holds (P := P) f' v = holds (P := P) f v - (if maps_file v r then 1 else 0).
Proof.
  intros B. unfold maps_file. destruct (has (flags r) VMM_FLAGS_FILE) eqn:Hf.
  - destruct (vop_release_ok (P := P) (vnode r) f) as (f' & E & H).
    + specialize (B (vnode r)). unfold spare, file_count in B. rewrite countb_app in B. cbn [countb] in B.
      unfold maps_file in B at 2. cbn [bare flags vnode] in B. rewrite Hf, Nat.eqb_refl in B. simpl in B. lia.
    + exists f'. split; [done|]. intros v. by rewrite H.
  - exists f. split; [done|]. intros v. simpl. lia.
Qed.

(** After a join: the chain is as before but for the slots joined, and says the
    same about every address. *)
Record rejoined pl f hd (xs : list (nat * vmmrange_t)) (lo hi : Z) pl' f' (xs' : list (nat * vmmrange_t)) : Prop := {
  j_pool : pool_ok pl';
  j_chain : chain (heap pl') hd xs';
  j_ordered : ordered lo hi xs'.*2;
  j_cover : forall a, cover xs'.*2 a = cover xs.*2 a;
  j_spare : forall v, spare f' xs'.*2 v = spare f xs.*2 v;
  j_sub : forall z, z ∈ xs'.*1 -> z ∈ xs.*1;
  j_freed : forall z, z ∈ xs.*1 -> z ∈ xs'.*1 \/ ~ used pl' z;
  j_frame : forall z, z ∉ xs.*1 -> heap pl' !! z = heap pl !! z
}.

Lemma rejoined_refl pl f hd xs lo hi :
  pool_ok pl -> chain (heap pl) hd xs -> ordered lo hi xs.*2 -> rejoined pl f hd xs lo hi pl f xs.
Proof. intros. split; try done. by left. Qed.

Lemma merge_rejoined pl f hd l1 l2 x y rx ry lo hi f' h2 pl' :
  pool_ok pl -> chain (heap pl) hd (l1 ++ (x, bare rx) :: (y, bare ry) :: l2) ->
  ordered lo hi (l1 ++ (x, bare rx) :: (y, bare ry) :: l2).*2 -> 0 <= lo -> hi < 2 ^ 64 ->
  heap pl !! x = Some rx -> heap pl !! y = Some ry -> start ry = start rx + size_ rx -> joinable rx ry = true ->
  set_prev (next ry) (Some x) (<[x := with_next (next ry) (with_size (u64 (size_ rx + size_ ry)) rx)]> (heap pl)) = Some h2 ->
  freerange y (mk_pool h2 (caches pl)) = Some pl' ->
  (forall v, holds (P := P) f' v = holds (P := P) f v - (if maps_file v rx then 1 else 0)) ->
  rejoined pl f hd (l1 ++ (x, bare rx) :: (y, bare ry) :: l2) lo hi pl' f' (l1 ++ (x, joined rx ry) :: l2) /\
  heap pl' !! x = Some (with_next (next ry) (with_size (u64 (size_ rx + size_ ry)) rx)).
Proof.
  intros Po C O Hlo Hhi Ex Ey Es J E2 Ef Hh.
  destruct (merge_ok pl hd l1 l2 x y rx ry lo hi Po C O Hlo Hhi Ex Ey Es) as (h2' & pl2 & E2' & Ef' & Po' & C' & O' & X' & Ny & Fr).
  rewrite E2 in E2'. injection E2' as <-. rewrite Ef in Ef'. injection Ef' as <-.
  destruct (merge_facts pl hd l1 l2 x y rx ry lo hi Po C O Hlo Hhi Ex Ey Es) as (Zx & Zy & _).
  split; [|done]. split; try done.
  - intros a. rewrite !fmap_app. cbn [fmap list_fmap]. by apply (cover_join _ (bare rx) (bare ry)).
  - intros v. unfold spare. rewrite Hh, !fmap_app. cbn [fmap list_fmap].
    rewrite (file_count_join _ (bare rx) (bare ry)) by done. cbn [snd]. unfold maps_file. cbn [bare flags vnode]. lia.
  - intros z. rewrite !fmap_app. set_solver.
  - intros z. rewrite !fmap_app. cbn [fmap list_fmap fst]. rewrite !elem_of_app, !elem_of_cons.
    intros [?|[?|[->|?]]]; [left; tauto|left; tauto|right; by apply freed_unused|left; tauto].
  - intros z. rewrite !fmap_app. cbn [fmap list_fmap fst]. intros Hz. apply Fr; set_solver.
Qed.

Lemma join_next_ok pl f hd l1 new nr l2 lo hi :
  pool_ok pl -> chain (heap pl) hd (l1 ++ (new, bare nr) :: l2) -> ordered lo hi (l1 ++ (new, bare nr) :: l2).*2 ->
  0 <= lo -> hi < 2 ^ 64 -> heap pl !! new = Some nr -> (forall v, 0 <= spare f (l1 ++ (new, bare nr) :: l2).*2 v) ->
  exists pl' f' nr' l2', join_next new (start nr + size_ nr) pl f = Some (pl', f') /\
    rejoined pl f hd (l1 ++ (new, bare nr) :: l2) lo hi pl' f' (l1 ++ (new, bare nr') :: l2') /\
    heap pl' !! new = Some nr' /\ prev nr' = prev nr /\ start nr' = start nr /\ forall o, joinable o nr' = joinable o nr.
Proof.
  intros Po C O Hlo Hhi En B. unfold join_next. rewrite En. cbn [mbind option_bind].
  pose proof C as C'. apply chain_split in C' as (_ & r0 & E0 & _ & C'). rewrite En in E0. injection E0 as <-.
  destruct l2 as [|[y b] l2].
  { simpl in C'. rewrite C'. exists pl, f, nr, []. split_and!; try done. by apply rejoined_refl. }
  destruct C' as (-> & o & Eo & <- & C'). rewrite Eo. cbn [mbind option_bind].
  destruct ((start o =? start nr + size_ nr) && joinable nr o) eqn:J.
  2:{ exists pl, f, nr, ((y, bare o) :: l2). split_and!; try done. by apply rejoined_refl. }
  apply andb_prop in J as [Es%Z.eqb_eq J]. unfold upd. rewrite En. cbn [mbind option_bind].
  destruct (merge_ok pl hd l1 l2 new y nr o lo hi Po C O Hlo Hhi En Eo Es) as (h2 & pl' & E2 & Ef & _).
  rewrite E2. cbn [mbind option_bind]. rewrite Ef. cbn [mbind option_bind].
  rewrite fmap_app in B. cbn [fmap list_fmap snd] in B. destruct (release_range nr f _ _ B) as (f' & -> & Hh).
  cbn [mbind option_bind].
  destruct (merge_rejoined pl f hd l1 l2 new y nr o lo hi f' h2 pl') as [R X]; try done.
  destruct (merge_facts pl hd l1 l2 new y nr o lo hi Po C O Hlo Hhi En Eo Es) as (_ & _ & Us & _).
  exists pl', f', (with_next (next o) (with_size (u64 (size_ nr + size_ o)) nr)), l2. split; [done|]. split; [|by split_and!].
  replace (bare (with_next _ _)) with (joined nr o); [done|]. unfold joined, bare. simpl. by rewrite Us.
Qed.

Lemma join_prev_ok pl f hd l1 new nr l2 lo hi :
  pool_ok pl -> chain (heap pl) hd (l1 ++ (new, bare nr) :: l2) -> ordered lo hi (l1 ++ (new, bare nr) :: l2).*2 ->
  0 <= lo -> hi < 2 ^ 64 -> heap pl !! new = Some nr -> prev nr = fst <$> last l1 ->
  (forall v, 0 <= spare f (l1 ++ (new, bare nr) :: l2).*2 v) ->
  exists pl' f' xs', join_prev new pl f = Some (pl', f') /\
    rejoined pl f hd (l1 ++ (new, bare nr) :: l2) lo hi pl' f' xs' /\
    forall m x o, l1 = m ++ [(x, o)] -> start nr = start o + size_ o -> joinable o nr = true -> freed pl' new.
Proof.
  intros Po C O Hlo Hhi En Pv B. unfold join_prev. rewrite En. cbn [mbind option_bind].
  destruct l1 as [|[x b] l1 _] using rev_ind.
  { rewrite Pv. exists pl, f, ((new, bare nr) :: l2). split; [done|]. split; [by apply rejoined_refl|]. by intros [|? m] x o. }
  rewrite last_snoc in Pv. simpl in Pv. rewrite Pv. rewrite <- app_assoc in *. cbn [app] in *.
  pose proof C as C'. apply chain_split in C' as (_ & o & Eo & <- & _). rewrite Eo. cbn [mbind option_bind].
  assert (Rt : RANGE_TOP o = start o + size_ o).
  { rewrite fmap_app in O. apply ordered_app in O as (m & _ & O & Hm). eapply range_top; [exact O|lia|done]. }
  rewrite Rt. destruct ((start o + size_ o =? start nr) && joinable o nr) eqn:J.
  2:{ exists pl, f, (l1 ++ (x, bare o) :: (new, bare nr) :: l2). split; [done|]. split; [by apply rejoined_refl|].
      intros m x' o' [_ [= <- <-]]%app_inj_tail Es J'. exfalso. simpl in Es. change (joinable (bare o) nr) with (joinable o nr) in J'.
      rewrite J', andb_true_r in J. apply Z.eqb_neq in J. lia. }
  apply andb_prop in J as [Es%Z.eqb_eq J]. unfold upd. rewrite Eo. cbn [mbind option_bind].
  destruct (merge_ok pl hd l1 l2 x new o nr lo hi Po C O Hlo Hhi Eo En (eq_sym Es)) as (h2 & pl' & E2 & Ef & _ & _ & _ & _ & Nu & _).
  rewrite E2. cbn [mbind option_bind]. rewrite Ef. cbn [mbind option_bind].
  rewrite fmap_app in B. cbn [fmap list_fmap snd] in B. destruct (release_range o f _ _ B) as (f' & -> & Hh).
  cbn [mbind option_bind]. destruct (merge_rejoined pl f hd l1 l2 x new o nr lo hi f' h2 pl') as [R X]; try done.
  exists pl', f', (l1 ++ (x, joined o nr) :: l2). split; [done|]. split; [done|]. by intros.
Qed.

Lemma rejoined_trans pl1 f1 hd xs1 lo hi pl2 f2 xs2 pl3 f3 xs3 :
  rejoined pl1 f1 hd xs1 lo hi pl2 f2 xs2 -> rejoined pl2 f2 hd xs2 lo hi pl3 f3 xs3 ->
  rejoined pl1 f1 hd xs1 lo hi pl3 f3 xs3.
Proof.
  intros A B. split; try apply B.
  - intros a. by rewrite (j_cover _ _ _ _ _ _ _ _ _ B), (j_cover _ _ _ _ _ _ _ _ _ A).
  - intros v. by rewrite (j_spare _ _ _ _ _ _ _ _ _ B), (j_spare _ _ _ _ _ _ _ _ _ A).
  - intros z Hz. by apply A, B.
  - intros z Hz. destruct (decide (z ∈ xs2.*1)) as [H2|H2]; [by apply B|right].
    destruct (j_freed _ _ _ _ _ _ _ _ _ A z Hz) as [|N]; [done|]. intros (r & E & Ne). apply N. exists r.
    split; [|done]. rewrite <- (j_frame _ _ _ _ _ _ _ _ _ B); done.
  - intros z Hz. rewrite (j_frame _ _ _ _ _ _ _ _ _ B); [by apply A|]. intros H2. by apply Hz, A.
Qed.

Lemma cover_insert bs1 b bs2 lo hi a : ordered lo hi (bs1 ++ b :: bs2) ->
  cover (bs1 ++ b :: bs2) a = if inside b a then Some (attr b a) else cover (bs1 ++ bs2) a.
Proof.
  intros O. rewrite !cover_app. cbn [cover]. destruct (inside b a) eqn:I; [|done].
  apply ordered_app in O as (m & O1 & (? & _) & _). apply inside_spec in I. rewrite (cover_above lo m) by (done || lia). done.
Qed.

Lemma ordered_bounds lo hi bs b : ordered lo hi bs -> b ∈ bs -> lo <= start b /\ start b + size_ b <= hi.
Proof.
  intros O (l1 & l2 & ->)%list_elem_of_split. apply ordered_app in O as (m & O1 & (Hm & Hz & O2) & _).
  pose proof (ordered_le _ _ _ O1). pose proof (ordered_le _ _ _ O2). lia.
Qed.

(** The range that ends where the new one starts is the one before it. *)
Lemma range_before lo hi (l1 l2 m1 m2 : list (nat * vmmrange_t)) x n y b :
  ordered lo hi (l1 ++ (x, n) :: l2).*2 -> l1 ++ l2 = m1 ++ (y, b) :: m2 -> start n = start b + size_ b -> 0 < size_ n -> l1 = m1 ++ [(y, b)].
Proof.
  intros O E Es Hn. rewrite fmap_app in O. apply ordered_app in O as (m & O1 & (Hm & _ & O2) & _). cbn [snd] in *.
  assert (Hb : 0 < size_ b).
  { assert (Hi : b ∈ (l1 ++ l2).*2) by (rewrite E, fmap_app; set_solver). rewrite fmap_app in Hi. apply elem_of_app in Hi as [Hi|Hi]; [exact (ordered_elem _ _ _ _ O1 Hi)|exact (ordered_elem _ _ _ _ O2 Hi)]. }
  assert (Not2 : (y, b) ∉ l2).
  { intros Hi. apply (ordered_bounds _ _ _ b) in O2 as [? _]; [lia|]. apply list_elem_of_fmap. by exists (y, b). }
  apply app_eq_app in E as (k & [[-> E]|[-> ->]]); [|destruct Not2; set_solver].
  destruct k as [|z k]; [simpl in E; destruct Not2; rewrite <- E; left|]. injection E as <- ->.
  destruct k as [|[z c] k]; [done|]. exfalso. rewrite fmap_app in O1. apply ordered_app in O1 as (m' & _ & (_ & _ & Hc & Zc & Ok) & _). cbn [snd fst] in *.
  apply ordered_le in Ok. lia.
Qed.

(** Inserting a range into a gap. *)
Lemma insertrange_ok pl f hd new nr xs lo hi :
  pool_ok pl -> chain (heap pl) hd xs -> ordered lo hi xs.*2 -> 0 <= lo -> hi < 2 ^ 64 ->
  heap pl !! new = Some nr -> new ∉ xs.*1 -> 0 < size_ nr -> lo <= start nr -> gap xs.*2 hi (start nr) (size_ nr) ->
  (forall v, 0 <= spare f (bare nr :: xs.*2) v) ->
  exists hd' pl' f' xs', insertrange (P := P) hd new pl f = Some (hd', pl', f') /\
    pool_ok pl' /\ chain (heap pl') hd' xs' /\ ordered lo hi xs'.*2 /\
    (forall a, cover xs'.*2 a = if inside nr a then Some (attr nr a) else cover xs.*2 a) /\
    (forall v, spare f' xs'.*2 v = spare f (bare nr :: xs.*2) v) /\
    (forall z, z ∈ xs'.*1 -> z ∈ new :: xs.*1) /\
    ((forall z, z ∈ new :: xs.*1 -> z ∈ xs'.*1 \/ ~ used pl' z) /\
     forall y b, (y, b) ∈ xs -> start nr = start b + size_ b -> joinable b nr = true -> freed pl' new) /\
    (forall z, z ∉ new :: xs.*1 -> heap pl' !! z = heap pl !! z).
Proof.
  intros Po C O Hlo Hhi En Nin Hz Hl G B. unfold insertrange. rewrite En. cbn [mbind option_bind].
  destruct (insert_link_ok (heap pl) hd new nr xs lo hi) as (hd' & h' & -> & l1 & l2 & nr1 & -> & C1 & O1 & R1 & E1 & P1 & F1); try done.
  cbn [mbind option_bind]. pose proof (pool_relinked _ h' (caches pl) R1 ltac:(by destruct pl)) as Po1.
  assert (Bn : bare nr1 = bare nr) by (specialize (R1 new); rewrite E1, En in R1; by apply (inj Some) in R1).
  assert (Cv : forall a, cover (l1 ++ (new, bare nr) :: l2).*2 a = if inside nr a then Some (attr nr a) else cover (l1 ++ l2).*2 a).
  { intros a. rewrite (fmap_app snd l1 l2), fmap_app. rewrite fmap_app in O1. by apply (cover_insert _ (bare nr) _ lo hi). }
  assert (Ids : forall z, z ∈ (l1 ++ (new, bare nr) :: l2).*1 <-> z ∈ new :: (l1 ++ l2).*1).
  { intros z. rewrite !fmap_app. cbn [fmap list_fmap fst]. rewrite !elem_of_cons, !elem_of_app, elem_of_cons. tauto. }
  assert (Sp : forall v, spare f (l1 ++ (new, bare nr) :: l2).*2 v = spare f (bare nr :: (l1 ++ l2).*2) v).
  { intros v. unfold spare, file_count. rewrite !fmap_app. cbn [fmap list_fmap countb snd]. rewrite !countb_app. cbn [countb]. lia. }
  destruct hd as [x|].
  - assert (Rn : RANGE_TOP nr = start nr1 + size_ nr1).
    { rewrite <- (bare_size nr1), Bn. change (start nr1) with (start (bare nr1)). rewrite Bn. unfold RANGE_TOP.
      apply u64_id. unfold is_u64. simpl. destruct G. lia. }
    rewrite Rn. rewrite <- Bn in *.
    destruct (join_next_ok (mk_pool h' (caches pl)) f hd' l1 new nr1 l2 lo hi) as (pl2 & f2 & nr2 & l2' & -> & J2 & E2 & P2 & St2 & Jn2); try done.
    { intros v. rewrite Sp. apply B. }
    cbn [mbind option_bind]. destruct (join_prev_ok pl2 f2 hd' l1 new nr2 l2' lo hi) as (pl3 & f3 & xs' & -> & J3 & Fr3); try done;
      [apply J2..|by rewrite P2, P1| |].
    { intros v. rewrite (j_spare _ _ _ _ _ _ _ _ _ J2), Sp. apply B. }
    cbn [mbind option_bind]. pose proof (rejoined_trans _ _ _ _ _ _ _ _ _ _ _ _ J2 J3) as J. destruct J as [Jp Jc Jo Jv Js Ju Jf Jr].
    exists hd', pl3, f3, xs'. split; [done|]. split_and!; try done.
    + intros a. by rewrite Jv, Cv.
    + intros v. by rewrite Js, Sp.
    + intros z Hz'. by apply Ids, Ju.
    + intros z Hz'%Ids. by apply Jf.
    + intros y b (m1 & m2 & Em)%list_elem_of_split Es J'.
      assert (Sn : start nr1 = start nr /\ size_ nr1 = size_ nr) by (by injection Bn). destruct Sn as [Sn Zn].
      assert (Jb : joinable b nr1 = joinable b nr) by (injection Bn as _ _ Q1 Q2 Q3 Q4; unfold joinable; by rewrite Q1, Q2, Q3, Q4).
      apply (Fr3 m1 y b); [|by rewrite St2, Sn|by rewrite Jn2, Jb].
      eapply range_before; [exact O1|exact Em|simpl; congruence|simpl; lia].
    + intros z Hz'. rewrite Jr by (by rewrite Ids). by apply F1.
  - destruct l1 as [|[? ?] ?], l2 as [|[? ?] ?]; simpl in C; try (by destruct C).
    eexists _, _, f, _. split; [done|]. split_and!; [exact Po1|exact C1|exact O1|exact Cv|exact Sp| | |by intros ? ? ?%not_elem_of_nil|exact F1].
    + intros z Hz'. by apply Ids.
    + intros z Hz'. left. by apply Ids.
Qed.
End insert_ok.
