(* ===== verification/Fault.v ===== *)
(** * Page faults, copy on write and fork ([mm/vmm.c])

    What the page tables of all contexts say together about physical pages: the
    reference count of a page is at least the number of user entries that lead
    to it.  Mapping, copying on write, sharing on fork and unmapping keep this,
    and it is what makes a page with a single reference private. *)

From S2P Require Import Prelude Errno Vnode DList Pmm Mmu Vmm Ranges.

#[local] Opaque path.

(** The physical page behind a page of the table [q]; [0] when there is none. *)
Definition phys {P} (w : mmu P) (q v : Z) : Z := Z.land (translate w q v) ADDRMASK.

Definition user (v : Z) : Prop := (pml4offset v < 256)%nat.

Lemma addr_aligned e : Z.land e ADDRMASK mod PAGE_SIZE = 0.
Proof.
  change PAGE_SIZE with (2 ^ 12). rewrite <- Z.land_ones by lia. rewrite <- Z.land_assoc.
  change (Z.land ADDRMASK (Z.ones 12)) with 0. by rewrite Z.land_0_r.
Qed.

Lemma phys_entry a fl : page_address a -> Z.land fl ADDRMASK = 0 -> Z.land (Z.lor a fl) ADDRMASK = a.
Proof. intros A F. rewrite Z.land_lor_distr_l, land_addr, F by done. apply Z.lor_0_r. Qed.

Section user.
Context {P : Type} `{!Frames P, !FramesLaws P}.
Implicit Types (w : mmu P) (G : gmap Z (option Z * list nat)).

Definition is_root G (q : Z) : Prop := G !! q = Some (Some q, []).

(** User entries that lead to the page [p]. *)
Definition maps_to w G (p : Z) (L : list (Z * Z)) : Prop :=
  NoDup ((fun '(q, v) => (q, path v)) <$> L) /\ forall q v, (q, v) ∈ L -> is_root G q /\ user v /\ phys w q v = p.

(** The references to [p] cover its user entries and [k] more. *)
Definition counted w G (p k : Z) : Prop :=
  forall L, L <> [] \/ 0 < k -> maps_to w G p L -> Z.of_nat (length L) + k <= refs (frames w) p.

(** The page of zeros [z]: the kernel holds a reference of its own, and no user
    entry lets it be written. *)
Record zero_ok w G (z : Z) : Prop := {
  zk_page : page_address z;
  zk_table : G !! z = None;
  zk_mem : mem w !! z = Some zeroed;
  zk_count : counted w G z 1;
  zk_readonly : forall q v, is_root G q -> user v -> phys w q v = z -> has (translate w q v) ARCH_MMU_FLAGS_WRITE = false
}.

(** There is no page of zeros yet when [z] is null. *)
Record user_ok w G (z : Z) : Prop := {
  uo_page : forall q v, is_root G q -> user v -> phys w q v <> 0 ->
    page_address (phys w q v) /\ G !! phys w q v = None /\ is_Some (mem w !! phys w q v);
  uo_count : forall p, p <> 0 -> counted w G p 0;
  uo_zero : z <> 0 -> zero_ok w G z
}.

Lemma zero_refs w G z : zero_ok w G z -> 1 <= refs (frames w) z.
Proof. intros O. apply (zk_count _ _ _ O []); [right; lia|]. split; [apply NoDup_nil_2|]. by intros q v ?%not_elem_of_nil. Qed.

Lemma user_refs w G z q v : user_ok w G z -> is_root G q -> user v -> phys w q v <> 0 -> 1 <= refs (frames w) (phys w q v).
Proof.
  intros O R U N. assert (Z.of_nat (length [(q, v)]) + 0 <= refs (frames w) (phys w q v)); [|simpl in *; lia].
  apply (uo_count w G z O _ N); [by left|]. split; [apply NoDup_singleton|].
  intros q' v' [= -> ->]%list_elem_of_singleton. split_and!; done.
Qed.

(** The page of zeros is never mapped with a single reference. *)
Lemma zero_shared w G z q v : user_ok w G z -> z <> 0 -> is_root G q -> user v -> phys w q v = z -> 2 <= refs (frames w) z.
Proof.
  intros O Nz R U E. assert (Z.of_nat (length [(q, v)]) + 1 <= refs (frames w) z); [|simpl in *; lia].
  apply (zk_count w G z (uo_zero _ _ _ O Nz)); [by left|]. split; [apply NoDup_singleton|].
  intros q' v' [= -> ->]%list_elem_of_singleton. split_and!; done.
Qed.

(** A page with one reference is mapped once. *)
Lemma user_private w G z q v q' v' : user_ok w G z -> is_root G q -> user v -> is_root G q' -> user v' ->
  phys w q v <> 0 -> phys w q' v' = phys w q v -> refs (frames w) (phys w q v) = 1 -> q' = q /\ path v' = path v.
Proof.
  intros O R U R' U' N E R1. destruct (decide ((q', path v') = (q, path v))) as [E0|Ne]; [by apply pair_equal_spec in E0|exfalso].
  assert (Z.of_nat (length [(q', v'); (q, v)]) + 0 <= refs (frames w) (phys w q v)); [|simpl in *; lia].
  apply (uo_count w G z O _ N); [by left|]. split.
  - apply NoDup_cons. split; [|apply NoDup_singleton]. by intros ?%list_elem_of_singleton.
  - intros a b [[= -> ->]|[= -> ->]%list_elem_of_singleton]%elem_of_cons; split_and!; done.
Qed.

Lemma same_page_user t v q v' : user v -> same_page t v q v' = bool_decide (path v' = path v /\ q = t).
Proof.
  intros U. unfold same_page, user in *. destruct (Nat.leb_spec 256 (pml4offset v)); [lia|]. rewrite orb_false_r.
  by rewrite bool_decide_and.
Qed.

Definition b2z (b : bool) : Z := if b then 1 else 0.

(** One user entry changes, and the counts with it. *)
Section change.
Context (w : mmu P) (G : gmap Z (option Z * list nat)) (w' : mmu P) (G' : gmap Z (option Z * list nat)) (z t v e : Z).
Context (O : user_ok w G z) (Rt : is_root G t) (Uv : user v).
Context (Ro : forall q, is_root G' q <-> is_root G q).
Context (Tr : forall q v', is_root G q -> translate w' q v' = if same_page t v q v' then e else translate w q v').
Context (New : Z.land e ADDRMASK <> 0 -> page_address (Z.land e ADDRMASK) /\ G' !! Z.land e ADDRMASK = None /\ is_Some (mem w' !! Z.land e ADDRMASK)).
Context (Old : forall a, page_address a -> G !! a = None -> 1 <= refs (frames w) a -> is_Some (mem w !! a) ->
  G' !! a = None /\ mem w' !! a = mem w !! a).
Context (frames_nonneg : forall p, 0 <= refs (frames w) p).
Context (Cnt : forall p, p <> 0 -> p mod PAGE_SIZE = 0 -> refs (frames w) p + b2z (bool_decide (p = Z.land e ADDRMASK)) -
  b2z (bool_decide (p = phys w t v)) <= refs (frames w') p).

Lemma change_phys q v' : is_root G q -> phys w' q v' = if same_page t v q v' then Z.land e ADDRMASK else phys w q v'.
Proof. intros R. unfold phys. rewrite Tr by done. by case_match. Qed.

Section change_count.
Context (p k : Z) (Np : p <> 0) (M : p mod PAGE_SIZE = 0) (Hk : 0 <= k) (Cp : counted w G p k).

(** The pairs of [L] other than the changed entry led to [p] before. *)
Lemma change_before L : maps_to w' G' p L -> (forall q v', (q, v') ∈ L -> same_page t v q v' = false) ->
  maps_to w G p L.
Proof.
  intros [ND H] N. split; [done|]. intros q v' Hq. destruct (H q v' Hq) as (R & U & E). rewrite Ro in R.
  split_and!; [done|done|]. rewrite change_phys in E by done. by rewrite (N q v' Hq) in E.
Qed.

(** With the changed entry, if that led to [p] too. *)
Lemma change_with L : maps_to w G p L -> (forall q v', (q, v') ∈ L -> same_page t v q v' = false) ->
  Z.of_nat (length L) + b2z (bool_decide (p = phys w t v)) + k <= refs (frames w) p \/
  L = [] /\ k = 0 /\ bool_decide (p = phys w t v) = false.
Proof.
  intros [ND H] N. destruct (bool_decide (p = phys w t v)) eqn:B; simpl.
  - left. apply bool_decide_eq_true in B. assert (Z.of_nat (length ((t, v) :: L)) + k <= refs (frames w) p); [|simpl in *; lia].
    apply Cp; [by left|]. split.
    + cbn [fmap list_fmap]. apply NoDup_cons. split; [|done]. intros ([q v'] & E0 & Hq)%list_elem_of_fmap. apply pair_equal_spec in E0 as [<- Ep].
      specialize (N t v' Hq). rewrite same_page_user, bool_decide_true in N by done. done.
    + intros q v' [[= -> ->]|Hq]%elem_of_cons; [by split_and!|by apply H].
  - rewrite Z.add_0_r. destruct (decide (L = [] /\ k = 0)) as [[-> ->]|NL]; [by right|left].
    apply Cp; [|done]. destruct L; [right|by left]. destruct (decide (k = 0)); [tauto|lia].
Qed.

Lemma change_count : counted w' G' p k.
Proof.
  intros L NL Mp. specialize (Cnt p Np M). destruct (existsb (fun '(q, v') => same_page t v q v') L) eqn:Ex.
  - apply existsb_exists in Ex as ([q0 v0] & Hin%list_elem_of_In & Sp).
    pose proof Hin as (L1 & L2 & ->)%list_elem_of_split. destruct Mp as [ND H].
    pose proof (H q0 v0 Hin) as (R0 & U0 & E0). rewrite Ro in R0. rewrite change_phys, Sp in E0 by done.
    rewrite same_page_user in Sp by done. apply bool_decide_eq_true in Sp as [Ep ->].
    rewrite fmap_app in ND. cbn [fmap list_fmap] in ND. rewrite <- Permutation_middle in ND. apply NoDup_cons in ND as [Nin ND].
    rewrite <- fmap_app in Nin, ND.
    assert (Rest : forall q v', (q, v') ∈ L1 ++ L2 -> same_page t v q v' = false).
    { intros q v' Hq. rewrite same_page_user by done. apply bool_decide_eq_false. intros [Ep' ->]. apply Nin.
      apply list_elem_of_fmap. exists (t, v'). by rewrite Ep, Ep'. }
    assert (Mp' : maps_to w' G' p (L1 ++ L2)).
    { split; [done|]. intros q v' Hq. apply H. rewrite elem_of_app, elem_of_cons. apply elem_of_app in Hq. tauto. }
    pose proof (change_before (L1 ++ L2) Mp' Rest) as Mb. rewrite <- E0, bool_decide_true in Cnt by done. rewrite E0 in Cnt.
    rewrite length_app in *. cbn [length]. simpl in Cnt.
    destruct (change_with (L1 ++ L2) Mb Rest) as [C|(El & -> & Bf)]; [rewrite length_app in C; lia|].
    apply app_eq_nil in El as [-> ->]. rewrite Bf in Cnt. simpl in *. pose proof (frames_nonneg p). lia.
  - assert (Rest : forall q v', (q, v') ∈ L -> same_page t v q v' = false).
    { intros q v' Hq. destruct (same_page t v q v') eqn:E; [|done]. exfalso.
      assert (existsb (fun '(q, v') => same_page t v q v') L = true); [|congruence].
      apply existsb_exists. exists (q, v'). split; [by apply list_elem_of_In|done]. }
    pose proof (change_before L Mp Rest) as Mb.
    destruct (change_with L Mb Rest) as [C|(-> & -> & _)]; [|destruct NL as [|]; [done|lia]]. unfold b2z in *.
    destruct (bool_decide (p = Z.land e ADDRMASK)); lia.
Qed.
End change_count.

(** An entry for the page of zeros is read only. *)
Context (NW : z <> 0 -> Z.land e ADDRMASK = z -> has e ARCH_MMU_FLAGS_WRITE = false).

Lemma user_ok_change : user_ok w' G' z.
Proof.
  split.
  - intros q v' R U. rewrite Ro in R. rewrite change_phys by done.
    destruct (same_page t v q v'); [done|]. intros N. destruct (uo_page _ _ _ O q v' R U N) as (A & Na & Me).
    destruct (Old _ A Na (user_refs w G z q v' O R U N) Me) as [? ->]. done.
  - intros p Np L NL Mp. assert (M : p mod PAGE_SIZE = 0).
    { destruct L as [|[q v'] L]; [by destruct NL|]. destruct Mp as [_ H]. destruct (H q v' (list_elem_of_here _ _)) as (_ & _ & <-). apply addr_aligned. }
    by apply (change_count p 0 Np M ltac:(lia) (uo_count _ _ _ O p Np)).
  - intros Nz. destruct (uo_zero _ _ _ O Nz) as [Z1 Z2 Z3 Z4 Z5]. pose proof (zero_refs w G z (uo_zero _ _ _ O Nz)) as Rz.
    destruct (Old z Z1 Z2 Rz ltac:(eauto)) as [Z2' Z3']. split; [done|done|by rewrite Z3'| |].
    + apply change_count; [done|apply Z1|lia|done].
    + intros q v' R U. rewrite Ro in R. rewrite change_phys, Tr by done. destruct (same_page t v q v'); [by apply NW|by apply Z5].
Qed.
End change.
End user.

Section fault.
Context {F P : Type} `{!Frames P, !FramesLaws P, !Files F P}.
Implicit Types (s : vmm F P) (G : gmap Z (option Z * list nat)).

(** The tables of a state are in order, and [t] is the current one. *)
Record hw_ok s G (t : Z) : Prop := {
  ho_mmu : mmu_ok true (hw s) G;
  ho_user : user_ok (hw s) G (zeropage s);
  ho_table : cur_table s = Some t;
  ho_root : is_root G t;
  ho_template : t <> template (hw s)
}.

Lemma frames_nonneg (p : P) a : frames_ok p -> 0 <= refs p a.
Proof. intros Fo. by apply refs_range. Qed.

Lemma getphysical_ok s G t v : hw_ok s G t -> arch_mmu_getphysical t v (hw s) = Some (phys (hw s) t v).
Proof. intros H. destruct (readers_ok (hw s) G t v (ho_mmu _ _ _ H) (ho_root _ _ _ H)) as (E & _). exact E. Qed.

Lemma do_remap_ok s G t pa v fl : mmu_ok true (hw s) G -> is_root G t -> cur_table s = Some t ->
  exists w', do_remap pa v fl s = Some (set_hw w' s) /\ mmu_ok true w' G /\ frames w' = frames (hw s) /\
    template w' = template (hw s) /\ (forall a, G !! a = None -> mem w' !! a = mem (hw s) !! a) /\
    (translate (hw s) t v <> 0 -> forall q v', is_root G q -> translate w' q v' =
      if same_page t v q v' then Z.lor (Z.land (if pa =? 0 then translate (hw s) t v else pa) ADDRMASK) fl else translate (hw s) q v').
Proof.
  intros O R T. unfold do_remap. rewrite T. cbn [mbind option_bind]. unfold arch_mmu_remap.
  destruct (set_entry_ok (hw s) G t v (fun e => Z.lor (Z.land (if pa =? 0 then e else pa) ADDRMASK) fl) O R)
    as (w' & -> & O' & Fr & Tm & Me & V). cbn [mbind option_bind].
  exists w'. split_and!; try done. intros N q v' Rq. destruct V as [V|[V _]]; [by apply V|done].
Qed.

(** Counts may grow while nothing else changes. *)
Lemma user_ok_frames (w : mmu P) p G z : user_ok w G z ->
  (forall a, a <> 0 -> a mod PAGE_SIZE = 0 -> 1 <= refs (frames w) a -> refs (frames w) a <= refs p a) ->
  user_ok (mk_mmu (mem w) p (template w)) G z.
Proof.
  intros O H. split; [apply O| |].
  - intros a Na L NL Mp. pose proof (uo_count w G z O a Na L NL Mp) as C.
    assert (M : a mod PAGE_SIZE = 0).
    { destruct L as [|[q v] L]; [by destruct NL|]. destruct Mp as [_ Hp]. destruct (Hp q v (list_elem_of_here _ _)) as (_ & _ & <-). apply addr_aligned. }
    simpl. specialize (H a Na M). assert (1 <= refs (frames w) a) by (destruct L; [by destruct NL|simpl in C; lia]). lia.
  - intros Nz. pose proof (uo_zero _ _ _ O Nz) as [Z1 Z2 Z3 Z4 Z5]. split; try done. intros L NL Mp. simpl.
    specialize (Z4 L NL Mp). specialize (H z Nz (proj2 Z1) ltac:(lia)). lia.
Qed.

(** What a write fault on the page [v] leaves to the others: their entries and
    the contents behind them. *)
Definition others_kept s s' G (t v : Z) : Prop :=
  forall q v', is_root G q -> user v' -> ~ (q = t /\ path v' = path v) ->
    translate (hw s') q v' = translate (hw s) q v' /\
    (phys (hw s) q v' <> 0 -> mem (hw s') !! phys (hw s) q v' = mem (hw s) !! phys (hw s) q v').

(** What a fault leaves alone: ranges, contexts, vnodes and the page of zeros. *)
Definition same_rest s s' : Prop :=
  slots s' = slots s /\ kernelranges s' = kernelranges s /\ contexts s' = contexts s /\ current s' = current s /\
  zeropage s' = zeropage s /\ files s' = files s.

(** No other user entry leads to the page behind [v]. *)
Definition private_page s G (t v : Z) : Prop :=
  forall q v', is_root G q -> user v' -> ~ (q = t /\ path v' = path v) -> phys (hw s) q v' <> phys (hw s) t v.

Lemma same_self t v : user v -> same_page t v t v = true.
Proof. intros U. rewrite same_page_user by done. by apply bool_decide_eq_true. Qed.

Lemma same_other t v q v' : user v -> ~ (q = t /\ path v' = path v) -> same_page t v q v' = false.
Proof. intros U N. rewrite same_page_user by done. apply bool_decide_eq_false. tauto. Qed.

(** A page gets one more user entry: it is mapped where nothing was, then held. *)
Section give.
Context (w : mmu P) (G : gmap Z (option Z * list nat)) (z nt v p fl : Z).
Context (O : mmu_ok true w G) (Uo : user_ok w G z) (Rn : is_root G nt) (Tm : nt <> template w).
Context (U : user v) (Free : translate w nt v = 0) (NM : Z.land fl ADDRMASK = 0).
Context (A : page_address p) (Gp : G !! p = None) (Mp : is_Some (mem w !! p)) (Rp : 1 <= refs (frames w) p < 2 ^ 64 - 1).
Context (NW : has (Z.lor p fl) ARCH_MMU_FLAGS_WRITE = false).

(** What the tables have in common before and after. *)
Record given (w1 : mmu P) G1 (b : bool) : Prop := {
  gn_mmu : mmu_ok true w1 G1;
  gn_user : user_ok w1 G1 z;
  gn_roots : forall q, is_root G1 q <-> is_root G q;
  gn_template : template w1 = template w;
  gn_sub : G ⊆ G1;
  gn_old : forall a, page_address a -> G !! a = None -> 1 <= refs (frames w) a -> G1 !! a = None;
  gn_mem : forall a, G1 !! a = None -> mem w1 !! a = mem w !! a;
  gn_refs : forall a, a mod PAGE_SIZE = 0 -> 0 < refs (frames w) a ->
    refs (frames w1) a = refs (frames w) a + b2z (b && bool_decide (a = p));
  gn_view : forall q v', is_root G q -> translate w1 q v' = if b && same_page nt v q v' then Z.lor p fl else translate w q v'
}.

Lemma give_counts w1 : frames_ok (frames w1) ->
  (forall a, a mod PAGE_SIZE = 0 -> 0 < refs (frames w) a -> refs (frames w1) a = refs (frames w) a) ->
  forall a, a mod PAGE_SIZE = 0 -> refs (frames w) a <= refs (frames w1) a.
Proof.
  intros Fo Rf a Ma. destruct (Z.lt_ge_cases 0 (refs (frames w) a)) as [Hp|Hp]; [rewrite Rf by done; lia|].
  pose proof (frames_nonneg (frames w1) a Fo). lia.
Qed.

Lemma give_free q v' : same_page nt v q v' = true -> translate w q v' = 0.
Proof.
  rewrite same_page_user by done. intros [Ep ->]%bool_decide_eq_true. unfold translate in *. by rewrite Ep.
Qed.

Lemma give_page_ok : exists b w1 G1, arch_mmu_map nt p v fl w = Some (b, w1) /\
  if b : bool then exists p2, hold p (frames w1) = Some p2 /\ given (mk_mmu (mem w1) p2 (template w1)) G1 true
  else given w1 G1 false.
Proof.
  destruct (add_page_ok w G nt v (Z.lor p fl) O Rn) as (b & w1 & G1 & E & O1 & R1 & T1 & Rf & Su & Fr & Me & V); [by left|].
  pose proof (give_counts w1 (m_frames _ _ O1) Rf) as Ge.
  assert (Old : forall a, page_address a -> G !! a = None -> 1 <= refs (frames w) a -> G1 !! a = None).
  { intros a [_ Ma] Ga Ra. destruct (G1 !! a) as [x|] eqn:E1; [|done]. specialize (Fr a Ma Ga ltac:(eauto)). lia. }
  assert (Rp1 : refs (frames w1) p = refs (frames w) p) by (apply Rf; [apply A|lia]).
  exists b, w1, G1. unfold arch_mmu_map. rewrite (land_addr p A). split; [done|]. destruct b; cbn [andb] in V.
  - destruct (hold_ok (frames w1) p (m_frames _ _ O1) A) as (p2 & E2 & Fo2 & R2); [lia|]. exists p2. split; [done|].
    assert (Gp1 : G1 !! p = None) by (apply Old; [done|done|lia]). split; try done.
    + apply mmu_ok_frames; [done|done|]. intros u x Gu. pose proof (n_addr _ _ _ _ (m_node _ _ O1 _ _ Gu)) as [_ Mu].
      rewrite R2 by done. rewrite bool_decide_false; [by eapply O1|]. intros ->. congruence.
    + eapply (user_ok_change w G _ G1 z nt v (Z.lor p fl) Uo Rn U); try done.
      * intros _. rewrite phys_entry by done. simpl. by rewrite Me.
      * intros a Aa Ga Ra Ma. pose proof (Old a Aa Ga Ra). simpl. by rewrite Me.
      * intros a. apply frames_nonneg, O.
      * intros a Na Ma. rewrite phys_entry by done. unfold phys. rewrite Free, Z.land_0_l, (bool_decide_false (a = 0)) by done.
        simpl. rewrite R2 by done. specialize (Ge a Ma). unfold b2z. case_bool_decide; [subst a; lia|lia].
    + intros a Ma Ra. simpl. rewrite R2 by done. case_bool_decide; [subst a; simpl; lia|]. rewrite Rf by done. simpl. lia.
  - split; try done; [|intros a Ma Ra; rewrite Rf by done; simpl; lia].
    eapply (user_ok_change w G w1 G1 z nt v 0 Uo Rn U); try done.
    + intros q v' Rq. rewrite V by done. destruct (same_page nt v q v') eqn:Sp; [by eapply give_free|done].
    + intros a Aa Ga Ra Ma. pose proof (Old a Aa Ga Ra). by rewrite Me.
    + intros a. apply frames_nonneg, O.
    + intros a Na Ma. rewrite Z.land_0_l, (bool_decide_false (a = 0)) by done. specialize (Ge a Ma).
      unfold b2z. case_bool_decide; lia.
Qed.
End give.

(** The page is referenced once: it becomes writable in place. *)
Lemma cow_keep s G t r v :
  hw_ok s G t -> user v -> phys (hw s) t v <> 0 -> refs (frames (hw s)) (phys (hw s) t v) = 1 -> Z.land (mmuflags r) ADDRMASK = 0 ->
  exists w', do_remap (phys (hw s) t v) v (mmuflags r) s = Some (set_hw w' s) /\ hw_ok (set_hw w' s) G t /\
    phys w' t v = phys (hw s) t v /\ mem w' !! phys (hw s) t v = mem (hw s) !! phys (hw s) t v /\
    translate w' t v = Z.lor (phys w' t v) (mmuflags r) /\
    others_kept s (set_hw w' s) G t v /\ private_page (set_hw w' s) G t v.
Proof.
  intros [O Uo T R Tm] U N R1 NM. set (old := phys (hw s) t v) in *.
  destruct (uo_page _ _ _ Uo t v R U N) as (A & Na & Me). fold old in A, Na, Me.
  destruct (do_remap_ok s G t old v (mmuflags r) O R T) as (w' & E & O' & Fr & Tm' & Mm & V).
  assert (N0 : translate (hw s) t v <> 0) by (intros Q; apply N; unfold old, phys; by rewrite Q).
  specialize (V N0). destruct (Z.eqb_spec old 0) as [|_]; [done|]. rewrite (land_addr old A) in V.
  assert (Ph : phys w' t v = old) by (unfold phys; rewrite V, same_self by done; by apply phys_entry).
  assert (Oth : forall q v', is_root G q -> user v' -> ~ (q = t /\ path v' = path v) -> translate w' q v' = translate (hw s) q v').
  { intros q v' Rq Uq Nq. by rewrite V, same_other. }
  exists w'. split; [done|]. split; [split; try done|].
  - eapply (user_ok_change (hw s) G w' G (zeropage s) t v _ Uo R U); try done.
    + intros _. rewrite phys_entry by done. by rewrite Mm.
    + intros a _ Ga _ Ma. by rewrite Mm.
    + intros p. apply frames_nonneg, O.
    + intros p Np Mp. rewrite phys_entry by done. fold old. simpl. rewrite Fr. unfold b2z. case_bool_decide; lia.
    + intros Nz. rewrite phys_entry by done. intros Eo. exfalso.
      pose proof (zero_shared _ _ _ t v Uo Nz R U Eo). rewrite <- Eo in *. lia.
  - simpl. by rewrite Tm'.
  - split_and!; [done|by apply Mm|by rewrite V, same_self, Ph|..].
    + intros q v' Rq Uq Nq. simpl. split; [by apply Oth|]. intros Np. apply Mm. by apply (uo_page _ _ _ Uo q v').
    + intros q v' Rq Uq Nq. simpl. rewrite Ph. unfold phys. rewrite Oth by done. intros Q.
      apply Nq. by eapply (user_private (hw s) G (zeropage s) t v q v').
Qed.

(** Nothing but the counts changes. *)
Lemma hw_ok_frames s G t p : hw_ok s G t -> frames_ok p ->
  (forall a, a mod PAGE_SIZE = 0 -> 0 < refs (frames (hw s)) a -> refs p a = refs (frames (hw s)) a) ->
  hw_ok (set_frames p s) G t.
Proof.
  intros [O Uo T R Tm] Fo K. split; try done.
  - apply mmu_ok_frames; [done|done|]. intros u x Gu. rewrite K; [by eapply O|apply (m_node _ _ O _ _ Gu)|].
    rewrite (m_ref _ _ O _ _ Gu). lia.
  - apply user_ok_frames; [done|]. intros a Na Ma Ra. rewrite K by (done || lia). lia.
Qed.

(** The page is shared: a copy takes its place. *)
Section copy.
Context (s : vmm F P) (G : gmap Z (option Z * list nat)) (t v mf new : Z) (p : P) (es : list Z).
Context (H : hw_ok s G t) (U : user v) (N : phys (hw s) t v <> 0) (NM : Z.land mf ADDRMASK = 0).
Context (Fo : frames_ok p) (A : page_address new) (Rn : refs (frames (hw s)) new = 0).
Context (Fr : forall b, b mod PAGE_SIZE = 0 -> refs p b = if bool_decide (b = new) then 1 else refs (frames (hw s)) b).

Lemma copy_fresh : G !! new = None /\ phys (hw s) t v <> new.
Proof.
  destruct H as [O Uo T R Tm]. split; [by eapply unused_table|]. intros Q.
  pose proof (user_refs _ _ _ t v Uo R U N) as R1. rewrite Q in R1. lia.
Qed.

Lemma copy_mmu : mmu_ok true (hw (set_page new es (set_frames p s))) G /\
  forall q v', is_root G q -> translate (hw (set_page new es (set_frames p s))) q v' = translate (hw s) q v'.
Proof.
  destruct H as [O Uo T R Tm]. destruct copy_fresh as [Gn Nn].
  assert (O1 : mmu_ok true (mk_mmu (mem (hw s)) p (template (hw s))) G).
  { apply mmu_ok_frames; [done|done|]. intros u x Gu. rewrite Fr by apply (m_node _ _ O _ _ Gu).
    rewrite bool_decide_false by congruence. by eapply O. }
  destruct (mmu_ok_page _ G new es O1 Gn) as [O2 V2]. split; [exact O2|]. intros q v' Rq. exact (V2 q v' Rq).
Qed.

Lemma cow_copy : exists s1 s2, do_remap new v mf (set_page new es (set_frames p s)) = Some s1 /\
  do_release (phys (hw s) t v) s1 = Some s2 /\ files s1 = files s /\ (sigbus s2 = sigbus s /\ same_rest s s2) /\ hw_ok s2 G t /\ phys (hw s2) t v = new /\
  mem (hw s2) !! new = Some es /\ translate (hw s2) t v = Z.lor new mf /\
  others_kept s s2 G t v /\ private_page s2 G t v /\
  refs (frames (hw s2)) (phys (hw s) t v) = refs (frames (hw s)) (phys (hw s) t v) - 1.
Proof.
  destruct copy_mmu as [O2 V2]. destruct copy_fresh as [Gn Nn]. destruct H as [O Uo T R Tm].
  set (old := phys (hw s) t v) in *. destruct (uo_page _ _ _ Uo t v R U N) as (Ao & Go & Me). fold old in Ao, Go, Me.
  pose proof (user_refs _ _ _ t v Uo R U N) as Ro. fold old in Ro.
  destruct (do_remap_ok (set_page new es (set_frames p s)) G t new v mf O2 R T) as (w' & E & O' & Fr' & Tm' & Mm & V).
  assert (N0 : translate (hw s) t v <> 0) by (intros Q; apply N; unfold old, phys; by rewrite Q).
  rewrite V2 in V by done. specialize (V N0). destruct (Z.eqb_spec new 0) as [Q|_]; [destruct A; lia|]. rewrite (land_addr new A) in V.
  assert (Rp : refs p old = refs (frames (hw s)) old) by (rewrite Fr by apply Ao; by rewrite bool_decide_false).
  assert (Efr : frames w' = p) by (by rewrite Fr').
  destruct (release_ok p old Fo Ao) as (p' & E' & Fo' & Rp'); [lia|].
  exists (set_hw w' (set_page new es (set_frames p s))). eexists. split; [done|].
  unfold do_release. simpl. rewrite Efr, E'. cbn [mbind option_bind]. split; [done|]. split; [done|]. split; [by repeat split|].
  set (w2 := mk_mmu (mem w') p' (template w')).
  assert (Tr : forall q v', is_root G q -> translate w2 q v' = if same_page t v q v' then Z.lor new mf else translate (hw s) q v').
  { intros q v' Rq. change (translate w2 q v') with (translate w' q v'). rewrite V by done. by rewrite V2. }
  assert (Ph : phys w2 t v = new) by (unfold phys; rewrite Tr, same_self by done; by apply phys_entry).
  assert (Mn : forall a, G !! a = None -> a <> new -> mem w' !! a = mem (hw s) !! a).
  { intros a Ga Na. rewrite Mm by done. simpl. by rewrite lookup_insert_ne. }
  assert (Mnew : mem w' !! new = Some es) by (rewrite Mm by done; apply lookup_insert_eq).
  assert (Oth : forall q v', is_root G q -> user v' -> ~ (q = t /\ path v' = path v) -> translate w2 q v' = translate (hw s) q v').
  { intros q v' Rq Uq Nq. by rewrite Tr, same_other. }
  split; [split; try done|split_and!]; simpl.
  - apply mmu_ok_frames; [done|done|]. intros u x Gu. pose proof (n_addr _ _ _ _ (m_node _ _ O _ _ Gu)) as [_ Mu].
    rewrite Rp' by done. rewrite bool_decide_false by congruence. rewrite Fr by done. rewrite bool_decide_false by congruence. by eapply O.
  - eapply (user_ok_change (hw s) G w2 G (zeropage s) t v _ Uo R U); try done.
    + intros _. rewrite phys_entry by done. unfold w2. simpl. by rewrite Mnew.
    + intros a _ Ga Ra Ma. split; [done|]. unfold w2. simpl. rewrite Mn; [done|done|]. intros ->. lia.
    + intros q. apply frames_nonneg, O.
    + intros q Nq Mq. rewrite phys_entry by done. fold old. unfold w2. simpl. rewrite Rp' by done.
      destruct (decide (q = old)) as [->|Nold].
      * rewrite (bool_decide_false (old = new)), !(bool_decide_true (old = old)) by done. simpl. lia.
      * rewrite !(bool_decide_false (q = old)) by done. rewrite Fr by done. unfold b2z. case_bool_decide; [subst; lia|lia].
    + intros Nz. rewrite phys_entry by done. intros En. exfalso. pose proof (zero_refs _ _ _ (uo_zero _ _ _ Uo Nz)). rewrite <- En in *. lia.
  - simpl in Tm'. by rewrite Tm'.
  - done.
  - done.
  - change (translate w2 t v = Z.lor new mf). by rewrite Tr, same_self.
  - intros q v' Rq Uq Nq. simpl. split; [by apply Oth|]. intros Np. destruct (uo_page _ _ _ Uo q v' Rq Uq Np) as (_ & Gq & _).
    apply Mn; [done|]. intros Q. pose proof (user_refs _ _ _ q v' Uo Rq Uq Np) as R1. rewrite Q in R1. lia.
  - intros q v' Rq Uq Nq. change (phys w2 q v' <> phys w2 t v). rewrite Ph. unfold phys. rewrite Oth by done. fold (phys (hw s) q v').
    intros Q. pose proof (user_refs _ _ _ q v' Uo Rq Uq) as R1. rewrite Q in R1. destruct A as [A0 _]. specialize (R1 ltac:(lia)). lia.
  - rewrite Rp' by apply Ao. rewrite bool_decide_true by done. lia.
Qed.
End copy.

(** A write fault on an anonymous page that is mapped read only leaves the
    faulting context with a page of the same contents that no other user entry
    of any context leads to, mapped with the range's protection; every other
    entry, and the contents behind it, are as before.  When no page is left for
    a copy the thread gets a signal and nothing changes. *)
Lemma cow_fault s G t r v :
  hw_ok s G t -> user v -> phys (hw s) t v <> 0 -> has (flags r) VMM_FLAGS_FILE = false ->
  Z.land (mmuflags r) ADDRMASK = 0 ->
  exists s', fault_readonly r v s = Some (true, s') /\ hw_ok s' G t /\
    phys (hw s') t v <> 0 /\ mem (hw s') !! phys (hw s') t v = mem (hw s) !! phys (hw s) t v /\ others_kept s s' G t v /\
    same_rest s s' /\
    (sigbus s' = S (sigbus s) /\ (exists p, allocpage (frames (hw s)) = Some (None, p)) /\ translate (hw s') t v = translate (hw s) t v \/
     sigbus s' = sigbus s /\ translate (hw s') t v = Z.lor (phys (hw s') t v) (mmuflags r) /\ private_page s' G t v).
Proof.
  intros H U N NF NM. pose proof H as [O Uo T R Tm]. unfold fault_readonly. rewrite T. cbn [mbind option_bind].
  rewrite (getphysical_ok s G t v H). cbn [mbind option_bind]. rewrite NF. cbn [andb orb negb].
  destruct (Z.eqb_spec (refs (frames (hw s)) (phys (hw s) t v)) 1) as [R1|R1].
  - destruct (cow_keep s G t r v H U N R1 NM) as (w' & -> & H' & Ph & Me & Tr & Ot & Pr). cbn [mbind option_bind].
    eexists. split; [done|]. split; [done|]. simpl. rewrite Ph in *. split_and!; [done|done|done|by repeat split|]. by right.
  - destruct (allocpage_ok _ (m_frames _ _ O)) as (n & p & Ea & Fo & Fr). rewrite Ea. cbn [mbind option_bind]. destruct n as [new|].
    + destruct Fr as (A & Rn & Fr). destruct (uo_page _ _ _ Uo t v R U N) as (_ & _ & [es Es]).
      change (mem (hw (set_frames p s))) with (mem (hw s)). rewrite Es. cbn [mbind option_bind].
      destruct (cow_copy s G t v (mmuflags r) new p es H U N NM Fo A Rn Fr) as (s1 & s2 & -> & E2 & Ef & [Es2 Sr] & H2 & Ph & Mn & Tr & Ot & Pr & _).
      cbn [mbind option_bind]. rewrite E2. cbn [mbind option_bind].
      eexists. split; [done|]. split; [done|]. rewrite Ph. split_and!; [destruct A; lia|done|done|done|]. by right.
    + eexists. split; [done|]. split; [|simpl].
      { destruct (hw_ok_frames s G t p H Fo) as [? ? ? ? ?]; [by intros a _ _|]. by split. }
      split_and!; [done|done| |by repeat split|left; eauto].
      intros q v' _ _ _. done.
Qed.
End fault.

(** ** Sharing pages on fork *)
Section fork.
Context {F P : Type} `{!Frames P, !FramesLaws P, !Files F P}.
Implicit Types (s : vmm F P) (G : gmap Z (option Z * list nat)).

(** The state of the tables while the pages of [ot] are given to [nt]. *)
Record fork_ok s G (ot nt : Z) : Prop := {
  fo_mmu : mmu_ok true (hw s) G;
  fo_user : user_ok (hw s) G (zeropage s);
  fo_old : is_root G ot;
  fo_new : is_root G nt;
  fo_ne : nt <> ot;
  fo_template : nt <> template (hw s)
}.

Lemma readonly_addr mf : Z.land mf ADDRMASK = 0 -> Z.land (Z.ldiff mf ARCH_MMU_FLAGS_WRITE) ADDRMASK = 0.
Proof.
  intros H. apply Z.bits_inj'. intros n Hn. apply (f_equal (fun z => Z.testbit z n)) in H.
  rewrite Z.land_spec, Z.bits_0 in *. rewrite Z.ldiff_spec. destruct (Z.testbit mf n); [|done].
  simpl in H. by rewrite H, andb_false_r.
Qed.

Lemma readonly_write p mf : page_address p -> has (Z.lor p (Z.ldiff mf ARCH_MMU_FLAGS_WRITE)) ARCH_MMU_FLAGS_WRITE = false.
Proof.
  intros [_ M]. change ARCH_MMU_FLAGS_WRITE with (2 ^ 1). rewrite has_pow2 by lia. rewrite Z.lor_spec, Z.ldiff_spec.
  rewrite Z.pow2_bits_true by lia. rewrite andb_false_r, orb_false_r.
  change PAGE_SIZE with (2 ^ 12) in M. rewrite <- (Z.mod_pow2_bits_low p 12 1) by lia. rewrite M. apply Z.bits_0.
Qed.

(** What giving away the page [v] does to the other entries and to memory. *)
Record gave s s' G G' (ot nt : Z) (pages : Z -> Prop) : Prop := {
  gv_roots : forall q, is_root G' q <-> is_root G q;
  gv_sub : G ⊆ G';
  gv_mem : forall a, G' !! a = None -> mem (hw s') !! a = mem (hw s) !! a;
  gv_others : forall q v', is_root G q -> ~ ((q = ot \/ q = nt) /\ exists v, pages v /\ path v' = path v) ->
    translate (hw s') q v' = translate (hw s) q v';
  gv_template : template (hw s') = template (hw s)
}.

Lemma gave_refl s G ot nt : gave s s G G ot nt (fun _ => False).
Proof. by split. Qed.

Lemma gave_trans s1 s2 s3 G1 G2 G3 ot nt p1 p2 p3 :
  gave s1 s2 G1 G2 ot nt p1 -> gave s2 s3 G2 G3 ot nt p2 -> (forall v, p1 v -> p3 v) -> (forall v, p2 v -> p3 v) ->
  gave s1 s3 G1 G3 ot nt p3.
Proof.
  intros A B H1 H2. split.
  - intros q. by rewrite (gv_roots _ _ _ _ _ _ _ B), (gv_roots _ _ _ _ _ _ _ A).
  - transitivity G2; [apply A|apply B].
  - intros a Ha. rewrite (gv_mem _ _ _ _ _ _ _ B) by done. apply (gv_mem _ _ _ _ _ _ _ A). destruct (G2 !! a) eqn:E2; [|done].
    rewrite (lookup_weaken _ _ _ _ E2 (gv_sub _ _ _ _ _ _ _ B)) in Ha. done.
  - intros q v' R Nq. rewrite (gv_others _ _ _ _ _ _ _ B), (gv_others _ _ _ _ _ _ _ A); [done|done| | |].
    + intros [Q (v & Hv & E)]. apply Nq. split; [done|]. eauto.
    + by apply (gv_roots _ _ _ _ _ _ _ A).
    + intros [Q (v & Hv & E)]. apply Nq. split; [done|]. eauto.
  - rewrite (gv_template _ _ _ _ _ _ _ B). apply A.
Qed.

Section page.
Context (s : vmm F P) (G : gmap Z (option Z * list nat)) (ot nt v mf : Z).
Context (H : fork_ok s G ot nt) (U : user v) (N : phys (hw s) ot v <> 0) (Free : translate (hw s) nt v = 0).
Let p := phys (hw s) ot v.
Let ro := Z.ldiff mf ARCH_MMU_FLAGS_WRITE.
Context (NM : Z.land ro ADDRMASK = 0).

(** The page becomes read only in the old table as well. *)
Lemma given_remap w2 G1 : given (hw s) G (zeropage s) nt v p ro w2 G1 true ->
  exists w3, arch_mmu_remap ot p v ro w2 = Some w3 /\ mmu_ok true w3 G1 /\ user_ok w3 G1 (zeropage s) /\
  frames w3 = frames w2 /\ template w3 = template w2 /\ (forall a, G1 !! a = None -> mem w3 !! a = mem w2 !! a) /\
  forall q v', is_root G q -> translate w3 q v' = if same_page ot v q v' || same_page nt v q v' then Z.lor p ro else translate (hw s) q v'.
Proof.
  intros [O2 U2 R1 T1 Su Old Me Rf V]. cbn [andb] in V. destruct (uo_page _ _ _ (fo_user _ _ _ _ H) ot v (fo_old _ _ _ _ H) U N) as (A & Gp & Mp).
  pose proof (user_refs _ _ _ ot v (fo_user _ _ _ _ H) (fo_old _ _ _ _ H) U N) as Rp. fold p in A, Gp, Mp, Rp.
  destruct (set_entry_ok w2 G1 ot v (fun e => Z.lor (Z.land (if p =? 0 then e else p) ADDRMASK) ro) O2)
    as (w3 & E3 & O3 & F3 & T3 & M3 & V3); [by apply R1, H|].
  destruct (Z.eqb_spec p 0) as [|_]; [done|]. rewrite (land_addr p A) in V3.
  assert (Tot : translate w2 ot v = translate (hw s) ot v).
  { rewrite V by apply H. rewrite same_other; [done|done|]. intros [Q _]. by apply (fo_ne _ _ _ _ H). }
  destruct V3 as [V3|[V3 _]]; [|rewrite Tot in V3; exfalso; apply N; unfold phys; by rewrite V3].
  exists w3. split; [unfold arch_mmu_remap; rewrite (proj2 (Z.eqb_neq p 0) N); exact E3|]. split; [done|].
  split; [|split_and!; try done].
  - eapply (user_ok_change w2 G1 w3 G1 (zeropage s) ot v (Z.lor p ro) U2); try done; [by apply R1, H|..].
    + intros _. rewrite phys_entry by done. pose proof (Old p A Gp Rp). rewrite M3, Me by done. done.
    + intros a _ Ga _ Ma. split; [done|]. by rewrite M3.
    + intros a. apply frames_nonneg, O2.
    + intros a Na Ma. rewrite phys_entry by done. unfold phys. rewrite Tot. fold (phys (hw s) ot v). fold p. rewrite F3.
      unfold b2z. case_bool_decide; lia.
    + intros _ _. by apply readonly_write.
  - intros q v' Rq. rewrite V3 by (by apply R1). destruct (same_page ot v q v'); [done|]. by apply V.
Qed.

Lemma fork_page_ok : refs (frames (hw s)) p < 2 ^ 64 - 1 ->
  exists b w1 G1, arch_mmu_map nt p v ro (hw s) = Some (b, w1) /\
    if b : bool then
      exists s2 w3, do_hold p (set_hw w1 s) = Some s2 /\ arch_mmu_remap ot p v ro (hw s2) = Some w3 /\
        fork_ok (set_hw w3 s2) G1 ot nt /\ gave s (set_hw w3 s2) G G1 ot nt (fun v' => v' = v) /\
        translate w3 ot v = Z.lor p ro /\ translate w3 nt v = Z.lor p ro /\
        (forall a, a mod PAGE_SIZE = 0 -> 0 < refs (frames (hw s)) a -> refs (frames w3) a <= refs (frames (hw s)) a + 1)
    else fork_ok (set_hw w1 s) G1 ot nt /\ gave s (set_hw w1 s) G G1 ot nt (fun _ => False).
Proof.
  intros Hb. pose proof H as [O Uo Ro Rn Ne Tm]. destruct (uo_page _ _ _ Uo ot v Ro U N) as (A & Gp & Mp).
  pose proof (user_refs _ _ _ ot v Uo Ro U N) as Rp. fold p in A, Gp, Mp, Rp.
  destruct (give_page_ok (hw s) G (zeropage s) nt v p ro O Uo Rn Tm U Free NM A Gp Mp ltac:(lia) (readonly_write p mf A)) as (b & w1 & G1 & E & X).
  exists b, w1, G1. split; [done|]. destruct b.
  - destruct X as (p2 & E2 & X). destruct (given_remap _ G1 X) as (w3 & E3 & O3 & U3 & F3 & T3 & M3 & V3).
    destruct X as [O2 U2 R1 T1 Su Old Me Rf V]. simpl in *.
    exists (set_frames p2 (set_hw w1 s)), w3. unfold do_hold. simpl. rewrite E2. cbn [mbind option_bind]. split; [done|]. split; [done|].
    split; [split; simpl; try (by apply R1); try done; congruence|]. split; [split; try done; simpl|].
    + intros a Ha. rewrite M3 by done. by apply Me.
    + intros q v' Rq Nq. rewrite V3 by done. rewrite !same_page_user by done.
      rewrite !bool_decide_false; [done|..]; intros [? ->]; apply Nq; eauto.
    + congruence.
    + split_and!; [by rewrite V3, same_self|by rewrite V3, (same_self nt), orb_true_r|].
      intros a Ma Ra. rewrite F3, Rf by done. unfold b2z. case_bool_decide; lia.
  - destruct X as [O1 U1 R1 T1 Su Old Me Rf V].
    split; [split; simpl; try (by apply R1); try done; congruence|split; try done; intros q v' Rq _; by apply V].
Qed.
End page.

(** The [i]-th page of a range, as the loop counts them. *)
Definition nth_page (st off : Z) (i : nat) : Z := st + (off + Z.of_nat i * PAGE_SIZE).

Lemma nth_page_S st off i : nth_page st off (S i) = nth_page st (off + PAGE_SIZE) i.
Proof. unfold nth_page. lia. Qed.

(** The pages lie below the kernel's half and are aligned. *)
Definition user_pages (st off : Z) (n : nat) : Prop :=
  0 <= off /\ 0 <= st /\ st + (off + Z.of_nat n * PAGE_SIZE) <= 2 ^ 47 /\ (st + off) mod PAGE_SIZE = 0.

Lemma user_pages_S st off n : user_pages st off (S n) -> user_pages st (off + PAGE_SIZE) n.
Proof.
  unfold user_pages. change PAGE_SIZE with 4096. intros (H1 & H2 & H3 & H4). split_and!; [lia|lia|lia|].
  replace (st + (off + 4096)) with (st + off + 1 * 4096) by lia. by rewrite Z_mod_plus_full.
Qed.

Lemma user_pages_range st off n i : user_pages st off n -> (i < n)%nat ->
  0 <= nth_page st off i < 2 ^ 47 /\ nth_page st off i mod PAGE_SIZE = 0.
Proof.
  unfold user_pages, nth_page. change PAGE_SIZE with 4096. intros (H1 & H2 & H3 & H4) Hi. split; [lia|].
  replace (st + (off + Z.of_nat i * 4096)) with (st + off + Z.of_nat i * 4096) by lia. by rewrite Z_mod_plus_full.
Qed.

Lemma user_pages_path st off n i j : user_pages st off n -> (i < n)%nat -> (j < n)%nat ->
  path (nth_page st off i) = path (nth_page st off j) -> i = j.
Proof.
  intros H Hi Hj E. destruct (user_pages_range _ _ _ i H Hi) as [Bi Mi]. destruct (user_pages_range _ _ _ j H Hj) as [Bj Mj].
  pose proof (path_inj _ _ Bi Bj Mi Mj E) as Q. unfold nth_page in Q. change PAGE_SIZE with 4096 in Q. lia.
Qed.

(** What [fork_pages] needs of the range: free in the new table, counts with
    room for the new references. *)
Record fork_pre s (st off : Z) (n : nat) (ot nt : Z) : Prop := {
  fp_free : forall i, (i < n)%nat -> translate (hw s) nt (nth_page st off i) = 0;
  fp_room : forall i, (i < n)%nat -> phys (hw s) ot (nth_page st off i) <> 0 -> refs (frames (hw s)) (phys (hw s) ot (nth_page st off i)) < 2 ^ 64 - Z.of_nat n
}.

(** The page [v] after the call: shared read only when the old table had it. *)
Definition shared s s' (ot nt v mf : Z) : Prop :=
  translate (hw s') ot v = translate (hw s') nt v /\ phys (hw s') ot v = phys (hw s) ot v /\
    has (translate (hw s') ot v) ARCH_MMU_FLAGS_WRITE = false /\
    translate (hw s') ot v = Z.lor (phys (hw s) ot v) (Z.ldiff mf ARCH_MMU_FLAGS_WRITE).

Definition page_forked s s' (ot nt v mf : Z) : Prop :=
  if phys (hw s) ot v =? 0 then translate (hw s') ot v = translate (hw s) ot v /\ translate (hw s') nt v = 0
  else shared s s' ot nt v mf.

Lemma page_forked_eq s1 s2 t1 t2 ot nt v mf : translate (hw s1) ot v = translate (hw s2) ot v ->
  translate (hw t1) ot v = translate (hw t2) ot v -> translate (hw t1) nt v = translate (hw t2) nt v ->
  page_forked s1 t1 ot nt v mf -> page_forked s2 t2 ot nt v mf.
Proof. intros E1 E2 E3. unfold page_forked, shared, phys. by rewrite E1, E2, E3. Qed.

(** The first page does not disturb the others. *)
Lemma gave_page s s' G G' ot nt st off n i q : user_pages st off (S n) -> (i < n)%nat ->
  gave s s' G G' ot nt (fun v' => v' = nth_page st off 0) -> is_root G q ->
  translate (hw s') q (nth_page st off (S i)) = translate (hw s) q (nth_page st off (S i)).
Proof.
  intros Hu Hi Gv Rq. apply (gv_others _ _ _ _ _ _ _ Gv); [done|]. intros [_ (v & -> & E)].
  apply (user_pages_path st off (S n) (S i) 0 Hu) in E; lia.
Qed.

Lemma gave_first s s' G G' ot nt st off n q : user_pages st off (S n) ->
  gave s s' G G' ot nt (fun v => exists i, (i < n)%nat /\ v = nth_page st (off + PAGE_SIZE) i) -> is_root G q ->
  translate (hw s') q (nth_page st off 0) = translate (hw s) q (nth_page st off 0).
Proof.
  intros Hu Gv Rq. apply (gv_others _ _ _ _ _ _ _ Gv); [done|]. intros [_ (v & (i & Hi & ->) & E)].
  rewrite <- nth_page_S in E. apply (user_pages_path st off (S n) 0 (S i) Hu) in E; lia.
Qed.

Lemma fork_pre_S s s' G G' st off n ot nt : user_pages st off (S n) -> fork_ok s G ot nt ->
  fork_pre s st off (S n) ot nt -> gave s s' G G' ot nt (fun v' => v' = nth_page st off 0) ->
  (forall a, a mod PAGE_SIZE = 0 -> 0 < refs (frames (hw s)) a -> refs (frames (hw s')) a <= refs (frames (hw s)) a + 1) ->
  fork_pre s' st (off + PAGE_SIZE) n ot nt.
Proof.
  intros Hu H Pre Gv Rf. split; intros i Hi; rewrite <- nth_page_S.
  - rewrite (gave_page s s' G G' ot nt st off n i nt Hu Hi Gv (fo_new _ _ _ _ H)). apply Pre. lia.
  - unfold phys. rewrite (gave_page s s' G G' ot nt st off n i ot Hu Hi Gv (fo_old _ _ _ _ H)). fold (phys (hw s) ot (nth_page st off (S i))).
    intros E. pose proof (fp_room _ _ _ _ _ _ Pre (S i) ltac:(lia) E) as Rm. destruct (user_pages_range _ _ _ (S i) Hu ltac:(lia)) as [B _].
    pose proof (user_refs _ _ _ ot _ (fo_user _ _ _ _ H) (fo_old _ _ _ _ H) (path_user _ B) E) as R1.
    specialize (Rf (phys (hw s) ot (nth_page st off (S i))) (addr_aligned _) ltac:(lia)). lia.
Qed.

(** C13. Forking the pages of a range always returns.  When it could map them all,
    every page the old table had is mapped in both tables, to the same physical
    page and read only, so that the next write of either side faults; the pages
    it did not have stay absent.  Whatever the result, the counts cover all user
    mappings and no other entry and no page's contents changed. *)
Theorem fork_pages_share n s G off st mf ot nt :
  fork_ok s G ot nt -> user_pages st off n -> fork_pre s st off n ot nt -> Z.land mf ADDRMASK = 0 ->
  exists b s' G', fork_pages n off st mf ot nt s = Some (b, s') /\ fork_ok s' G' ot nt /\
    gave s s' G G' ot nt (fun v => exists i, (i < n)%nat /\ v = nth_page st off i) /\
    (b = true -> forall i, (i < n)%nat -> page_forked s s' ot nt (nth_page st off i) mf).
Proof.
  revert s G off. induction n as [|n IH]; intros s G off H Hu Pre NM; [exists true, s, G; split_and!; try done; first [by split|lia]|].
  set (v := nth_page st off 0). destruct (user_pages_range _ _ _ 0 Hu ltac:(lia)) as [B M]. fold v in B, M.
  assert (Ev : u64 (st + off) = v) by (unfold v, nth_page in *; rewrite u64_id; unfold is_u64; lia).
  pose proof (path_user v B) as U. cbn [fork_pages]. rewrite Ev.
  destruct (readers_ok (hw s) G ot v (fo_mmu _ _ _ _ H) (fo_old _ _ _ _ H)) as (-> & _). cbn [mbind option_bind].
  fold (phys (hw s) ot v). pose proof (user_pages_S _ _ _ Hu) as Hu'.
  assert (Lift : forall s1 G1, fork_ok s1 G1 ot nt -> gave s s1 G G1 ot nt (fun v' => v' = v) -> page_forked s s1 ot nt v mf ->
    (forall a, a mod PAGE_SIZE = 0 -> 0 < refs (frames (hw s)) a -> refs (frames (hw s1)) a <= refs (frames (hw s)) a + 1) ->
    exists b s' G', fork_pages n (off + PAGE_SIZE) st mf ot nt s1 = Some (b, s') /\ fork_ok s' G' ot nt /\
      gave s s' G G' ot nt (fun v => exists i, (i < S n)%nat /\ v = nth_page st off i) /\
      (b = true -> forall i, (i < S n)%nat -> page_forked s s' ot nt (nth_page st off i) mf)).
  { intros s1 G1 H1 Gv Pf Rf. destruct (IH s1 G1 (off + PAGE_SIZE) H1 Hu') as (b & s' & G' & E & H' & Gv' & Sh); [|done|].
    { eapply fork_pre_S; [exact Hu|exact H|exact Pre|exact Gv|exact Rf]. }
    exists b, s', G'. split; [done|]. split; [done|]. split.
    - eapply gave_trans; [exact Gv|exact Gv'|intros ? ->; exists 0%nat; split; [lia|done]|].
      intros ? (i & Hi & ->). exists (S i). split; [lia|]. by rewrite nth_page_S.
    - intros Eb [|i] Hi.
      + pose proof (gave_first s1 s' G1 G' ot nt st off n) as K. eapply page_forked_eq, Pf; [done|..]; symmetry; apply K; try done; apply H1.
      + pose proof (gave_page s s1 G G1 ot nt st off n i) as K. specialize (Sh Eb i ltac:(lia)). rewrite <- nth_page_S in Sh.
        eapply page_forked_eq, Sh; try done. apply K; [done|lia|done|apply H]. }
  destruct (Z.eqb_spec (phys (hw s) ot v) 0) as [E0|E0].
  { apply (Lift s G H); [by split| |lia]. unfold page_forked. rewrite E0. split; [done|]. apply Pre. lia. }
  destruct (uo_page _ _ _ (fo_user _ _ _ _ H) ot v (fo_old _ _ _ _ H) U E0) as (A & _ & _).
  destruct (fork_page_ok s G ot nt v mf H U E0 (fp_free _ _ _ _ _ _ Pre 0 ltac:(lia)) (readonly_addr mf NM)) as ([] & w1 & G1 & -> & R).
  { pose proof (fp_room _ _ _ _ _ _ Pre 0 ltac:(lia) E0). fold v in H0. lia. }
  - destruct R as (s2 & w3 & E2 & E3 & H3 & Gv & T1 & T2 & Rf). cbn [mbind option_bind]. rewrite E2. cbn [mbind option_bind].
    rewrite E3. cbn [mbind option_bind]. apply (Lift _ G1 H3 Gv); [|done].
    unfold page_forked. rewrite (proj2 (Z.eqb_neq _ 0) E0). unfold shared, phys. simpl. rewrite T1, T2.
    split_and!; [done|by apply phys_entry, readonly_addr|by apply readonly_write|done].
  - destruct R as [H1 Gv]. cbn [mbind option_bind]. exists false. eexists _, G1. split; [done|]. split; [done|]. split; [|done].
    eapply gave_trans; [apply gave_refl|exact Gv|done..].
Qed.
End fork.

(** ** Faults on anonymous memory *)
Section anonymous.
Context {F P : Type} `{!Frames P, !FramesLaws P, !Files F P}.
Implicit Types (s : vmm F P) (G : gmap Z (option Z * list nat)).

(** What the thread reads at [v]: zeros where no page is. *)
Definition contents s (t v : Z) : option (list Z) :=
  if translate (hw s) t v =? 0 then Some zeroed else mem (hw s) !! phys (hw s) t v.

(** There was no page for the copy, or for the tables of the new entry. *)
Definition ran_out s (t v mf : Z) : Prop :=
  if translate (hw s) t v =? 0
  then fst <$> arch_mmu_map t (zeropage s) v (Z.ldiff mf ARCH_MMU_FLAGS_WRITE) (hw s) = Some false
  else exists p, allocpage (frames (hw s)) = Some (None, p).

(** What a fault on [v] that returned [true] did, [mf] being the protection of
    the range: it ran out of pages and sent a signal; or the page was absent and is now the page of
    zeros, read only; or another thread was faster; or the page is now the
    thread's own. *)
Definition resolved s s' G G' (t v mf : Z) : Prop :=
  sigbus s' = S (sigbus s) /\ ran_out s t v mf /\ translate (hw s') t v = translate (hw s) t v \/
  sigbus s' = sigbus s /\
    if translate (hw s) t v =? 0 then translate (hw s') t v = Z.lor (zeropage s) (Z.ldiff mf ARCH_MMU_FLAGS_WRITE)
    else if has (translate (hw s) t v) ARCH_MMU_FLAGS_WRITE then s' = s
    else translate (hw s') t v = Z.lor (phys (hw s') t v) mf /\ private_page s' G' t v.

Lemma zero_fault s G t r v : hw_ok s G t -> zeropage s <> 0 -> refs (frames (hw s)) (zeropage s) < 2 ^ 64 - 1 -> user v -> translate (hw s) t v = 0 ->
  has (flags r) VMM_FLAGS_FILE = false -> Z.land (mmuflags r) ADDRMASK = 0 ->
  exists s' G', fault_absent r v s = Some (true, s') /\ hw_ok s' G' t /\ (forall q, is_root G' q <-> is_root G q) /\
    contents s' t v = Some zeroed /\ others_kept s s' G t v /\ resolved s s' G G' t v (mmuflags r) /\ same_rest s s' /\
    (translate (hw s') t v = 0 -> refs (frames (hw s')) (zeropage s) = refs (frames (hw s)) (zeropage s)).
Proof.
  intros [O Uo T R Tm] Nz Rm U E0 NF NM. pose proof (uo_zero _ _ _ Uo Nz) as Zk. pose proof (zero_refs _ _ _ Zk) as Rz.
  destruct Zk as [A Gz Mz _ _]. unfold fault_absent. rewrite NF. unfold do_map. rewrite T. cbn [mbind option_bind].
  set (ro := Z.ldiff (mmuflags r) ARCH_MMU_FLAGS_WRITE). assert (NMr : Z.land ro ADDRMASK = 0) by (by apply readonly_addr).
  destruct (give_page_ok (hw s) G (zeropage s) t v (zeropage s) ro O Uo R Tm U E0 NMr A Gz ltac:(eauto) ltac:(lia) (readonly_write _ (mmuflags r) A)) as (b & w1 & G1 & Em & X).
  rewrite Em. cbn [mbind option_bind].
  assert (Kept : forall w2 b, given (hw s) G (zeropage s) t v (zeropage s) ro w2 G1 b -> others_kept s (set_hw w2 s) G t v).
  { intros w2 b' [O2 U2 R1 T1 Su Old Me Rf V] q v' Rq Uq Nq. simpl. split; [rewrite V, same_other by done; by rewrite andb_false_r|].
    intros Np. destruct (uo_page _ _ _ Uo q v' Rq Uq Np) as (Aq & Gq & _). apply Me, Old; [done..|]. by eapply user_refs. }
  destruct b.
  - destruct X as (p2 & E2 & X). unfold do_hold. simpl. rewrite E2. cbn [mbind option_bind]. eexists _, G1. split; [done|].
    pose proof (Kept _ _ X) as K. destruct X as [O2 U2 R1 T1 Su Old Me Rf V]. cbn [andb] in *.
    assert (Tv : translate (mk_mmu (mem w1) p2 (template w1)) t v = Z.lor (zeropage s) ro) by (rewrite V, same_self by done; done).
    split; [split; try done; [by apply R1|simpl in *; congruence]|]. split; [done|]. split; [|split; [exact K|split; [|split; [by repeat split|]]]].
    + unfold contents, phys. simpl. rewrite Tv, phys_entry by done. case_match; [done|]. rewrite <- Mz. apply Me, Old; [done|done|lia].
    + right. split; [done|]. rewrite E0. simpl. exact Tv.
    + simpl. rewrite Tv. intros Q. exfalso. pose proof (phys_entry (zeropage s) ro A NMr) as Ph. rewrite Q in Ph. done.
  - pose proof (Kept _ _ X) as K. destruct X as [O2 U2 R1 T1 Su Old Me Rf V]. cbn [andb] in *. eexists _, G1. split; [done|].
    split; [split; try done; [by apply R1|simpl; congruence]|]. split; [done|]. split; [|split; [exact K|split; [|split; [by repeat split|]]]].
    + unfold contents. simpl. rewrite V, E0 by done. done.
    + left. simpl. split; [done|]. split; [|by rewrite V]. unfold ran_out. rewrite E0. simpl. fold ro. by rewrite Em.
    + intros _. simpl. rewrite Rf by (apply A || lia). simpl. lia.
Qed.

Lemma userspace_user v : USERSPACE_START <= v < USERSPACE_END -> user v.
Proof. intros H. apply path_user. unfold USERSPACE_START, USERSPACE_END in H. lia. Qed.

(** A fault that is not refused, with what the next one needs. *)
Lemma anonymous_fault s G t hd xs addr actions :
  hw_ok s G t -> zeropage s <> 0 -> (translate (hw s) t (ROUND_DOWN addr PAGE_SIZE) = 0 -> refs (frames (hw s)) (zeropage s) < 2 ^ 64 - 1) ->
  contexts s !! current s = Some (mk_ctx hd t) -> chain (heap (slots s)) hd xs -> ordered USERSPACE_START USERSPACE_END xs.*2 ->
  let v := ROUND_DOWN addr PAGE_SIZE in
  USERSPACE_START <= v < USERSPACE_END -> (translate (hw s) t v <> 0 -> phys (hw s) t v <> 0) ->
  (forall fl mf o, cover xs.*2 v = Some (fl, mf, o) -> o = None /\ Z.land mf ADDRMASK = 0) ->
  match cover xs.*2 v with
  | Some (_, mf, _) =>
      if has (invalidactions mf) actions then vmm_pagefault addr true actions s = Some (false, s)
      else exists s' G', vmm_pagefault addr true actions s = Some (true, s') /\ hw_ok s' G' t /\
        (forall q, is_root G' q <-> is_root G q) /\
        contents s' t v = contents s t v /\ others_kept s s' G t v /\ resolved s s' G G' t v mf /\ same_rest s s' /\
        (translate (hw s') t v <> 0 -> phys (hw s') t v <> 0) /\ (translate (hw s) t v <> 0 -> translate (hw s') t v <> 0) /\
        (translate (hw s') t v = 0 -> refs (frames (hw s')) (zeropage s) = refs (frames (hw s)) (zeropage s))
  | None => vmm_pagefault addr true actions s = Some (false, s)
  end.
Proof.
  intros H Nz Rm Ec C Or v Hv Full An. fold v in Rm. pose proof (userspace_user v Hv) as U. unfold vmm_pagefault. cbn [negb andb]. fold v. cbv zeta.
  assert (Sp : getspace v s = Some (UserSpace (current s))).
  { unfold getspace. destruct (Z.leb_spec USERSPACE_START v), (Z.ltb_spec v USERSPACE_END); (done || lia). }
  rewrite Sp. cbn [space_ranges]. rewrite Ec. cbn [fmap option_fmap option_map mbind option_bind ranges].
  destruct (getrange_ok (heap (slots s)) v USERSPACE_START USERSPACE_END ltac:(done) ltac:(done) (S (size (heap (slots s)))) xs hd C Or)
    as (o & -> & X); [pose proof (chain_size _ _ _ _ _ C Or); lia|].
  cbn [mbind option_bind]. destruct o as [x|]; [|by rewrite X]. destruct X as (r & Er & _ & _ & Ea). rewrite Er, Ea. cbn [mbind option_bind].
  unfold attr in *. destruct (An _ _ _ Ea) as [No NM]. assert (NF : has (flags r) VMM_FLAGS_FILE = false) by (by destruct (has _ _)).
  destruct (has (invalidactions (mmuflags r)) actions); [done|]. rewrite (ho_table _ _ _ H). cbn [mbind option_bind].
  destruct (readers_ok (hw s) G t v (ho_mmu _ _ _ H) (ho_root _ _ _ H)) as (_ & -> & -> & _). cbn [mbind option_bind].
  destruct (Z.eqb_spec (translate (hw s) t v) 0) as [E0|E0]; cbn [negb].
  - destruct (zero_fault s G t r v H Nz (Rm E0) U E0 NF NM) as (s' & G' & -> & H' & R' & Co & Ot & Re & Sr & Rz). exists s', G'. split_and!; try done.
    + unfold contents at 2. by rewrite E0.
    + assert (Az : page_address (zeropage s)) by (by destruct (uo_zero _ _ _ (ho_user _ _ _ H) Nz)).
      intros N. destruct Re as [(_ & _ & Tr)|[_ Tr]]; [congruence|]. rewrite E0 in Tr. simpl in Tr. unfold phys. rewrite Tr, phys_entry; [done|exact Az|by apply readonly_addr].
  - destruct (has (translate (hw s) t v) ARCH_MMU_FLAGS_WRITE) eqn:W; cbn [negb].
    + exists s, G. split_and!; try done. right. split; [done|]. by rewrite (proj2 (Z.eqb_neq _ _) E0), W.
    + destruct (cow_fault s G t r v H U (Full E0) NF NM) as (s' & -> & H' & Np & Co & Ot & Sr & Re). exists s', G. split_and!; try done.
      * unfold contents. rewrite (proj2 (Z.eqb_neq _ _) E0), <- Co.
        rewrite (proj2 (Z.eqb_neq _ _)); [done|]. intros Q. apply Np. unfold phys. by rewrite Q.
      * unfold resolved, ran_out. rewrite (proj2 (Z.eqb_neq _ _) E0), W. done.
      * intros _ Q. destruct Np. unfold phys. by rewrite Q.
      * intros Q. destruct Np. unfold phys. by rewrite Q.
Qed.

(** C1. A page fault of a user thread at an address of anonymous memory always
    returns.  It is refused, with nothing changed, exactly when no range has the
    address or the protection forbids the access.  Otherwise what the thread reads
    there is as before, zeros if nothing was mapped; no other entry of any table
    and no page behind one changes; the counts still cover every user entry; the
    page of zeros keeps its zeros, its reference of the kernel's own and its
    protection; and after a write fault no other entry leads to the page.  [SIGBUS]
    is sent exactly when there was no page for the copy or the tables. *)
Theorem pagefault_anonymous s G t hd xs addr actions :
  hw_ok s G t -> zeropage s <> 0 -> refs (frames (hw s)) (zeropage s) < 2 ^ 64 - 1 -> contexts s !! current s = Some (mk_ctx hd t) ->
  chain (heap (slots s)) hd xs -> ordered USERSPACE_START USERSPACE_END xs.*2 ->
  let v := ROUND_DOWN addr PAGE_SIZE in
  USERSPACE_START <= v < USERSPACE_END -> (translate (hw s) t v <> 0 -> phys (hw s) t v <> 0) ->
  (forall fl mf o, cover xs.*2 v = Some (fl, mf, o) -> o = None /\ Z.land mf ADDRMASK = 0) ->
  match cover xs.*2 v with
  | Some (_, mf, _) =>
      if has (invalidactions mf) actions then vmm_pagefault addr true actions s = Some (false, s)
      else exists s' G', vmm_pagefault addr true actions s = Some (true, s') /\ hw_ok s' G' t /\
        (forall q, is_root G' q <-> is_root G q) /\
        contents s' t v = contents s t v /\ others_kept s s' G t v /\ resolved s s' G G' t v mf /\ same_rest s s'
  | None => vmm_pagefault addr true actions s = Some (false, s)
  end.
Proof.
  intros H Nz Rm Ec C Or v Hv Full An. pose proof (anonymous_fault s G t hd xs addr actions H Nz (fun _ => Rm) Ec C Or Hv Full An) as L. fold v in L.
  destruct (cover xs.*2 v) as [[[fl mf] o]|]; [|done]. destruct (has (invalidactions mf) actions); [done|].
  destruct L as (s' & G' & E & H' & R' & Co & Ot & Re & Sr & _). exists s', G'. by split_and!.
Qed.

(** ** Memory that may not be read *)

(** The state after the fault. *)
Definition again (error addr : Z) s : vmm F P := match pfisr error addr 0x23 false s with Some (_, s') => s' | None => s end.

Lemma unreadable p f : page_address p -> has f ARCH_MMU_FLAGS_READ = false -> has (Z.lor p f) ARCH_MMU_FLAGS_READ = false.
Proof.
  intros [_ M] Hf. unfold has, ARCH_MMU_FLAGS_READ in *. rewrite Z.land_lor_distr_l. apply negb_false_iff, Z.eqb_eq in Hf. rewrite Hf, Z.lor_0_r.
  change 1 with (Z.ones 1). rewrite Z.land_ones by lia. apply negb_false_iff, Z.eqb_eq. unfold PAGE_SIZE in M. change (2 ^ 1) with 2. Z.div_mod_to_equations. lia.
Qed.

(** One fault at an address that may not be read, by an access that the
    processor reports as neither a write, nor a fetch, nor one to a page that is
    present: it goes on, and the entry is not present for the processor. *)
Lemma unreadable_step s G t hd xs addr error fl mf :
  hw_ok s G t -> zeropage s <> 0 -> (translate (hw s) t (ROUND_DOWN addr PAGE_SIZE) = 0 -> refs (frames (hw s)) (zeropage s) < 2 ^ 64 - 1) ->
  contexts s !! current s = Some (mk_ctx hd t) -> chain (heap (slots s)) hd xs -> ordered USERSPACE_START USERSPACE_END xs.*2 ->
  let v := ROUND_DOWN addr PAGE_SIZE in
  USERSPACE_START <= v < USERSPACE_END -> (translate (hw s) t v <> 0 -> phys (hw s) t v <> 0) ->
  cover xs.*2 v = Some (fl, mf, None) -> Z.land mf ADDRMASK = 0 -> has mf ARCH_MMU_FLAGS_READ = false -> fault_actions error = 0 ->
  has (translate (hw s) t v) ARCH_MMU_FLAGS_READ = false ->
  exists s' G', pfisr error addr 0x23 false s = Some (Resume, s') /\ hw_ok s' G' t /\ same_rest s s' /\
    has (translate (hw s') t v) ARCH_MMU_FLAGS_READ = false /\ (sigbus s' = sigbus s \/ ran_out s t v mf) /\
    (translate (hw s') t v <> 0 -> phys (hw s') t v <> 0) /\
    (translate (hw s') t v = 0 -> refs (frames (hw s')) (zeropage s) < 2 ^ 64 - 1).
Proof.
  intros H Nz Rm Ec C Or v Hv Full Cv NM Nr Ea Tr. pose proof (anonymous_fault s G t hd xs addr 0 H Nz Rm Ec C Or Hv Full) as L. fold v in L. rewrite Cv in L.
  assert (N0 : has (invalidactions mf) 0 = false) by (unfold has; by rewrite Z.land_0_r). rewrite N0 in L.
  destruct L as (s' & G' & E & H' & R' & _ & _ & Re & Sr & Ph & Kt & Rz); [by intros ? ? ? [= <- <- <-]|]. exists s', G'.
  unfold pfisr. rewrite Ea. change (negb (0x23 =? 8)) with true. rewrite E. cbn [mbind option_bind]. split; [done|]. split; [done|]. split; [done|].
  assert (Uz : page_address (zeropage s)) by (pose proof (uo_zero _ _ _ (ho_user _ _ _ H) Nz) as []; done).
  destruct Re as [(_ & Ro & Et)|(Es & X)].
  - split_and!; [by rewrite Et|by right|done|]. intros Q. rewrite Rz by done. apply Rm. fold v; congruence.
  - split; [|split; [by left|split; [done|]]].
    + destruct (Z.eqb_spec (translate (hw s) t v) 0) as [E0|E0].
      * rewrite X. apply unreadable; [done|]. unfold has in *. apply negb_false_iff, Z.eqb_eq in Nr. apply negb_false_iff, Z.eqb_eq.
        rewrite Z.ldiff_land, <- Z.land_assoc, (Z.land_comm (Z.lnot _)), Z.land_assoc, Nr. apply Z.land_0_l.
      * destruct (has (translate (hw s) t v) ARCH_MMU_FLAGS_WRITE); [by subst s'|]. destruct X as [X _].
        destruct (Z.eq_dec (phys (hw s') t v) 0) as [P0|P0]; [rewrite X, P0, Z.lor_0_l; done|]. rewrite X. apply unreadable; [|done].
        apply (uo_page _ _ _ (ho_user _ _ _ H') t v); [apply H'|by apply userspace_user|done].
    + intros Q. rewrite Rz by done. destruct (Z.eqb_spec (translate (hw s) t v) 0) as [E0|E0]; [by apply Rm|].
      by destruct (Kt E0).
Qed.
(** C40. A read of anonymous memory that may not be read is never answered with
    [SIGSEGV].  The trap of a read asks for no permission at all when the processor
    says that the page is not present, so the handler accepts it, and an entry
    without the permission is one the processor takes for absent.  However often
    the access is repeated, the fault returns to it, the entry is still not
    readable, and no signal is sent but [SIGBUS] when there are no pages. *)
Theorem unreadable_spins n s G t hd xs addr error fl mf :
  hw_ok s G t -> zeropage s <> 0 -> refs (frames (hw s)) (zeropage s) < 2 ^ 64 - 1 -> contexts s !! current s = Some (mk_ctx hd t) ->
  chain (heap (slots s)) hd xs -> ordered USERSPACE_START USERSPACE_END xs.*2 ->
  let v := ROUND_DOWN addr PAGE_SIZE in
  USERSPACE_START <= v < USERSPACE_END -> (translate (hw s) t v <> 0 -> phys (hw s) t v <> 0) ->
  cover xs.*2 v = Some (fl, mf, None) -> Z.land mf ADDRMASK = 0 -> has mf ARCH_MMU_FLAGS_READ = false -> fault_actions error = 0 ->
  has (translate (hw s) t v) ARCH_MMU_FLAGS_READ = false ->
  let s1 := Nat.iter n (again error addr) s in
  pfisr error addr 0x23 false s1 = Some (Resume, again error addr s1) /\ has (translate (hw s1) t v) ARCH_MMU_FLAGS_READ = false /\
    (sigbus (again error addr s1) = sigbus s1 \/ ran_out s1 t v mf).
Proof.
  intros H Nz Rm Ec C Or v Hv Full Cv NM Nr Ea Tr s1.
  enough (I : exists G1, hw_ok s1 G1 t /\ same_rest s s1 /\ (translate (hw s1) t v = 0 -> refs (frames (hw s1)) (zeropage s1) < 2 ^ 64 - 1) /\
    (translate (hw s1) t v <> 0 -> phys (hw s1) t v <> 0) /\ has (translate (hw s1) t v) ARCH_MMU_FLAGS_READ = false).
  { destruct I as (G1 & H1 & (E1 & E2 & E3 & E4 & E5 & E6) & R1 & F1 & T1).
    destruct (unreadable_step s1 G1 t hd xs addr error fl mf) as (s' & G' & E & _ & _ & _ & Sb & _); try done; try congruence.
    unfold again. rewrite E. done. }
  unfold s1. clear s1. induction n as [|n IH]; simpl.
  - exists G. split_and!; try done.
  - destruct IH as (G1 & H1 & (E1 & E2 & E3 & E4 & E5 & E6) & R1 & F1 & T1). set (s1 := Nat.iter n (again error addr) s) in *.
    destruct (unreadable_step s1 G1 t hd xs addr error fl mf) as (s' & G' & E & H' & (E1' & E2' & E3' & E4' & E5' & E6') & T' & _ & F' & R'); try done; try congruence.
    exists G'. unfold again. rewrite E. split; [done|]. split; [by split_and!; congruence|]. split; [|done]. rewrite E5'. exact R'.
Qed.
End anonymous.
