(* ===== verification/Map.v ===== *)
(** * Mappings ([vmm_map] and the ranges of [vmm_fork] in [mm/vmm.c])

    What a mapping without pages of its own (anonymous memory and files) does to
    the space it goes to, and what becomes of a range in the copy of a space. *)

From S2P Require Import Prelude Errno Vnode DList Pmm Mmu Vmm Ranges.

Section map.
Context {F P : Type} `{!Frames P, !FramesLaws P, !Files F P, !FilesLaws F P}.
Implicit Types (s : vmm F P).

(** A space: its chain is in order and its file ranges are counted. *)
Record space_ok s (sp : space) (xs : list (nat * vmmrange_t)) : Prop := {
  so_pool : pool_ok (slots s);
  so_chain : exists hd, space_ranges sp s = Some hd /\ chain (heap (slots s)) hd xs;
  so_ordered : ordered (space_start sp) (space_end sp) xs.*2;
  so_files : forall v, 0 <= spare (P := P) (files s) xs.*2 v
}.

(** The rest of the state: only page counts of unused pages change. *)
Record rest_kept s s' (sp : space) (ids : list nat) : Prop := {
  rk_mem : mem (hw s') = mem (hw s);
  rk_template : template (hw s') = template (hw s);
  rk_frames : frames_ok (frames (hw s')) /\ keeps_refs (frames (hw s)) (frames (hw s'));
  rk_zero : zeropage s' = zeropage s;
  rk_sigbus : sigbus s' = sigbus s;
  rk_current : current s' = current s;
  rk_tables : pagetable <$> contexts s' = pagetable <$> contexts s;
  rk_spaces : forall sp', sp' <> sp -> space_ranges sp' s' = space_ranges sp' s;
  rk_heap : forall z, z ∉ ids -> used (slots s) z -> heap (slots s') !! z = heap (slots s) !! z
}.

(** The range a request asks for. *)
Definition requested (st len fl mf : Z) (pr : private) : vmmrange_t :=
  let '(v, o) := match pr with FileDesc v o => (v, o) | _ => (O, 0) end in
  mk_range None None st len (Z.land VMM_PERMANENT_FLAGS_MASK fl) mf v o.

(** What the code asserts of the request, and no pages of its own. *)
Definition plain (fl : Z) (pr : private) : Prop :=
  has fl VMM_FLAGS_REPLACE = false /\ has fl VMM_FLAGS_PHYSICAL = false /\ has fl VMM_FLAGS_ALLOCATE = false /\
  (has fl VMM_FLAGS_FILE = true -> exists v o, pr = FileDesc v o /\ o mod PAGE_SIZE = 0).

Lemma getspace_range a s sp : getspace a s = Some sp -> space_start sp <= a < space_end sp.
Proof.
  unfold getspace. destruct (Z.leb_spec USERSPACE_START a), (Z.ltb_spec a USERSPACE_END), (Z.leb_spec KERNELSPACE_START a),
    (Z.ltb_spec a KERNELSPACE_END); simpl; intros [= <-]; simpl; done.
Qed.

Lemma set_ranges_ok sp hd hd' s : space_ranges sp s = Some hd ->
  exists s', set_ranges sp hd' s = Some s' /\ space_ranges sp s' = Some hd' /\
    (forall sp', sp' <> sp -> space_ranges sp' s' = space_ranges sp' s) /\ pagetable <$> contexts s' = pagetable <$> contexts s /\
    slots s' = slots s /\ hw s' = hw s /\ files s' = files s /\ zeropage s' = zeropage s /\ sigbus s' = sigbus s /\ current s' = current s.
Proof.
  destruct sp as [|c]; simpl.
  - intros _. eexists. split; [done|]. split; [done|]. split; [|done]. by intros [|c] N.
  - intros (x & E & ->)%fmap_Some. rewrite E. cbn [mbind option_bind]. eexists. split; [done|]. simpl.
    split; [by rewrite lookup_insert_eq|]. split; [|split; [|done]].
    + intros [|c'] N; [done|]. simpl. rewrite lookup_insert_ne by congruence. done.
    + rewrite fmap_insert. simpl. apply insert_id. by rewrite lookup_fmap, E.
Qed.

Lemma masked_file fl : has (Z.land VMM_PERMANENT_FLAGS_MASK fl) VMM_FLAGS_FILE = has fl VMM_FLAGS_FILE.
Proof. unfold has. rewrite (Z.land_comm _ fl), <- Z.land_assoc. done. Qed.

Lemma fill_range_ok x r st len fl mf pr s : heap (slots s) !! x = Some r -> plain fl pr ->
  exists s' nr, fill_range x st len fl mf pr s = Some s' /\ slots s' = mk_pool (<[x := nr]> (heap (slots s))) (caches (slots s)) /\
    hw s' = hw s /\ contexts s' = contexts s /\ kernelranges s' = kernelranges s /\ current s' = current s /\
    zeropage s' = zeropage s /\ sigbus s' = sigbus s /\ start nr = st /\ size_ nr = len /\
    (forall a, attr nr a = attr (requested st len fl mf pr) a) /\
    forall bs v, spare (P := P) (files s') (bare nr :: bs) v = spare (P := P) (files s) bs v.
Proof.
  intros E (_ & _ & _ & Hf). unfold fill_range, upd_range, upd. rewrite E. cbn [mbind option_bind]. destruct (has fl VMM_FLAGS_FILE) eqn:Ef.
  - destruct (Hf eq_refl) as (v & o & -> & Ho). unfold passert. rewrite (proj2 (Z.eqb_eq _ _) Ho). cbn [mbind option_bind].
    simpl. rewrite lookup_insert_eq. cbn [mbind option_bind]. unfold do_vop_hold. simpl.
    destruct (vop_hold_ok v (files s)) as (f' & -> & Hh). cbn [mbind option_bind]. eexists _, _. split; [done|]. simpl.
    rewrite insert_insert_eq. split_and!; try done. intros bs u. unfold spare, file_count. rewrite Hh.
    cbn [countb]. unfold maps_file at 1. simpl. rewrite masked_file, Ef. simpl. destruct (u =? v)%nat; lia.
  - eexists _, _. split; [done|]. simpl. split_and!; try done.
    + intros a. unfold attr, requested. destruct pr; simpl; rewrite masked_file, Ef; done.
    + intros bs u. unfold spare, file_count. cbn [countb]. unfold maps_file at 1. simpl. rewrite masked_file, Ef. done.
Qed.

Lemma getfreerange_fits s sp xs hd base_ n : space_ok s sp xs -> space_ranges sp s = Some hd -> chain (heap (slots s)) hd xs ->
  space_start sp <= base_ < space_end sp -> 0 < n -> (xs = [] -> base_ + n <= space_end sp) ->
  exists v, getfreerange (heap (slots s)) sp hd base_ n = Some v /\
    (v <> 0 -> base_ <= v /\ gap xs.*2 (space_end sp) v n) /\
    forall v', base_ <= v' -> (v = 0 \/ v' < v) -> ~ gap xs.*2 (space_end sp) v' n.
Proof.
  intros H E C B Hn He. destruct (decide (xs = [])) as [->|Ne]; [|by apply getfreerange_first_fit; try done; apply H].
  simpl in C. subst hd. unfold getfreerange. assert (0 < space_start sp) by (destruct sp; done).
  destruct (Z.eqb_spec base_ 0) as [|_]; [lia|]. exists base_. split; [done|]. split.
  - intros _. split; [lia|]. by split; [apply He|].
  - intros v' ? [?|?]; lia.
Qed.

(** The slot that [allocrange] hands out. *)
Lemma do_allocrange_ok s sp xs : space_ok s sp xs -> frames_ok (frames (hw s)) ->
  exists o s', do_allocrange s = Some (o, s') /\ space_ok s' sp xs /\ rest_kept s s' sp [] /\ files s' = files s /\
    space_ranges sp s' = space_ranges sp s /\
    match o with
    | None => no_slot (slots s) (frames (hw s))
    | Some x => ~ used (slots s) x /\ (x ∉ xs.*1) /\ exists r, heap (slots s') !! x = Some r /\ size_ r = 2 ^ 64 - 1
    end.
Proof.
  intros [Po (hd & Eh & C) O Sf] Fo. unfold do_allocrange.
  destruct (allocrange_ok (slots s) (frames (hw s)) Po Fo) as (o & pl' & p' & -> & Po' & Fo' & Kr & Kp & X). cbn [mbind option_bind].
  assert (Us : forall x, x ∈ xs.*1 -> used (slots s) x).
  { intros x ([y b] & -> & Hx)%list_elem_of_fmap. simpl. destruct (chain_lookup _ _ _ _ _ C Hx) as (r & E & B). exists r. split; [done|].
    assert (0 < size_ b) by (eapply ordered_elem; [exact O|]; apply list_elem_of_fmap; by exists (y, b)). rewrite <- B in *. simpl in *. lia. }
  eexists _, _. split; [done|]. split; [|split; [|split; [|split]]]; try done.
  - split; try done. exists hd. split; [destruct sp; done|]. simpl. eapply chain_ext; [|exact C]. intros x r Hx E.
    exists r. split; [|done]. destruct (Us x Hx) as (r' & E' & N). assert (r' = r) as -> by congruence. by apply Kp.
  - split; try done. simpl. intros z _ (r & E & N). by rewrite E, (Kp z r).
  - destruct o as [x|]; [|apply X]. destruct X as (Nu & Xr & _). split; [done|]. split; [|done]. intros Hx. by apply Nu, Us.
Qed.

(** A filled slot enters the chain. *)
Lemma insert_new s1 s2 sp xs hd x r nr : space_ok s1 sp xs -> space_ranges sp s1 = Some hd -> x ∉ xs.*1 ->
  frames_ok (frames (hw s1)) ->
  heap (slots s1) !! x = Some r -> size_ r = 2 ^ 64 - 1 -> slots s2 = mk_pool (<[x := nr]> (heap (slots s1))) (caches (slots s1)) ->
  hw s2 = hw s1 -> contexts s2 = contexts s1 -> kernelranges s2 = kernelranges s1 -> current s2 = current s1 ->
  zeropage s2 = zeropage s1 -> sigbus s2 = sigbus s1 ->
  (forall bs v, spare (P := P) (files s2) (bare nr :: bs) v = spare (P := P) (files s1) bs v) ->
  0 < size_ nr -> space_start sp <= start nr -> gap xs.*2 (space_end sp) (start nr) (size_ nr) ->
  exists s3 xs', do_insertrange sp x s2 = Some s3 /\ space_ok s3 sp xs' /\ rest_kept s1 s3 sp (x :: xs.*1) /\
    (forall a, cover xs'.*2 a = if inside nr a then Some (attr nr a) else cover xs.*2 a) /\
    (forall z, z ∈ xs'.*1 -> z ∈ x :: xs.*1) /\
    forall v, spare (P := P) (files s3) xs'.*2 v = spare (P := P) (files s1) xs.*2 v.
Proof.
  intros [Po (hd' & Eh' & C) O Sf] Eh Nx Fo Ex Sr E2 Hw2 Ec2 Ek2 Cu2 Z2 Sb2 Sp2 Hz Hl Gp. assert (hd' = hd) as -> by congruence.
  assert (Eh2 : space_ranges sp s2 = Some hd) by (rewrite <- Eh; destruct sp; simpl; congruence).
  unfold do_insertrange. rewrite Eh2. cbn [mbind option_bind].
  assert (B : 0 <= space_start sp /\ space_end sp < 2 ^ 64) by (destruct sp; done).
  destruct (insertrange_ok (slots s2) (files s2) hd x nr xs (space_start sp) (space_end sp))
    as (hd3 & pl3 & f3 & xs' & -> & Po3 & C3 & O3 & Cv & Sp3 & Id3 & _ & Fr3); try done; try apply B.
  - rewrite E2. eapply pool_set; [done|exact Ex|lia|lia].
  - rewrite E2. simpl. eapply chain_ext; [|exact C]. intros y q Hy Eq. exists q. split; [|done]. rewrite lookup_insert_ne; [done|]. by intros ->.
  - rewrite E2. simpl. apply lookup_insert_eq.
  - intros v. rewrite Sp2. apply Sf.
  - cbn [mbind option_bind]. destruct (set_ranges_ok sp hd hd3 (set_files f3 (set_slots pl3 s2))) as (s3 & -> & Er3 & Eo3 & Et3 & Es3 & Eh3 & Ef3 & Ez3 & Eb3 & Ecu3).
    { rewrite <- Eh2. destruct sp; done. }
    assert (Sp' : forall v, spare (P := P) f3 xs'.*2 v = spare (P := P) (files s1) xs.*2 v) by (intros v; by rewrite Sp3, Sp2).
    exists s3, xs'. split; [done|]. simpl in *. split; [split|split; [split|split; [|split]]]; try congruence; try done.
    + exists hd3. by rewrite Es3.
    + rewrite Eh3, Hw2. split; [done|]. by intros a.
    + intros sp' N. rewrite Eo3 by done. destruct sp'; simpl; congruence.
    + intros z Nz _. rewrite Es3, Fr3 by done. rewrite E2. simpl. apply not_elem_of_cons in Nz as [Nz _]. by rewrite lookup_insert_ne.
Qed.

Lemma kept_trans s1 s2 s3 sp ids x : rest_kept s1 s2 sp [] -> rest_kept s2 s3 sp (x :: ids) -> ~ used (slots s1) x ->
  rest_kept s1 s3 sp ids.
Proof.
  intros A B Nu. destruct A as [A1 A2 [A3 A3'] A4 A5 A6 A7 A8 A9], B as [B1 B2 [B3 B3'] B4 B5 B6 B7 B8 B9].
  split; try congruence.
  - split; [done|]. by eapply keeps_refs_trans.
  - intros sp' N. by rewrite B8, A8.
  - intros z Nz Hu. pose proof (A9 z (not_elem_of_nil z) Hu) as Ez. rewrite B9; [done| |].
    + apply not_elem_of_cons. split; [|done]. by intros ->.
    + destruct Hu as (r & E & N). exists r. by rewrite Ez.
Qed.

(** The outcome of a request for [n] bytes for the addresses of the space: they
    are at the lowest place from [base_] on, exactly there for an exact request;
    or nowhere, because nothing was asked for, there is no place, the exact one is
    taken, or [full], there was no slot for the range. *)
Definition fits (view : Z -> option (Z * Z * option (nat * Z))) (hi v n : Z) : Prop :=
  v + n <= hi /\ forall a, v <= a < v + n -> view a = None.

Definition placed view view' (sp : space) (base_ n fl mf : Z) (pr : private) (full : Prop) (r : Z) : Prop :=
  if r =? 0 then
    (forall a, view' a = view a) /\
    (n = 0 \/ (has fl VMM_FLAGS_EXACT = true /\ ~ fits view (space_end sp) base_ n) \/
     (forall v, base_ <= v -> ~ fits view (space_end sp) v n) \/ full)
  else 0 < n /\ base_ <= r /\ fits view (space_end sp) r n /\ (has fl VMM_FLAGS_EXACT = true -> r = base_) /\
    (forall v', base_ <= v' < r -> ~ fits view (space_end sp) v' n) /\
    forall a, view' a = if inside (requested r n fl mf pr) a then Some (attr (requested r n fl mf pr) a) else view a.

Lemma vmm_map_ok s sp xs addr len fl mf pr :
  let base_ := ROUND_DOWN (if addr =? 0 then KERNELSPACE_START else addr) PAGE_SIZE in
  let n := request_size len fl in
  space_ok s sp xs -> frames_ok (frames (hw s)) -> getspace base_ s = Some sp -> plain fl pr ->
  (xs = [] -> base_ + n <= space_end sp) ->
  exists r s' xs', vmm_map addr len fl mf pr s = Some (r, s') /\ space_ok s' sp xs' /\ rest_kept s s' sp xs.*1 /\
    (forall v, spare (P := P) (files s') xs'.*2 v = spare (P := P) (files s) xs.*2 v) /\
    (forall z, z ∈ xs'.*1 -> z ∈ xs.*1 \/ ~ used (slots s) z) /\
    placed (cover xs.*2) (cover xs'.*2) sp base_ n fl mf pr (no_slot (slots s) (frames (hw s))) r.
Proof.
  intros base_ n H Fo Es Pl He. unfold vmm_map. fold base_ n. cbv zeta.
  assert (Hn : 0 <= n) by (unfold n, request_size, ROUND_UP, ROUND_DOWN; case_match; apply u64_range).
  assert (Fail : forall s1, space_ok s1 sp xs -> rest_kept s s1 sp [] -> files s1 = files s ->
    (n = 0 \/ (has fl VMM_FLAGS_EXACT = true /\ ~ fits (cover xs.*2) (space_end sp) base_ n) \/
     (forall v, base_ <= v -> ~ fits (cover xs.*2) (space_end sp) v n) \/ no_slot (slots s) (frames (hw s))) ->
    exists r s' xs', Some (0, s1) = Some (r, s') /\ space_ok s' sp xs' /\ rest_kept s s' sp xs.*1 /\
    (forall v, spare (P := P) (files s') xs'.*2 v = spare (P := P) (files s) xs.*2 v) /\
    (forall z, z ∈ xs'.*1 -> z ∈ xs.*1 \/ ~ used (slots s) z) /\
    placed (cover xs.*2) (cover xs'.*2) sp base_ n fl mf pr (no_slot (slots s) (frames (hw s))) r).
  { intros s1 S1 K Ef Why. exists 0, s1, xs. split; [done|]. split; [done|]. split; [|rewrite Ef; split_and!; try done; by left].
    destruct K. split; try done. intros z _. apply rk_heap0. apply not_elem_of_nil. }
  assert (Refl : rest_kept s s sp []) by (by split).
  destruct (Z.eqb_spec n 0) as [|Nn]; [by apply Fail; auto|]. rewrite Es. destruct H as [Po (hd & Eh & C) O Sf].
  rewrite Eh. cbn [mbind option_bind]. pose proof (getspace_range _ _ _ Es) as Hb. assert (H : space_ok s sp xs) by (split; eauto).
  destruct (getfreerange_fits s sp xs hd base_ n H Eh C Hb ltac:(lia) He) as (v & -> & Hv & Low). cbn [mbind option_bind].
  destruct (has fl VMM_FLAGS_EXACT && negb (v =? base_) || (v =? 0)) eqn:Bad.
  { apply Fail; try done. destruct (Z.eqb_spec v 0) as [Z0|Z0]; [right; right; left; intros v' Hv'; apply Low; auto|].
    rewrite orb_false_r in Bad. apply andb_prop in Bad as [Ee Nb]. apply negb_true_iff, Z.eqb_neq in Nb. destruct (Hv Z0) as [? _].
    right; left. split; [done|]. apply Low; [lia|]. right. lia. }
  apply orb_false_iff in Bad as [Ex Nz]. destruct (do_allocrange_ok s sp xs H Fo) as (o & s1 & -> & H1 & K1 & Ef1 & Er1 & X).
  cbn [mbind option_bind]. destruct o as [x|]; [|by apply Fail; auto]. destruct X as (Nu & Nx & r & Exr & Sr).
  pose proof Pl as (-> & -> & -> & _). cbn [mbind option_bind].
  destruct (fill_range_ok x r v n fl mf pr s1 Exr Pl) as (s2 & nr & -> & E2 & Hw2 & Ec2 & Ek2 & Cu2 & Z2 & Sb2 & St & Sz & At & Sp2).
  cbn [mbind option_bind]. apply Z.eqb_neq in Nz. destruct (Hv Nz) as [Hbv Gv].
  destruct (insert_new s1 s2 sp xs hd x r nr H1) as (s3 & xs' & -> & H3 & K3 & Cv & Id3 & Sp3); try done; try congruence.
  { apply K1. } { lia. } { rewrite St. lia. }
  cbn [mbind option_bind]. exists v, s3, xs'. split; [done|]. split; [done|]. split; [by eapply kept_trans|]. split.
  { intros u. rewrite Sp3, Ef1. done. } split.
  - intros z Hz. apply Id3, elem_of_cons in Hz as [->|Hz]; [by right|by left].
  - unfold placed. rewrite (proj2 (Z.eqb_neq v 0) Nz). split_and!; try done; [lia|apply Gv..| | |].
    + intros Ee. rewrite Ee in Ex. simpl in Ex. by apply negb_false_iff, Z.eqb_eq in Ex.
    + intros v' Hv'. apply Low; lia.
    + intros a. rewrite Cv, At. unfold inside. rewrite St, Sz. unfold requested. by destruct pr.
Qed.

(** In a space without ranges the length is not looked at: what goes past the end
    of the space is mapped too. *)
Lemma vmm_map_overrun s sp addr len fl mf pr :
  let base_ := ROUND_DOWN (if addr =? 0 then KERNELSPACE_START else addr) PAGE_SIZE in
  let n := request_size len fl in
  space_ok s sp [] -> frames_ok (frames (hw s)) -> getspace base_ s = Some sp -> plain fl pr -> space_end sp < base_ + n ->
  exists r s', vmm_map addr len fl mf pr s = Some (r, s') /\
    ((r = 0 /\ no_slot (slots s) (frames (hw s)) /\ space_ok s' sp [] /\ rest_kept s s' sp [] /\ files s' = files s) \/
     (r = base_ /\ exists x nr, space_ranges sp s' = Some (Some x) /\ chain (heap (slots s')) (Some x) [(x, nr)] /\ start nr = base_ /\ size_ nr = n)).
Proof.
  intros base_ n H Fo Es Pl Ov. unfold vmm_map. fold base_ n. cbv zeta. pose proof (getspace_range _ _ _ Es) as Hb.
  destruct (Z.eqb_spec n 0) as [|Nn]; [lia|]. rewrite Es. pose proof H as [Po (hd & Eh & C) O Sf]. simpl in C. subst hd. rewrite Eh. cbn [mbind option_bind]. unfold getfreerange.
  assert (0 < space_start sp) by (destruct sp; done). assert (N0 : (base_ =? 0) = false) by (apply Z.eqb_neq; lia). rewrite N0. cbn [mbind option_bind].
  rewrite N0, Z.eqb_refl. cbn [negb]. rewrite andb_false_r. cbn [orb].
  destruct (do_allocrange_ok s sp [] H Fo) as (o & s1 & -> & H1 & K1 & Ef1 & Er1 & X). cbn [mbind option_bind].
  destruct o as [x|]; [|exists 0, s1; split; [done|]; left; done]. destruct X as (Nu & Nx & r & Exr & Sr).
  pose proof Pl as (-> & -> & -> & _). cbn [mbind option_bind].
  destruct (fill_range_ok x r base_ n fl mf pr s1 Exr Pl) as (s2 & nr & -> & E2 & Hw2 & Ec2 & Ek2 & Cu2 & Z2 & Sb2 & St & Sz & _). cbn [mbind option_bind].
  assert (Eh2 : space_ranges sp s2 = Some None) by (rewrite <- Eh, <- Er1; destruct sp; simpl; congruence).
  unfold do_insertrange. rewrite Eh2. cbn [mbind option_bind]. unfold insertrange, insert_link, upd. rewrite E2. cbn [heap caches]. rewrite !lookup_insert_eq. cbn [mbind option_bind].
  set (nr2 := with_prev None (with_next None nr)). match goal with |- context [set_ranges sp _ ?s] => set (s3 := s) end.
  destruct (set_ranges_ok sp None (Some x) s3) as (s4 & -> & Er4 & _ & _ & Es4 & _); [rewrite <- Eh2; by destruct sp|]. cbn [mbind option_bind].
  exists base_, s4. split; [done|]. right. split; [done|]. exists x, (bare nr2). split; [done|]. split; [|done]. rewrite Es4. simpl. split; [done|].
  exists nr2. by rewrite lookup_insert_eq.
Qed.

(** ** Sequences of requests *)

Record request := mk_request { q_addr : Z; q_len : Z; q_flags : Z; q_mmu : Z; q_private : private }.

Definition q_base (q : request) : Z := ROUND_DOWN (if q_addr q =? 0 then KERNELSPACE_START else q_addr q) PAGE_SIZE.
Definition q_size (q : request) : Z := request_size (q_len q) (q_flags q).

Fixpoint map_run (qs : list request) s : option (list Z * vmm F P) :=
  match qs with
  | [] => Some ([], s)
  | q :: qs' =>
      '(r, s) ← vmm_map (q_addr q) (q_len q) (q_flags q) (q_mmu q) (q_private q) s;
      '(rs, s) ← map_run qs' s;
      Some (r :: rs, s)
  end.

(** Whether the allocator of the slots was exhausted before each request. *)
Fixpoint exhausted (qs : list request) s : list Prop :=
  match qs with
  | [] => []
  | q :: qs' =>
      no_slot (slots s) (frames (hw s)) ::
        match vmm_map (q_addr q) (q_len q) (q_flags q) (q_mmu q) (q_private q) s with Some (_, s') => exhausted qs' s' | None => [] end
  end.

(** An abstract space is what it has at each address.  A request takes the
    lowest place, or is refused. *)
Inductive maps_spec (sp : space) :
  (Z -> option (Z * Z * option (nat * Z))) -> list request -> list Prop -> list Z -> (Z -> option (Z * Z * option (nat * Z))) -> Prop :=
  | maps_nil view view' : (forall a, view' a = view a) -> maps_spec sp view [] [] [] view'
  | maps_cons view view' view'' q qs full fs r rs :
      placed view view' sp (q_base q) (q_size q) (q_flags q) (q_mmu q) (q_private q) full r ->
      maps_spec sp view' qs fs rs view'' -> maps_spec sp view (q :: qs) (full :: fs) (r :: rs) view''.

Lemma getspace_current a s s' : current s' = current s -> getspace a s' = getspace a s.
Proof. unfold getspace. by intros ->. Qed.

Lemma rest_kept_trans s1 s2 s3 sp xs1 xs2 : rest_kept s1 s2 sp xs1 -> rest_kept s2 s3 sp xs2 ->
  (forall z, z ∉ xs1 -> used (slots s1) z -> z ∉ xs2) -> rest_kept s1 s3 sp xs1.
Proof.
  intros A B I. destruct A as [A1 A2 [A3 A3'] A4 A5 A6 A7 A8 A9], B as [B1 B2 [B3 B3'] B4 B5 B6 B7 B8 B9]. split; try congruence.
  - split; [done|]. by eapply keeps_refs_trans.
  - intros sp' N. by rewrite B8, A8.
  - intros z Nz Hu. pose proof (A9 z Nz Hu) as Ez. rewrite B9; [done|by apply I|]. destruct Hu as (r & E & N). exists r. by rewrite Ez.
Qed.

(** A request that goes past the end of an empty space. *)
Definition overruns (sp : space) (q : request) : Prop := space_end sp < q_base q + q_size q.

(** C3. A sequence of mappings of anonymous memory and of files (requests that
    neither replace, nor allocate, nor name physical memory) in a space always
    returns and does what the abstract space does: each request gets the lowest
    place at or above the requested address (exactly there for an exact one) where
    its whole length was free and inside the space, and is refused only when there
    is none, nothing was asked for or there was no slot for the range, and then
    changes no address; the space then has its old addresses and the new ones with
    the flags, protection, vnode and offsets asked for, however the code joined
    the ranges.  The references to vnodes balance; tables, pages and the other
    spaces are as before.  The one exception is the first range of an empty
    space, whose length is not checked: if it goes past the end of the space it is
    mapped all the same. *)
Theorem map_run_refines qs s sp xs :
  space_ok s sp xs -> frames_ok (frames (hw s)) ->
  Forall (fun q => getspace (q_base q) s = Some sp /\ plain (q_flags q) (q_private q)) qs ->
  (exists rs s' xs', map_run qs s = Some (rs, s') /\ maps_spec sp (cover xs.*2) qs (exhausted qs s) rs (cover xs'.*2) /\
     space_ok s' sp xs' /\ rest_kept s s' sp xs.*1 /\
     forall v, spare (P := P) (files s') xs'.*2 v = spare (P := P) (files s) xs.*2 v) \/
  (xs = [] /\ exists pre q post s1 s2 x r, qs = pre ++ q :: post /\ overruns sp q /\
     map_run pre s = Some (replicate (length pre) 0, s1) /\ space_ranges sp s1 = Some None /\ map_run [q] s1 = Some ([q_base q], s2) /\
     space_ranges sp s2 = Some (Some x) /\ chain (heap (slots s2)) (Some x) [(x, r)] /\ start r = q_base q /\ size_ r = q_size q).
Proof.
  intros H Fo L. revert s xs H Fo L. induction qs as [|q qs IH]; intros s xs H Fo L.
  { left. exists [], s, xs. split_and!; try done. by constructor. }
  apply Forall_cons in L as [[Gs Pl] L].
  assert (Next : forall s1, current s1 = current s -> Forall (fun q => getspace (q_base q) s1 = Some sp /\ plain (q_flags q) (q_private q)) qs).
  { intros s1 Ec. eapply Forall_impl; [exact L|]. intros q' [G' P']. split; [|done]. rewrite <- G'. by apply getspace_current. }
  assert (Go : forall r s1 xs1, vmm_map (q_addr q) (q_len q) (q_flags q) (q_mmu q) (q_private q) s = Some (r, s1) -> space_ok s1 sp xs1 ->
    rest_kept s s1 sp xs.*1 -> (forall v, spare (P := P) (files s1) xs1.*2 v = spare (P := P) (files s) xs.*2 v) ->
    (forall z, z ∈ xs1.*1 -> z ∈ xs.*1 \/ ~ used (slots s) z) ->
    placed (cover xs.*2) (cover xs1.*2) sp (q_base q) (q_size q) (q_flags q) (q_mmu q) (q_private q) (no_slot (slots s) (frames (hw s))) r ->
    (xs1 = [] -> xs = [] /\ r = 0) ->
    (exists rs s' xs', map_run (q :: qs) s = Some (rs, s') /\ maps_spec sp (cover xs.*2) (q :: qs) (exhausted (q :: qs) s) rs (cover xs'.*2) /\
       space_ok s' sp xs' /\ rest_kept s s' sp xs.*1 /\ forall v, spare (P := P) (files s') xs'.*2 v = spare (P := P) (files s) xs.*2 v) \/
    (xs = [] /\ exists pre q0 post s2 s3 x r0, q :: qs = pre ++ q0 :: post /\ overruns sp q0 /\
       map_run pre s = Some (replicate (length pre) 0, s2) /\ space_ranges sp s2 = Some None /\ map_run [q0] s2 = Some ([q_base q0], s3) /\
       space_ranges sp s3 = Some (Some x) /\ chain (heap (slots s3)) (Some x) [(x, r0)] /\ start r0 = q_base q0 /\ size_ r0 = q_size q0)).
  { intros r s1 xs1 E H1 K1 Sp1 Id1 Pc Em.
    destruct (IH s1 xs1 H1) as [(rs & s' & xs' & E' & M & H' & K' & Sp')|(-> & pre & q0 & post & s2 & s3 & x & r0 & -> & Ov & R1 & R2 & R3)]; [apply K1|apply Next, K1|left|right].
    - exists (r :: rs), s', xs'. cbn [map_run exhausted]. rewrite E. cbn [mbind option_bind]. rewrite E'. cbn [mbind option_bind].
      split; [done|]. split; [by eapply maps_cons|]. split; [done|]. split; [|intros v; by rewrite Sp', Sp1].
      eapply rest_kept_trans; [exact K1|exact K'|]. intros z Nz Hu Hz. by destruct (Id1 z Hz).
    - destruct (Em eq_refl) as [Ex0 ->]. split; [done|]. exists (q :: pre), q0, post, s2, s3, x, r0. split; [done|]. split; [done|]. split; [|done].
      cbn [map_run]. rewrite E. cbn [mbind option_bind]. by rewrite R1. }
  destruct (decide (xs = [] /\ space_end sp < q_base q + q_size q)) as [[Ex0 Ov]|Nov].
  - subst xs. destruct (vmm_map_overrun s sp (q_addr q) (q_len q) (q_flags q) (q_mmu q) (q_private q) H Fo Gs Pl Ov)
      as (r & s1 & E & [(-> & Ns & H1 & K1 & Ef)|(-> & x & nr & R1 & R2 & R3)]).
    + apply (Go 0 s1 []); try done; [by rewrite Ef|by left|]. split; [done|]. by right; right; right.
    + right. split; [done|]. exists [], q, qs, s, s1, x, nr. split; [done|]. split; [done|]. split; [done|].
      split; [destruct H as [_ (hd & Eh & C) _ _]; by simpl in C; subst hd|]. split; [|done]. cbn [map_run]. rewrite E. done.
  - destruct (vmm_map_ok s sp xs (q_addr q) (q_len q) (q_flags q) (q_mmu q) (q_private q) H Fo Gs Pl) as (r & s1 & xs1 & E & H1 & K1 & Sp1 & Id1 & Pc).
    { intros ->. fold (q_base q) (q_size q). destruct (Z.le_gt_cases (q_base q + q_size q) (space_end sp)); [done|]. destruct Nov. split; [done|lia]. }
    apply (Go r s1 xs1); try done. intros ->. unfold placed in Pc. destruct (Z.eqb_spec r 0) as [->|Nr].
    + destruct Pc as [Same _]. split; [|done]. destruct xs as [|[y b] xs]; [done|]. specialize (Same (start b)). simpl in Same.
      destruct (so_ordered _ _ _ H) as (_ & Hz & _). rewrite (proj2 (inside_spec b (start b))) in Same by (simpl in Hz; lia). done.
    + exfalso. destruct Pc as (Hn & _ & _ & _ & _ & Same). specialize (Same r).
      rewrite (proj2 (inside_spec _ r)) in Same; [done|]. unfold requested. destruct (q_private q); simpl; lia.
Qed.

(** ** A range that joins its neighbour in a fork *)

(** C39. A fork does not share the pages of a range that it can join to one already
    copied.  When the child has a range that ends where the range [b] of the
    parent starts and the two are alike, copying [b] extends the child's range over
    its addresses, with its protection, and that is all: no entry of any page
    table changes, so where the parent has pages the child has none and reads
    zeros.  (The copy of the record is freed by the join, and the pages are counted
    by its size, which is then zero.) *)
Theorem fork_range_unshared s c ot nt y b xs x e :
  space_ok s (UserSpace c) xs -> frames_ok (frames (hw s)) -> heap (slots s) !! y = Some b -> (y ∉ xs.*1) -> 0 < size_ b -> USERSPACE_START <= start b ->
  gap xs.*2 USERSPACE_END (start b) (size_ b) -> (forall v, 0 <= spare (P := P) (files s) (bare b :: xs.*2) v) ->
  (x, e) ∈ xs -> start b = start e + size_ e -> joinable e b = true ->
  exists r s', fork_range c ot nt y s = Some (r, s') /\ mem (hw s') = mem (hw s) /\ (forall v, translate (hw s') nt v = translate (hw s) nt v) /\
    if r then exists xs', space_ok s' (UserSpace c) xs' /\
      forall a, cover xs'.*2 a = if inside b a then Some (attr b a) else cover xs.*2 a
    else no_slot (slots s) (frames (hw s)).
Proof.
  intros H Fo Ey Ny' Hz Hs G Sf Hx Es J. unfold fork_range.
  destruct (do_allocrange_ok s (UserSpace c) xs H Fo) as (o & s1 & -> & H1 & K1 & Ef1 & Er1 & X). cbn [mbind option_bind].
  pose proof (rk_mem _ _ _ _ K1) as M1. assert (T1 : forall v, translate (hw s1) nt v = translate (hw s) nt v) by (intros v; unfold translate; by rewrite M1).
  destruct o as [n|]; [|by exists false, s1]. destruct X as (Nu & Nx & r & En & Sr).
  assert (Uy : used (slots s) y) by (exists b; split; [done|lia]).
  assert (Ey1 : heap (slots s1) !! y = Some b) by (rewrite (rk_heap _ _ _ _ K1 y (not_elem_of_nil y) Uy); done).
  assert (Ny : y <> n) by (by intros ->). rewrite Ey1. cbn [mbind option_bind]. unfold upd_range, upd. rewrite En. cbn [mbind option_bind].
  set (s2 := set_slots _ s1). destruct H1 as [Po1 (hd & Eh & C1) O1 Sf1]. unfold do_insertrange.
  change (space_ranges (UserSpace c) s2) with (space_ranges (UserSpace c) s1). rewrite Eh. cbn [mbind option_bind].
  assert (En2 : heap (slots s2) !! n = Some b) by apply lookup_insert_eq.
  assert (Ey2 : heap (slots s2) !! y = Some b) by (simpl; by rewrite lookup_insert_ne).
  destruct (insertrange_ok (slots s2) (files s2) hd n b xs USERSPACE_START USERSPACE_END)
    as (hd3 & pl3 & f3 & xs' & -> & Po3 & C3 & O3 & Cv & Sp3 & Id3 & [_ Fn] & Fr3); try done.
  { eapply pool_set; [done|exact En|lia|lia]. }
  { simpl. eapply chain_ext; [|exact C1]. intros z q Hq Eq. exists q. split; [|done]. rewrite lookup_insert_ne; [done|]. by intros ->. }
  { intros v. change (files s2) with (files s1). rewrite Ef1. apply Sf. }
  specialize (Fn x e Hx Es J). cbn [mbind option_bind].
  destruct (set_ranges_ok (UserSpace c) hd hd3 (set_files f3 (set_slots pl3 s2))) as (s3 & -> & Er3 & _ & _ & Es3 & Eh3 & Ef3 & _); [exact Eh|].
  cbn [mbind option_bind]. destruct Fn as (n3 & En3 & Zn). cbn in Es3, Eh3, Ef3. rewrite Es3.
  rewrite Fr3, Ey2 by (rewrite not_elem_of_cons; done). cbn [mbind option_bind].
  assert (S3 : space_ok s3 (UserSpace c) xs').
  { split; [by rewrite Es3|exists hd3; by rewrite Es3|done|]. intros v. rewrite Ef3, Sp3. change (files s2) with (files s1). rewrite Ef1. apply Sf. }
  assert (M3 : mem (hw s3) = mem (hw s)) by (by rewrite Eh3). assert (T3 : forall v, translate (hw s3) nt v = translate (hw s) nt v) by (intros v; rewrite Eh3; apply T1).
  destruct (has (flags b) VMM_FLAGS_FILE).
  - unfold do_vop_hold. destruct (vop_hold_ok (vnode b) (files s3)) as (f4 & -> & Hf). cbn [mbind option_bind]. simpl. rewrite Es3, En3.
    cbn [mbind option_bind]. rewrite Zn. exists true, (set_files f4 s3). split; [done|]. split; [exact M3|]. split; [exact T3|]. exists xs'. split; [|done].
    destruct S3 as [A1 A2 A3 A4]. split; try done. intros v. specialize (A4 v). unfold spare in *. simpl. rewrite Hf. destruct (v =? vnode b)%nat; lia.
  - cbn [mbind option_bind]. rewrite Es3, En3. cbn [mbind option_bind]. rewrite Zn. exists true, s3. split; [done|]. split; [exact M3|]. split; [exact T3|]. by exists xs'.
Qed.
End map.
