(* ===== verification/Machine.v ===== *)
(** * The memory manager from its start ([vmm_init] and [vmm_newcontext] of [mm/vmm.c])

    The start of the manager, new contexts and mappings keep the invariants of
    tables, counts and chains together; a small machine that is started by
    [arch_mmu_init] and [vmm_init] runs the operations. *)

From S2P Require Import Prelude Errno Vnode DList Pmm Mmu Vmm Ranges Fault Map.

Section start.
Context {F P : Type} `{!Frames P, !FramesLaws P, !Files F P, !FilesLaws F P}.
Implicit Types (s : vmm F P) (G : gmap Z (option Z * list nat)).

(** Tables, counts and contexts. *)
Record vm_ok s G : Prop := {
  vm_mmu : mmu_ok true (hw s) G;
  vm_user : user_ok (hw s) G (zeropage s);
  vm_tables : forall c x, contexts s !! c = Some x -> is_root G (pagetable x) /\ pagetable x <> template (hw s)
}.

Lemma vm_hw_ok s G x : vm_ok s G -> contexts s !! current s = Some x -> hw_ok s G (pagetable x).
Proof. intros [O U T] E. split; try done; [unfold cur_table; by rewrite E|by eapply T|by eapply T]. Qed.

(** Nothing but unused page counts changes in the tables. *)
Lemma vm_ok_counts s s' G : vm_ok s G -> mem (hw s') = mem (hw s) -> template (hw s') = template (hw s) ->
  frames_ok (frames (hw s')) -> keeps_refs (frames (hw s)) (frames (hw s')) -> zeropage s' = zeropage s ->
  pagetable <$> contexts s' = pagetable <$> contexts s -> vm_ok s' G.
Proof.
  intros [O U T] Em Et Fo Kr Ez Ec. assert (E : hw s' = mk_mmu (mem (hw s)) (frames (hw s')) (template (hw s))).
  { rewrite <- Em, <- Et. by destruct (hw s'). }
  split.
  - rewrite E. apply mmu_ok_frames; [done|done|]. intros t x Gt. pose proof (m_ref _ _ O t x Gt) as R1.
    rewrite Kr; [done|apply (n_addr _ _ _ _ (m_node _ _ O _ _ Gt))|lia].
  - rewrite E, Ez. apply user_ok_frames; [done|]. intros a Na Ma Ra. rewrite Kr by (done || lia). lia.
  - intros c x Ex. rewrite Et. assert (E' : (pagetable <$> contexts s) !! c = Some (pagetable x)) by (rewrite <- Ec, lookup_fmap, Ex; done).
    apply lookup_fmap_Some in E' as (y & <- & Ey). by eapply T.
Qed.

Lemma vm_ok_kept s s' G sp ids : vm_ok s G -> rest_kept s s' sp ids -> vm_ok s' G.
Proof. intros V K. eapply vm_ok_counts; [done|apply K..]. Qed.

(** No user entries at all. *)
Lemma user_ok_empty (w : mmu P) G : (forall q v, is_root G q -> user v -> translate w q v = 0) -> user_ok w G 0.
Proof.
  intros H. split; [| |done].
  - intros q v R U N. exfalso. apply N. unfold phys. by rewrite H.
  - intros p Np L NL [_ Mp]. destruct L as [|[q v] L]; [by destruct NL|]. destruct (Mp q v (list_elem_of_here _ _)) as (R & U & E).
    exfalso. apply Np. rewrite <- E. unfold phys. by rewrite H.
Qed.

Lemma template_user (w : mmu P) G v : mmu_ok true w G -> user v -> translate w (template w) v = 0.
Proof.
  intros O U. unfold translate, reach. unfold user in U. destruct (n_page _ _ _ _ (m_node _ _ O _ _ (m_template _ _ O))) as (es & Es & _).
  pose proof (m_low _ _ O _ U) as R0. unfold path. cbn [walk]. rewrite R0. done.
Qed.

(** A new table has no user entries. *)
Lemma user_ok_newtable (w w' : mmu P) G z t : mmu_ok true w G -> user_ok w G z -> refs (frames w) t = 0 ->
  keeps_refs (frames w) (frames w') -> (forall a, <[t := (Some t, [])]> G !! a = None -> mem w' !! a = mem w !! a) ->
  (forall q, is_root G q -> forall v, translate w' q v = translate w q v) -> (forall v, user v -> translate w' t v = 0) ->
  user_ok w' (<[t := (Some t, [])]> G) z.
Proof.
  intros O U Rt Kr Me V V0. assert (Gt : G !! t = None) by (by eapply unused_table).
  assert (Old : forall q v, is_root (<[t := (Some t, [])]> G) q -> user v -> phys w' q v <> 0 -> is_root G q /\ phys w' q v = phys w q v).
  { intros q v R Uv N. assert (Nq : q <> t) by (intros ->; apply N; unfold phys; by rewrite V0).
    unfold is_root in *. rewrite lookup_insert_ne in R by done. split; [done|]. unfold phys. by rewrite V. }
  assert (Before : forall p L, p <> 0 -> maps_to w' (<[t := (Some t, [])]> G) p L -> maps_to w G p L).
  { intros p L Np [ND Mp]. split; [done|]. intros q v Hq. destruct (Mp q v Hq) as (R & Uv & E).
    destruct (Old q v R Uv) as [R0 E']; [congruence|]. split_and!; [done|done|congruence]. }
  split.
  - intros q v R Uv N. destruct (Old q v R Uv N) as [R0 E]. rewrite E in *. destruct (uo_page _ _ _ U q v R0 Uv N) as (A & Gp & Mp).
    assert (Np : phys w q v <> t) by (intros Q; pose proof (user_refs _ _ _ q v U R0 Uv N) as R1; rewrite Q in R1; lia).
    assert (G1 : <[t := (Some t, [])]> G !! phys w q v = None) by (by rewrite lookup_insert_ne). split_and!; [done|done|]. by rewrite Me.
  - intros p Np L NL Mp. pose proof (uo_count _ _ _ U p Np L NL (Before p L Np Mp)) as C. destruct L as [|[q v] L]; [by destruct NL|].
    destruct (Before p _ Np Mp) as [_ M0]. destruct (M0 q v (list_elem_of_here _ _)) as (_ & _ & Ep).
    rewrite Kr; [done|rewrite <- Ep; apply addr_aligned|simpl in C; lia].
  - intros Nz. pose proof (uo_zero _ _ _ U Nz) as Zk. pose proof (zero_refs _ _ _ Zk) as Rz. destruct Zk as [Z1 Z2 Z3 Z4 Z5].
    assert (Gz : <[t := (Some t, [])]> G !! z = None) by (rewrite lookup_insert_ne; [done|]; intros ->; lia).
    split; [done|done|by rewrite Me| |].
    + intros L NL Mp. rewrite Kr; [|apply Z1|lia]. apply Z4; [done|]. by apply Before.
    + intros q v R Uv E. destruct (Old q v R Uv) as [R0 E0]; [congruence|]. rewrite V by done. apply Z5; [done|done|congruence].
Qed.

(** A context has no ranges and no user entries at first. *)
Lemma newcontext_ok s G c : vm_ok s G ->
  exists r s' G', vmm_newcontext (Some c) s = Some (r, s') /\ vm_ok s' G' /\
    slots s' = slots s /\ kernelranges s' = kernelranges s /\ current s' = current s /\ files s' = files s /\ zeropage s' = zeropage s /\
    keeps_refs (frames (hw s)) (frames (hw s')) /\ G ⊆ G' /\
    (forall q v, is_root G q -> translate (hw s') q v = translate (hw s) q v) /\
    match r with
    | None => contexts s' = contexts s
    | Some c' => c' = c /\ exists t, contexts s' = <[c := mk_ctx None t]> (contexts s) /\ G !! t = None /\ is_root G' t /\
        forall v, user v -> translate (hw s') t v = 0
    end.
Proof.
  intros [O U T]. unfold vmm_newcontext. destruct (newtable_ok (hw s) G O eq_refl) as (t & w' & G' & -> & O' & Tm & V & Kr & Me & X).
  cbn [mbind option_bind].
  destruct t as [t|].
  - destruct X as (Rt & -> & V'). assert (Gt : G !! t = None) by (by eapply unused_table).
    assert (Vt : forall v, user v -> translate w' t v = 0).
    { intros v Uv. rewrite V'. unfold user in Uv. by rewrite (proj2 (Nat.ltb_lt _ _) Uv). }
    eexists (Some c), _, (<[t := (Some t, [])]> G). split; [done|]. split_and!; try done; simpl.
    + split; simpl; [done|exact (user_ok_newtable (hw s) w' G (zeropage s) t O U Rt Kr Me V Vt)|]. intros c' x [[-> <-]|[Nc Ex]]%lookup_insert_Some.
      * simpl. split; [apply lookup_insert_eq|]. rewrite Tm. intros ->. pose proof (m_template _ _ O). congruence.
      * destruct (T c' x Ex) as [R N]. rewrite Tm. split; [|done]. unfold is_root in *. rewrite lookup_insert_ne; [done|]. congruence.
    + by apply insert_subseteq.
    + intros q v R. by apply V.
    + exists t. split_and!; try done. apply lookup_insert_eq.
  - destruct X as [-> Em]. eexists None, _, G. split; [done|]. split_and!; try done; simpl.
    + split; simpl; [done| |by rewrite Tm]. assert (E : w' = mk_mmu (mem (hw s)) (frames w') (template (hw s))) by (rewrite <- Em, <- Tm; by destruct w').
      rewrite E. apply user_ok_frames; [done|]. intros a Na Ma Ra. rewrite Kr by (done || lia). lia.
    + intros q v R. by apply V.
Qed.

(** ** The start *)

(** The mapping lies in the kernel's half. *)
Definition in_kernel (x : Z * Z * Z) : Prop :=
  let '(addr, len, _) := x in
  KERNELSPACE_START <= ROUND_DOWN addr PAGE_SIZE /\ ROUND_DOWN addr PAGE_SIZE + ROUND_UP len PAGE_SIZE < KERNELSPACE_END.

Lemma kernel_getspace a s : KERNELSPACE_START <= a < KERNELSPACE_END -> getspace a s = Some KernelSpace.
Proof.
  intros H. unfold getspace. destruct (Z.leb_spec USERSPACE_START a), (Z.ltb_spec a USERSPACE_END), (Z.leb_spec KERNELSPACE_START a),
    (Z.ltb_spec a KERNELSPACE_END); simpl; try done; unfold KERNELSPACE_START, USERSPACE_END in *; lia.
Qed.

Lemma round_up_nonneg len : 0 <= ROUND_UP len PAGE_SIZE.
Proof. unfold ROUND_UP, ROUND_DOWN. apply u64_range. Qed.

Lemma kernel_map_ok s xs addr len mf : space_ok s KernelSpace xs -> frames_ok (frames (hw s)) -> in_kernel (addr, len, mf) -> exists r s' xs',
  vmm_map addr len VMM_FLAGS_EXACT mf NoPrivate s = Some (r, s') /\ space_ok s' KernelSpace xs' /\ rest_kept s s' KernelSpace xs.*1 /\
  (forall z, z ∈ xs'.*1 -> z ∈ xs.*1 \/ ~ used (slots s) z).
Proof.
  intros H Fo [H1 H2]. pose proof (round_up_nonneg len).
  assert (N0 : addr <> 0) by (intros ->; vm_compute in H1; by apply H1).
  destruct (vmm_map_ok s KernelSpace xs addr len VMM_FLAGS_EXACT mf NoPrivate) as (r & s' & xs' & E & H' & K & _ & Id & _); try done.
  - rewrite (proj2 (Z.eqb_neq _ _) N0). apply kernel_getspace. lia.
  - intros _. rewrite (proj2 (Z.eqb_neq _ _) N0). unfold request_size. simpl. change (space_end KernelSpace) with KERNELSPACE_END. lia.
  - by exists r, s', xs'.
Qed.

Lemma map_all_ok l : forall s xs s', space_ok s KernelSpace xs -> frames_ok (frames (hw s)) -> Forall in_kernel l ->
  map_all l s = Some s' -> exists xs', space_ok s' KernelSpace xs' /\ rest_kept s s' KernelSpace xs.*1.
Proof.
  induction l as [|[[addr len] mf] l IH]; intros s xs s' H Fo L E; cbn [map_all] in E.
  - injection E as <-. exists xs. split; [done|]. by split.
  - apply Forall_cons in L as [L1 L]. destruct (kernel_map_ok s xs addr len mf H Fo L1) as (r & s1 & xs1 & E1 & H1 & K1 & Id).
    rewrite E1 in E. cbn [mbind option_bind] in E. destruct (negb (r =? 0)); [|done]. cbn [passert mbind option_bind] in E.
    destruct (IH s1 xs1 s' H1) as (xs' & H' & K'); [apply K1|done|done|]. exists xs'. split; [done|].
    eapply rest_kept_trans; [exact K1|exact K'|]. intros z Nz Hu Hz. by destruct (Id z Hz).
Qed.

Lemma empty_pool_ok : pool_ok (mk_pool ∅ []).
Proof. split; simpl; [|done]. intros x. rewrite lookup_empty. split; [by intros []|lia]. Qed.

(** The page of zeros is taken: no user entry leads to it. *)
Lemma user_ok_zero (w : mmu P) G z p : mmu_ok true w G -> user_ok w G 0 -> allocpage (frames w) = Some (Some z, p) ->
  let w' := mk_mmu (<[z := zeroed]> (mem w)) p (template w) in
  mmu_ok true w' G /\ user_ok w' G z /\ z <> 0.
Proof.
  intros O U Ea. destruct (allocpage_ok _ (m_frames _ _ O)) as (r & p' & Ea' & Fo & X). rewrite Ea in Ea'. injection Ea' as <- <-.
  destruct X as (A & Rz & Fr). assert (Gz : G !! z = None) by (by eapply unused_table). assert (Nz : z <> 0) by (destruct A; lia).
  assert (Gr : forall a, a mod PAGE_SIZE = 0 -> 1 <= refs (frames w) a -> refs p a = refs (frames w) a).
  { intros a Ma Ra. rewrite Fr by done. rewrite bool_decide_false; [done|]. intros ->. lia. }
  assert (O1 : mmu_ok true (mk_mmu (mem w) p (template w)) G).
  { apply mmu_ok_frames; [done|done|]. intros t x Gt. pose proof (m_ref _ _ O t x Gt). rewrite Gr; [done|apply (n_addr _ _ _ _ (m_node _ _ O _ _ Gt))|lia]. }
  assert (U1 : user_ok (mk_mmu (mem w) p (template w)) G 0) by (apply user_ok_frames; [done|]; intros a _ Ma Ra; rewrite Gr by done; lia).
  destruct (mmu_ok_page _ G z zeroed O1 Gz) as [O2 V2]. intros w'. fold w' in V2.
  assert (Ph : forall q v, is_root G q -> phys w' q v = phys w q v) by (intros q v R; unfold phys; by rewrite V2).
  assert (Nn : forall q v, is_root G q -> user v -> phys w q v <> z).
  { intros q v R Uv E. pose proof (user_refs _ _ _ q v U R Uv ltac:(congruence)) as R1. rewrite E in R1. lia. }
  split; [exact O2|]. split; [|done]. split.
  - intros q v R Uv. rewrite Ph by done. intros N. destruct (uo_page _ _ _ U1 q v R Uv N) as (? & ? & ?). split_and!; try done.
    unfold w'. simpl. rewrite lookup_insert_ne; [done|]. intros E. by apply (Nn q v R Uv).
  - intros a Na L NL [ND Mp]. apply (uo_count _ _ _ U1 a Na L NL). split; [done|]. intros q v Hq.
    destruct (Mp q v Hq) as (R & Uv & Ep). rewrite Ph in Ep by done. done.
  - intros _. split; [done|done|apply lookup_insert_eq| |].
    + intros [|[q v] L] NL [_ Mp]; [simpl; rewrite Fr by apply A; by rewrite bool_decide_true|]. exfalso.
      destruct (Mp q v (list_elem_of_here _ _)) as (R & Uv & E). rewrite Ph in E by done. by apply (Nn q v).
    + intros q v R Uv E. rewrite Ph in E by done. by destruct (Nn q v R Uv).
Qed.

(** What [vmm_init] leaves, if none of its assertions failed. *)
Lemma vmm_init_ok hhdmbase text rodata data es (w : mmu P) f s :
  mmu_inv w ∅ -> (forall v, 0 <= holds (P := P) f v) -> Forall in_kernel (init_ranges hhdmbase text rodata data es ++ [(hhdmbase, PAGE_SIZE, 0)]) ->
  vmm_init hhdmbase text rodata data es w f = Some s ->
  exists G xs, vm_ok s G /\ zeropage s <> 0 /\ space_ok s KernelSpace xs.
Proof.
  intros (G & O & L) Hf K E. unfold vmm_init in E. apply Forall_app in K as [K1 K2]. apply Forall_cons in K2 as [K2 _].
  assert (Po : pool_ok (mk_pool ∅ [])) by apply empty_pool_ok.
  destruct (newcache_ok (mk_pool ∅ []) (frames w) Po (m_frames _ _ O)) as (b & pl & p & E1 & Po1 & Fo1 & Kr1 & _ & _ & _).
  rewrite E1 in E. cbn [mbind option_bind] in E.
  assert (O1 : mmu_ok true (mk_mmu (mem w) p (template w)) G).
  { apply mmu_ok_frames; [done|done|]. intros t x Gt. pose proof (m_ref _ _ O t x Gt). rewrite Kr1; [done|apply (n_addr _ _ _ _ (m_node _ _ O _ _ Gt))|lia]. }
  set (s0 := mk_vmm pl None (∅ : gmap nat vmmcontext_t) 0 0 (mk_mmu (mem w) p (template w)) f 0).
  assert (V0 : vm_ok s0 G).
  { split; [done| |by intros c x]. apply user_ok_empty. intros q v R U. destruct (decide (q = template w)) as [->|Ne].
    - by apply (template_user (mk_mmu (mem w) p (template w)) G).
    - exfalso. apply (not_elem_of_empty (C := gset Z) q). apply L. done. }
  destruct (newcontext_ok s0 G 0 V0) as (r & s1 & G1 & En & V1 & X). unfold vmm_newcontext in En. simpl in En.
  destruct (arch_mmu_newtable _) as [[t w1]|]; [|done]. cbn [mbind option_bind] in En, E. destruct b; [|done].
  cbn [passert mbind option_bind] in E. destruct t as [t|]; [|done]. cbn [mbind option_bind] in E. injection En as <- <-.
  apply bind_Some in E as (s2 & E2 & E).
  assert (H1 : space_ok (mk_vmm pl None {[0%nat := mk_ctx None t]} 0 0 w1 f 0) KernelSpace []).
  { split; try done; [by exists None|]. intros v. unfold spare, file_count. simpl. specialize (Hf v). lia. }
  destruct (map_all_ok _ _ [] s2 H1 (m_frames _ _ (vm_mmu _ _ V1)) K1 E2) as (xs2 & H2 & R2).
  pose proof (vm_ok_kept _ s2 G1 _ _ V1 R2) as V2.
  destruct (kernel_map_ok s2 xs2 hhdmbase PAGE_SIZE ARCH_MMU_FLAGS_NOEXEC H2 (m_frames _ _ (vm_mmu _ _ V2)) K2) as (r & s3 & xs3 & E3 & H3 & R3 & _).
  rewrite E3 in E. cbn [mbind option_bind] in E. pose proof (vm_ok_kept _ s3 G1 _ _ V2 R3) as V3.
  destruct (allocpage _) as [[z p3]|] eqn:Ea; [|done]. cbn [mbind option_bind] in E. destruct z as [z|]; [|done].
  cbn [mbind option_bind] in E. injection E as <-. exists G1, xs3.
  assert (Z3 : zeropage s3 = 0) by (rewrite (rk_zero _ _ _ _ R3), (rk_zero _ _ _ _ R2); done).
  destruct V3 as [O3 U3 T3]. rewrite Z3 in U3. destruct (user_ok_zero (hw s3) G1 z p3 O3 U3 Ea) as (O4 & U4 & Nz).
  split; [by split|]. split; [done|]. destruct H3 as [Po3 (hd & Eh & C) Or Sf]. split; try done. by exists hd.
Qed.
End start.

(** ** A small machine

    Vnodes are counters; no vnode has pages. *)
#[export] Instance counted_files : Files (gmap nat Z) pmm_t := {
  vop_hold v f := Some (<[v := default 0 (f !! v) + 1]> f);
  vop_release v f := if default 0 (f !! v) <=? 0 then None else Some (<[v := default 0 (f !! v) - 1]> f);
  cacheable _ _ := true;
  canwritevnode _ _ := true;
  vop_mmap _ _ _ _ wf := Some (ENODEV, wf);
  vop_munmap _ _ _ _ wf := Some (ENODEV, wf);
  getpage _ _ wf := Some (ENXIO, 0, wf);
  makedirty _ wf := Some wf
}.

#[export, refine] Instance counted_laws : FilesLaws (gmap nat Z) pmm_t := { holds f v := default 0 (f !! v) }.
Proof.
  - intros v f. eexists. split; [done|]. intros u. destruct (Nat.eqb_spec u v) as [->|N].
    + by rewrite lookup_insert_eq.
    + rewrite lookup_insert_ne by done. lia.
  - intros v f H. simpl. destruct (Z.leb_spec (default 0 (f !! v)) 0); [lia|]. eexists. split; [done|]. intros u.
    destruct (Nat.eqb_spec u v) as [->|N]; [by rewrite lookup_insert_eq|]. rewrite lookup_insert_ne by done. lia.
Defined.

Definition machine := vmm (gmap nat Z) pmm_t.

Definition dead : machine := mk_vmm (mk_pool ∅ []) None ∅ 0 0 boot_mmu ∅ 0.

Definition boot_text : Z * Z := (0xffffffff80000000, 0xffffffff80002000).
Definition boot_rodata : Z * Z := (0xffffffff80003000, 0xffffffff80003800).
Definition boot_data : Z * Z := (0xffffffff80002000, 0xffffffff80003000).

(** Started; with two more contexts, the first of them current. *)
Definition m_start : machine := default dead (vmm_init 0xffff800000000000 boot_text boot_rodata boot_data boot_map boot_mmu ∅).

Definition with_context (c : nat) (s : machine) : machine :=
  match vmm_newcontext (Some c) s with Some (_, s') => s' | None => s end.

Definition m_user : machine := vmm_switchcontext 1 (with_context 2 (with_context 1 m_start)).

Definition uflags : Z := Z.lor (Z.lor (Z.lor ARCH_MMU_FLAGS_READ ARCH_MMU_FLAGS_WRITE) ARCH_MMU_FLAGS_USER) ARCH_MMU_FLAGS_NOEXEC.

(** Three pages of anonymous memory: with all rights but execution, and with
    none. *)
Definition m_with (f : Z) : machine :=
  match vmm_map 0x400000 0x3000 0 f NoPrivate m_user with Some (_, s) => s | None => m_user end.

Definition gflags : Z := Z.lor ARCH_MMU_FLAGS_USER ARCH_MMU_FLAGS_NOEXEC.
Definition m_mapped : machine := m_with uflags.
Definition m_guard : machine := m_with gflags.

Lemma m_start_ok : exists G xs, vm_ok m_start G /\ zeropage m_start <> 0 /\ space_ok m_start KernelSpace xs.
Proof.
  destruct (vmm_init 0xffff800000000000 boot_text boot_rodata boot_data boot_map boot_mmu (∅ : gmap nat Z)) as [s|] eqn:E.
  - assert (Es : m_start = s) by (unfold m_start; by rewrite E). rewrite Es.
    eapply vmm_init_ok; [exact boot_mmu_ok| | |exact E].
    + intros v. simpl. by rewrite lookup_empty.
    + repeat constructor; vm_compute; (done || by intros [=]).
  - assert (Q : bool_decide (is_Some (vmm_init 0xffff800000000000 boot_text boot_rodata boot_data boot_map boot_mmu (∅ : gmap nat Z))) = true)
      by (vm_compute; reflexivity). rewrite E in Q. done.
Qed.

Lemma with_context_ok c (s : machine) G : vm_ok s G -> exists G', vm_ok (with_context c s) G' /\ slots (with_context c s) = slots s /\ files (with_context c s) = files s.
Proof.
  intros V. destruct (newcontext_ok s G c V) as (r & s' & G' & E & V' & Es & _ & _ & Ef & _). exists G'. unfold with_context.
  rewrite E. auto.
Qed.

Lemma switchcontext_ok c (s : machine) G : vm_ok s G ->
  vm_ok (vmm_switchcontext c s) G /\ slots (vmm_switchcontext c s) = slots s /\
  files (vmm_switchcontext c s) = files s.
Proof. intros []. by split_and!. Qed.

Lemma m_user_ok : exists G, vm_ok m_user G /\ pool_ok (slots m_user) /\ files m_user = ∅.
Proof.
  destruct m_start_ok as (G & xs & V & _ & S). destruct (with_context_ok 1 _ G V) as (G1 & V1 & E1 & F1).
  destruct (with_context_ok 2 _ G1 V1) as (G2 & V2 & E2 & F2). exists G2.
  destruct (switchcontext_ok 1 _ G2 V2) as (V3 & E3 & F3). split; [exact V3|]. unfold m_user.
  rewrite E3, E2, E1. split; [exact (so_pool _ _ _ S)|]. rewrite F3, F2, F1. vm_compute. reflexivity.
Qed.

(** What there is to know of them. *)
Record mapped_ok (s : machine) (f : Z) (G : gmap Z (option Z * list nat)) (xs : list (nat * vmmrange_t)) : Prop := {
  mo_vm : vm_ok s G;
  mo_space : space_ok s (UserSpace 1) xs;
  mo_cover : forall a, cover xs.*2 a = if inside (requested 0x400000 0x3000 0 f NoPrivate) a
    then Some (attr (requested 0x400000 0x3000 0 f NoPrivate) a) else None
}.

Lemma plain_anonymous : plain 0 NoPrivate.
Proof. split_and!; try reflexivity. intros [=]. Qed.

(** A space of the machine that has no ranges. *)
Lemma empty_space_ok (s : machine) c : pool_ok (slots s) -> files s = ∅ -> space_ranges (UserSpace c) s = Some None -> space_ok s (UserSpace c) [].
Proof.
  intros Po Ef E. split; [done|by exists None|simpl; unfold USERSPACE_START, USERSPACE_END; lia|].
  intros v. rewrite Ef. unfold spare. simpl. by rewrite lookup_empty.
Qed.

Lemma fresh_space_ok : space_ok m_user (UserSpace 1) [].
Proof. destruct m_user_ok as (G & _ & Po & Ef). apply empty_space_ok; [exact Po|exact Ef|vm_compute; reflexivity]. Qed.

Lemma user_mapped_ok f : fst <$> vmm_map 0x400000 0x3000 0 f NoPrivate m_user = Some 0x400000 -> exists G xs, mapped_ok (m_with f) f G xs.
Proof.
  intros Q. destruct m_user_ok as (G & V & _).
  destruct (vmm_map_ok m_user (UserSpace 1) [] 0x400000 0x3000 0 f NoPrivate fresh_space_ok) as (r & s' & xs & E & S' & K & _ & _ & Pl).
  - exact (m_frames _ _ (vm_mmu _ _ V)).
  - vm_compute. reflexivity.
  - exact plain_anonymous.
  - intros _. vm_compute. intros [=].
  - exists G, xs. assert (Es : m_with f = s') by (unfold m_with; rewrite E; reflexivity).
    rewrite E in Q. injection Q as ->. destruct Pl as (_ & _ & _ & _ & _ & Pl).
    split; rewrite ?Es; [exact (vm_ok_kept _ _ _ _ _ V K)|exact S'|exact Pl].
Qed.

Lemma m_mapped_ok : exists G xs, mapped_ok m_mapped uflags G xs.
Proof. unfold m_mapped. apply user_mapped_ok. vm_compute. reflexivity. Qed.

Lemma m_guard_ok : exists G xs, mapped_ok m_guard gflags G xs.
Proof. unfold m_guard. apply user_mapped_ok. vm_compute. reflexivity. Qed.

(** The context of the user. *)
Lemma current_context (s : machine) hd : current s = 1%nat -> pagetable <$> contexts s !! 1%nat = Some 0x37000 ->
  space_ranges (UserSpace 1) s = Some hd -> contexts s !! current s = Some (mk_ctx hd 0x37000).
Proof.
  intros -> Q Eh. change (space_ranges (UserSpace 1) s) with (ranges <$> contexts s !! 1%nat) in Eh.
  destruct (contexts s !! 1%nat) as [[h t]|]; [|discriminate Q]. injection Q as ->. injection Eh as ->. reflexivity.
Qed.

(** The second page has been read: it is the page of zeros. *)
Definition zr : vmmrange_t := mk_range None None 0x400000 0x3000 0 uflags 0 0.
Definition m_zero : machine := match fault_absent zr 0x401000 m_mapped with Some (_, s) => s | None => m_mapped end.

Lemma m_zero_run s' : fault_absent zr 0x401000 m_mapped = Some (true, s') -> m_zero = s'.
Proof. unfold m_zero. intros ->. reflexivity. Qed.

#[local] Opaque m_with m_mapped m_guard m_zero.

Lemma m_zero_ok : exists G xs hd, hw_ok m_zero G 0x37000 /\ is_root G 0x36000 /\ contexts m_zero !! current m_zero = Some (mk_ctx hd 0x37000) /\
  chain (heap (slots m_zero)) hd xs /\ ordered USERSPACE_START USERSPACE_END xs.*2 /\
  cover xs.*2 0x401000 = Some (0, uflags, None).
Proof.
  destruct m_mapped_ok as (G & xs & [V [Po (hd & Eh & C) O Sf] Cv]).
  assert (Ec : contexts m_mapped !! current m_mapped = Some (mk_ctx hd 0x37000)) by (apply current_context; [vm_compute; reflexivity..|exact Eh]).
  assert (R2 : is_root G 0x36000).
  { assert (Q : pagetable <$> contexts m_mapped !! 2%nat = Some 0x36000) by (vm_compute; reflexivity).
    apply fmap_Some in Q as (x & Ex & Et). rewrite Et. exact (proj1 (vm_tables _ _ V _ _ Ex)). }
  destruct (zero_fault m_mapped G 0x37000 zr 0x401000 (vm_hw_ok _ _ _ V Ec)) as (s' & G' & E & H & R & _).
  - vm_compute. intros [=].
  - vm_compute. reflexivity.
  - apply userspace_user. unfold USERSPACE_START, USERSPACE_END. lia.
  - vm_compute. reflexivity.
  - reflexivity.
  - reflexivity.
  - rewrite <- (m_zero_run s' E) in H. exists G', xs, hd.
    assert (Sl : slots m_zero = slots m_mapped) by (vm_compute; reflexivity). rewrite Sl.
    assert (Ek : contexts m_zero = contexts m_mapped) by (vm_compute; reflexivity). rewrite Ek.
    assert (Eu : current m_zero = current m_mapped) by (vm_compute; reflexivity). rewrite Eu.
    split; [exact H|]. split; [apply R; exact R2|]. split; [exact Ec|]. split; [exact C|]. split; [exact O|]. rewrite Cv. reflexivity.
Qed.

(** Writing to that page gives the thread a page of its own. *)
Lemma pagefault_anonymous_witness : exists G s', vmm_pagefault 0x401234 true VMM_ACTION_WRITE m_zero = Some (true, s') /\
  contents s' 0x37000 0x401000 = Some zeroed /\ private_page s' G 0x37000 0x401000 /\
  phys (hw s') 0x37000 0x401000 <> zeropage m_zero /\ has (translate (hw s') 0x37000 0x401000) ARCH_MMU_FLAGS_WRITE = true.
Proof.
  destruct m_zero_ok as (G & xs & hd & H & _ & Ec & C & O & Cv).
  pose proof (pagefault_anonymous m_zero G 0x37000 hd xs 0x401234 VMM_ACTION_WRITE H) as X. cbv zeta in X.
  change (ROUND_DOWN 0x401234 PAGE_SIZE) with 0x401000 in X. rewrite Cv in X.
  change (has (invalidactions uflags) VMM_ACTION_WRITE) with false in X. destruct X as (s' & G' & E & H' & _ & Co & _ & Re & _).
  - vm_compute. intros [=].
  - vm_compute. reflexivity.
  - exact Ec.
  - exact C.
  - exact O.
  - unfold USERSPACE_START, USERSPACE_END. lia.
  - vm_compute. intros _ [=].
  - intros fl mf o [= <- <- <-]. split; reflexivity.
  - exists G', s'. split; [exact E|].
    assert (Q : (fun x : bool * machine => (contents (snd x) 0x37000 0x401000, sigbus (snd x), phys (hw (snd x)) 0x37000 0x401000,
        has (translate (hw (snd x)) 0x37000 0x401000) ARCH_MMU_FLAGS_WRITE)) <$> vmm_pagefault 0x401234 true VMM_ACTION_WRITE m_zero =
      Some (Some zeroed, 0%nat, 0x32000, true)) by (vm_compute; reflexivity).
    rewrite E in Q. cbn [fmap option_fmap option_map snd] in Q. apply (inj Some) in Q.
    apply pair_equal_spec in Q as [Q Q4]. apply pair_equal_spec in Q as [Q Q3]. apply pair_equal_spec in Q as [Q1 Q2].
    split; [exact Q1|]. rewrite Q3. split; [|split; [vm_compute; intros [=]|exact Q4]].
    destruct Re as [[S1 _]|[_ Re]]; [rewrite Q2 in S1; discriminate S1|].
    assert (T : (translate (hw m_zero) 0x37000 0x401000 =? 0) = false) by (vm_compute; reflexivity). rewrite T in Re.
    assert (W : has (translate (hw m_zero) 0x37000 0x401000) ARCH_MMU_FLAGS_WRITE = false) by (vm_compute; reflexivity). rewrite W in Re.
    exact (proj2 Re).
Defined.

(** A read of a page with no rights: the third fault is as the first. *)
Lemma unreadable_spins_witness : pfisr 4 0x401234 0x23 false (Nat.iter 2 (again 4 0x401234) m_guard) = Some (Resume, again 4 0x401234 (Nat.iter 2 (again 4 0x401234) m_guard)) /\
  has (translate (hw (Nat.iter 2 (again 4 0x401234) m_guard)) 0x37000 0x401000) ARCH_MMU_FLAGS_READ = false.
Proof.
  destruct m_guard_ok as (G & xs & [V [Po (hd & Eh & C) O Sf] Cv]).
  assert (Ec : contexts m_guard !! current m_guard = Some (mk_ctx hd 0x37000)) by (apply current_context; [vm_compute; reflexivity..|exact Eh]).
  destruct (unreadable_spins 2 m_guard G 0x37000 hd xs 0x401234 4 0 gflags) as (E & T & _).
  - exact (vm_hw_ok _ _ _ V Ec).
  - vm_compute. intros [=].
  - vm_compute. reflexivity.
  - exact Ec.
  - exact C.
  - exact O.
  - vm_compute. split; [intros [=]|reflexivity].
  - intros N. exfalso. apply N. vm_compute. reflexivity.
  - change (ROUND_DOWN 0x401234 PAGE_SIZE) with 0x401000. rewrite Cv. reflexivity.
  - reflexivity.
  - reflexivity.
  - reflexivity.
  - vm_compute. reflexivity.
  - split; [exact E|exact T].
Defined.

(** A fork shares the page of zeros and leaves the other two absent. *)
Lemma fork_pages_share_witness : exists s', fork_pages 3 0 0x400000 uflags 0x37000 0x36000 m_zero = Some (true, s') /\
  shared m_zero s' 0x37000 0x36000 0x401000 uflags /\ phys (hw s') 0x36000 0x401000 = zeropage m_zero /\
  translate (hw s') 0x36000 0x402000 = 0.
Proof.
  destruct m_zero_ok as (G & xs & hd & [O U T R Tm] & R2 & _).
  destruct (fork_pages_share 3 m_zero G 0 0x400000 uflags 0x37000 0x36000) as (b & s' & G' & E & _ & _ & Sh).
  - split; [exact O|exact U|exact R|exact R2|vm_compute; intros [=]|vm_compute; intros [=]].
  - split_and!; vm_compute; (reflexivity || intros [=]).
  - split; intros [|[|[|i]]] Hi; [vm_compute; reflexivity..|lia| | | |lia]; vm_compute; reflexivity.
  - reflexivity.
  - assert (Q : (fun x : bool * machine => (fst x, phys (hw (snd x)) 0x36000 0x401000, translate (hw (snd x)) 0x36000 0x402000)) <$>
        fork_pages 3 0 0x400000 uflags 0x37000 0x36000 m_zero = Some (true, zeropage m_zero, 0)) by (vm_compute; reflexivity).
    rewrite E in Q. cbn [fmap option_fmap option_map fst snd] in Q. apply (inj Some) in Q.
    apply pair_equal_spec in Q as [Q Q2]. apply pair_equal_spec in Q as [-> Q1].
    exists s'. split; [exact E|]. split; [|split; [exact Q1|exact Q2]].
    pose proof (Sh eq_refl 1%nat ltac:(lia)) as X. change (nth_page 0x400000 0 1) with 0x401000 in X. unfold page_forked in X.
    assert (N : (phys (hw m_zero) 0x37000 0x401000 =? 0) = false) by (vm_compute; reflexivity). rewrite N in X. exact X.
Defined.

(** Another page at the same hint goes after the three and is joined with them;
    a mapping exactly there is refused; a file gets its own place. *)
Definition more_requests : list request :=
  [ mk_request 0x400000 0x1000 0 uflags NoPrivate; mk_request 0x400000 0x1000 VMM_FLAGS_EXACT uflags NoPrivate;
    mk_request 0x403000 0x1800 VMM_FLAGS_FILE uflags (FileDesc 7 0x2000) ].

Definition used_slots (s : machine) : nat := length (filter (fun x : nat * vmmrange_t => size_ x.2 <> 0) (map_to_list (heap (slots s)))).

Lemma map_run_refines_witness : exists s' (xs xs' : list (nat * vmmrange_t)), map_run more_requests m_mapped = Some ([0x403000; 0; 0x404000], s') /\
  maps_spec (UserSpace 1) (cover xs.*2) more_requests (exhausted more_requests m_mapped) [0x403000; 0; 0x404000] (cover xs'.*2) /\
  files s' !! 7%nat = Some 1 /\ used_slots s' = 7%nat.
Proof.
  destruct m_mapped_ok as (G & xs & [V S Cv]).
  destruct (map_run_refines more_requests m_mapped (UserSpace 1) xs S) as [(rs & s' & xs' & E & M & _)|[-> _]].
  - exact (m_frames _ _ (vm_mmu _ _ V)).
  - assert (Sp : forall a, USERSPACE_START <= a < USERSPACE_END -> getspace a m_mapped = Some (UserSpace 1)).
    { intros a Ha. unfold getspace. rewrite (proj2 (Z.leb_le _ _)), (proj2 (Z.ltb_lt _ _)) by lia. vm_compute. reflexivity. }
    apply Forall_forall. intros q Hq. unfold more_requests in Hq. rewrite !elem_of_cons, elem_of_nil in Hq.
    destruct Hq as [->|[->|[->|[]]]]; (split; [apply Sp; vm_compute; split; [intros [=]|reflexivity]|]); split_and!; try reflexivity; try (intros [=]).
    exists 7%nat, 0x2000. split; reflexivity.
  - assert (Q : (fun x : list Z * machine => (fst x, files (snd x) !! 7%nat, used_slots (snd x)))
        <$> map_run more_requests m_mapped = Some ([0x403000; 0; 0x404000], Some 1, 7%nat)) by (vm_compute; reflexivity).
    rewrite E in Q. cbn [fmap option_fmap option_map fst snd] in Q. apply (inj Some) in Q.
    apply pair_equal_spec in Q as [Q Q2]. apply pair_equal_spec in Q as [-> Q1].
    exists s', xs, xs'. split; [exact E|]. split; [exact M|]. split; [exact Q1|exact Q2].
  - specialize (Cv 0x400000). discriminate Cv.
Defined.

(** The second context has two pages right after the three that the first has. *)
Definition m_parent : machine :=
  match vmm_map 0x403000 0x2000 0 uflags NoPrivate (vmm_switchcontext 2 m_user) with Some (_, s) => vmm_switchcontext 1 s | None => m_user end.
Definition m_child : machine :=
  match vmm_map 0x400000 0x3000 0 uflags NoPrivate m_parent with Some (_, s) => s | None => m_user end.
Definition next_range : vmmrange_t := mk_range None None 0x403000 0x2000 0 uflags 0 0.

Lemma m_parent_ok : exists G, vm_ok m_parent G /\ pool_ok (slots m_parent).
Proof.
  destruct m_user_ok as (G & V & Po & Ef). destruct (switchcontext_ok 2 _ G V) as (V2 & E2 & F2).
  destruct (vmm_map_ok (vmm_switchcontext 2 m_user) (UserSpace 2) [] 0x403000 0x2000 0 uflags NoPrivate) as (r & s' & xs & E & S' & K & _).
  - apply empty_space_ok; [rewrite E2; exact Po|rewrite F2; exact Ef|vm_compute; reflexivity].
  - exact (m_frames _ _ (vm_mmu _ _ V2)).
  - vm_compute. reflexivity.
  - exact plain_anonymous.
  - intros _. vm_compute. intros [=].
  - exists G. unfold m_parent. rewrite E. destruct (switchcontext_ok 1 _ G (vm_ok_kept _ _ _ _ _ V2 K)) as (V3 & E3 & _).
    split; [exact V3|]. rewrite E3. exact (so_pool _ _ _ S').
Qed.

Lemma m_child_ok : exists G, vm_ok m_child G /\ space_ok m_child (UserSpace 1) [(6%nat, zr)].
Proof.
  destruct m_parent_ok as (G & V & Po).
  destruct (vmm_map_ok m_parent (UserSpace 1) [] 0x400000 0x3000 0 uflags NoPrivate) as (r & s' & xs & E & S' & K & _).
  - apply empty_space_ok; [exact Po|vm_compute; reflexivity..].
  - exact (m_frames _ _ (vm_mmu _ _ V)).
  - vm_compute. reflexivity.
  - exact plain_anonymous.
  - intros _. vm_compute. intros [=].
  - exists G. assert (Es : m_child = s') by (unfold m_child; by rewrite E). split; [rewrite Es; exact (vm_ok_kept _ _ _ _ _ V K)|].
    split; [rewrite Es; exact (so_pool _ _ _ S')| | |].
    + exists (Some 6%nat). split; [vm_compute; reflexivity|]. split; [reflexivity|]. exists zr. split_and!; vm_compute; reflexivity.
    + simpl. unfold USERSPACE_START, USERSPACE_END. lia.
    + intros v. assert (Q : files m_child = ∅) by (vm_compute; reflexivity). rewrite Q. unfold spare. simpl. by rewrite lookup_empty.
Qed.

#[local] Opaque m_parent m_child.

Lemma fork_range_unshared_witness : exists s' xs', fork_range 1 0x36000 0x37000 5 m_child = Some (true, s') /\ mem (hw s') = mem (hw m_child) /\
  space_ok s' (UserSpace 1) xs' /\ cover xs'.*2 0x404000 = Some (attr next_range 0x404000).
Proof.
  destruct m_child_ok as (G & V & S).
  destruct (fork_range_unshared m_child 1 0x36000 0x37000 5 next_range [(6%nat, zr)] 6 zr S) as (r & s' & E & M & _ & R).
  - exact (m_frames _ _ (vm_mmu _ _ V)).
  - vm_compute. reflexivity.
  - cbn [fmap list_fmap fst]. rewrite list_elem_of_singleton. intros [=].
  - reflexivity.
  - vm_compute. intros [=].
  - split; [vm_compute; intros [=]|]. intros a Ha. change (cover [zr] a = None). unfold cover.
    destruct (inside zr a) eqn:I; [|reflexivity]. apply inside_spec in I. simpl in I, Ha. lia.
  - intros v. assert (Q : files m_child = ∅) by (vm_compute; reflexivity). rewrite Q. unfold spare. simpl. by rewrite lookup_empty.
  - left.
  - reflexivity.
  - reflexivity.
  - assert (Q : fst <$> fork_range 1 0x36000 0x37000 5 m_child = Some true) by (vm_compute; reflexivity). rewrite E in Q.
    cbn [fmap option_fmap option_map fst] in Q. apply (inj Some) in Q. rewrite Q in E, R. destruct R as (xs' & S' & Cv).
    exists s', xs'. split; [exact E|]. split; [exact M|]. split; [exact S'|]. rewrite Cv. reflexivity.
Defined.
