(* ===== verification/VmmRuns.v ===== *)
(** * Runs of the memory manager ([mm/vmm.c])

    What the operations together do on the small machine of [Machine], where that
    is not what they are for. *)

From S2P Require Import Prelude Errno Vnode DList Pmm Mmu Vmm Ranges Fault Map Machine.

(** The range of an address of the current space. *)
Definition range_at (s : machine) (a : Z) : option vmmrange_t :=
  hd ← space_ranges (UserSpace (current s)) s;
  x ← getrange (S (size (heap (slots s)))) (heap (slots s)) hd a;
  x ← x;
  heap (slots s) !! x.

(** One page of anonymous memory, or of the file 7, exactly there. *)
Definition anonymous (a len : Z) (s : machine) : option machine :=
  '(r, s) ← vmm_map a len VMM_FLAGS_EXACT uflags NoPrivate s; _ ← passert (r =? a); Some s.

Definition of_file (a len off : Z) (s : machine) : option machine :=
  '(r, s) ← vmm_map a len (Z.lor VMM_FLAGS_EXACT VMM_FLAGS_FILE) uflags (FileDesc 7 off) s; _ ← passert (r =? a); Some s.

Definition protect (a len mf : Z) (s : machine) : option machine :=
  '(e, s) ← vmm_changemmuflags a len mf 0 s; _ ← passert (e =? 0); Some s.

(** A write, with as many faults as it takes to get a page of its own. *)
Definition write_to (a : Z) (s : machine) : option machine :=
  '(_, s) ← vmm_pagefault a true VMM_ACTION_WRITE s; '(_, s) ← vmm_pagefault a true VMM_ACTION_WRITE s; Some s.

Definition readonly_flags : Z := Z.ldiff uflags ARCH_MMU_FLAGS_WRITE.

(** Three ranges, the middle one mapped last; then the last one is unmapped. *)
Definition three_ranges : option machine :=
  s ← anonymous 0x400000 0x1000 m_user; s ← anonymous 0x500000 0x1000 s; anonymous 0x480000 0x1000 s.

(** [steps Q] follows a computed run [Q : r = Some x] to its end. *)
Ltac steps Q :=
  repeat match type of Q with
  | (_ ← ?r; _) = _ => let E := fresh "E" in destruct r as [?|] eqn:E; [|discriminate Q]; cbn [mbind option_bind] in Q
  | (let '(_, _) := ?p in _) = _ => destruct p
  | (match ?p with (_, _) => _ end) = _ => destruct p
  end;
  apply (inj Some) in Q; repeat (apply pair_equal_spec in Q as [Q ?]).

(** Unmapping one range can take another one with it: a range that was mapped
    between two others is not linked backwards, so that removing the last of the
    three removes it from the chain as well.  Its pages, which nobody unmapped,
    then fault for good. *)
Lemma unmap_takes_neighbour : exists s s' s'', three_ranges = Some s /\ vmm_unmap 0x500000 0x1000 0 s = Some s' /\
  start <$> range_at s 0x480000 = Some 0x480000 /\ range_at s' 0x480000 = None /\
  vmm_pagefault 0x480000 true VMM_ACTION_READ s' = Some (false, s'').
Proof.
  assert (Q : (s ← three_ranges; s' ← vmm_unmap 0x500000 0x1000 0 s; '(b, _) ← vmm_pagefault 0x480000 true VMM_ACTION_READ s';
      Some (start <$> range_at s 0x480000, start <$> range_at s' 0x480000, b)) = Some (Some (0x480000 : Z), None, false)) by (vm_compute; reflexivity).
  steps Q. subst. eexists _, _, _. split_and!; [reflexivity|eassumption|done|by eapply fmap_None|eassumption].
Qed.

(** Two pages with contents; the second is made read only and writable again,
    which leaves two ranges; then the context is forked. *)
Definition forked : option (machine * Z) :=
  s ← anonymous 0x400000 0x2000 m_user;
  s ← write_to 0x400000 s;
  s ← write_to 0x401000 s;
  s ← protect 0x401000 0x1000 readonly_flags s;
  s ← protect 0x401000 0x1000 uflags s;
  '(_, s) ← vmm_fork (Some 3%nat) 1 s;
  x ← contexts s !! 3%nat;
  Some (s, pagetable x).

(** A fork can lose memory: where two neighbouring ranges of the parent have
    become alike, the copy of the second is joined to the copy of the first in
    the child and its pages are not shared.  The child has the range, and zeros
    in place of the parent's data. *)
Lemma fork_loses_pages : exists s t r, forked = Some (s, t) /\
  phys (hw s) 0x37000 0x400000 <> 0 /\ phys (hw s) t 0x400000 = phys (hw s) 0x37000 0x400000 /\
  phys (hw s) 0x37000 0x401000 <> 0 /\ phys (hw s) t 0x401000 = 0 /\
  range_at (vmm_switchcontext 3 s) 0x401000 = Some r /\ (start r, size_ r) = (0x400000, 0x2000).
Proof.
  assert (Q : ('(s, t) ← forked; r ← range_at (vmm_switchcontext 3 s) 0x401000;
      Some (phys (hw s) 0x37000 0x400000, phys (hw s) t 0x400000, phys (hw s) 0x37000 0x401000, phys (hw s) t 0x401000, (start r, size_ r))) =
    Some (0x32000 : Z, 0x32000 : Z, 0x31000 : Z, 0, (0x400000, 0x2000))) by (vm_compute; reflexivity).
  steps Q. eexists _, _, _. split_and!; [reflexivity|congruence..|eassumption|done].
Qed.

(** A file of three pages, the protection of the middle one changed. *)
Definition reprotected : option machine :=
  s ← of_file 0x400000 0x3000 0 m_user; protect 0x401000 0x1000 readonly_flags s.

(** Changing the protection of the middle page of a mapped file makes it show the
    file's first page: the range that is cut out keeps the offset of the whole. *)
Lemma protect_moves_file : exists s r, reprotected = Some s /\ range_at s 0x401000 = Some r /\ start r = 0x401000 /\ offset r = 0.
Proof.
  assert (Q : (s ← reprotected; r ← range_at s 0x401000; Some (start r, offset r)) = Some (0x401000 : Z, 0)) by (vm_compute; reflexivity).
  steps Q. eexists _, _. split_and!; [reflexivity|eassumption|done..].
Qed.

Definition written : option machine := s ← anonymous 0x400000 0x1000 m_user; write_to 0x400000 s.

(** [vmm_getphysical] drops the offset in the page. *)
Lemma getphysical_drops_offset : exists s a, written = Some s /\
  fst <$> vmm_getphysical 0x400004 false s = Some a /\ fst <$> vmm_getphysical 0x400008 false s = Some a.
Proof.
  assert (Q : (s ← written;
    Some (fst <$> vmm_getphysical 0x400004 false s, fst <$> vmm_getphysical 0x400008 false s)) =
    Some (Some (0x32000 : Z), Some (0x32000 : Z))) by (vm_compute; reflexivity).
  steps Q. eexists _, _. split_and!; [done|eassumption|eassumption].
Qed.

Definition write_only : option machine :=
  '(_, s) ← vmm_map 0x400000 0x1000 VMM_FLAGS_EXACT (Z.ldiff uflags ARCH_MMU_FLAGS_READ) NoPrivate m_user; write_to 0x400000 s.

(** Memory that may be written but not read: the entry is not present for the
    processor, the handler finds an entry that is writable and returns, so that
    the access faults again. *)
Lemma write_only_never_resolved : exists s s', write_only = Some s /\
  vmm_pagefault 0x400000 true VMM_ACTION_WRITE s = Some (true, s') /\
  has (translate (hw s') 0x37000 0x400000) ARCH_MMU_FLAGS_READ = false /\ translate (hw s') 0x37000 0x400000 = translate (hw s) 0x37000 0x400000.
Proof.
  assert (Q : (s ← write_only;
    '(b, s') ← vmm_pagefault 0x400000 true VMM_ACTION_WRITE s;
    Some (b, has (translate (hw s') 0x37000 0x400000) ARCH_MMU_FLAGS_READ, translate (hw s') 0x37000 0x400000, translate (hw s) 0x37000 0x400000)) =
    Some (true, false, 0x8000000000032006, 0x8000000000032006)) by (vm_compute; reflexivity).
  steps Q. subst. eexists _, _. split_and!; [done|eassumption|done|congruence].
Qed.

(** In a space without ranges a mapping of any length succeeds, past the end of
    the user's half. *)
Lemma empty_space_unchecked : exists s r, vmm_map 0x400000 USERSPACE_END 0 uflags NoPrivate m_user = Some (0x400000, s) /\
  range_at s 0x400000 = Some r /\ USERSPACE_END < start r + size_ r.
Proof.
  assert (Q : ('(a, s) ← vmm_map 0x400000 USERSPACE_END 0 uflags NoPrivate m_user; r ← range_at s 0x400000; Some (a, start r + size_ r)) =
    Some (0x400000 : Z, 0x800000400000 : Z)) by (vm_compute; reflexivity).
  steps Q. subst. eexists _, _. split_and!; [reflexivity|eassumption|]. unfold USERSPACE_END. lia.
Qed.

(** Shared anonymous memory, written, forked, and written again. *)
Definition shared_forked : option (machine * Z) :=
  '(_, s) ← vmm_map 0x400000 0x1000 (Z.lor VMM_FLAGS_EXACT VMM_FLAGS_SHARED) uflags NoPrivate m_user;
  s ← write_to 0x400000 s;
  '(_, s) ← vmm_fork (Some 3%nat) 1 s;
  x ← contexts s !! 3%nat;
  s ← write_to 0x400000 s;
  Some (s, pagetable x).

(** After a fork the next write to shared anonymous memory separates the two. *)
Lemma shared_anonymous_splits : exists s t, shared_forked = Some (s, t) /\
  phys (hw s) 0x37000 0x400000 <> phys (hw s) t 0x400000 /\ phys (hw s) t 0x400000 <> 0.
Proof.
  assert (Q : ('(s, t) ← shared_forked; Some (phys (hw s) 0x37000 0x400000, phys (hw s) t 0x400000)) = Some (0x2d000 : Z, 0x32000 : Z)) by (vm_compute; reflexivity).
  steps Q. eexists _, _. split_and!; [reflexivity|congruence|congruence].
Qed.
